(* ===== verification/_CoqProject ===== *)
-Q . S2P
Prelude.v
GoStrings.v
Utf8.v
Regex.v
Breaker.v
Glob.v
NetIP.v
Http.v
Json.v
Tables.v
GoTime.v
Vrn.v
Policy.v
Identity.v
Throttle.v
Actions.v
Rbac.v
Seed.v
Ipam.v
Sha256.v
Aes.v
ServiceAccounts.v
Workflow.v
Modules.v
Quota.v
Idempotency.v
Naming.v
Security.v
Kms.v
Ha.v
Sessions.v
Grants.v
Groups.v
Projects.v
Node.v
Compute.v
Migration.v
GoFloat.v
Hosts.v
Scheduler.v
AuditTrail.v
Abac.v
RateLimit.v
GoDecimal.v
ApiErrors.v
StackTemplates.v
Stacks.v
Validation.v
Pagination.v
HttpMiddleware.v
