(* ===== verification/Prelude.v ===== *)
(** * VC Stack, verified: overview

    VC Stack is a cloud management platform in Go: a management plane, which is
    one process made of service modules around an HTTP router and a database, and
    an agent on every compute node. This library translates parts of it to Rocq
    and proves what they promise. File names below are under src/.

    ** How the code is translated

    A Go function is a definition of the same name. Handlers map the request and
    the tables of the database to a response and new tables; methods under a mutex
    are one step each, and where requests interleave between them the component
    has a step relation or a machine. Errors are values of [result] or [option], a
    panic is a value of [outcome]. Go's int is [Z] with [wrap64] where a sum can
    overflow, a float64 is an IEEE number, a time is a number of nanoseconds, a
    string is a sequence of bytes. The clock, random bytes, new UUIDs and the
    outcome of database calls are arguments. Third-party code, and what Go leaves
    open, is an interface with its documented laws and an instance that satisfies
    them:
    - the ORM's treatment of zero values ([Quota.Gorm], [Http.Defaults]), queries
      ([Identity.IdentityStore], [Grants.Postgres]) and the order of rows
      ([Abac.OrderBy], [RateLimit.Descending], [Stacks.Queries]);
    - Unicode tables ([Utf8.RuneTables], [GoStrings.UnicodeTables]);
    - tokens, passwords and one-time codes ([Sessions.JWT], [Sessions.Bcrypt],
      [Sessions.TOTP]), bcrypt and HKDF in [ServiceAccounts], keys in
      [Compute.Keys];
    - the lock server ([Workflow.Locks.Redis]), the token buckets
      ([RateLimit.Limiters]), addresses of the network ([Hosts.Inet]);
    - sorting that is not stable ([Scheduler.Sorting]) and the order of loops over
      a map ([StackTemplates.MapOrder]).

    ** Go's standard library

    - GoStrings, Utf8, Glob, Regex: strings, unicode/utf8, path/filepath, regexp;
      matching by derivatives decides the language of an expression.
    - NetIP, GoTime, Http: net, time (RFC 3339), strconv, requests and answers.
    - Json: JSON text; what is marshalled is read back.
    - GoFloat, GoDecimal: float64 arithmetic, exact on small integers and on
      fractions of them by a power of two, and the decimal literals of JSON.
    - Sha256, Aes: crypto/sha256 and hmac, AES with its Galois/Counter Mode, and
      base64; opening undoes sealing and decoding undoes encoding.
    - Tables: rows of the database by key.

    ** Components

    Identity and access:
    - Vrn, Actions: pkg/iam. Resource names are read back as printed; matching.
    - Policy, Identity: the policy evaluator, conditions, boundaries, effective
      permissions and the simulator of internal/management/identity. Denials
      override; the simulator agrees with the evaluator; what authorization omits.
    - Throttle, Sessions: the login throttle, users, logins, tokens, the second
      factor and temporary credentials of the same package. Exactly when a login
      succeeds and what it issues, what a logout and a recovery code end.
    - Grants, Groups, Projects, Seed: roles, permissions, policies, groups,
      projects, the first administrator and the default roles. Which routes a
      session opens; what failed calls leave behind.
    - Rbac, HttpMiddleware: internal/management/middleware and pkg/apiversion. What
      passes a protected route, forged requests, limits per address, tracing.
    - ServiceAccounts: service accounts and API keys; revoked keys are refused.
    - Abac: internal/management/abac; when a policy governs a request, and that the
      first of those by priority decides.

    Computing:
    - Compute, Migration: internal/management/compute. Instances and their
      workflows, live migrations: what a migration moves, that an instance has at most
      one active migration where its requests come one after the other, and two where
      they overlap.
    - Hosts, Scheduler: internal/management/host and scheduler. Which hosts are up;
      the scheduler answers exactly if some host fits, where its arithmetic is exact.
    - Ha: internal/management/ha; evacuations account for every instance.
    - Node: internal/compute (resources.go, the pool of microVMs and the console
      ports); ports implement a map, accepted tasks are executed, and a microVM of
      the pool has one holder as long as each releases only what it holds.
    - Ipam: IP allocation and security groups of internal/management/network; the
      address that is given is free and in the range, and one is given if there is
      one.
    - StackTemplates, Stacks: internal/management/orchestration. Templates are
      accepted exactly if their dependency graph is closed and without cycles, and
      resources are created after what they depend on.

    Services of the platform:
    - Workflow: internal/management/workflow with crashes between any two effects,
      and its locks; completed tasks did all their steps, also where a save is lost;
      rolled-back ones undid them in the reverse order and every run ends, where the
      saves succeed.
    - Modules: the registry of service modules of internal/management; the order of
      initialization, which modules come up, and which of them without a service.
    - Quota: internal/management/quota; the use of a tenant is what the updates add
      up to, and a check compares it with the limit in force.
    - Kms, Security: internal/management/kms, pkg/security/crypto.go and its use in
      pkg/database; data and secrets are returned as they were until their key or
      row is destroyed, under one master key.
    - AuditTrail: internal/management/audit; the chain of log entries, what its
      verification detects and what it does not.
    - RateLimit: internal/management/ratelimit; how many requests pass in every
      interleaving of their steps, and how many when they arrive at once.
    - Breaker, Idempotency, Naming, Validation, Pagination, ApiErrors: the packages
      circuitbreaker, idempotency, naming, security (validation.go), pagination and
      errors of pkg.

    Components that call each other are composed. A login of Sessions gives the
    token that Rbac's middleware checks against what Grants stored; Compute's
    steps run on the engine of Workflow; Kms is built on Security's use of Aes;
    Seed and ServiceAccounts are checked against Rbac; Modules assembles the
    services, and Compute and Scheduler prove what its registry means for them;
    Stacks and HttpMiddleware answer with ApiErrors, HttpMiddleware admits through
    the buckets of RateLimit.

    ** Bounds and fuel

    Recursion is structural except in loops with fuel. That the fuel is enough is
    proved for the topological sort of the modules ([Modules.kahn_spec]), the
    searches and the sort of a template (StackTemplates: [dfs_spec], [visit_spec],
    [exchange_sort_sorted]), the count of addresses (Ipam: [count_from_range]), the
    collapse of hyphens (Naming: [collapse_done]), a migration (Migration:
    [executed]), the runs of a workflow (Workflow: [run_ends]) and the pages of a
    client (Pagination: [pages_complete]). The search for an address and the
    nesting of JSON stop at limits which the code and Go's decoder have themselves.
    For the rest the bound is argued where it is chosen, not proved: the loops of
    Glob and of IPv6 addresses take a byte or a group in each round, the lists of
    JSON an element, a sort of Ha a target. GoDecimal tries up to 17 digits, which
    identify every float64 by a known result on IEEE numbers; it is checked here on
    examples only.

    ** Not modelled

    The drivers of QEMU, Firecracker, OVN and Ceph, SSH deployments, and process
    start, logging, metrics and telemetry are input and output. The command line
    client, the SDK, the Terraform provider and the web console are clients of the
    HTTP interface. The packages dlock and mq call the clients of etcd and Kafka.
    Other parts have logic of their own and are left out because of the extent of
    the program: federated logins and the access analyzer, the gateway, pkg/vcredis,
    the agent's services, HPC and GPU scheduling, encryption, drift of stacks, the
    network's handlers, DNS, VPN and the other network services, storage and images,
    disaster recovery, monitoring and alerting, budgets, autoscaling, the managed
    services, tenancy, tasks and events. Nothing is claimed of them. Routes are
    modelled where a theorem needs them. *)
From Stdlib Require Export ZArith Lia.
From stdpp Require Export base list gmap sets strings sorting option numbers.

(** ** Results of fallible Go functions *)

(** A Go function returning [(T, error)] either yields a value or an error. *)
Inductive result (E A : Type) : Type :=
| Ok (a : A)
| Err (e : E).
Arguments Ok {E A} a.
Arguments Err {E A} e.

#[export] Instance result_eq_dec `{EqDecision E, EqDecision A} :
  EqDecision (result E A).
Proof. solve_decision. Defined.

Definition is_ok {E A} (r : result E A) : bool :=
  match r with Ok _ => true | Err _ => false end.

Declare Scope go_scope.
Delimit Scope go_scope with go.

Notation "'try' x <- c ; k" :=
  (match c with Ok x => k | Err e => Err e end)
  (at level 60, x pattern, c at next level, k at level 200, right associativity) : go_scope.

(** ** Machine integers *)

(** The value that an int64 holds after an operation with result [x]. *)
Definition wrap64 (x : Z) : Z := ((x + 2 ^ 63) mod 2 ^ 64 - 2 ^ 63)%Z.

Lemma wrap64_id x : (- 2 ^ 63 <= x < 2 ^ 63)%Z → wrap64 x = x.
Proof. intros Hx. unfold wrap64. rewrite Z.mod_small; lia. Qed.

(** ** Time: instants and durations in nanoseconds *)

(** [time.Time]'s zero value, January 1 of year 1 UTC, in Unix nanoseconds. *)
Definition time_zero : Z := -62135596800000000000.

Definition min_duration : Z := - 2 ^ 63.
Definition max_duration : Z := 2 ^ 63 - 1.

(** [t.Sub(u)], which saturates at the ends of [time.Duration]. *)
Definition time_sub (t u : Z) : Z :=
  Z.max min_duration (Z.min max_duration (t - u)).

Definition second : Z := 1000000000.
Definition minute : Z := 60 * second.
Definition hour : Z := 60 * minute.

(** ** Automation *)

(** Split on every boolean comparison of integers and every [match] or [if] of
    the goal, keeping the equations. *)
Ltac case_goal :=
  repeat match goal with
  | |- context [if ?b then _ else _] => destruct b eqn:?
  | |- context [match ?x with _ => _ end] => destruct x eqn:?
  end.

Ltac case_hyp H :=
  repeat match type of H with
  | context [if ?b then _ else _] => destruct b eqn:?
  | context [match ?x with _ => _ end] => destruct x eqn:?
  end.

(** Evaluate the comparisons of the goal that arithmetic decides. *)
Ltac zdecide :=
  repeat first
    [ match goal with |- context [(?a <? ?b)%Z] =>
        first [ rewrite (proj2 (Z.ltb_lt a b)) by lia | rewrite (proj2 (Z.ltb_ge a b)) by lia ] end
    | match goal with |- context [(?a <=? ?b)%Z] =>
        first [ rewrite (proj2 (Z.leb_le a b)) by lia | rewrite (proj2 (Z.leb_gt a b)) by lia ] end
    | match goal with |- context [(?a =? ?b)%Z] =>
        first [ rewrite (proj2 (Z.eqb_eq a b)) by lia | rewrite (proj2 (Z.eqb_neq a b)) by lia ] end ];
  cbn [andb orb negb].

Ltac zbool :=
  repeat match goal with
  | H : (_ <? _)%Z = true |- _ => apply Z.ltb_lt in H
  | H : (_ <? _)%Z = false |- _ => apply Z.ltb_ge in H
  | H : (_ <=? _)%Z = true |- _ => apply Z.leb_le in H
  | H : (_ <=? _)%Z = false |- _ => apply Z.leb_gt in H
  | H : (_ =? _)%Z = true |- _ => apply Z.eqb_eq in H
  | H : (_ =? _)%Z = false |- _ => apply Z.eqb_neq in H
  | H : _ && _ = true |- _ => apply andb_true_iff in H as [? ?]
  | H : _ || _ = false |- _ => apply orb_false_iff in H as [? ?]
  | H : negb _ = true |- _ => apply negb_true_iff in H
  | H : negb _ = false |- _ => apply negb_false_iff in H
  | H : bool_decide _ = true |- _ => apply bool_decide_eq_true_1 in H
  | H : bool_decide _ = false |- _ => apply bool_decide_eq_false_1 in H
  end.

(** ** Lists *)

Lemma existsb_elem {A} (f : A → bool) l : existsb f l = true ↔ ∃ x, x ∈ l ∧ f x = true.
Proof.
  rewrite existsb_exists. split; intros (x&?&?); exists x; by rewrite list_elem_of_In in *.
Qed.

Lemma forallb_elem {A} (f : A → bool) l : forallb f l = true ↔ ∀ x, x ∈ l → f x = true.
Proof.
  rewrite forallb_forall. split; intros H x Hx; apply H; by rewrite list_elem_of_In in *.
Qed.

Lemma elem_of_concat {A} (x : A) ls : x ∈ concat ls ↔ ∃ l, l ∈ ls ∧ x ∈ l.
Proof. rewrite list_elem_of_In, in_concat. by setoid_rewrite <-list_elem_of_In. Qed.

(** A filter keeps a list whose elements all pass. *)
Lemma filter_all {A} (P : A → Prop) `{∀ x, Decision (P x)} (l : list A) :
  Forall P l → filter P l = l.
Proof.
  induction 1 as [|x l Hx Hl IH]; [done|]. by rewrite filter_cons_True, IH.
Qed.

(** Searches. *)
Lemma find_fmap {A} (P : A → bool) (g : A → A) l :
  (∀ x, P (g x) = P x) → List.find P (g <$> l) = g <$> List.find P l.
Proof.
  intros HP. induction l as [|x l IH]; [done|]. simpl. rewrite HP. by destruct (P x).
Qed.

Lemma find_app_none {A} (P : A → bool) l r :
  List.find P l = None → List.find P (l ++ r) = List.find P r.
Proof. induction l as [|x l IH]; [done|]. simpl. by destruct (P x). Qed.

Lemma find_app_some {A} (P : A → bool) l r x :
  List.find P l = Some x → List.find P (l ++ r) = Some x.
Proof. induction l as [|y l IH]; [done|]. simpl. by destruct (P y). Qed.

Lemma find_elem {A} (P : A → bool) l x : List.find P l = Some x → x ∈ l ∧ P x = true.
Proof. intros H. apply List.find_some in H as [H ?]. by split; [apply list_elem_of_In|]. Qed.

Lemma find_none_elem {A} (P : A → bool) l : List.find P l = None ↔ ∀ x, x ∈ l → P x = false.
Proof.
  split.
  - intros H x Hx. eapply List.find_none; [exact H|by apply list_elem_of_In].
  - induction l as [|y l IH]; intros H; [done|]. simpl. rewrite (H y) by left. apply IH. intros x Hx.
    apply H. by right.
Qed.

(** A key that occurs once in a list names one element. *)
Lemma nodup_key {A B} (g : A → B) l x y : NoDup (g <$> l) → x ∈ l → y ∈ l → g x = g y → x = y.
Proof.
  induction l as [|z l IH]; simpl; intros Hn Hx Hy E; [by apply not_elem_of_nil in Hx|].
  apply list.NoDup_cons in Hn as [Hz Hn].
  apply elem_of_cons in Hx as [->|Hx]; apply elem_of_cons in Hy as [->|Hy].
  - done.
  - destruct Hz. rewrite E. by apply list_elem_of_fmap_2.
  - destruct Hz. rewrite <- E. by apply list_elem_of_fmap_2.
  - by apply IH.
Qed.
