(* ===== verification/GoStrings.v ===== *)
(** * Go strings

    The functions of Go's packages [strings], [unicode/utf8] and
    [path/filepath] that the modelled code calls. A Go string is a sequence of
    bytes: a [string] of [ascii] characters. *)
From S2P Require Import Prelude.
From Stdlib Require Import Ascii.

(** ** Bytes *)

Definition byte_of (c : ascii) : Z := Z.of_N (N_of_ascii c).

Definition byte_in (lo hi : ascii) (c : ascii) : bool :=
  ((byte_of lo <=? byte_of c) && (byte_of c <=? byte_of hi))%Z.

Definition is_ascii (c : ascii) : bool := (byte_of c <? 128)%Z.

(** ** Package strings *)

(** [s[n:]] *)
Fixpoint str_drop (n : nat) (s : string) : string :=
  match n, s with
  | O, _ => s
  | S n, EmptyString => EmptyString
  | S n, String _ s => str_drop n s
  end.

#[global] Arguments str_drop !_ !_ /.

(** [s[:n]] *)
Fixpoint str_take (n : nat) (s : string) : string :=
  match n, s with
  | O, _ => EmptyString
  | S n, EmptyString => EmptyString
  | S n, String c s => String c (str_take n s)
  end.

#[global] Arguments str_take !_ !_ /.

Fixpoint str_len (s : string) : nat :=
  match s with EmptyString => 0 | String _ s => S (str_len s) end.

Fixpoint HasPrefix (s p : string) {struct p} : bool :=
  match p, s with
  | EmptyString, _ => true
  | String a p, String b s => bool_decide (a = b) && HasPrefix s p
  | String _ _, EmptyString => false
  end.

Definition HasSuffix (s suf : string) : bool :=
  (str_len suf <=? str_len s)%nat
  && bool_decide (str_drop (str_len s - str_len suf) s = suf).

Definition TrimSuffix (s suf : string) : string :=
  if HasSuffix s suf then str_take (str_len s - str_len suf) s else s.

Definition TrimPrefix (s p : string) : string :=
  if HasPrefix s p then str_drop (str_len p) s else s.

(** The index of a byte, as [strings.Index] of a one-byte string. *)
Fixpoint IndexByte (s : string) (c : ascii) : option nat :=
  match s with
  | EmptyString => None
  | String a s =>
      if decide (a = c) then Some 0 else S <$> IndexByte s c
  end.

Fixpoint str_mem (c : ascii) (s : string) : bool :=
  match s with
  | EmptyString => false
  | String a s => bool_decide (a = c) || str_mem c s
  end.

(** The parts of a string around the first occurrence of a byte. *)
Fixpoint str_cut (c : ascii) (s : string) : option (string * string) :=
  match s with
  | EmptyString => None
  | String a s =>
      if decide (a = c) then Some (EmptyString, s)
      else match str_cut c s with
           | Some (l, r) => Some (String a l, r)
           | None => None
           end
  end.

(** [strings.SplitN(s, sep, n)] for a one-byte separator and [n > 0]. *)
Fixpoint SplitN (s : string) (sep : ascii) (n : nat) : list string :=
  match n with
  | 0 => []
  | 1 => [s]
  | S n' =>
      match str_cut sep s with
      | Some (l, r) => l :: SplitN r sep n'
      | None => [s]
      end
  end.

Fixpoint str_concat (sep : string) (l : list string) : string :=
  match l with
  | [] => ""
  | [x] => x
  | x :: l => x +:+ sep +:+ str_concat sep l
  end.

Definition ascii_lower (c : ascii) : ascii :=
  if byte_in "A" "Z" c then ascii_of_N (N_of_ascii c + 32) else c.

Fixpoint str_map (f : ascii → ascii) (s : string) : string :=
  match s with
  | EmptyString => EmptyString
  | String c s => String (f c) (str_map f s)
  end.

Fixpoint str_forall (f : ascii → bool) (s : string) : bool :=
  match s with
  | EmptyString => true
  | String c s => f c && str_forall f s
  end.

(** [[]byte(s)]. *)
Fixpoint bytes_of (s : string) : list Z :=
  match s with EmptyString => [] | String c s => byte_of c :: bytes_of s end.

(** The Unicode tables of the Go library, which the model does not spell out:
    case folding of strings that are not pure ASCII. *)
Class UnicodeTables := {
  unicode_EqualFold : string → string → bool
}.

(** Tables that fold no character beyond ASCII; the witnesses use them, their
    strings being ASCII. *)
Definition ascii_only : UnicodeTables :=
  {| unicode_EqualFold s t := bool_decide (s = t) |}.

(** [strings.Contains]. *)
Fixpoint str_contains (s sub : string) : bool :=
  HasPrefix s sub || match s with EmptyString => false | String _ s => str_contains s sub end.

(** [strings.ReplaceAll] of a substring that is not empty; the first [skip] bytes
    belong to an occurrence that is already replaced. *)
Fixpoint replace_from (s old new : string) (skip : nat) : string :=
  match s with
  | EmptyString => EmptyString
  | String c s' =>
      match skip with
      | S skip => replace_from s' old new skip
      | O =>
          if HasPrefix s old then new +:+ replace_from s' old new (str_len old - 1)
          else String c (replace_from s' old new 0)
      end
  end.

Definition ReplaceAll (s old new : string) : string := replace_from s old new 0.

(** [strings.Split] at a byte. *)
Definition Split (s : string) (c : ascii) : list string := SplitN s c (S (str_len s)).

(** [strings.EqualFold]: bytewise while both strings are ASCII, by the Unicode
    tables from the first other byte on. *)
Fixpoint EqualFold `{UnicodeTables} (s t : string) : bool :=
  match s, t with
  | EmptyString, EmptyString => true
  | String a s', String b t' =>
      if is_ascii a && is_ascii b then
        bool_decide (ascii_lower a = ascii_lower b) && EqualFold s' t'
      else unicode_EqualFold s t
  | EmptyString, String b _ => if is_ascii b then false else unicode_EqualFold s t
  | String a _, EmptyString => if is_ascii a then false else unicode_EqualFold s t
  end.

(** ** Lemmas *)

Lemma str_app_nil_l (s : string) : "" +:+ s = s.
Proof. done. Qed.

Lemma str_app_cons (c : ascii) (s t : string) : String c s +:+ t = String c (s +:+ t).
Proof. done. Qed.

Lemma str_app_nil_r (s : string) : s +:+ "" = s.
Proof. induction s as [|c s IH]; [done|]. by rewrite str_app_cons, IH. Qed.

Lemma str_app_assoc (s t u : string) : (s +:+ t) +:+ u = s +:+ t +:+ u.
Proof. induction s as [|c s IH]; [done|]. by rewrite !str_app_cons, IH. Qed.

Lemma str_len_app s t : str_len (s +:+ t) = str_len s + str_len t.
Proof. induction s as [|c s IH]; [done|]. rewrite str_app_cons; simpl. by rewrite IH. Qed.

Lemma str_app_inj_l (s t u : string) : s +:+ t = s +:+ u → t = u.
Proof. induction s as [|c s IH]; [done|]. rewrite !str_app_cons. naive_solver. Qed.

Lemma str_drop_app s t : str_drop (str_len s) (s +:+ t) = t.
Proof. induction s as [|c s IH]; [done|]. by rewrite str_app_cons. Qed.

Lemma str_take_app s t : str_take (str_len s) (s +:+ t) = s.
Proof. induction s as [|c s IH]; [done|]. rewrite str_app_cons; simpl. by rewrite IH. Qed.

Lemma str_app_inj_r (s t u : string) : s +:+ u = t +:+ u → s = t.
Proof.
  intros E. pose proof (f_equal str_len E) as El. rewrite !str_len_app in El.
  rewrite <-(str_take_app s u), E.
  replace (str_len s) with (str_len t) by lia. apply str_take_app.
Qed.

Lemma str_take_drop n s : str_take n s +:+ str_drop n s = s.
Proof.
  revert s; induction n as [|n IH]; intros [|c s]; try done.
  simpl. by rewrite str_app_cons, IH.
Qed.

Lemma str_take_len n s : n ≤ str_len s → str_len (str_take n s) = n.
Proof.
  revert s; induction n as [|n IH]; intros [|c s] Hn; simpl in *; try done; try lia.
  rewrite IH; lia.
Qed.

Lemma HasPrefix_spec s p : HasPrefix s p = true ↔ ∃ t, s = p +:+ t.
Proof.
  revert s; induction p as [|a p IH]; intros s; simpl.
  { split; [|by destruct s]. intros _. by exists s. }
  destruct s as [|b s].
  { split; [done|]. intros [t Ht]. by rewrite str_app_cons in Ht. }
  rewrite andb_true_iff, bool_decide_eq_true, IH. split.
  - intros [-> [t ->]]. exists t. by rewrite str_app_cons.
  - intros [t Ht]. rewrite str_app_cons in Ht. injection Ht as -> ->. eauto.
Qed.

Lemma HasSuffix_spec s suf : HasSuffix s suf = true ↔ ∃ t, s = t +:+ suf.
Proof.
  unfold HasSuffix. rewrite andb_true_iff, Nat.leb_le, bool_decide_eq_true. split.
  - intros [_ H]. exists (str_take (str_len s - str_len suf) s).
    rewrite <-H at 2. by rewrite str_take_drop.
  - intros [t ->]. rewrite str_len_app. split; [lia|].
    replace (str_len t + str_len suf - str_len suf) with (str_len t) by lia.
    apply str_drop_app.
Qed.

Lemma str_mem_app c s t : str_mem c (s +:+ t) = str_mem c s || str_mem c t.
Proof.
  induction s as [|a s IH]; [done|]. rewrite str_app_cons; simpl. rewrite IH.
  by rewrite orb_assoc.
Qed.

(** Cutting at the first separator undoes a concatenation around it. *)
Lemma str_cut_app c l r :
  str_mem c l = false → str_cut c (l +:+ String c r) = Some (l, r).
Proof.
  induction l as [|a l IH]; intros Hm; rewrite ?str_app_nil_l, ?str_app_cons; simpl in *.
  { by rewrite decide_True. }
  zbool. rewrite decide_False by done. by rewrite IH.
Qed.

Lemma str_cut_Some c s l r :
  str_cut c s = Some (l, r) → s = l +:+ String c r ∧ str_mem c l = false.
Proof.
  revert l r; induction s as [|a s IH]; intros l r H; simpl in H; [done|].
  case_decide as Ha; simplify_eq; [done|].
  destruct (str_cut c s) as [[l' r']|]; [|done]. simplify_eq.
  destruct (IH l' r eq_refl) as [-> Hm]. split; [done|]. simpl.
  by rewrite Hm, bool_decide_eq_false_2.
Qed.

Lemma str_cut_None c s : str_cut c s = None ↔ str_mem c s = false.
Proof.
  induction s as [|a s IH]; [done|]. simpl. case_decide as Ha.
  { by rewrite bool_decide_eq_true_2. }
  rewrite bool_decide_eq_false_2 by done. simpl. rewrite <-IH.
  by destruct (str_cut c s) as [[]|].
Qed.

Lemma IndexByte_cut s c :
  IndexByte s c = (λ p, str_len p.1) <$> str_cut c s.
Proof.
  induction s as [|a s IH]; [done|]. simpl. case_decide; [done|].
  rewrite IH. by destruct (str_cut c s) as [[]|].
Qed.

Lemma str_cut_take_drop s c l r :
  str_cut c s = Some (l, r) →
  str_take (str_len l) s = l ∧ str_drop (S (str_len l)) s = r.
Proof.
  intros H. apply str_cut_Some in H as [-> _]. split; [apply str_take_app|].
  induction l as [|a l IH]; [done|]. by rewrite str_app_cons.
Qed.

Lemma SplitN_step l r c n :
  str_mem c l = false →
  SplitN (l +:+ String c r) c (S (S n)) = l :: SplitN r c (S n).
Proof.
  intros H. change (SplitN ?s c (S (S n))) with
    (match str_cut c s with Some (l, r) => l :: SplitN r c (S n) | None => [s] end).
  by rewrite str_cut_app.
Qed.

(** Splitting and joining again gives the string back. *)
Lemma SplitN_join s c n : str_concat (String c "") (SplitN s c (S n)) = s.
Proof.
  revert s; induction n as [|n IH]; intros s; [done|].
  change (SplitN s c (S (S n))) with
    (match str_cut c s with Some (l, r) => l :: SplitN r c (S n) | None => [s] end).
  destruct (str_cut c s) as [[l r]|] eqn:E; [|done].
  apply str_cut_Some in E as [-> _]. rewrite <-(IH r) at 2.
  destruct (SplitN r c (S n)) eqn:E; [|done].
  simpl in E. destruct n; [done|]. by destruct (str_cut c r) as [[]|].
Qed.

Lemma str_forall_app f s t : str_forall f (s +:+ t) = str_forall f s && str_forall f t.
Proof.
  induction s as [|a s IH]; [done|]. rewrite str_app_cons. simpl. rewrite IH. by rewrite andb_assoc.
Qed.

Lemma str_forall_mono (f g : ascii → bool) s :
  (∀ c, f c = true → g c = true) → str_forall f s = true → str_forall g s = true.
Proof. intros Hfg. induction s as [|a s IH]; simpl; [done|]. rewrite !andb_true_iff. naive_solver. Qed.

Lemma str_contains_spec s sub : str_contains s sub = true ↔ ∃ a b, s = a +:+ sub +:+ b.
Proof.
  induction s as [|c s IH]; simpl; rewrite orb_true_iff, HasPrefix_spec.
  - split; [intros [[t E]|?]; [by exists "", t|done]|].
    intros ([|] & b & E); [left; by exists b|done].
  - rewrite IH. split.
    + intros [[t E]|(a & b & ->)]; [by exists "", t|by exists (String c a), b].
    + intros ([|c' a] & b & E); [left; by exists b|right]. injection E as _ ->. by exists a, b.
Qed.

(** A substring contains no more than the string. *)
Lemma str_contains_sub a s b sub :
  str_contains (a +:+ s +:+ b) sub = false → str_contains s sub = false.
Proof.
  intros H. apply not_true_iff_false. apply not_true_iff_false in H. contradict H.
  apply str_contains_spec in H as (x & y & ->). apply str_contains_spec.
  exists (a +:+ x), (y +:+ b). by rewrite !str_app_assoc.
Qed.

Lemma bytes_of_app s t : bytes_of (s +:+ t) = (bytes_of s ++ bytes_of t)%list.
Proof. induction s as [|a s IH]; [done|]. rewrite str_app_cons. simpl. by rewrite IH. Qed.

Lemma length_bytes_of s : length (bytes_of s) = str_len s.
Proof. induction s as [|a s IH]; simpl; congruence. Qed.

Lemma str_forall_bytes (f : Z → bool) s :
  str_forall (λ c, f (byte_of c)) s = true ↔ Forall (λ b, f b = true) (bytes_of s).
Proof.
  induction s as [|a s IH]; simpl; [split; constructor|].
  by rewrite andb_true_iff, list.Forall_cons, IH.
Qed.

(** ** Sorting *)

(** [sort.Strings]. *)
Fixpoint string_leb (s t : string) : bool :=
  match s, t with
  | EmptyString, _ => true
  | String _ _, EmptyString => false
  | String a s, String b t =>
      if (byte_of a <? byte_of b)%Z then true
      else if (byte_of b <? byte_of a)%Z then false
      else string_leb s t
  end.

Fixpoint insert_string (x : string) (l : list string) : list string :=
  match l with
  | [] => [x]
  | y :: l => if string_leb x y then x :: y :: l else y :: insert_string x l
  end.

Definition Strings (l : list string) : list string := foldr insert_string [] l.

Lemma insert_string_perm x l : insert_string x l ≡ₚ x :: l.
Proof.
  induction l as [|y l IH]; simpl; [done|]. destruct (string_leb x y); [done|].
  rewrite IH. apply Permutation_swap.
Qed.

Lemma Strings_perm l : Strings l ≡ₚ l.
Proof. induction l as [|x l IH]; simpl; [done|]. by rewrite insert_string_perm, IH. Qed.

Lemma byte_of_inj a b : byte_of a = byte_of b → a = b.
Proof. unfold byte_of. intros E. rewrite <- (Ascii.ascii_N_embedding a), <- (Ascii.ascii_N_embedding b). f_equal. lia. Qed.

Lemma string_leb_total s t : string_leb s t = false → string_leb t s = true.
Proof.
  revert t. induction s as [|a s IH]; intros [|b t]; simpl; try done.
  destruct (Z.ltb_spec (byte_of a) (byte_of b)), (Z.ltb_spec (byte_of b) (byte_of a)); try done; try lia. apply IH.
Qed.

Lemma string_leb_antisym s t : string_leb s t = true → string_leb t s = true → s = t.
Proof.
  revert t. induction s as [|a s IH]; intros [|b t]; simpl; try done.
  destruct (Z.ltb_spec (byte_of a) (byte_of b)), (Z.ltb_spec (byte_of b) (byte_of a)); try done; try lia.
  intros H1 H2. f_equal; [apply byte_of_inj; lia|by apply IH].
Qed.

Lemma string_leb_trans s t u : string_leb s t = true → string_leb t u = true → string_leb s u = true.
Proof.
  revert t u. induction s as [|a s IH]; intros [|b t] [|c u]; simpl; try done.
  destruct (Z.ltb_spec (byte_of a) (byte_of b)), (Z.ltb_spec (byte_of b) (byte_of a)),
    (Z.ltb_spec (byte_of b) (byte_of c)), (Z.ltb_spec (byte_of c) (byte_of b)),
    (Z.ltb_spec (byte_of a) (byte_of c)), (Z.ltb_spec (byte_of c) (byte_of a)); try done; try lia.
  apply IH.
Qed.
