(* ===== verification/Utf8.v ===== *)
(** * UTF-8

    The parts of Go's unicode/utf8 and strings packages that work on runes: a
    string as the runes a range loop yields, with the bytes of each, the encoding
    of a rune, [strings.Map], [strings.ToLower] and [strings.TrimSpace]. The case
    tables of the unicode package are an interface. The theorems say that decoding
    loses no byte and undoes the encoding. *)
From Stdlib Require Import Ascii.
From S2P Require Import Prelude GoStrings.
Local Open Scope Z_scope.

Definition RuneError : Z := 65533.

(** The byte with the given value. *)
Definition chr (z : Z) : ascii := ascii_of_N (Z.to_N z).

Definition cont (lo hi : Z) (c : ascii) : bool := (lo <=? byte_of c) && (byte_of c <=? hi).

(** The bounds of the second byte by the first. *)
Definition second_range (b : Z) : Z * Z :=
  if b =? 224 then (160, 191) else if b =? 237 then (128, 159)
  else if b =? 240 then (144, 191) else if b =? 244 then (128, 143) else (128, 191).

Definition low6 (c : ascii) : Z := byte_of c mod 64.

(** The runes of a string, each with its bytes; a byte that begins no valid
    sequence is a rune of its own, [RuneError]. *)
Fixpoint chunks (s : string) : list (Z * string) :=
  match s with
  | EmptyString => []
  | String c0 s1 =>
      let b := byte_of c0 in
      let bad (_ : unit) := (RuneError, String c0 "") :: chunks s1 in
      let (lo, hi) := second_range b in
      if b <? 128 then (b, String c0 "") :: chunks s1
      else if (b <? 194) || (244 <? b) then bad tt
      else
        match s1 with
        | EmptyString => bad tt
        | String c1 s2 =>
            if negb (cont lo hi c1) then bad tt
            else if b <? 224 then
              (b mod 32 * 64 + low6 c1, String c0 (String c1 "")) :: chunks s2
            else
              match s2 with
              | EmptyString => bad tt
              | String c2 s3 =>
                  if negb (cont 128 191 c2) then bad tt
                  else if b <? 240 then
                    (b mod 16 * 4096 + low6 c1 * 64 + low6 c2,
                     String c0 (String c1 (String c2 ""))) :: chunks s3
                  else
                    match s3 with
                    | EmptyString => bad tt
                    | String c3 s4 =>
                        if negb (cont 128 191 c3) then bad tt
                        else
                          (b mod 8 * 262144 + low6 c1 * 4096 + low6 c2 * 64 + low6 c3,
                           String c0 (String c1 (String c2 (String c3 "")))) :: chunks s4
                    end
              end
        end
  end.

Definition runes (s : string) : list Z := fst <$> chunks s.

Definition RuneCountInString (s : string) : Z := Z.of_nat (length (runes s)).

Definition valid_rune (r : Z) : bool :=
  (0 <=? r) && (r <=? 1114111) && negb ((55296 <=? r) && (r <=? 57343)).

(** [utf8.AppendRune] to a string, the rune coming first. *)
Definition encode_rune (r : Z) (t : string) : string :=
  let r := if valid_rune r then r else RuneError in
  if r <? 128 then String (chr r) t
  else if r <? 2048 then String (chr (192 + r / 64)) (String (chr (128 + r mod 64)) t)
  else if r <? 65536 then
    String (chr (224 + r / 4096))
      (String (chr (128 + r / 64 mod 64)) (String (chr (128 + r mod 64)) t))
  else
    String (chr (240 + r / 262144))
      (String (chr (128 + r / 4096 mod 64))
        (String (chr (128 + r / 64 mod 64)) (String (chr (128 + r mod 64)) t))).

Definition encode (rs : list Z) : string := foldr encode_rune "" rs.

(** [strings.Map], whose function drops a rune by returning a negative one. *)
Definition Map (f : Z → Z) (s : string) : string :=
  encode (filter (λ r, 0 <= r) (f <$> runes s)).

(** [unicode.IsSpace]. *)
Definition IsSpace (r : Z) : bool :=
  bool_decide (r ∈ [9; 10; 11; 12; 13; 32; 133; 160; 5760; 8232; 8233; 8239; 8287; 12288])
  || ((8192 <=? r) && (r <=? 8202)).

(** [unicode.IsControl]. *)
Definition IsControl (r : Z) : bool :=
  ((0 <=? r) && (r <? 32)) || ((127 <=? r) && (r <? 160)).

Fixpoint drop_spaces (cs : list (Z * string)) : list (Z * string) :=
  match cs with
  | [] => []
  | c :: cs' => if IsSpace c.1 then drop_spaces cs' else cs
  end.

Definition join (cs : list (Z * string)) : string := foldr (λ c s, c.2 +:+ s) "" cs.

Definition TrimSpace (s : string) : string :=
  join (reverse (drop_spaces (reverse (drop_spaces (chunks s))))).

(** The case and category tables of the unicode package, with their part for
    ASCII. *)
Class RuneTables := {
  rune_ToLower : Z → Z;
  IsLetter : Z → bool;
  IsNumber : Z → bool;
  IsPrint : Z → bool;
  rune_ToLower_ascii r : 0 <= r < 128 →
    rune_ToLower r = if (65 <=? r) && (r <=? 90) then r + 32 else r;
  rune_ToLower_rune r : 0 <= r → 0 <= rune_ToLower r;
  IsLetter_ascii r : 0 <= r < 128 →
    IsLetter r = ((65 <=? r) && (r <=? 90)) || ((97 <=? r) && (r <=? 122));
  IsNumber_ascii r : 0 <= r < 128 → IsNumber r = (48 <=? r) && (r <=? 57);
  IsPrint_ascii r : 0 <= r < 128 → IsPrint r = (32 <=? r) && (r <=? 126)
}.

(** [strings.ToLower]. *)
Definition ToLower `{RuneTables} (s : string) : string := Map rune_ToLower s.

(** Tables with no letter beyond ASCII. *)
Definition ascii_runes : RuneTables.
Proof.
  refine {|
    rune_ToLower r := if (65 <=? r) && (r <=? 90) then r + 32 else r;
    IsLetter r := ((65 <=? r) && (r <=? 90)) || ((97 <=? r) && (r <=? 122));
    IsNumber r := (48 <=? r) && (r <=? 57);
    IsPrint r := (32 <=? r) && (r <=? 126)
  |}; try done.
  intros r Hr. case_goal; lia.
Defined.

(** [strconv.Quote], which is also the verb %q of fmt. *)
Fixpoint hex_digits (width : nat) (n : Z) (t : string) : string :=
  match width with
  | O => t
  | S w => hex_digits w (n / 16) (String (chr (n mod 16 + (if n mod 16 <? 10 then 48 else 87))) t)
  end.

Definition quote_rune `{RuneTables} (c : Z * string) : string :=
  let (r, bytes) := c in
  let escape (e t : string) := String (chr 92) (e +:+ t) in
  if (r =? RuneError) && (str_len bytes =? 1)%nat
  then escape "x" (hex_digits 2 (foldr Z.add 0 (bytes_of bytes)) "")
  else if (r =? 34) || (r =? 92) then String (chr 92) bytes
  else if IsPrint r then bytes
  else if r =? 7 then escape "a" "" else if r =? 8 then escape "b" "" else if r =? 12 then escape "f" ""
  else if r =? 10 then escape "n" "" else if r =? 13 then escape "r" "" else if r =? 9 then escape "t" ""
  else if r =? 11 then escape "v" ""
  else if (r <? 32) || (r =? 127) then escape "x" (hex_digits 2 r "")
  else if r <? 65536 then escape "u" (hex_digits 4 r "")
  else escape "U" (hex_digits 8 r "").

Definition Quote `{RuneTables} (s : string) : string :=
  String (chr 34) (foldr (λ c t, quote_rune c +:+ t) (String (chr 34) "") (chunks s)).

(** ** Decoding *)

Lemma chunks_cons c0 s1 :
  chunks (String c0 s1) =
  let b := byte_of c0 in
  let bad := (RuneError, String c0 "") :: chunks s1 in
  let (lo, hi) := second_range b in
  if b <? 128 then (b, String c0 "") :: chunks s1
  else if (b <? 194) || (244 <? b) then bad
  else
    match s1 with
    | EmptyString => bad
    | String c1 s2 =>
        if negb (cont lo hi c1) then bad
        else if b <? 224 then
          (b mod 32 * 64 + low6 c1, String c0 (String c1 "")) :: chunks s2
        else
          match s2 with
          | EmptyString => bad
          | String c2 s3 =>
              if negb (cont 128 191 c2) then bad
              else if b <? 240 then
                (b mod 16 * 4096 + low6 c1 * 64 + low6 c2,
                 String c0 (String c1 (String c2 ""))) :: chunks s3
              else
                match s3 with
                | EmptyString => bad
                | String c3 s4 =>
                    if negb (cont 128 191 c3) then bad
                    else
                      (b mod 8 * 262144 + low6 c1 * 4096 + low6 c2 * 64 + low6 c3,
                       String c0 (String c1 (String c2 (String c3 "")))) :: chunks s4
                end
          end
    end.
Proof. done. Qed.

(** Decoding loses no byte. *)
Theorem join_chunks s : join (chunks s) = s.
Proof.
  remember (str_len s) as n eqn:Hn. assert (str_len s <= n)%nat as Hs by lia. clear Hn.
  revert s Hs. induction n as [|n IH]; intros [|c0 s1] Hs; try done; [simpl in Hs; lia|].
  assert (∀ c t, (str_len t <= n)%nat → join (c :: chunks t) = c.2 +:+ t) as IH'.
  { intros c t Ht. change (c.2 +:+ join (chunks t) = c.2 +:+ t). by rewrite IH. }
  clear IH. rewrite chunks_cons. cbv zeta. simpl in Hs. destruct (second_range (byte_of c0)) as [lo hi].
  case_goal; subst; rewrite IH'; simpl in *; try lia; done.
Qed.

Lemma byte_of_nonneg c : 0 <= byte_of c < 256.
Proof. unfold byte_of. pose proof (N_ascii_bounded c). lia. Qed.

Lemma byte_of_chr z : 0 <= z < 256 → byte_of (chr z) = z.
Proof. intros Hz. unfold byte_of, chr. rewrite N_ascii_embedding; lia. Qed.

Lemma chr_byte_of c : chr (byte_of c) = c.
Proof. unfold byte_of, chr. rewrite N2Z.id. apply ascii_N_embedding. Qed.

Definition in_second (b c : Z) : Prop := (second_range b).1 <= c <= (second_range b).2.

Lemma second_range_byte b : 128 <= (second_range b).1 ∧ (second_range b).2 <= 191.
Proof. unfold second_range. case_goal; simpl; lia. Qed.

(** Decoding valid sequences of two, three and four bytes. *)
Lemma chunks_two b0 b1 t :
  194 <= b0 < 224 → in_second b0 b1 →
  chunks (String (chr b0) (String (chr b1) t)) =
  (b0 mod 32 * 64 + b1 mod 64, String (chr b0) (String (chr b1) "")) :: chunks t.
Proof.
  intros H0 H1. pose proof (second_range_byte b0). unfold in_second in H1.
  rewrite chunks_cons. cbv zeta. unfold cont, low6.
  rewrite !byte_of_chr by lia. destruct (second_range b0) as [lo hi]. simpl in H, H1.
  by zdecide.
Qed.

Lemma chunks_three b0 b1 b2 t :
  224 <= b0 < 240 → in_second b0 b1 → 128 <= b2 < 192 →
  chunks (String (chr b0) (String (chr b1) (String (chr b2) t))) =
  (b0 mod 16 * 4096 + b1 mod 64 * 64 + b2 mod 64,
   String (chr b0) (String (chr b1) (String (chr b2) ""))) :: chunks t.
Proof.
  intros H0 H1 H2. pose proof (second_range_byte b0). unfold in_second in H1.
  rewrite chunks_cons. cbv zeta. unfold cont, low6.
  rewrite !byte_of_chr by lia. destruct (second_range b0) as [lo hi]. simpl in H, H1.
  by zdecide.
Qed.

Lemma chunks_four b0 b1 b2 b3 t :
  240 <= b0 <= 244 → in_second b0 b1 → 128 <= b2 < 192 → 128 <= b3 < 192 →
  chunks (String (chr b0) (String (chr b1) (String (chr b2) (String (chr b3) t)))) =
  (b0 mod 8 * 262144 + b1 mod 64 * 4096 + b2 mod 64 * 64 + b3 mod 64,
   String (chr b0) (String (chr b1) (String (chr b2) (String (chr b3) "")))) :: chunks t.
Proof.
  intros H0 H1 H2 H3. pose proof (second_range_byte b0). unfold in_second in H1.
  rewrite chunks_cons. cbv zeta. unfold cont, low6.
  rewrite !byte_of_chr by lia. destruct (second_range b0) as [lo hi]. simpl in H, H1.
  by zdecide.
Qed.

Lemma chunks_ascii c t :
  is_ascii c = true → chunks (String c t) = (byte_of c, String c "") :: chunks t.
Proof.
  unfold is_ascii. intros Hc. rewrite chunks_cons. cbv zeta. rewrite Hc.
  by destruct (second_range _).
Qed.

(** Decoding what an encoded rune starts. *)
Lemma chunks_encode r t :
  valid_rune r = true → chunks (encode_rune r t) = (r, encode_rune r "") :: chunks t.
Proof.
  intros Hv. unfold encode_rune. rewrite Hv. unfold valid_rune in Hv. apply andb_true_iff in Hv as [Hv Hn].
  assert (r < 55296 ∨ 57343 < r) as Hs.
  { zbool. apply andb_false_iff in Hn as [?|?]; zbool; lia. }
  clear Hn. apply andb_true_iff in Hv as [Hl Hh]. zbool.
  destruct (r <? 128) eqn:E1; [|destruct (r <? 2048) eqn:E2; [|destruct (r <? 65536) eqn:E3]]; zbool.
  - rewrite chunks_ascii; [by rewrite byte_of_chr by lia|].
    unfold is_ascii. rewrite byte_of_chr by lia. by apply Z.ltb_lt.
  - rewrite chunks_two; unfold in_second, second_range; [|Z.div_mod_to_equations; lia|].
    + f_equal. f_equal. Z.div_mod_to_equations; lia.
    + case_goal; zbool; simpl; Z.div_mod_to_equations; lia.
  - rewrite chunks_three; unfold in_second, second_range; [|try (Z.div_mod_to_equations; lia)..].
    + f_equal. f_equal. Z.div_mod_to_equations; lia.
    + case_goal; zbool; simpl; Z.div_mod_to_equations; lia.
  - rewrite chunks_four; unfold in_second, second_range; [|try (Z.div_mod_to_equations; lia)..].
    + f_equal. f_equal. Z.div_mod_to_equations; lia.
    + case_goal; zbool; simpl; Z.div_mod_to_equations; lia.
Qed.

Lemma encode_rune_app r t : encode_rune r t = encode_rune r "" +:+ t.
Proof. unfold encode_rune. case_goal; done. Qed.

(** Decoding the encoding of valid runes gives them back. *)
Theorem runes_encode rs : Forall (λ r, valid_rune r = true) rs → runes (encode rs) = rs.
Proof.
  unfold runes. induction 1 as [|r rs Hr Hrs IH]; [done|].
  change (fst <$> chunks (encode_rune r (encode rs)) = r :: rs).
  by rewrite chunks_encode, fmap_cons, IH.
Qed.

(** A rune is encoded by its bytes, or is a byte that begins no valid sequence. *)
Definition decoded (c : Z * string) : Prop :=
  (valid_rune c.1 = true ∧ c.2 = encode_rune c.1 "") ∨ ∃ b, c = (RuneError, String b "") ∧ 128 <= byte_of b.

Lemma encode_two c0 c1 :
  194 <= byte_of c0 < 224 → 128 <= byte_of c1 <= 191 →
  decoded (byte_of c0 mod 32 * 64 + low6 c1, String c0 (String c1 "")).
Proof.
  intros H0 H1. left. unfold low6. simpl.
  set (r := byte_of c0 mod 32 * 64 + byte_of c1 mod 64).
  assert (128 <= r < 2048 ∧ 192 + r / 64 = byte_of c0 ∧ 128 + r mod 64 = byte_of c1) as (Hr & E0 & E1)
    by (unfold r; Z.div_mod_to_equations; lia).
  assert (valid_rune r = true) as Hv by (unfold valid_rune; by zdecide). split; [done|].
  unfold encode_rune. rewrite Hv. zdecide. by rewrite E0, E1, !chr_byte_of.
Qed.

Lemma encode_three c0 c1 c2 :
  224 <= byte_of c0 < 240 → in_second (byte_of c0) (byte_of c1) → 128 <= byte_of c2 <= 191 →
  decoded (byte_of c0 mod 16 * 4096 + low6 c1 * 64 + low6 c2, String c0 (String c1 (String c2 ""))).
Proof.
  intros H0 H1 H2. left. unfold low6. simpl. pose proof (second_range_byte (byte_of c0)).
  set (r := byte_of c0 mod 16 * 4096 + byte_of c1 mod 64 * 64 + byte_of c2 mod 64).
  assert (2048 <= r < 65536 ∧ (r < 55296 ∨ 57343 < r) ∧ 224 + r / 4096 = byte_of c0 ∧
    128 + r / 64 mod 64 = byte_of c1 ∧ 128 + r mod 64 = byte_of c2) as (Hr & Hs & E0 & E1 & E2).
  { unfold r. revert H1. unfold in_second, second_range. case_goal; zbool; simpl; intros;
      Z.div_mod_to_equations; lia. }
  assert (valid_rune r = true) as Hv.
  { unfold valid_rune. destruct Hs; by zdecide. }
  split; [done|]. unfold encode_rune. rewrite Hv. zdecide. by rewrite E0, E1, E2, !chr_byte_of.
Qed.

Lemma encode_four c0 c1 c2 c3 :
  240 <= byte_of c0 <= 244 → in_second (byte_of c0) (byte_of c1) → 128 <= byte_of c2 <= 191 →
  128 <= byte_of c3 <= 191 →
  decoded (byte_of c0 mod 8 * 262144 + low6 c1 * 4096 + low6 c2 * 64 + low6 c3,
    String c0 (String c1 (String c2 (String c3 "")))).
Proof.
  intros H0 H1 H2 H3. left. unfold low6. simpl. pose proof (second_range_byte (byte_of c0)).
  set (r := byte_of c0 mod 8 * 262144 + byte_of c1 mod 64 * 4096 + byte_of c2 mod 64 * 64 + byte_of c3 mod 64).
  assert (65536 <= r <= 1114111 ∧ 240 + r / 262144 = byte_of c0 ∧ 128 + r / 4096 mod 64 = byte_of c1 ∧
    128 + r / 64 mod 64 = byte_of c2 ∧ 128 + r mod 64 = byte_of c3) as (Hr & E0 & E1 & E2 & E3).
  { unfold r. revert H1. unfold in_second, second_range. case_goal; zbool; simpl; intros;
      Z.div_mod_to_equations; lia. }
  assert (valid_rune r = true) as Hv by (unfold valid_rune; by zdecide).
  split; [done|]. unfold encode_rune. rewrite Hv. zdecide. by rewrite E0, E1, E2, E3, !chr_byte_of.
Qed.

Lemma chunks_decoded s : Forall decoded (chunks s).
Proof.
  remember (str_len s) as n eqn:Hn. assert (str_len s <= n)%nat as Hs by lia. clear Hn.
  revert s Hs. induction n as [|n IH]; intros [|c0 s1] Hs; try done; [simpl in Hs; lia|].
  assert (∀ c t, decoded c → (str_len t <= n)%nat → Forall decoded (c :: chunks t)) as IH'
    by (constructor; auto).
  clear IH. rewrite chunks_cons. cbv zeta. simpl in Hs. rewrite (surjective_pairing (second_range _)).
  assert (128 <= byte_of c0 → decoded (RuneError, String c0 "")) as Hbad by (right; eauto).
  pose proof (second_range_byte (byte_of c0)). unfold cont.
  case_goal; subst; zbool; apply IH'; simpl in *; try lia; try (apply Hbad; lia).
  - left. pose proof (byte_of_nonneg c0). assert (valid_rune (byte_of c0) = true) as Hv by (unfold valid_rune; by zdecide).
    split; [done|]. unfold encode_rune. simpl. rewrite Hv. zdecide. by rewrite chr_byte_of.
  - apply encode_two; lia.
  - apply encode_three; [lia|split; lia|lia].
  - apply encode_four; [lia|split; lia|lia|lia].
Qed.

Lemma runes_valid s : Forall (λ r, valid_rune r = true) (runes s).
Proof.
  unfold runes. apply Forall_fmap. apply (list.Forall_impl decoded); [apply chunks_decoded|].
  intros c [[Hv _]|(b & -> & _)]; done.
Qed.

(** A text with the bytes that are not part of UTF-8 replaced. *)
Definition valid (s : string) : string := encode (runes s).

Lemma valid_empty s : valid s = "" ↔ s = "".
Proof.
  split; [|by intros ->]. destruct s as [|c s]; [done|]. unfold valid, runes. intros H. exfalso. revert H.
  rewrite chunks_cons. cbv zeta. destruct (second_range (byte_of c)) as [lo hi].
  assert (∀ (r : Z) (b : string) t, encode (fst <$> ((r, b) :: t)) = "" → False) as Hne.
  { intros r b t. rewrite fmap_cons. unfold encode at 1. simpl. unfold encode_rune. by case_goal. }
  case_goal; subst; apply Hne.
Qed.

Lemma valid_valid s : valid (valid s) = valid s.
Proof. unfold valid. by rewrite runes_encode by apply runes_valid. Qed.

(** ** ASCII *)

Lemma bytes_of_range s : Forall (λ b, 0 <= b < 256) (bytes_of s).
Proof. induction s; simpl; constructor; auto using byte_of_nonneg. Qed.

Lemma runes_nonneg s : Forall (λ r, 0 <= r) (runes s).
Proof.
  unfold runes. remember (str_len s) as n eqn:Hn. assert (str_len s <= n)%nat as Hs by lia.
  clear Hn. revert s Hs. induction n as [|n IH]; intros [|c0 s1] Hs; try (by constructor);
    [simpl in Hs; lia|].
  assert (∀ c t, 0 <= c.1 → (str_len t <= n)%nat → Forall (λ r, 0 <= r) (c :: chunks t).*1) as IH'.
  { intros c t Hc Ht. rewrite fmap_cons. constructor; auto. }
  clear IH. rewrite chunks_cons. cbv zeta. simpl in Hs. destruct (second_range (byte_of c0)) as [lo hi].
  pose proof (byte_of_nonneg c0). unfold low6, RuneError.
  case_goal; subst; apply IH'; simpl in *; try lia; Z.div_mod_to_equations; lia.
Qed.

Lemma runes_ascii s : str_forall is_ascii s = true → runes s = bytes_of s.
Proof.
  unfold runes. induction s as [|c s IH]; [done|]. intros H. change (is_ascii c && str_forall is_ascii s = true) in H.
  apply andb_true_iff in H as [Hc Hs]. rewrite chunks_ascii, fmap_cons, IH by done. done.
Qed.

Lemma encode_bytes s : str_forall is_ascii s = true → encode (bytes_of s) = s.
Proof.
  induction s as [|c s IH]; [done|]. simpl. rewrite andb_true_iff. unfold is_ascii. intros [Hc Hs].
  zbool. pose proof (byte_of_nonneg c). rewrite IH by done. unfold encode_rune, valid_rune. zdecide.
  cbv beta iota zeta. zdecide. by rewrite chr_byte_of.
Qed.

Lemma bytes_of_encode rs : Forall (λ r, 0 <= r < 128) rs → bytes_of (encode rs) = rs.
Proof.
  induction 1 as [|r rs Hr Hrs IH]; [done|]. simpl. unfold encode_rune, valid_rune. zdecide.
  cbv beta iota zeta. zdecide. simpl. rewrite IH, byte_of_chr; [done|lia].
Qed.

Lemma valid_ascii_app a s : str_forall is_ascii a = true → valid (a +:+ s) = a +:+ valid s.
Proof.
  induction a as [|c a IH]; intros Ha; [by rewrite !str_app_nil_l|].
  simpl in Ha. apply andb_true_iff in Ha as [Hc Ha]. rewrite !str_app_cons. unfold valid, runes.
  rewrite chunks_ascii, fmap_cons by done. change (encode_rune (byte_of c) (valid (a +:+ s)) = String c (a +:+ valid s)).
  rewrite IH by done. unfold is_ascii in Hc. zbool. pose proof (byte_of_nonneg c).
  assert (valid_rune (byte_of c) = true) as Hv by (unfold valid_rune; by zdecide).
  unfold encode_rune. rewrite Hv. zdecide. by rewrite chr_byte_of.
Qed.

Lemma ToLower_ascii `{RuneTables} s :
  str_forall is_ascii s = true →
  Forall (λ b, ¬ (65 <= b <= 90)) (bytes_of s) → ToLower s = s.
Proof.
  intros Ha Hb. unfold ToLower, Map. rewrite runes_ascii by done.
  assert (rune_ToLower <$> bytes_of s = bytes_of s) as ->.
  { rewrite <- (list_fmap_id (bytes_of s)) at 2. apply list_fmap_ext. intros i b Hi.
    apply (str_forall_bytes (λ b, b <? 128)) in Ha. pose proof (bytes_of_range s) as Hr.
    rewrite Forall_lookup in Ha, Hb, Hr.
    specialize (Ha i b Hi). specialize (Hb i b Hi). specialize (Hr i b Hi). zbool.
    rewrite rune_ToLower_ascii by lia. case_goal; zbool; simpl; lia. }
  rewrite (filter_all (λ r, 0 <= r)); [by apply encode_bytes|].
  apply (list.Forall_impl _ _ _ (bytes_of_range s)). simpl. lia.
Qed.

(** Trimming leaves a string without spaces as it is. *)
Lemma TrimSpace_id s : Forall (λ r, IsSpace r = false) (runes s) → TrimSpace s = s.
Proof.
  intros H. assert (∀ cs, Forall (λ c : Z * string, IsSpace c.1 = false) cs → drop_spaces cs = cs) as Hd.
  { intros [|c cs]; [done|]. intros [Hc _]%list.Forall_cons. simpl. by rewrite Hc. }
  apply Forall_fmap in H. unfold TrimSpace. rewrite (Hd (chunks s)) by exact H.
  rewrite Hd by (by apply Forall_reverse).
  by rewrite reverse_involutive, join_chunks.
Qed.
