(* ===== verification/Regex.v ===== *)
(** * Regular expressions

    The patterns that the validators give to Go's regexp package, as a type of
    regular expressions over runes with its language, and the matching of a string
    by derivatives, which decides the language. *)
From S2P Require Import Prelude GoStrings Utf8.
Local Open Scope Z_scope.

Inductive regex :=
| Never
| Empty
| Class (f : Z → bool)
| Cat (r s : regex)
| Alt (r s : regex)
| Star (r : regex).

(** The language of an expression. *)
Inductive lang : regex → list Z → Prop :=
| lang_empty : lang Empty []
| lang_class f c : f c = true → lang (Class f) [c]
| lang_cat r s u v : lang r u → lang s v → lang (Cat r s) (u ++ v)
| lang_alt_l r s u : lang r u → lang (Alt r s) u
| lang_alt_r r s u : lang s u → lang (Alt r s) u
| lang_star_nil r : lang (Star r) []
| lang_star_cons r u v : lang r u → lang (Star r) v → lang (Star r) (u ++ v).

(** [r+], [r?], [r{n}] and [r{0,n}]. *)
Definition Plus (r : regex) : regex := Cat r (Star r).
Definition Opt (r : regex) : regex := Alt Empty r.

Fixpoint Times (n : nat) (r s : regex) : regex :=
  match n with O => s | S n => Cat r (Times n r s) end.

Fixpoint UpTo (n : nat) (r : regex) : regex :=
  match n with O => Empty | S n => Alt Empty (Cat r (UpTo n r)) end.

(** A class of runes that are bytes of ASCII, given by ranges and single runes. *)
Definition in_ranges (rs : list (Z * Z)) (c : Z) : bool :=
  existsb (λ '(lo, hi), (lo <=? c) && (c <=? hi)) rs.

(** ** Matching *)

Fixpoint nullable (r : regex) : bool :=
  match r with
  | Never | Class _ => false
  | Empty | Star _ => true
  | Cat r s => nullable r && nullable s
  | Alt r s => nullable r || nullable s
  end.

(** Concatenation and alternative that drop what cannot match, so that
    derivatives stay small. *)
Definition cat (r s : regex) : regex :=
  match r, s with
  | Never, _ => Never
  | Empty, s => s
  | r, s => Cat r s
  end.

Definition alt (r s : regex) : regex :=
  match r, s with
  | Never, s => s
  | r, Never => r
  | r, s => Alt r s
  end.

Fixpoint deriv (c : Z) (r : regex) : regex :=
  match r with
  | Never | Empty => Never
  | Class f => if f c then Empty else Never
  | Cat r s => if nullable r then alt (cat (deriv c r) s) (deriv c s) else cat (deriv c r) s
  | Alt r s => alt (deriv c r) (deriv c s)
  | Star r => cat (deriv c r) (Star r)
  end.

Definition matches (r : regex) (w : list Z) : bool := nullable (foldl (λ r c, deriv c r) r w).

(** [MatchString] of a pattern with both anchors, with the first only, and with
    none. *)
Definition any : regex := Star (Class (λ _, true)).

Definition match_all (r : regex) (s : string) : bool := matches r (runes s).
Definition match_start (r : regex) (s : string) : bool := matches (Cat r any) (runes s).
Definition match_some (r : regex) (s : string) : bool := matches (Cat any (Cat r any)) (runes s).

(** ** Matching decides the language *)

Lemma lang_cat_inv r s w : lang (Cat r s) w ↔ ∃ u v, w = u ++ v ∧ lang r u ∧ lang s v.
Proof. split; [inversion 1; subst; eauto|]. intros (u & v & -> & ? & ?). by constructor. Qed.

Lemma lang_alt_inv r s w : lang (Alt r s) w ↔ lang r w ∨ lang s w.
Proof. split; [inversion 1; subst; auto|]. intros [?|?]; [by apply lang_alt_l|by apply lang_alt_r]. Qed.

Lemma lang_empty_inv w : lang Empty w ↔ w = [].
Proof. split; [by inversion 1|]. intros ->. constructor. Qed.

Lemma lang_never_inv w : ¬ lang Never w.
Proof. inversion 1. Qed.

Lemma lang_class_inv f w : lang (Class f) w ↔ ∃ c, w = [c] ∧ f c = true.
Proof. split; [inversion 1; subst; eauto|]. intros (c & -> & ?). by constructor. Qed.

Lemma cat_lang r s w : lang (cat r s) w ↔ lang (Cat r s) w.
Proof.
  destruct r; try done; rewrite lang_cat_inv; simpl.
  - split; [by intros ?%lang_never_inv|]. by intros (u & v & _ & ?%lang_never_inv & _).
  - split; [intros Hw; exists [], w; by rewrite lang_empty_inv|].
    by intros (u & v & -> & ->%lang_empty_inv & ?).
Qed.

Lemma alt_lang r s w : lang (alt r s) w ↔ lang (Alt r s) w.
Proof.
  rewrite lang_alt_inv. pose proof (lang_never_inv w).
  destruct r, s; simpl; rewrite ?lang_alt_inv; tauto.
Qed.

Lemma nullable_lang r : nullable r = true ↔ lang r [].
Proof.
  induction r as [| |f|r IHr s IHs|r IHr s IHs|r IH]; simpl.
  - split; [done|]. by intros ?%lang_never_inv.
  - split; [constructor|done].
  - rewrite lang_class_inv. naive_solver.
  - rewrite andb_true_iff, IHr, IHs, lang_cat_inv. split.
    + intros [? ?]. by exists [], [].
    + intros (u & v & E & Hu & Hv). symmetry in E. apply app_eq_nil in E as [-> ->]. done.
  - by rewrite orb_true_iff, IHr, IHs, lang_alt_inv.
  - split; [constructor|done].
Qed.

Lemma lang_star_step r c w :
  lang (Star r) (c :: w) ↔ ∃ u v, w = u ++ v ∧ lang r (c :: u) ∧ lang (Star r) v.
Proof.
  split.
  - intros H. remember (Star r) as t eqn:Ht. remember (c :: w) as x eqn:Hx.
    revert c w Hx. induction H as [| | | | | |r' u v Hu _ Hv IH]; intros c' w Hx; try done.
    injection Ht as ->. destruct u as [|c u]; simpl in Hx; [by apply IH|].
    simplify_eq. eauto.
  - intros (u & v & -> & Hu & Hv). by apply (lang_star_cons r (c :: u) v).
Qed.

Lemma deriv_lang c r w : lang (deriv c r) w ↔ lang r (c :: w).
Proof.
  revert w. induction r as [| |f|r IHr s IHs|r IHr s IHs|r IH]; intros w; simpl.
  - split; by intros ?%lang_never_inv.
  - rewrite lang_empty_inv. split; [by intros ?%lang_never_inv|done].
  - rewrite lang_class_inv. destruct (f c) eqn:Hf.
    + rewrite lang_empty_inv. naive_solver.
    + split; [by intros ?%lang_never_inv|]. intros (? & ? & ?). congruence.
  - assert (lang (Cat r s) (c :: w) ↔
      (∃ u v, w = u ++ v ∧ lang r (c :: u) ∧ lang s v) ∨ (lang r [] ∧ lang s (c :: w))) as ->.
    { rewrite lang_cat_inv. split.
      - intros ([|c' u] & v & E & Hu & Hv); simpl in E; [right; by subst|].
        simplify_eq. left. eauto.
      - intros [(u & v & -> & ? & ?)|[? ?]]; [by exists (c :: u), v|by exists [], (c :: w)]. }
    assert (lang (cat (deriv c r) s) w ↔ ∃ u v, w = u ++ v ∧ lang r (c :: u) ∧ lang s v) as Hcat.
    { rewrite cat_lang, lang_cat_inv. by setoid_rewrite IHr. }
    rewrite <- nullable_lang. destruct (nullable r).
    + rewrite alt_lang, lang_alt_inv, Hcat, IHs. naive_solver.
    + rewrite Hcat. naive_solver.
  - by rewrite alt_lang, !lang_alt_inv, IHr, IHs.
  - rewrite cat_lang, lang_cat_inv, lang_star_step. by setoid_rewrite IH.
Qed.

(** A string matches exactly when it belongs to the language. *)
Theorem matches_lang r w : matches r w = true ↔ lang r w.
Proof.
  unfold matches. revert r. induction w as [|c w IH]; intros r; simpl; [apply nullable_lang|].
  by rewrite IH, deriv_lang.
Qed.

(** ** Patterns made of classes *)

Lemma lang_star_class f w : lang (Star (Class f)) w ↔ Forall (λ c, f c = true) w.
Proof.
  induction w as [|c w IH]; [split; constructor|]. rewrite lang_star_step, list.Forall_cons. split.
  - intros (u & v & -> & (c' & E & Hc)%lang_class_inv & Hv). simplify_eq. split; [done|]. by apply IH.
  - intros [Hc Hw]. exists [], w. rewrite lang_class_inv, IH. eauto.
Qed.

Lemma lang_class_cat f r w : lang (Cat (Class f) r) w ↔ ∃ c v, w = c :: v ∧ f c = true ∧ lang r v.
Proof.
  rewrite lang_cat_inv. split.
  - intros (u & v & -> & (c & -> & Hc)%lang_class_inv & Hv). by exists c, v.
  - intros (c & v & -> & Hc & Hv). exists [c], v. rewrite lang_class_inv. eauto.
Qed.

Lemma lang_plus_class f w : lang (Plus (Class f)) w ↔ w ≠ [] ∧ Forall (λ c, f c = true) w.
Proof.
  unfold Plus. rewrite lang_class_cat. split.
  - intros (c & v & -> & Hc & Hv%lang_star_class). by split; [|constructor].
  - intros [Hw H]. destruct w as [|c v]; [done|]. apply list.Forall_cons in H as [Hc Hv].
    exists c, v. by rewrite lang_star_class.
Qed.

Lemma lang_upto_class n f w :
  lang (UpTo n (Class f)) w ↔ (length w <= n)%nat ∧ Forall (λ c, f c = true) w.
Proof.
  revert w. induction n as [|n IH]; intros w; simpl.
  - rewrite lang_empty_inv. split; [by intros ->|]. intros [H _]. destruct w; simpl in H; [done|lia].
  - rewrite lang_alt_inv, lang_empty_inv, lang_class_cat. split.
    + intros [->|(c & v & -> & Hc & [Hl Hv]%IH)]; simpl; [split; [lia|constructor]|].
      split; [lia|by constructor].
    + intros [Hl Hw]. destruct w as [|c v]; [by left|right]. apply list.Forall_cons in Hw as [Hc Hv].
      exists c, v. rewrite IH. simpl in Hl. split_and!; auto with lia.
Qed.

Lemma match_some_class f s : match_some (Class f) s = true ↔ Exists (λ c, f c = true) (runes s).
Proof.
  unfold match_some, any. rewrite matches_lang, lang_cat_inv, list.Exists_exists.
  setoid_rewrite lang_class_cat. setoid_rewrite lang_star_class. split.
  - intros (u & v & E & _ & (c & t & -> & Hc & _)). exists c. split; [|done]. rewrite E, elem_of_app, elem_of_cons. auto.
  - intros (c & Hin & Hc). apply list_elem_of_split in Hin as (u & v & E).
    exists u, (c :: v). split_and!; [done| |exists c, v; split_and!; try done]; by apply Forall_true.
Qed.
