(* ===== verification/Breaker.v ===== *)
(** * Circuit breakers

    [Module Breaker] models pkg/circuitbreaker/breaker.go: the three-state
    breaker, its metrics and the manager that keeps one breaker per target.
    [Module Concurrent] interleaves requests through one breaker.
    [Module NodeBreaker] models the second breaker of the code base, the
    [CircuitBreaker] of internal/compute/resources.go. *)
From S2P Require Import Prelude.

Local Open Scope Z_scope.

Module Breaker.

Inductive State := StateClosed | StateOpen | StateHalfOpen.

#[export] Instance State_eq_dec : EqDecision State.
Proof. solve_decision. Defined.

Definition State_String (s : State) : string :=
  match s with
  | StateClosed => "closed"
  | StateOpen => "open"
  | StateHalfOpen => "half-open"
  end.

Inductive error :=
| ErrCircuitOpen
| ErrTooManyRequests
| ErrFn (msg : string)
| ErrWrapped (prefix : string) (e : error).

(** [OnStateChange] is the presence of the optional callback. *)
Record Options := mkOptions {
  FailureThreshold : Z;
  SuccessThreshold : Z;
  ResetTimeout : Z;
  MaxHalfOpenRequests : Z;
  OnStateChange : bool
}.

Definition defaults (o : Options) : Options :=
  mkOptions
    (if FailureThreshold o <=? 0 then 5 else FailureThreshold o)
    (if SuccessThreshold o <=? 0 then 2 else SuccessThreshold o)
    (if ResetTimeout o <=? 0 then 30 * second else ResetTimeout o)
    (if MaxHalfOpenRequests o <=? 0 then 1 else MaxHalfOpenRequests o)
    (OnStateChange o).

(** [spawned] lists the [OnStateChange] goroutines started so far. The counters have
    no width here: the code's int32 of half-open requests counts requests that are in
    flight, the others are of type int or int64. *)
Record Breaker := mkBreaker {
  name : string;
  opts : Options;
  state : State;
  failures : Z;
  successes : Z;
  halfOpenRequests : Z;
  lastFailureTime : Z;
  lastStateChange : Z;
  totalRequests : Z;
  totalSuccesses : Z;
  totalFailures : Z;
  totalRejected : Z;
  spawned : list (string * State * State)
}.

Definition New (now : Z) (nm : string) (o : Options) : Breaker :=
  {| name := nm; opts := defaults o; state := StateClosed;
     failures := 0; successes := 0; halfOpenRequests := 0;
     lastFailureTime := time_zero; lastStateChange := now;
     totalRequests := 0; totalSuccesses := 0; totalFailures := 0;
     totalRejected := 0; spawned := [] |}.

(** Field updates. *)
Definition add_requests (n : Z) (b : Breaker) : Breaker :=
  {| name := name b; opts := opts b; state := state b; failures := failures b;
     successes := successes b; halfOpenRequests := halfOpenRequests b;
     lastFailureTime := lastFailureTime b; lastStateChange := lastStateChange b;
     totalRequests := totalRequests b + n; totalSuccesses := totalSuccesses b;
     totalFailures := totalFailures b; totalRejected := totalRejected b;
     spawned := spawned b |}.

Definition add_rejected (n : Z) (b : Breaker) : Breaker :=
  {| name := name b; opts := opts b; state := state b; failures := failures b;
     successes := successes b; halfOpenRequests := halfOpenRequests b;
     lastFailureTime := lastFailureTime b; lastStateChange := lastStateChange b;
     totalRequests := totalRequests b; totalSuccesses := totalSuccesses b;
     totalFailures := totalFailures b; totalRejected := totalRejected b + n;
     spawned := spawned b |}.

Definition add_halfOpen (n : Z) (b : Breaker) : Breaker :=
  {| name := name b; opts := opts b; state := state b; failures := failures b;
     successes := successes b; halfOpenRequests := halfOpenRequests b + n;
     lastFailureTime := lastFailureTime b; lastStateChange := lastStateChange b;
     totalRequests := totalRequests b; totalSuccesses := totalSuccesses b;
     totalFailures := totalFailures b; totalRejected := totalRejected b;
     spawned := spawned b |}.

Definition transition (now : Z) (to : State) (b : Breaker) : Breaker :=
  if decide (state b = to) then b
  else
    {| name := name b; opts := opts b; state := to; failures := 0;
       successes := 0; halfOpenRequests := 0;
       lastFailureTime := lastFailureTime b; lastStateChange := now;
       totalRequests := totalRequests b; totalSuccesses := totalSuccesses b;
       totalFailures := totalFailures b; totalRejected := totalRejected b;
       spawned := spawned b ++
         (if OnStateChange (opts b) then [(name b, state b, to)] else []) |}.

Definition checkAutoTransition (now : Z) (b : Breaker) : Breaker :=
  if bool_decide (state b = StateOpen)
     && (ResetTimeout (opts b) <=? time_sub now (lastFailureTime b))
  then transition now StateHalfOpen b
  else b.

Definition beforeRequest (now : Z) (b : Breaker) : option error * Breaker :=
  let b := checkAutoTransition now b in
  match state b with
  | StateClosed => (None, b)
  | StateOpen => (Some ErrCircuitOpen, b)
  | StateHalfOpen =>
      if MaxHalfOpenRequests (opts b) <=? halfOpenRequests b
      then (Some ErrTooManyRequests, b)
      else (None, add_halfOpen 1 b)
  end.

Definition onFailure (now : Z) (b : Breaker) : Breaker :=
  let b :=
    {| name := name b; opts := opts b; state := state b;
       failures := failures b + 1; successes := 0;
       halfOpenRequests := halfOpenRequests b; lastFailureTime := now;
       lastStateChange := lastStateChange b; totalRequests := totalRequests b;
       totalSuccesses := totalSuccesses b; totalFailures := totalFailures b + 1;
       totalRejected := totalRejected b; spawned := spawned b |} in
  match state b with
  | StateClosed =>
      if FailureThreshold (opts b) <=? failures b
      then transition now StateOpen b else b
  | StateHalfOpen => transition now StateOpen b
  | StateOpen => b
  end.

Definition onSuccess (now : Z) (b : Breaker) : Breaker :=
  let set (f s : Z) :=
    {| name := name b; opts := opts b; state := state b; failures := f;
       successes := s; halfOpenRequests := halfOpenRequests b;
       lastFailureTime := lastFailureTime b; lastStateChange := lastStateChange b;
       totalRequests := totalRequests b; totalSuccesses := totalSuccesses b + 1;
       totalFailures := totalFailures b; totalRejected := totalRejected b;
       spawned := spawned b |} in
  match state b with
  | StateClosed => set 0 0
  | StateHalfOpen =>
      let b' := set (failures b) (successes b + 1) in
      if SuccessThreshold (opts b) <=? successes b'
      then transition now StateClosed b' else b'
  | StateOpen => set (failures b) (successes b)
  end.

Definition afterRequest (now : Z) (err : option error) (b : Breaker) : Breaker :=
  let b := if decide (state b = StateHalfOpen) then add_halfOpen (-1) b else b in
  match err with
  | Some _ => onFailure now b
  | None => onSuccess now b
  end.

(** The part of [Execute] before [fn] runs: the error it returns when [fn] is
    not to be called. *)
Definition Execute_enter (now : Z) (b : Breaker) : option error * Breaker :=
  match beforeRequest now (add_requests 1 b) with
  | (Some e, b') => (Some e, add_rejected 1 b')
  | (None, b') => (None, b')
  end.

(** [Execute] with nothing else running: [fn] starts at [t0], ends at [t1] and
    returns [r]. The boolean says whether [fn] was called. *)
Definition Execute (t0 t1 : Z) (r : option error) (b : Breaker)
    : option error * bool * Breaker :=
  match Execute_enter t0 b with
  | (Some e, b') => (Some e, false, b')
  | (None, b') => (r, true, afterRequest t1 r b')
  end.

Definition State_ (now : Z) (b : Breaker) : State * Breaker :=
  let b := checkAutoTransition now b in (state b, b).

Definition Reset (now : Z) (b : Breaker) : Breaker := transition now StateClosed b.

Record BreakerMetrics := mkMetrics {
  m_Name : string;
  m_State : string;
  m_ConsecFailures : Z;
  m_TotalRequests : Z;
  m_TotalSuccesses : Z;
  m_TotalFailures : Z;
  m_TotalRejected : Z;
  m_LastFailureTime : Z;
  m_LastStateChange : Z
}.

Definition Metrics (b : Breaker) : BreakerMetrics :=
  mkMetrics (name b) (State_String (state b)) (failures b) (totalRequests b)
    (totalSuccesses b) (totalFailures b) (totalRejected b)
    (lastFailureTime b) (lastStateChange b).

(** ** The manager *)

Record Manager := mkManager {
  breakers : gmap string Breaker;
  m_opts : Options
}.

Definition NewManager (o : Options) : Manager := mkManager ∅ (defaults o).

(** The breaker registered under a name, and the manager with it registered.
    Breakers are shared by pointer: an update of the returned breaker is an
    update of the map's entry. *)
Definition Get (now : Z) (nm : string) (m : Manager) : Breaker * Manager :=
  match breakers m !! nm with
  | Some cb => (cb, m)
  | None =>
      let cb := New now nm (m_opts m) in
      (cb, mkManager (<[nm := cb]> (breakers m)) (m_opts m))
  end.

Definition AllMetrics (m : Manager) : list BreakerMetrics :=
  (λ kv, Metrics kv.2) <$> map_to_list (breakers m).

Definition Manager_Execute (t0 t1 : Z) (nm : string) (r : option error)
    (m : Manager) : option error * bool * Manager :=
  let '(cb, m') := Get t0 nm m in
  let '(e, called, cb') := Execute t0 t1 r cb in
  (e, called, mkManager (<[nm := cb']> (breakers m')) (m_opts m')).

(** [errors.Is] along the chain of wrapped errors. *)
Fixpoint errors_Is (e target : error) : bool :=
  match e, target with
  | ErrCircuitOpen, ErrCircuitOpen => true
  | ErrTooManyRequests, ErrTooManyRequests => true
  | ErrWrapped _ e', _ => errors_Is e' target
  | _, _ => false
  end.

Definition FormatError (target : string) (err : error) : error :=
  if errors_Is err ErrCircuitOpen then
    ErrWrapped ("service " +:+ target +:+
      " is temporarily unavailable (circuit open): ") err
  else if errors_Is err ErrTooManyRequests then
    ErrWrapped ("service " +:+ target +:+
      " is recovering (half-open, limited probes): ") err
  else err.

(** ** The state invariant *)

Definition opts_ok (o : Options) : Prop :=
  0 < FailureThreshold o ∧ 0 < SuccessThreshold o ∧
  0 < ResetTimeout o ∧ 0 < MaxHalfOpenRequests o.

Definition inv (b : Breaker) : Prop :=
  opts_ok (opts b) ∧
  match state b with
  | StateClosed =>
      0 <= failures b < FailureThreshold (opts b) ∧ successes b = 0 ∧
      halfOpenRequests b = 0
  | StateOpen => 0 <= failures b ∧ successes b = 0 ∧ halfOpenRequests b = 0
  | StateHalfOpen =>
      failures b = 0 ∧ 0 <= successes b < SuccessThreshold (opts b) ∧
      halfOpenRequests b <= MaxHalfOpenRequests (opts b)
  end.

(** Unfold one operation on a breaker whose state is known. *)
Ltac breaker_step E :=
  simpl in *; rewrite ?E in *; simpl in *; repeat (rewrite E; simpl).

Lemma defaults_ok o : opts_ok (defaults o).
Proof.
  unfold opts_ok, defaults; simpl.
  unfold second; repeat case_match; zbool; split_and!; lia.
Qed.

Lemma New_inv now nm o : inv (New now nm o).
Proof.
  pose proof (defaults_ok o) as Ho. unfold New, inv; simpl opts.
  generalize dependent (defaults o). intros o' (?&?&?&?).
  unfold opts_ok; simpl; lia.
Qed.

Lemma transition_inv now to b : inv b → inv (transition now to b).
Proof.
  intros Hi. unfold transition. case_decide as E; [done|].
  destruct Hi as [Ho _]. split; [done|]. destruct Ho as (?&?&?&?).
  destruct to; simpl; lia.
Qed.

Lemma check_inv now b : inv b → inv (checkAutoTransition now b).
Proof.
  intros Hi. unfold checkAutoTransition. case_match; auto using transition_inv.
Qed.

Lemma before_inv now b : inv b → inv (beforeRequest now b).2.
Proof.
  intros Hi%(check_inv now). unfold beforeRequest.
  generalize dependent (checkAutoTransition now b). clear b. intros b Hi.
  destruct (state b) eqn:E; [done..|].
  case_match; zbool; simpl; [done|]. unfold inv in *.
  breaker_step E. destruct Hi as (Ho&?&?&?). split; [done|lia].
Qed.

Lemma enter_inv now b : inv b → inv (Execute_enter now b).2.
Proof.
  intros Hi. assert (inv (add_requests 1 b)) as Hi' by done.
  apply (before_inv now) in Hi'. unfold Execute_enter.
  by destruct (beforeRequest now (add_requests 1 b)) as [[e|] b'].
Qed.

Lemma onFailure_inv now b : inv b → inv (onFailure now b).
Proof.
  intros [Ho Hs]. unfold onFailure. destruct (state b) eqn:E; breaker_step E.
  - case_match; zbool.
    + unfold transition; breaker_step E. split; [done|]; simpl; lia.
    + split; [done|]; breaker_step E; lia.
  - split; [done|]; breaker_step E; lia.
  - unfold transition; breaker_step E. split; [done|]; simpl; lia.
Qed.

Lemma onSuccess_inv now b :
  inv b → inv (onSuccess now b).
Proof.
  intros [Ho Hs]. unfold onSuccess. destruct (state b) eqn:E; breaker_step E.
  - split; [done|]; breaker_step E. destruct Ho as (?&?&?&?). lia.
  - split; [done|]; breaker_step E; lia.
  - case_match; zbool.
    + unfold transition; breaker_step E. split; [done|]; simpl.
      destruct Ho as (?&?&?&?). lia.
    + split; [done|]; breaker_step E; lia.
Qed.

Lemma after_inv now r b : inv b → inv (afterRequest now r b).
Proof.
  intros Hi. unfold afterRequest. set (b' := if decide _ then _ else _).
  assert (inv b') as Hi'.
  { unfold b'. case_decide as E; [|done]. destruct Hi as [Ho Hs].
    split; [done|]; breaker_step E; lia. }
  destruct r; auto using onFailure_inv, onSuccess_inv.
Qed.

Lemma Reset_inv now b : inv b → inv (Reset now b).
Proof. apply transition_inv. Qed.

Lemma Execute_inv t0 t1 r b : inv b → inv (Execute t0 t1 r b).2.
Proof.
  intros Hi. pose proof (enter_inv t0 b Hi) as He. unfold Execute.
  destruct (Execute_enter t0 b) as [[e|] b']; simpl in *; [done|].
  by apply after_inv.
Qed.

(** ** Sequential use *)

(** One call through the breaker: when it enters, when [fn] returns and what
    [fn] returns if it is called. *)
Record call := mkCall { c_start : Z; c_end : Z; c_result : option error }.

Definition run (cs : list call) (b : Breaker) : Breaker :=
  fold_left (λ b c, (Execute (c_start c) (c_end c) (c_result c) b).2) cs b.

(** The failures since the last success. *)
Definition streak (n : Z) (cs : list call) : Z :=
  fold_left (λ n c, match c_result c with Some _ => n + 1 | None => 0 end) cs n.

Lemma run_app cs1 cs2 b : run (cs1 ++ cs2) b = run cs2 (run cs1 b).
Proof. apply fold_left_app. Qed.

Lemma streak_app n cs1 cs2 : streak n (cs1 ++ cs2) = streak (streak n cs1) cs2.
Proof. apply fold_left_app. Qed.

Lemma run_inv cs b : inv b → inv (run cs b).
Proof.
  revert b; induction cs as [|c cs IH]; intros b Hi; [done|].
  apply IH. by apply Execute_inv.
Qed.

Lemma transition_other now to b :
  state b ≠ to →
  state (transition now to b) = to ∧ failures (transition now to b) = 0 ∧
  successes (transition now to b) = 0 ∧ opts (transition now to b) = opts b ∧
  lastFailureTime (transition now to b) = lastFailureTime b.
Proof. intros ?. unfold transition. by case_decide. Qed.

Lemma transition_opts now to b : opts (transition now to b) = opts b.
Proof. unfold transition. by case_decide. Qed.

(** Calls through a closed breaker always reach [fn]. *)
Lemma Execute_closed t0 t1 r b :
  state b = StateClosed →
  (Execute t0 t1 r b).1 = (r, true) ∧
  let b' := (Execute t0 t1 r b).2 in
  opts b' = opts b ∧
  match r with
  | None => state b' = StateClosed ∧ failures b' = 0
  | Some _ =>
      if FailureThreshold (opts b) <=? failures b + 1
      then state b' = StateOpen ∧ lastFailureTime b' = t1
      else state b' = StateClosed ∧ failures b' = failures b + 1
  end.
Proof.
  intros Hs. unfold Execute, Execute_enter, beforeRequest, checkAutoTransition.
  simpl; rewrite Hs; simpl; rewrite Hs; simpl.
  split; [done|]. unfold afterRequest; simpl; rewrite Hs; simpl.
  destruct r; unfold onFailure, onSuccess; simpl; rewrite Hs; simpl; [|done].
  case_match; simpl; [|done].
  unfold transition; breaker_step Hs. done.
Qed.

Lemma run_cons c cs b :
  run (c :: cs) b = run cs (Execute (c_start c) (c_end c) (c_result c) b).2.
Proof. done. Qed.

Lemma streak_cons n c cs : streak n (c :: cs) = streak (streak n [c]) cs.
Proof. done. Qed.

(** A call that leaves the breaker closed counts the streak. *)
Lemma Execute_streak c b :
  state b = StateClosed →
  let b' := (Execute (c_start c) (c_end c) (c_result c) b).2 in
  opts b' = opts b ∧
  (streak (failures b) [c] < FailureThreshold (opts b) →
     state b' = StateClosed ∧ failures b' = streak (failures b) [c]) ∧
  (state b' = StateClosed → 0 < FailureThreshold (opts b) →
     failures b' = streak (failures b) [c] ∧
     failures b' < FailureThreshold (opts b)).
Proof.
  intros Hs b'. destruct (Execute_closed (c_start c) (c_end c) (c_result c) b Hs)
    as (_&Ho&H). fold b' in Ho, H. split; [done|].
  unfold streak; simpl. destruct (c_result c).
  - case_match; zbool; destruct H as [Hs' ?]; split; intros; split; congruence || lia.
  - destruct H as [Hs' ?]. split; intros; split; congruence || lia.
Qed.

Lemma run_closed_streak cs b :
  state b = StateClosed →
  (∀ k, streak (failures b) (take k cs) < FailureThreshold (opts b)) →
  state (run cs b) = StateClosed ∧ failures (run cs b) = streak (failures b) cs.
Proof.
  revert b; induction cs as [|c cs IH]; intros b Hs Hk; [done|].
  destruct (Execute_streak c b Hs) as (Ho&H1&_). rewrite run_cons.
  set (b' := (Execute _ _ _ b).2) in *.
  destruct (H1 (Hk 1%nat)) as [Hs' Hf]. clear H1.
  destruct (IH b' Hs') as [IHs IHf].
  - intros k. rewrite Ho, Hf. apply (Hk (S k)).
  - split; [done|]. by rewrite IHf, Hf.
Qed.

Lemma run_closed_bound cs b :
  state b = StateClosed → failures b < FailureThreshold (opts b) →
  0 < FailureThreshold (opts b) →
  (∀ k, state (run (take k cs) b) = StateClosed) →
  ∀ k, streak (failures b) (take k cs) < FailureThreshold (opts b).
Proof.
  revert b; induction cs as [|c cs IH]; intros b Hs Hf Hp Hk k.
  { by rewrite take_nil. }
  destruct k as [|k]; [done|]. destruct (Execute_streak c b Hs) as (Ho&_&H2).
  set (b' := (Execute _ _ _ b).2) in *.
  destruct (H2 (Hk 1%nat) Hp) as [Hf' Hlt].
  change (take (S k) (c :: cs)) with (c :: take k cs). rewrite streak_cons.
  rewrite <-Hf', <-Ho. apply IH; rewrite ?Ho; try done; try lia.
  - apply (Hk 1%nat).
  - intros j. apply (Hk (S j)).
Qed.

(** C26: Under sequential use a closed breaker counts the failures since the
    last success, and it stays closed along a sequence of calls exactly as long
    as that count stays below [FailureThreshold]: it trips at the call whose
    failure makes the streak reach the threshold, and at no other. *)
Theorem opens_iff_streak b cs :
  inv b → state b = StateClosed →
  ((∀ k, state (run (take k cs) b) = StateClosed) ↔
   (∀ k, streak (failures b) (take k cs) < FailureThreshold (opts b))) ∧
  ((∀ k, state (run (take k cs) b) = StateClosed) →
   failures (run cs b) = streak (failures b) cs).
Proof.
  intros [(HF&_) Hs'] Hs. rewrite Hs in Hs'. destruct Hs' as [[_ Hlt] _].
  assert (∀ k, (∀ j, streak (failures b) (take j cs) < FailureThreshold (opts b)) →
    ∀ j, streak (failures b) (take j (take k cs)) < FailureThreshold (opts b)) as Ht.
  { intros k H j. rewrite take_take. apply H. }
  split; [split|].
  - intros H. by apply run_closed_bound.
  - intros H k. by apply run_closed_streak; auto.
  - intros H. apply run_closed_streak; [done|]. by apply run_closed_bound.
Qed.

Definition demo_breaker : Breaker := New 0 "node-1" (mkOptions 2 2 1000 1 true).

Definition demo_calls : list call :=
  [mkCall 0 1 (Some (ErrFn "boom")); mkCall 1 2 None; mkCall 2 3 (Some (ErrFn "boom"))].

Lemma opens_iff_streak_witness :
  inv demo_breaker ∧ state demo_breaker = StateClosed ∧
  (∀ k, state (run (take k demo_calls) demo_breaker) = StateClosed).
Proof.
  split_and!; [apply New_inv|done|].
  apply (opens_iff_streak demo_breaker demo_calls); [apply New_inv|done|].
  intros k. do 3 (destruct k as [|k]; [vm_compute; reflexivity|]).
  unfold demo_calls; simpl. rewrite take_nil. vm_compute; reflexivity.
Defined.

(** While the reset timeout has not elapsed since the last failure, an open
    breaker fails fast: [fn] is not called, the error is [ErrCircuitOpen], and
    only the request and rejection counters move. *)
Theorem open_fails_fast t0 t1 r b :
  state b = StateOpen →
  time_sub t0 (lastFailureTime b) < ResetTimeout (opts b) →
  Execute t0 t1 r b =
    (Some ErrCircuitOpen, false, add_rejected 1 (add_requests 1 b)).
Proof.
  intros Hs Ht. unfold Execute, Execute_enter, beforeRequest, checkAutoTransition.
  breaker_step Hs. destruct (Z.leb_spec (ResetTimeout (opts b))
    (time_sub t0 (lastFailureTime b))); [lia|].
  breaker_step Hs. done.
Qed.

Definition demo_open : Breaker :=
  run [mkCall 0 1 (Some (ErrFn "boom")); mkCall 1 2 (Some (ErrFn "boom"))] demo_breaker.

Lemma open_fails_fast_witness :
  state demo_open = StateOpen ∧
  time_sub 900 (lastFailureTime demo_open) < ResetTimeout (opts demo_open) ∧
  Execute 900 901 None demo_open =
    (Some ErrCircuitOpen, false, add_rejected 1 (add_requests 1 demo_open)).
Proof.
  split_and!; [reflexivity|vm_compute; reflexivity|].
  apply (open_fails_fast 900 901 None demo_open); vm_compute; reflexivity.
Defined.

(** ** Recovery *)

Lemma checkAuto_elapsed now b :
  state b = StateOpen →
  ResetTimeout (opts b) <= time_sub now (lastFailureTime b) →
  checkAutoTransition now b = transition now StateHalfOpen b.
Proof.
  intros Hs Ht. unfold checkAutoTransition. rewrite Hs; simpl.
  by destruct (Z.leb_spec (ResetTimeout (opts b)) (time_sub now (lastFailureTime b)));
    [|lia].
Qed.

(** A sequential call in the half-open state (no probe in flight). *)
Lemma Execute_half_open t0 t1 r b :
  inv b → state b = StateHalfOpen → halfOpenRequests b = 0 →
  (Execute t0 t1 r b).1 = (r, true) ∧
  let b' := (Execute t0 t1 r b).2 in
  opts b' = opts b ∧ halfOpenRequests b' = 0 ∧
  match r with
  | Some _ => state b' = StateOpen ∧ lastFailureTime b' = t1
  | None =>
      if SuccessThreshold (opts b) <=? successes b + 1
      then state b' = StateClosed ∧ failures b' = 0
      else state b' = StateHalfOpen ∧ successes b' = successes b + 1
  end.
Proof.
  intros [(_&_&_&HM) Hi] Hs Hh. rewrite Hs in Hi.
  unfold Execute, Execute_enter, beforeRequest, checkAutoTransition.
  breaker_step Hs. destruct (Z.leb_spec (MaxHalfOpenRequests (opts b))
    (halfOpenRequests b)); [lia|]. breaker_step Hs.
  split; [done|]. unfold afterRequest; breaker_step Hs.
  destruct r; unfold onFailure, onSuccess; breaker_step Hs.
  - unfold transition; breaker_step Hs. done.
  - destruct (Z.leb_spec (SuccessThreshold (opts b)) (successes b + 1)).
    + unfold transition; breaker_step Hs. destruct Hi as [? _]. done.
    + simpl. split_and!; try done; lia.
Qed.

Definition ok_call (t : Z * Z) : call := mkCall t.1 t.2 None.

Lemma run_probes ts b :
  inv b → state b = StateHalfOpen → halfOpenRequests b = 0 →
  successes b + Z.of_nat (length ts) <= SuccessThreshold (opts b) →
  let b' := run (ok_call <$> ts) b in
  if decide (successes b + Z.of_nat (length ts) = SuccessThreshold (opts b))
  then state b' = StateClosed ∧ failures b' = 0
  else state b' = StateHalfOpen ∧
       successes b' = successes b + Z.of_nat (length ts).
Proof.
  revert b; induction ts as [|t ts IH]; intros b Hi Hs Hh Hle; cbv zeta.
  { pose proof Hi as [_ Hi']. rewrite Hs in Hi'. simpl in *.
    case_decide; [lia|]. split; [done|lia]. }
  destruct (Execute_half_open t.1 t.2 None b Hi Hs Hh) as (_&Ho&Hh'&H).
  pose proof (Execute_inv t.1 t.2 None b Hi) as Hi'.
  rewrite fmap_cons, run_cons. change (c_start (ok_call t)) with t.1.
  change (c_end (ok_call t)) with t.2. change (c_result (ok_call t)) with (@None error).
  set (b' := (Execute t.1 t.2 None b).2) in *. simpl length in *.
  destruct (Z.leb_spec (SuccessThreshold (opts b)) (successes b + 1)).
  - assert (ts = []) as -> by (destruct ts; [done|simpl length in *; lia]).
    simpl length in *. case_decide; [|lia]. done.
  - destruct H as [Hs' Hsucc]. specialize (IH b' Hi' Hs' Hh').
    rewrite Ho, Hsucc in IH.
    assert (successes b + 1 + Z.of_nat (length ts) =
            successes b + Z.of_nat (S (length ts))) as E by lia.
    rewrite E in IH. specialize (IH Hle). done.
Qed.

(** An open breaker whose timeout has elapsed behaves, at the next call, as the
    half-open breaker with clear counters. *)
Lemma Execute_elapsed t0 t1 r b :
  state b = StateOpen →
  ResetTimeout (opts b) <= time_sub t0 (lastFailureTime b) →
  Execute t0 t1 r b = Execute t0 t1 r (transition t0 StateHalfOpen b).
Proof.
  intros Hs Ht. unfold Execute, Execute_enter, beforeRequest.
  rewrite (checkAuto_elapsed t0 (add_requests 1 b)) by done.
  unfold transition, checkAutoTransition, add_requests; breaker_step Hs.
  done.
Qed.

(** Recovery. Once the reset timeout has elapsed, [SuccessThreshold]
    successful sequential calls close an open breaker with a clear failure
    count, and after any smaller positive number of them it is half-open with
    exactly that many successes counted. *)
Theorem recovery_closes t ts b :
  inv b → state b = StateOpen →
  ResetTimeout (opts b) <= time_sub t.1 (lastFailureTime b) →
  Z.of_nat (length (t :: ts)) <= SuccessThreshold (opts b) →
  let b' := run (ok_call <$> t :: ts) b in
  if decide (Z.of_nat (length (t :: ts)) = SuccessThreshold (opts b))
  then state b' = StateClosed ∧ failures b' = 0
  else state b' = StateHalfOpen ∧ successes b' = Z.of_nat (length (t :: ts)).
Proof.
  intros Hi Hs Ht Hle b'.
  assert (b' = run (ok_call <$> t :: ts) (transition t.1 StateHalfOpen b)) as ->.
  { unfold b'. rewrite fmap_cons, !run_cons. simpl c_start; simpl c_end; simpl c_result.
    by rewrite (Execute_elapsed t.1 t.2 None b Hs Ht). }
  destruct (transition_other t.1 StateHalfOpen b) as (Hs'&_&Hsu&Ho&_);
    [by rewrite Hs|].
  pose proof (run_probes (t :: ts) (transition t.1 StateHalfOpen b)) as H.
  rewrite Hs', Hsu, Ho in H. apply H; try done.
  - by apply transition_inv.
  - unfold transition. by rewrite Hs.
Qed.

Lemma recovery_closes_witness :
  inv demo_open ∧ state (run (ok_call <$> [(1002, 1003); (1004, 1005)]) demo_open) = StateClosed ∧
  failures (run (ok_call <$> [(1002, 1003); (1004, 1005)]) demo_open) = 0.
Proof.
  assert (inv demo_open) as Hi by apply run_inv, New_inv.
  split; [exact Hi|].
  apply (recovery_closes (1002, 1003) [(1004, 1005)] demo_open Hi); vm_compute;
    (reflexivity || discriminate).
Defined.

End Breaker.

(** * Requests in flight *)

(** [fn] runs outside the mutex, so requests overlap. A system state is the
    breaker, the clock and the requests whose [fn] is running. Each request
    carries the number of state changes seen at its admission; [stale] counts
    the requests admitted before the current half-open period that ended in it. *)
Module Concurrent.
Import Breaker.

Record Sys := mkSys {
  clock : Z;
  br : Breaker;
  epoch : nat;
  inflight : list nat;
  stale : nat
}.

Inductive action :=
| Tick (d : N)
| Enter
| Exit (i : nat) (r : option error)
| Observe
| DoReset.

(** Bookkeeping after an operation that left the breaker [b']. *)
Definition bump (s : Sys) (b' : Breaker) : nat :=
  if decide (state (br s) = state b') then epoch s else S (epoch s).

Definition stale_after (s : Sys) (b' : Breaker) (ended : nat) : nat :=
  if decide (state (br s) = state b') then
    if decide (state b' = StateHalfOpen ∧ ended ≠ epoch s)
    then S (stale s) else stale s
  else 0%nat.

Definition put (s : Sys) (b' : Breaker) : Sys :=
  mkSys (clock s) b' (bump s b') (inflight s) (stale_after s b' (epoch s)).

Definition exec (a : action) (s : Sys) : option Sys :=
  match a with
  | Tick d => Some (mkSys (clock s + Z.of_N d) (br s) (epoch s) (inflight s) (stale s))
  | Enter =>
      match Execute_enter (clock s) (br s) with
      | (Some _, b') => Some (put s b')
      | (None, b') =>
          let s' := put s b' in
          Some (mkSys (clock s') b' (epoch s') (epoch s' :: inflight s') (stale s'))
      end
  | Exit i r =>
      match inflight s !! i with
      | None => None
      | Some e =>
          let b' := afterRequest (clock s) r (br s) in
          Some (mkSys (clock s) b' (bump s b') (delete i (inflight s))
                  (stale_after s b' e))
      end
  | Observe => Some (put s (State_ (clock s) (br s)).2)
  | DoReset => Some (put s (Reset (clock s) (br s)))
  end.

Inductive reachable (now : Z) (nm : string) (o : Options) : Sys → Prop :=
| reach_init : reachable now nm o (mkSys now (New now nm o) 0 [] 0)
| reach_step a s s' :
    reachable now nm o s → exec a s = Some s' → reachable now nm o s'.

(** The probes in flight: the requests admitted in the current period. *)
Definition probes (s : Sys) : nat := length (filter (λ e, e = epoch s) (inflight s)).

Fixpoint exec_all (l : list action) (s : Sys) : option Sys :=
  match l with
  | [] => Some s
  | a :: l => match exec a s with Some s' => exec_all l s' | None => None end
  end.

Definition probe_options : Options := mkOptions 1 2 1000 1 false.

Definition late_success : list action :=
  [Enter; Enter; Exit 0 (Some (ErrFn "boom")); Tick 1000; Enter; Exit 1 None; Enter].

Definition sys_inv (s : Sys) : Prop :=
  inv (br s) ∧
  totalRequests (br s) =
    totalSuccesses (br s) + totalFailures (br s) + totalRejected (br s)
    + Z.of_nat (length (inflight s)) ∧
  Forall (λ e, (e <= epoch s)%nat) (inflight s) ∧
  (state (br s) = StateHalfOpen →
   halfOpenRequests (br s) = Z.of_nat (probes s) - Z.of_nat (stale s)).

(** What each operation does to the counters. *)
Definition totals (b : Breaker) : Z * Z * Z * Z :=
  (totalRequests b, totalSuccesses b, totalFailures b, totalRejected b).

Lemma transition_totals now to b : totals (transition now to b) = totals b.
Proof. unfold transition. by case_decide. Qed.

Lemma check_totals now b : totals (checkAutoTransition now b) = totals b.
Proof. unfold checkAutoTransition. case_match; auto using transition_totals. Qed.

Lemma before_totals now b : totals (beforeRequest now b).2 = totals b.
Proof.
  rewrite <-(check_totals now b). unfold beforeRequest. by repeat case_match.
Qed.

Lemma enter_totals now b :
  totals (Execute_enter now b).2 =
    (totalRequests b + 1, totalSuccesses b, totalFailures b,
     totalRejected b + match (Execute_enter now b).1 with Some _ => 1 | None => 0 end).
Proof.
  pose proof (before_totals now (add_requests 1 b)) as H. unfold Execute_enter.
  destruct (beforeRequest now (add_requests 1 b)) as [[e|] b']; unfold totals in *;
    simpl in *; simplify_eq; repeat apply (f_equal2 pair); lia.
Qed.

Lemma after_totals now r b :
  totals (afterRequest now r b) =
    (totalRequests b,
     totalSuccesses b + match r with None => 1 | Some _ => 0 end,
     totalFailures b + match r with None => 0 | Some _ => 1 end,
     totalRejected b).
Proof.
  unfold afterRequest. set (b' := if decide _ then _ else _).
  assert (totals b' = totals b) as Hb by (unfold b'; by case_decide).
  unfold totals in *. simplify_eq.
  destruct r; unfold onFailure, onSuccess, transition;
    repeat (case_match || case_decide); simpl; repeat apply (f_equal2 pair); lia.
Qed.

(** A period starts with no probe counted. *)
Lemma after_half_open now r b :
  state (afterRequest now r b) = StateHalfOpen →
  state b = StateHalfOpen ∧
  halfOpenRequests (afterRequest now r b) = halfOpenRequests b - 1.
Proof.
  unfold afterRequest. case_decide as E.
  - intros H. split; [done|]. revert H.
    destruct r; unfold onFailure, onSuccess, transition; breaker_step E; [done|].
    case_match; simpl; [done|]. lia.
  - intros H. exfalso. revert H.
    destruct r; unfold onFailure, onSuccess, transition; destruct (state b) eqn:E';
      breaker_step E'; try done; case_match; breaker_step E'; done.
Qed.

Lemma enter_half_open now b :
  state (Execute_enter now b).2 = StateHalfOpen →
  halfOpenRequests (Execute_enter now b).2 =
    (if decide (state b = StateHalfOpen) then halfOpenRequests b else 0) +
    match (Execute_enter now b).1 with Some _ => 0 | None => 1 end.
Proof.
  unfold Execute_enter, beforeRequest, checkAutoTransition.
  destruct (state b) eqn:E; breaker_step E; try done.
  - destruct (ResetTimeout _ <=? _); unfold transition; breaker_step E; [|done].
    destruct (MaxHalfOpenRequests _ <=? 0); simpl; lia.
  - destruct (MaxHalfOpenRequests _ <=? _); simpl; lia.
Qed.

Lemma probes_fresh e es :
  Forall (λ x, (x <= e)%nat) es → filter (λ x, x = S e) es = [].
Proof.
  induction 1 as [|x es Hx _ IH]; [done|]. rewrite filter_cons_False; [done|]. lia.
Qed.

Lemma bump_same s b' e :
  state (br s) = state b' →
  bump s b' = epoch s ∧
  stale_after s b' e =
    if decide (state b' = StateHalfOpen ∧ e ≠ epoch s) then S (stale s) else stale s.
Proof. intros E. unfold bump, stale_after. by rewrite !(decide_True _ _ E). Qed.

Lemma bump_new s b' e :
  state (br s) ≠ state b' → bump s b' = S (epoch s) ∧ stale_after s b' e = 0%nat.
Proof. intros E. unfold bump, stale_after. by rewrite !(decide_False _ _ E). Qed.

Lemma stale_own s b' :
  state (br s) = state b' → stale_after s b' (epoch s) = stale s.
Proof.
  intros E. destruct (bump_same s b' (epoch s) E) as [_ ->].
  rewrite decide_False; [done|]. intros [_ ?]; congruence.
Qed.

Lemma epochs_bump s b' :
  Forall (λ e, (e <= epoch s)%nat) (inflight s) →
  Forall (λ e, (e <= bump s b')%nat) (inflight s).
Proof.
  intros H. eapply Forall_impl; [|exact H]. unfold bump. intros; case_decide; lia.
Qed.

(** Operations that leave the requests in flight alone. *)
Lemma put_inv s b' :
  sys_inv s → inv b' →
  totalRequests b' - totalRejected b' = totalRequests (br s) - totalRejected (br s) →
  totalSuccesses b' = totalSuccesses (br s) → totalFailures b' = totalFailures (br s) →
  (state b' = StateHalfOpen → halfOpenRequests b' =
     if decide (state (br s) = StateHalfOpen) then halfOpenRequests (br s) else 0) →
  sys_inv (put s b').
Proof.
  intros (Hi&Ht&He&Hp) Hi' H1 H2 H3 H4. unfold put. split_and!; simpl; [done|lia| |].
  - by apply epochs_bump.
  - intros Hs. rewrite (H4 Hs). unfold probes; simpl.
    destruct (decide (state (br s) = StateHalfOpen)) as [E|E].
    + assert (state (br s) = state b') as Hb by congruence.
      rewrite (stale_own s b' Hb). destruct (bump_same s b' 0 Hb) as [-> _].
      by apply Hp.
    + destruct (bump_new s b' (epoch s)) as [-> ->]; [congruence|].
      by rewrite probes_fresh.
Qed.

Lemma filter_delete_length (P : nat → Prop) `{!∀ x, Decision (P x)} es i e :
  es !! i = Some e →
  length (filter P es) =
    (length (filter P (delete i es)) + if decide (P e) then 1 else 0)%nat.
Proof.
  revert i; induction es as [|x es IH]; intros [|i] Hi; simplify_eq/=.
  - rewrite filter_cons. case_decide; simpl; lia.
  - rewrite !filter_cons. specialize (IH i Hi).
    destruct (decide (P x)); cbn [length]; rewrite IH; lia.
Qed.

Lemma exec_inv a s s' : sys_inv s → exec a s = Some s' → sys_inv s'.
Proof.
  intros Hsys Hx. pose proof Hsys as (Hi&Ht&He&Hp).
  destruct a as [d| |i r| |]; simpl in Hx.
  - simplify_eq. done.
  - pose proof (enter_totals (clock s) (br s)) as Htot.
    pose proof (enter_inv (clock s) (br s) Hi) as Hi'.
    pose proof (enter_half_open (clock s) (br s)) as Hh.
    destruct (Execute_enter (clock s) (br s)) as [[e|] b']; unfold totals in Htot;
      simplify_eq/=.
    + apply put_inv; try done; try lia. intros Hs. rewrite (Hh Hs). case_decide; lia.
    + split_and!; simpl; [done|lia| |].
      * constructor; [lia|]. by apply epochs_bump.
      * intros Hs. rewrite (Hh Hs). unfold probes; simpl.
        rewrite filter_cons_True by done. simpl length.
        destruct (decide (state (br s) = StateHalfOpen)) as [E|E].
        -- assert (state (br s) = state b') as Hb by congruence.
           rewrite (stale_own s b' Hb), (Hp E).
           destruct (bump_same s b' 0 Hb) as [-> _]. unfold probes. lia.
        -- destruct (bump_new s b' (epoch s)) as [-> ->]; [congruence|].
           rewrite probes_fresh by done. simpl. lia.
  - destruct (inflight s !! i) as [e|] eqn:Hei; simplify_eq.
    pose proof (after_totals (clock s) r (br s)) as Htot. unfold totals in Htot.
    pose proof (after_inv (clock s) r (br s) Hi) as Hi'.
    pose proof (after_half_open (clock s) r (br s)) as Hh.
    set (b' := afterRequest (clock s) r (br s)) in *. simplify_eq.
    pose proof (length_delete (inflight s) i (mk_is_Some _ _ Hei)) as Hlen.
    pose proof (lookup_lt_Some _ _ _ Hei) as Hlt.
    split_and!; simpl; [done| | |].
    + destruct r; lia.
    + apply Forall_delete. by apply epochs_bump.
    + intros Hs. destruct (Hh Hs) as [E Hd]. rewrite Hd, (Hp E).
      destruct (bump_same s b' e) as [Hbu ->]; [congruence|].
      unfold probes; simpl. rewrite Hbu.
      rewrite (filter_delete_length (λ x, x = epoch s) _ _ _ Hei).
      destruct (decide (e = epoch s)) as [Ee|Ee];
        [rewrite decide_False by tauto|rewrite decide_True by tauto]; lia.
  - simplify_eq. unfold State_; simpl. pose proof (check_totals (clock s) (br s)) as Htot.
    unfold totals in Htot. simplify_eq.
    apply put_inv; try done; try lia; [by apply check_inv|].
    intros Hs. unfold checkAutoTransition, transition in *.
    destruct (state (br s)) eqn:E; breaker_step E; try done.
    by case_match; breaker_step E.
  - simplify_eq. pose proof (transition_totals (clock s) StateClosed (br s)) as Htot.
    unfold totals in Htot. simplify_eq. unfold Reset.
    apply put_inv; try done; try lia; [by apply transition_inv|].
    unfold transition. case_decide as E; simpl; [|done]. by rewrite E.
Qed.

Lemma reachable_inv now nm o s : reachable now nm o s → sys_inv s.
Proof.
  induction 1 as [|a s s' _ IH Hx]; [|by eapply exec_inv].
  split_and!; simpl; try done. apply New_inv.
Qed.

Lemma exec_all_reachable now nm o l s s' :
  reachable now nm o s → exec_all l s = Some s' → reachable now nm o s'.
Proof.
  revert s; induction l as [|a l IH]; intros s Hr H; simplify_eq/=; [done|].
  destruct (exec a s) eqn:E; [|done]. eauto using reach_step.
Qed.

(** However requests overlap, every request is accounted for exactly once:
    the requests counted are the successes, the failures, the rejections and
    the requests still in flight. *)
Theorem requests_accounted now nm o s :
  reachable now nm o s →
  totalRequests (br s) =
    totalSuccesses (br s) + totalFailures (br s) + totalRejected (br s)
    + Z.of_nat (length (inflight s)).
Proof. intros H. apply (reachable_inv _ _ _ _ H). Qed.

Definition overlap : Sys :=
  default (mkSys 0 (New 0 "node-1" probe_options) 0 [] 0)
    (exec_all late_success (mkSys 0 (New 0 "node-1" probe_options) 0 [] 0)).

Lemma overlap_reachable : reachable 0 "node-1" probe_options overlap.
Proof.
  eapply (exec_all_reachable _ _ _ late_success); [apply reach_init|].
  vm_compute; reflexivity.
Qed.

Lemma requests_accounted_witness :
  reachable 0 "node-1" probe_options overlap ∧
  totalRequests (br overlap) =
    totalSuccesses (br overlap) + totalFailures (br overlap)
    + totalRejected (br overlap) + Z.of_nat (length (inflight overlap)).
Proof.
  split; [apply overlap_reachable|].
  apply (requests_accounted 0 "node-1" probe_options overlap overlap_reachable).
Defined.

(** C27: In every reachable half-open state the probe counter is the number of
    probes in flight less the number of requests of earlier periods that ended
    in this one; so the probes in flight are at most [MaxHalfOpenRequests] plus
    that number, and at most [MaxHalfOpenRequests] when there is none. *)
Theorem probes_bounded now nm o s :
  reachable now nm o s → state (br s) = StateHalfOpen →
  halfOpenRequests (br s) = Z.of_nat (probes s) - Z.of_nat (stale s) ∧
  Z.of_nat (probes s) <= MaxHalfOpenRequests (opts (br s)) + Z.of_nat (stale s).
Proof.
  intros H Hs. destruct (reachable_inv _ _ _ _ H) as ((_&Hi)&_&_&Hp).
  rewrite Hs in Hi. specialize (Hp Hs). split; [done|lia].
Qed.

Lemma probes_bounded_witness :
  reachable 0 "node-1" probe_options overlap ∧ state (br overlap) = StateHalfOpen ∧
  Z.of_nat (probes overlap) <=
    MaxHalfOpenRequests (opts (br overlap)) + Z.of_nat (stale overlap).
Proof.
  split_and!; [apply overlap_reachable|vm_compute; reflexivity|].
  apply (probes_bounded 0 "node-1" probe_options overlap overlap_reachable).
  vm_compute; reflexivity.
Defined.

(** The bound of [probes_bounded] is reached. With [MaxHalfOpenRequests] 1,
    a request admitted while the breaker was closed that ends while it is
    half-open gives back a slot it never took: two probes are then in flight
    together. *)
Theorem probe_limit_exceeded :
  ∃ s, reachable 0 "node-1" probe_options s ∧
       state (br s) = StateHalfOpen ∧
       MaxHalfOpenRequests (opts (br s)) = 1 ∧ probes s = 2%nat.
Proof.
  destruct (exec_all late_success (mkSys 0 (New 0 "node-1" probe_options) 0 [] 0))
    as [s|] eqn:E; [|by vm_compute in E].
  exists s. split; [eapply exec_all_reachable; [constructor|exact E]|].
  vm_compute in E. by simplify_eq.
Qed.

End Concurrent.

(** * The compute node's breaker *)

Module NodeBreaker.
Import Breaker.

Record CircuitBreaker := mkCB {
  cb_state : string;
  cb_failures : Z;
  cb_successes : Z;
  threshold : Z;
  timeout : Z;
  lastFailTime : Z
}.

Definition NewCircuitBreaker (thr tmo : Z) : CircuitBreaker :=
  mkCB "closed" 0 0 thr tmo time_zero.

(** [Call] up to the point where [fn] runs: [true] when the call is rejected. *)
Definition Call_enter (now : Z) (cb : CircuitBreaker) : bool * CircuitBreaker :=
  let cb :=
    if bool_decide (cb_state cb = "open")
       && (timeout cb <=? time_sub now (lastFailTime cb))
    then mkCB "half-open" (cb_failures cb) 0 (threshold cb) (timeout cb) (lastFailTime cb)
    else cb in
  (bool_decide (cb_state cb = "open"), cb).

(** [Call] after [fn] has returned. *)
Definition Call_exit (now : Z) (r : option error) (cb : CircuitBreaker) : CircuitBreaker :=
  match r with
  | Some _ =>
      let f := cb_failures cb + 1 in
      mkCB (if threshold cb <=? f then "open" else cb_state cb) f (cb_successes cb)
        (threshold cb) (timeout cb) now
  | None =>
      if decide (cb_state cb = "half-open") then
        let s := cb_successes cb + 1 in
        if 2 <=? s
        then mkCB "closed" 0 0 (threshold cb) (timeout cb) (lastFailTime cb)
        else mkCB (cb_state cb) (cb_failures cb) s (threshold cb) (timeout cb)
               (lastFailTime cb)
      else
        mkCB (cb_state cb) 0 (cb_successes cb) (threshold cb) (timeout cb)
          (lastFailTime cb)
  end.

(** [Call] with nothing else running, and whether [fn] was called. *)
Definition Call (t0 t1 : Z) (r : option error) (cb : CircuitBreaker)
    : option error * bool * CircuitBreaker :=
  match Call_enter t0 cb with
  | (true, cb') => (Some (ErrFn "circuit breaker is open"), false, cb')
  | (false, cb') => (r, true, Call_exit t1 r cb')
  end.

Definition GetState (cb : CircuitBreaker) : string := cb_state cb.

(** What the caller of the package breaker sees, as the node breaker reports it. *)
Definition report (e : option error) (called : bool) : option error :=
  if called then e
  else match e with
       | Some ErrCircuitOpen => Some (ErrFn "circuit breaker is open")
       | _ => e
       end.

Fixpoint outcomes (cs : list call) (b : Breaker) : list (option error * bool) :=
  match cs with
  | [] => []
  | c :: cs =>
      let '(e, called, b') := Execute (c_start c) (c_end c) (c_result c) b in
      (report e called, called) :: outcomes cs b'
  end.

Fixpoint cb_outcomes (cs : list call) (cb : CircuitBreaker) : list (option error * bool) :=
  match cs with
  | [] => []
  | c :: cs =>
      let '(e, called, cb') := Call (c_start c) (c_end c) (c_result c) cb in
      (e, called) :: cb_outcomes cs cb'
  end.

(** The simulation: same state, same failure instant, same counter where it
    matters; the node breaker keeps its failures at the threshold while it is
    not closed. *)
Definition sim (b : Breaker) (cb : CircuitBreaker) : Prop :=
  inv b ∧ halfOpenRequests b = 0 ∧
  FailureThreshold (opts b) = threshold cb ∧ SuccessThreshold (opts b) = 2 ∧
  ResetTimeout (opts b) = timeout cb ∧
  State_String (state b) = cb_state cb ∧ lastFailureTime b = lastFailTime cb ∧
  match state b with
  | StateClosed => failures b = cb_failures cb
  | StateOpen => threshold cb <= cb_failures cb
  | StateHalfOpen => threshold cb <= cb_failures cb ∧ successes b = cb_successes cb
  end.

Ltac sim_split := split_and!; simpl; try done; try lia; try congruence.

Lemma sim_closed t0 t1 r b cb :
  sim b cb → state b = StateClosed →
  Call t0 t1 r cb = (r, true, (Call t0 t1 r cb).2) ∧
  sim (Execute t0 t1 r b).2 (Call t0 t1 r cb).2.
Proof.
  intros (Hi&Hh&Hft&Hst&Hrt&Hstr&Hlf&Hm) Hs.
  pose proof (Execute_inv t0 t1 r b Hi) as Hi'. rewrite Hs in Hstr, Hm; simpl in Hstr.
  unfold Call, Call_enter. rewrite <-Hstr; simpl. rewrite <-Hstr; simpl.
  split; [done|]. revert Hi'.
  unfold Execute, Execute_enter, beforeRequest, checkAutoTransition, afterRequest.
  breaker_step Hs. destruct r; unfold onFailure, onSuccess, Call_exit; breaker_step Hs.
  - rewrite <-Hft, <-Hm.
    case_match; zbool; unfold transition; breaker_step Hs; intros Hi'; sim_split;
      rewrite ?Hs; simpl; sim_split.
  - rewrite <-Hstr; simpl. intros Hi'. sim_split; rewrite ?Hs; simpl; sim_split.
Qed.

Lemma sim_half_open t0 t1 r b cb :
  sim b cb → state b = StateHalfOpen →
  Execute t0 t1 r b = (r, true, (Execute t0 t1 r b).2) ∧
  Call t0 t1 r cb = (r, true, (Call t0 t1 r cb).2) ∧
  sim (Execute t0 t1 r b).2 (Call t0 t1 r cb).2.
Proof.
  intros (Hi&Hh&Hft&Hst&Hrt&Hstr&Hlf&Hm) Hs.
  pose proof (Execute_inv t0 t1 r b Hi) as Hi'.
  pose proof Hi as [(_&_&_&HM) _].
  rewrite Hs in Hstr, Hm; simpl in Hstr. destruct Hm as [Hcf Hsu].
  unfold Call, Call_enter. rewrite <-Hstr; simpl. rewrite <-Hstr; simpl.
  revert Hi'. unfold Execute, Execute_enter, beforeRequest, checkAutoTransition, afterRequest.
  breaker_step Hs. destruct (Z.leb_spec (MaxHalfOpenRequests (opts b)) (halfOpenRequests b));
    [lia|]. breaker_step Hs.
  destruct r; unfold onFailure, onSuccess, Call_exit; breaker_step Hs.
  - destruct (Z.leb_spec (threshold cb) (cb_failures cb + 1)); [|lia].
    unfold transition; breaker_step Hs. intros Hi'. sim_split.
  - rewrite <-Hstr, Hst, Hsu; simpl.
    destruct (Z.leb_spec 2 (cb_successes cb + 1)); unfold transition; breaker_step Hs;
      intros Hi'; sim_split; rewrite ?Hs; simpl; sim_split.
Qed.

Lemma sim_Execute t0 t1 r b cb :
  sim b cb →
  (report (Execute t0 t1 r b).1.1 (Execute t0 t1 r b).1.2, (Execute t0 t1 r b).1.2) =
    (Call t0 t1 r cb).1 ∧
  sim (Execute t0 t1 r b).2 (Call t0 t1 r cb).2.
Proof.
  intros Hsim. destruct (state b) eqn:Hs.
  - destruct (sim_closed t0 t1 r b cb Hsim Hs) as [-> Hsim'].
    destruct (Execute_closed t0 t1 r b Hs) as [-> _]. done.
  - pose proof Hsim as (Hi&Hh&Hft&Hst&Hrt&Hstr&Hlf&Hm).
    rewrite Hs in Hstr, Hm; simpl in Hstr.
    destruct (Z.le_gt_cases (timeout cb) (time_sub t0 (lastFailTime cb))) as [Ht|Ht].
    + rewrite Execute_elapsed by (rewrite ?Hlf, ?Hrt; done).
      set (cb1 := mkCB "half-open" (cb_failures cb) 0 (threshold cb) (timeout cb)
                    (lastFailTime cb)).
      assert (Call t0 t1 r cb = Call t0 t1 r cb1) as ->.
      { unfold Call, Call_enter. rewrite <-Hstr; simpl.
        by destruct (Z.leb_spec (timeout cb) (time_sub t0 (lastFailTime cb))); [|lia]. }
      assert (sim (transition t0 StateHalfOpen b) cb1) as Hsim1.
      { unfold sim. split; [by apply transition_inv|].
        unfold transition; breaker_step Hs. sim_split. }
      destruct (sim_half_open t0 t1 r _ _ Hsim1) as (->&->&Hsim'); [|done].
      apply transition_other. by rewrite Hs.
    + rewrite open_fails_fast by (rewrite ?Hlf, ?Hrt; done || lia).
      unfold Call, Call_enter. rewrite <-Hstr; simpl.
      destruct (Z.leb_spec (timeout cb) (time_sub t0 (lastFailTime cb))); [lia|].
      rewrite <-Hstr; simpl. split; [done|].
      unfold sim; simpl. rewrite Hs. simpl. by split_and!.
  - destruct (sim_half_open t0 t1 r b cb Hsim Hs) as (->&->&?). done.
Qed.

Lemma sim_outcomes cs b cb : sim b cb → outcomes cs b = cb_outcomes cs cb.
Proof.
  revert b cb; induction cs as [|c cs IH]; intros b cb Hsim; [done|]. simpl.
  destruct (sim_Execute (c_start c) (c_end c) (c_result c) b cb Hsim) as [H1 H2].
  destruct (Execute _ _ _ b) as [[e called] b'].
  destruct (Call _ _ _ cb) as [[e' called'] cb']. simplify_eq/=. f_equal; eauto.
Qed.

(** Under sequential use the two breakers of the code base are
    indistinguishable: the node breaker with a positive threshold and timeout
    answers every sequence of calls as the package breaker with the same
    threshold and timeout and a success threshold of 2. *)
Theorem node_breaker_equiv now nm thr tmo maxh cb cs :
  0 < thr → 0 < tmo →
  outcomes cs (New now nm (mkOptions thr 2 tmo maxh cb)) =
  cb_outcomes cs (NewCircuitBreaker thr tmo).
Proof.
  intros Hthr Htmo. apply sim_outcomes. split; [apply New_inv|]. simpl.
  destruct (Z.leb_spec thr 0), (Z.leb_spec tmo 0); try lia. done.
Qed.

Lemma node_breaker_equiv_witness :
  0 < 2 ∧ 0 < 1000 ∧
  outcomes demo_calls (New 0 "node-1" (mkOptions 2 2 1000 1 false)) =
  cb_outcomes demo_calls (NewCircuitBreaker 2 1000).
Proof.
  split_and!; [lia|lia|].
  apply (node_breaker_equiv 0 "node-1" 2 1000 1 false demo_calls); lia.
Defined.

(** Three calls overlap, the first two fail and trip the breaker, the third
    ends well afterwards; the next probe fails. *)
Definition masked_failure : CircuitBreaker :=
  let boom := Some (ErrFn "boom") in
  let cb := NewCircuitBreaker 2 1000 in
  let cb := (Call_enter 0 (Call_enter 0 (Call_enter 0 cb).2).2).2 in
  let cb := Call_exit 0 None (Call_exit 0 boom (Call_exit 0 boom cb)) in
  Call_exit 1000 boom (Call_enter 1000 cb).2.

(** With overlapping calls they differ. A call that succeeds after the node
    breaker has opened clears its failure count, and the next failed probe then
    leaves it half-open, letting every call through, where the package breaker
    opens again. *)
Theorem node_breaker_stays_half_open :
  cb_state masked_failure = "half-open" ∧
  (∀ now, (Call_enter now masked_failure).1 = false) ∧
  (∀ now r b, state b = StateHalfOpen → r ≠ None →
     state (afterRequest now r b) = StateOpen).
Proof.
  split_and!; [done|done|]. intros now r b Hs Hr. destruct r; [|done].
  unfold afterRequest. breaker_step Hs. unfold onFailure, transition. by breaker_step Hs.
Qed.

End NodeBreaker.
