(* ===== verification/Glob.v ===== *)
(** * Shell patterns: Go's filepath.Match on Unix

    The matcher of package [path/filepath], which the policy evaluator falls
    back to. [Match] is [true] when Go returns [(true, nil)]: the callers drop
    the error. *)
From S2P Require Import Prelude GoStrings.
From Stdlib Require Import Ascii.

Definition RuneError : Z := 65533.

Definition cont (s : string) (lo hi : Z) : option (Z * string) :=
  match s with
  | String c s' =>
      if ((lo <=? byte_of c) && (byte_of c <=? hi))%Z
      then Some ((byte_of c mod 64)%Z, s') else None
  | EmptyString => None
  end.

(** [utf8.DecodeRuneInString]: the first rune and the bytes it takes. *)
Definition DecodeRune (s : string) : Z * nat :=
  match s with
  | EmptyString => (RuneError, 0)
  | String c s1 =>
      let b := byte_of c in
      if (b <? 128)%Z then (b, 1)
      else if ((194 <=? b) && (b <=? 223))%Z then
        match cont s1 128 191 with
        | Some (x, _) => (((b - 192) * 64 + x)%Z, 2)
        | None => (RuneError, 1)
        end
      else if ((224 <=? b) && (b <=? 239))%Z then
        let lo := if (b =? 224)%Z then 160%Z else 128%Z in
        let hi := if (b =? 237)%Z then 159%Z else 191%Z in
        match cont s1 lo hi with
        | Some (x, s2) =>
            match cont s2 128 191 with
            | Some (y, _) => ((((b - 224) * 64 + x) * 64 + y)%Z, 3)
            | None => (RuneError, 1)
            end
        | None => (RuneError, 1)
        end
      else if ((240 <=? b) && (b <=? 244))%Z then
        let lo := if (b =? 240)%Z then 144%Z else 128%Z in
        let hi := if (b =? 244)%Z then 143%Z else 191%Z in
        match cont s1 lo hi with
        | Some (x, s2) =>
            match cont s2 128 191 with
            | Some (y, s3) =>
                match cont s3 128 191 with
                | Some (z, _) => (((((b - 240) * 64 + x) * 64 + y) * 64 + z)%Z, 4)
                | None => (RuneError, 1)
                end
            | None => (RuneError, 1)
            end
        | None => (RuneError, 1)
        end
      else (RuneError, 1)
  end.

(** The leading stars of a pattern, and what follows them. *)
Fixpoint skip_stars (p : string) : bool * string :=
  match p with
  | String c p' => if decide (c = "*"%char) then (true, (skip_stars p').2) else (false, p)
  | EmptyString => (false, p)
  end.

(** The longest prefix without a star outside a class. *)
Fixpoint scan (inrange : bool) (p : string) : string * string :=
  match p with
  | EmptyString => (EmptyString, EmptyString)
  | String c p' =>
      if decide (c = "\"%char) then
        match p' with
        | EmptyString => (p, EmptyString)
        | String d p'' =>
            let '(l, r) := scan inrange p'' in (String c (String d l), r)
        end
      else if decide (c = "["%char) then
        let '(l, r) := scan true p' in (String c l, r)
      else if decide (c = "]"%char) then
        let '(l, r) := scan false p' in (String c l, r)
      else if decide (c = "*"%char) then
        if inrange then let '(l, r) := scan inrange p' in (String c l, r)
        else (EmptyString, p)
      else let '(l, r) := scan inrange p' in (String c l, r)
  end.

Definition scanChunk (p : string) : bool * string * string :=
  let '(star, p') := skip_stars p in
  let '(chunk, rest) := scan false p' in
  (star, chunk, rest).

(** A possibly escaped character of a class. *)
Definition getEsc (chunk : string) : option (Z * string) :=
  match chunk with
  | EmptyString => None
  | String c chunk' =>
      if decide (c = "-"%char ∨ c = "]"%char) then None
      else
        let chunk1 := if decide (c = "\"%char) then chunk' else chunk in
        let '(r, n) := DecodeRune chunk1 in
        if (r =? RuneError)%Z && (n <=? 1)%nat then None
        else
          match str_drop n chunk1 with
          | EmptyString => None
          | nchunk => Some (r, nchunk)
          end
  end.

(** The ranges of a class up to its closing bracket. [fuel] bounds the ranges:
    each takes at least one byte. *)
Fixpoint class (fuel : nat) (r : Z) (chunk : string) (nrange : bool) (found : bool)
    : option (bool * string) :=
  match fuel with
  | 0 => None
  | S fuel =>
      match chunk, nrange with
      | String "]" chunk', true => Some (found, chunk')
      | _, _ =>
          match getEsc chunk with
          | None => None
          | Some (lo, chunk1) =>
              let hi_rest :=
                match chunk1 with
                | String "-" chunk2 => getEsc chunk2
                | _ => Some (lo, chunk1)
                end in
              match hi_rest with
              | None => None
              | Some (hi, chunk3) =>
                  class fuel r chunk3 true (found || ((lo <=? r) && (r <=? hi))%Z)
              end
          end
      end
  end.

Inductive chunk_result :=
| Bad
| Fail
| Rest (s : string).

(** [matchChunk]: the subject is [None] once the match has failed and the rest
    of the chunk is only checked. *)
Fixpoint matchChunk_loop (fuel : nat) (chunk : string) (s : option string)
    : chunk_result :=
  match fuel with
  | 0 => Bad
  | S fuel =>
      match chunk with
      | EmptyString => match s with Some s => Rest s | None => Fail end
      | String c chunk' =>
          let s := match s with Some EmptyString => None | _ => s end in
          if decide (c = "["%char) then
            let '(r, s1) :=
              match s with
              | Some s => let '(r, n) := DecodeRune s in (r, Some (str_drop n s))
              | None => (0%Z, None)
              end in
            let '(negated, chunk1) :=
              match chunk' with
              | String "^" chunk2 => (true, chunk2)
              | _ => (false, chunk')
              end in
            match class (S (str_len chunk1)) r chunk1 false false with
            | None => Bad
            | Some (found, chunk3) =>
                matchChunk_loop fuel chunk3 (if Bool.eqb found negated then None else s1)
            end
          else if decide (c = "?"%char) then
            let s1 :=
              match s with
              | Some (String d _ as s0) =>
                  if decide (d = "/"%char) then None
                  else Some (str_drop (DecodeRune s0).2 s0)
              | _ => None
              end in
            matchChunk_loop fuel chunk' s1
          else
            let lit :=
              if decide (c = "\"%char) then
                match chunk' with
                | EmptyString => None
                | String d chunk2 => Some (d, chunk2)
                end
              else Some (c, chunk') in
            match lit with
            | None => Bad
            | Some (d, chunk2) =>
                let s1 :=
                  match s with
                  | Some (String e s0) => if decide (d = e) then Some s0 else None
                  | _ => None
                  end in
                matchChunk_loop fuel chunk2 s1
            end
      end
  end.

Definition matchChunk (chunk s : string) : chunk_result :=
  matchChunk_loop (S (str_len chunk)) chunk (Some s).

(** The positions a star may skip to: the first at which the chunk matches,
    and matches to the end when it is the last one. *)
Fixpoint star_search (chunk : string) (last : bool) (name : string) : chunk_result :=
  match name with
  | EmptyString => Fail
  | String c name' =>
      if decide (c = "/"%char) then Fail
      else
        match matchChunk chunk name' with
        | Rest t =>
            if last && negb (bool_decide (t = EmptyString))
            then star_search chunk last name' else Rest t
        | Bad => Bad
        | Fail => star_search chunk last name'
        end
  end.

(** [fuel] bounds the chunks: each takes at least one byte of the pattern. *)
Fixpoint Match_loop (fuel : nat) (pattern name : string) : bool :=
  match fuel with
  | 0 => false
  | S fuel =>
      match pattern with
      | EmptyString => bool_decide (name = EmptyString)
      | _ =>
          let '(star, chunk, rest) := scanChunk pattern in
          if star && bool_decide (chunk = EmptyString) then negb (str_mem "/" name)
          else
            let last := bool_decide (rest = EmptyString) in
            let skip :=
              if star then
                match star_search chunk last name with
                | Rest t => Match_loop fuel rest t
                | _ => false
                end
              else false in
            match matchChunk chunk name with
            | Rest t =>
                if negb last || bool_decide (t = EmptyString)
                then Match_loop fuel rest t else skip
            | Bad => false
            | Fail => skip
            end
      end
  end.

Definition Match (pattern name : string) : bool :=
  Match_loop (S (str_len pattern)) pattern name.

(** ** Patterns without special characters, and prefix patterns *)

Definition plain (c : ascii) : bool :=
  negb (bool_decide (c ∈ ["*"; "?"; "["; "\"]%char)).

Lemma plain_ne c :
  plain c = true →
  c ≠ "*"%char ∧ c ≠ "?"%char ∧ c ≠ "["%char ∧ c ≠ "\"%char.
Proof. unfold plain. intros H. zbool. set_solver. Qed.

Lemma skip_stars_plain p : str_forall plain p = true → skip_stars p = (false, p).
Proof.
  destruct p as [|c p]; [done|]. simpl. intros [Hc _]%andb_true_iff.
  destruct (plain_ne c Hc) as [Hn _]. by rewrite (decide_False _ _ Hn).
Qed.

(** A plain prefix is scanned whole, up to the end or to the next star. *)
Lemma scan_plain p q :
  str_forall plain p = true → scan false q = ("", q) →
  scan false (p +:+ q) = (p, q).
Proof.
  intros Hp Hq. induction p as [|c p IH]; [done|]. simpl in Hp. zbool.
  destruct (plain_ne c) as (H1&H2&H3&H4); [done|].
  rewrite str_app_cons; simpl. rewrite IH by done.
  rewrite (decide_False _ _ H4), (decide_False _ _ H3), (decide_False _ _ H1).
  by destruct (decide (c = "]"%char)).
Qed.

Lemma matchChunk_failed fuel p :
  str_forall plain p = true → str_len p < fuel → matchChunk_loop fuel p None = Fail.
Proof.
  revert fuel; induction p as [|c p IH]; intros [|fuel] Hp Hf; simpl in *; try lia; [done|].
  zbool. destruct (plain_ne c) as (_&H2&H3&H4); [done|].
  rewrite (decide_False _ _ H3), (decide_False _ _ H2), (decide_False _ _ H4).
  apply IH; [done|lia].
Qed.

Lemma matchChunk_plain p s :
  str_forall plain p = true →
  matchChunk p s = if HasPrefix s p then Rest (str_drop (str_len p) s) else Fail.
Proof.
  unfold matchChunk. assert (str_len p < S (str_len p)) as Hf by lia. revert Hf.
  generalize (S (str_len p)). intros fuel. revert fuel s.
  induction p as [|c p IH]; intros [|fuel] s Hf Hp; simpl in *; try lia; [done|].
  zbool. destruct (plain_ne c) as (_&H2&H3&H4); [done|].
  rewrite (decide_False _ _ H3), (decide_False _ _ H2), (decide_False _ _ H4).
  destruct s as [|d s]; [apply matchChunk_failed; [done|lia]|].
  case_decide as Hd; [subst; rewrite bool_decide_eq_true_2 by done|
    rewrite bool_decide_eq_false_2 by done]; simpl.
  - apply IH; [lia|done].
  - apply matchChunk_failed; [done|lia].
Qed.

(** One round of the matcher on a chunk that follows no star. *)
Lemma Match_loop_nostar fuel p chunk rest name :
  p ≠ "" → scanChunk p = (false, chunk, rest) →
  Match_loop (S fuel) p name =
    match matchChunk chunk name with
    | Rest t =>
        if negb (bool_decide (rest = "")) || bool_decide (t = "")
        then Match_loop fuel rest t else false
    | _ => false
    end.
Proof. intros Hp Hs. destruct p as [|c p]; [done|]. simpl. rewrite Hs. done. Qed.

(** A pattern without special characters matches itself only. *)
Lemma Match_plain p s : str_forall plain p = true → Match p s = bool_decide (p = s).
Proof.
  intros Hp. unfold Match. destruct p as [|c p0] eqn:Ep.
  { simpl. apply bool_decide_ext. naive_solver. }
  rewrite <-Ep in *. destruct (str_len p) as [|n] eqn:El; [by rewrite Ep in El|].
  assert (scanChunk p = (false, p, "")) as Hs.
  { unfold scanChunk. rewrite skip_stars_plain by done.
    rewrite <-(str_app_nil_r p) at 1. by rewrite scan_plain. }
  rewrite (Match_loop_nostar _ p p "" s) by (done || by rewrite Ep).
  rewrite matchChunk_plain by done.
  destruct (HasPrefix s p) eqn:Hpre.
  - apply HasPrefix_spec in Hpre as [t ->]. rewrite str_drop_app. simpl.
    destruct t as [|d t]; simpl.
    + rewrite str_app_nil_r. by rewrite bool_decide_eq_true_2.
    + symmetry. apply bool_decide_eq_false_2. intros E.
      rewrite <-(str_app_nil_r p) in E at 1. by apply str_app_inj_l in E.
  - symmetry. apply bool_decide_eq_false_2. intros ->.
    assert (HasPrefix s s = true) as Hss; [|congruence].
    apply HasPrefix_spec. exists "". by rewrite str_app_nil_r.
Qed.

(** A plain prefix and a star match the strings with that prefix and no slash
    after it. *)
Lemma Match_prefix p s :
  str_forall plain p = true →
  Match (p +:+ "*") s = HasPrefix s p && negb (str_mem "/" (str_drop (str_len p) s)).
Proof.
  intros Hp. unfold Match. rewrite str_len_app. destruct p as [|c p0] eqn:Ep.
  { by simpl. }
  rewrite <-Ep in *. assert (∃ n, str_len p + str_len "*" = S n) as [n ->].
  { exists (str_len p). simpl. lia. }
  assert (scanChunk (p +:+ "*") = (false, p, "*")) as Hs.
  { unfold scanChunk. assert (skip_stars (p +:+ "*") = (false, p +:+ "*")) as ->.
    { rewrite Ep in Hp |- *. simpl in Hp. zbool. rewrite str_app_cons. simpl.
      destruct (plain_ne c) as (H1&_); [done|]. by rewrite (decide_False _ _ H1). }
    by rewrite scan_plain. }
  rewrite (Match_loop_nostar _ _ p "*" s); [|by rewrite Ep, str_app_cons|done].
  rewrite matchChunk_plain by done. by destruct (HasPrefix s p).
Qed.
