(* ===== verification/NetIP.v ===== *)
(** * IP addresses

    The part of Go's package [net] that the IP allocator and the policy
    conditions use. An [IP] is a list of bytes as in Go: 4 or 16 of them in a
    valid address, and the empty list is [nil]. *)
From S2P Require Import Prelude GoStrings.
From Stdlib Require Import Ascii.

Local Open Scope Z_scope.

Abbreviation IP := (list Z).

Definition v4prefix : IP := [0; 0; 0; 0; 0; 0; 0; 0; 0; 0; 255; 255].

Definition To4 (ip : IP) : option IP :=
  if decide (length ip = 4%nat) then Some ip
  else if decide (length ip = 16%nat ∧ take 12 ip = v4prefix) then Some (drop 12 ip)
  else None.

Definition To16 (ip : IP) : option IP :=
  if decide (length ip = 4%nat) then Some (v4prefix ++ ip)
  else if decide (length ip = 16%nat) then Some ip
  else None.

Definition IP_Equal (a b : IP) : bool :=
  if decide (length a = length b) then bool_decide (a = b)
  else if decide (length a = 4%nat ∧ length b = 16%nat) then
    bool_decide (take 12 b = v4prefix ∧ a = drop 12 b)
  else if decide (length a = 16%nat ∧ length b = 4%nat) then
    bool_decide (take 12 a = v4prefix ∧ drop 12 a = b)
  else false.

(** ** Parsing *)

Definition digit (c : ascii) : option Z :=
  if byte_in "0" "9" c then Some (byte_of c - 48) else None.

Definition hexdigit (c : ascii) : option Z :=
  if byte_in "0" "9" c then Some (byte_of c - 48)
  else if byte_in "a" "f" c then Some (byte_of c - 87)
  else if byte_in "A" "F" c then Some (byte_of c - 55)
  else None.

(** The four fields of a dotted address: the value and the digits of the
    current field, and the fields so far. *)
Fixpoint v4fields (s : string) (val : Z) (digLen : nat) (fields : list Z) : option IP :=
  match s with
  | EmptyString =>
      if decide (length fields = 3%nat ∧ digLen ≠ 0%nat) then Some (fields ++ [val]) else None
  | String c s' =>
      match digit c with
      | Some d =>
          if decide (digLen = 1%nat ∧ val = 0) then None
          else
            let val := val * 10 + d in
            if 255 <? val then None else v4fields s' val (S digLen) fields
      | None =>
          if decide (c = "."%char) then
            if decide (digLen = 0%nat ∨ length fields = 3%nat) then None
            else v4fields s' 0 0 (fields ++ [val])
          else None
      end
  end.

Definition parseIPv4 (s : string) : option IP := v4fields s 0 0 [].

(** A group of at most four hexadecimal digits and what follows it. *)
Fixpoint hexgroup (s : string) (acc : Z) (off : nat) : option (Z * nat * string) :=
  match s with
  | EmptyString => Some (acc, off, s)
  | String c s' =>
      match hexdigit c with
      | None => Some (acc, off, s)
      | Some d => if (3 <? Z.of_nat off) then None else hexgroup s' (acc * 16 + d) (S off)
      end
  end.

(** The loop of [parseIPv6]: the bytes so far, the position of the ellipsis and
    the rest of the string. [fuel] bounds the groups: there are at most eight. *)
Fixpoint v6groups (fuel : nat) (s : string) (ip : IP) (ellipsis : option nat)
    : option (IP * option nat * string) :=
  match fuel with
  | O => Some (ip, ellipsis, s)
  | S fuel =>
      match hexgroup s 0 0 with
      | None | Some (_, O, _) => None
      | Some (acc, _, rest) =>
          match rest with
          | String "." _ =>
              if decide (ellipsis = None ∧ length ip ≠ 12%nat) then None
              else if decide (12 < length ip)%nat then None
              else match v4fields s 0 0 [] with
                   | Some f => Some (ip ++ f, ellipsis, EmptyString)
                   | None => None
                   end
          | EmptyString => Some (ip ++ [acc / 256; acc mod 256], ellipsis, EmptyString)
          | String ":" (String c s'' as s') =>
              let ip := ip ++ [acc / 256; acc mod 256] in
              if decide (c = ":"%char) then
                match ellipsis with
                | Some _ => None
                | None =>
                    match s'' with
                    | EmptyString => Some (ip, Some (length ip), EmptyString)
                    | _ => v6groups fuel s'' ip (Some (length ip))
                    end
                end
              else v6groups fuel s' ip ellipsis
          | _ => None
          end
      end
  end.

Definition v6finish (r : option (IP * option nat * string)) : option IP :=
  match r with
  | Some (ip, ellipsis, EmptyString) =>
      if decide (length ip < 16)%nat then
        match ellipsis with
        | None => None
        | Some e => Some (take e ip ++ replicate (16 - length ip) 0 ++ drop e ip)
        end
      else match ellipsis with Some _ => None | None => Some ip end
  | _ => None
  end.

Definition parseIPv6 (s : string) : option IP :=
  match s with
  | String ":" (String ":" s') =>
      match s' with
      | EmptyString => Some (replicate 16 0)
      | _ => v6finish (v6groups 8 s' [] (Some 0%nat))
      end
  | _ => v6finish (v6groups 8 s [] None)
  end.

(** Addresses of [netip]: 4 or 16 bytes. Zones are refused by both callers. *)
Fixpoint addr_kind (s : string) : option bool :=
  match s with
  | EmptyString => None
  | String c s' =>
      if decide (c = "."%char) then Some true
      else if decide (c = ":"%char) then Some false
      else if decide (c = "%"%char) then None
      else addr_kind s'
  end.

Definition ParseAddr (s : string) : option IP :=
  match addr_kind s with
  | Some true => parseIPv4 s
  | Some false => if str_mem "%" s then None else parseIPv6 s
  | None => None
  end.

Definition ParseIP (s : string) : option IP := ParseAddr s ≫= To16.

Record IPNet := mkIPNet { net_IP : IP; net_Mask : list Z }.

(** [CIDRMask(n, bits)], byte by byte. *)
Definition CIDRMask (n : Z) (bytes : nat) : list Z :=
  (λ i, let k := Z.min 8 (Z.max 0 (n - 8 * Z.of_nat i)) in 256 - 2 ^ (8 - k)) <$> seq 0 bytes.

(** [dtoi]: a decimal number below 0xFFFFFF, to the end of the string. *)
Fixpoint dtoi (s : string) (n : Z) (some : bool) : option Z :=
  match s with
  | EmptyString => if some then Some n else None
  | String c s' =>
      match digit c with
      | Some d => let n := n * 10 + d in if 16777215 <=? n then None else dtoi s' n true
      | None => None
      end
  end.

Definition IP_Mask (ip : IP) (mask : list Z) : IP :=
  let mask :=
    if decide (length mask = 16%nat ∧ length ip = 4%nat ∧ take 12 mask = replicate 12 255)
    then drop 12 mask else mask in
  let ip :=
    if decide (length mask = 4%nat ∧ length ip = 16%nat ∧ take 12 ip = v4prefix)
    then drop 12 ip else ip in
  if decide (length ip = length mask) then zip_with Z.land ip mask else [].

Definition ParseCIDR (s : string) : option (IP * IPNet) :=
  match str_cut "/" s with
  | None => None
  | Some (addr, mask) =>
      match ParseAddr addr, dtoi mask 0 false with
      | Some a, Some n =>
          if 8 * Z.of_nat (length a) <? n then None
          else
            match To16 a with
            | Some a16 =>
                let m := CIDRMask n (length a) in
                Some (a16, mkIPNet (IP_Mask a16 m) m)
            | None => None
            end
      | _, _ => None
      end
  end.

Definition networkNumberAndMask (n : IPNet) : option (IP * list Z) :=
  match (match To4 (net_IP n) with
         | Some ip => Some ip
         | None => if decide (length (net_IP n) = 16%nat) then Some (net_IP n) else None
         end) with
  | None => None
  | Some ip =>
      if decide (length (net_Mask n) = 4%nat) then
        if decide (length ip = 4%nat) then Some (ip, net_Mask n) else None
      else if decide (length (net_Mask n) = 16%nat) then
        Some (ip, if decide (length ip = 4%nat) then drop 12 (net_Mask n) else net_Mask n)
      else None
  end.

Definition Contains (n : IPNet) (ip : IP) : bool :=
  match networkNumberAndMask n with
  | None => bool_decide (ip = [])
  | Some (nn, m) =>
      let ip := default ip (To4 ip) in
      if decide (length ip = length nn) then
        bool_decide (zip_with Z.land nn m = zip_with Z.land ip m)
      else false
  end.

(** ** Printing *)

Definition digit_char (d : Z) : ascii :=
  ascii_of_N (Z.to_N (if d <? 10 then d + 48 else d + 87)).

(** The digits of a number below [base ^ fuel], without leading zeros. *)
Fixpoint digits (base : Z) (fuel : nat) (n : Z) (acc : string) : string :=
  match fuel with
  | O => acc
  | S fuel =>
      let acc := String (digit_char (n mod base)) acc in
      if n <? base then acc else digits base fuel (n / base) acc
  end.

Definition itoa (n : Z) : string := digits 10 3 n "".

(** [%d] of an int. *)
Definition Itoa (n : Z) : string :=
  if n <? 0 then "-" +:+ digits 10 20 (- n) "" else digits 10 20 n "".

Definition IPv4_String (ip : IP) : string := str_concat "." (itoa <$> ip).

Fixpoint words (ip : IP) : list Z :=
  match ip with
  | a :: b :: ip => (a * 256 + b) :: words ip
  | _ => []
  end.

(** The zero run starting at each group; the first longest of length 2 or more
    is elided. *)
Fixpoint zero_run (ws : list Z) : nat :=
  match ws with
  | 0 :: ws => S (zero_run ws)
  | _ => O
  end.

Fixpoint longest_run (ws : list Z) (i : nat) (best : nat * nat) : nat * nat :=
  match ws with
  | [] => best
  | _ :: ws' =>
      let l := zero_run ws in
      longest_run ws' (S i)
        (if decide (2 <= l ∧ best.2 < l)%nat then (i, l) else best)
  end.

Definition IPv6_String (ip : IP) : string :=
  let ws := words ip in
  let '(start, len) := longest_run ws 0 (0%nat, 0%nat) in
  let group w := digits 16 4 w "" in
  if decide (len = 0%nat) then str_concat ":" (group <$> ws)
  else
    str_concat ":" (group <$> take start ws) +:+ "::" +:+
    str_concat ":" (group <$> drop (start + len) ws).

Definition hex2 (b : Z) : string :=
  String (digit_char (b / 16)) (String (digit_char (b mod 16)) "").

Definition IP_String (ip : IP) : string :=
  match ip with
  | [] => "<nil>"
  | _ =>
      match To4 ip with
      | Some p4 => IPv4_String p4
      | None =>
          if decide (length ip = 16%nat) then IPv6_String ip
          else "?" +:+ str_concat "" (hex2 <$> ip)
      end
  end.

(** ** Addresses as numbers *)

(** [big.Int.SetBytes], and the [n] low bytes of a number, most significant
    first. *)
Definition SetBytes (b : list Z) : Z := fold_left (λ a x, a * 256 + x) b 0.

Fixpoint be_bytes (n : nat) (x : Z) : list Z :=
  match n with
  | O => []
  | S n => be_bytes n (x / 256) ++ [x mod 256]
  end.

Definition is_byte (x : Z) : Prop := 0 <= x < 256.

Lemma be_bytes_length n x : length (be_bytes n x) = n.
Proof. revert x; induction n as [|n IH]; intros x; simpl; [done|]. rewrite length_app, IH. simpl. lia. Qed.

Lemma be_bytes_byte n x : Forall is_byte (be_bytes n x).
Proof.
  revert x; induction n as [|n IH]; intros x; simpl; [constructor|].
  apply Forall_app. split; [apply IH|]. repeat constructor; apply Z.mod_pos_bound; lia.
Qed.

Lemma SetBytes_snoc l x : SetBytes (l ++ [x]) = SetBytes l * 256 + x.
Proof. unfold SetBytes. by rewrite fold_left_app. Qed.

Lemma SetBytes_be_bytes n x : 0 <= x < 256 ^ Z.of_nat n → SetBytes (be_bytes n x) = x.
Proof.
  revert x; induction n as [|n IH]; intros x Hx.
  { simpl in Hx. unfold SetBytes. simpl. lia. }
  rewrite Nat2Z.inj_succ, Z.pow_succ_r in Hx by lia.
  cbn [be_bytes]. rewrite SetBytes_snoc, IH; [|split; [apply Z.div_pos|apply Z.div_lt_upper_bound]; lia].
  pose proof (Z.div_mod x 256). lia.
Qed.

Lemma SetBytes_bound l : Forall is_byte l → 0 <= SetBytes l < 256 ^ Z.of_nat (length l).
Proof.
  induction l as [|x l IH] using rev_ind; [done|]. intros [Hl Hx]%Forall_app.
  apply Forall_inv in Hx. unfold is_byte in Hx. specialize (IH Hl).
  rewrite SetBytes_snoc, length_app, Nat.add_1_r, Nat2Z.inj_succ, Z.pow_succ_r by lia. lia.
Qed.

Lemma SetBytes_cons x l : SetBytes (x :: l) = x * 256 ^ Z.of_nat (length l) + SetBytes l.
Proof.
  induction l as [|y l IH] using rev_ind; [unfold SetBytes; simpl; lia|].
  rewrite app_comm_cons, !SetBytes_snoc, IH, length_app, Nat.add_1_r, Nat2Z.inj_succ,
    Z.pow_succ_r by lia. lia.
Qed.

(** ** IPv4 networks *)

Lemma elem_of_range z n : 0 <= z < Z.of_nat n → z ∈ Z.of_nat <$> seq 0 n.
Proof.
  intros Hz. apply list_elem_of_fmap. exists (Z.to_nat z).
  rewrite Z2Nat.id by lia. split; [done|]. apply elem_of_seq. lia.
Qed.

(** Masking a byte keeps its high bits. *)
Lemma land_high x j :
  is_byte x → 0 <= j <= 8 → Z.land x (256 - 2 ^ j) = x / 2 ^ j * 2 ^ j.
Proof.
  intros Hx Hj. unfold is_byte in Hx.
  assert (forallb (λ j, forallb (λ x, Z.land x (256 - 2 ^ j) =? x / 2 ^ j * 2 ^ j)
    (Z.of_nat <$> seq 0 256)) (Z.of_nat <$> seq 0 9) = true) as H by (vm_compute; reflexivity).
  rewrite forallb_elem in H. specialize (H j (elem_of_range j 9 ltac:(lia))).
  rewrite forallb_elem in H. apply Z.eqb_eq, (H x), (elem_of_range x 256). lia.
Qed.

Lemma lor_low x j :
  is_byte x → 0 <= j <= 8 → Z.lor x (2 ^ j - 1) = x / 2 ^ j * 2 ^ j + 2 ^ j - 1.
Proof.
  intros Hx Hj. unfold is_byte in Hx.
  assert (forallb (λ j, forallb (λ x, Z.lor x (2 ^ j - 1) =? x / 2 ^ j * 2 ^ j + 2 ^ j - 1)
    (Z.of_nat <$> seq 0 256)) (Z.of_nat <$> seq 0 9) = true) as H by (vm_compute; reflexivity).
  rewrite forallb_elem in H. specialize (H j (elem_of_range j 9 ltac:(lia))).
  rewrite forallb_elem in H. apply Z.eqb_eq, (H x), (elem_of_range x 256). lia.
Qed.

(** A number of four bytes. *)
Lemma v4_bytes v :
  0 <= v < 2 ^ 32 →
  ∃ a b c d, is_byte a ∧ is_byte b ∧ is_byte c ∧ is_byte d ∧
    v = ((a * 256 + b) * 256 + c) * 256 + d ∧ be_bytes 4 v = [a; b; c; d].
Proof.
  intros Hv. eexists _, _, _, _. unfold is_byte.
  split_and!; [..|reflexivity]; try (apply Z.mod_pos_bound; lia);
    Z.to_euclidean_division_equations; lia.
Qed.

Lemma v4_bytes_of a b c d :
  is_byte a → is_byte b → is_byte c → is_byte d →
  be_bytes 4 (((a * 256 + b) * 256 + c) * 256 + d) = [a; b; c; d].
Proof.
  unfold is_byte. intros. cbn [be_bytes app].
  rewrite !(Z.div_add_l _ 256), !(Z.add_comm (_ * 256)), !Z_mod_plus_full by lia.
  repeat f_equal; Z.to_euclidean_division_equations; lia.
Qed.

(** Evaluate the powers of two of the goal. *)
Ltac eval_pow :=
  repeat match goal with
  | |- context [2 ^ ?e] => let v := eval vm_compute in (2 ^ e) in change (2 ^ e) with v
  end.

(** How many low bits of byte [i] are host bits under a prefix length. *)
Definition low_bits (n : Z) (i : Z) : Z := 8 - Z.min 8 (Z.max 0 (n - 8 * i)).

Lemma low_bits_range n i : 0 <= low_bits n i <= 8.
Proof. unfold low_bits. lia. Qed.

Lemma CIDRMask_4 n :
  CIDRMask n 4 = (λ i, 256 - 2 ^ low_bits n i) <$> [0; 1; 2; 3].
Proof. reflexivity. Qed.

Lemma high_part x j : is_byte x → 0 <= j <= 8 →
  is_byte (x / 2 ^ j * 2 ^ j) ∧ is_byte (x / 2 ^ j * 2 ^ j + 2 ^ j - 1).
Proof.
  intros Hx Hj. unfold is_byte in *.
  assert (j ∈ Z.of_nat <$> seq 0 9) as Hin by (apply elem_of_range; lia).
  repeat (apply elem_of_cons in Hin as [->|Hin];
    [eval_pow; Z.to_euclidean_division_equations; lia|]).
  by apply elem_of_nil in Hin.
Qed.

Lemma prefix_parts n a b c d :
  0 <= n <= 32 → is_byte a → is_byte b → is_byte c → is_byte d →
  let hi x i := x / 2 ^ low_bits n i * 2 ^ low_bits n i in
  ((hi a 0 * 256 + hi b 1) * 256 + hi c 2) * 256 + hi d 3 =
  (((a * 256 + b) * 256 + c) * 256 + d) / 2 ^ (32 - n) * 2 ^ (32 - n).
Proof.
  intros Hn Ha Hb Hc Hd hi. unfold hi, is_byte in *.
  assert (n ∈ Z.of_nat <$> seq 0 33) as Hin by (apply elem_of_range; lia).
  repeat (apply elem_of_cons in Hin as [->|Hin];
    [clear hi; eval_pow; Z.to_euclidean_division_equations; lia|]).
  by apply elem_of_nil in Hin.
Qed.

(** The four bytes of a network address under the mask of a prefix length. *)
Lemma mask_v4 n v :
  0 <= n <= 32 → 0 <= v < 2 ^ 32 →
  zip_with Z.land (be_bytes 4 v) (CIDRMask n 4)
  = be_bytes 4 (v / 2 ^ (32 - n) * 2 ^ (32 - n)).
Proof.
  intros Hn Hv. destruct (v4_bytes v Hv) as (a&b&c&d&Ha&Hb&Hc&Hd&E&->).
  rewrite CIDRMask_4. cbn [fmap list_fmap zip_with].
  rewrite !land_high by (done || apply low_bits_range).
  rewrite <-v4_bytes_of by (apply high_part; [done|apply low_bits_range]).
  f_equal. subst v. by apply prefix_parts.
Qed.

Lemma broadcast_v4 n v :
  0 <= n <= 32 → 0 <= v < 2 ^ 32 →
  zip_with (λ a m, Z.lor a (255 - m)) (be_bytes 4 v) (CIDRMask n 4)
  = be_bytes 4 (v / 2 ^ (32 - n) * 2 ^ (32 - n) + 2 ^ (32 - n) - 1).
Proof.
  intros Hn Hv. destruct (v4_bytes v Hv) as (a&b&c&d&Ha&Hb&Hc&Hd&E&->).
  rewrite CIDRMask_4. cbn [fmap list_fmap zip_with].
  assert (∀ j, 255 - (256 - 2 ^ j) = 2 ^ j - 1) as Hj by (intros; lia). rewrite !Hj.
  rewrite !lor_low by (done || apply low_bits_range).
  rewrite <-v4_bytes_of by (apply high_part; [done|apply low_bits_range]).
  f_equal. subst v. rewrite <-(prefix_parts n a b c d) by done.
  enough (((2 ^ low_bits n 0 * 256 + 2 ^ low_bits n 1) * 256 + 2 ^ low_bits n 2) * 256
    + 2 ^ low_bits n 3 = 2 ^ (32 - n) + 256 * 65793) by lia.
  assert (n ∈ Z.of_nat <$> seq 0 33) as Hin by (apply elem_of_range; lia).
  repeat (apply elem_of_cons in Hin as [->|Hin]; [reflexivity|]).
  by apply elem_of_nil in Hin.
Qed.

(** A network given by its first address and its prefix length, and an IPv4
    address in its 16-byte form. *)
Definition v4net (base n : Z) : IPNet := mkIPNet (be_bytes 4 base) (CIDRMask n 4).
Definition v4base : Z := 65535 * 2 ^ 32.

Lemma be_bytes_low n x k : be_bytes n (x + k * 256 ^ Z.of_nat n) = be_bytes n x.
Proof.
  revert x; induction n as [|n IH]; intros x; [done|]. cbn [be_bytes].
  rewrite Nat2Z.inj_succ, Z.pow_succ_r, (Z.mul_comm 256), Z.mul_assoc by lia.
  by rewrite Z.div_add, Z_mod_plus_full, IH by lia.
Qed.

Lemma v4_form v : 0 <= v < 2 ^ 32 → be_bytes 16 (v4base + v) = v4prefix ++ be_bytes 4 v.
Proof.
  intros Hv.
  assert (be_bytes 16 (v4base + v) = be_bytes 12 ((v4base + v) / 2 ^ 32)
    ++ be_bytes 4 (v4base + v)) as ->.
  { cbn [be_bytes]. rewrite !Zdiv_Zdiv by lia. by rewrite <-!app_assoc. }
  replace ((v4base + v) / 2 ^ 32) with 65535
    by (unfold v4base; Z.to_euclidean_division_equations; lia).
  apply (f_equal2 app); [reflexivity|].
  rewrite Z.add_comm. apply (be_bytes_low 4 v 65535).
Qed.

Lemma To4_v4 v : 0 <= v < 2 ^ 32 → To4 (be_bytes 16 (v4base + v)) = Some (be_bytes 4 v).
Proof.
  intros Hv. rewrite v4_form by done. unfold To4. rewrite length_app, be_bytes_length.
  rewrite decide_False by done. by rewrite decide_True.
Qed.

Lemma To4_4 v : To4 (be_bytes 4 v) = Some (be_bytes 4 v).
Proof. unfold To4. by rewrite decide_True. Qed.

Lemma be_bytes_inj n x y :
  0 <= x < 256 ^ Z.of_nat n → 0 <= y < 256 ^ Z.of_nat n → be_bytes n x = be_bytes n y → x = y.
Proof.
  intros Hx Hy E. rewrite <-(SetBytes_be_bytes n x), <-(SetBytes_be_bytes n y) by done.
  by rewrite E.
Qed.

(** An IPv4 address is in a network exactly if it has the network's prefix. *)
Lemma Contains_v4 base n v :
  0 <= n <= 32 → 0 <= base < 2 ^ 32 → 0 <= v < 2 ^ 32 →
  Contains (v4net base n) (be_bytes 16 (v4base + v))
  = bool_decide (base / 2 ^ (32 - n) = v / 2 ^ (32 - n)).
Proof.
  intros Hn Hb Hv. unfold Contains, networkNumberAndMask, v4net. cbn [net_IP net_Mask].
  rewrite To4_4. rewrite decide_True by done. rewrite decide_True by done.
  rewrite To4_v4 by done. cbn [default from_option id].
  rewrite !be_bytes_length, decide_True, !mask_v4 by done.
  assert (0 < 2 ^ (32 - n)) as Hp by (apply Z.pow_pos_nonneg; lia).
  assert (∀ w, 0 <= w < 2 ^ 32 → 0 <= w / 2 ^ (32 - n) * 2 ^ (32 - n) < 2 ^ 32) as Hr.
  { intros w Hw. pose proof (Z.mul_div_le w (2 ^ (32 - n)) Hp).
    split; [apply Z.mul_nonneg_nonneg; [apply Z.div_pos|]|]; lia. }
  apply bool_decide_ext. split; [|by intros ->].
  intros E%be_bytes_inj; [|by apply Hr..]. apply Z.mul_cancel_r in E; [done|lia].
Qed.

Lemma div_same base n v :
  0 <= n <= 32 → base mod 2 ^ (32 - n) = 0 →
  base / 2 ^ (32 - n) = v / 2 ^ (32 - n) ↔ base <= v < base + 2 ^ (32 - n).
Proof.
  intros Hn Hb. assert (0 < 2 ^ (32 - n)) as Hp by (apply Z.pow_pos_nonneg; lia).
  generalize dependent (2 ^ (32 - n)). intros m Hb Hm.
  pose proof (Z.div_mod base m). pose proof (Z.div_mod v m).
  pose proof (Z.mod_pos_bound v m). split; [intros E; rewrite E in *; lia|].
  intros Hr. nia.
Qed.

#[global] Arguments be_bytes : simpl never.

(** ** Printing is injective *)

Lemma itoa_byte x : is_byte x → dtoi (itoa x) 0 false = Some x ∧ str_mem "." (itoa x) = false.
Proof.
  unfold is_byte. intros Hx.
  assert (forallb (λ x, bool_decide (dtoi (itoa x) 0 false = Some x)
    && negb (str_mem "." (itoa x))) (Z.of_nat <$> seq 0 256) = true) as H
    by (vm_compute; reflexivity).
  rewrite forallb_elem in H. specialize (H x (elem_of_range x 256 Hx)). by zbool.
Qed.

Lemma dotted_inj x y s t :
  is_byte x → is_byte y → itoa x +:+ String "." s = itoa y +:+ String "." t → x = y ∧ s = t.
Proof.
  intros [Hx Mx]%itoa_byte [Hy My]%itoa_byte E. apply (f_equal (str_cut ".")) in E.
  rewrite !str_cut_app in E by done. injection E as Ei ->. rewrite Ei, Hy in Hx. naive_solver.
Qed.

Lemma IPv4_String_inj a b :
  length a = 4%nat → length b = 4%nat → Forall is_byte a → Forall is_byte b →
  IPv4_String a = IPv4_String b → a = b.
Proof.
  intros La Lb Fa Fb.
  destruct a as [|a0 [|a1 [|a2 [|a3 [|]]]]]; try discriminate La.
  destruct b as [|b0 [|b1 [|b2 [|b3 [|]]]]]; try discriminate Lb.
  rewrite !list.Forall_cons in Fa, Fb. destruct Fa as (A0&A1&A2&A3&_), Fb as (B0&B1&B2&B3&_).
  unfold IPv4_String. cbn [fmap list_fmap str_concat]. intros E.
  apply dotted_inj in E as [-> E]; [|done..]. apply dotted_inj in E as [-> E]; [|done..].
  apply dotted_inj in E as [-> E]; [|done..].
  destruct (itoa_byte a3 A3) as [Ha _], (itoa_byte b3 B3) as [Hb _].
  rewrite E, Hb in Ha. naive_solver.
Qed.

Lemma IP_String_v4_inj v w :
  0 <= v < 2 ^ 32 → 0 <= w < 2 ^ 32 →
  IP_String (be_bytes 16 (v4base + v)) = IP_String (be_bytes 16 (v4base + w)) → v = w.
Proof.
  intros Hv Hw. unfold IP_String. rewrite !To4_v4 by done.
  assert (∀ x, be_bytes 16 x ≠ []) as Hne
    by (intros x E; by apply (f_equal length) in E; rewrite be_bytes_length in E).
  destruct (be_bytes 16 (v4base + v)) eqn:E1; [by destruct (Hne (v4base + v))|].
  destruct (be_bytes 16 (v4base + w)) eqn:E2; [by destruct (Hne (v4base + w))|].
  intros E%IPv4_String_inj; try (apply be_bytes_length || apply be_bytes_byte).
  by apply be_bytes_inj in E.
Qed.

#[global] Arguments IP_String : simpl never.
