(* ===== verification/Http.v ===== *)
(** * Requests and responses

    What the handlers share: numbers in text (strconv), the JSON values of
    response bodies, and the results of handlers and of database calls. *)
From Stdlib Require SpecFloat.
From Stdlib Require Import Ascii.
From S2P Require Import Prelude GoStrings NetIP.

(** ** Numbers in text *)

(** The decimal number that a text without sign spells. *)
Fixpoint decimal (s : string) (n : Z) : option Z :=
  match s with
  | EmptyString => Some n
  | String c s => d ← digit c; decimal s (10 * n + d)%Z
  end.

(** [strconv.ParseInt(s, 10, 64)]. *)
Definition ParseInt (s : string) : option Z :=
  let unsigned s := match s with EmptyString => None | _ => decimal s 0 end in
  let n :=
    match s with
    | String c rest =>
        if decide (c = "-"%char) then Z.opp <$> unsigned rest
        else if decide (c = "+"%char) then unsigned rest
        else unsigned s
    | EmptyString => None
    end in
  n ≫= λ n, if ((- 2 ^ 63 <=? n) && (n <? 2 ^ 63))%Z then Some n else None.

(** [strconv.Atoi], an int having 64 bits. *)
Definition Atoi (s : string) : option Z := ParseInt s.

(** [strconv.ParseUint(s, 10, 32)]. *)
Definition ParseUint32 (s : string) : option Z :=
  match s with
  | EmptyString => None
  | _ => n ← decimal s 0; if (n <? 2 ^ 32)%Z then Some n else None
  end.

(** [strconv.ParseUint(s, 10, 64)]. *)
Definition ParseUint64 (s : string) : option Z :=
  match s with
  | EmptyString => None
  | _ => n ← decimal s 0; if (n <? 2 ^ 64)%Z then Some n else None
  end.

(** The number that [strconv.ParseUint(s, 10, 32)] returns also when it returns an error. *)
Fixpoint uint_value (s : string) (n : Z) : Z :=
  match s with
  | EmptyString => n
  | String c s =>
      match digit c with
      | None => 0%Z
      | Some d => let n := (10 * n + d)%Z in if (n <? 2 ^ 32)%Z then uint_value s n else (2 ^ 32 - 1)%Z
      end
  end.

Definition uint_param (s : string) : Z := uint_value s 0.

(** The number that [strconv.Atoi] returns also when it returns an error: 0 for a
    text that is no number, the nearest bound for one that is too large. *)
Fixpoint uint64_value (s : string) (n : Z) : option Z :=
  match s with
  | EmptyString => Some n
  | String c s =>
      d ← digit c; let n := (10 * n + d)%Z in if (n <? 2 ^ 64)%Z then uint64_value s n else Some (2 ^ 64 - 1)%Z
  end.

Definition int_param (s : string) : Z :=
  let '(neg, s) :=
    match s with
    | String c rest =>
        if decide (c = "-"%char) then (true, rest) else if decide (c = "+"%char) then (false, rest) else (false, s)
    | EmptyString => (false, s)
    end in
  match s with
  | EmptyString => 0%Z
  | _ =>
      match uint64_value s 0 with
      | None => 0%Z
      | Some n => if neg : bool then (- Z.min n (2 ^ 63))%Z else Z.min n (2 ^ 63 - 1)
      end
  end.

(** Printed numbers are read back. *)
Lemma digit_digit_char d : (0 <= d < 10)%Z → digit (digit_char d) = Some d.
Proof.
  intros Hd. assert (d ∈ [0;1;2;3;4;5;6;7;8;9]%Z) as Hin by (rewrite !elem_of_cons; lia).
  repeat (apply elem_of_cons in Hin as [->|Hin]; [done|]). by apply not_elem_of_nil in Hin.
Qed.

Lemma decimal_digits fuel n acc :
  (0 <= n < 10 ^ Z.of_nat fuel)%Z → (0 < fuel)%nat → decimal (digits 10 fuel n acc) 0 = decimal acc n.
Proof.
  revert n acc. induction fuel as [|fuel IH]; intros n acc Hn Hf; [lia|]. cbn [digits].
  assert (∀ m, decimal (String (digit_char (n mod 10)) acc) m = decimal acc (10 * m + n mod 10)%Z) as Hd.
  { intros m. cbn [decimal]. by rewrite digit_digit_char by (apply Z.mod_pos_bound; lia). }
  destruct (n <? 10)%Z eqn:E; zbool; [by rewrite Hd, Z.mod_small by lia|].
  rewrite Nat2Z.inj_succ, Z.pow_succ_r in Hn by lia.
  rewrite IH; [|split; [apply Z.div_pos; lia|apply Z.div_lt_upper_bound; lia]|].
  - rewrite Hd. f_equal. symmetry. apply Z.div_mod. lia.
  - destruct fuel; [simpl in Hn; lia|lia].
Qed.

Lemma digits_nonempty fuel n acc : (0 < fuel)%nat → ∃ c t, digits 10 fuel n acc = String c t.
Proof.
  revert n acc. induction fuel as [|fuel IH]; intros n acc Hf; [lia|]. cbn [digits].
  destruct (n <? 10)%Z; [eauto|]. destruct fuel; [eauto|]. apply IH. lia.
Qed.

Lemma ParseUint64_Itoa n : (0 <= n < 2 ^ 64)%Z → ParseUint64 (Itoa n) = Some n.
Proof.
  intros Hn. unfold ParseUint64, Itoa. zdecide. pose proof (decimal_digits 20 n "" ltac:(lia) ltac:(lia)) as Hd.
  destruct (digits_nonempty 20 n "" ltac:(lia)) as (c & t & E). rewrite E in *. rewrite Hd. simpl mbind. by zdecide.
Qed.

Lemma digits_head fuel n acc :
  (0 <= n < 10 ^ Z.of_nat fuel)%Z → (0 < fuel)%nat →
  ∃ d t, digits 10 fuel n acc = String (digit_char d) t ∧ (0 <= d < 10)%Z ∧ (d = 0%Z → n = 0%Z ∧ t = acc).
Proof.
  revert n acc. induction fuel as [|fuel IH]; intros n acc Hn Hf; [lia|]. cbn [digits].
  destruct (n <? 10)%Z eqn:E; zbool.
  - exists n, acc. rewrite Z.mod_small by lia. split_and!; [done|lia|lia|done].
  - rewrite Nat2Z.inj_succ, Z.pow_succ_r in Hn by lia.
    destruct (IH (n / 10)%Z (String (digit_char (n mod 10)) acc)) as (d & t & Hd & Hr & Hz).
    + split; [apply Z.div_pos; lia|apply Z.div_lt_upper_bound; lia].
    + destruct fuel; [simpl in Hn; lia|lia].
    + exists d, t. split_and!; [done|lia|lia|]. intros H0. destruct (Hz H0) as [Hn0 _].
      Z.div_mod_to_equations; lia.
Qed.

Lemma ParseInt_Itoa n : (- 2 ^ 63 <= n < 2 ^ 63)%Z → ParseInt (Itoa n) = Some n.
Proof.
  intros Hn. unfold Itoa. destruct (n <? 0)%Z eqn:E; zbool.
  - rewrite str_app_cons, str_app_nil_l. unfold ParseInt. simpl decide.
    pose proof (decimal_digits 20 (- n) "" ltac:(lia) ltac:(lia)) as Hd.
    destruct (digits_nonempty 20 (- n) "" ltac:(lia)) as (c & t & Es). rewrite Es in *. rewrite Hd.
    simpl. rewrite Z.opp_involutive. by zdecide.
  - pose proof (decimal_digits 20 n "" ltac:(lia) ltac:(lia)) as Hd.
    destruct (digits_head 20 n "" ltac:(lia) ltac:(lia)) as (d & t & Es & Hr & _). rewrite Es in *.
    unfold ParseInt. rewrite Hd.
    assert (∀ c, digit c = None → digit_char d ≠ c) as Hc.
    { intros c Hc <-. by rewrite digit_digit_char in Hc. }
    rewrite decide_False by by apply Hc. rewrite decide_False by by apply Hc. simpl. by zdecide.
Qed.

(** ** Bodies *)

(** The values that handlers put in a response; a time is in nanoseconds, and a
    number that was read from text keeps its literal, a float64 its value. *)
Inductive json :=
| JNull
| JBool (b : bool)
| JNum (n : Z)
| JLit (literal : string)
| JStr (s : string)
| JFloat (x : SpecFloat.spec_float)
| JTime (t : Z)
| JList (l : list json)
| JObj (l : list (string * json)).

(** [c.JSON]: the status and the body. *)
Definition response : Type := Z * json.

(** [gin.H{k: v}]. *)
Definition said (status : Z) (k v : string) : response := (status, JObj [(k, JStr v)]).

Definition error (status : Z) (e : string) : response := said status "error" e.
Definition message (status : Z) (m : string) : response := said status "message" m.

Definition JOpt {A} (f : A → json) (x : option A) : json :=
  match x with Some x => f x | None => JNull end.

(** A call that returns, or panics and is answered by the recovery of the
    server. *)
Inductive outcome (A : Type) := Returns (a : A) | Panics.
Arguments Returns {A} a.
Arguments Panics {A}.

(** ** Patterns of SQL *)

(** [LIKE]: a percent sign stands for any text, an underscore for any byte, and a
    backslash escapes the next byte. *)
Fixpoint like_rest (m : string → bool) (s : string) : bool :=
  m s || match s with EmptyString => false | String _ s => like_rest m s end.

Fixpoint Like (p s : string) {struct p} : bool :=
  match p with
  | EmptyString => bool_decide (s = "")
  | String "%" p => like_rest (Like p) s
  | String "\" (String c p) =>
      match s with String d s => bool_decide (c = d) && Like p s | EmptyString => false end
  | String "_" p => match s with String _ s => Like p s | EmptyString => false end
  | String c p =>
      match s with String d s => bool_decide (c = d) && Like p s | EmptyString => false end
  end.

(** ** Defaults of the ORM *)

(** What [Create] stores in a column whose tag has a default: a zero value is
    taken for a missing one. *)
Class Defaults := {
  stored_bool : bool → bool → bool;
  stored_int : Z → Z → Z;
  stored_string : string → string → string;
  stored_bool_spec d v : stored_bool d v = if v then v else d;
  stored_int_spec d v : stored_int d v = if (v =? 0)%Z then d else v;
  stored_string_spec d v : stored_string d v = if decide (v = "") then d else v
}.

Definition gorm_defaults : Defaults.
Proof.
  refine {|
    stored_bool d v := if v then v else d;
    stored_int d v := if (v =? 0)%Z then d else v;
    stored_string d v := if decide (v = "") then d else v
  |}; done.
Defined.
