(* ===== verification/Json.v ===== *)
(** * JSON

    The texts of Go's encoding/json: [marshal] prints a value as [json.Marshal]
    does, and [unmarshal] reads a text as [json.Unmarshal] does before it looks at
    the type of the destination. The theorem says that a printed value is read
    back. *)
From Stdlib Require Import Ascii.
From S2P Require Import Prelude GoStrings Utf8 NetIP Http.
Local Open Scope Z_scope.

(** JSON values; a number is its literal, and an object the list of its members
    in the order of the text. *)
#[warnings="-register-all"]
Inductive json :=
| JNull
| JBool (b : bool)
| JNum (literal : string)
| JStr (s : string)
| JArr (l : list json)
| JObj (m : list (string * json)).

(** A value in the body of a response. *)
Fixpoint in_body (j : json) : Http.json :=
  match j with
  | JNull => Http.JNull
  | JBool b => Http.JBool b
  | JNum n => Http.JLit n
  | JStr s => Http.JStr s
  | JArr l => Http.JList (in_body <$> l)
  | JObj m => Http.JObj ((λ kv, (kv.1, in_body kv.2)) <$> m)
  end.

(** ** Printing *)

Module Text.

Definition dquote : ascii := chr 34.
Definition backslash : ascii := chr 92.

Definition hex4 (r : Z) : string :=
  String (digit_char (r / 4096 mod 16)) (String (digit_char (r / 256 mod 16))
    (String (digit_char (r / 16 mod 16)) (String (digit_char (r mod 16)) ""))).

Definition escaped (c : ascii) (s : string) : string := String backslash (String c s).

(** A rune of a string with its bytes; a byte that is not part of UTF-8 is
    replaced, and the characters that matter to HTML are escaped. *)
Definition escape (c : Z * string) : string :=
  let (r, bytes) := c in
  if r <? 128 then
    if (r =? 34) || (r =? 92) then String backslash bytes
    else if r =? 8 then escaped "b" "" else if r =? 12 then escaped "f" ""
    else if r =? 10 then escaped "n" "" else if r =? 13 then escaped "r" ""
    else if r =? 9 then escaped "t" ""
    else if (r <? 32) || (r =? 60) || (r =? 62) || (r =? 38) then escaped "u" (hex4 r)
    else bytes
  else if (r =? RuneError) && (str_len bytes =? 1)%nat then escaped "u" "fffd"
  else if (r =? 8232) || (r =? 8233) then escaped "u" (hex4 r)
  else bytes.

Definition escape_all (cs : list (Z * string)) (t : string) : string :=
  foldr (λ c t, escape c +:+ t) t cs.

Definition quote (s : string) : string := String dquote (escape_all (chunks s) (String dquote "")).

Fixpoint marshal (j : json) : string :=
  match j with
  | JNull => "null"
  | JBool b => if b then "true" else "false"
  | JNum literal => literal
  | JStr s => quote s
  | JArr l => "[" +:+ str_concat "," (marshal <$> l) +:+ "]"
  | JObj m => "{" +:+ str_concat "," ((λ kv, quote kv.1 +:+ ":" +:+ marshal kv.2) <$> m) +:+ "}"
  end.

(** ** Reading *)

Definition is_space (c : ascii) : bool := bool_decide (byte_of c ∈ [32; 9; 13; 10]).

Fixpoint skip_spaces (s : string) : string :=
  match s with
  | String c t => if is_space c then skip_spaces t else s
  | EmptyString => ""
  end.

Definition surrogate (r : Z) : bool := (55296 <=? r) && (r <? 57344).

(** [utf16.DecodeRune], if the two are a pair. *)
Definition pair_rune (r1 r2 : Z) : option Z :=
  if (55296 <=? r1) && (r1 <? 56320) && (56320 <=? r2) && (r2 <? 57344)
  then Some ((r1 - 55296) * 1024 + (r2 - 56320) + 65536) else None.

Definition read_hex4 (a b c d : ascii) : option Z :=
  a ← hexdigit a; b ← hexdigit b; c ← hexdigit c; d ← hexdigit d;
  Some (a * 4096 + b * 256 + c * 16 + d).

(** The character of an escape other than [\u]. *)
Definition simple_escape (c : ascii) : option Z :=
  let b := byte_of c in
  if (b =? 34) || (b =? 92) || (b =? 47) then Some b
  else if b =? 98 then Some 8 else if b =? 102 then Some 12 else if b =? 110 then Some 10
  else if b =? 114 then Some 13 else if b =? 116 then Some 9 else None.

Definition add_rune (r : Z) (x : option (string * string)) : option (string * string) :=
  '(s, t) ← x; Some (encode_rune r s, t).

(** The rest of a string literal and what follows it. *)
Fixpoint body (s : string) : option (string * string) :=
  match s with
  | EmptyString => None
  | String c s1 =>
      if byte_of c =? 34 then Some ("", s1)
      else if byte_of c <? 32 then None
      else if negb (byte_of c =? 92) then '(x, t) ← body s1; Some (String c x, t)
      else
        match s1 with
        | EmptyString => None
        | String e s2 =>
            if negb (byte_of e =? 117) then r ← simple_escape e; add_rune r (body s2)
            else
              match s2 with
              | String a (String b (String c (String d s3))) =>
                  r ← read_hex4 a b c d;
                  if negb (surrogate r) then add_rune r (body s3)
                  else
                    match s3 with
                    | String x (String y (String a (String b (String c (String d s4))))) =>
                        if (byte_of x =? 92) && (byte_of y =? 117) then
                          match read_hex4 a b c d ≫= pair_rune r with
                          | Some r => add_rune r (body s4)
                          | None => add_rune RuneError (body s3)
                          end
                        else add_rune RuneError (body s3)
                    | _ => add_rune RuneError (body s3)
                    end
              | _ => None
              end
        end
  end.

(** A string literal after its opening quote; bytes that are not part of UTF-8 are
    replaced. *)
Definition read_string (s : string) : option (string * string) :=
  '(x, t) ← body s; Some (valid x, t).

Fixpoint take_digits (s : string) : string * string :=
  match s with
  | String c t =>
      match digit c with
      | Some _ => let (ds, r) := take_digits t in (String c ds, r)
      | None => ("", s)
      end
  | EmptyString => ("", "")
  end.

(** One digit or more. *)
Definition some_digits (s : string) : option (string * string) :=
  match take_digits s with
  | (EmptyString, _) => None
  | r => Some r
  end.

Definition read_int (s : string) : option (string * string) :=
  match s with
  | String c t => if byte_of c =? 48 then Some (String c "", t) else some_digits s
  | EmptyString => None
  end.

Definition read_frac (s : string) : option (string * string) :=
  match s with
  | String c t =>
      if byte_of c =? 46 then '(ds, r) ← some_digits t; Some (String c ds, r) else Some ("", s)
  | EmptyString => Some ("", "")
  end.

Definition read_exp (s : string) : option (string * string) :=
  match s with
  | String c t =>
      if (byte_of c =? 101) || (byte_of c =? 69) then
        match t with
        | String d u =>
            if (byte_of d =? 43) || (byte_of d =? 45)
            then '(ds, r) ← some_digits u; Some (String c (String d ds), r)
            else '(ds, r) ← some_digits t; Some (String c ds, r)
        | EmptyString => None
        end
      else Some ("", s)
  | EmptyString => Some ("", "")
  end.

Definition unsigned (s : string) : option (string * string) :=
  '(i, r) ← read_int s; '(f, r) ← read_frac r; '(e, r) ← read_exp r; Some (i +:+ f +:+ e, r).

Definition number (s : string) : option (string * string) :=
  match s with
  | String c t =>
      if byte_of c =? 45 then '(n, r) ← unsigned t; Some (String c n, r) else unsigned s
  | EmptyString => None
  end.

(** The next character that is not space, and what follows it. *)
Definition token (s : string) : option (ascii * string) :=
  match skip_spaces s with String c t => Some (c, t) | EmptyString => None end.

Section lists.
(** The reader of a value. *)
Variable p : string → option (json * string).

(** The elements of an array, after its opening bracket or a comma; each takes
    at least one byte, so that the length of the text bounds their number. *)
Fixpoint elements (n : nat) (s : string) : option (list json * string) :=
  match n with
  | O => None
  | S n =>
      '(v, r) ← p s;
      '(c, r) ← token r;
      if byte_of c =? 93 then Some ([v], r)
      else if byte_of c =? 44 then '(l, r) ← elements n r; Some (v :: l, r)
      else None
  end.

Fixpoint members (n : nat) (s : string) : option (list (string * json) * string) :=
  match n with
  | O => None
  | S n =>
      '(c, r) ← token s;
      if negb (byte_of c =? 34) then None else
      '(k, r) ← read_string r;
      '(c, r) ← token r;
      if negb (byte_of c =? 58) then None else
      '(v, r) ← p r;
      '(c, r) ← token r;
      if byte_of c =? 125 then Some ([(k, v)], r)
      else if byte_of c =? 44 then '(l, r) ← members n r; Some ((k, v) :: l, r)
      else None
  end.
End lists.

(** A value in which arrays and objects are nested [d] deep at most. *)
Fixpoint value (d : nat) (s : string) {struct d} : option (json * string) :=
  '(c, r) ← token s;
  let b := byte_of c in
  if b =? 34 then '(x, r) ← read_string r; Some (JStr x, r)
  else if b =? 91 then
    match d with
    | O => None
    | S d =>
        '(c, r') ← token r;
        if byte_of c =? 93 then Some (JArr [], r')
        else '(l, r) ← elements (value d) (str_len r) r; Some (JArr l, r)
    end
  else if b =? 123 then
    match d with
    | O => None
    | S d =>
        '(c, r') ← token r;
        if byte_of c =? 125 then Some (JObj [], r')
        else '(m, r) ← members (value d) (str_len r) r; Some (JObj m, r)
    end
  else if HasPrefix (String c r) "null" then Some (JNull, str_drop 4 (String c r))
  else if HasPrefix (String c r) "true" then Some (JBool true, str_drop 4 (String c r))
  else if HasPrefix (String c r) "false" then Some (JBool false, str_drop 5 (String c r))
  else '(n, r) ← number (String c r); Some (JNum n, r).

(** The limit of encoding/json on the nesting of arrays and objects. *)
Definition maxNestingDepth : nat := Z.to_nat 10000.

Definition unmarshal (s : string) : option json :=
  '(v, r) ← value maxNestingDepth s;
  match skip_spaces r with EmptyString => Some v | _ => None end.

(** ** Reading what was printed *)

(** The values that [marshal] prints as JSON: every number is a literal of JSON,
    and arrays and objects are nested [d] deep at most. *)
Fixpoint printable (d : nat) (j : json) {struct j} : bool :=
  match j with
  | JNum n => bool_decide (number n = Some (n, ""))
  | JArr l => match d with O => false | S d => forallb (printable d) l end
  | JObj m => match d with O => false | S d => forallb (λ kv, printable d kv.2) m end
  | _ => true
  end.

(** The value with the bytes that are not part of UTF-8 replaced. *)
Fixpoint valid_utf8 (j : json) : json :=
  match j with
  | JStr s => JStr (valid s)
  | JArr l => JArr (valid_utf8 <$> l)
  | JObj m => JObj ((λ kv, (valid kv.1, valid_utf8 kv.2)) <$> m)
  | j => j
  end.

Lemma body_high b t :
  str_forall (λ c, 128 <=? byte_of c) b = true →
  body (b +:+ t) = '(x, u) ← body t; Some (b +:+ x, u).
Proof.
  induction b as [|c b IH]; intros Hb; [rewrite str_app_nil_l; by destruct (body t) as [[]|]|].
  simpl in Hb. apply andb_true_iff in Hb as [Hc Hb]. zbool. rewrite !str_app_cons. simpl. zdecide.
  rewrite IH by done. by destruct (body t) as [[]|].
Qed.

Lemma encode_rune_high r :
  128 <= r → str_forall (λ c, 128 <=? byte_of c) (encode_rune r "") = true.
Proof.
  intros Hr. unfold encode_rune. set (v := if valid_rune r then r else RuneError).
  assert (128 <= v <= 1114111) as Hv.
  { unfold v, valid_rune. destruct ((0 <=? r) && (r <=? 1114111)) eqn:E; simpl; [|unfold RuneError; lia].
    zbool. destruct (negb _); unfold RuneError; lia. }
  clearbody v. cbv zeta. zdecide. case_goal; zbool; simpl; rewrite !byte_of_chr by (Z.div_mod_to_equations; lia);
    rewrite !andb_true_iff; repeat split; apply Z.leb_le; Z.div_mod_to_equations; lia.
Qed.

Lemma hexdigit_char d : 0 <= d < 16 → hexdigit (digit_char d) = Some d.
Proof.
  intros Hd. assert (d ∈ [0;1;2;3;4;5;6;7;8;9;10;11;12;13;14;15]) as Hin by (rewrite !elem_of_cons; lia).
  repeat (apply elem_of_cons in Hin as [->|Hin]; [done|]). by apply not_elem_of_nil in Hin.
Qed.

Lemma body_hex4 r t :
  0 <= r < 65536 → surrogate r = false → body (escaped "u" (hex4 r) +:+ t) = add_rune r (body t).
Proof.
  intros Hr Hs. unfold escaped, hex4. rewrite !str_app_cons, str_app_nil_l. cbn [body].
  change (byte_of backslash) with 92. change (byte_of "u") with 117. cbn [Z.eqb Z.ltb Z.compare Pos.compare Pos.compare_cont Pos.eqb negb].
  unfold read_hex4. rewrite !hexdigit_char by (apply Z.mod_pos_bound; lia). cbn [mbind option_bind].
  replace (_ + _ + _ + _) with r by (Z.div_mod_to_equations; lia). by rewrite Hs.
Qed.

Lemma body_simple e r t :
  simple_escape e = Some r → body (escaped e "" +:+ t) = add_rune r (body t).
Proof.
  intros He. unfold escaped. rewrite !str_app_cons, str_app_nil_l. cbn [body].
  change (byte_of backslash) with 92. cbn [Z.eqb Z.ltb Z.compare Pos.compare Pos.compare_cont Pos.eqb negb].
  rewrite He. destruct (byte_of e =? 117) eqn:E; [|done]. exfalso. zbool.
  unfold simple_escape in He. rewrite E in He. done.
Qed.

Lemma body_plain r t :
  32 <= r < 128 → r ≠ 34 → r ≠ 92 → body (String (chr r) "" +:+ t) = add_rune r (body t).
Proof.
  intros Hr H1 H2. rewrite str_app_cons, str_app_nil_l. cbn [body]. rewrite byte_of_chr by lia. zdecide.
  unfold add_rune. destruct (body t) as [[x u]|]; [|done]. simpl.
  assert (valid_rune r = true) as Hv by (unfold valid_rune; by zdecide). unfold encode_rune. rewrite Hv. by zdecide.
Qed.

Lemma body_escape_ascii r t :
  0 <= r < 128 → body (escape (r, String (chr r) "") +:+ t) = add_rune r (body t).
Proof.
  intros Hr. unfold escape. zdecide.
  destruct ((r =? 34) || (r =? 92)) eqn:E.
  { apply (body_simple (chr r)). unfold simple_escape. rewrite byte_of_chr by lia. by rewrite E. }
  zbool. repeat match goal with
  | |- context [if r =? ?k then escaped _ _ else _] => destruct (r =? k) eqn:?; [zbool; subst; by apply body_simple|]
  end. zbool.
  destruct (r <? 32) eqn:?; zbool; simpl.
  { apply body_hex4; [lia|]. unfold surrogate. by zdecide. }
  destruct ((r =? 60) || (r =? 62) || (r =? 38)) eqn:E2; [|apply body_plain; lia].
  apply body_hex4; [lia|]. unfold surrogate. by zdecide.
Qed.

Lemma body_escape c t : decoded c → body (escape c +:+ t) = add_rune c.1 (body t).
Proof.
  destruct c as [r b]. intros [[Hv Hb]|(c & [= -> ->] & Hc)]; [|done]. simpl in Hv, Hb |- *. subst b.
  destruct (r <? 128) eqn:Er; zbool.
  - assert (0 <= r) by (unfold valid_rune in Hv; zbool; lia).
    assert (encode_rune r "" = String (chr r) "") as -> by (unfold encode_rune; rewrite Hv; by zdecide).
    pose proof (body_escape_ascii r t ltac:(lia)) as He. unfold escape in He. by rewrite (proj2 (Z.ltb_lt r 128)) in He.
  - pose proof (encode_rune_high r Er) as Hh.
    destruct ((r =? RuneError) && _) eqn:E1; [zbool; by subst|].
    destruct (_ || _) eqn:E2; [apply orb_true_iff in E2 as [E2|E2]; zbool; by subst|].
    rewrite body_high by done. unfold add_rune. destruct (body t) as [[x u]|]; [|done]. simpl.
    by rewrite (encode_rune_app r x).
Qed.

Lemma escape_all_app cs a t : escape_all cs a +:+ t = escape_all cs (a +:+ t).
Proof. induction cs as [|c cs IH]; [done|]. simpl. by rewrite str_app_assoc, IH. Qed.

Lemma body_escape_all cs t :
  Forall decoded cs → body (escape_all cs (String dquote t)) = Some (encode (fst <$> cs), t).
Proof.
  induction 1 as [|c cs Hc _ IH]; [done|]. simpl. by rewrite body_escape, IH.
Qed.

(** A string literal is read back, but for its invalid bytes. *)
Lemma read_quote s t : ∃ r, quote s +:+ t = String dquote r ∧ read_string r = Some (valid s, t).
Proof.
  eexists. split; [done|]. unfold read_string.
  change (String.append (escape_all (chunks s) (String dquote "")) t)
    with (escape_all (chunks s) (String dquote "") +:+ t).
  rewrite escape_all_app, str_app_cons, str_app_nil_l, body_escape_all by apply chunks_decoded. simpl.
  change (encode (fst <$> chunks s)) with (valid s). by rewrite valid_valid.
Qed.

(** What may follow a value. *)
Definition ends (t : string) : bool :=
  match t with EmptyString => true | String c _ => bool_decide (byte_of c ∈ [44; 93; 125]) end.

(** A reader takes the same from a text that goes on as [ends] says. *)
Definition stable (f : string → option (string * string)) : Prop :=
  ∀ s x r t, ends t = true → f s = Some (x, r) → f (s +:+ t) = Some (x, r +:+ t).

Lemma ends_head c t : ends (String c t) = true → byte_of c = 44 ∨ byte_of c = 93 ∨ byte_of c = 125.
Proof. unfold ends. intros H. zbool. rewrite !elem_of_cons, elem_of_nil in H. tauto. Qed.

Lemma take_digits_end t : ends t = true → take_digits t = ("", t).
Proof.
  destruct t as [|c t]; [done|]. intros H%ends_head. simpl. unfold digit, byte_in.
  by destruct H as [->|[->| ->]].
Qed.

Lemma take_digits_app s t :
  ends t = true → take_digits (s +:+ t) = ((take_digits s).1, (take_digits s).2 +:+ t).
Proof.
  intros Ht. induction s as [|c s IH]; [by apply take_digits_end|]. rewrite str_app_cons. simpl.
  destruct (digit c); [|done]. rewrite IH. by destruct (take_digits s).
Qed.

Lemma some_digits_stable : stable some_digits.
Proof.
  intros s x r t Ht. unfold some_digits. rewrite take_digits_app by done.
  destruct (take_digits s) as [[|c ds] u]; [done|]. intros [= <- <-]. done.
Qed.

Lemma read_int_stable : stable read_int.
Proof.
  intros [|c s] x r t Ht; [done|]. rewrite str_app_cons. simpl. destruct (_ =? _).
  - by intros [= <- <-].
  - rewrite <- str_app_cons. by apply some_digits_stable.
Qed.

Lemma read_frac_stable : stable read_frac.
Proof.
  intros [|c s] x r t Ht.
  - intros [= <- <-]. rewrite str_app_nil_l. destruct t as [|d t]; [done|]. apply ends_head in Ht.
    simpl. by destruct Ht as [->|[->| ->]].
  - rewrite str_app_cons. simpl. destruct (_ =? _); [|by intros [= <- <-]].
    destruct (some_digits s) as [[ds u]|] eqn:E; [|done]. simpl. intros [= <- <-].
    by rewrite (some_digits_stable _ _ _ _ Ht E).
Qed.

Lemma read_exp_stable : stable read_exp.
Proof.
  intros [|c s] x r t Ht.
  - intros [= <- <-]. rewrite str_app_nil_l. destruct t as [|d t]; [done|]. apply ends_head in Ht.
    simpl. by destruct Ht as [->|[->| ->]].
  - rewrite str_app_cons. simpl. destruct (_ || _); [|by intros [= <- <-]].
    destruct s as [|d s]; [done|]. rewrite str_app_cons. destruct (_ || _).
    + destruct (some_digits s) as [[ds u]|] eqn:E; [|done]. simpl. intros [= <- <-].
      by rewrite (some_digits_stable _ _ _ _ Ht E).
    + destruct (some_digits (String d s)) as [[ds u]|] eqn:E; [|done]. simpl. intros [= <- <-].
      rewrite <- str_app_cons. by rewrite (some_digits_stable _ _ _ _ Ht E).
Qed.

Lemma unsigned_stable : stable unsigned.
Proof.
  intros s x r t Ht. unfold unsigned.
  destruct (read_int s) as [[i r1]|] eqn:E1; [|done]. simpl.
  destruct (read_frac r1) as [[f r2]|] eqn:E2; [|done]. simpl.
  destruct (read_exp r2) as [[e r3]|] eqn:E3; [|done]. simpl. intros [= <- <-].
  rewrite (read_int_stable _ _ _ _ Ht E1). simpl. rewrite (read_frac_stable _ _ _ _ Ht E2). simpl.
  by rewrite (read_exp_stable _ _ _ _ Ht E3).
Qed.

Lemma number_stable : stable number.
Proof.
  intros [|c s] x r t Ht; [done|]. rewrite str_app_cons. simpl. destruct (_ =? _).
  - destruct (unsigned s) as [[n u]|] eqn:E; [|done]. simpl. intros [= <- <-].
    by rewrite (unsigned_stable _ _ _ _ Ht E).
  - rewrite <- str_app_cons. by apply unsigned_stable.
Qed.

Lemma number_head s x r :
  number s = Some (x, r) → ∃ c t, s = String c t ∧ (byte_of c = 45 ∨ 48 <= byte_of c <= 57).
Proof.
  destruct s as [|c s]; [done|]. simpl. destruct (byte_of c =? 45) eqn:E; zbool; [eauto|].
  intros H. exists c, s. split; [done|]. right. unfold unsigned in H.
  destruct (byte_of c =? 48) eqn:E2; zbool; [lia|]. simpl in H. rewrite (proj2 (Z.eqb_neq _ _) E2) in H.
  unfold some_digits in H. simpl in H. destruct (digit c) eqn:Ed; [|done].
  unfold digit, byte_in in Ed. by destruct (_ && _) eqn:Eb in Ed; zbool.
Qed.

(** Induction on a value, with the elements of arrays and objects. *)
Lemma json_elim (P : json → Prop) :
  P JNull → (∀ b, P (JBool b)) → (∀ n, P (JNum n)) → (∀ s, P (JStr s)) →
  (∀ l, Forall P l → P (JArr l)) → (∀ m, Forall (λ kv, P kv.2) m → P (JObj m)) → ∀ j, P j.
Proof.
  intros Hn Hb Hm Hs Ha Ho. fix IH 1. intros [|b|n|s|l|m].
  - exact Hn.
  - exact (Hb b).
  - exact (Hm n).
  - exact (Hs s).
  - apply Ha. induction l as [|j l IHl]; constructor; [apply IH|exact IHl].
  - apply Ho. induction m as [|[k j] m IHm]; constructor; [apply IH|exact IHm].
Qed.

(** A printed value begins with a character that is neither space nor the end of
    an array. *)
Definition begins (s : string) : Prop :=
  ∃ c t, s = String c t ∧ is_space c = false ∧ byte_of c ≠ 93.

Lemma marshal_begins d j : printable d j = true → begins (marshal j).
Proof.
  destruct j as [|[]|n|s|l|m]; simpl; intros H; try (by do 2 eexists).
  zbool. destruct (number_head _ _ _ H) as (c & t & -> & Hc). exists c, t. split; [done|].
  unfold is_space. rewrite bool_decide_eq_false, !elem_of_cons, elem_of_nil. lia.
Qed.

Lemma token_cons c t : is_space c = false → token (String c t) = Some (c, t).
Proof. intros Hc. unfold token. simpl. by rewrite Hc. Qed.

(** What [value d] does with the text of a value. *)
Definition reads_back (d : nat) (j : json) : Prop :=
  ∀ t, ends t = true → value d (marshal j +:+ t) = Some (valid_utf8 j, t).

Lemma elements_concat d l n t :
  Forall (reads_back d) l → l ≠ [] → (length l <= n)%nat →
  elements (value d) n (str_concat "," (marshal <$> l) +:+ "]" +:+ t) = Some (valid_utf8 <$> l, t).
Proof.
  intros Hl. revert n. induction Hl as [|j l Hj Hl IH]; intros [|n] Hne Hn; try done; [simpl in Hn; lia|].
  destruct l as [|j' l].
  - simpl. by rewrite Hj.
  - rewrite fmap_cons. change (str_concat "," (marshal j :: (marshal <$> j' :: l)))
      with (marshal j +:+ "," +:+ str_concat "," (marshal <$> j' :: l)).
    rewrite !str_app_assoc. cbn [elements]. rewrite Hj by done. cbn [mbind option_bind].
    rewrite (str_app_cons ","), str_app_nil_l, token_cons by done. cbn [mbind option_bind].
    rewrite IH by (done || (simpl in Hn |- *; lia)). done.
Qed.

Definition print_member (kv : string * json) : string := quote kv.1 +:+ ":" +:+ marshal kv.2.
Definition valid_member (kv : string * json) : string * json := (valid kv.1, valid_utf8 kv.2).

Lemma members_step d kv n c u :
  reads_back d kv.2 → ends (String c u) = true →
  members (value d) (S n) (print_member kv +:+ String c u) =
  if byte_of c =? 125 then Some ([valid_member kv], u)
  else if byte_of c =? 44 then '(l, r) ← members (value d) n u; Some (valid_member kv :: l, r)
  else None.
Proof.
  intros Hj Hu. unfold print_member. rewrite !str_app_assoc. cbn [members].
  destruct (read_quote kv.1 (":" +:+ marshal kv.2 +:+ String c u)) as (r & -> & Hr).
  rewrite token_cons by done. cbn [mbind option_bind].
  change (byte_of dquote =? 34) with true. cbn [negb]. rewrite Hr. cbn [mbind option_bind].
  rewrite (str_app_cons ":"), str_app_nil_l, token_cons by done. cbn [mbind option_bind].
  change (byte_of ":" =? 58) with true. cbn [negb]. rewrite Hj by done. cbn [mbind option_bind].
  rewrite token_cons; [done|]. apply ends_head in Hu. unfold is_space.
  rewrite bool_decide_eq_false, !elem_of_cons, elem_of_nil. lia.
Qed.

Lemma members_concat d m n t :
  Forall (λ kv, reads_back d kv.2) m → m ≠ [] → (length m <= n)%nat →
  members (value d) n (str_concat "," (print_member <$> m) +:+ "}" +:+ t) = Some (valid_member <$> m, t).
Proof.
  intros Hm. revert n. induction Hm as [|kv m Hj Hm IH]; intros [|n] Hne Hn; try done; [simpl in Hn; lia|].
  destruct m as [|kv' m]; [exact (members_step d kv n "}" t Hj eq_refl)|].
  rewrite fmap_cons. change (str_concat "," (print_member kv :: (print_member <$> kv' :: m)))
    with (print_member kv +:+ "," +:+ str_concat "," (print_member <$> kv' :: m)).
  rewrite !str_app_assoc, (str_app_cons ","), str_app_nil_l, members_step by done.
  rewrite IH by (done || (simpl in Hn |- *; lia)). done.
Qed.

Lemma length_concat {A} (f : A → string) l s :
  (0 < str_len s)%nat → (length l <= str_len (str_concat "," (f <$> l) +:+ s))%nat.
Proof.
  intros Hs. rewrite str_len_app. induction l as [|x [|y l] IH]; [simpl; lia|simpl; lia|].
  rewrite !fmap_cons in *. change (str_concat "," (f x :: f y :: (f <$> l)))
    with (f x +:+ "," +:+ str_concat "," (f y :: (f <$> l))).
  rewrite !str_len_app. simpl in IH |- *. lia.
Qed.

Lemma begins_app s t : begins s → begins (s +:+ t).
Proof. intros (c & u & -> & H). exists c, (u +:+ t). by rewrite str_app_cons. Qed.

Lemma concat_begins {A} (f : A → string) l t :
  l ≠ [] → Forall (λ x, begins (f x)) l → begins (str_concat "," (f <$> l) +:+ t).
Proof.
  intros Hne H. destruct H as [|x l Hx _]; [done|]. rewrite fmap_cons.
  destruct l as [|y l]; [by apply begins_app|].
  change (str_concat "," (f x :: (f <$> y :: l))) with (f x +:+ "," +:+ str_concat "," (f <$> y :: l)).
  by apply begins_app, begins_app.
Qed.

Lemma value_array d l t :
  Forall (reads_back d) l → Forall (λ j, begins (marshal j)) l →
  value (S d) (marshal (JArr l) +:+ t) = Some (valid_utf8 (JArr l), t).
Proof.
  intros Hr Hb. cbn [marshal]. rewrite !str_app_assoc, (str_app_cons "["), str_app_nil_l. cbn [value].
  rewrite token_cons by done. cbn [mbind option_bind]. change (byte_of "[") with 91. cbn [Z.eqb Pos.eqb].
  destruct l as [|j l]; [done|].
  destruct (concat_begins marshal (j :: l) ("]" +:+ t) ltac:(done) Hb) as (c & r & E & Hc & Hn).
  rewrite E at 1. rewrite token_cons by done. cbn [mbind option_bind]. zdecide.
  rewrite elements_concat; [done|done|done|]. apply length_concat. rewrite str_len_app. simpl. lia.
Qed.

Lemma value_object d m t :
  Forall (λ kv, reads_back d kv.2) m →
  value (S d) (marshal (JObj m) +:+ t) = Some (valid_utf8 (JObj m), t).
Proof.
  intros Hr. change (marshal (JObj m)) with ("{" +:+ str_concat "," (print_member <$> m) +:+ "}").
  rewrite !str_app_assoc, (str_app_cons "{"), str_app_nil_l. cbn [value].
  rewrite token_cons by done. cbn [mbind option_bind]. change (byte_of "{") with 123. cbn [Z.eqb Pos.eqb].
  destruct m as [|kv m]; [done|].
  destruct (concat_begins print_member (kv :: m) ("}" +:+ t)) as (c & r & E & Hc & Hn); [done| |].
  { apply list.Forall_forall. intros x _. by do 2 eexists. }
  assert (byte_of c ≠ 125) as Hn'.
  { destruct m; (rewrite fmap_cons in E; unfold print_member at 1 in E; cbn [fmap list_fmap str_concat] in E;
      unfold quote in E; rewrite !str_app_cons in E; by injection E as <-). }
  rewrite E at 1. rewrite token_cons by done. cbn [mbind option_bind]. zdecide.
  rewrite members_concat; [done|done|done|]. apply length_concat. rewrite str_len_app. simpl. lia.
Qed.

Lemma HasPrefix_head a c p r : byte_of a ≠ byte_of c → HasPrefix (String c r) (String a p) = false.
Proof. intros H. simpl. rewrite bool_decide_eq_false_2; [done|]. by intros ->. Qed.

(** A printed value is read back: for every value whose numbers are literals and
    which is not nested too deeply, reading what [json.Marshal] prints gives the
    value, but that bytes that are not part of UTF-8 are replaced. *)
Theorem marshal_reads_back d j : printable d j = true → reads_back d j.
Proof.
  revert d. induction j as [|b|n|s|l IH|m IH] using json_elim; intros d Hp t Ht.
  - by destruct d.
  - by destruct d, b.
  - simpl in Hp. zbool. destruct (number_head _ _ _ Hp) as (c & u & -> & Hc).
    assert (is_space c = false) as Hs.
    { unfold is_space. rewrite bool_decide_eq_false, !elem_of_cons, elem_of_nil. lia. }
    pose proof (number_stable _ _ _ t Ht Hp) as Hnum. rewrite str_app_nil_l, str_app_cons in Hnum.
    simpl marshal. rewrite str_app_cons. destruct d; cbn [value]; rewrite token_cons by done;
      cbn [mbind option_bind]; zdecide; rewrite !HasPrefix_head by (vm_compute byte_of at 1; lia);
      by rewrite Hnum.
  - destruct (read_quote s t) as (r & E & Hr). simpl marshal. rewrite E.
    destruct d; cbn [value]; rewrite token_cons by done; cbn [mbind option_bind];
      change (byte_of dquote =? 34) with true; cbn iota; by rewrite Hr.
  - destruct d as [|d]; [done|]. simpl in Hp. pose proof (proj1 (forallb_elem _ _) Hp) as Hp'.
    apply value_array; apply list.Forall_forall; intros x Hx.
    + apply (proj1 (list.Forall_forall _ _) IH x Hx), Hp', Hx.
    + by apply (marshal_begins d), Hp'.
  - destruct d as [|d]; [done|]. simpl in Hp. pose proof (proj1 (forallb_elem _ _) Hp) as Hp'.
    apply value_object, list.Forall_forall. intros x Hx.
    apply (proj1 (list.Forall_forall _ _) IH x Hx), (Hp' x Hx).
Qed.

(** [json.Unmarshal] of what [json.Marshal] printed. *)
Corollary unmarshal_marshal j :
  printable maxNestingDepth j = true → unmarshal (marshal j) = Some (valid_utf8 j).
Proof.
  intros Hp. unfold unmarshal. rewrite <- (str_app_nil_r (marshal j)).
  by rewrite (marshal_reads_back _ _ Hp "" eq_refl).
Qed.

Lemma take_digits_digits fuel n acc :
  0 <= n → take_digits acc = (acc, "") → take_digits (digits 10 fuel n acc) = (digits 10 fuel n acc, "").
Proof.
  revert n acc. induction fuel as [|fuel IH]; intros n acc Hn Ha; [done|]. cbn [digits].
  assert (take_digits (String (digit_char (n mod 10)) acc) = (String (digit_char (n mod 10)) acc, "")) as Hd.
  { cbn [take_digits]. rewrite digit_digit_char by (apply Z.mod_pos_bound; lia). by rewrite Ha. }
  destruct (n <? 10); [done|]. apply IH; [apply Z.div_pos; lia|done].
Qed.

Lemma unsigned_digits n : 0 <= n < 10 ^ 20 → unsigned (digits 10 20 n "") = Some (digits 10 20 n "", "").
Proof.
  intros Hn. pose proof (take_digits_digits 20 n "" ltac:(lia) eq_refl) as Ht.
  destruct (digits_head 20 n "" ltac:(lia) ltac:(lia)) as (d & t & E & Hd & Hz). rewrite E in *.
  assert (read_int (String (digit_char d) t) = Some (String (digit_char d) t, "")) as Hi.
  { unfold read_int. destruct (decide (d = 0)) as [->|Hd0]; [by destruct (Hz eq_refl) as [_ ->]|].
    assert (byte_of (digit_char d) ≠ 48) as Hb.
    { unfold digit_char. zdecide. change (ascii_of_N _) with (chr (d + 48)). rewrite byte_of_chr by lia. lia. }
    rewrite (proj2 (Z.eqb_neq _ _) Hb). unfold some_digits. by rewrite Ht. }
  unfold unsigned. rewrite Hi. simpl mbind. by rewrite str_app_nil_r.
Qed.

(** Integers are printed as numbers of JSON. *)
Lemma number_Itoa n : - 10 ^ 20 < n < 10 ^ 20 → number (Itoa n) = Some (Itoa n, "").
Proof.
  intros Hn. unfold Itoa. destruct (n <? 0) eqn:E; zbool.
  - rewrite str_app_cons, str_app_nil_l. unfold number. change (byte_of "-" =? 45) with true. cbv iota.
    by rewrite unsigned_digits by lia.
  - pose proof (unsigned_digits n ltac:(lia)) as Hu.
    destruct (digits_head 20 n "" ltac:(lia) ltac:(lia)) as (d & t & Es & Hd & _). rewrite Es in *.
    unfold number. assert (byte_of (digit_char d) ≠ 45) as Hb.
    { unfold digit_char. zdecide. change (ascii_of_N _) with (chr (d + 48)). rewrite byte_of_chr by lia. lia. }
    by rewrite (proj2 (Z.eqb_neq _ _) Hb).
Qed.
End Text.

(** ** Structs *)

(** Decoding into a Go value: the new value and whether there was no error of
    type. After such an error the decoding goes on, and the first one is returned
    at the end. *)
Module Decode.

Definition string_ (j : json) (old : string) : string * bool :=
  match j with JStr s => (s, true) | JNull => (old, true) | _ => (old, false) end.

Definition bool_ (j : json) (old : bool) : bool * bool :=
  match j with JBool b => (b, true) | JNull => (old, true) | _ => (old, false) end.

(** An integer, whose literal is parsed by [parse]. *)
Definition number_ (parse : string → option Z) (j : json) (old : Z) : Z * bool :=
  match j with
  | JNum n => match parse n with Some z => (z, true) | None => (old, false) end
  | JNull => (old, true)
  | _ => (old, false)
  end.

(** A struct, whose member with a given name is set by [set]. *)
Definition struct {A} (set : string → json → A → A * bool) (j : json) (a : A) : A * bool :=
  match j with
  | JNull => (a, true)
  | JObj m =>
      fold_left (λ r kv, let (a, ok) := set kv.1 kv.2 r.1 in (a, r.2 && ok)) m (a, true)
  | _ => (a, false)
  end.

(** A slice, each element of which is decoded into a zero value. *)
Definition slice {A} (dec : json → A → A * bool) (zero : A) (j : json) (old : list A) : list A * bool :=
  match j with
  | JNull => ([], true)
  | JArr l => let r := (λ j, dec j zero) <$> l in (fst <$> r, forallb snd r)
  | _ => (old, false)
  end.

(** The value of a field by the name of the member, and what to do with it. *)
Definition field {A B} (dec : json → B → B * bool) (get : A → B) (put : B → A → A) (j : json) (a : A)
    : A * bool :=
  let (b, ok) := dec j (get a) in (put b a, ok).

Lemma struct_cons {A} (set : string → json → A → A * bool) k j m a a' :
  set k j a = (a', true) → struct set (JObj ((k, j) :: m)) a = struct set (JObj m) a'.
Proof. intros E. simpl. by rewrite E. Qed.

Lemma struct_app {A} (set : string → json → A → A * bool) m m' a a' :
  struct set (JObj m) a = (a', true) → struct set (JObj (m ++ m')) a = struct set (JObj m') a'.
Proof. simpl. intros E. by rewrite fold_left_app, E. Qed.

Lemma slice_all {A} (dec : json → A → A * bool) zero (f : A → json) l old :
  Forall (λ x, dec (f x) zero = (x, true)) l → slice dec zero (JArr (f <$> l)) old = (l, true).
Proof.
  intros H. unfold slice. rewrite <- list_fmap_compose. induction H as [|x l Hx _ IH]; [done|].
  rewrite !fmap_cons. simpl. rewrite Hx. injection IH as -> ->. done.
Qed.

Lemma field_ok {A B} (dec : json → B → B * bool) (get : A → B) (put : B → A → A) j a b :
  dec j (get a) = (b, true) → field dec get put j a = (put b a, true).
Proof. unfold field. by intros ->. Qed.

Lemma number_ok parse n z old : parse n = Some z → number_ parse (JNum n) old = (z, true).
Proof. simpl. by intros ->. Qed.
End Decode.
