(* ===== verification/Tables.v ===== *)
(** * Tables

    A table of the database is the list of its rows in the order of their primary
    keys. What the handlers of several services do with one: look up, insert,
    update and delete by key, and the lemmas about keys that they share. *)
From S2P Require Import Prelude.
Local Open Scope Z_scope.

Lemma find_fmap_in {A} (P : A → bool) (g : A → A) l :
  (∀ x, x ∈ l → P (g x) = P x) → List.find P (g <$> l) = g <$> List.find P l.
Proof.
  induction l as [|x l IH]; intros HP; [done|]. simpl. rewrite HP by (by left).
  destruct (P x); [done|]. apply IH. intros y Hy. apply HP. by right.
Qed.

Section table.
Context {A : Type}.
Variable key : A → Z.

(** [First] by primary key. *)
Definition row_with (id : Z) (l : list A) : option A := List.find (λ x, key x =? id) l.

(** [Updates] of the row with a key. *)
Definition on_row (id : Z) (f : A → A) (l : list A) : list A := (λ x, if key x =? id then f x else x) <$> l.

(** [Delete] of the row with a key. *)
Definition without_row (id : Z) (l : list A) : list A := filter (λ x, key x ≠ id) l.

(** Whether a key is taken. *)
Definition has_row (id : Z) (l : list A) : bool := existsb (λ x, key x =? id) l.

(** Keys are unique. *)
Definition keyed (l : list A) : Prop := NoDup (key <$> l).

Lemma row_with_elem id l x : row_with id l = Some x → x ∈ l ∧ key x = id.
Proof. intros [Hx Hk]%find_elem. by apply Z.eqb_eq in Hk. Qed.

Lemma row_with_None id l : row_with id l = None ↔ id ∉ key <$> l.
Proof.
  unfold row_with. rewrite find_none_elem, list_elem_of_fmap. split.
  - intros H (x & -> & Hx). specialize (H x Hx). by rewrite Z.eqb_refl in H.
  - intros H x Hx. apply Z.eqb_neq. intros <-. apply H. eauto.
Qed.

Lemma row_with_keyed id l x : keyed l → x ∈ l → key x = id → row_with id l = Some x.
Proof.
  intros Hk Hx <-. destruct (row_with (key x) l) as [y|] eqn:E.
  - apply row_with_elem in E as [Hy E]. f_equal. by apply (nodup_key key l).
  - apply row_with_None in E. destruct E. apply list_elem_of_fmap. eauto.
Qed.

Lemma has_row_false id l : has_row id l = false ↔ id ∉ key <$> l.
Proof.
  unfold has_row. rewrite <- not_true_iff_false, existsb_exists, list_elem_of_fmap.
  setoid_rewrite Z.eqb_eq. setoid_rewrite <- list_elem_of_In. naive_solver.
Qed.

Lemma keyed_snoc l x : keyed l → has_row (key x) l = false → keyed (l ++ [x]).
Proof.
  intros Hk Hx. apply has_row_false in Hx. unfold keyed. rewrite fmap_app. apply list.NoDup_app.
  split_and!; [done| |apply NoDup_singleton]. intros i Hi ->%list_elem_of_singleton. done.
Qed.

Lemma keyed_filter (P : A → Prop) `{∀ x, Decision (P x)} l : keyed l → keyed (filter P l).
Proof. intros Hk. eapply sublist_NoDup; [exact Hk|]. apply fmap_sublist, sublist_filter. Qed.

Lemma on_row_keys id f l : (∀ x, x ∈ l → key x = id → key (f x) = id) → key <$> on_row id f l = key <$> l.
Proof.
  intros Hf. unfold on_row. rewrite <- list_fmap_compose. apply list_fmap_ext. intros i x Hx. simpl.
  destruct (key x =? id) eqn:E; [|done]. apply Z.eqb_eq in E.
  rewrite Hf; [done|by eapply list_elem_of_lookup_2|done].
Qed.

Lemma keyed_on_row id f l : (∀ x, x ∈ l → key x = id → key (f x) = id) → keyed l → keyed (on_row id f l).
Proof. intros Hf Hk. unfold keyed. by rewrite on_row_keys. Qed.

Lemma row_with_on_row id f l :
  (∀ x, x ∈ l → key x = id → key (f x) = id) → row_with id (on_row id f l) = f <$> row_with id l.
Proof.
  unfold row_with, on_row. induction l as [|x l IH]; intros Hf; simpl; [done|].
  destruct (key x =? id) eqn:E.
  - apply Z.eqb_eq in E. rewrite (proj2 (Z.eqb_eq _ _)); [done|]. apply Hf; [by left|done].
  - rewrite E. apply IH. intros y Hy. apply Hf. by right.
Qed.

Lemma row_with_on_other id id' f l :
  (∀ x, x ∈ l → key x = id' → key (f x) = id') → id ≠ id' → row_with id (on_row id' f l) = row_with id l.
Proof.
  unfold row_with, on_row. induction l as [|x l IH]; intros Hf Hne; simpl; [done|].
  destruct (key x =? id') eqn:E.
  - apply Z.eqb_eq in E. rewrite (Hf x), E by (done || by left).
    rewrite (proj2 (Z.eqb_neq _ _)) by lia. apply IH; [|done]. intros y Hy. apply Hf. by right.
  - destruct (key x =? id); [done|]. apply IH; [|done]. intros y Hy. apply Hf. by right.
Qed.

Lemma row_with_snoc id l x : has_row id l = false → row_with id (l ++ [x]) = if key x =? id then Some x else None.
Proof.
  intros H%has_row_false%row_with_None. unfold row_with in *. by rewrite find_app_none.
Qed.

Lemma row_with_snoc_other id l x : key x ≠ id → row_with id (l ++ [x]) = row_with id l.
Proof.
  intros Hx. unfold row_with. destruct (List.find _ l) as [y|] eqn:E; [by apply find_app_some|].
  rewrite find_app_none by done. simpl. by rewrite (proj2 (Z.eqb_neq _ _)).
Qed.

Lemma row_with_filter id (P : A → Prop) `{∀ x, Decision (P x)} l :
  (∀ x, x ∈ l → key x = id → P x) → row_with id (filter P l) = row_with id l.
Proof.
  unfold row_with. induction l as [|x l IH]; intros Hp; simpl; [done|]. rewrite filter_cons.
  assert (row_with id (filter P l) = row_with id l) as Hl by (apply IH; intros y Hy; apply Hp; by right).
  unfold row_with in Hl. destruct (key x =? id) eqn:E.
  - apply Z.eqb_eq in E. rewrite decide_True by (apply Hp; [by left|done]). simpl.
    by rewrite (proj2 (Z.eqb_eq _ _)).
  - case_decide; simpl; [by rewrite E|done].
Qed.

Lemma row_with_without id id' l : row_with id (without_row id' l) = if decide (id = id') then None else row_with id l.
Proof.
  case_decide as E.
  - subst. apply row_with_None. intros (x & Hk & Hx)%list_elem_of_fmap.
    unfold without_row in Hx. rewrite list_elem_of_filter in Hx. destruct Hx as [Hne _]. congruence.
  - apply row_with_filter. intros x _ Hk. congruence.
Qed.
End table.
