(* ===== verification/GoTime.v ===== *)
(** * Calendar time

    The part of Go's package [time] that the policy conditions use: instants
    with a zone offset, and reading and writing them in the RFC 3339 layout. *)
From S2P Require Import Prelude GoStrings NetIP.
From Stdlib Require Import Ascii.

Local Open Scope Z_scope.

(** Seconds and nanoseconds since the Unix epoch, and the zone's offset from UTC
    in seconds. *)
Record Time := mkTime { t_sec : Z; t_nsec : Z; t_offset : Z }.

Definition t_nanos (t : Time) : Z := t_sec t * second + t_nsec t.

(** [Equal], [Before] and [After] compare instants. *)
Definition Time_Equal (t u : Time) : bool := t_nanos t =? t_nanos u.
Definition Time_Before (t u : Time) : bool := t_nanos t <? t_nanos u.
Definition Time_After (t u : Time) : bool := t_nanos u <? t_nanos t.

(** ** The proleptic Gregorian calendar *)

(** Days since the epoch of a date; years start in March, 400 of them have
    146097 days. *)
Definition days_from_civil (y m d : Z) : Z :=
  let y := if m <=? 2 then y - 1 else y in
  let yoe := y mod 400 in
  let mp := if 2 <? m then m - 3 else m + 9 in
  let doy := (153 * mp + 2) / 5 + d - 1 in
  let doe := yoe * 365 + yoe / 4 - yoe / 100 + doy in
  y / 400 * 146097 + doe - 719468.

Definition civil_from_days (z : Z) : Z * Z * Z :=
  let z := z + 719468 in
  let doe := z mod 146097 in
  let yoe := (doe - doe / 1460 + doe / 36524 - doe / 146096) / 365 in
  let doy := doe - (365 * yoe + yoe / 4 - yoe / 100) in
  let mp := (5 * doy + 2) / 153 in
  let d := doy - (153 * mp + 2) / 5 + 1 in
  let m := if mp <? 10 then mp + 3 else mp - 9 in
  let y := yoe + z / 146097 * 400 in
  ((if m <=? 2 then y + 1 else y), m, d).

Definition is_leap (y : Z) : bool :=
  (y mod 4 =? 0) && (negb (y mod 100 =? 0) || (y mod 400 =? 0)).

Definition daysIn (m y : Z) : Z :=
  if m =? 2 then if is_leap y then 29 else 28
  else if (m =? 4) || (m =? 6) || (m =? 9) || (m =? 11) then 30 else 31.

(** ** Writing *)

(** A number below 10^[width], padded with zeros. *)
Fixpoint pad (width : nat) (n : Z) (acc : string) : string :=
  match width with
  | O => acc
  | S w => pad w (n / 10) (String (digit_char (n mod 10)) acc)
  end.

Definition pad2 (n : Z) : string := pad 2 n "".

Definition year_string (y : Z) : string :=
  if y <? 0 then "-" +:+ pad 4 (- y) ""
  else if y <? 10000 then pad 4 y ""
  else digits 10 20 y "".

Definition zone_string (off : Z) : string :=
  if off =? 0 then "Z"
  else
    let zone := Z.quot off 60 in
    (if zone <? 0 then "-" else "+")
    +:+ pad2 (Z.abs zone / 60) +:+ ":" +:+ pad2 (Z.abs zone mod 60).

(** [t.Format(time.RFC3339)] *)
Definition FormatRFC3339 (t : Time) : string :=
  let local := t_sec t + t_offset t in
  let '(y, m, d) := civil_from_days (local / 86400) in
  let s := local mod 86400 in
  year_string y +:+ "-" +:+ pad2 m +:+ "-" +:+ pad2 d +:+ "T"
  +:+ pad2 (s / 3600) +:+ ":" +:+ pad2 (s / 60 mod 60) +:+ ":" +:+ pad2 (s mod 60)
  +:+ zone_string (t_offset t).

(** The fraction of [time.RFC3339Nano]: no trailing zeros, nothing for a whole
    second. *)
Fixpoint trim_zeros (width : nat) (n : Z) : string :=
  match width with
  | O => EmptyString
  | S w => if n mod 10 =? 0 then trim_zeros w (n / 10) else "." +:+ pad width n ""
  end.

(** [t.Format(time.RFC3339Nano)]. *)
Definition FormatRFC3339Nano (t : Time) : string :=
  let local := t_sec t + t_offset t in
  let '(y, m, d) := civil_from_days (local / 86400) in
  let s := local mod 86400 in
  year_string y +:+ "-" +:+ pad2 m +:+ "-" +:+ pad2 d +:+ "T"
  +:+ pad2 (s / 3600) +:+ ":" +:+ pad2 (s / 60 mod 60) +:+ ":" +:+ pad2 (s mod 60)
  +:+ trim_zeros 9 (t_nsec t) +:+ zone_string (t_offset t).

(** [t.AddDate(years, months, days)] at a fixed offset: months and days that are
    out of range carry over. *)
Definition AddDate (years months days : Z) (t : Time) : Time :=
  let local := t_sec t + t_offset t in
  let '(y, m, d) := civil_from_days (local / 86400) in
  let m := m + months - 1 in
  mkTime (days_from_civil (y + years + m / 12) (m mod 12 + 1) (d + days) * 86400
          + local mod 86400 - t_offset t) (t_nsec t) (t_offset t).

Example AddDate_february :
  FormatRFC3339Nano (AddDate 0 (-1) 0 (mkTime (days_from_civil 2026 3 30 * 86400) 120000000 0))
  = "2026-03-02T00:00:00.12Z".
Proof. vm_compute. reflexivity. Qed.

(** ** Reading *)

(** [getnum]: two digits, or one when [fixed] is false. *)
Definition getnum (fixed : bool) (s : string) : option (Z * string) :=
  match s with
  | String a s1 =>
      match digit a with
      | None => None
      | Some x =>
          match s1 with
          | String b s2 =>
              match digit b with
              | Some y => Some (x * 10 + y, s2)
              | None => if fixed then None else Some (x, s1)
              end
          | EmptyString => if fixed then None else Some (x, s1)
          end
      end
  | EmptyString => None
  end.

Definition expect (c : ascii) (s : string) : option string :=
  match s with
  | String a s' => if decide (a = c) then Some s' else None
  | EmptyString => None
  end.

(** The fraction after the seconds: the digits, of which nine count. *)
Fixpoint fraction (s : string) (k : nat) (acc : Z) : Z * string :=
  match s with
  | String c s' =>
      match digit c with
      | Some d =>
          match k with
          | O => fraction s' O acc
          | S k' => fraction s' k' (acc + d * 10 ^ Z.of_nat k')
          end
      | None => (acc, s)
      end
  | EmptyString => (acc, s)
  end.

Definition read_fraction (s : string) : Z * string :=
  match s with
  | String c (String d _ as s') =>
      if decide (c = "."%char ∨ c = ","%char) then
        match digit d with
        | Some _ => fraction s' 9 0
        | None => (0, s)
        end
      else (0, s)
  | _ => (0, s)
  end.

Definition read_zone (s : string) : option Z :=
  match s with
  | String "Z" EmptyString => Some 0
  | String sign s1 =>
      if decide (sign = "+"%char ∨ sign = "-"%char) then
        match getnum true s1 with
        | Some (h, s2) =>
            match expect ":" s2 with
            | Some s3 =>
                match getnum true s3 with
                | Some (m, EmptyString) =>
                    if (24 <? h) || (60 <? m) then None
                    else
                      let off := (h * 60 + m) * 60 in
                      Some (if decide (sign = "-"%char) then - off else off)
                | _ => None
                end
            | None => None
            end
        | None => None
        end
      else None
  | EmptyString => None
  end.

(** [time.Parse(time.RFC3339, s)], error as [None]. *)
Definition ParseRFC3339 (s : string) : option Time :=
  '(y1, s) ← getnum true s;
  '(y2, s) ← getnum true s;
  let y := y1 * 100 + y2 in
  s ← expect "-" s;
  '(m, s) ← getnum true s;
  s ← expect "-" s;
  '(d, s) ← getnum true s;
  s ← expect "T" s;
  '(hh, s) ← getnum false s;
  s ← expect ":" s;
  '(mm, s) ← getnum true s;
  s ← expect ":" s;
  '(ss, s) ← getnum true s;
  let '(ns, s) := read_fraction s in
  off ← read_zone s;
  if (1 <=? m) && (m <=? 12) && (1 <=? d) && (d <=? daysIn m y)
     && (hh <? 24) && (mm <? 60) && (ss <? 60)
  then Some (mkTime (days_from_civil y m d * 86400 + hh * 3600 + mm * 60 + ss - off) ns off)
  else None.
