(* ===== verification/Vrn.v ===== *)
(** * VC resource names

    pkg/iam/vrn.go: the names [vrn:vcstack:service:project:type/id] that
    policies and audit records use, their parser and printer, pattern matching
    between names, and the construction of a name from a permission resource. *)
From S2P Require Import Prelude GoStrings.
From Stdlib Require Import Ascii.

Definition VRNPrefix : string := "vrn".
Definition VRNPartition : string := "vcstack".

Record VRN := mkVRN {
  Partition : string;
  Service : string;
  ProjectID : string;
  ResourceType : string;
  ResourceID : string
}.

#[export] Instance VRN_eq_dec : EqDecision VRN.
Proof. solve_decision. Defined.

Definition NewVRN (service projectID resourceType resourceID : string) : VRN :=
  mkVRN VRNPartition service projectID resourceType resourceID.

Definition GlobalVRN (service resourceType resourceID : string) : VRN :=
  NewVRN service "" resourceType resourceID.

Definition WildcardVRN (service projectID resourceType : string) : VRN :=
  NewVRN service projectID resourceType "*".

Definition AllVRN : VRN := mkVRN VRNPartition "*" "*" "*" "*".

Definition VRN_String (v : VRN) : string :=
  VRNPrefix +:+ ":" +:+ Partition v +:+ ":" +:+ Service v +:+ ":" +:+ ProjectID v
  +:+ ":" +:+ ResourceType v +:+ "/" +:+ ResourceID v.

Definition IsValid (v : VRN) : bool :=
  negb (bool_decide (Partition v = "")) && negb (bool_decide (Service v = ""))
  && negb (bool_decide (ResourceType v = "")) && negb (bool_decide (ResourceID v = "")).

Definition IsWildcard (v : VRN) : bool :=
  bool_decide (Service v = "*") || bool_decide (ProjectID v = "*")
  || bool_decide (ResourceType v = "*") || bool_decide (ResourceID v = "*").

Definition IsGlobal (v : VRN) : bool := bool_decide (ProjectID v = "").

(** The errors of the parser, by the message they carry. *)
Inductive resource_error :=
| ErrNoSlash (s : string)
| ErrEmptyType (s : string)
| ErrEmptyID (s : string).

Inductive vrn_error :=
| ErrFormat (parts : nat) (s : string)
| ErrPrefix (got : string)
| ErrPartition (got : string)
| ErrResource (e : resource_error).

Definition splitResource (s : string) : result resource_error (string * string) :=
  if bool_decide (s = "*") || bool_decide (s = "*/*") then Ok ("*", "*")
  else
    match IndexByte s "/" with
    | None => Err (ErrNoSlash s)
    | Some idx =>
        let resourceType := str_take idx s in
        let resourceID := str_drop (S idx) s in
        if decide (resourceType = "") then Err (ErrEmptyType s)
        else if decide (resourceID = "") then Err (ErrEmptyID s)
        else Ok (resourceType, resourceID)
    end.

Definition ParseVRN (s : string) : result vrn_error VRN :=
  if decide (s = "*") then Ok AllVRN
  else
    match SplitN s ":" 5 with
    | [prefix; partition; service; projectID; resourcePart] =>
        if negb (bool_decide (prefix = VRNPrefix)) then Err (ErrPrefix prefix)
        else if negb (bool_decide (partition = VRNPartition)) then Err (ErrPartition partition)
        else
          match splitResource resourcePart with
          | Err e => Err (ErrResource e)
          | Ok (resourceType, resourceID) =>
              Ok (mkVRN partition service projectID resourceType resourceID)
          end
    | parts => Err (ErrFormat (length parts) s)
    end.

Definition matchComponent (pattern value : string) : bool :=
  if decide (pattern = "*") then true
  else if decide (pattern = value) then true
  else if HasSuffix pattern "*" then
    HasPrefix value (str_take (str_len pattern - 1) pattern)
  else false.

Definition Matches (pattern resource : VRN) : bool :=
  matchComponent (Service pattern) (Service resource)
  && matchComponent (ProjectID pattern) (ProjectID resource)
  && matchComponent (ResourceType pattern) (ResourceType resource)
  && matchComponent (ResourceID pattern) (ResourceID resource).

Definition MatchesString (v : VRN) (pattern : string) : result vrn_error bool :=
  match ParseVRN pattern with
  | Err e => if decide (pattern = "*") then Ok true else Err e
  | Ok p => Ok (Matches p v)
  end.

(** A map literal, as the list of its entries; no key occurs twice. *)
Fixpoint map_get {A} (m : list (string * A)) (k : string) : option A :=
  match m with
  | [] => None
  | (k', v) :: m => if decide (k' = k) then Some v else map_get m k
  end.

Definition ResourceTypeMap : list (string * string) :=
  [("compute", "instance"); ("flavor", "flavor"); ("ssh_key", "ssh-key");
   ("volume", "volume"); ("snapshot", "snapshot"); ("storage", "volume");
   ("network", "network"); ("subnet", "subnet"); ("security_group", "security-group");
   ("floating_ip", "floating-ip"); ("router", "router"); ("port", "port");
   ("vpc", "vpc"); ("acl", "acl"); ("load_balancer", "load-balancer");
   ("firewall", "firewall"); ("dns_zone", "zone"); ("dns_record", "record");
   ("image", "image"); ("user", "user"); ("role", "role"); ("policy", "policy");
   ("project", "project"); ("host", "host"); ("cluster", "cluster"); ("kms", "key");
   ("encryption", "config"); ("baremetal", "node"); ("ha", "policy"); ("dr", "plan");
   ("backup", "backup"); ("vpn", "connection"); ("bucket", "bucket");
   ("s3_credential", "credential"); ("orchestration", "stack");
   ("template", "template"); ("caas_cluster", "cluster"); ("hpc_cluster", "cluster");
   ("hpc_job", "job"); ("hpc_gpu", "gpu-pool"); ("catalog", "item");
   ("autoscale", "policy"); ("selfheal", "policy"); ("notification", "subscription");
   ("quota", "quota"); ("tag", "tag"); ("task", "task"); ("audit", "log");
   ("monitoring", "metric"); ("event", "event"); ("metadata", "config");
   ("config", "config"); ("ratelimit", "policy"); ("domain", "domain");
   ("registry", "registry"); ("configcenter", "config"); ("eventbus", "channel");
   ("tools", "tool"); ("usage", "record"); ("scheduler", "rule")].

Definition serviceMap : list (string * string) :=
  [("compute", "compute"); ("flavor", "compute"); ("ssh_key", "compute");
   ("volume", "storage"); ("snapshot", "storage"); ("storage", "storage");
   ("network", "network"); ("subnet", "network"); ("security_group", "network");
   ("floating_ip", "network"); ("router", "network"); ("port", "network");
   ("vpc", "network"); ("acl", "network"); ("load_balancer", "network");
   ("firewall", "network"); ("dns_zone", "dns"); ("dns_record", "dns");
   ("image", "image"); ("user", "iam"); ("role", "iam"); ("policy", "iam");
   ("project", "iam"); ("host", "infra"); ("cluster", "infra"); ("kms", "kms");
   ("encryption", "encryption"); ("baremetal", "baremetal"); ("ha", "ha");
   ("dr", "dr"); ("backup", "backup"); ("vpn", "vpn"); ("bucket", "objectstorage");
   ("s3_credential", "objectstorage"); ("orchestration", "orchestration");
   ("template", "orchestration"); ("catalog", "catalog"); ("autoscale", "autoscale");
   ("selfheal", "selfheal"); ("notification", "notification"); ("quota", "quota");
   ("tag", "tag"); ("task", "task"); ("audit", "audit"); ("monitoring", "monitoring");
   ("event", "event"); ("metadata", "metadata"); ("config", "config");
   ("ratelimit", "ratelimit"); ("domain", "domain"); ("registry", "registry");
   ("configcenter", "configcenter"); ("eventbus", "eventbus"); ("tools", "tools");
   ("usage", "usage"); ("scheduler", "scheduler"); ("caas_cluster", "caas");
   ("hpc_cluster", "hpc"); ("hpc_job", "hpc"); ("hpc_gpu", "hpc")].

Definition permResourceToService (resource : string) : string :=
  default resource (map_get serviceMap resource).

Definition BuildVRN (permResource projectID resourceID : string) : VRN :=
  let service := permResourceToService permResource in
  let resourceType := default permResource (map_get ResourceTypeMap permResource) in
  let resourceID := if decide (resourceID = "") then "*" else resourceID in
  NewVRN service projectID resourceType resourceID.

#[global] Arguments map_get : simpl never.

(** ** Parsing and printing *)

(** The names the printer writes without ambiguity. *)
Definition printable (v : VRN) : Prop :=
  Partition v = VRNPartition ∧ str_mem ":" (Service v) = false ∧
  str_mem ":" (ProjectID v) = false ∧ str_mem "/" (ResourceType v) = false ∧
  ResourceType v ≠ "" ∧ ResourceID v ≠ "".

Lemma splitResource_cut s l r :
  str_cut "/" s = Some (l, r) → s ≠ "*/*" → l ≠ "" → r ≠ "" →
  splitResource s = Ok (l, r).
Proof.
  intros Hc Hs Hl Hr. unfold splitResource.
  assert (s ≠ "*") as Hs' by (intros ->; done).
  rewrite !bool_decide_eq_false_2 by done. simpl.
  rewrite IndexByte_cut, Hc; cbn [fmap option_fmap option_map fst].
  destruct (str_cut_take_drop _ _ _ _ Hc) as [-> ->].
  by rewrite (decide_False _ _ Hl), (decide_False _ _ Hr).
Qed.

Lemma splitResource_app l r :
  str_mem "/" l = false → l ≠ "" → r ≠ "" →
  splitResource (l +:+ String "/" r) = Ok (l, r).
Proof.
  intros Hm Hl Hr. destruct (decide (l +:+ String "/" r = "*/*")) as [E|E].
  - rewrite E. pose proof (str_cut_app "/" l r Hm) as Hc. rewrite E in Hc.
    vm_compute in Hc. by simplify_eq.
  - apply splitResource_cut; try done. by apply str_cut_app.
Qed.

Lemma splitResource_Ok s l r :
  splitResource s = Ok (l, r) →
  str_mem "/" l = false ∧ l ≠ "" ∧ r ≠ "" ∧
  (s = l +:+ String "/" r ∨ s = "*" ∧ l = "*" ∧ r = "*").
Proof.
  unfold splitResource. destruct (_ || _) eqn:E.
  { intros ?; simplify_eq. apply orb_true_iff in E as [E|E]; zbool; subst;
      split_and!; try done; [by right|by left]. }
  rewrite IndexByte_cut. destruct (str_cut "/" s) as [[l' r']|] eqn:Hc; [|done].
  cbn [fmap option_fmap option_map fst].
  destruct (str_cut_take_drop _ _ _ _ Hc) as [-> ->].
  apply str_cut_Some in Hc as [-> Hm].
  repeat case_decide; intros ?; simplify_eq. by auto.
Qed.

Lemma VRN_String_split v :
  printable v →
  SplitN (VRN_String v) ":" 5 =
    [VRNPrefix; Partition v; Service v; ProjectID v;
     ResourceType v +:+ String "/" (ResourceID v)].
Proof.
  intros (Hp&Hs&Hpr&_). unfold VRN_String.
  assert (str_mem ":" (Partition v) = false) as Hpa by (rewrite Hp; done).
  assert (∀ s, ":" +:+ s = String ":" s) as Hc by done. rewrite !Hc.
  rewrite (SplitN_step VRNPrefix) by done. by rewrite !SplitN_step.
Qed.

(** Printing and parsing: every printable name is read back as it was
    written. *)
Theorem ParseVRN_String v : printable v → ParseVRN (VRN_String v) = Ok v.
Proof.
  intros Hv. unfold ParseVRN. rewrite decide_False by (unfold VRN_String; done).
  rewrite VRN_String_split by done. destruct Hv as (Hp&_&_&Hm&Hl&Hr).
  rewrite Hp. rewrite splitResource_app by done. simpl.
  rewrite <-Hp. by destruct v.
Qed.

Lemma ParseVRN_String_witness :
  printable (NewVRN "iam" "" "user" "usr-001/x:y") ∧
  ParseVRN "vrn:vcstack:iam::user/usr-001/x:y" = Ok (GlobalVRN "iam" "user" "usr-001/x:y").
Proof.
  assert (printable (NewVRN "iam" "" "user" "usr-001/x:y")) as H
    by (vm_compute; split_and!; (reflexivity || discriminate)).
  split; [exact H|]. apply (ParseVRN_String _ H).
Defined.

Lemma SplitN5_inv s a b c d e :
  SplitN s ":" 5 = [a; b; c; d; e] →
  s = a +:+ ":" +:+ b +:+ ":" +:+ c +:+ ":" +:+ d +:+ ":" +:+ e ∧
  str_mem ":" c = false ∧ str_mem ":" d = false.
Proof.
  intros H. split.
  { rewrite <-(SplitN_join s ":" 4), H. done. }
  revert H. simpl.
  destruct (str_cut ":" s) as [[l1 r1]|] eqn:E1; [|done].
  destruct (str_cut ":" r1) as [[l2 r2]|] eqn:E2; [|done].
  destruct (str_cut ":" r2) as [[l3 r3]|] eqn:E3; [|done].
  destruct (str_cut ":" r3) as [[l4 r4]|] eqn:E4; [|done].
  intros ?; simplify_eq. apply str_cut_Some in E3 as [_ ?], E4 as [_ ?]. done.
Qed.

(** Parsing and printing: a string that parses gives a printable name,
    whose canonical form is the string itself, the string with its lone
    resource star written out as [*/*], or, for the universal pattern [*], the
    name of everything. *)
Theorem ParseVRN_canonical s v :
  ParseVRN s = Ok v →
  printable v ∧
  (s = "*" ∧ v = AllVRN ∨ VRN_String v = s ∨ VRN_String v = s +:+ "/*").
Proof.
  unfold ParseVRN. case_decide as Hs.
  { intros ?; simplify_eq. split; [by vm_compute|]. by left. }
  destruct (SplitN s ":" 5) as [|a [|b [|c [|d [|e [|]]]]]] eqn:E; try done.
  apply SplitN5_inv in E as (->&Hc&Hd).
  destruct (bool_decide (a = VRNPrefix)) eqn:Ea; [|done].
  destruct (bool_decide (b = VRNPartition)) eqn:Eb; [|done]. zbool; subst. simpl.
  destruct (splitResource e) as [[l r]|] eqn:Er; [|done].
  apply splitResource_Ok in Er as (Hm&Hl&Hr&He). intros ?; simplify_eq.
  split; [done|]. right. unfold VRN_String; simpl.
  destruct He as [->|(->&->&->)]; [by left|right].
  rewrite !str_app_assoc. done.
Qed.

Lemma ParseVRN_canonical_witness :
  let v := NewVRN "storage" "*" "*" "*" in
  ParseVRN "vrn:vcstack:storage:*:*" = Ok v ∧ printable v.
Proof.
  split; [vm_compute; reflexivity|].
  apply (ParseVRN_canonical "vrn:vcstack:storage:*:*"). vm_compute; reflexivity.
Defined.

(** ** Matching *)

Lemma matchComponent_spec p v :
  matchComponent p v = true ↔ p = v ∨ ∃ pre t, p = pre +:+ "*" ∧ v = pre +:+ t.
Proof.
  unfold matchComponent. case_decide as H1.
  { subst. split; [|done]. intros _. right. by exists "", v. }
  case_decide as H2; [naive_solver|].
  destruct (HasSuffix p "*") eqn:Hsu.
  - apply HasSuffix_spec in Hsu as [pre ->]. rewrite str_len_app; simpl.
    replace (str_len pre + 1 - 1) with (str_len pre) by lia.
    rewrite str_take_app, HasPrefix_spec. split.
    + intros [t ->]. right. by exists pre, t.
    + intros [E|(pre'&t&E&->)]; [congruence|].
      apply str_app_inj_r in E as ->. by exists t.
  - split; [done|]. intros [E|(pre&t&->&_)]; [congruence|].
    assert (HasSuffix (pre +:+ "*") "*" = true); [|congruence].
    apply HasSuffix_spec. by exists pre.
Qed.

(** A component pattern matches exactly the equal component and, when it
    ends in a star, the components with the text before the star as a prefix;
    in particular a star alone matches every component. A name matches a
    pattern when its four components do. *)
Theorem Matches_spec p v :
  Matches p v = true ↔
  Forall (λ pv, pv.1 = pv.2 ∨ ∃ pre t, pv.1 = pre +:+ "*" ∧ pv.2 = pre +:+ t)
    [(Service p, Service v); (ProjectID p, ProjectID v);
     (ResourceType p, ResourceType v); (ResourceID p, ResourceID v)].
Proof.
  unfold Matches. rewrite !andb_true_iff, !matchComponent_spec.
  rewrite !list.Forall_cons, list.Forall_nil. simpl. tauto.
Qed.

(** ** Names built from requests *)

Lemma map_get_In {A} (m : list (string * A)) k v : map_get m k = Some v → (k, v) ∈ m.
Proof.
  induction m as [|[k' v'] m IH]; [done|]. unfold map_get; fold (@map_get A).
  case_decide; intros ?; simplify_eq.
  - apply elem_of_cons; by left.
  - apply elem_of_cons; right; by apply IH.
Qed.

Lemma map_get_forallb {A} (f : A → bool) (m : list (string * A)) k v :
  forallb (λ kv, f kv.2) m = true → map_get m k = Some v → f v = true.
Proof.
  intros Hf Hg%map_get_In. rewrite forallb_forall in Hf.
  apply (Hf (k, v)). by apply list_elem_of_In.
Qed.

Definition clean_type (t : string) : bool :=
  negb (str_mem "/" t) && negb (bool_decide (t = "")).

Definition clean_service (t : string) : bool :=
  negb (str_mem ":" t) && negb (bool_decide (t = "")).

(** A name built for a request (a permission resource without separators, a
    project without colon, any resource id) is valid, names the wildcard when
    the id is missing, and survives printing and parsing. *)
Theorem BuildVRN_parses r proj id :
  clean_service r = true → clean_type r = true → str_mem ":" proj = false →
  let v := BuildVRN r proj id in
  IsValid v = true ∧ ParseVRN (VRN_String v) = Ok v ∧
  ResourceID v = (if decide (id = "") then "*" else id).
Proof.
  intros Hs Ht Hp v.
  assert (clean_service (Service v) = true) as Hs'.
  { simpl. unfold permResourceToService.
    destruct (map_get serviceMap r) as [x|] eqn:E; [|done].
    apply (map_get_forallb clean_service serviceMap r); [vm_compute; reflexivity|done]. }
  assert (clean_type (ResourceType v) = true) as Ht'.
  { simpl. destruct (map_get ResourceTypeMap r) as [x|] eqn:E; [|done].
    apply (map_get_forallb clean_type ResourceTypeMap r); [vm_compute; reflexivity|done]. }
  assert (ResourceID v = if decide (id = "") then "*" else id) as Hid by reflexivity.
  assert (ResourceID v ≠ "") as Hi by (rewrite Hid; by case_decide).
  assert (Partition v = VRNPartition ∧ ProjectID v = proj) as [Hpa Hpr] by done.
  clearbody v. unfold clean_service, clean_type in *. zbool.
  split; [|split; [|exact Hid]].
  - unfold IsValid. rewrite Hpa, !bool_decide_eq_false_2 by done. done.
  - apply ParseVRN_String. split_and!; congruence.
Qed.

Lemma BuildVRN_parses_witness :
  ParseVRN (VRN_String (BuildVRN "security_group" "proj-123" "")) =
    Ok (WildcardVRN "network" "proj-123" "security-group").
Proof.
  assert (BuildVRN "security_group" "proj-123" "" =
          WildcardVRN "network" "proj-123" "security-group") as <- by reflexivity.
  apply (BuildVRN_parses "security_group" "proj-123" ""); vm_compute; reflexivity.
Defined.
