(* ===== verification/Policy.v ===== *)
(** * IAM policies

    The policy evaluator of internal/management/identity (policy_evaluator.go)
    with the condition operators (policy_conditions.go), and its theorems: deny
    overrides allow, the wildcard matcher is the glob relation, and matching
    the printed form of two resource names is [Vrn.Matches]. *)
From S2P Require Import Prelude GoStrings Glob NetIP GoTime Vrn Json.
From Stdlib Require Import Ascii.

(** ** Policy documents *)

(** No two keys of a stored object are equal, also not when case is ignored. *)
Record Statement := mkStatement {
  Sid : string;
  Effect : string;
  Action : json;
  Resource : json;
  Condition : json
}.

Record PolicyDocument := mkDocument {
  Version : string;
  Statements : list Statement
}.

(** [Document] is a JSON object, or [nil]. *)
Record Policy := mkPolicy {
  p_Name : string;
  Document : option (list (string * json))
}.

Section policies.
Context {unicode : UnicodeTables}.

(** Decoding a string field: [null] leaves it, another type is an error. *)
Definition decode_string (j : json) (old : string) : option string :=
  match j with
  | JStr s => Some s
  | JNull => Some old
  | _ => None
  end.

Definition zero_statement : Statement := mkStatement "" "" JNull JNull JNull.

(** One member of a statement object: the field with that name, or else the
    field whose name it is but for case; other members are skipped. *)
Definition decode_member (st : option Statement) (kv : string * json) : option Statement :=
  let '(k, j) := kv in
  match st with
  | None => None
  | Some s =>
      if EqualFold k "Sid" then
        (λ x, mkStatement x (Effect s) (Action s) (Resource s) (Condition s))
          <$> decode_string j (Sid s)
      else if EqualFold k "Effect" then
        (λ x, mkStatement (Sid s) x (Action s) (Resource s) (Condition s))
          <$> decode_string j (Effect s)
      else if EqualFold k "Action" then
        Some (mkStatement (Sid s) (Effect s) j (Resource s) (Condition s))
      else if EqualFold k "Resource" then
        Some (mkStatement (Sid s) (Effect s) (Action s) j (Condition s))
      else if EqualFold k "Condition" then
        Some (mkStatement (Sid s) (Effect s) (Action s) (Resource s) j)
      else Some s
  end.

Definition decode_statement (j : json) : option Statement :=
  match j with
  | JObj m => fold_left decode_member m (Some zero_statement)
  | JNull => Some zero_statement
  | _ => None
  end.

Definition decode_doc_member (d : option PolicyDocument) (kv : string * json)
    : option PolicyDocument :=
  let '(k, j) := kv in
  match d with
  | None => None
  | Some d =>
      if EqualFold k "Version" then
        (λ v, mkDocument v (Statements d)) <$> decode_string j (Version d)
      else if EqualFold k "Statement" then
        match j with
        | JArr l => mkDocument (Version d) <$> mapM decode_statement l
        | JNull => Some (mkDocument (Version d) [])
        | _ => None
        end
      else Some d
  end.

(** Encoding a policy's document and decoding it as a [PolicyDocument]. *)
Definition decode_document (p : Policy) : option PolicyDocument :=
  match Document p with
  | None => Some (mkDocument "" [])
  | Some m => fold_left decode_doc_member m (Some (mkDocument "" []))
  end.

(** ** Conditions *)

(** The maps of the context are absent when they are [nil]. *)
Record RequestContext := mkContext {
  SourceIP : string;
  CurrentTime : Time;
  UserAgent : string;
  IsSecure : bool;
  Username : string;
  UserID : string;
  ctx_ProjectID : string;
  Tags : option (gmap string string);
  Extra : option (gmap string string)
}.

Definition ConditionBlock : Type := list (string * list (string * json)).

(** [m[k]] of a map from strings to strings that may be nil. *)
Definition tag_value (m : option (gmap string string)) (k : string) : option string :=
  match m with
  | Some m => Some (default "" (m !! k))
  | None => None
  end.

Definition conditionKeyResolver (key : string) (ctx : RequestContext) : string :=
  if bool_decide (key ∈ ["vc:SourceIp"; "aws:SourceIp"]) then SourceIP ctx
  else if bool_decide (key ∈ ["vc:CurrentTime"; "aws:CurrentTime"]) then
    FormatRFC3339 (CurrentTime ctx)
  else if decide (key = "vc:UserAgent") then UserAgent ctx
  else if decide (key = "vc:SecureTransport") then if IsSecure ctx then "true" else "false"
  else if bool_decide (key ∈ ["vc:Username"; "vc:PrincipalName"]) then Username ctx
  else if decide (key = "vc:UserId") then UserID ctx
  else if bool_decide (key ∈ ["vc:ProjectId"; "vc:TenantId"]) then ctx_ProjectID ctx
  else
    let extra :=
      match Extra ctx with
      | Some m => default "" (m !! key)
      | None => ""
      end in
    let resource_tag :=
      if HasPrefix key "vc:ResourceTag/" then
        default extra (tag_value (Tags ctx) (str_drop (str_len "vc:ResourceTag/") key))
      else extra in
    if HasPrefix key "vc:RequestTag/" then
      default resource_tag (tag_value (Tags ctx) (str_drop (str_len "vc:RequestTag/") key))
    else resource_tag.

Definition normalizeValues (v : json) : list string :=
  match v with
  | JStr s => [s]
  | JArr l => omap (λ j, match j with JStr s => Some s | _ => None end) l
  | _ => []
  end.

Definition stringEquals (actual : string) (expected : list string) (ignoreCase : bool) : bool :=
  existsb (λ e, if ignoreCase then EqualFold actual e else bool_decide (actual = e)) expected.

Fixpoint all_stars (p : string) : bool :=
  match p with
  | EmptyString => true
  | String c p => bool_decide (c = "*"%char) && all_stars p
  end.

(** Whether [f] accepts some rest of the text, the empty one included. *)
Fixpoint any_rest (f : string → bool) (text : string) : bool :=
  f text || match text with
            | EmptyString => false
            | String _ text => any_rest f text
            end.

(** [deepWildcard] on the rests of the pattern and of the text from the indices
    [pi] and [ti]. *)
Fixpoint deepWildcard (pattern text : string) : bool :=
  match pattern with
  | EmptyString => bool_decide (text = EmptyString)
  | String c pattern' =>
      match text with
      | EmptyString => all_stars pattern
      | String d text' =>
          if decide (c = "*"%char) then any_rest (deepWildcard pattern') text
          else if decide (c = "?"%char) then deepWildcard pattern' text'
          else bool_decide (c = d) && deepWildcard pattern' text'
      end
  end.

Definition wildcardMatch (pattern value : string) : bool :=
  if decide (pattern = "*") then true else deepWildcard pattern value.

Definition stringLike (actual : string) (patterns : list string) : bool :=
  existsb (λ p, wildcardMatch p actual) patterns.

Inductive date_op := OpEq | OpNe | OpLt | OpLe | OpGt | OpGe.

Definition date_test (op : date_op) (actual expected : Time) : bool :=
  match op with
  | OpEq => Time_Equal actual expected
  | OpNe => negb (Time_Equal actual expected)
  | OpLt => Time_Before actual expected
  | OpLe => negb (Time_After actual expected)
  | OpGt => Time_After actual expected
  | OpGe => negb (Time_Before actual expected)
  end.

Definition dateCompare (actual : string) (expected : list string) (op : date_op) : bool :=
  match ParseRFC3339 actual with
  | None => false
  | Some actualTime =>
      existsb (λ e, match ParseRFC3339 e with
                    | Some expTime => date_test op actualTime expTime
                    | None => false
                    end) expected
  end.

Definition ipInCIDR (sourceIP : string) (cidrs : list string) : bool :=
  match ParseIP sourceIP with
  | None => false
  | Some ip =>
      existsb (λ cidr,
        if negb (str_mem "/" cidr) then bool_decide (sourceIP = cidr)
        else match ParseCIDR cidr with
             | Some (_, network) => Contains network ip
             | None => false
             end) cidrs
  end.

Definition boolEquals (actual : string) (expected : list string) : bool :=
  existsb (EqualFold actual) expected.

Definition nullCheck (actual : string) (expected : list string) : bool :=
  existsb (λ e, Bool.eqb (EqualFold e "true") (bool_decide (actual = ""))) expected.

Definition evaluateOperator (operator actual : string) (expected : list string) : bool :=
  if decide (operator = "StringEquals") then stringEquals actual expected false
  else if decide (operator = "StringNotEquals") then negb (stringEquals actual expected false)
  else if decide (operator = "StringEqualsIgnoreCase") then stringEquals actual expected true
  else if decide (operator = "StringNotEqualsIgnoreCase") then
    negb (stringEquals actual expected true)
  else if decide (operator = "StringLike") then stringLike actual expected
  else if decide (operator = "StringNotLike") then negb (stringLike actual expected)
  else if decide (operator = "DateEquals") then dateCompare actual expected OpEq
  else if decide (operator = "DateNotEquals") then dateCompare actual expected OpNe
  else if decide (operator = "DateLessThan") then dateCompare actual expected OpLt
  else if decide (operator = "DateLessThanEquals") then dateCompare actual expected OpLe
  else if decide (operator = "DateGreaterThan") then dateCompare actual expected OpGt
  else if decide (operator = "DateGreaterThanEquals") then dateCompare actual expected OpGe
  else if decide (operator = "IpAddress") then ipInCIDR actual expected
  else if decide (operator = "NotIpAddress") then negb (ipInCIDR actual expected)
  else if decide (operator = "Bool") then boolEquals actual expected
  else if decide (operator = "Null") then nullCheck actual expected
  else false.

Definition evaluateConditions (conditions : ConditionBlock) (ctx : option RequestContext) : bool :=
  match ctx with
  | None => (length conditions =? 0)%nat
  | Some ctx =>
      forallb (λ ok, forallb (λ kv,
        evaluateOperator ok.1 (conditionKeyResolver kv.1 ctx) (normalizeValues kv.2)) ok.2)
        conditions
  end.

Definition parseConditionBlock (raw : json) : option ConditionBlock :=
  match raw with
  | JObj m => Some (omap (λ kv, match kv.2 with
                                | JObj keyValues => Some (kv.1, keyValues)
                                | _ => None
                                end) m)
  | _ => None
  end.

(** ** Matching *)

Definition matchString (pattern value : string) : bool :=
  if decide (pattern = "*") then true else Match pattern value.

Definition match_ (pattern : json) (value : string) : bool :=
  match pattern with
  | JStr p => matchString p value
  | JArr l => existsb (λ j, match j with JStr s => matchString s value | _ => false end) l
  | _ => false
  end.

Definition matchAction (pattern : json) (action : string) : bool := match_ pattern action.

Definition matchVRNComponent (pattern value : string) : bool :=
  if decide (pattern = "*") then true
  else if decide (pattern = value) then true
  else if HasSuffix pattern "*" then
    HasPrefix value (str_take (str_len pattern - 1) pattern)
  else false.

Definition matchVRNResourcePart (pattern value : string) : bool :=
  if bool_decide (pattern = "*") || bool_decide (pattern = "*/*") then true
  else
    match IndexByte pattern "/", IndexByte value "/" with
    | Some pSlash, Some vSlash =>
        matchVRNComponent (str_take pSlash pattern) (str_take vSlash value)
        && matchVRNComponent (str_drop (S pSlash) pattern) (str_drop (S vSlash) value)
    | _, _ => Match pattern value
    end.

Definition matchVRN (pattern value : string) : bool :=
  match SplitN pattern ":" 5, SplitN value ":" 5 with
  | [p0; p1; p2; p3; p4], [v0; v1; v2; v3; v4] =>
      matchVRNComponent p0 v0 && matchVRNComponent p1 v1
      && matchVRNComponent p2 v2 && matchVRNComponent p3 v3
      && matchVRNResourcePart p4 v4
  | _, _ => bool_decide (pattern = value)
  end.

Definition matchResourceString (pattern value : string) : bool :=
  if decide (pattern = "*") then true
  else if HasPrefix pattern "vrn:" && HasPrefix value "vrn:" then matchVRN pattern value
  else Match pattern value.

Definition matchResource (pattern : json) (resource : string) : bool :=
  match pattern with
  | JStr p => matchResourceString p resource
  | JArr l =>
      existsb (λ j, match j with JStr s => matchResourceString s resource | _ => false end) l
  | _ => false
  end.

(** ** Evaluation *)

(** The condition of a statement: absent, malformed, or a block to evaluate. *)
Definition conditionMatch (stmt : Statement) (ctx : option RequestContext) : bool :=
  match Condition stmt with
  | JNull => true
  | raw =>
      match parseConditionBlock raw with
      | Some condBlock => evaluateConditions condBlock ctx
      | None => true
      end
  end.

(** The loop over the statements of a document: [None] is the early return on
    an explicit Deny, otherwise whether an Allow was seen. *)
Fixpoint eval_statements (stmts : list Statement) (action resource : string)
    (ctx : option RequestContext) (allowed : bool) : option bool :=
  match stmts with
  | [] => Some allowed
  | stmt :: stmts =>
      if negb (matchAction (Action stmt) action) || negb (matchResource (Resource stmt) resource)
      then eval_statements stmts action resource ctx allowed
      else if negb (conditionMatch stmt ctx)
      then eval_statements stmts action resource ctx allowed
      else if decide (Effect stmt = "Deny") then None
      else if decide (Effect stmt = "Allow")
      then eval_statements stmts action resource ctx true
      else eval_statements stmts action resource ctx allowed
  end.

Fixpoint eval_policies (policies : list Policy) (action resource : string)
    (ctx : option RequestContext) (allowed : bool) : bool :=
  match policies with
  | [] => allowed
  | policy :: policies =>
      match decode_document policy with
      | None => eval_policies policies action resource ctx allowed
      | Some doc =>
          match eval_statements (Statements doc) action resource ctx allowed with
          | None => false
          | Some allowed => eval_policies policies action resource ctx allowed
          end
      end
  end.

Definition EvaluatePoliciesWithContext (policies : list Policy) (action resource : string)
    (ctx : option RequestContext) : bool :=
  eval_policies policies action resource ctx false.

Definition EvaluatePolicies (policies : list Policy) (action resource : string) : bool :=
  EvaluatePoliciesWithContext policies action resource None.



(** ** Deny overrides allow *)

(** The statements of the policies whose document decodes. *)
Definition statements_of (policies : list Policy) : list Statement :=
  concat (Statements <$> omap decode_document policies).

Definition applies (action resource : string) (ctx : option RequestContext)
    (stmt : Statement) : bool :=
  matchAction (Action stmt) action && matchResource (Resource stmt) resource
  && conditionMatch stmt ctx.

Definition grants action resource ctx (stmt : Statement) : bool :=
  applies action resource ctx stmt && bool_decide (Effect stmt = "Allow").

Definition denies action resource ctx (stmt : Statement) : bool :=
  applies action resource ctx stmt && bool_decide (Effect stmt = "Deny").

Lemma eval_statements_spec stmts action resource ctx allowed :
  eval_statements stmts action resource ctx allowed =
  if existsb (denies action resource ctx) stmts then None
  else Some (allowed || existsb (grants action resource ctx) stmts).
Proof.
  revert allowed; induction stmts as [|st stmts IH]; intros allowed; simpl.
  { by rewrite orb_false_r. }
  rewrite !IH. unfold denies, grants, applies.
  destruct (matchAction _ _), (matchResource _ _); simpl; try done.
  destruct (conditionMatch _ _); simpl; [|done].
  case_decide as Hd; [by rewrite bool_decide_eq_true_2|].
  rewrite bool_decide_eq_false_2 by done. simpl.
  case_decide as Ha; [rewrite bool_decide_eq_true_2|rewrite bool_decide_eq_false_2]; try done.
  by rewrite orb_true_r.
Qed.

Lemma eval_policies_spec policies action resource ctx allowed :
  eval_policies policies action resource ctx allowed =
  negb (existsb (denies action resource ctx) (statements_of policies))
  && (allowed || existsb (grants action resource ctx) (statements_of policies)).
Proof.
  unfold statements_of. revert allowed.
  induction policies as [|p ps IH]; intros allowed; simpl; [by rewrite orb_false_r|].
  destruct (decode_document p) as [doc|]; [|apply IH]. simpl.
  rewrite eval_statements_spec, !existsb_app.
  destruct (existsb (denies _ _ _) (Statements doc)); simpl; [done|].
  rewrite IH, orb_assoc. done.
Qed.

Lemma grants_true action resource ctx s :
  grants action resource ctx s = true ↔ applies action resource ctx s = true ∧ Effect s = "Allow".
Proof. unfold grants. by rewrite andb_true_iff, bool_decide_eq_true. Qed.

Lemma denies_true action resource ctx s :
  denies action resource ctx s = true ↔ applies action resource ctx s = true ∧ Effect s = "Deny".
Proof. unfold denies. by rewrite andb_true_iff, bool_decide_eq_true. Qed.

Lemma evaluate_true policies action resource ctx :
  EvaluatePoliciesWithContext policies action resource ctx = true ↔
  (∃ s, s ∈ statements_of policies ∧ applies action resource ctx s = true ∧ Effect s = "Allow") ∧
  ¬ (∃ s, s ∈ statements_of policies ∧ applies action resource ctx s = true ∧ Effect s = "Deny").
Proof.
  unfold EvaluatePoliciesWithContext. rewrite eval_policies_spec, orb_false_l, andb_true_iff.
  rewrite negb_true_iff, <-not_true_iff_false, !existsb_elem.
  setoid_rewrite grants_true. setoid_rewrite denies_true. tauto.
Qed.

(** C1: A request is allowed exactly if some applicable statement of a readable
    policy allows it and no applicable statement denies it; so the order of the
    policies does not matter. *)
Theorem deny_overrides policies policies' action resource ctx :
  policies ≡ₚ policies' →
  EvaluatePoliciesWithContext policies action resource ctx =
    EvaluatePoliciesWithContext policies' action resource ctx ∧
  (EvaluatePoliciesWithContext policies action resource ctx = true ↔
   (∃ s, s ∈ statements_of policies ∧ applies action resource ctx s = true ∧ Effect s = "Allow") ∧
   ¬ (∃ s, s ∈ statements_of policies ∧ applies action resource ctx s = true ∧ Effect s = "Deny")).
Proof.
  intros HP. split; [|apply evaluate_true].
  apply eq_true_iff_eq. rewrite !evaluate_true.
  assert (statements_of policies ≡ₚ statements_of policies') as HS
    by (unfold statements_of; by rewrite HP).
  by setoid_rewrite HS.
Qed.

(** ** Conditions without a context *)

(** The operators of a statement's condition block. *)
Definition unconditional (s : Statement) : bool :=
  match parseConditionBlock (Condition s) with
  | Some block => (length block =? 0)%nat
  | None => true
  end.

Lemma conditionMatch_nil s : conditionMatch s None = unconditional s.
Proof. unfold conditionMatch, unconditional. by destruct (Condition s). Qed.

(** [EvaluatePolicies], which passes no context, decides as if the
    statements with a condition were not there: a Deny with a condition never
    applies. *)
Theorem conditional_ignored policies action resource :
  let relevant s := s ∈ statements_of policies ∧ unconditional s = true ∧
    matchAction (Action s) action = true ∧ matchResource (Resource s) resource = true in
  EvaluatePolicies policies action resource = true ↔
  (∃ s, relevant s ∧ Effect s = "Allow") ∧ ¬ (∃ s, relevant s ∧ Effect s = "Deny").
Proof.
  intros relevant. unfold EvaluatePolicies. rewrite evaluate_true.
  assert (∀ s, s ∈ statements_of policies ∧ applies action resource None s = true ↔ relevant s)
    as Hr.
  { intros s. unfold relevant, applies. rewrite !andb_true_iff, conditionMatch_nil. tauto. }
  setoid_rewrite (assoc (∧)). by setoid_rewrite Hr.
Qed.

(** A condition whose operators are not given as objects is dropped, and
    its statement applies under every context as if it had no condition. *)
Theorem malformed_condition_applies s m ctx :
  Condition s = JObj m → Forall (λ kv, ∀ o, kv.2 ≠ JObj o) m →
  conditionMatch s ctx = true.
Proof.
  intros E Hm. unfold conditionMatch. rewrite E. simpl.
  replace (omap _ m) with (@nil (string * list (string * json))); [by destruct ctx|].
  symmetry. clear E. induction Hm as [|[k v] m Hv _ IH]; [done|]. simpl in *.
  destruct v; try done; by destruct (Hv m0).
Qed.

(** ** Wildcards *)

(** A star stands for any text, a question mark for any one byte. *)
Inductive glob : string → string → Prop :=
| glob_nil : glob "" ""
| glob_star p u t : glob p t → glob (String "*" p) (u +:+ t)
| glob_any p c t : glob p t → glob (String "?" p) (String c t)
| glob_char p c t : c ≠ "*"%char → c ≠ "?"%char → glob p t → glob (String c p) (String c t).

Lemma any_rest_true f t : any_rest f t = true ↔ ∃ u v, t = u +:+ v ∧ f v = true.
Proof.
  induction t as [|c t IH]; simpl; rewrite orb_true_iff, ?IH; split.
  - intros [H|]; [|done]. by exists "", "".
  - intros (u&v&E&H). destruct u; [|done]. rewrite str_app_nil_l in E. subst. by left.
  - intros [H|(u&v&->&H)]; [by exists "", (String c t)|]. by exists (String c u), v.
  - intros (u&v&E&H). destruct u as [|d u]; [rewrite str_app_nil_l in E; subst; by left|].
    rewrite str_app_cons in E. simplify_eq. right. by exists u, v.
Qed.

Lemma all_stars_glob p : all_stars p = true ↔ glob p "".
Proof.
  induction p as [|c p IH]; simpl.
  { split; [constructor|done]. }
  rewrite andb_true_iff, bool_decide_eq_true, IH. split.
  - intros [-> H]. by apply (glob_star p "" "").
  - inversion 1 as [|p' u t Hg E1 E2| |]; subst. destruct u, t; done.
Qed.

Lemma deepWildcard_glob p t : deepWildcard p t = true ↔ glob p t.
Proof.
  revert t; induction p as [|c p IH]; intros t; [|destruct t as [|d t]].
  - simpl. rewrite bool_decide_eq_true. split; [intros ->; constructor|by inversion 1].
  - apply (all_stars_glob (String c p)).
  - cbn [deepWildcard]. case_decide as H1; [|case_decide as H2].
    + subst. rewrite any_rest_true. setoid_rewrite IH. split.
      * intros (u&v&->&H). by constructor.
      * inversion 1; subst; [|done]. eauto.
    + subst. rewrite IH. split; [by constructor|]. by inversion 1.
    + rewrite andb_true_iff, bool_decide_eq_true, IH. split.
      * intros [-> H]. by constructor.
      * by inversion 1.
Qed.

(** C20: [StringLike] accepts a value exactly if one of its patterns matches it
    as a glob. *)
Theorem StringLike_glob actual patterns :
  evaluateOperator "StringLike" actual patterns = true ↔
  ∃ p, p ∈ patterns ∧ glob p actual.
Proof.
  change (stringLike actual patterns = true ↔ ∃ p, p ∈ patterns ∧ glob p actual).
  unfold stringLike. rewrite existsb_elem. setoid_rewrite <-deepWildcard_glob.
  apply exist_proper; intros p. unfold wildcardMatch. case_decide as E; [|done].
  subst. rewrite deepWildcard_glob. split; [|tauto]. intros [? _]. split; [done|].
  rewrite <-(str_app_nil_r actual). apply glob_star, glob_nil.
Qed.

(** ** Resource names *)

Lemma matchVRNResourcePart_app a b c d :
  str_mem "/" a = false → str_mem "/" c = false →
  matchVRNResourcePart (a +:+ String "/" b) (c +:+ String "/" d) =
    matchVRNComponent a c && matchVRNComponent b d.
Proof.
  intros Ha Hc. pose proof (str_cut_app "/" a b Ha) as Ca.
  pose proof (str_cut_app "/" c d Hc) as Cc. unfold matchVRNResourcePart.
  destruct (decide (a +:+ String "/" b = "*")) as [E|E]; [by rewrite E in Ca|].
  rewrite bool_decide_eq_false_2, orb_false_l by done.
  case_bool_decide as E2.
  { rewrite E2 in Ca. vm_compute in Ca. by simplify_eq. }
  rewrite !IndexByte_cut, Ca, Cc. simpl.
  destruct (str_cut_take_drop _ _ _ _ Ca) as [-> ->].
  by destruct (str_cut_take_drop _ _ _ _ Cc) as [-> ->].
Qed.

(** For resource names as the printer writes them, the evaluator's matcher
    on strings and [Matches] of pkg/iam agree. *)
Theorem matchResource_Matches p v :
  printable p → printable v →
  matchResource (JStr (VRN_String p)) (VRN_String v) = Matches p v.
Proof.
  intros Hp Hv. cbn [matchResource]. unfold matchResourceString.
  rewrite decide_False by done.
  replace (HasPrefix (VRN_String p) "vrn:" && HasPrefix (VRN_String v) "vrn:") with true
    by done.
  unfold matchVRN. rewrite !VRN_String_split by done.
  destruct Hp as (Pp&_&_&Tp&_), Hv as (Pv&_&_&Tv&_). rewrite Pp, Pv.
  unfold Matches. change matchVRNComponent with matchComponent.
  replace (matchComponent VRNPrefix VRNPrefix) with true by done.
  replace (matchComponent VRNPartition VRNPartition) with true by done.
  rewrite !andb_true_l, <-!andb_assoc. do 2 f_equal.
  by apply matchVRNResourcePart_app.
Qed.

End policies.

(** ** Witnesses *)

#[local] Existing Instance ascii_only.

Definition allow_instances : Policy := mkPolicy "instances" (Some
  [("Statement", JArr [JObj [("Action", JArr [JStr "vc:compute:*"]); ("Effect", JStr "Allow");
     ("Resource", JStr "vrn:vcstack:compute:proj-1:instance/*")]]);
   ("Version", JStr "2026-03-11")]).

Definition deny_delete : Policy := mkPolicy "no-delete" (Some
  [("Statement", JArr [JObj [("action", JStr "vc:compute:DeleteInstance");
     ("effect", JStr "Deny"); ("resource", JStr "*")]])]).

Lemma deny_overrides_witness :
  let r := "vrn:vcstack:compute:proj-1:instance/i-7" in
  EvaluatePoliciesWithContext [allow_instances; deny_delete] "vc:compute:GetInstance" r None = true ∧
  EvaluatePoliciesWithContext [allow_instances; deny_delete] "vc:compute:DeleteInstance" r None
    = EvaluatePoliciesWithContext [deny_delete; allow_instances] "vc:compute:DeleteInstance" r None ∧
  EvaluatePoliciesWithContext [deny_delete; allow_instances] "vc:compute:DeleteInstance" r None
    = false.
Proof.
  split; [vm_compute; reflexivity|split; [|vm_compute; reflexivity]].
  apply (deny_overrides [allow_instances; deny_delete] [deny_delete; allow_instances]).
  apply Permutation_swap.
Defined.

Lemma malformed_condition_applies_witness :
  conditionMatch
    (mkStatement "" "Allow" (JStr "*") (JStr "*") (JObj [("IpAddress", JStr "10.0.0.0/8")]))
    (Some (mkContext "203.0.113.9" (mkTime 0 0 0) "" false "" "" "" None None)) = true.
Proof.
  apply (malformed_condition_applies _ [("IpAddress", JStr "10.0.0.0/8")]); [reflexivity|].
  apply list.Forall_cons; split; [discriminate|apply list.Forall_nil; exact I].
Defined.

Lemma matchResource_Matches_witness :
  let p := NewVRN "compute" "proj-1" "instance" "web-*" in
  let v := NewVRN "compute" "proj-1" "instance" "web-3" in
  printable p ∧ printable v ∧
  matchResource (JStr "vrn:vcstack:compute:proj-1:instance/web-*")
    "vrn:vcstack:compute:proj-1:instance/web-3" = Matches p v ∧ Matches p v = true.
Proof.
  intros p v.
  assert (printable p) as Hp by (vm_compute; split_and!; (reflexivity || discriminate)).
  assert (printable v) as Hv by (vm_compute; split_and!; (reflexivity || discriminate)).
  split; [exact Hp|split; [exact Hv|split; [|vm_compute; reflexivity]]].
  apply (matchResource_Matches p v Hp Hv).
Defined.
