(* ===== verification/Identity.v ===== *)
(** * The identity service

    internal/management/identity: authorization of users (service.go), groups,
    permission boundaries and effective permissions (groups.go) and the policy
    simulator (access_analytics.go). The theorems relate the simulator to the
    evaluator, say which permissions are effective, and what [Authorize] leaves
    out. *)
From S2P Require Import Prelude GoStrings NetIP GoTime Vrn Json Policy.

(** ** Authorization *)

Record Role := mkRole {
  role_ID : Z;
  role_Permissions : list string;
  role_Policies : list Policy
}.

Record User := mkUser {
  IsAdmin : bool;
  user_Roles : list Role;
  user_Policies : list Policy
}.

Record Group := mkGroup {
  group_Roles : list Role;
  group_Policies : list Policy
}.

Record ServiceAccount := mkServiceAccount {
  sa_Roles : list Role;
  sa_Policies : list Policy
}.

(** The database, as the queries of the service read it: each answers with the
    row and the associations it preloads, or with an error. *)
Class IdentityStore := {
  First_user : Z → result string User;
  First_group : Z → result string Group;
  First_service_account : Z → result string ServiceAccount;
  First_role : Z → result string Role;
  ListUserGroups : Z → result string (list Group);
  GetPermissionBoundary : string → Z → result string Policy
}.

Section service.
Context {unicode : UnicodeTables} {store : IdentityStore}.
Local Open Scope go_scope.

Definition Authorize (userID : Z) (action resource : string) : result string bool :=
  try user <- First_user userID ;
  if IsAdmin user then Ok true
  else
    let allPolicies := user_Policies user ++ concat (role_Policies <$> user_Roles user) in
    Ok (EvaluatePolicies allPolicies action resource).

(** ** Permission boundaries *)

Definition applyBoundary (permissions : list string) (boundary : Policy) : list string :=
  match Document boundary with
  | None => permissions
  | Some _ => filter (λ perm, EvaluatePolicies [boundary] perm "*" = true) permissions
  end.

Definition filterPoliciesByBoundary (policies : list Policy) (boundary : Policy) : list Policy :=
  policies.

(** The permissions of a group's roles; each role is read again, and one that
    cannot be read adds none. *)
Definition group_permissions (groups : list Group) : gset string :=
  ⋃ ((λ role, match First_role (role_ID role) with
              | Ok fullRole => list_to_set (role_Permissions fullRole)
              | Err _ => ∅
              end) <$> concat (group_Roles <$> groups)).

(** The permission set is a Go map, so the list of permissions has its elements
    in an unspecified order. *)
Definition EffectivePermissions (userID : Z) : result string (list string * list Policy) :=
  match First_user userID with
  | Err e => Err ("user not found: " +:+ e)
  | Ok user =>
      let direct : gset string :=
        list_to_set (concat (role_Permissions <$> user_Roles user)) in
      let '(permSet, allPolicies) :=
        match ListUserGroups userID with
        | Ok groups =>
            (direct ∪ group_permissions groups,
             user_Policies user ++ concat (group_Policies <$> groups))
        | Err _ => (direct, user_Policies user)
        end in
      let perms := elements permSet in
      match GetPermissionBoundary "user" userID with
      | Ok boundary =>
          Ok (applyBoundary perms boundary, filterPoliciesByBoundary allPolicies boundary)
      | Err _ => Ok (perms, allPolicies)
      end
  end.

(** ** The policy simulator *)

Record SimulationContext := mkSimContext {
  sim_SourceIP : string;
  sim_Tags : option (gmap string string);
  Timestamp : string
}.

Record SimulateRequest := mkSimulateRequest {
  PrincipalType : string;
  PrincipalID : Z;
  Actions : list string;
  Resources : list string;
  req_Context : option SimulationContext;
  AdditionalPolicies : list Policy
}.

Record SimulationResult := mkSimulation {
  res_Action : string;
  res_Resource : string;
  Decision : string;
  MatchedPolicy : string;
  MatchedEffect : string;
  BoundaryApplied : bool
}.

(** [result.Decision, result.MatchedPolicy, result.MatchedEffect = d, p, e]. *)
Definition decided (result : SimulationResult) (d p e : string) : SimulationResult :=
  mkSimulation (res_Action result) (res_Resource result) d p e (BoundaryApplied result).

(** The statements of one policy: [inl] is the return on an explicit Deny. *)
Fixpoint sim_statements (name : string) (stmts : list Statement) (action resource : string)
    (ctx : option RequestContext) (result : SimulationResult)
    : SimulationResult + SimulationResult :=
  match stmts with
  | [] => inr result
  | stmt :: stmts =>
      if negb (matchAction (Action stmt) action) || negb (matchResource (Resource stmt) resource)
      then sim_statements name stmts action resource ctx result
      else if negb (conditionMatch stmt ctx)
      then sim_statements name stmts action resource ctx result
      else if decide (Effect stmt = "Deny") then inl (decided result "Deny" name "Deny")
      else if decide (Effect stmt = "Allow") then
        sim_statements name stmts action resource ctx (decided result "Allow" name "Allow")
      else sim_statements name stmts action resource ctx result
  end.

Fixpoint sim_policies (policies : list Policy) (action resource : string)
    (ctx : option RequestContext) (result : SimulationResult)
    : SimulationResult + SimulationResult :=
  match policies with
  | [] => inr result
  | policy :: policies =>
      match decode_document policy with
      | None => sim_policies policies action resource ctx result
      | Some doc =>
          match sim_statements (p_Name policy) (Statements doc) action resource ctx result with
          | inl result => inl result
          | inr result => sim_policies policies action resource ctx result
          end
      end
  end.

Definition simulateSingle (policies : list Policy) (action resource : string)
    (ctx : option RequestContext) (boundary : option Policy) : SimulationResult :=
  match sim_policies policies action resource ctx
          (mkSimulation action resource "ImplicitDeny" "" "" false) with
  | inl result => result
  | inr result =>
      match boundary with
      | Some b =>
          if bool_decide (Decision result = "Allow")
             && negb (EvaluatePolicies [b] action resource)
          then mkSimulation action resource "Deny" (p_Name b +:+ " (boundary)") "Deny" true
          else result
      | None => result
      end
  end.

Definition collectPrincipalPolicies (principalType : string) (principalID : Z)
    : result string (list Policy) :=
  if decide (principalType = "user") then
    try user <- First_user principalID ;
    Ok (user_Policies user ++ concat (role_Policies <$> user_Roles user)
        ++ match ListUserGroups principalID with
           | Ok groups => concat (group_Policies <$> groups)
           | Err _ => []
           end)
  else if decide (principalType = "group") then
    try group <- First_group principalID ;
    Ok (group_Policies group ++ concat (role_Policies <$> group_Roles group))
  else if decide (principalType = "service_account") then
    try sa <- First_service_account principalID ;
    Ok (sa_Policies sa ++ concat (role_Policies <$> sa_Roles sa))
  else Err ("unknown principal type: " +:+ principalType).

(** The context of the request; [now] is the time of the call. *)
Definition sim_context (now : Time) (c : SimulationContext) : RequestContext :=
  let ts :=
    if decide (Timestamp c = "") then now
    else default now (ParseRFC3339 (Timestamp c)) in
  mkContext (sim_SourceIP c) ts "" false "" "" "" (sim_Tags c) None.

(** The results of [SimulatePolicies], one for each action and resource. *)
Definition SimulatePolicies (now : Time) (req : SimulateRequest)
    : result string (list SimulationResult) :=
  match collectPrincipalPolicies (PrincipalType req) (PrincipalID req) with
  | Err e => Err ("collect policies: " +:+ e)
  | Ok policies =>
      let policies := policies ++ AdditionalPolicies req in
      let reqCtx := sim_context now <$> req_Context req in
      let boundary :=
        match GetPermissionBoundary (PrincipalType req) (PrincipalID req) with
        | Ok b => Some b
        | Err _ => None
        end in
      Ok (concat ((λ action,
            (λ resource, simulateSingle policies action resource reqCtx boundary)
              <$> Resources req) <$> Actions req))
  end.

(** ** Theorems *)

Lemma sim_statements_spec name stmts action resource ctx result :
  match sim_statements name stmts action resource ctx result with
  | inl r =>
      eval_statements stmts action resource ctx (bool_decide (Decision result = "Allow")) = None ∧
      Decision r = "Deny"
  | inr r =>
      eval_statements stmts action resource ctx (bool_decide (Decision result = "Allow")) =
        Some (bool_decide (Decision r = "Allow")) ∧
      (Decision r = Decision result ∨ Decision r = "Allow")
  end.
Proof.
  revert result; induction stmts as [|st stmts IH]; intros result; simpl; [by split; [|left]|].
  destruct (_ || _); [apply IH|]. destruct (negb _); [apply IH|].
  case_decide as Hd; [done|]. case_decide as Ha; [|apply IH].
  specialize (IH (decided result "Allow" name "Allow")).
  destruct (sim_statements _ _ _ _ _ _); simpl in IH; destruct IH as [-> IH]; [done|].
  split; [done|]. by destruct IH; right.
Qed.

Lemma sim_policies_spec policies action resource ctx result :
  match sim_policies policies action resource ctx result with
  | inl r =>
      eval_policies policies action resource ctx (bool_decide (Decision result = "Allow")) = false ∧
      Decision r = "Deny"
  | inr r =>
      eval_policies policies action resource ctx (bool_decide (Decision result = "Allow")) =
        bool_decide (Decision r = "Allow") ∧
      (Decision r = Decision result ∨ Decision r = "Allow")
  end.
Proof.
  revert result; induction policies as [|p ps IH]; intros result; simpl; [by split; [|left]|].
  destruct (decode_document p) as [doc|]; [|apply IH].
  pose proof (sim_statements_spec (p_Name p) (Statements doc) action resource ctx result) as Hs.
  destruct (sim_statements _ _ _ _ _ _) as [r|r]; destruct Hs as [-> Hr]; [done|].
  specialize (IH r). destruct (sim_policies _ _ _ _ _); destruct IH as [-> IH]; [done|].
  split; [done|]. destruct IH as [->|]; tauto.
Qed.

(** C29: The simulator says Allow for exactly the requests that the evaluator
    allows under the same context and, when there is a boundary, that the
    boundary policy allows too; otherwise it says Deny or ImplicitDeny. *)
Theorem simulator_agrees policies action resource ctx boundary :
  let r := simulateSingle policies action resource ctx boundary in
  (Decision r = "Allow" ↔
   EvaluatePoliciesWithContext policies action resource ctx = true ∧
   match boundary with
   | Some b => EvaluatePolicies [b] action resource = true
   | None => True
   end) ∧
  Decision r ∈ ["Allow"; "Deny"; "ImplicitDeny"].
Proof.
  intros r. unfold r, simulateSingle, EvaluatePoliciesWithContext.
  pose proof (sim_policies_spec policies action resource ctx
    (mkSimulation action resource "ImplicitDeny" "" "" false)) as Hs.
  destruct (sim_policies _ _ _ _ _) as [q|q]; simpl in Hs; destruct Hs as [-> Hq].
  { rewrite Hq. split; [naive_solver|set_solver]. }
  rewrite bool_decide_eq_true.
  assert (Decision q ∈ ["Allow"; "Deny"; "ImplicitDeny"]) as Hin by set_solver.
  destruct boundary as [b|]; [|by split; [tauto|]].
  case_bool_decide as Ha; destruct (EvaluatePolicies [b] action resource); simpl;
    split; set_solver.
Qed.

Lemma elem_of_group_permissions p groups :
  p ∈ group_permissions groups ↔
  ∃ g role full, g ∈ groups ∧ role ∈ group_Roles g ∧
    First_role (role_ID role) = Ok full ∧ p ∈ role_Permissions full.
Proof.
  unfold group_permissions. rewrite elem_of_union_list. setoid_rewrite list_elem_of_fmap.
  setoid_rewrite elem_of_concat. setoid_rewrite list_elem_of_fmap. split.
  - intros (X&(role&->&rs&(g&->&Hg)&Hr)&Hp).
    destruct (First_role (role_ID role)) as [full|] eqn:E; set_solver.
  - intros (g&role&full&Hg&Hr&E&Hp). eexists. split; [exists role; split; [done|]; eauto|].
    rewrite E. set_solver.
Qed.

(** The effective permissions of a user are the permissions of the user's
    roles and of the roles of the user's groups, as far as the boundary policy,
    when it has a document, allows them on every resource. *)
Theorem effective_permissions userID user groups boundary perms policies :
  First_user userID = Ok user → ListUserGroups userID = Ok groups →
  GetPermissionBoundary "user" userID = Ok boundary →
  EffectivePermissions userID = Ok (perms, policies) →
  NoDup perms ∧
  (∀ p, p ∈ perms ↔
    ((∃ role, role ∈ user_Roles user ∧ p ∈ role_Permissions role) ∨
     (∃ g role full, g ∈ groups ∧ role ∈ group_Roles g ∧
        First_role (role_ID role) = Ok full ∧ p ∈ role_Permissions full)) ∧
    (Document boundary = None ∨ EvaluatePolicies [boundary] p "*" = true)) ∧
  policies = user_Policies user ++ concat (group_Policies <$> groups).
Proof.
  intros Hu Hg Hb. unfold EffectivePermissions. rewrite Hu, Hg, Hb.
  unfold applyBoundary, filterPoliciesByBoundary. intros E. simplify_eq.
  assert (∀ p, p ∈ (list_to_set (concat (role_Permissions <$> user_Roles user))
                     ∪ group_permissions groups : gset string) ↔
    (∃ role, role ∈ user_Roles user ∧ p ∈ role_Permissions role) ∨
    (∃ g role full, g ∈ groups ∧ role ∈ group_Roles g ∧
        First_role (role_ID role) = Ok full ∧ p ∈ role_Permissions full)) as Hset.
  { intros p. rewrite elem_of_union, elem_of_group_permissions, elem_of_list_to_set.
    rewrite elem_of_concat. setoid_rewrite list_elem_of_fmap. naive_solver. }
  split_and!; [|intros p; rewrite <-Hset|done].
  - destruct (Document boundary); [apply list.NoDup_filter|]; apply NoDup_elements.
  - destruct (Document boundary); rewrite ?list_elem_of_filter, elem_of_elements; naive_solver.
Qed.

End service.

(** ** Where authorization and simulation differ *)

Definition document (stmts : list json) : option (list (string * json)) :=
  Some [("Statement", JArr stmts)].

Definition statement (effect action : string) (condition : json) : json :=
  JObj [("Action", JStr action); ("Condition", condition); ("Effect", JStr effect);
        ("Resource", JStr "*")].

Definition full_access : Policy :=
  mkPolicy "full" (document [statement "Allow" "*" JNull]).
Definition read_only : Policy :=
  mkPolicy "read-only" (document [statement "Allow" "vc:compute:Get*" JNull]).
Definition deny_outside : Policy :=
  mkPolicy "deny-outside" (document [statement "Deny" "*"
    (JObj [("NotIpAddress", JObj [("vc:SourceIp", JStr "10.0.0.0/8")])])]).

(** User 1 has full access within a read-only boundary; user 2 has it denied
    outside a network and by a group; every other row is missing. *)
Definition example_store : IdentityStore := {|
  First_user id :=
    if (id =? 1)%Z then Ok (mkUser false [mkRole 7 ["compute:get"; "compute:delete"] []] [full_access])
    else if (id =? 2)%Z then Ok (mkUser false [] [full_access; deny_outside])
    else Err "record not found";
  First_group _ := Err "record not found";
  First_service_account _ := Err "record not found";
  First_role id := if (id =? 8)%Z then Ok (mkRole 8 ["vc:compute:GetInstance"] [])
                   else Err "record not found";
  ListUserGroups id :=
    if (id =? 1)%Z then Ok [mkGroup [mkRole 8 [] []] []]
    else if (id =? 2)%Z then
      Ok [mkGroup [] [mkPolicy "group-deny" (document [statement "Deny" "vc:kms:*" JNull])]]
    else Ok [];
  GetPermissionBoundary t id :=
    if bool_decide (t = "user") && (id =? 1)%Z then Ok read_only else Err "record not found"
|}.

#[local] Existing Instances ascii_only example_store.

(** The decisions of the simulator for one action on every resource. *)
Definition simulated (user : Z) (action : string) (ctx : option SimulationContext)
    : list string :=
  match SimulatePolicies (mkTime 0 0 0)
          (mkSimulateRequest "user" user [action] ["*"] ctx []) with
  | Ok rs => Decision <$> rs
  | Err e => [e]
  end.

(** [Authorize] leaves out the permission boundary, the policies of the
    user's groups and the conditional Deny statements: in each of the three
    cases it allows a request that the simulator reports as denied. *)
Theorem authorize_differs :
  let outside := Some (mkSimContext "203.0.113.9" None "") in
  (Authorize 1 "vc:compute:DeleteInstance" "*" = Ok true ∧
   simulated 1 "vc:compute:DeleteInstance" None = ["Deny"]) ∧
  (Authorize 2 "vc:kms:Decrypt" "*" = Ok true ∧ simulated 2 "vc:kms:Decrypt" None = ["Deny"]) ∧
  (Authorize 2 "vc:compute:DeleteInstance" "*" = Ok true ∧
   simulated 2 "vc:compute:DeleteInstance" outside = ["Deny"]).
Proof. vm_compute. repeat split. Qed.

Lemma effective_permissions_witness :
  EffectivePermissions 1 = Ok (["vc:compute:GetInstance"], [full_access]) ∧
  NoDup ["vc:compute:GetInstance"].
Proof.
  assert (EffectivePermissions 1 = Ok (["vc:compute:GetInstance"], [full_access])) as E
    by (vm_compute; reflexivity).
  split; [exact E|].
  refine (proj1 (effective_permissions 1
    (mkUser false [mkRole 7 ["compute:get"; "compute:delete"] []] [full_access])
    [mkGroup [mkRole 8 [] []] []] read_only _ _ _ _ _ E)); reflexivity.
Defined.
