(* ===== verification/Throttle.v ===== *)
(** * The login throttle

    [loginThrottle] of internal/management/identity/service.go and the part of
    [Login] that uses it. Each method runs under the mutex, so it is one step;
    its time is an argument. The theorems bound the failing password checks of
    one name in any interval as long as the lockout, for logins that do not
    overlap, and show that overlapping logins escape the bound. *)
From S2P Require Import Prelude GoStrings.
Local Open Scope Z_scope.

Record loginAttempts := mkAttempts {
  count : Z;
  firstAt : Z
}.

Record loginThrottle := mkThrottle {
  failures : gmap string loginAttempts;
  maxFailures : Z;
  lockout : Z
}.

Definition newLoginThrottle : loginThrottle := mkThrottle ∅ 5 (15 * minute).

Definition set_failures (lt : loginThrottle) (m : gmap string loginAttempts) : loginThrottle :=
  mkThrottle m (maxFailures lt) (lockout lt).

(** The body of the background loop, run every five minutes. *)
Definition cleanup (now : Z) (lt : loginThrottle) : loginThrottle :=
  set_failures lt
    (filter (λ kv, ¬ (lockout lt < time_sub now (firstAt kv.2))) (failures lt)).

Definition check (now : Z) (lt : loginThrottle) (username : string)
    : (bool * Z) * loginThrottle :=
  match failures lt !! username with
  | None => ((false, 0), lt)
  | Some a =>
      let elapsed := time_sub now (firstAt a) in
      if lockout lt <? elapsed then
        ((false, 0), set_failures lt (delete username (failures lt)))
      else if maxFailures lt <=? count a then ((true, lockout lt - elapsed), lt)
      else ((false, 0), lt)
  end.

Definition recordFailure (now : Z) (lt : loginThrottle) (username : string) : loginThrottle :=
  let fresh := set_failures lt (<[username := mkAttempts 1 now]> (failures lt)) in
  match failures lt !! username with
  | None => fresh
  | Some a =>
      if lockout lt <? time_sub now (firstAt a) then fresh
      else set_failures lt (<[username := mkAttempts (count a + 1) (firstAt a)]> (failures lt))
  end.

Definition clear (lt : loginThrottle) (username : string) : loginThrottle :=
  set_failures lt (delete username (failures lt)).

(** What [Login] does up to the end of the password check: it is refused with
    the remaining lockout, or the password is checked and the answer recorded.
    [ok] is the answer of [authenticateUser]. *)
Inductive login_result := Throttled (remaining : Z) | InvalidCredentials | Authenticated.

Definition Login_password (now : Z) (lt : loginThrottle) (username : string) (ok : bool)
    : login_result * loginThrottle :=
  let '((blocked, remaining), lt) := check now lt username in
  if blocked then (Throttled remaining, lt)
  else if ok then (Authenticated, clear lt username)
  else (InvalidCredentials, recordFailure now lt username).

(** ** Histories *)

(** A login of a user, or a turn of the cleanup loop. *)
Inductive event := Login (at_ : Z) (username : string) (ok : bool) | Cleanup (at_ : Z).

Definition event_time (e : event) : Z :=
  match e with Login t _ _ => t | Cleanup t => t end.

Definition step (lt : loginThrottle) (e : event) : loginThrottle :=
  match e with
  | Login t u ok => (Login_password t lt u ok).2
  | Cleanup t => cleanup t lt
  end.

(** Whether the event has the password of [u] checked between [a] and [b]. *)
Definition checks (u : string) (a b : Z) (lt : loginThrottle) (e : event) : Z :=
  match e with
  | Login t v ok =>
      if bool_decide (u = v) && (a <=? t) && (t <=? b)
         && negb (check t lt v).1.1 then 1 else 0
  | Cleanup _ => 0
  end.

(** The number of password checks of [u] in the interval. *)
Fixpoint checked (u : string) (a b : Z) (lt : loginThrottle) (es : list event) : Z :=
  match es with
  | [] => 0
  | e :: es => checks u a b lt e + checked u a b (step lt e) es
  end.

Definition guesses_only (u : string) (e : event) : bool :=
  match e with
  | Login _ v ok => negb (bool_decide (u = v) && ok)
  | Cleanup _ => true
  end.

(** ** Theorems *)

Lemma time_sub_gt t u d : 0 <= d < max_duration → (d <? time_sub t u) = (d <? t - u).
Proof. unfold time_sub, min_duration, max_duration. lia. Qed.

Lemma step_config lt e :
  maxFailures (step lt e) = maxFailures lt ∧ lockout (step lt e) = lockout lt.
Proof.
  destruct e as [t v ok|t]; [|done]. simpl. unfold Login_password, check.
  destruct (failures lt !! v) as [x|]; [|by destruct ok; unfold recordFailure; case_goal].
  destruct (_ <? _); [by destruct ok; unfold recordFailure; case_goal|].
  destruct (_ <=? _); [done|]. by destruct ok; unfold recordFailure; case_goal.
Qed.

(** ** The entry of one user *)

(** The entry of [u] after an event that is not a correct login of [u]. *)
Definition entry_step (u : string) (max lock : Z) (s : option loginAttempts) (e : event)
    : option loginAttempts :=
  match e with
  | Login t v _ =>
      if decide (u = v) then
        match s with
        | None => Some (mkAttempts 1 t)
        | Some x =>
            if lock <? time_sub t (firstAt x) then Some (mkAttempts 1 t)
            else if max <=? count x then Some x
            else Some (mkAttempts (count x + 1) (firstAt x))
        end
      else s
  | Cleanup t =>
      match s with
      | Some x => if lock <? time_sub t (firstAt x) then None else Some x
      | None => None
      end
  end.

Lemma cleanup_entry u t lt :
  failures (cleanup t lt) !! u =
  entry_step u (maxFailures lt) (lockout lt) (failures lt !! u) (Cleanup t).
Proof.
  simpl. rewrite map_lookup_filter. destruct (failures lt !! u) as [x|]; [|done]. simpl.
  destruct (Z.ltb_spec (lockout lt) (time_sub t (firstAt x))).
  - by rewrite option_guard_False by tauto.
  - by rewrite option_guard_True by lia.
Qed.

Lemma step_entry_other u v t ok lt :
  u ≠ v → failures (step lt (Login t v ok)) !! u = failures lt !! u.
Proof.
  intros Hne. simpl. unfold Login_password, check.
  destruct (failures lt !! v) as [x|] eqn:E; [|destruct ok; unfold recordFailure];
    repeat match goal with |- context [if ?b then _ else _] => destruct b end; simpl;
    unfold recordFailure; rewrite ?E; simpl;
    repeat match goal with |- context [if ?b then _ else _] => destruct b end; simpl;
    by simplify_map_eq.
Qed.

Lemma step_entry u lt e :
  guesses_only u e = true →
  failures (step lt e) !! u =
  entry_step u (maxFailures lt) (lockout lt) (failures lt !! u) e.
Proof.
  destruct e as [t v ok|t]; [|intros _; apply cleanup_entry]. intros H.
  destruct (decide (u = v)) as [<-|Hne].
  - simpl in H. rewrite bool_decide_eq_true_2 in H by done. destruct ok; [done|].
    simpl. rewrite decide_True by done. unfold Login_password, check.
    destruct (failures lt !! u) as [x|] eqn:E.
    + destruct (_ <? _) eqn:El; simpl.
      { unfold recordFailure. simpl. by simplify_map_eq. }
      destruct (_ <=? _); [done|]. unfold recordFailure. rewrite E, El. simpl.
      by simplify_map_eq.
    + unfold recordFailure. rewrite E. simpl. by simplify_map_eq.
  - rewrite step_entry_other by done. simpl. by rewrite decide_False.
Qed.

Lemma checks_entry u a b lt e :
  checks u a b lt e =
  match e with
  | Login t v _ =>
      if bool_decide (u = v) && (a <=? t) && (t <=? b)
         && match failures lt !! u with
            | Some x => (lockout lt <? time_sub t (firstAt x)) || (count x <? maxFailures lt)
            | None => true
            end then 1 else 0
  | Cleanup _ => 0
  end.
Proof.
  destruct e as [t v ok|]; [|done]. simpl. case_bool_decide as E; [subst|done].
  unfold check. destruct (failures lt !! v) as [x|]; [|done].
  destruct (_ <? time_sub _ _); [done|]. simpl. rewrite Z.ltb_antisym.
  by destruct (_ <=? count x).
Qed.

(** ** The bound *)

Section bound.
Context (u : string) (a max lock : Z).

(** What is known after [n] checks from [a] on, the last event being at [t];
    [s] is the entry of the user. *)
Definition bound_inv (n t : Z) (s : option loginAttempts) : Prop :=
  (t < a → n = 0) ∧
  (match s with
  | None => 0 <= n <= max - 1
  | Some e =>
      1 <= count e <= max ∧ 0 <= n ∧
      (firstAt e < a ∧ n <= count e - 1 ∨ a <= firstAt e ∧ n <= max - 1 + count e)
  end ∨
  a + lock < t ∧ 0 <= n <= 2 * max - 1 ∧
    match s with None => True | Some e => 1 <= count e <= max end).

Lemma bound_inv_total n t s : 1 <= max → bound_inv n t s → n <= 2 * max - 1.
Proof. unfold bound_inv. destruct s; lia. Qed.

Lemma bound_inv_step lt t n e :
  1 <= max → 0 <= lock < max_duration → maxFailures lt = max → lockout lt = lock →
  t <= event_time e →
  bound_inv n t (failures lt !! u) →
  bound_inv (n + checks u a (a + lock) lt e) (event_time e)
    (entry_step u max lock (failures lt !! u) e).
Proof.
  intros Hmax Hlock Hm Hl Ht Hinv. rewrite checks_entry, Hm, Hl. unfold bound_inv in *.
  destruct e as [t' v ok|t']; simpl in *.
  - case_bool_decide as E; [rewrite decide_True by done|rewrite decide_False by done]; simpl;
      [|destruct (failures lt !! u); lia].
    destruct (failures lt !! u) as [x|]; simpl; [|destruct (a <=? t') eqn:?, (t' <=? _) eqn:?; simpl; lia].
    rewrite time_sub_gt, (Z.ltb_antisym max (count x)) by done.
    destruct (lock <? _) eqn:?, (max <=? count x) eqn:?, (a <=? t') eqn:?, (t' <=? _) eqn:?;
      simpl; lia.
  - destruct (failures lt !! u) as [x|]; simpl; [|lia].
    rewrite time_sub_gt by done. destruct (_ <? _) eqn:?; simpl; lia.
Qed.

Lemma checked_bound lt t n es :
  1 <= max → 0 <= lock < max_duration → maxFailures lt = max → lockout lt = lock →
  Sorted Z.le (t :: map event_time es) → forallb (guesses_only u) es = true →
  bound_inv n t (failures lt !! u) →
  n + checked u a (a + lock) lt es <= 2 * max - 1.
Proof.
  intros Hmax Hlock. revert lt t n.
  induction es as [|e es IH]; intros lt t n Hm Hl Hs Hg Hinv; simpl in *.
  { pose proof (bound_inv_total n t _ Hmax Hinv). lia. }
  apply Sorted_inv in Hs as [Hs Hd]. apply HdRel_inv in Hd. zbool.
  destruct (step_config lt e) as [Hm' Hl'].
  rewrite Z.add_assoc. apply (IH _ (event_time e)); try congruence; try done.
  rewrite step_entry by done. rewrite Hm, Hl. by apply (bound_inv_step lt t).
Qed.
End bound.

(** C28: When the logins of a name do not overlap and none has the right
    password, at most [2 * maxFailures - 1] of them are checked against the
    password in any interval as long as the lockout, whatever other users and
    the cleanup loop do. *)
Theorem guesses_bounded u es a :
  Sorted Z.le (map event_time es) → forallb (guesses_only u) es = true →
  checked u a (a + lockout newLoginThrottle) newLoginThrottle es <= 9.
Proof.
  intros Hs Hg. set (t := match es with [] => 0 | e :: _ => event_time e end).
  assert (Sorted Z.le (t :: map event_time es)) as Hs'.
  { constructor; [done|]. destruct es; constructor. by unfold t. }
  pose proof (checked_bound u a 5 (15 * minute) newLoginThrottle t 0 es) as H.
  simpl in H. apply H; try done. split; [done|]. left. simpl. rewrite lookup_empty. lia.
Qed.

(** Nine guesses within a second, the first four just before the window of an
    earlier one ends. *)
Lemma guesses_bounded_witness :
  let at_ t := Login t "root" false in
  let late := 15 * minute in
  let es := at_ 0 :: repeat (at_ late) 5 ++ repeat (at_ (late + 1)) 6 in
  checked "root" 1 (1 + late) newLoginThrottle es = 9 ∧
  checked "root" 1 (1 + late) newLoginThrottle es <= 9.
Proof.
  intros at_ late es. split; [vm_compute; reflexivity|].
  apply (guesses_bounded "root" es 1); [|vm_compute; reflexivity].
  vm_compute. repeat constructor; discriminate.
Defined.

(** A login split at its critical sections: the check, and what follows the
    password check. The requests that passed the check are counted. *)
Inductive half := Enter (at_ : Z) | Fails (at_ : Z).

Definition half_step (u : string) (st : loginThrottle * nat) (h : half) : loginThrottle * nat :=
  let '(lt, passed) := st in
  match h with
  | Enter t => let '((blocked, _), lt) := check t lt u in (lt, if blocked then passed else S passed)
  | Fails t => (recordFailure t lt u, passed)
  end.

Lemma enter_all u t n k :
  fold_left (half_step u) (repeat (Enter t) n) (newLoginThrottle, k) = (newLoginThrottle, (n + k)%nat).
Proof.
  revert k; induction n as [|n IH]; intros k; [done|].
  change (fold_left (half_step u) (repeat (Enter t) n) (newLoginThrottle, S k)
    = (newLoginThrottle, (S n + k)%nat)).
  by rewrite IH, Nat.add_succ_r.
Qed.

Lemma fail_all u t n k lt x :
  failures lt !! u = Some x → firstAt x = t → 0 <= lockout lt →
  let '(lt', k') := fold_left (half_step u) (repeat (Fails t) n) (lt, k) in
  k' = k ∧ failures lt' !! u = Some (mkAttempts (count x + Z.of_nat n) t).
Proof.
  revert lt x; induction n as [|n IH]; intros lt x E Hx Hl.
  { simpl. split; [done|]. rewrite E, Z.add_0_r, <-Hx. by destruct x. }
  cbn [repeat fold_left half_step].
  assert (recordFailure t lt u =
    set_failures lt (<[u:=mkAttempts (count x + 1) t]> (failures lt))) as ->.
  { unfold recordFailure. rewrite E, Hx. rewrite (proj2 (Z.ltb_ge _ _)); [done|].
    unfold time_sub, min_duration, max_duration. lia. }
  specialize (IH (set_failures lt (<[u:=mkAttempts (count x + 1) t]> (failures lt)))
    (mkAttempts (count x + 1) t)).
  destruct (fold_left _ _ _) as [lt' k'].
  destruct IH as [-> ->]; [by apply lookup_insert_eq|done|done|].
  split; [done|]. do 2 f_equal. simpl. lia.
Qed.

(** The bound needs logins that do not overlap: any number of logins can
    pass the check at one instant before a failure is recorded, and all of
    their failures are then counted, beyond [maxFailures]. *)
Theorem overlapping_guesses_unbounded n u t :
  let '(lt, passed) :=
    fold_left (half_step u) (repeat (Enter t) (S n) ++ repeat (Fails t) (S n))
      (newLoginThrottle, O) in
  passed = S n ∧ failures lt !! u = Some (mkAttempts (Z.of_nat (S n)) t).
Proof.
  rewrite fold_left_app, enter_all, Nat.add_0_r.
  change (repeat (Fails t) (S n)) with (Fails t :: repeat (Fails t) n). simpl fold_left.
  set (lt := recordFailure t newLoginThrottle u).
  pose proof (fail_all u t n (S n) lt (mkAttempts 1 t)) as H.
  destruct (fold_left _ _ _) as [lt' k]. destruct H as [-> ->]; [|done|done|].
  - unfold lt, recordFailure. simpl. apply lookup_insert_eq.
  - split; [done|]. do 2 f_equal. simpl. lia.
Qed.
