(* ===== verification/Actions.v ===== *)
(** * The action registry

    pkg/iam/actions.go: the table of permissions in the legacy format
    "resource:action" and in the new format "vc:service:Action", with the
    action constants written out, and its two lookup maps. *)
From S2P Require Import Prelude.

Record ActionMapping := mkAction {
  Legacy : string;
  New : string;
  am_Resource : string;
  am_Action : string;
  am_Description : string
}.

#[global] Instance ActionMapping_eq_dec : EqDecision ActionMapping.
Proof. solve_decision. Defined.

(** The first and the second half of the table. *)
Definition Registry_1 : list ActionMapping :=
  [mkAction "compute:list" "vc:compute:ListInstances" "compute" "list" "List instances";
   mkAction "compute:get" "vc:compute:GetInstance" "compute" "get" "View instance details";
   mkAction "compute:create" "vc:compute:CreateInstance" "compute" "create" "Create instances";
   mkAction "compute:update" "vc:compute:UpdateInstance" "compute" "update" "Update instances";
   mkAction "compute:delete" "vc:compute:DeleteInstance" "compute" "delete" "Delete instances";
   mkAction "compute:start" "vc:compute:StartInstance" "compute" "start" "Start instances";
   mkAction "compute:stop" "vc:compute:StopInstance" "compute" "stop" "Stop instances";
   mkAction "compute:reboot" "vc:compute:RebootInstance" "compute" "reboot" "Reboot instances";
   mkAction "compute:console" "vc:compute:GetConsole" "compute"
     "console" "Access instance console";
   mkAction "flavor:list" "vc:compute:ListFlavors" "flavor" "list" "List flavors";
   mkAction "flavor:create" "vc:compute:CreateFlavor" "flavor" "create" "Create flavors";
   mkAction "flavor:delete" "vc:compute:DeleteFlavor" "flavor" "delete" "Delete flavors";
   mkAction "image:list" "vc:image:ListImages" "image" "list" "List images";
   mkAction "image:get" "vc:image:GetImage" "image" "get" "View image details";
   mkAction "image:create" "vc:image:CreateImage" "image" "create" "Upload images";
   mkAction "image:update" "vc:image:UpdateImage" "image" "update" "Update images";
   mkAction "image:delete" "vc:image:DeleteImage" "image" "delete" "Delete images";
   mkAction "volume:list" "vc:storage:ListVolumes" "volume" "list" "List volumes";
   mkAction "volume:get" "vc:storage:GetVolume" "volume" "get" "View volume details";
   mkAction "volume:create" "vc:storage:CreateVolume" "volume" "create" "Create volumes";
   mkAction "volume:update" "vc:storage:UpdateVolume" "volume" "update" "Update volumes";
   mkAction "volume:delete" "vc:storage:DeleteVolume" "volume" "delete" "Delete volumes";
   mkAction "volume:attach" "vc:storage:AttachVolume" "volume" "attach" "Attach volumes";
   mkAction "volume:detach" "vc:storage:DetachVolume" "volume" "detach" "Detach volumes";
   mkAction "snapshot:list" "vc:storage:ListSnapshots" "snapshot" "list" "List snapshots";
   mkAction "snapshot:get" "vc:storage:GetSnapshot" "snapshot" "get" "View snapshot details";
   mkAction "snapshot:create" "vc:storage:CreateSnapshot" "snapshot"
     "create" "Create snapshots";
   mkAction "snapshot:update" "vc:storage:UpdateSnapshot" "snapshot"
     "update" "Update snapshots";
   mkAction "snapshot:delete" "vc:storage:DeleteSnapshot" "snapshot"
     "delete" "Delete snapshots";
   mkAction "network:list" "vc:network:ListNetworks" "network" "list" "List networks";
   mkAction "network:get" "vc:network:GetNetwork" "network" "get" "View network details";
   mkAction "network:create" "vc:network:CreateNetwork" "network" "create" "Create networks";
   mkAction "network:update" "vc:network:UpdateNetwork" "network" "update" "Update networks";
   mkAction "network:delete" "vc:network:DeleteNetwork" "network" "delete" "Delete networks";
   mkAction "security_group:list" "vc:network:ListSecurityGroups" "security_group"
     "list" "List security groups";
   mkAction "security_group:create" "vc:network:CreateSecurityGroup" "security_group"
     "create" "Create security groups";
   mkAction "security_group:update" "vc:network:UpdateSecurityGroup" "security_group"
     "update" "Update security group rules";
   mkAction "security_group:delete" "vc:network:DeleteSecurityGroup" "security_group"
     "delete" "Delete security groups";
   mkAction "floating_ip:list" "vc:network:ListFloatingIPs" "floating_ip"
     "list" "List floating IPs";
   mkAction "floating_ip:create" "vc:network:CreateFloatingIP" "floating_ip"
     "create" "Allocate floating IPs";
   mkAction "floating_ip:delete" "vc:network:DeleteFloatingIP" "floating_ip"
     "delete" "Release floating IPs";
   mkAction "router:list" "vc:network:ListRouters" "router" "list" "List routers";
   mkAction "router:create" "vc:network:CreateRouter" "router" "create" "Create routers";
   mkAction "router:update" "vc:network:UpdateRouter" "router" "update" "Update routers";
   mkAction "router:delete" "vc:network:DeleteRouter" "router" "delete" "Delete routers";
   mkAction "dns_zone:list" "vc:dns:ListZones" "dns_zone" "list" "List DNS zones";
   mkAction "dns_zone:get" "vc:dns:GetZone" "dns_zone" "get" "View DNS zone details";
   mkAction "dns_zone:create" "vc:dns:CreateZone" "dns_zone" "create" "Create DNS zones";
   mkAction "dns_zone:update" "vc:dns:UpdateZone" "dns_zone" "update" "Update DNS zones";
   mkAction "dns_zone:delete" "vc:dns:DeleteZone" "dns_zone" "delete" "Delete DNS zones";
   mkAction "dns_record:list" "vc:dns:ListRecords" "dns_record" "list" "List DNS records";
   mkAction "dns_record:create" "vc:dns:CreateRecord" "dns_record"
     "create" "Create DNS records";
   mkAction "dns_record:update" "vc:dns:UpdateRecord" "dns_record"
     "update" "Update DNS records";
   mkAction "dns_record:delete" "vc:dns:DeleteRecord" "dns_record"
     "delete" "Delete DNS records";
   mkAction "user:list" "vc:iam:ListUsers" "user" "list" "List users";
   mkAction "user:get" "vc:iam:GetUser" "user" "get" "View user details";
   mkAction "user:create" "vc:iam:CreateUser" "user" "create" "Create users";
   mkAction "user:update" "vc:iam:UpdateUser" "user" "update" "Update users";
   mkAction "user:delete" "vc:iam:DeleteUser" "user" "delete" "Delete users";
   mkAction "role:list" "vc:iam:ListRoles" "role" "list" "List roles";
   mkAction "role:create" "vc:iam:CreateRole" "role" "create" "Create roles";
   mkAction "role:update" "vc:iam:UpdateRole" "role" "update" "Update roles";
   mkAction "role:delete" "vc:iam:DeleteRole" "role" "delete" "Delete roles";
   mkAction "policy:list" "vc:iam:ListPolicies" "policy" "list" "List policies";
   mkAction "policy:create" "vc:iam:CreatePolicy" "policy" "create" "Create policies";
   mkAction "policy:update" "vc:iam:UpdatePolicy" "policy" "update" "Update policies";
   mkAction "policy:delete" "vc:iam:DeletePolicy" "policy" "delete" "Delete policies";
   mkAction "project:list" "vc:iam:ListProjects" "project" "list" "List projects";
   mkAction "project:create" "vc:iam:CreateProject" "project" "create" "Create projects";
   mkAction "project:delete" "vc:iam:DeleteProject" "project" "delete" "Delete projects";
   mkAction "service_account:list" "vc:iam:ListServiceAccounts" "service_account"
     "list" "List service accounts";
   mkAction "service_account:get" "vc:iam:GetServiceAccount" "service_account"
     "get" "View service account details";
   mkAction "service_account:create" "vc:iam:CreateServiceAccount" "service_account"
     "create" "Create service accounts";
   mkAction "service_account:delete" "vc:iam:DeleteServiceAccount" "service_account"
     "delete" "Delete service accounts";
   mkAction "service_account:rotate" "vc:iam:RotateServiceAccountKey" "service_account"
     "rotate" "Rotate service account keys";
   mkAction "group:list" "vc:iam:ListGroups" "group" "list" "List groups";
   mkAction "group:get" "vc:iam:GetGroup" "group" "get" "View group details";
   mkAction "group:create" "vc:iam:CreateGroup" "group" "create" "Create groups";
   mkAction "group:update" "vc:iam:UpdateGroup" "group" "update" "Update groups";
   mkAction "group:delete" "vc:iam:DeleteGroup" "group" "delete" "Delete groups";
   mkAction "permission_boundary:set" "vc:iam:SetPermissionBoundary" "permission_boundary"
     "set" "Set permission boundary";
   mkAction "permission_boundary:get" "vc:iam:GetPermissionBoundary" "permission_boundary"
     "get" "View permission boundary";
   mkAction "permission_boundary:delete" "vc:iam:DeletePermissionBoundary" "permission_boundary"
     "delete" "Delete permission boundary";
   mkAction "host:list" "vc:infra:ListHosts" "host" "list" "List hosts";
   mkAction "host:create" "vc:infra:CreateHost" "host" "create" "Register hosts";
   mkAction "host:update" "vc:infra:UpdateHost" "host" "update" "Update host configuration";
   mkAction "host:delete" "vc:infra:DeleteHost" "host" "delete" "Deregister hosts";
   mkAction "host:maintenance" "vc:infra:SetHostMaintenance" "host"
     "maintenance" "Toggle host maintenance mode";
   mkAction "cluster:list" "vc:infra:ListClusters" "cluster" "list" "List clusters";
   mkAction "cluster:create" "vc:infra:CreateCluster" "cluster" "create" "Create clusters";
   mkAction "cluster:update" "vc:infra:UpdateCluster" "cluster" "update" "Update clusters";
   mkAction "cluster:delete" "vc:infra:DeleteCluster" "cluster" "delete" "Delete clusters";
   mkAction "kms:list" "vc:kms:ListKeys" "kms" "list" "List KMS keys";
   mkAction "kms:get" "vc:kms:GetKey" "kms" "get" "View KMS key details";
   mkAction "kms:create" "vc:kms:CreateKey" "kms" "create" "Create KMS keys";
   mkAction "kms:update" "vc:kms:UpdateKey" "kms" "update" "Update KMS keys";
   mkAction "kms:delete" "vc:kms:DeleteKey" "kms" "delete" "Delete KMS keys";
   mkAction "encryption:list" "vc:encryption:ListConfigs" "encryption"
     "list" "List encryption configs";
   mkAction "encryption:get" "vc:encryption:GetConfig" "encryption"
     "get" "View encryption config";
   mkAction "encryption:create" "vc:encryption:CreateConfig" "encryption"
     "create" "Create encryption configs"].

Definition Registry_2 : list ActionMapping :=
  [mkAction "encryption:update" "vc:encryption:UpdateConfig" "encryption"
     "update" "Update encryption configs";
   mkAction "encryption:delete" "vc:encryption:DeleteConfig" "encryption"
     "delete" "Delete encryption configs";
   mkAction "baremetal:list" "vc:baremetal:ListNodes" "baremetal"
     "list" "List bare metal nodes";
   mkAction "baremetal:get" "vc:baremetal:GetNode" "baremetal"
     "get" "View bare metal node details";
   mkAction "baremetal:create" "vc:baremetal:CreateNode" "baremetal"
     "create" "Register bare metal nodes";
   mkAction "baremetal:update" "vc:baremetal:UpdateNode" "baremetal"
     "update" "Update bare metal nodes";
   mkAction "baremetal:delete" "vc:baremetal:DeleteNode" "baremetal"
     "delete" "Deregister bare metal nodes";
   mkAction "ha:list" "vc:ha:ListPolicies" "ha" "list" "List HA policies";
   mkAction "ha:get" "vc:ha:ListPolicies" "ha" "get" "View HA policy details";
   mkAction "ha:create" "vc:ha:CreatePolicy" "ha" "create" "Create HA policies";
   mkAction "ha:update" "vc:ha:UpdatePolicy" "ha" "update" "Update HA policies";
   mkAction "ha:delete" "vc:ha:DeletePolicy" "ha" "delete" "Delete HA policies";
   mkAction "dr:list" "vc:dr:ListPlans" "dr" "list" "List DR plans";
   mkAction "dr:get" "vc:dr:ListPlans" "dr" "get" "View DR plan details";
   mkAction "dr:create" "vc:dr:CreatePlan" "dr" "create" "Create DR plans";
   mkAction "dr:update" "vc:dr:UpdatePlan" "dr" "update" "Update DR plans";
   mkAction "dr:delete" "vc:dr:DeletePlan" "dr" "delete" "Delete DR plans";
   mkAction "backup:list" "vc:backup:ListBackups" "backup" "list" "List backups";
   mkAction "backup:get" "vc:backup:ListBackups" "backup" "get" "View backup details";
   mkAction "backup:create" "vc:backup:CreateBackup" "backup" "create" "Create backups";
   mkAction "backup:delete" "vc:backup:DeleteBackup" "backup" "delete" "Delete backups";
   mkAction "vpn:list" "vc:vpn:ListConnections" "vpn" "list" "List VPN connections";
   mkAction "vpn:get" "vc:vpn:ListConnections" "vpn" "get" "View VPN connection details";
   mkAction "vpn:create" "vc:vpn:CreateConnection" "vpn" "create" "Create VPN connections";
   mkAction "vpn:update" "vc:vpn:UpdateConnection" "vpn" "update" "Update VPN connections";
   mkAction "vpn:delete" "vc:vpn:DeleteConnection" "vpn" "delete" "Delete VPN connections";
   mkAction "monitoring:list" "vc:monitoring:ListAlerts" "monitoring"
     "list" "List monitoring alerts";
   mkAction "monitoring:get" "vc:monitoring:GetMetrics" "monitoring"
     "get" "View monitoring metrics";
   mkAction "monitoring:create" "vc:monitoring:GetMetrics" "monitoring"
     "create" "Create monitoring configs";
   mkAction "catalog:list" "vc:catalog:ListItems" "catalog" "list" "List catalog items";
   mkAction "catalog:get" "vc:catalog:ListItems" "catalog" "get" "View catalog item details";
   mkAction "catalog:create" "vc:catalog:CreateItem" "catalog" "create" "Create catalog items";
   mkAction "catalog:update" "vc:catalog:CreateItem" "catalog" "update" "Update catalog items";
   mkAction "catalog:delete" "vc:catalog:DeleteItem" "catalog" "delete" "Delete catalog items";
   mkAction "notification:list" "vc:notification:ListSubscriptions" "notification"
     "list" "List notification subscriptions";
   mkAction "notification:create" "vc:notification:CreateSubscription" "notification"
     "create" "Create subscriptions";
   mkAction "notification:update" "vc:notification:CreateSubscription" "notification"
     "update" "Update subscriptions";
   mkAction "notification:delete" "vc:notification:DeleteSubscription" "notification"
     "delete" "Delete subscriptions";
   mkAction "autoscale:list" "vc:autoscale:ListPolicies" "autoscale"
     "list" "List autoscale policies";
   mkAction "autoscale:get" "vc:autoscale:ListPolicies" "autoscale"
     "get" "View autoscale policy details";
   mkAction "autoscale:create" "vc:autoscale:CreatePolicy" "autoscale"
     "create" "Create autoscale policies";
   mkAction "autoscale:update" "vc:autoscale:UpdatePolicy" "autoscale"
     "update" "Update autoscale policies";
   mkAction "autoscale:delete" "vc:autoscale:DeletePolicy" "autoscale"
     "delete" "Delete autoscale policies";
   mkAction "selfheal:list" "vc:selfheal:ListPolicies" "selfheal"
     "list" "List self-heal policies";
   mkAction "selfheal:get" "vc:selfheal:GetPolicy" "selfheal"
     "get" "View self-heal policy details";
   mkAction "selfheal:create" "vc:selfheal:CreatePolicy" "selfheal"
     "create" "Create self-heal policies";
   mkAction "selfheal:update" "vc:selfheal:UpdatePolicy" "selfheal"
     "update" "Update self-heal policies";
   mkAction "selfheal:delete" "vc:selfheal:DeletePolicy" "selfheal"
     "delete" "Delete self-heal policies";
   mkAction "quota:list" "vc:quota:ListQuotas" "quota" "list" "List quotas";
   mkAction "quota:get" "vc:quota:GetQuota" "quota" "get" "View quota details";
   mkAction "quota:create" "vc:quota:SetQuota" "quota" "create" "Set quotas";
   mkAction "quota:update" "vc:quota:UpdateQuota" "quota" "update" "Update quotas";
   mkAction "quota:delete" "vc:quota:DeleteQuota" "quota" "delete" "Delete quotas";
   mkAction "storage:list" "vc:storage:ListResources" "storage"
     "list" "List storage resources";
   mkAction "storage:get" "vc:storage:GetResource" "storage"
     "get" "View storage resource details";
   mkAction "storage:create" "vc:storage:CreateResource" "storage"
     "create" "Create storage resources";
   mkAction "storage:update" "vc:storage:UpdateResource" "storage"
     "update" "Update storage resources";
   mkAction "storage:delete" "vc:storage:DeleteResource" "storage"
     "delete" "Delete storage resources";
   mkAction "orchestration:list" "vc:orchestration:ListStacks" "orchestration"
     "list" "List stacks";
   mkAction "orchestration:get" "vc:orchestration:GetStack" "orchestration"
     "get" "View stack details";
   mkAction "orchestration:create" "vc:orchestration:CreateStack" "orchestration"
     "create" "Create stacks";
   mkAction "orchestration:update" "vc:orchestration:UpdateStack" "orchestration"
     "update" "Update stacks";
   mkAction "orchestration:delete" "vc:orchestration:DeleteStack" "orchestration"
     "delete" "Delete stacks";
   mkAction "task:list" "vc:task:ListTasks" "task" "list" "List tasks";
   mkAction "task:get" "vc:task:GetTask" "task" "get" "View task details";
   mkAction "task:create" "vc:task:CreateTask" "task" "create" "Create tasks";
   mkAction "tag:list" "vc:tag:ListTags" "tag" "list" "List tags";
   mkAction "tag:get" "vc:tag:GetTag" "tag" "get" "View tag details";
   mkAction "tag:create" "vc:tag:CreateTag" "tag" "create" "Create tags";
   mkAction "tag:update" "vc:tag:UpdateTag" "tag" "update" "Update tags";
   mkAction "tag:delete" "vc:tag:DeleteTag" "tag" "delete" "Delete tags";
   mkAction "audit:list" "vc:audit:ListLogs" "audit" "list" "List audit logs";
   mkAction "audit:get" "vc:audit:GetLog" "audit" "get" "View audit log details";
   mkAction "audit:create" "vc:audit:CreateConfig" "audit" "create" "Create audit configs";
   mkAction "audit:update" "vc:audit:UpdateConfig" "audit" "update" "Update audit configs";
   mkAction "audit:delete" "vc:audit:DeleteConfig" "audit" "delete" "Delete audit configs";
   mkAction "usage:list" "vc:usage:ListRecords" "usage" "list" "List usage records";
   mkAction "usage:get" "vc:usage:GetRecord" "usage" "get" "View usage details";
   mkAction "event:list" "vc:event:ListEvents" "event" "list" "List events";
   mkAction "event:get" "vc:event:GetEvent" "event" "get" "View event details";
   mkAction "metadata:list" "vc:metadata:ListConfigs" "metadata"
     "list" "List metadata configs";
   mkAction "metadata:get" "vc:metadata:GetConfig" "metadata" "get" "View metadata config";
   mkAction "metadata:create" "vc:metadata:CreateConfig" "metadata"
     "create" "Create metadata configs";
   mkAction "metadata:update" "vc:metadata:UpdateConfig" "metadata"
     "update" "Update metadata configs";
   mkAction "metadata:delete" "vc:metadata:DeleteConfig" "metadata"
     "delete" "Delete metadata configs";
   mkAction "scheduler:list" "vc:scheduler:ListRules" "scheduler"
     "list" "List scheduler rules";
   mkAction "scheduler:get" "vc:scheduler:GetRule" "scheduler" "get" "View scheduler rule";
   mkAction "scheduler:create" "vc:scheduler:CreateRule" "scheduler"
     "create" "Create scheduler rules";
   mkAction "scheduler:update" "vc:scheduler:UpdateRule" "scheduler"
     "update" "Update scheduler rules";
   mkAction "scheduler:delete" "vc:scheduler:DeleteRule" "scheduler"
     "delete" "Delete scheduler rules";
   mkAction "config:list" "vc:config:ListConfigs" "config" "list" "List configurations";
   mkAction "config:get" "vc:config:GetConfig" "config" "get" "View configuration";
   mkAction "config:create" "vc:config:CreateConfig" "config" "create" "Create configurations";
   mkAction "config:update" "vc:config:UpdateConfig" "config" "update" "Update configurations";
   mkAction "config:delete" "vc:config:DeleteConfig" "config" "delete" "Delete configurations";
   mkAction "ratelimit:list" "vc:ratelimit:ListPolicies" "ratelimit"
     "list" "List rate limit policies";
   mkAction "ratelimit:get" "vc:ratelimit:GetPolicy" "ratelimit"
     "get" "View rate limit policy";
   mkAction "ratelimit:create" "vc:ratelimit:CreatePolicy" "ratelimit"
     "create" "Create rate limit policies";
   mkAction "ratelimit:update" "vc:ratelimit:UpdatePolicy" "ratelimit"
     "update" "Update rate limit policies";
   mkAction "ratelimit:delete" "vc:ratelimit:DeletePolicy" "ratelimit"
     "delete" "Delete rate limit policies"].

Definition Registry : list ActionMapping := Registry_1 ++ Registry_2.

Definition LegacyToNew : gmap string string :=
  fold_left (λ m r, <[Legacy r := New r]> m) Registry ∅.

Definition NewToLegacy : gmap string string :=
  fold_left (λ m r, <[New r := Legacy r]> m) Registry ∅.

(** The maps are only looked up by evaluation. *)
#[global] Opaque Registry LegacyToNew NewToLegacy.
