(* ===== verification/Rbac.v ===== *)
(** * Authentication and permission middleware

    internal/management/middleware: auth.go and rbac.go, with the middleware of
    the same purpose in internal/management/identity/handler_rbac.go. A handler
    maps the request's context to the next one or answers with an error. The
    theorems say which requests pass a protected route, that both permission
    formats of the registry are accepted, and where they are not. *)
From S2P Require Import Prelude GoStrings Utf8 Vrn Policy Identity Actions.
From Stdlib Require Import Ascii.

(** ** Gin contexts *)

(** Values of type [interface{}] that occur in a context. A JSON number is a
    float64; [AFloat] holds its integral part, which is all that is read. *)
#[warnings="-register-all"]
Inductive any :=
| ANil
| ABool (b : bool)
| AStr (s : string)
| AUint (n : Z)
| AFloat (n : Z)
| AStrs (l : list string)
| AList (l : list any).

Abbreviation Keys := (gmap string any).

Record Request := mkRequest {
  GetHeader : string → string;
  Cookie : string → option string;
  Param : string → string;
  Method : string;
  Path : string
}.

(** [c.Next()] with the context's keys, or a response and [c.Abort()]. *)
Inductive outcome :=
| Next (c : Keys)
| Abort (status : Z) (detail : string).

Definition Handler : Type := Request → Keys → outcome.

(** The handlers of a route run until one aborts. *)
Fixpoint chain (hs : list Handler) (r : Request) (c : Keys) : outcome :=
  match hs with
  | [] => Next c
  | h :: hs =>
      match h r c with
      | Next c => chain hs r c
      | Abort s d => Abort s d
      end
  end.

Definition passes (o : outcome) : bool :=
  match o with Next _ => true | Abort _ _ => false end.

(** ** Authentication *)

(** [m[k]] of a map of values, [nil] when the key is missing. *)
Definition claim (m : Keys) (k : string) : any := default ANil (m !! k).

Definition set_claims (claims c : Keys) : Keys :=
  fold_left (λ c k, <[k := claim claims k]> c)
    ["user_id"; "project_id"; "username"; "is_admin"; "tenant_id"; "roles"; "permissions"] c.

Section auth.
Context {unicode : UnicodeTables}.

(** [jwt.Parse] with an HMAC key: the claims of a valid token. *)
Variable jwtParse : string → string → option Keys.

(** The registered API key authenticator, given the access key, the signature,
    the time stamp, the method and the path. *)
Variable apiKeyAuthenticator :
  option (string → string → string → string → string → result string Keys).

Definition parseHMACAuthParams (header : string) : gmap string string :=
  if HasPrefix header "VC-HMAC-SHA256 " then
    fold_left (λ m part,
      let part := TrimSpace part in
      match IndexByte part "=" with
      | None => m
      | Some eqIdx =>
          <[TrimSpace (str_take eqIdx part) := TrimSpace (str_drop (S eqIdx) part)]> m
      end)
      (Split (str_drop (str_len "VC-HMAC-SHA256 ") header) ",") ∅
  else ∅.

Definition handleAPIKeyMiddlewareAuth
    (authenticate : string → string → string → string → string → result string Keys)
    (authHeader : string) : Handler := λ r c,
  let params := parseHMACAuthParams authHeader in
  let accessKeyID := default "" (params !! "AccessKeyId") in
  let timestamp := default "" (params !! "Timestamp") in
  let signature := default "" (params !! "Signature") in
  if bool_decide (accessKeyID = "") || bool_decide (timestamp = "")
     || bool_decide (signature = "")
  then Abort 401 "malformed API key authorization header"
  else
    match authenticate accessKeyID signature timestamp (Method r) (Path r) with
    | Err _ => Abort 401 "API key authentication failed"
    | Ok claims => Next (claims ∪ c)
    end.

(** The Authorization header, or the cookie of a browser client. *)
Definition auth_header (r : Request) : string :=
  let authHeader := GetHeader r "Authorization" in
  if decide (authHeader = "") then
    match Cookie r "vc_access_token" with
    | Some cookie => if decide (cookie = "") then "" else "Bearer " +:+ cookie
    | None => ""
    end
  else authHeader.

Definition AuthMiddleware (jwtSecret : string) : Handler := λ r c,
  let authHeader := auth_header r in
  let bearer :=
    match SplitN authHeader " " 2 with
    | [scheme; tokenString] =>
        if decide (scheme = "Bearer") then
          match jwtParse jwtSecret tokenString with
          | None => Abort 401 "invalid or malformed token"
          | Some claims => Next (set_claims claims c)
          end
        else Abort 401 "invalid authorization format, use: Bearer <token>"
    | _ => Abort 401 "invalid authorization format, use: Bearer <token>"
    end in
  if decide (authHeader = "") then Abort 401 "missing authorization header"
  else
    match apiKeyAuthenticator with
    | Some authenticate =>
        if HasPrefix authHeader "VC-HMAC-SHA256 "
        then handleAPIKeyMiddlewareAuth authenticate authHeader r c
        else bearer
    | None => bearer
    end.

Definition OptionalAuthMiddleware (jwtSecret : string) : Handler := λ r c,
  let authHeader := auth_header r in
  if decide (authHeader = "") then Next c
  else
    match SplitN authHeader " " 2 with
    | [scheme; tokenString] =>
        if decide (scheme = "Bearer") then
          match jwtParse jwtSecret tokenString with
          | None => Next c
          | Some claims => Next (set_claims claims c)
          end
        else Next c
    | _ => Next c
    end.

(** [subtle.ConstantTimeCompare] returns 1 exactly on equal contents. *)
Definition InternalAuthMiddleware (internalToken : string) : Handler := λ r c,
  if decide (internalToken = "") then Abort 401 "internal API disabled"
  else
    let token := GetHeader r "X-Internal-Token" in
    if bool_decide (token = "") || negb (bool_decide (token = internalToken))
    then Abort 401 "unauthorized internal access"
    else Next (<["is_internal" := ABool true]> c).
End auth.

(** ** Permissions *)

(** The strings that the type switches over a permissions claim visit. *)
Definition claim_strings (perms : any) : list string :=
  match perms with
  | AList l => omap (λ v, match v with AStr s => Some s | _ => None end) l
  | AStrs l => l
  | _ => []
  end.

Definition splitVCAction (perm : string) : string :=
  if (str_len perm <? 5)%nat then ""
  else if negb (bool_decide (str_take 1 (str_drop 2 perm) = ":")) then ""
  else
    match str_cut ":" (str_drop 3 perm) with
    | None => ""
    | Some (service, action) => if decide (action = "*") then service else ""
    end.

(** The test of one permission of the claim. *)
Definition permission_grants (resource required newFormat ps : string) : bool :=
  bool_decide (ps = required) || bool_decide (ps = resource +:+ ":*")
  || bool_decide (ps = "*:*")
  || (negb (bool_decide (newFormat = "")) && bool_decide (ps = newFormat))
  || ((3 <? str_len ps)%nat && bool_decide (str_take 3 ps = "vc:")
      && negb (bool_decide (splitVCAction ps = ""))
      && bool_decide (splitVCAction ps = resource)).

Definition matchPermission (perms : any) (resource required newFormat : string) : bool :=
  existsb (permission_grants resource required newFormat) (claim_strings perms).

Definition is_admin (c : Keys) : bool :=
  match c !! "is_admin" with Some (ABool b) => b | _ => false end.

(** [legacyToNew] is the registered mapping. *)
Definition RequirePermission (legacyToNew : gmap string string) (resource action : string)
    : Handler := λ _ c,
  let required := resource +:+ ":" +:+ action in
  let newFormatRequired := default "" (legacyToNew !! required) in
  if decide (c !! "user_id" = None) then Next c
  else if is_admin c then Next c
  else
    match c !! "permissions" with
    | Some perms =>
        if matchPermission perms resource required newFormatRequired then Next c
        else Abort 403 ("insufficient permissions, required: " +:+ required)
    | None => Abort 403 ("insufficient permissions, required: " +:+ required)
    end.

(** ** Actions on resources *)

Record ResourceSpec := mkSpec {
  ParamName : string;
  PermResource : string;
  spec_ResourceType : string
}.

Definition ResourceFromParam (paramName permResource : string) : ResourceSpec :=
  mkSpec paramName permResource "".

Definition splitLegacy (s : string) : string * string :=
  match str_cut ":" s with
  | None => (s, "")
  | Some (l, r) => (l, r)
  end.

Definition matchActionInClaims (perms : any) (action : string) : bool :=
  let serviceWildcard :=
    if (3 <? str_len action)%nat && bool_decide (str_take 3 action = "vc:") then
      let parts := splitLegacy (str_drop 3 action) in
      if decide (parts.1 = "") then "" else "vc:" +:+ parts.1 +:+ ":*"
    else "" in
  existsb (λ ps,
    bool_decide (ps = action) || bool_decide (ps = "*:*") || bool_decide (ps = "*")
    || (negb (bool_decide (serviceWildcard = "")) && bool_decide (ps = serviceWildcard)))
    (claim_strings perms).

Definition permResourceToServiceMiddleware (resource : string) : string :=
  default resource (map_get
    [("compute", "compute"); ("flavor", "compute"); ("ssh_key", "compute");
     ("volume", "storage"); ("snapshot", "storage"); ("storage", "storage");
     ("network", "network"); ("security_group", "network"); ("floating_ip", "network");
     ("router", "network"); ("subnet", "network");
     ("dns_zone", "dns"); ("dns_record", "dns");
     ("image", "image");
     ("user", "iam"); ("role", "iam"); ("policy", "iam"); ("project", "iam");
     ("host", "infra"); ("cluster", "infra");
     ("kms", "kms"); ("encryption", "encryption"); ("baremetal", "baremetal");
     ("ha", "ha"); ("dr", "dr"); ("backup", "backup"); ("vpn", "vpn")] resource).

Definition resourceTypeForPerm (spec : ResourceSpec) : string :=
  if decide (spec_ResourceType spec = "") then
    default (PermResource spec) (map_get
      [("compute", "instance"); ("flavor", "flavor");
       ("volume", "volume"); ("snapshot", "snapshot"); ("storage", "volume");
       ("network", "network"); ("security_group", "security-group");
       ("floating_ip", "floating-ip"); ("router", "router");
       ("dns_zone", "zone"); ("dns_record", "record");
       ("image", "image"); ("user", "user"); ("role", "role");
       ("host", "host"); ("cluster", "cluster");
       ("kms", "key"); ("baremetal", "node")] (PermResource spec))
  else spec_ResourceType spec.

Definition injectVRN (spec : ResourceSpec) (r : Request) (c : Keys) : Keys :=
  let resourceID :=
    if decide (Param r (ParamName spec) = "") then "*" else Param r (ParamName spec) in
  let projStr := match c !! "tenant_id" with Some (AStr s) => s | _ => "" end in
  let vrnStr :=
    "vrn:vcstack:" +:+ permResourceToServiceMiddleware (PermResource spec) +:+ ":"
    +:+ projStr +:+ ":" +:+ resourceTypeForPerm spec +:+ "/" +:+ resourceID in
  <["resource_id" := AStr resourceID]> (<["resource_vrn" := AStr vrnStr]> c).

(** [newToLeg] is the registered reverse mapping. *)
Definition RequireAction (newToLeg : gmap string string) (action : string) (spec : ResourceSpec)
    : Handler := λ r c,
  let '(legacyResource, legacyAction) :=
    match newToLeg !! action with
    | Some legacy => splitLegacy legacy
    | None => ("", "")
    end in
  if decide (c !! "user_id" = None) then Next (injectVRN spec r c)
  else if is_admin c then Next (injectVRN spec r c)
  else
    let denied := Abort 403 ("insufficient permissions, required: " +:+ action) in
    match c !! "permissions" with
    | Some perms =>
        if matchActionInClaims perms action then Next (injectVRN spec r c)
        else if negb (bool_decide (legacyResource = ""))
                && matchPermission perms legacyResource
                     (legacyResource +:+ ":" +:+ legacyAction) action
        then Next (injectVRN spec r c)
        else denied
    | None => denied
    end.

(** ** The middleware of the identity service *)

Section identity.
Context {unicode : UnicodeTables} {store : IdentityStore}.

(** The claims that the service's own [authMiddleware] sets for a valid token:
    their types are those of the [Claims] struct. *)
Record Claims := mkClaims {
  claims_UserID : Z;
  claims_Username : string;
  claims_IsAdmin : bool;
  claims_Roles : list string;
  claims_Permissions : list string
}.

Variable ValidateToken : string → option Claims.

Definition authMiddleware : Handler := λ r c,
  let authHeader := auth_header r in
  if decide (authHeader = "") then Abort 401 "Authorization header required"
  else
    match SplitN authHeader " " 2 with
    | [scheme; tokenString] =>
        if decide (scheme = "Bearer") then
          match ValidateToken tokenString with
          | None => Abort 401 "Invalid token"
          | Some claims =>
              Next (<["permissions" := AStrs (claims_Permissions claims)]>
                     (<["roles" := AStrs (claims_Roles claims)]>
                       (<["is_admin" := ABool (claims_IsAdmin claims)]>
                         (<["username" := AStr (claims_Username claims)]>
                           (<["user_id" := AUint (claims_UserID claims)]> c)))))
          end
        else Abort 401 "Invalid authorization header format"
    | _ => Abort 401 "Invalid authorization header format"
    end.

(** [uid], zero unless the context has a number. *)
Definition context_uid (c : Keys) : Z :=
  match c !! "user_id" with
  | Some (AFloat n) | Some (AUint n) => n
  | _ => 0
  end.

Definition identity_RequirePermission (resource action : string) : Handler := λ _ c,
  let required := resource +:+ ":" +:+ action in
  if is_admin c then Next c
  else
    let granted :=
      match c !! "permissions" with
      | Some (AList l) =>
          existsb (λ ps, bool_decide (ps = required) || bool_decide (ps = resource +:+ ":*")
                         || bool_decide (ps = "*:*")) (claim_strings (AList l))
      | _ => false
      end in
    if granted then Next c
    else if (0 <? context_uid c)%Z
            && match Authorize (context_uid c) action resource with
               | Ok allowed => allowed
               | Err _ => false
               end
    then Next c
    else Abort 403 "insufficient permissions".
End identity.

(** ** What grants a permission *)

Lemma splitVCAction_spec ps resource :
  resource ≠ "" →
  ((3 <? str_len ps)%nat && bool_decide (str_take 3 ps = "vc:")
   && negb (bool_decide (splitVCAction ps = ""))
   && bool_decide (splitVCAction ps = resource) = true
   ↔ ps = "vc:" +:+ resource +:+ ":*" ∧ str_mem ":" resource = false).
Proof.
  intros Hne. split.
  - intros H. zbool. unfold splitVCAction in *.
    destruct (str_len ps <? 5)%nat; [congruence|].
    destruct (negb _); [congruence|].
    destruct (str_cut ":" (str_drop 3 ps)) as [[svc act]|] eqn:Ec; [|congruence].
    case_decide as Ha; [|congruence]. subst. apply str_cut_Some in Ec as [Ed Hm].
    split; [|done]. rewrite <-(str_take_drop 3 ps), Ed. by rewrite H2.
  - intros [-> Hm].
    assert (splitVCAction ("vc:" +:+ resource +:+ ":*") = resource) as ->.
    { unfold splitVCAction.
      replace (_ <? 5)%nat with false
        by (symmetry; apply Nat.ltb_ge; rewrite !str_len_app; simpl; lia).
      change (str_drop 3 ("vc:" +:+ resource +:+ ":*")) with (resource +:+ ":*").
      change (str_take 1 (str_drop 2 ("vc:" +:+ resource +:+ ":*"))) with ":".
      by rewrite bool_decide_eq_true_2, (str_cut_app ":" resource "*" Hm). }
    rewrite !bool_decide_eq_true_2, bool_decide_eq_false_2 by done.
    rewrite (proj2 (Nat.ltb_lt 3 _)); [by rewrite bool_decide_eq_true_2|]. rewrite !str_len_app. simpl. lia.
Qed.

(** The permissions that grant an action on a resource: the required one, the
    wildcards, and the equivalent and the service wildcard of the new format. *)
Definition granting (legacyToNew : gmap string string) (resource action p : string) : Prop :=
  p = resource +:+ ":" +:+ action ∨ p = resource +:+ ":*" ∨ p = "*:*" ∨
  (p ≠ "" ∧ legacyToNew !! (resource +:+ ":" +:+ action) = Some p) ∨
  (p = "vc:" +:+ resource +:+ ":*" ∧ str_mem ":" resource = false).

Lemma permission_grants_spec legacyToNew resource action p :
  resource ≠ "" →
  permission_grants resource (resource +:+ ":" +:+ action)
    (default "" (legacyToNew !! (resource +:+ ":" +:+ action))) p = true ↔
  granting legacyToNew resource action p.
Proof.
  intros Hne. unfold permission_grants, granting.
  rewrite !orb_true_iff, splitVCAction_spec by done.
  rewrite !bool_decide_eq_true, andb_true_iff, negb_true_iff, bool_decide_eq_false,
    bool_decide_eq_true.
  destruct (legacyToNew !! _) as [q|]; simpl; naive_solver.
Qed.

Lemma matchPermission_spec legacyToNew resource action perms :
  resource ≠ "" →
  matchPermission perms resource (resource +:+ ":" +:+ action)
    (default "" (legacyToNew !! (resource +:+ ":" +:+ action))) = true ↔
  ∃ p, p ∈ claim_strings perms ∧ granting legacyToNew resource action p.
Proof.
  intros Hne. unfold matchPermission. rewrite existsb_elem.
  by setoid_rewrite permission_grants_spec.
Qed.

Lemma RequirePermission_passes legacyToNew resource action r c :
  resource ≠ "" →
  passes (RequirePermission legacyToNew resource action r c) = true ↔
  c !! "user_id" = None ∨ is_admin c = true ∨
  ∃ p, p ∈ claim_strings (claim c "permissions") ∧ granting legacyToNew resource action p.
Proof.
  intros Hne. unfold RequirePermission, claim. rewrite <-(matchPermission_spec _ _ _ _ Hne).
  case_decide as Hu; [naive_solver|]. destruct (is_admin c); [naive_solver|].
  destruct (c !! "permissions") as [perms|]; simpl; [|naive_solver].
  destruct (matchPermission _ _ _ _); naive_solver.
Qed.

Lemma RequireAction_anonymous newToLeg action spec r c :
  c !! "user_id" = None → RequireAction newToLeg action spec r c = Next (injectVRN spec r c).
Proof.
  intros Hu. unfold RequireAction. destruct (match newToLeg !! action with
    Some l => splitLegacy l | None => ("", "") end). by rewrite decide_True.
Qed.

(** ** Protected routes *)

Lemma set_claims_lookup claims c k :
  k ∈ ["user_id"; "project_id"; "username"; "is_admin"; "tenant_id"; "roles"; "permissions"] →
  set_claims claims c !! k = Some (claim claims k).
Proof.
  intros Hk. unfold set_claims. repeat (apply elem_of_cons in Hk as [->|Hk]; [by simplify_map_eq|]).
  by apply elem_of_nil in Hk.
Qed.

Lemma is_admin_claim claims c :
  c !! "is_admin" = Some (claim claims "is_admin") → is_admin c = is_admin claims.
Proof. unfold is_admin, claim. intros ->. by destruct (claims !! "is_admin"). Qed.

Section routes.
Context {unicode : UnicodeTables}.
Variable jwtParse : string → string → option Keys.
Variable apiKeyAuthenticator :
  option (string → string → string → string → string → result string Keys).

(** The claims of the token or of the API key that the request presents. *)
Definition presents_token (secret : string) (r : Request) (claims : Keys) : Prop :=
  ∃ token, SplitN (auth_header r) " " 2 = ["Bearer"; token] ∧ jwtParse secret token = Some claims.

Definition presents_key (r : Request) (claims : Keys) : Prop :=
  ∃ f key sig ts, apiKeyAuthenticator = Some f ∧ f key sig ts (Method r) (Path r) = Ok claims.

Lemma AuthMiddleware_presents secret r c :
  AuthMiddleware jwtParse apiKeyAuthenticator secret r ∅ = Next c →
  ∃ claims, presents_token secret r claims ∧ c = set_claims claims ∅ ∨
            presents_key r claims ∧ c = claims.
Proof.
  unfold AuthMiddleware. case_decide as Hh; [done|]. intros H.
  assert ((∃ f, apiKeyAuthenticator = Some f ∧
             handleAPIKeyMiddlewareAuth f (auth_header r) r ∅ = Next c) ∨
          (∃ token claims, SplitN (auth_header r) " " 2 = ["Bearer"; token] ∧
             jwtParse secret token = Some claims ∧ c = set_claims claims ∅)) as [(f&Hf&Ha)|Hj].
  { destruct apiKeyAuthenticator as [f|]; [destruct (HasPrefix _ _); [naive_solver|]|];
      right; repeat case_match; naive_solver. }
  - unfold handleAPIKeyMiddlewareAuth in Ha. destruct (_ || _); [done|].
    destruct (f _ _ _ _ _) as [claims|] eqn:E; [|done]. simplify_eq.
    exists claims. right. split; [unfold presents_key; naive_solver|].
    by rewrite (right_id_L ∅ (∪)).
  - destruct Hj as (token&claims&Hs&Hp&->). exists claims. left. split; [by exists token|done].
Qed.

Lemma AuthMiddleware_bearer secret r token claims c :
  auth_header r = "Bearer " +:+ token → jwtParse secret token = Some claims →
  AuthMiddleware jwtParse apiKeyAuthenticator secret r c = Next (set_claims claims c).
Proof.
  intros Hh Hp. unfold AuthMiddleware. rewrite Hh.
  rewrite decide_False by done.
  change ("Bearer " +:+ token) with ("Bearer" +:+ String " " token).
  rewrite SplitN_step by done. cbn [SplitN]. rewrite decide_True by done. rewrite Hp.
  by destruct apiKeyAuthenticator.
Qed.

(** C10: Behind [AuthMiddleware], a request passes [RequirePermission] only with
    a valid token or API key whose claims make it an administrator or hold a
    permission that grants the action on the resource; and a valid token with
    such claims does pass. *)
Theorem protected_route secret resource action r :
  resource ≠ "" →
  (∀ claims, presents_key r claims → claims !! "user_id" ≠ None) →
  let route := chain [AuthMiddleware jwtParse apiKeyAuthenticator secret;
                      RequirePermission LegacyToNew resource action] r ∅ in
  let granted claims := is_admin claims = true ∨
    ∃ p, p ∈ claim_strings (claim claims "permissions") ∧ granting LegacyToNew resource action p in
  (passes route = true →
     ∃ claims, (presents_token secret r claims ∨ presents_key r claims) ∧ granted claims) ∧
  (∀ token claims, auth_header r = "Bearer " +:+ token → jwtParse secret token = Some claims →
     granted claims → passes route = true).
Proof.
  intros Hne Hid route granted.
  assert (∀ claims, passes (RequirePermission LegacyToNew resource action r
                              (set_claims claims ∅)) = true ↔ granted claims) as Hset.
  { intros claims. rewrite RequirePermission_passes by done. unfold claim at 1.
    rewrite !set_claims_lookup by set_solver.
    rewrite (is_admin_claim claims) by (apply set_claims_lookup; set_solver).
    unfold granted. naive_solver. }
  unfold route, chain. split.
  - destruct (AuthMiddleware _ _ _ _ _) as [c|] eqn:Ea; [|done]. intros Hp.
    assert (passes (RequirePermission LegacyToNew resource action r c) = true) as Hr
      by (by destruct (RequirePermission _ _ _ _ _)).
    apply AuthMiddleware_presents in Ea as (claims&[[Ht ->]|[Hk ->]]); exists claims.
    + split; [by left|]. by apply Hset.
    + split; [by right|]. apply RequirePermission_passes in Hr; [|done].
      destruct Hr as [Hn|Hr]; [by destruct (Hid _ Hk)|done].
  - intros token claims Hh Hp Hg. rewrite (AuthMiddleware_bearer _ _ _ _ _ Hh Hp).
    apply Hset in Hg. by destruct (RequirePermission _ _ _ _ _).
Qed.

(** Behind [OptionalAuthMiddleware] alone, as the routes of the core modules
    are set up, a request without credentials passes every
    [RequirePermission] and [RequireAction]. *)
Theorem anonymous_passes secret resource action act spec r c :
  GetHeader r "Authorization" = "" → Cookie r "vc_access_token" = None →
  c !! "user_id" = None →
  passes (chain [OptionalAuthMiddleware jwtParse secret;
                 RequirePermission LegacyToNew resource action] r c) = true ∧
  passes (chain [OptionalAuthMiddleware jwtParse secret;
                 RequireAction NewToLegacy act spec] r c) = true.
Proof.
  intros Hh Hc Hu. unfold chain, OptionalAuthMiddleware, auth_header. rewrite Hh, Hc.
  rewrite !decide_True by done. rewrite RequireAction_anonymous by done.
  unfold RequirePermission. by rewrite decide_True.
Qed.

End routes.

(** ** The two formats of the registry *)

Lemma Registry_legacy row :
  row ∈ Registry →
  Legacy row = am_Resource row +:+ ":" +:+ am_Action row ∧ am_Resource row ≠ "" ∧
  New row ≠ "" ∧ LegacyToNew !! Legacy row = Some (New row).
Proof.
  intros Hr.
  assert (forallb (λ row, bool_decide (Legacy row = am_Resource row +:+ ":" +:+ am_Action row ∧
    am_Resource row ≠ "" ∧ New row ≠ "" ∧ LegacyToNew !! Legacy row = Some (New row)))
    Registry = true) as Hall by (vm_compute; reflexivity).
  rewrite forallb_elem in Hall. apply Hall in Hr. by apply bool_decide_eq_true in Hr.
Qed.

(** Each permission of the registry is granted by its name in either
    format, whichever the claims hold. *)
Theorem both_formats_grant row p r c :
  row ∈ Registry → p = Legacy row ∨ p = New row →
  p ∈ claim_strings (claim c "permissions") →
  passes (RequirePermission LegacyToNew (am_Resource row) (am_Action row) r c) = true.
Proof.
  intros Hr Hp Hin. destruct (Registry_legacy row Hr) as (Hl&Hne&Hn&Hm).
  apply RequirePermission_passes; [done|]. do 2 right. exists p. split; [done|].
  unfold granting. rewrite <-Hl. destruct Hp as [->| ->]; [by left|].
  do 3 right. left. by split.
Qed.

(** The context of an authenticated user with these permissions. *)
Definition user_context (perms : list string) : Keys :=
  <["permissions" := AStrs perms]> (<["is_admin" := ABool false]> (<["user_id" := AUint 1]> ∅)).

Definition get_request : Request :=
  mkRequest (λ _, "") (λ _, None) (λ _, "") "GET" "/".

Lemma both_formats_grant_witness :
  let row := mkAction "ha:list" "vc:ha:ListPolicies" "ha" "list" "List HA policies" in
  row ∈ Registry ∧
  passes (RequirePermission LegacyToNew "ha" "list" get_request
            (user_context ["vc:ha:ListPolicies"])) = true.
Proof.
  intros row. assert (row ∈ Registry) as Hr.
  { apply (bool_decide_unpack _). vm_compute. exact I. }
  split; [exact Hr|]. apply (both_formats_grant row (New row)); [exact Hr|right; reflexivity|].
  vm_compute. left.
Defined.

(** [RequireAction] accepts the name of the new format for every row of the
    registry, but not the legacy name where several legacy permissions share a
    new one: the reverse map keeps the last of them. These are lost. *)
Theorem legacy_names_lost :
  forallb (λ row, passes (RequireAction NewToLegacy (New row)
    (ResourceFromParam "id" (am_Resource row)) get_request (user_context [New row]))) Registry
    = true ∧
  Legacy <$> filter (λ row, passes (RequireAction NewToLegacy (New row)
    (ResourceFromParam "id" (am_Resource row)) get_request (user_context [Legacy row])) = false)
    Registry =
  ["ha:list"; "dr:list"; "backup:list"; "vpn:list"; "monitoring:get"; "catalog:list";
   "catalog:create"; "notification:create"; "autoscale:list"].
Proof. split; vm_compute; reflexivity. Qed.

(** ** Resource names of the middleware *)

Definition injected_vrn (spec : ResourceSpec) (r : Request) (c : Keys) : any :=
  claim (injectVRN spec r c) "resource_vrn".

(** The registry's resources for which the middleware's tables differ from
    those of pkg/iam. *)
Definition diverging : list string :=
  ["encryption"; "ha"; "dr"; "vpn"; "monitoring"; "catalog"; "notification"; "autoscale";
   "selfheal"; "orchestration"; "audit"; "usage"; "metadata"; "scheduler"; "ratelimit"].

Definition same_vrn (resource : string) : bool :=
  bool_decide (permResourceToServiceMiddleware resource = Service (BuildVRN resource "" "")
    ∧ resourceTypeForPerm (ResourceFromParam "id" resource)
      = ResourceType (BuildVRN resource "" "")).

Lemma diverging_spec row :
  row ∈ Registry →
  same_vrn (am_Resource row) = negb (bool_decide (am_Resource row ∈ diverging)) ∧
  str_mem ":" (permResourceToServiceMiddleware (am_Resource row)) = false ∧
  str_mem ":" (permResourceToService (am_Resource row)) = false.
Proof.
  intros Hr.
  assert (forallb (λ row, Bool.eqb (same_vrn (am_Resource row))
      (negb (bool_decide (am_Resource row ∈ diverging)))
    && negb (str_mem ":" (permResourceToServiceMiddleware (am_Resource row)))
    && negb (str_mem ":" (permResourceToService (am_Resource row)))) Registry = true) as Hall
    by (vm_compute; reflexivity).
  rewrite forallb_elem in Hall. apply Hall in Hr. zbool. split; [by apply eqb_prop|done].
Qed.

Lemma printed_inj s1 s2 p t1 t2 i :
  str_mem ":" s1 = false → str_mem ":" s2 = false →
  s1 +:+ ":" +:+ p +:+ ":" +:+ t1 +:+ "/" +:+ i = s2 +:+ ":" +:+ p +:+ ":" +:+ t2 +:+ "/" +:+ i →
  s1 = s2 ∧ t1 = t2.
Proof.
  intros H1 H2 E. apply (f_equal (str_cut ":")) in E.
  change (str_cut ":" (s1 +:+ String ":" (p +:+ ":" +:+ t1 +:+ "/" +:+ i)) =
          str_cut ":" (s2 +:+ String ":" (p +:+ ":" +:+ t2 +:+ "/" +:+ i))) in E.
  rewrite !str_cut_app in E by done. injection E as -> E.
  split; [done|]. by apply str_app_inj_l, (str_app_inj_l ":"), str_app_inj_r in E.
Qed.

(** For a resource of the registry, the resource name that the middleware
    sets for a request is the one that [BuildVRN] of pkg/iam prints, exactly
    when the resource is not one of the fifteen whose tables differ. *)
Theorem injected_name row r c project :
  row ∈ Registry → c !! "tenant_id" = Some (AStr project) →
  injected_vrn (ResourceFromParam "id" (am_Resource row)) r c =
    AStr (VRN_String (BuildVRN (am_Resource row) project (Param r "id"))) ↔
  am_Resource row ∉ diverging.
Proof.
  intros Hr Hc. destruct (diverging_spec row Hr) as (Hd&H1&H2). unfold same_vrn in Hd.
  unfold injected_vrn, claim, injectVRN. rewrite Hc.
  cbn [ParamName PermResource ResourceFromParam]. rewrite lookup_insert_ne by done.
  rewrite lookup_insert_eq. cbn [default from_option id].
  set (i := if decide (Param r "id" = "") then "*" else Param r "id").
  transitivity (permResourceToServiceMiddleware (am_Resource row)
      = Service (BuildVRN (am_Resource row) "" "") ∧
    resourceTypeForPerm (ResourceFromParam "id" (am_Resource row))
      = ResourceType (BuildVRN (am_Resource row) "" "")).
  - split.
    + intros E. injection E as E.
      apply (printed_inj _ _ project _ _ i); [done|done|]. done.
    + intros [E1 E2]. unfold VRN_String. f_equal. rewrite E1, E2. reflexivity.
  - rewrite <-(bool_decide_eq_true (_ ∧ _)), Hd, negb_true_iff, bool_decide_eq_false. done.
Qed.

Lemma injected_name_witness :
  let row := mkAction "volume:get" "vc:storage:GetVolume" "volume" "get" "View volume details" in
  let r := mkRequest (λ _, "") (λ _, None) (λ _, "v-1") "GET" "/api/v1/volumes/v-1" in
  injected_vrn (ResourceFromParam "id" "volume") r (<["tenant_id" := AStr "7"]> ∅)
  = AStr "vrn:vcstack:storage:7:volume/v-1".
Proof.
  intros row r.
  refine (proj2 (injected_name row r (<["tenant_id" := AStr "7"]> ∅) "7" _ _) _);
    [apply (bool_decide_unpack _); vm_compute; exact I|vm_compute; reflexivity|].
  apply (bool_decide_unpack _); vm_compute; exact I.
Defined.

(** ** Witnesses *)

#[local] Existing Instances ascii_only example_store.

(** A signer of two tokens. *)
Definition example_jwt (secret token : string) : option Keys :=
  if bool_decide (secret = "s3cret" ∧ token = "t0k") then Some (user_context ["volume:*"])
  else None.

Definition bearer_request : Request :=
  mkRequest (λ h, if decide (h = "Authorization") then "Bearer t0k" else "")
    (λ _, None) (λ _, "") "DELETE" "/api/v1/volumes/v-1".

Lemma protected_route_witness :
  passes (chain [AuthMiddleware example_jwt None "s3cret";
                 RequirePermission LegacyToNew "volume" "delete"] bearer_request ∅) = true.
Proof.
  refine (proj2 (protected_route example_jwt None "s3cret" "volume" "delete" bearer_request _ _)
    "t0k" (user_context ["volume:*"]) _ _ _); [discriminate| |reflexivity|vm_compute; reflexivity|].
  - intros claims (f&k&sig&ts&Hf&_). discriminate.
  - right. exists "volume:*". split; [vm_compute; left|]. right. left. reflexivity.
Defined.

Lemma anonymous_passes_witness :
  passes (chain [OptionalAuthMiddleware example_jwt "s3cret";
                 RequirePermission LegacyToNew "instance" "delete"] get_request ∅) = true.
Proof.
  refine (proj1 (anonymous_passes example_jwt "s3cret" "instance" "delete" ""
    (ResourceFromParam "id" "instance") get_request ∅ _ _ _)); reflexivity.
Defined.
