(* ===== verification/Seed.v ===== *)
(** * Default permissions and roles

    internal/management/identity/rbac_seed.go: the permissions and the four
    system roles that the identity service creates at start. The theorems say
    which permissions each role gets from any earlier state of the database,
    that seeding again changes nothing, and which routes no role can reach. *)
From S2P Require Import Prelude GoStrings Vrn Policy Identity Actions Rbac.

(** An entry of the tables of the source. *)
Record perm := mkPermission {
  perm_Resource : string;
  perm_Action : string;
  perm_Description : string
}.

Definition perm_key (p : perm) : string := perm_Resource p +:+ ":" +:+ perm_Action p.

Definition hpcPermissions : list perm :=
  [mkPermission "hpc_cluster" "list" "List HPC Kubernetes clusters";
   mkPermission "hpc_cluster" "get" "View HPC cluster details";
   mkPermission "hpc_cluster" "create" "Create HPC Kubernetes clusters";
   mkPermission "hpc_cluster" "update" "Update HPC cluster configuration";
   mkPermission "hpc_cluster" "delete" "Delete HPC Kubernetes clusters";
   mkPermission "hpc_cluster" "scale" "Scale HPC cluster nodes";
   mkPermission "hpc_gpu" "list" "List GPU resources and pools";
   mkPermission "hpc_gpu" "get" "View GPU resource details";
   mkPermission "hpc_gpu" "create" "Create GPU pools";
   mkPermission "hpc_gpu" "delete" "Delete GPU pools";
   mkPermission "slurm_cluster" "list" "List Slurm clusters";
   mkPermission "slurm_cluster" "get" "View Slurm cluster details";
   mkPermission "slurm_cluster" "create" "Create Slurm clusters";
   mkPermission "slurm_cluster" "update" "Update Slurm configuration";
   mkPermission "slurm_cluster" "delete" "Delete Slurm clusters";
   mkPermission "slurm_partition" "list" "List Slurm partitions";
   mkPermission "slurm_partition" "create" "Create Slurm partitions";
   mkPermission "slurm_partition" "update" "Update Slurm partition settings";
   mkPermission "slurm_partition" "delete" "Delete Slurm partitions";
   mkPermission "hpc_job" "list" "List HPC jobs";
   mkPermission "hpc_job" "get" "View HPC job details and logs";
   mkPermission "hpc_job" "create" "Submit HPC jobs";
   mkPermission "hpc_job" "delete" "Cancel or delete HPC jobs";
   mkPermission "slurm_user" "list" "List Slurm user mappings";
   mkPermission "slurm_user" "create" "Sync IAM users to Slurm";
   mkPermission "slurm_user" "delete" "Remove Slurm user mappings";
   mkPermission "hpc_monitoring" "list" "View HPC metrics and dashboards";
   mkPermission "caas_cluster" "list" "List CaaS clusters";
   mkPermission "caas_cluster" "get" "View CaaS cluster details";
   mkPermission "caas_cluster" "create" "Create CaaS clusters";
   mkPermission "caas_cluster" "update" "Update CaaS clusters";
   mkPermission "caas_cluster" "delete" "Delete CaaS clusters";
   mkPermission "caas_cluster" "scale" "Scale CaaS cluster nodes";
   mkPermission "bucket" "list" "List buckets";
   mkPermission "bucket" "create" "Create buckets";
   mkPermission "bucket" "update" "Update bucket settings";
   mkPermission "bucket" "delete" "Delete buckets";
   mkPermission "s3_credential" "list" "List S3 credentials";
   mkPermission "s3_credential" "create" "Create S3 credentials";
   mkPermission "s3_credential" "delete" "Revoke S3 credentials";
   mkPermission "stack" "list" "List stacks";
   mkPermission "stack" "get" "View stack details";
   mkPermission "stack" "create" "Create stacks";
   mkPermission "stack" "update" "Update stacks";
   mkPermission "stack" "delete" "Delete stacks";
   mkPermission "template" "list" "List templates";
   mkPermission "template" "create" "Create templates";
   mkPermission "template" "delete" "Delete templates"].

(** The entries whose key has not been seen before. *)
Fixpoint add_unseen (seen : gset string) (ps : list perm) : list perm :=
  match ps with
  | [] => []
  | p :: ps =>
      if decide (perm_key p ∈ seen) then add_unseen seen ps
      else p :: add_unseen ({[ perm_key p ]} ∪ seen) ps
  end.

Definition defaultPermissions : list perm :=
  add_unseen ∅
    (((λ m, mkPermission (am_Resource m) (am_Action m) (am_Description m)) <$> Registry)
     ++ hpcPermissions).

Definition memberExcludedResources : list string :=
  ["user"; "role"; "policy"; "host"; "cluster"; "flavor"; "hpc_cluster"; "slurm_cluster";
   "slurm_partition"; "slurm_user"].

Definition manage_actions : list string :=
  ["list"; "get"; "create"; "update"; "delete"; "start"; "stop"; "reboot"; "console";
   "attach"; "detach"; "scale"].

(** The actions of each role; their descriptions are only shown. *)
Definition defaultRoles : list (string * list string) :=
  [("admin", ["*"]); ("operator", manage_actions); ("member", manage_actions);
   ("viewer", ["list"; "get"])].

#[global] Opaque hpcPermissions defaultPermissions.

(** ** Seeding *)

(** A row of the permission table; names are unique there. *)
Record Permission := mkRow {
  Name : string;
  row_Resource : string;
  row_Action : string;
  row_Description : string
}.

(** The permission table, for each role its permissions, and the roles of the
    user "admin" if there is one. *)
Record DB := mkDB {
  permissions : list Permission;
  role_permissions : gmap string (list Permission);
  admin_roles : option (list string)
}.

Definition has_name (name : string) (rows : list Permission) : bool :=
  existsb (λ p, bool_decide (Name p = name)) rows.

Section seed.

(** The permissions whose insertion fails and the roles that cannot be written;
    a failure is only logged. *)
Variables create_fails role_fails : string → bool.

Definition seed_row (row : Permission) (rows : list Permission) : list Permission :=
  if has_name (Name row) rows then rows
  else if create_fails (Name row) then rows
  else rows ++ [row].

Definition seed_permission (rows : list Permission) (dp : perm) : list Permission :=
  let name := perm_key dp in
  let rows :=
    seed_row (mkRow name (perm_Resource dp) (perm_Action dp) (perm_Description dp)) rows in
  match LegacyToNew !! name with
  | Some newName =>
      seed_row (mkRow newName (perm_Resource dp) (perm_Action dp)
                  (perm_Description dp +:+ " [v2]")) rows
  | None => rows
  end.

Definition seedDefaultPermissions (db : DB) : DB :=
  mkDB (fold_left seed_permission defaultPermissions (permissions db)) (role_permissions db)
    (admin_roles db).

Definition rolePerms (roleName : string) (actions : list string) (allPerms : list Permission)
    : list Permission :=
  if bool_decide (actions = ["*"]) then allPerms
  else
    filter (λ p, bool_decide (row_Action p ∈ actions)
                 && negb (bool_decide (roleName = "member")
                          && bool_decide (row_Resource p ∈ memberExcludedResources)) = true)
      allPerms.

(** Each role is created if it is missing and its permissions are replaced; the
    roles do not depend on each other, so the order of the Go map is of no
    account. *)
Definition seedDefaultRoles (db : DB) : DB :=
  mkDB (permissions db)
    (fold_left (λ m role,
       if role_fails role.1 then m
       else <[role.1 := rolePerms role.1 role.2 (permissions db)]> m)
       defaultRoles (role_permissions db))
    (admin_roles db).

Definition SeedRBAC (db : DB) : DB :=
  let db := seedDefaultRoles (seedDefaultPermissions db) in
  match admin_roles db with
  | Some roles =>
      if bool_decide (is_Some (role_permissions db !! "admin")) && negb (bool_decide ("admin" ∈ roles))
      then mkDB (permissions db) (role_permissions db) (Some (roles ++ ["admin"]))
      else db
  | None => db
  end.

(** ** Theorems *)

Lemma SeedRBAC_roles db :
  permissions (SeedRBAC db) = permissions (seedDefaultPermissions db) ∧
  role_permissions (SeedRBAC db) =
    role_permissions (seedDefaultRoles (seedDefaultPermissions db)).
Proof. unfold SeedRBAC. destruct (admin_roles _); [|done]. by destruct (_ && _). Qed.

Lemma elem_of_rolePerms p role actions rows :
  actions ≠ ["*"] →
  p ∈ rolePerms role actions rows ↔
  p ∈ rows ∧ row_Action p ∈ actions ∧
  (role = "member" → row_Resource p ∉ memberExcludedResources).
Proof.
  intros Ha. unfold rolePerms. rewrite bool_decide_eq_false_2 by done.
  rewrite list_elem_of_filter, andb_true_iff, negb_true_iff, andb_false_iff.
  rewrite bool_decide_eq_true, !bool_decide_eq_false.
  destruct (decide (role = "member")); tauto.
Qed.

Lemma seeded_role db role actions :
  role_fails role = false → map_get defaultRoles role = Some actions →
  role_permissions (SeedRBAC db) !! role
    = Some (rolePerms role actions (permissions (SeedRBAC db))).
Proof.
  intros Hf Hd. destruct (SeedRBAC_roles db) as [-> ->].
  set (rows := permissions (seedDefaultPermissions db)).
  unfold seedDefaultRoles. cbn [permissions role_permissions]. fold rows.
  unfold defaultRoles in *. cbn [fold_left fst snd].
  unfold map_get in Hd. repeat case_decide; simplify_eq; rewrite Hf;
    repeat match goal with |- context [if role_fails ?r then _ else _] =>
      destruct (role_fails r) end; by simplify_map_eq.
Qed.

(** After seeding, whatever the database held before, every role that could
    be written has exactly these of the permissions: the admin all of them, the
    viewer those to list and get, the operator those of the managing actions,
    and the member the operator's except on the excluded resources. *)
Theorem seeded_roles db p :
  let db' := SeedRBAC db in
  let has role := ∃ ps, role_permissions db' !! role = Some ps ∧ p ∈ ps in
  p ∈ permissions db' →
  (role_fails "admin" = false → has "admin") ∧
  (role_fails "viewer" = false → (has "viewer" ↔ row_Action p ∈ ["list"; "get"])) ∧
  (role_fails "operator" = false → (has "operator" ↔ row_Action p ∈ manage_actions)) ∧
  (role_fails "member" = false → (has "member" ↔
     row_Action p ∈ manage_actions ∧ row_Resource p ∉ memberExcludedResources)).
Proof.
  intros db' has Hin.
  assert (∀ role actions, role_fails role = false → map_get defaultRoles role = Some actions →
    (has role ↔ p ∈ rolePerms role actions (permissions db'))) as H.
  { intros role actions Hf Hm. unfold has, db'. rewrite (seeded_role _ _ _ Hf Hm). naive_solver. }
  split_and!; intros Hf.
  - by apply (H "admin" ["*"]).
  - rewrite (H "viewer" ["list"; "get"]), elem_of_rolePerms by done. naive_solver.
  - rewrite (H "operator" manage_actions), elem_of_rolePerms by done. naive_solver.
  - rewrite (H "member" manage_actions), elem_of_rolePerms by done. naive_solver.
Qed.

(** ** Seeding again *)

Definition settled (rows : list Permission) (name : string) : bool :=
  has_name name rows || create_fails name.

Lemma has_name_app name rows row : has_name name rows = true → has_name name (rows ++ [row]) = true.
Proof. unfold has_name. rewrite existsb_app. by intros ->. Qed.

Lemma seed_row_settles row rows name :
  settled rows name = true ∨ name = Name row → settled (seed_row row rows) name = true.
Proof.
  unfold seed_row, settled. destruct (has_name (Name row) rows) eqn:Hn.
  { intros [?| ->]; [done|]. by rewrite Hn. }
  destruct (create_fails (Name row)) eqn:Hc.
  { intros [?| ->]; [done|]. by rewrite Hc, orb_true_r. }
  intros [H| ->].
  - apply orb_true_iff in H as [H| ->]; [|by rewrite orb_true_r]. by rewrite has_name_app.
  - unfold has_name. rewrite existsb_app. simpl.
    by rewrite bool_decide_eq_true_2, !orb_true_r.
Qed.

Lemma seed_row_settled row rows : settled rows (Name row) = true → seed_row row rows = rows.
Proof.
  unfold seed_row, settled. destruct (has_name _ _); [done|]. simpl. by intros ->.
Qed.

(** The names of an entry. *)
Definition names (dp : perm) : list string :=
  perm_key dp :: match LegacyToNew !! perm_key dp with Some n => [n] | None => [] end.

Lemma seed_permission_settles dp rows name :
  settled rows name = true ∨ name ∈ names dp → settled (seed_permission rows dp) name = true.
Proof.
  unfold seed_permission, names. intros H.
  destruct (LegacyToNew !! perm_key dp) as [n|]; apply seed_row_settles; simpl;
    [destruct (decide (name = n)); [by right|left; apply seed_row_settles]|];
    destruct H as [H|H]; [by left| |by left|]; set_solver.
Qed.

Lemma seed_permission_settled dp rows :
  (∀ name, name ∈ names dp → settled rows name = true) → seed_permission rows dp = rows.
Proof.
  unfold seed_permission, names. intros H.
  destruct (LegacyToNew !! perm_key dp) as [n|]; rewrite !seed_row_settled; try done;
    rewrite ?seed_row_settled; try (apply H; set_solver); try done; apply H; set_solver.
Qed.

Lemma fold_settles dps rows name :
  settled rows name = true ∨ (∃ dp, dp ∈ dps ∧ name ∈ names dp) →
  settled (fold_left seed_permission dps rows) name = true.
Proof.
  revert rows; induction dps as [|dp dps IH]; intros rows H; simpl.
  { destruct H as [H|(?&H&_)]; [done|]. by apply elem_of_nil in H. }
  apply IH. destruct H as [H|(dp'&Hin&Hn)]; [left; by apply seed_permission_settles; left|].
  apply elem_of_cons in Hin as [->|Hin]; [|right; eauto].
  left. by apply seed_permission_settles; right.
Qed.

Lemma fold_settled dps rows :
  (∀ dp name, dp ∈ dps → name ∈ names dp → settled rows name = true) →
  fold_left seed_permission dps rows = rows.
Proof.
  induction dps as [|dp dps IH]; intros H; simpl; [done|].
  rewrite seed_permission_settled by (intros name Hn; apply (H dp); [by left|done]).
  apply IH. intros dp' name Hd Hn. apply (H dp'); [by right|done].
Qed.

Lemma seedDefaultPermissions_idem db db' :
  permissions db' = permissions (seedDefaultPermissions db) →
  permissions (seedDefaultPermissions db') = permissions db'.
Proof.
  intros E. unfold seedDefaultPermissions in *. simpl in *. rewrite E.
  apply fold_settled. intros dp name Hd Hn. apply fold_settles. eauto.
Qed.

Lemma seedDefaultRoles_idem db :
  role_permissions (seedDefaultRoles (seedDefaultPermissions (SeedRBAC db)))
    = role_permissions (SeedRBAC db).
Proof.
  assert (permissions (seedDefaultPermissions (SeedRBAC db)) = permissions (SeedRBAC db)) as Hp.
  { apply (seedDefaultPermissions_idem db). apply SeedRBAC_roles. }
  unfold seedDefaultRoles. cbn [role_permissions]. rewrite Hp.
  change (role_permissions (seedDefaultPermissions (SeedRBAC db)))
    with (role_permissions (SeedRBAC db)).
  unfold defaultRoles. cbn [fold_left fst snd].
  repeat match goal with |- context [if role_fails ?r then _ else _] =>
    destruct (role_fails r) eqn:?;
      [|rewrite (insert_id _ r) by (by apply seeded_role)] end; done.
Qed.

Lemma SeedRBAC_admin db :
  admin_roles (SeedRBAC db) =
    match admin_roles db with
    | Some roles => Some (if bool_decide (is_Some (role_permissions (SeedRBAC db) !! "admin"))
                             && negb (bool_decide ("admin" ∈ roles))
                          then roles ++ ["admin"] else roles)
    | None => None
    end.
Proof.
  destruct (SeedRBAC_roles db) as [_ ->]. unfold SeedRBAC.
  change (admin_roles (seedDefaultRoles _)) with (admin_roles db).
  destruct (admin_roles db) as [roles|] eqn:E; [|by rewrite <-E].
  destruct (_ && _); [done|]. by rewrite <-E.
Qed.

(** Seeding a second time changes nothing, provided that the same writes
    fail as the first time. *)
Theorem seed_idempotent db : SeedRBAC (SeedRBAC db) = SeedRBAC db.
Proof.
  assert (∀ a b : DB, permissions a = permissions b → role_permissions a = role_permissions b →
    admin_roles a = admin_roles b → a = b) as Hext by (intros [] [] ? ? ?; by simplify_eq/=).
  destruct (SeedRBAC_roles (SeedRBAC db)) as [Hp Hr].
  assert (role_permissions (SeedRBAC (SeedRBAC db)) = role_permissions (SeedRBAC db)) as Hr'
    by (rewrite Hr; apply seedDefaultRoles_idem).
  apply Hext; [|done|].
  - rewrite Hp. apply (seedDefaultPermissions_idem db). apply SeedRBAC_roles.
  - rewrite (SeedRBAC_admin (SeedRBAC db)), Hr', (SeedRBAC_admin db).
    generalize (bool_decide (is_Some (role_permissions (SeedRBAC db) !! "admin"))).
    clear Hext Hp Hr Hr'. intros b. destruct (admin_roles db) as [roles|]; [|done]. apply (f_equal Some).
    destruct b; [|done]. simpl.
    destruct (bool_decide ("admin" ∈ roles)) eqn:Ha; simpl; [by rewrite Ha|].
    rewrite (bool_decide_eq_true_2 ("admin" ∈ roles ++ ["admin"])); [done|].
    apply elem_of_app. right. left.
Qed.
End seed.

(** ** The seeded database *)

Definition fresh : DB := SeedRBAC (λ _, false) (λ _, false) (mkDB [] ∅ (Some [])).

(** The permissions that [generateAccessToken] puts into the token of a user
    with a role. *)
Definition token_permissions (db : DB) (role : string) : list string :=
  (λ p, row_Resource p +:+ ":" +:+ row_Action p) <$> default [] (role_permissions db !! role).

(** The operator role, meant for managing resources without identity and
    infrastructure, gets the permissions to change users, roles, policies and
    hosts. *)
Theorem operator_manages_identity :
  forallb (λ p, bool_decide (p ∈ token_permissions fresh "operator"))
    ["user:create"; "user:delete"; "role:update"; "policy:create"; "policy:delete";
     "host:create"; "host:delete"; "cluster:delete"] = true.
Proof. vm_compute. reflexivity. Qed.

(** The routes of the compute and of the host service that require a
    permission: method, path, resource and action. *)
Definition compute_routes : list (string * (string * string)) :=
  [("GET /instances", ("instance", "list")); ("POST /instances", ("instance", "create"));
   ("GET /instances/:id", ("instance", "get")); ("PUT /instances/:id", ("instance", "update"));
   ("DELETE /instances/:id", ("instance", "delete"));
   ("POST /instances/:id/start", ("instance", "update"));
   ("POST /instances/:id/stop", ("instance", "update"));
   ("POST /instances/:id/reboot", ("instance", "update"));
   ("GET /flavors", ("flavor", "list")); ("POST /flavors", ("flavor", "create"));
   ("GET /flavors/:id", ("flavor", "get")); ("DELETE /flavors/:id", ("flavor", "delete"))].

Definition host_routes : list (string * (string * string)) :=
  [("POST /hosts/test-connection", ("host", "create")); ("GET /hosts", ("host", "list"));
   ("GET /hosts/install-script", ("host", "list")); ("POST /hosts/deploy", ("host", "create"));
   ("GET /hosts/:id", ("host", "get")); ("PUT /hosts/:id", ("host", "update"));
   ("DELETE /hosts/:id", ("host", "delete")); ("POST /hosts/:id/enable", ("host", "create"));
   ("POST /hosts/:id/disable", ("host", "create"));
   ("POST /hosts/:id/maintenance", ("host", "create"));
   ("POST /hosts/:id/evacuate", ("host", "create"))].

(** Some of these routes require a permission that the seeding never
    creates, so a token with all seeded permissions is refused there: all
    routes of instances, and the single flavor and the single host. *)
Theorem unreachable_routes :
  (filter (λ ra, passes (RequirePermission LegacyToNew ra.2.1 ra.2.2 get_request
    (user_context (token_permissions fresh "admin"))) = false) (compute_routes ++ host_routes)).*1
  = ["GET /instances"; "POST /instances"; "GET /instances/:id"; "PUT /instances/:id";
     "DELETE /instances/:id"; "POST /instances/:id/start"; "POST /instances/:id/stop";
     "POST /instances/:id/reboot"; "GET /flavors/:id"; "GET /hosts/:id"].
Proof. vm_compute. reflexivity. Qed.

Lemma seeded_roles_witness :
  let p := mkRow "volume:list" "volume" "list" "List volumes" in
  p ∈ permissions fresh ∧
  ∃ ps, role_permissions fresh !! "viewer" = Some ps ∧ p ∈ ps.
Proof.
  intros p.
  assert (existsb (λ q, bool_decide (Name q = Name p ∧ row_Resource q = row_Resource p ∧
    row_Action q = row_Action p ∧ row_Description q = row_Description p)) (permissions fresh)
    = true) as E by (vm_compute; reflexivity).
  assert (p ∈ permissions fresh) as Hp.
  { apply existsb_elem in E as (q&Hq&Hn). apply bool_decide_eq_true in Hn as (E1&E2&E3&E4).
    destruct q as [a b c d]. simpl in E1, E2, E3, E4. subst. exact Hq. }
  split; [exact Hp|].
  exact (proj2 (proj1 (proj2 (seeded_roles (λ _, false) (λ _, false) (mkDB [] ∅ (Some [])) p Hp))
    eq_refl) (list_elem_of_here _ _)).
Defined.
