(* ===== verification/Ipam.v ===== *)
(** * IP address management

    internal/management/network: the allocator of addresses (ipam.go) and the
    compiler of security group rules (security_compiler.go). The theorems say
    that an allocation is new, lies in the range and is no reserved address;
    that in a range of an IPv4 subnet of at most 2048 addresses an allocation fails
    only when every address is taken, wherever the random search starts; and what
    happens beyond these bounds. *)
From S2P Require Import Prelude GoStrings NetIP.
Local Open Scope Z_scope.

Record Subnet := mkSubnet {
  ID : string;
  CIDR : string;
  Gateway : string;
  AllocationStart : string;
  AllocationEnd : string
}.

(** The tables: subnets by their id, and the port of each allocation; the
    unique index makes the subnet and the address a key. *)
Record DB := mkDB {
  subnets : gmap string Subnet;
  allocations : gmap (string * string) string
}.

(** ** IP arithmetic *)

(** [x.Bytes()] of the absolute value, padded to 16 bytes; the only number here
    that needs more is 2^128. *)
Definition padded (x : Z) : IP :=
  be_bytes (if Z.abs x <? 2 ^ 128 then 16 else 17) (Z.abs x).

Definition nextIP (ip : IP) : IP := padded (SetBytes (default [] (To16 ip)) + 1).

Definition prevIP (ip : IP) : IP := padded (SetBytes (default [] (To16 ip)) - 1).

(** [strings.Compare] on byte strings. *)
Fixpoint Compare (a b : list Z) : comparison :=
  match a, b with
  | [], [] => Eq
  | [], _ => Lt
  | _, [] => Gt
  | x :: a, y :: b => match x ?= y with Eq => Compare a b | c => c end
  end.

Definition compareIP (a b : IP) : comparison :=
  Compare (default [] (To16 a)) (default [] (To16 b)).

Definition leIP (a b : IP) : bool :=
  match compareIP a b with Gt => false | _ => true end.

(** The broadcast address of a network, from the four bytes of its address. *)
Definition broadcast (v4 : IP) (mask : list Z) : IP :=
  zip_with (λ a m, Z.lor a (255 - m)) v4 (take 4 mask).

Definition firstUsableIP (n : IPNet) (start : string) : IP :=
  match (if decide (start = "") then None else ParseIP start) with
  | Some ip => ip
  | None => nextIP (IP_Mask (net_IP n) (net_Mask n))
  end.

Definition lastUsableIP (n : IPNet) (end_ : string) : IP :=
  match (if decide (end_ = "") then None else ParseIP end_) with
  | Some ip => ip
  | None =>
      match To4 (net_IP n) with
      | Some v4 => prevIP (broadcast v4 (net_Mask n))
      | None => prevIP (IP_Mask (net_IP n) (net_Mask n))
      end
  end.

Definition isNetworkOrBroadcast (ip : IP) (n : IPNet) : bool :=
  if negb (Contains n ip) then false
  else if IP_Equal ip (IP_Mask (net_IP n) (net_Mask n)) then true
  else
    match To4 ip with
    | Some v4 => IP_Equal v4 (broadcast (default [] (To4 (net_IP n))) (net_Mask n))
    | None => false
    end.

(** ** Allocation *)

Definition nextWrapped (curr begin cutoff : IP) : IP :=
  if leIP cutoff curr then begin else nextIP curr.

(** The loop of [countRange]; it ends after 2049 turns at the latest. *)
Fixpoint count_from (fuel : nat) (ip end_ : IP) (ipnet : IPNet) (count : Z) : Z :=
  match fuel with
  | O => 2048
  | S fuel =>
      if leIP ip end_ && Contains ipnet ip then
        let count := count + 1 in
        if 2048 <? count then 2048 else count_from fuel (nextIP ip) end_ ipnet count
      else count
  end.

Definition countRange (begin end_ : IP) (ipnet : IPNet) : Z :=
  count_from 2049 begin end_ ipnet 0.

Inductive ipam_error :=
| LockFailed
| InvalidCIDR (cidr : string)
| NoUsableIPs
| PersistFailed
| SubnetFull (id : string).

(** Whether the search skips an address or finds it taken. *)
Definition skipped (s : Subnet) (ipnet : IPNet) (curr : IP) : bool :=
  isNetworkOrBroadcast curr ipnet
  || (negb (bool_decide (Gateway s = "")) && bool_decide (IP_String curr = Gateway s)).

Definition taken (db : DB) (id : string) (curr : IP) : bool :=
  bool_decide (is_Some (allocations db !! (id, IP_String curr))).

(** The search for a free address; [attempts] are left. *)
Fixpoint search (attempts : nat) (db : DB) (s : Subnet) (ipnet : IPNet)
    (curr begin cutoff : IP) : option IP :=
  match attempts with
  | O => None
  | S attempts =>
      if skipped s ipnet curr || taken db (ID s) curr
      then search attempts db s ipnet (nextWrapped curr begin cutoff) begin cutoff
      else Some curr
  end.

(** The transaction of [Allocate]. The row lock makes it one step; [rand] is the
    random number drawn, and [create_fails] tells that the insertion fails. *)
Definition Allocate (rand : Z) (create_fails : bool) (db : DB) (subnetID portID : string)
    : result ipam_error string * DB :=
  match subnets db !! subnetID with
  | None => (Err LockFailed, db)
  | Some s =>
      match ParseCIDR (CIDR s) with
      | None => (Err (InvalidCIDR (CIDR s)), db)
      | Some (_, ipnet) =>
          let begin := firstUsableIP ipnet (AllocationStart s) in
          let cutoff := lastUsableIP ipnet (AllocationEnd s) in
          let totalUsable := countRange begin cutoff ipnet in
          if totalUsable <=? 0 then (Err NoUsableIPs, db)
          else
            let offset := rand mod totalUsable in
            let curr := Nat.iter (Z.to_nat offset) nextIP begin in
            match search (Z.to_nat totalUsable) db s ipnet curr begin cutoff with
            | None => (Err (SubnetFull (ID s)), db)
            | Some ip =>
                if create_fails then (Err PersistFailed, db)
                else (Ok (IP_String ip),
                      mkDB (subnets db) (<[(ID s, IP_String ip) := portID]> (allocations db)))
            end
      end
  end.

Definition Release (db : DB) (subnetID ip : string) : DB :=
  mkDB (subnets db) (delete (subnetID, ip) (allocations db)).

(** ** Security group rules *)

Record SecurityGroupRule := mkSGRule {
  sg_Direction : string;
  EtherType : string;
  Protocol : string;
  RemoteIPPrefix : string;
  PortRangeMin : Z;
  PortRangeMax : Z
}.

Record ACLRule := mkACL {
  Priority : Z;
  acl_Direction : string;
  acl_Match : string;
  acl_Action : string
}.

Definition CompileRule (rule : SecurityGroupRule) : ACLRule :=
  let egress := bool_decide (sg_Direction rule = "egress") in
  let v6 := bool_decide (EtherType rule = "IPv6") in
  let direction := if egress then "from-lport" else "to-lport" in
  let family := if v6 then "ip6" else "ip4" in
  let field := family +:+ (if egress then ".dst" else ".src") in
  let matchParts :=
    [family]
    ++ (if decide (Protocol rule = "") then [] else [Protocol rule])
    ++ (if decide (RemoteIPPrefix rule = "") then []
        else [field +:+ " == " +:+ RemoteIPPrefix rule])
    ++ (if PortRangeMin rule =? 0 then []
        else if PortRangeMin rule =? PortRangeMax rule then
          [Protocol rule +:+ ".dst == " +:+ Itoa (PortRangeMin rule)]
        else
          [Protocol rule +:+ ".dst >= " +:+ Itoa (PortRangeMin rule) +:+ " && "
           +:+ Protocol rule +:+ ".dst <= " +:+ Itoa (PortRangeMax rule)]) in
  mkACL 1000 direction (str_concat " && " matchParts) "allow-related".

Definition CompileGroup (rules : list SecurityGroupRule) : list ACLRule :=
  mkACL 0 "to-lport" "ip" "drop" :: mkACL 0 "from-lport" "ip" "allow-related"
  :: (CompileRule <$> rules).

(** ** IP arithmetic on numbers *)

(** The 16-byte address of a number. *)
Abbreviation addr := (be_bytes 16).

Definition is_addr (x : Z) : Prop := 0 <= x < 2 ^ 128.

Lemma To16_addr x : To16 (addr x) = Some (addr x).
Proof. unfold To16. rewrite be_bytes_length. by rewrite decide_False, decide_True. Qed.

Lemma SetBytes_addr x : is_addr x → SetBytes (addr x) = x.
Proof. intros Hx. by apply SetBytes_be_bytes. Qed.

Lemma padded_addr x : is_addr x → padded x = addr x.
Proof.
  unfold is_addr. intros Hx. unfold padded. rewrite Z.abs_eq by lia.
  by rewrite (proj2 (Z.ltb_lt _ _)) by lia.
Qed.

Lemma nextIP_addr x : is_addr x → is_addr (x + 1) → nextIP (addr x) = addr (x + 1).
Proof. intros. unfold nextIP. rewrite To16_addr. cbn [from_option id]. by rewrite SetBytes_addr, padded_addr. Qed.

Lemma prevIP_addr x : is_addr x → is_addr (x - 1) → prevIP (addr x) = addr (x - 1).
Proof. intros. unfold prevIP. rewrite To16_addr. cbn [from_option id]. by rewrite SetBytes_addr, padded_addr. Qed.

Lemma Compare_SetBytes a b :
  length a = length b → Forall is_byte a → Forall is_byte b →
  Compare a b = (SetBytes a ?= SetBytes b).
Proof.
  revert b; induction a as [|x a IH]; intros [|y b] Hl Ha Hb; try done.
  simpl in Hl. apply list.Forall_cons in Ha as [Hx Ha], Hb as [Hy Hb]. injection Hl as Hl.
  cbn [Compare]. rewrite !SetBytes_cons, Hl.
  pose proof (SetBytes_bound a Ha) as Ba. pose proof (SetBytes_bound b Hb) as Bb.
  rewrite Hl in Ba. set (p := 256 ^ Z.of_nat (length b)) in *.
  destruct (Z.compare_spec x y) as [->|Hc|Hc].
  - rewrite IH by done. destruct (Z.compare_spec (SetBytes a) (SetBytes b)); symmetry;
      [apply Z.compare_eq_iff|apply Z.compare_lt_iff|apply Z.compare_gt_iff]; lia.
  - symmetry. apply Z.compare_lt_iff. nia.
  - symmetry. apply Z.compare_gt_iff. nia.
Qed.

Lemma leIP_addr x y : is_addr x → is_addr y → leIP (addr x) (addr y) = (x <=? y).
Proof.
  intros. unfold leIP, compareIP. rewrite !To16_addr. cbn [from_option id].
  rewrite Compare_SetBytes by (rewrite ?be_bytes_length; auto using be_bytes_byte).
  rewrite !SetBytes_addr by done. unfold Z.leb. by destruct (x ?= y).
Qed.

(** ** Walking a range *)

Section range.
Context (db : DB) (s : Subnet) (ipnet : IPNet) (b e : Z).
Hypothesis Hb : is_addr b.
Hypothesis He : is_addr (e + 1).
Hypothesis Hbe : b <= e.
Hypothesis Hnet : ∀ v, b <= v <= e → Contains ipnet (addr v) = true.

Let in_addr v : b <= v <= e → is_addr v.
Proof. unfold is_addr in *. lia. Qed.

Lemma iter_nextIP k : b + Z.of_nat k <= e → Nat.iter k nextIP (addr b) = addr (b + Z.of_nat k).
Proof.
  induction k as [|k IH]; intros Hk; [by rewrite Z.add_0_r|].
  cbn [Nat.iter nat_rect]. unfold Nat.iter in IH. rewrite IH by lia.
  rewrite nextIP_addr by (apply in_addr; lia). f_equal. lia.
Qed.

Lemma count_from_range fuel c :
  (Z.to_nat (2049 - c) <= fuel)%nat → 0 <= c <= 2048 → c <= e + 1 - b →
  count_from fuel (addr (b + c)) (addr e) ipnet c = Z.min 2048 (e + 1 - b).
Proof.
  revert c; induction fuel as [|fuel IH]; intros c Hf Hc Hce; [lia|].
  cbn [count_from]. unfold is_addr in *.
  rewrite leIP_addr by (unfold is_addr; lia).
  destruct (Z.leb_spec (b + c) e) as [Hle|Hgt]; simpl; [|lia].
  rewrite Hnet by lia. destruct (Z.ltb_spec 2048 (c + 1)) as [Hlt|Hge]; [lia|].
  rewrite nextIP_addr by (unfold is_addr; lia).
  replace (b + c + 1) with (b + (c + 1)) by lia. apply IH; lia.
Qed.

Lemma countRange_range : countRange (addr b) (addr e) ipnet = Z.min 2048 (e + 1 - b).
Proof.
  unfold countRange. replace (addr b) with (addr (b + 0)) by (f_equal; lia).
  apply count_from_range; simpl; lia.
Qed.

Lemma nextWrapped_range v :
  b <= v <= e →
  nextWrapped (addr v) (addr b) (addr e) = addr (if v =? e then b else v + 1).
Proof.
  intros Hv. unfold nextWrapped. rewrite leIP_addr by (apply in_addr; lia).
  destruct (Z.leb_spec e v), (Z.eqb_spec v e); try lia; [done|].
  apply nextIP_addr; apply in_addr; lia.
Qed.

Definition free (v : Z) : bool :=
  negb (skipped s ipnet (addr v) || taken db (ID s) (addr v)).

(** The address visited after [j] turns, starting at [b + o]. *)
Definition visited (o j : Z) : Z := b + (o + j) mod (e + 1 - b).

Lemma visited_range o j : b <= visited o j <= e.
Proof. unfold visited. pose proof (Z.mod_pos_bound (o + j) (e + 1 - b)). lia. Qed.

Lemma visited_next o j :
  (if visited o j =? e then b else visited o j + 1) = visited o (j + 1).
Proof.
  unfold visited. set (m := e + 1 - b). assert (0 < m) as Hm by lia.
  replace (o + (j + 1)) with (o + j + 1) by lia.
  pose proof (Z.mod_pos_bound (o + j) m Hm).
  destruct (Z.eqb_spec (b + (o + j) mod m) e) as [E|E].
  - rewrite <-Z.add_mod_idemp_l by lia. replace ((o + j) mod m + 1) with m by lia.
    rewrite Z.mod_same by lia. lia.
  - rewrite <-(Z.add_mod_idemp_l (o + j)) by lia.
    rewrite (Z.mod_small ((o + j) mod m + 1)) by lia. lia.
Qed.

(** The search returns the first free address on its way, if there is one. *)
Lemma search_range k o j :
  match search k db s ipnet (addr (visited o j)) (addr b) (addr e) with
  | Some ip => ∃ i, 0 <= i < Z.of_nat k ∧ ip = addr (visited o (j + i)) ∧
                    free (visited o (j + i)) = true
  | None => ∀ i, 0 <= i < Z.of_nat k → free (visited o (j + i)) = false
  end.
Proof.
  revert j; induction k as [|k IH]; intros j; [cbn; lia|]. cbn [search].
  destruct (skipped s ipnet (addr (visited o j)) || taken db (ID s) (addr (visited o j))) eqn:E.
  - rewrite nextWrapped_range, visited_next by apply visited_range. specialize (IH (j + 1)).
    destruct (search _ _ _ _ _ _ _).
    + destruct IH as (i&Hi&->&Hf). exists (i + 1).
      replace (j + (i + 1)) with (j + 1 + i) by lia. split; [lia|done].
    + intros i Hi. destruct (decide (i = 0)) as [->|].
      * rewrite Z.add_0_r. unfold free. by rewrite E.
      * replace (j + i) with (j + 1 + (i - 1)) by lia. apply IH. lia.
  - exists 0. rewrite Z.add_0_r. split; [lia|]. split; [done|]. unfold free. by rewrite E.
Qed.

Lemma visited_all o v : b <= v <= e → ∃ i, 0 <= i < e + 1 - b ∧ visited o i = v.
Proof.
  intros Hv. set (m := e + 1 - b). exists ((v - b - o) mod m).
  pose proof (Z.mod_pos_bound (v - b - o) m). split; [lia|]. unfold visited. fold m.
  rewrite Z.add_mod_idemp_r by lia. rewrite Z.mod_small; lia.
Qed.
End range.

(** ** IPv4 subnets *)

Lemma IP_Mask_4 ip m : length ip = 4%nat → length m = 4%nat → IP_Mask ip m = zip_with Z.land ip m.
Proof.
  intros Hi Hm. do 5 (destruct ip as [|? ip]; try discriminate).
  by do 5 (destruct m as [|? m]; try discriminate).
Qed.

Section v4.
Context (base n : Z).
Hypothesis Hn : 0 <= n <= 30.
Hypothesis Hbase : 0 <= base < 2 ^ 32.
Hypothesis Haligned : base mod 2 ^ (32 - n) = 0.

Let size := 2 ^ (32 - n).

Lemma v4_size : 4 <= size ∧ base + size <= 2 ^ 32.
Proof.
  unfold size. assert (2 ^ 32 = 2 ^ (32 - n) * 2 ^ n) as E
    by (rewrite <-Z.pow_add_r by lia; f_equal; lia).
  assert (2 ^ 2 <= 2 ^ (32 - n)) by (apply Z.pow_le_mono_r; lia).
  assert (0 < 2 ^ n) by (apply Z.pow_pos_nonneg; lia).
  split; [lia|]. rewrite (Z.div_mod base (2 ^ (32 - n))), Haligned by lia.
  rewrite Z.add_0_r. pose proof (Z.div_lt_upper_bound base (2 ^ (32 - n)) (2 ^ n)). nia.
Qed.

Lemma v4_is_addr v : 0 <= v <= 2 ^ 32 → is_addr (v4base + v).
Proof. unfold is_addr, v4base. lia. Qed.

Lemma v4_masked : IP_Mask (be_bytes 4 base) (CIDRMask n 4) = be_bytes 4 base.
Proof.
  rewrite IP_Mask_4 by (rewrite ?be_bytes_length; done). rewrite mask_v4 by lia. f_equal. pose proof v4_size.
  pose proof (Z.div_mod base (2 ^ (32 - n))). unfold size in *. lia.
Qed.

Lemma To16_v4 v : 0 <= v < 2 ^ 32 → To16 (be_bytes 4 v) = Some (addr (v4base + v)).
Proof. intros. unfold To16. by rewrite be_bytes_length, decide_True, v4_form. Qed.

(** What the text of a bound of the range stands for, with the default. *)
Definition range_bound (text : string) (dflt v : Z) : Prop :=
  match ParseIP text with Some ip => ip = addr (v4base + v) | None => v = dflt end.

Lemma bound_text (text : string) :
  (if decide (text = "") then None else ParseIP text) = ParseIP text.
Proof. case_decide; [by subst|done]. Qed.

Lemma v4_first start v :
  range_bound start (base + 1) v → firstUsableIP (v4net base n) start = addr (v4base + v).
Proof.
  unfold firstUsableIP, range_bound. rewrite bound_text. destruct (ParseIP start); [done|intros ->].
  cbn [net_IP net_Mask v4net]. rewrite v4_masked. pose proof v4_size. unfold nextIP. rewrite To16_v4 by lia.
  cbn [from_option id]. rewrite SetBytes_addr by (apply v4_is_addr; lia).
  rewrite padded_addr, Z.add_assoc; [done|]. rewrite <-Z.add_assoc. apply v4_is_addr. lia.
Qed.

Lemma v4_broadcast : broadcast (be_bytes 4 base) (CIDRMask n 4) = be_bytes 4 (base + size - 1).
Proof.
  unfold broadcast. change (take 4 (CIDRMask n 4)) with (CIDRMask n 4).
  rewrite broadcast_v4 by lia. f_equal. pose proof v4_size.
  pose proof (Z.div_mod base (2 ^ (32 - n))). unfold size in *. lia.
Qed.

Lemma v4_last end_ v :
  range_bound end_ (base + size - 2) v → lastUsableIP (v4net base n) end_ = addr (v4base + v).
Proof.
  unfold lastUsableIP, range_bound. rewrite bound_text. destruct (ParseIP end_); [done|intros ->].
  cbn [net_IP net_Mask v4net]. rewrite To4_4, v4_broadcast. pose proof v4_size. unfold prevIP. rewrite To16_v4 by lia.
  cbn [from_option id]. rewrite SetBytes_addr by (apply v4_is_addr; lia).
  replace (v4base + (base + size - 1) - 1) with (v4base + (base + size - 2)) by lia.
  apply padded_addr, v4_is_addr. lia.
Qed.

Lemma be_bytes_4_eq v w : 0 <= v < 2 ^ 32 → 0 <= w < 2 ^ 32 → be_bytes 4 v = be_bytes 4 w ↔ v = w.
Proof. intros Hv Hw. split; [|by intros ->]. intros E. apply be_bytes_inj in E; simpl; lia. Qed.

Lemma v4_inside v :
  base <= v < base + size →
  Contains (v4net base n) (addr (v4base + v)) = true ∧
  isNetworkOrBroadcast (addr (v4base + v)) (v4net base n) = bool_decide (v = base ∨ v = base + size - 1).
Proof.
  intros Hv. pose proof v4_size.
  assert (Contains (v4net base n) (addr (v4base + v)) = true) as Hc.
  { rewrite Contains_v4 by lia. apply bool_decide_eq_true, div_same; [lia|done|].
    fold size. lia. }
  split; [done|]. unfold isNetworkOrBroadcast. rewrite Hc. cbn [negb net_IP net_Mask v4net].
  rewrite v4_masked, To4_v4, To4_4 by lia. cbn [from_option id]. rewrite v4_broadcast.
  unfold IP_Equal. rewrite !be_bytes_length.
  rewrite decide_False, decide_False, decide_True, decide_True by (intros; lia || naive_solver).
  rewrite v4_form by lia. 
  destruct (decide (v = base)) as [->|Hne].
  - rewrite !bool_decide_eq_true_2; [done|by left|done].
  - rewrite bool_decide_eq_false_2 by (intros [_ E]; apply Hne; apply be_bytes_4_eq; [lia..|exact E]).
    apply bool_decide_ext. rewrite be_bytes_4_eq by lia. naive_solver.
Qed.
End v4.

Lemma free_v4 db s base n v :
  0 <= n <= 30 → 0 <= base < 2 ^ 32 → base mod 2 ^ (32 - n) = 0 →
  base <= v < base + 2 ^ (32 - n) →
  free db s (v4net base n) (v4base + v) = true ↔
  (v ≠ base ∧ v ≠ base + 2 ^ (32 - n) - 1) ∧
  (Gateway s = "" ∨ IP_String (addr (v4base + v)) ≠ Gateway s) ∧
  allocations db !! (ID s, IP_String (addr (v4base + v))) = None.
Proof.
  intros Hn Hb Ha Hv. destruct (v4_inside base n) with (v := v) as [_ Hi]; try done.
  unfold free, skipped, taken. rewrite Hi, negb_true_iff, !orb_false_iff.
  rewrite andb_false_iff, negb_false_iff, bool_decide_eq_true, !bool_decide_eq_false.
  rewrite <-eq_None_not_Some. tauto.
Qed.

(** A range of such a subnet, and the place where the search starts. *)
Lemma range_v4 rand base n lo hi :
  0 <= base < 2 ^ 32 → base mod 2 ^ (32 - n) = 0 → 0 <= n <= 30 →
  base <= lo → lo <= hi → hi < base + 2 ^ (32 - n) →
  let b := v4base + lo in
  let e := v4base + hi in
  let total := countRange (addr b) (addr e) (v4net base n) in
  is_addr b ∧ is_addr (e + 1) ∧ b <= e ∧ total = Z.min 2048 (hi + 1 - lo) ∧
  Nat.iter (Z.to_nat (rand mod total)) nextIP (addr b) = addr (visited b e (rand mod total) 0).
Proof.
  intros Hb Ha Hn Hlo Hlh Hhi b e total. destruct (v4_size base n) as [Hsz Hle]; [lia|done|done|].
  assert (is_addr b) as Hab by (apply (v4_is_addr lo); lia).
  assert (is_addr (e + 1)) as Hae.
  { replace (e + 1) with (v4base + (hi + 1)) by (unfold e; lia). apply (v4_is_addr (hi + 1)); lia. }
  assert (b <= e) as Hbe by (unfold b, e; lia).
  assert (total = Z.min 2048 (hi + 1 - lo)) as Ht.
  { unfold total. rewrite countRange_range; try done; [unfold b, e; lia|].
    intros v Hv. replace v with (v4base + (v - v4base)) by lia.
    apply v4_inside; unfold b, e in *; lia. }
  split_and!; try done.
  pose proof (Z.mod_pos_bound rand total ltac:(lia)) as Ho. set (o := rand mod total) in *.
  assert (e + 1 - b = hi + 1 - lo) as Hm by (unfold b, e; lia).
  rewrite (iter_nextIP b e) by (try done; rewrite Z2Nat.id; lia). rewrite Z2Nat.id by lia.
  unfold visited. rewrite Hm, Z.add_0_r, Z.mod_small by lia. done.
Qed.

(** The search of [Allocate] in a range that it can walk through. *)
Lemma search_v4 rand db s base n lo hi :
  0 <= base < 2 ^ 32 → base mod 2 ^ (32 - n) = 0 → 0 <= n <= 30 →
  base <= lo → lo <= hi → hi < base + 2 ^ (32 - n) → hi - lo < 2048 →
  let b := v4base + lo in
  let e := v4base + hi in
  let total := countRange (addr b) (addr e) (v4net base n) in
  0 < total ∧
  match search (Z.to_nat total) db s (v4net base n)
          (Nat.iter (Z.to_nat (rand mod total)) nextIP (addr b)) (addr b) (addr e) with
  | Some ip => ∃ v, lo <= v <= hi ∧ ip = addr (v4base + v) ∧ free db s (v4net base n) (v4base + v) = true
  | None => ∀ v, lo <= v <= hi → free db s (v4net base n) (v4base + v) = false
  end.
Proof.
  intros Hb Ha Hn Hlo Hlh Hhi Hsize b e total.
  destruct (range_v4 rand base n lo hi Hb Ha Hn Hlo Hlh Hhi) as (Hab&Hae&Hbe&Ht&Hi).
  fold b e total in Hab, Hae, Hbe, Ht, Hi. rewrite Hi. set (o := rand mod total). clearbody o.
  split; [lia|]. assert (e + 1 - b = total) as Hm by (rewrite Ht; unfold b, e; lia).
  pose proof (search_range db s (v4net base n) b e Hab Hae Hbe (Z.to_nat total) o 0) as Hsr.
  destruct (search _ _ _ _ _ _ _) as [ip|].
  - destruct Hsr as (i&_&->&Hf). pose proof (visited_range b e Hbe o (0 + i)) as Hv.
    exists (visited b e o (0 + i) - v4base). rewrite Zplus_minus.
    split; [unfold b, e in *; lia|done].
  - intros v Hv. destruct (visited_all b e Hbe o (v4base + v)) as (i&?&<-);
      [unfold b, e; lia|]. apply (Hsr i). lia.
Qed.

(** C5: In an IPv4 subnet whose range of allocation, from [lo] to [hi], lies in the
    subnet and has at most 2048 addresses, wherever the random search starts, an
    allocation is refused as full exactly if each address of the range is the
    network's, the broadcast address, the gateway or taken; otherwise it succeeds
    unless the insertion fails. And an address that is allocated was free, is one
    of the range but none of the reserved ones, and is recorded for the port. A
    bound of the range is the one that the subnet has, if it is an address, and
    by default the first address after the network's or the last one before the
    broadcast address. *)
Theorem allocate_v4 rand fails db id port s ip0 base n lo hi :
  subnets db !! id = Some s → ID s = id →
  ParseCIDR (CIDR s) = Some (ip0, v4net base n) →
  0 <= base < 2 ^ 32 → base mod 2 ^ (32 - n) = 0 → 0 <= n <= 30 →
  range_bound (AllocationStart s) (base + 1) lo →
  range_bound (AllocationEnd s) (base + 2 ^ (32 - n) - 2) hi →
  base <= lo → lo <= hi → hi < base + 2 ^ (32 - n) → hi - lo < 2048 →
  let usable v := lo <= v <= hi ∧ v ≠ base ∧ v ≠ base + 2 ^ (32 - n) - 1 in
  let available v :=
    (Gateway s = "" ∨ IP_String (addr (v4base + v)) ≠ Gateway s) ∧
    allocations db !! (id, IP_String (addr (v4base + v))) = None in
  (∃ v, usable v ∧ available v ∧
     Allocate rand fails db id port =
       if fails then (Err PersistFailed, db)
       else (Ok (IP_String (addr (v4base + v))),
             mkDB (subnets db) (<[(id, IP_String (addr (v4base + v))) := port]> (allocations db)))) ∨
  (∀ v, usable v → ¬ available v) ∧ Allocate rand fails db id port = (Err (SubnetFull id), db).
Proof.
  intros Hs Hid Hp Hb Ha Hn Hst Hen Hlo Hlh Hhi Hsize usable available.
  unfold Allocate. rewrite Hs, Hp, (v4_first base n ltac:(lia) Hb Ha _ lo Hst), (v4_last base n ltac:(lia) Hb Ha _ hi Hen).
  destruct (search_v4 rand db s base n lo hi Hb Ha Hn Hlo Hlh Hhi Hsize) as (Hpos&Hsearch).
  rewrite (proj2 (Z.leb_gt _ _) Hpos). destruct (search _ _ _ _ _ _ _) as [ip|].
  - destruct Hsearch as (v&Hv&->&Hf). left. exists v.
    apply (free_v4 db s base n v Hn Hb Ha ltac:(lia)) in Hf as [Hr Hf]. rewrite Hid in *.
    split; [by split|]. split; [exact Hf|]. by destruct fails.
  - right. rewrite Hid. split; [|done]. intros v [Hv Hr] Hav.
    pose proof (proj2 (free_v4 db s base n v Hn Hb Ha ltac:(lia))) as Hf.
    rewrite (Hsearch v Hv), Hid in Hf. discriminate (Hf (conj Hr Hav)).
Qed.

(** ** Larger subnets *)

Lemma visited_inj b e o i j :
  0 <= i < e + 1 - b → 0 <= j < e + 1 - b → visited b e o i = visited b e o j → i = j.
Proof.
  unfold visited. intros Hi Hj E. set (m := e + 1 - b) in *.
  apply Z.add_reg_l in E as Em.
  assert ((i - j) mod m = 0) as Hz.
  { replace (i - j) with ((o + i) - (o + j)) by lia.
    rewrite Zminus_mod, Em, Z.sub_diag. apply Z.mod_0_l. clear E Em. lia. }
  destruct (decide (i = j)) as [|Hne]; [done|].
  apply Z.mod_divide in Hz as [q Hq]; [|clear E Em; lia]. clear E Em. clearbody m.
  assert (q = 0 ∨ 1 <= q ∨ q <= -1) as [->|[Hq'|Hq']] by lia; nia.
Qed.

(** The database in which the addresses that the search visits are taken. *)
Definition exhausted (s : Subnet) (b e o : Z) (k : nat) : DB :=
  mkDB {[ID s := s]} (list_to_map ((λ i, ((ID s, IP_String (addr (visited b e o (Z.of_nat i)))), ""))
                                     <$> seq 0 k)).

Lemma exhausted_lookup s b e o k ip :
  allocations (exhausted s b e o k) !! (ID s, ip) = None ↔
  ¬ ∃ i, 0 <= i < Z.of_nat k ∧ ip = IP_String (addr (visited b e o i)).
Proof.
  unfold exhausted. cbn [allocations]. rewrite <-not_elem_of_list_to_map.
  rewrite list_elem_of_fmap. setoid_rewrite list_elem_of_fmap. split; intros H E; apply H.
  - destruct E as (i&Hi&->). eexists. split; [|exists (Z.to_nat i); split; [reflexivity|]].
    + cbn [fst]. by rewrite Z2Nat.id by lia.
    + apply elem_of_seq. lia.
  - destruct E as (p&E&i&->&Hi). cbn [fst] in E. injection E as ->. exists (Z.of_nat i). split; [|done].
    apply elem_of_seq in Hi. lia.
Qed.

(** An address that the search has not reached yet is free there. *)
Lemma exhausted_free s b e o k j :
  v4base <= b → b <= e → e < v4base + 2 ^ 32 → Z.of_nat k <= j < e + 1 - b →
  allocations (exhausted s b e o k) !! (ID s, IP_String (addr (visited b e o j))) = None.
Proof.
  intros Hb Hbe He Hj. apply exhausted_lookup. intros (i&Hi&E).
  pose proof (visited_range b e Hbe o i) as Vi. pose proof (visited_range b e Hbe o j) as Vj.
  assert (visited b e o j - v4base = visited b e o i - v4base) as Ev.
  { apply IP_String_v4_inj; [lia..|]. by rewrite !Zplus_minus. }
  assert (i = j) by (apply (visited_inj b e o); lia). lia.
Qed.

Lemma two_addresses b e o j g :
  v4base <= b → b <= e → e < v4base + 2 ^ 32 → 0 <= j → j + 1 < e + 1 - b →
  ∃ k, j <= k <= j + 1 ∧ IP_String (addr (visited b e o k)) ≠ g.
Proof.
  intros Hb Hbe He Hj Hj'.
  destruct (decide (IP_String (addr (visited b e o j)) = g)) as [E|E];
    [|exists j; split; [lia|done]].
  exists (j + 1). split; [lia|]. rewrite <-E. intros E2.
  pose proof (visited_range b e Hbe o j). pose proof (visited_range b e Hbe o (j + 1)).
  assert (visited b e o (j + 1) - v4base = visited b e o j - v4base) as Ev.
  { apply IP_String_v4_inj; [lia..|]. by rewrite !Zplus_minus. }
  assert (j + 1 = j) by (apply (visited_inj b e o); lia). lia.
Qed.

Lemma exhausted_search s ipnet b e o k :
  is_addr b → is_addr (e + 1) → b <= e →
  search k (exhausted s b e o k) s ipnet (addr (visited b e o 0)) (addr b) (addr e) = None.
Proof.
  intros Hb He Hbe.
  pose proof (search_range (exhausted s b e o k) s ipnet b e Hb He Hbe k o 0) as Hsr.
  destruct (search _ _ _ _ _ _ _) as [ip|]; [|done].
  destruct Hsr as (i&Hin&_&Hf). unfold free, taken in Hf. zbool. exfalso.
  rewrite <-eq_None_not_Some in H0. apply exhausted_lookup in H0. apply H0. exists i. done.
Qed.

(** In an IPv4 subnet of 2^12 addresses or more the search gives up after
    2048 of them: wherever it starts, there is a database in which the
    allocation is refused as full although an address that is not the gateway
    is free. *)
Theorem large_subnet_reported_full rand port s ip0 base n :
  ParseIP (AllocationStart s) = None → ParseIP (AllocationEnd s) = None →
  ParseCIDR (CIDR s) = Some (ip0, v4net base n) →
  0 <= base < 2 ^ 32 → base mod 2 ^ (32 - n) = 0 → 0 <= n <= 20 →
  ∃ db, subnets db !! ID s = Some s ∧
    Allocate rand false db (ID s) port = (Err (SubnetFull (ID s)), db) ∧
    ∃ v, base < v < base + 2 ^ (32 - n) - 1 ∧ IP_String (addr (v4base + v)) ≠ Gateway s ∧
      allocations db !! (ID s, IP_String (addr (v4base + v))) = None.
Proof.
  intros Hst Hen Hp Hb Ha Hn.
  destruct (v4_size base n) as [Hsz Hle]; [lia|done|done|].
  assert (2 ^ 12 <= 2 ^ (32 - n)) as H12 by (apply Z.pow_le_mono_r; lia).
  destruct (range_v4 rand base n (base + 1) (base + 2 ^ (32 - n) - 2) Hb Ha) as (Hab&Hae&Hbe&Ht&Hi); [lia..|].
  set (b := v4base + (base + 1)) in *. set (e := v4base + (base + 2 ^ (32 - n) - 2)) in *.
  set (total := countRange (addr b) (addr e) (v4net base n)) in *.
  set (o := rand mod total) in *. exists (exhausted s b e o (Z.to_nat total)).
  split; [apply lookup_singleton_eq|]. split.
  - unfold Allocate. rewrite (lookup_singleton_eq (ID s) s : subnets (exhausted s b e o _) !! _ = _).
    rewrite Hp, (v4_first base n) with (v := base + 1), (v4_last base n) with (v := base + 2 ^ (32 - n) - 2);
      try (done || lia || by (unfold range_bound; rewrite ?Hst, ?Hen)).
    fold b e total o. rewrite (proj2 (Z.leb_gt total 0)) by lia.
    by rewrite Hi, exhausted_search.
  - destruct (two_addresses b e o total (Gateway s)) as (k&Hk&Hg); [unfold b, e; lia..|].
    exists (visited b e o k - v4base). rewrite Zplus_minus.
    pose proof (visited_range b e Hbe o k). split_and!; [unfold b, e in *; lia..|done|].
    apply exhausted_free; unfold b, e in *; lia.
Qed.

Lemma large_subnet_reported_full_witness :
  let s := mkSubnet "s2" "10.0.0.0/20" "10.0.0.1" "" "" in
  ∃ db, (Allocate 12345 false db "s2" "p").1 = Err (SubnetFull "s2").
Proof.
  intros s.
  assert (ParseCIDR (CIDR s) = Some ([0; 0; 0; 0; 0; 0; 0; 0; 0; 0; 255; 255; 10; 0; 0; 0],
    v4net 167772160 20)) as Hp by (vm_compute; reflexivity).
  destruct (large_subnet_reported_full 12345 "p" s _ 167772160 20 eq_refl eq_refl Hp)
    as (db&_&E&_); [lia|vm_compute; reflexivity|lia|].
  exists db. change "s2" with (ID s). rewrite E. reflexivity.
Defined.

(** ** Examples *)

(** A database with one subnet, in which the given addresses are taken. *)
Definition one_subnet (s : Subnet) (taken : list string) : DB :=
  mkDB {[ID s := s]} (list_to_map ((λ ip, ((ID s, ip), "port")) <$> taken)).

Definition lan : Subnet := mkSubnet "s1" "192.168.1.0/29" "192.168.1.1" "" "192.168.1.5".

Lemma allocate_v4_witness :
  let db := one_subnet lan ["192.168.1.2"; "192.168.1.3"; "192.168.1.4"] in
  (Allocate 77 false db "s1" "p").1 = Ok "192.168.1.5" ∧
  (∃ v, (3232235777 <= v <= 3232235781)%Z ∧
     (Allocate 77 false db "s1" "p").1 = Ok (IP_String (addr (v4base + v)))).
Proof.
  intros db. split; [vm_compute; reflexivity|].
  assert (ParseCIDR (CIDR lan) = Some ([0; 0; 0; 0; 0; 0; 0; 0; 0; 0; 255; 255; 192; 168; 1; 0],
    v4net 3232235776 29)) as Hp by (vm_compute; reflexivity).
  destruct (allocate_v4 77 false db "s1" "p" lan _ 3232235776 29 3232235777 3232235781
    eq_refl eq_refl Hp) as [(v&[Hv _]&_&E)|[_ E]];
    [lia|vm_compute; reflexivity|lia|vm_compute; reflexivity|vm_compute; reflexivity|lia|lia|vm_compute; reflexivity|lia| |].
  - exists v. split; [exact Hv|]. rewrite E. reflexivity.
  - exfalso. apply (f_equal (λ r, is_ok r.1)) in E. vm_compute in E. discriminate E.
Defined.

(** The end of an explicit range is not confined to the subnet, and the
    search walks on: here it hands out an address outside of the subnet. *)
Theorem allocation_outside_subnet :
  let s := mkSubnet "s3" "192.168.1.0/29" "192.168.1.1" "192.168.1.4" "192.168.1.20" in
  (Allocate 3 false (one_subnet s []) "s3" "p").1 = Ok "192.168.1.8" ∧
  option_map (λ c, Contains c.2 (default [] (ParseIP "192.168.1.8"))) (ParseCIDR (CIDR s))
    = Some false.
Proof. split; vm_compute; reflexivity. Qed.

(** An IPv6 subnet without an explicit end of the range has no usable
    address, and a gateway that is not written in canonical form is handed
    out. *)
Theorem ipv6_limits :
  let s end_ := mkSubnet "s4" "2001:db8::/64" "2001:DB8::1" "2001:db8::1" end_ in
  (Allocate 0 false (one_subnet (s "") []) "s4" "p").1 = Err NoUsableIPs ∧
  (Allocate 0 false (one_subnet (s "2001:db8::9") []) "s4" "p").1 = Ok "2001:db8::1" ∧
  ParseIP (Gateway (s "")) = ParseIP "2001:db8::1".
Proof. split_and!; vm_compute; reflexivity. Qed.
