(* ===== verification/Sha256.v ===== *)
(** * SHA-256 and HMAC

    Go's packages crypto/sha256, crypto/hmac and encoding/hex, as far as the
    signatures of API keys use them: SHA-256 of FIPS 180-4 on lists of bytes,
    HMAC of RFC 2104, and lower-case hexadecimal text. *)
From S2P Require Import Prelude GoStrings NetIP.
From Stdlib Require Import Ascii.
Local Open Scope Z_scope.

(** [hex.EncodeToString]. *)
Definition hex_byte (b : Z) (s : string) : string :=
  String (digit_char (b / 16)) (String (digit_char (b mod 16)) s).

Definition EncodeToString (bs : list Z) : string := foldr hex_byte EmptyString bs.

(** ** The compression function, on 32-bit words *)

Definition add32 (x y : Z) : Z := (x + y) mod 2 ^ 32.

Definition rotr (n x : Z) : Z := Z.lor (Z.shiftr x n) (Z.shiftl x (32 - n) mod 2 ^ 32).

Definition Ch (x y z : Z) : Z := Z.lxor (Z.land x y) (Z.land (2 ^ 32 - 1 - x) z).
Definition Maj (x y z : Z) : Z :=
  Z.lxor (Z.land x y) (Z.lxor (Z.land x z) (Z.land y z)).
Definition Sigma0 (x : Z) : Z := Z.lxor (rotr 2 x) (Z.lxor (rotr 13 x) (rotr 22 x)).
Definition Sigma1 (x : Z) : Z := Z.lxor (rotr 6 x) (Z.lxor (rotr 11 x) (rotr 25 x)).
Definition sigma0 (x : Z) : Z := Z.lxor (rotr 7 x) (Z.lxor (rotr 18 x) (Z.shiftr x 3)).
Definition sigma1 (x : Z) : Z := Z.lxor (rotr 17 x) (Z.lxor (rotr 19 x) (Z.shiftr x 10)).

(** The constants of the standard: the first 32 bits of the fractional parts of
    the cube roots of the first 64 primes, and of the square roots of the first 8. *)
Definition is_prime (n : Z) : bool :=
  forallb (λ d, negb (n mod Z.of_nat d =? 0)) (seq 2 (Z.to_nat (Z.sqrt n) - 1)).

Definition primes : list Z :=
  Eval vm_compute in filter (λ n, is_prime n = true) (Z.of_nat <$> seq 2 310).

(** The greatest number whose cube is at most [n], bit by bit from [2 ^ bits]. *)
Fixpoint cube_root (bits : nat) (n root : Z) : Z :=
  match bits with
  | O => root
  | S bits =>
      let next := root + 2 ^ Z.of_nat bits in
      cube_root bits n (if next * next * next <=? n then next else root)
  end.

Definition K256 : list Z :=
  Eval vm_compute in (λ p, cube_root 36 (p * 2 ^ 96) 0 mod 2 ^ 32) <$> take 64 primes.

Definition H256 : list Z :=
  Eval vm_compute in (λ p, Z.sqrt (p * 2 ^ 64) mod 2 ^ 32) <$> take 8 primes.

(** The message schedule, its newest word first: [n] words are to be added. *)
Fixpoint schedule (n : nat) (w : list Z) : list Z :=
  match n with
  | O => w
  | S n =>
      let at_ i := nth i w 0 in
      schedule n (add32 (add32 (sigma1 (at_ 1%nat)) (at_ 6%nat))
                        (add32 (sigma0 (at_ 14%nat)) (at_ 15%nat)) :: w)
  end.

Definition round (v : list Z) (kw : Z * Z) : list Z :=
  match v with
  | [a; b; c; d; e; f; g; h] =>
      let t1 := add32 (add32 h (Sigma1 e)) (add32 (Ch e f g) (add32 kw.1 kw.2)) in
      let t2 := add32 (Sigma0 a) (Maj a b c) in
      [add32 t1 t2; a; b; c; add32 d t1; e; f; g]
  | _ => v
  end.

Fixpoint words32 (bs : list Z) : list Z :=
  match bs with
  | a :: b :: c :: d :: bs => SetBytes [a; b; c; d] :: words32 bs
  | _ => []
  end.

Definition compress (h : list Z) (block : list Z) : list Z :=
  let w := rev (schedule 48 (rev (words32 block))) in
  zip_with add32 h (fold_left round (zip K256 w) h).

(** ** The hash *)

Definition padding (len : Z) : list Z :=
  128 :: replicate (Z.to_nat ((55 - len) mod 64)) 0 ++ be_bytes 8 (8 * len).

Fixpoint blocks (n : nat) (bs : list Z) (h : list Z) : list Z :=
  match n with
  | O => h
  | S n => blocks n (drop 64 bs) (compress h (take 64 bs))
  end.

Definition sha256 (bs : list Z) : list Z :=
  let padded := bs ++ padding (Z.of_nat (length bs)) in
  concat (be_bytes 4 <$> blocks (length padded / 64) padded H256).

(** [hmac.New(sha256.New, key)]. *)
Definition hmac (key msg : list Z) : list Z :=
  let key := if decide (64 < length key)%nat then sha256 key else key in
  let key := key ++ replicate (64 - length key) 0 in
  sha256 ((Z.lxor 0x5c <$> key) ++ sha256 ((Z.lxor 0x36 <$> key) ++ msg)).

(** ** Test vectors of the standards *)

Example sha256_abc :
  EncodeToString (sha256 (bytes_of "abc"))
  = "ba7816bf8f01cfea414140de5dae2223b00361a396177a9cb410ff61f20015ad".
Proof. vm_compute. reflexivity. Qed.

Example sha256_two_blocks :
  EncodeToString (sha256 (bytes_of "abcdbcdecdefdefgefghfghighijhijkijkljklmklmnlmnomnopnopq"))
  = "248d6a61d20638b8e5c026930c3e6039a33ce45964ff2167f6ecedd419db06c1".
Proof. vm_compute. reflexivity. Qed.

Example hmac_rfc4231 :
  EncodeToString (hmac (bytes_of "Jefe") (bytes_of "what do ya want for nothing?"))
  = "5bdcc146bf60754e6a042426089575c75a003f089d2739839dec58b964ec3843".
Proof. vm_compute. reflexivity. Qed.
