(* ===== verification/Aes.v ===== *)
(** * AES-GCM and base64

    Go's packages crypto/aes, crypto/cipher and encoding/base64, as far as
    secrets use them: the block cipher of FIPS 197 on lists of bytes, with its
    substitution box computed from inverses in the field of 256 elements, the
    Galois/Counter Mode of NIST SP 800-38D with 12-byte nonces and 16-byte tags,
    and the standard base64 alphabet. The theorems say that opening undoes sealing
    for every block function, and that decoding undoes encoding. *)
From Stdlib Require Import Ascii.
From S2P Require Import Prelude GoStrings Utf8 NetIP.
Local Open Scope Z_scope.

(** ** The field of 256 elements *)

Definition xtime (b : Z) : Z :=
  let d := Z.shiftl b 1 in if Z.testbit b 7 then Z.lxor (Z.land d 255) 27 else d.

Fixpoint gmul_bits (n : nat) (a b : Z) : Z :=
  match n with
  | O => 0
  | S n => Z.lxor (if Z.odd b then a else 0) (gmul_bits n (xtime a) (Z.div2 b))
  end.

Definition gmul (a b : Z) : Z := gmul_bits 8 a b.

(** The inverse is the power 254. *)
Definition ginv (a : Z) : Z :=
  let a2 := gmul a a in let a4 := gmul a2 a2 in let a8 := gmul a4 a4 in
  let a16 := gmul a8 a8 in let a32 := gmul a16 a16 in let a64 := gmul a32 a32 in
  let a128 := gmul a64 a64 in
  gmul a128 (gmul a64 (gmul a32 (gmul a16 (gmul a8 (gmul a4 a2))))).

Definition rotl8 (n b : Z) : Z := Z.lor (Z.land (Z.shiftl b n) 255) (Z.shiftr b (8 - n)).

Definition sbox_byte (a : Z) : Z :=
  let i := ginv a in
  Z.lxor i (Z.lxor (rotl8 1 i) (Z.lxor (rotl8 2 i) (Z.lxor (rotl8 3 i) (Z.lxor (rotl8 4 i) 99)))).

Definition sbox : list Z := Eval vm_compute in (sbox_byte <$> seqZ 0 256).

Definition SubByte (b : Z) : Z := nth (Z.to_nat b) sbox 0.

(** ** The cipher *)

Definition xor_bytes (a b : list Z) : list Z := zip_with Z.lxor a b.

Fixpoint chunks_of (n fuel : nat) (l : list Z) : list (list Z) :=
  match fuel, l with
  | _, [] | O, _ => []
  | S fuel, _ => take n l :: chunks_of n fuel (drop n l)
  end.

(** The words of the key schedule, four bytes each, most recent first. *)
Fixpoint expand (Nk : nat) (todo i : nat) (rcon : Z) (ws : list (list Z)) : list (list Z) :=
  match todo with
  | O => ws
  | S todo =>
      let temp := nth 0 ws [] in
      let back := nth (Nk - 1) ws [] in
      if (i mod Nk =? 0)%nat then
        let t := SubByte <$> (drop 1 temp ++ take 1 temp) in
        expand Nk todo (S i) (xtime rcon) (xor_bytes back (xor_bytes t [rcon; 0; 0; 0]) :: ws)
      else
        let t := if (6 <? Nk)%nat && (i mod Nk =? 4)%nat then SubByte <$> temp else temp in
        expand Nk todo (S i) rcon (xor_bytes back t :: ws)
  end.

(** The round keys, sixteen bytes each. *)
Definition round_keys (key : list Z) : list (list Z) :=
  let Nk := (length key / 4)%nat in
  let ws := expand Nk (4 * (Nk + 7) - Nk) Nk 1 (reverse (chunks_of 4 Nk key)) in
  chunks_of 16 (Nk + 7) (concat (reverse ws)).

(** Byte [r + 4 c] of the state is in row [r] and column [c]. *)
Definition ShiftRows (s : list Z) : list Z :=
  (λ i, nth ((i + 4 * (i mod 4)) mod 16)%nat s 0) <$> seq 0 16.

Definition MixColumn (c : list Z) : list Z :=
  match c with
  | [a; b; c; d] =>
      [Z.lxor (gmul a 2) (Z.lxor (gmul b 3) (Z.lxor c d));
       Z.lxor a (Z.lxor (gmul b 2) (Z.lxor (gmul c 3) d));
       Z.lxor a (Z.lxor b (Z.lxor (gmul c 2) (gmul d 3)));
       Z.lxor (gmul a 3) (Z.lxor b (Z.lxor c (gmul d 2)))]
  | c => c
  end.

Definition MixColumns (s : list Z) : list Z := concat (MixColumn <$> chunks_of 4 4 s).

Fixpoint rounds (s : list Z) (ks : list (list Z)) : list Z :=
  match ks with
  | [] => s
  | [k] => xor_bytes (ShiftRows (SubByte <$> s)) k
  | k :: ks => rounds (xor_bytes (MixColumns (ShiftRows (SubByte <$> s))) k) ks
  end.

Definition aes (key block : list Z) : list Z :=
  match round_keys key with
  | k :: ks => rounds (xor_bytes block k) ks
  | [] => block
  end.

(** ** Galois/Counter Mode *)

Section gcm.
(** The block function under the key. *)
Variable E : list Z → list Z.

Definition NonceSize : nat := 12.
Definition TagSize : nat := 16.

Definition J (nonce : list Z) (ctr : Z) : list Z := nonce ++ be_bytes 4 (ctr mod 2 ^ 32).

(** The key stream from counter [ctr] on, for the given number of blocks. *)
Fixpoint stream (nonce : list Z) (ctr : Z) (blocks : nat) : list Z :=
  match blocks with
  | O => []
  | S n => E (J nonce ctr) ++ stream nonce (ctr + 1) n
  end.

Definition ctr_xor (nonce data : list Z) : list Z :=
  xor_bytes data (stream nonce 2 (length data / 16 + 1)).

(** The product in the field of 2^128 elements, bits reflected. *)
Fixpoint mul128 (n : nat) (x z v : Z) : Z :=
  match n with
  | O => z
  | S n =>
      mul128 n x (if Z.testbit x (Z.of_nat n) then Z.lxor z v else z)
        (if Z.odd v then Z.lxor (Z.div2 v) (225 * 2 ^ 120) else Z.div2 v)
  end.

Definition ghash (h : Z) (data : list Z) : Z :=
  foldl (λ y b, mul128 128 (Z.lxor y (SetBytes b)) 0 h) 0 (chunks_of 16 (length data) data).

Definition pad16 (l : list Z) : list Z := l ++ replicate ((16 - length l mod 16) mod 16) 0.

(** The tag of a cipher text without additional data. *)
Definition tag (nonce ct : list Z) : list Z :=
  let h := SetBytes (E (replicate 16 0)) in
  let s := ghash h (pad16 ct ++ be_bytes 8 0 ++ be_bytes 8 (8 * Z.of_nat (length ct))) in
  xor_bytes (be_bytes 16 s) (E (J nonce 1)).

Definition Seal (nonce plain : list Z) : list Z :=
  let ct := ctr_xor nonce plain in ct ++ tag nonce ct.

Definition Open (nonce sealed : list Z) : option (list Z) :=
  if (length sealed <? TagSize)%nat then None
  else
    let ct := take (length sealed - TagSize) sealed in
    if decide (drop (length sealed - TagSize) sealed = tag nonce ct)
    then Some (ctr_xor nonce ct) else None.
End gcm.

(** ** Base64 *)

Definition b64_char (v : Z) : ascii :=
  chr (if v <? 26 then v + 65 else if v <? 52 then v + 71 else if v <? 62 then v - 4
       else if v =? 62 then 43 else 47).

Definition b64_value (c : ascii) : option Z :=
  let b := byte_of c in
  if (65 <=? b) && (b <=? 90) then Some (b - 65)
  else if (97 <=? b) && (b <=? 122) then Some (b - 71)
  else if (48 <=? b) && (b <=? 57) then Some (b + 4)
  else if b =? 43 then Some 62 else if b =? 47 then Some 63 else None.

Fixpoint b64_encode (bs : list Z) : string :=
  match bs with
  | [] => ""
  | [a] => String (b64_char (a / 4)) (String (b64_char (a mod 4 * 16)) "==")
  | [a; b] =>
      String (b64_char (a / 4)) (String (b64_char (a mod 4 * 16 + b / 16))
        (String (b64_char (b mod 16 * 4)) "="))
  | a :: b :: c :: bs =>
      String (b64_char (a / 4)) (String (b64_char (a mod 4 * 16 + b / 16))
        (String (b64_char (b mod 16 * 4 + c / 64)) (String (b64_char (c mod 64)) (b64_encode bs))))
  end.

(** Decoding skips line ends; the unused bits of the last group are not checked. *)
Fixpoint b64_quads (s : string) : option (list Z) :=
  match s with
  | EmptyString => Some []
  | String x (String y (String z (String w s))) =>
      match b64_value x, b64_value y, b64_value z, b64_value w with
      | Some a, Some b, Some c, Some d =>
          rest ← b64_quads s;
          Some (a * 4 + b / 16 :: b mod 16 * 16 + c / 4 :: c mod 4 * 64 + d :: rest)
      | Some a, Some b, Some c, None =>
          if decide (w = "="%char ∧ s = "") then Some [a * 4 + b / 16; b mod 16 * 16 + c / 4]
          else None
      | Some a, Some b, None, None =>
          if decide (z = "="%char ∧ w = "="%char ∧ s = "") then Some [a * 4 + b / 16] else None
      | _, _, _, _ => None
      end
  | _ => None
  end.

Fixpoint str_filter (f : ascii → bool) (s : string) : string :=
  match s with
  | EmptyString => EmptyString
  | String c s => if f c then String c (str_filter f s) else str_filter f s
  end.

Definition b64_decode (s : string) : option (list Z) :=
  b64_quads (str_filter (λ c, negb (bool_decide (byte_of c ∈ [10; 13]))) s).

(** ** Test vectors of the standards *)

Example sbox_53 : SubByte 0x53 = 0xed.
Proof. reflexivity. Qed.

(** FIPS 197, appendix C. *)
Definition fips_block : list Z := (λ i, 17 * i) <$> seqZ 0 16.

Example aes128_vector :
  aes (seqZ 0 16) fips_block =
  [0x69; 0xc4; 0xe0; 0xd8; 0x6a; 0x7b; 0x04; 0x30; 0xd8; 0xcd; 0xb7; 0x80; 0x70; 0xb4; 0xc5; 0x5a].
Proof. vm_compute. reflexivity. Qed.

Example aes192_vector :
  aes (seqZ 0 24) fips_block =
  [0xdd; 0xa9; 0x7c; 0xa4; 0x86; 0x4c; 0xdf; 0xe0; 0x6e; 0xaf; 0x70; 0xa0; 0xec; 0x0d; 0x71; 0x91].
Proof. vm_compute. reflexivity. Qed.

Example aes256_vector :
  aes (seqZ 0 32) fips_block =
  [0x8e; 0xa2; 0xb7; 0xca; 0x51; 0x67; 0x45; 0xbf; 0xea; 0xfc; 0x49; 0x90; 0x4b; 0x49; 0x60; 0x89].
Proof. vm_compute. reflexivity. Qed.

(** The GCM submission's test cases 13 and 14: a zero key of 32 bytes and a zero
    nonce. *)
Example gcm_empty :
  Seal (aes (replicate 32 0)) (replicate 12 0) [] =
  [0x53; 0x0f; 0x8a; 0xfb; 0xc7; 0x45; 0x36; 0xb9; 0xa9; 0x63; 0xb4; 0xf1; 0xc4; 0xcb; 0x73; 0x8b].
Proof. vm_compute. reflexivity. Qed.

Example gcm_block :
  Seal (aes (replicate 32 0)) (replicate 12 0) (replicate 16 0) =
  [0xce; 0xa7; 0x40; 0x3d; 0x4d; 0x60; 0x6b; 0x6e; 0x07; 0x4e; 0xc5; 0xd3; 0xba; 0xf3; 0x9d; 0x18;
   0xd0; 0xd1; 0xc8; 0xa7; 0x99; 0x99; 0x6b; 0xf0; 0x26; 0x5b; 0x98; 0xb5; 0xd4; 0x8a; 0xb9; 0x19].
Proof. vm_compute. reflexivity. Qed.

(** ** Bytes and lengths *)

Lemma byte_spec x : is_byte x ↔ 0 <= x ∧ Z.log2 x < 8.
Proof.
  unfold is_byte. destruct (Z.eq_dec x 0) as [->|Hx]; [simpl; lia|].
  split; intros [H0 H1]; (split; [done|]).
  - apply Z.log2_lt_pow2; lia.
  - apply Z.log2_lt_pow2 in H1; lia.
Qed.

Lemma lxor_byte a b : is_byte a → is_byte b → is_byte (Z.lxor a b).
Proof.
  rewrite !byte_spec. intros [Ha Ha'] [Hb Hb']. split; [by apply Z.lxor_nonneg|].
  pose proof (Z.log2_lxor a b Ha Hb). lia.
Qed.

Definition bytes_n (n : nat) (l : list Z) : Prop := length l = n ∧ Forall is_byte l.

Lemma xor_bytes_n n a b : bytes_n n a → bytes_n n b → bytes_n n (xor_bytes a b).
Proof.
  intros [Ha Fa] [Hb Fb]. split; [unfold xor_bytes; rewrite length_zip_with; lia|].
  revert b n Ha Hb Fb. induction Fa as [|x a Hx Fa IH]; intros [|y b] n Ha Hb Fb; try done; try constructor.
  - apply list.Forall_cons in Fb as [? _]. by apply lxor_byte.
  - apply list.Forall_cons in Fb as [_ Fb]. simpl in *. apply (IH b (length a)); lia || done.
Qed.

Lemma nth_byte i l : Forall is_byte l → is_byte (nth i l 0).
Proof.
  intros H. revert i. induction H as [|x l Hx Hl IH]; intros [|i]; simpl; try done; split; lia.
Qed.

Lemma SubByte_byte b : is_byte (SubByte b).
Proof.
  apply nth_byte. apply list.Forall_forall. intros x Hx.
  assert (forallb (λ x, (0 <=? x) && (x <? 256)) sbox = true) as H by (by vm_compute).
  rewrite forallb_elem in H. specialize (H x Hx). zbool. by split.
Qed.

Lemma SubBytes_n n l : length l = n → bytes_n n (SubByte <$> l).
Proof.
  intros <-. split; [apply length_fmap|]. apply Forall_fmap, list.Forall_true.
  intros. apply SubByte_byte.
Qed.

Lemma xtime_byte b : is_byte b → is_byte (xtime b).
Proof.
  intros Hb. assert (b ∈ seqZ 0 256) as Hin by (apply elem_of_seqZ; unfold is_byte in Hb; lia).
  assert (forallb (λ b, (0 <=? xtime b) && (xtime b <? 256)) (seqZ 0 256) = true) as H by (by vm_compute).
  rewrite forallb_elem in H. specialize (H b Hin). zbool. by split.
Qed.

Lemma gmul_byte a b : is_byte a → is_byte (gmul a b).
Proof.
  unfold gmul. generalize 8%nat. intros n. revert a b.
  induction n as [|n IH]; intros a b Ha; simpl; [split; lia|].
  apply lxor_byte; [destruct (Z.odd b); [done|split; lia]|]. apply IH. by apply xtime_byte.
Qed.

Lemma bytes_n_app n m a b : bytes_n n a → bytes_n m b → bytes_n (n + m) (a ++ b).
Proof. intros [Ha Fa] [Hb Fb]. split; [rewrite length_app; lia|by apply Forall_app]. Qed.

Lemma bytes_n_take n k a : bytes_n n a → (k <= n)%nat → bytes_n k (take k a).
Proof. intros [Ha Fa] Hk. split; [rewrite length_take; lia|by apply Forall_take]. Qed.

Lemma bytes_n_drop n k a : bytes_n n a → (k <= n)%nat → bytes_n (n - k) (drop k a).
Proof. intros [Ha Fa] Hk. split; [rewrite length_drop; lia|by apply Forall_drop]. Qed.

Lemma chunks_of_n n k l :
  (0 < n)%nat → bytes_n (n * k) l → length (chunks_of n k l) = k ∧ Forall (bytes_n n) (chunks_of n k l).
Proof.
  intros Hn. revert l. induction k as [|k IH]; intros l Hl; [by split; destruct l|].
  destruct l as [|x l]; [destruct Hl; simpl in *; lia|]. simpl chunks_of.
  destruct (IH (drop n (x :: l))) as [H1 H2].
  { replace (n * k)%nat with (n * S k - n)%nat by lia. apply bytes_n_drop; [done|lia]. }
  split; [simpl; congruence|]. constructor; [|done].
  eapply bytes_n_take; [done|lia].
Qed.

Lemma concat_n n k ls : length ls = k → Forall (bytes_n n) ls → bytes_n (n * k) (concat ls).
Proof.
  intros <-. induction 1 as [|l ls Hl Hls IH]; simpl; [split; simpl; [lia|constructor]|].
  replace (n * S (length ls))%nat with (n + n * length ls)%nat by lia. by apply bytes_n_app.
Qed.

(** *** The key schedule and the rounds *)

Lemma expand_n Nk todo i rcon ws :
  is_byte rcon → (1 <= Nk <= length ws)%nat → Forall (bytes_n 4) ws →
  length (expand Nk todo i rcon ws) = (todo + length ws)%nat ∧
  Forall (bytes_n 4) (expand Nk todo i rcon ws).
Proof.
  revert i rcon ws. induction todo as [|todo IH]; intros i rcon ws Hr HNk Hws; [done|].
  assert (∀ j, (j < length ws)%nat → bytes_n 4 (nth j ws [])) as Hnth.
  { intros j Hj. rewrite list.Forall_forall in Hws. apply Hws, list_elem_of_In, nth_In. lia. }
  assert (bytes_n 4 (nth 0 ws [])) as H0 by (apply Hnth; lia).
  assert (bytes_n 4 (nth (Nk - 1) ws [])) as H1 by (apply Hnth; lia).
  simpl. destruct (_ =? 0)%nat.
  - destruct (IH (S i) (xtime rcon) (xor_bytes (nth (Nk - 1) ws []) (xor_bytes
      (SubByte <$> (drop 1 (nth 0 ws []) ++ take 1 (nth 0 ws []))) [rcon; 0; 0; 0]) :: ws)) as [L F].
    + by apply xtime_byte.
    + simpl. lia.
    + constructor; [|done]. apply xor_bytes_n; [done|]. apply xor_bytes_n.
      * apply SubBytes_n. rewrite length_app, length_drop, length_take. destruct H0. lia.
      * split; [done|]. constructor; [done|]. by repeat (constructor; [unfold is_byte; lia|]).
    + rewrite L. simpl. split; [lia|done].
  - match goal with |- context [expand _ _ _ _ (?w :: ws)] =>
      destruct (IH (S i) rcon (w :: ws)) as [L F] end; [done|simpl; lia| |].
    + constructor; [|done]. apply xor_bytes_n; [done|]. destruct (_ && _); [|done].
      apply SubBytes_n. by destruct H0.
    + rewrite L. simpl. split; [lia|done].
Qed.

Lemma round_keys_n Nk key :
  bytes_n (4 * Nk) key → (1 <= Nk)%nat →
  length (round_keys key) = (Nk + 7)%nat ∧ Forall (bytes_n 16) (round_keys key).
Proof.
  intros Hk HNk. unfold round_keys.
  assert (length key / 4 = Nk)%nat as ->.
  { destruct Hk as [-> _]. rewrite Nat.mul_comm. by apply Nat.div_mul. }
  destruct (chunks_of_n 4 Nk key) as [L F]; [lia|done|].
  destruct (expand_n Nk (4 * (Nk + 7) - Nk) Nk 1 (reverse (chunks_of 4 Nk key))) as [L' F'].
  - unfold is_byte. lia.
  - rewrite length_reverse. lia.
  - by apply Forall_reverse.
  - apply chunks_of_n; [lia|].
    replace (16 * (Nk + 7))%nat with (4 * (4 * (Nk + 7)))%nat by lia.
    apply concat_n; [|by apply Forall_reverse]. rewrite length_reverse, L', length_reverse. lia.
Qed.

Lemma ShiftRows_n s : bytes_n 16 s → bytes_n 16 (ShiftRows s).
Proof.
  intros [_ Hs]. split; [done|]. apply Forall_fmap, list.Forall_true. intros i. by apply nth_byte.
Qed.

Lemma MixColumns_n s : bytes_n 16 s → bytes_n 16 (MixColumns s).
Proof.
  intros Hs. destruct (chunks_of_n 4 4 s) as [L F]; [lia|done|].
  apply (concat_n 4 4); [by rewrite length_fmap|]. apply Forall_fmap.
  apply (list.Forall_impl _ _ _ F). intros c [Hl Hc].
  destruct c as [|x [|y [|z [|w [|]]]]]; try done. simpl.
  apply list.Forall_cons in Hc as [Hx Hc]. apply list.Forall_cons in Hc as [Hy Hc].
  apply list.Forall_cons in Hc as [Hz Hc]. apply list.Forall_cons in Hc as [Hw _].
  split; [done|]. repeat (constructor; [auto using lxor_byte, gmul_byte|]). constructor.
Qed.

Lemma rounds_n s ks : bytes_n 16 s → Forall (bytes_n 16) ks → bytes_n 16 (rounds s ks).
Proof.
  intros Hs Hks. revert s Hs. induction Hks as [|k ks Hk Hks IH]; intros s Hs; [done|].
  assert (bytes_n 16 (ShiftRows (SubByte <$> s))) by (by apply ShiftRows_n, SubBytes_n; destruct Hs).
  destruct ks as [|k' ks]; [by apply xor_bytes_n|].
  apply IH, xor_bytes_n; [by apply MixColumns_n|done].
Qed.

(** The cipher maps blocks to blocks, for keys of 16, 24 and 32 bytes. *)
Lemma aes_block Nk key block :
  bytes_n (4 * Nk) key → (1 <= Nk)%nat → bytes_n 16 block → bytes_n 16 (aes key block).
Proof.
  intros Hk HNk Hb. unfold aes. destruct (round_keys_n Nk key Hk HNk) as [L F].
  destruct (round_keys key) as [|k ks]; [done|]. apply list.Forall_cons in F as [Fk F].
  apply rounds_n; [|done]. by apply xor_bytes_n.
Qed.

(** ** Opening undoes sealing *)

Section open_seal.
Variable E : list Z → list Z.
Hypothesis E_block : ∀ b, bytes_n 16 b → bytes_n 16 (E b).

Lemma J_block nonce ctr : bytes_n NonceSize nonce → bytes_n 16 (J nonce ctr).
Proof.
  intros Hn. apply (bytes_n_app 12 4); [done|].
  split; [apply be_bytes_length|apply be_bytes_byte].
Qed.

Lemma stream_n nonce ctr k : bytes_n NonceSize nonce → bytes_n (16 * k) (stream E nonce ctr k).
Proof.
  intros Hn. revert ctr. induction k as [|k IH]; intros ctr; [by split|]. cbn [stream].
  replace (16 * S k)%nat with (16 + 16 * k)%nat by lia. apply bytes_n_app; [|apply IH].
  by apply E_block, J_block.
Qed.

Lemma xor_bytes_involutive a s : (length a <= length s)%nat → xor_bytes (xor_bytes a s) s = a.
Proof.
  unfold xor_bytes. revert s. induction a as [|x a IH]; intros [|y s] H; simpl in *; try done; [lia|].
  rewrite IH by lia. by rewrite Z.lxor_assoc, Z.lxor_nilpotent, Z.lxor_0_r.
Qed.

Lemma ctr_xor_n nonce data n :
  bytes_n NonceSize nonce → bytes_n n data → bytes_n n (ctr_xor E nonce data).
Proof.
  intros Hn Hd. pose proof (stream_n nonce 2 (length data / 16 + 1) Hn) as Hs.
  assert (n <= 16 * (length data / 16 + 1))%nat.
  { destruct Hd as [-> _]. pose proof (Nat.div_mod n 16). pose proof (Nat.mod_upper_bound n 16). lia. }
  assert (ctr_xor E nonce data = xor_bytes data (take n (stream E nonce 2 (length data / 16 + 1)))) as ->.
  { unfold ctr_xor, xor_bytes. destruct Hd as [<- _]. by rewrite <- zip_with_take_r. }
  apply xor_bytes_n; [done|]. by eapply bytes_n_take.
Qed.

Lemma ctr_xor_involutive nonce data :
  bytes_n NonceSize nonce → ctr_xor E nonce (ctr_xor E nonce data) = data.
Proof.
  intros Hn. assert (length data <= 16 * (length data / 16 + 1))%nat.
  { pose proof (Nat.div_mod (length data) 16). pose proof (Nat.mod_upper_bound (length data) 16). lia. }
  destruct (stream_n nonce 2 (length data / 16 + 1) Hn) as [Hs _].
  assert (length (ctr_xor E nonce data) = length data) as Hl.
  { unfold ctr_xor, xor_bytes. rewrite length_zip_with, Hs. lia. }
  unfold ctr_xor at 1. rewrite Hl. apply xor_bytes_involutive. lia.
Qed.

Lemma tag_n nonce ct : bytes_n NonceSize nonce → bytes_n TagSize (tag E nonce ct).
Proof.
  intros Hn. apply xor_bytes_n; [split; [apply be_bytes_length|apply be_bytes_byte]|].
  by apply E_block, J_block.
Qed.

Lemma Seal_n nonce plain n :
  bytes_n NonceSize nonce → bytes_n n plain → bytes_n (n + TagSize) (Seal E nonce plain).
Proof. intros Hn Hp. apply bytes_n_app; [by apply ctr_xor_n|by apply tag_n]. Qed.

Theorem Open_Seal nonce plain :
  bytes_n NonceSize nonce → Open E nonce (Seal E nonce plain) = Some plain.
Proof.
  intros Hn. destruct (tag_n nonce (ctr_xor E nonce plain) Hn) as [Ht _].
  unfold Open, Seal. rewrite length_app, Ht.
  replace (length (ctr_xor E nonce plain) + TagSize - TagSize)%nat
    with (length (ctr_xor E nonce plain)) by lia.
  rewrite take_app_length, drop_app_length, decide_True by done.
  destruct (_ <? _)%nat eqn:Hlt; [apply Nat.ltb_lt in Hlt; lia|]. by rewrite ctr_xor_involutive.
Qed.
End open_seal.

(** ** Decoding undoes encoding *)

Lemma b64_value_char v : 0 <= v < 64 → b64_value (b64_char v) = Some v.
Proof.
  intros Hv. assert (v ∈ seqZ 0 64) as Hin by (apply elem_of_seqZ; lia).
  assert (forallb (λ v, bool_decide (b64_value (b64_char v) = Some v)) (seqZ 0 64) = true) as H
    by (by vm_compute).
  rewrite forallb_elem in H. specialize (H v Hin). by zbool.
Qed.

Lemma b64_char_kept v : 0 <= v < 64 →
  negb (bool_decide (byte_of (b64_char v) ∈ [10; 13])) = true.
Proof.
  intros Hv. assert (v ∈ seqZ 0 64) as Hin by (apply elem_of_seqZ; lia).
  assert (forallb (λ v, negb (bool_decide (byte_of (b64_char v) ∈ [10; 13]))) (seqZ 0 64) = true) as H
    by (by vm_compute).
  rewrite forallb_elem in H. by apply H.
Qed.

(** Induction on a list by three elements. *)
Lemma triples_ind (P : list Z → Prop) :
  P [] → (∀ a, P [a]) → (∀ a b, P [a; b]) → (∀ a b c l, P l → P (a :: b :: c :: l)) → ∀ l, P l.
Proof.
  intros H0 H1 H2 H3. fix IH 1. intros [|a [|b [|c l]]]; [done|apply H1|apply H2|apply H3, IH].
Qed.

Lemma b64_encode_kept bs :
  Forall is_byte bs →
  str_filter (λ c, negb (bool_decide (byte_of c ∈ [10; 13]))) (b64_encode bs) = b64_encode bs.
Proof.
  induction bs as [|a|a b|a b c bs IH] using triples_ind; intros Hb; [done|..];
    repeat (apply list.Forall_cons in Hb as [? Hb]); unfold is_byte in *; cbn [b64_encode str_filter];
    rewrite !b64_char_kept by (Z.div_mod_to_equations; lia); [done..|]. by rewrite IH.
Qed.

Theorem b64_roundtrip bs : Forall is_byte bs → b64_decode (b64_encode bs) = Some bs.
Proof.
  intros Hb. unfold b64_decode. rewrite b64_encode_kept by done. revert Hb.
  induction bs as [|a|a b|a b c bs IH] using triples_ind; intros Hb; [done|..];
    repeat (apply list.Forall_cons in Hb as [? Hb]); unfold is_byte in *; cbn [b64_encode b64_quads];
    rewrite !b64_value_char by (Z.div_mod_to_equations; lia).
  - simpl. repeat f_equal. Z.div_mod_to_equations; lia.
  - simpl. repeat f_equal; Z.div_mod_to_equations; lia.
  - rewrite IH by done. simpl. repeat f_equal; Z.div_mod_to_equations; lia.
Qed.

Lemma b64_value_range c v : b64_value c = Some v → 0 <= v < 64.
Proof. unfold b64_value. intros H. case_hyp H; zbool; simplify_eq; lia. Qed.

(** Decoding gives bytes. *)
Lemma b64_decode_bytes s bs : b64_decode s = Some bs → Forall is_byte bs.
Proof.
  unfold b64_decode. set (t := str_filter _ _). clearbody t. clear s. revert bs.
  remember (str_len t) as n eqn:Hn. revert t Hn. induction (lt_wf n) as [n _ IH].
  intros [|x [|y [|z [|w t]]]] -> bs H; simpl in H; simplify_eq; [constructor|].
  assert (∀ rest, b64_quads t = Some rest → Forall is_byte rest) as IH'.
  { intros rest Hr. eapply (IH (str_len t)); [|done|done]. simpl. lia. }
  clear IH. destruct (b64_value x) as [a|] eqn:Hx; [|done]. destruct (b64_value y) as [b|] eqn:Hy; [|done].
  apply b64_value_range in Hx, Hy.
  destruct (b64_value z) as [c|] eqn:Hz, (b64_value w) as [d|] eqn:Hw; try done.
  - apply b64_value_range in Hz, Hw. destruct (b64_quads t) as [rest|]; [|done]. simplify_eq/=.
    repeat (constructor; [unfold is_byte; Z.div_mod_to_equations; lia|]). auto.
  - apply b64_value_range in Hz. case_decide; [|done]. simplify_eq.
    repeat (constructor; [unfold is_byte; Z.div_mod_to_equations; lia|]). constructor.
  - case_decide; [|done]. simplify_eq. constructor; [unfold is_byte; Z.div_mod_to_equations; lia|constructor].
Qed.
