(* ===== verification/ServiceAccounts.v ===== *)
(** * Service accounts and API keys

    internal/management/identity/service_account.go: the table of service
    accounts with its operations, and the authentication of requests signed with
    an API key. The theorems say that a key that was rotated, deleted or
    deactivated is refused from then on; which time stamps are accepted; that the
    secret handed to the owner of a key plays no part in the authentication; and
    how the claims of a key fare in the two permission checks. *)
From S2P Require Import Prelude GoStrings NetIP Http Sha256 Policy Actions Rbac.
From Stdlib Require Import Ascii.

(** ** The table *)

(** The columns; the times of creation and update that the ORM keeps are left
    out, and so are the joined roles and policies, which are tables of their own. *)
Record ServiceAccount := mkAccount {
  ID : Z;
  Name : string;
  Description : string;
  ProjectID : option Z;
  CreatedByID : Z;
  AccessKeyID : string;
  SecretHash : string;
  IsActive : bool;
  LastUsedAt : option Z;
  ExpiresAt : option Z
}.

(** Accounts are in the order of their ids. The permissions of a role are given
    by their names. *)
Record DB := mkDB {
  accounts : list ServiceAccount;
  nextID : Z;
  service_account_roles : gset (Z * Z);
  service_account_policies : gset (Z * Z);
  roles : gmap Z (list string);
  policies : gset Z
}.

Definition set_accounts (db : DB) (l : list ServiceAccount) : DB :=
  mkDB l (nextID db) (service_account_roles db) (service_account_policies db)
    (roles db) (policies db).

Definition set_key (sa : ServiceAccount) (accessKeyID hash : string) : ServiceAccount :=
  mkAccount (ID sa) (Name sa) (Description sa) (ProjectID sa) (CreatedByID sa) accessKeyID hash
    (IsActive sa) (LastUsedAt sa) (ExpiresAt sa).
Definition set_active (sa : ServiceAccount) (active : bool) : ServiceAccount :=
  mkAccount (ID sa) (Name sa) (Description sa) (ProjectID sa) (CreatedByID sa) (AccessKeyID sa)
    (SecretHash sa) active (LastUsedAt sa) (ExpiresAt sa).
Definition set_used (sa : ServiceAccount) (now : Z) : ServiceAccount :=
  mkAccount (ID sa) (Name sa) (Description sa) (ProjectID sa) (CreatedByID sa) (AccessKeyID sa)
    (SecretHash sa) (IsActive sa) (Some now) (ExpiresAt sa).

(** [First] by a condition, and the update of the rows with an id. *)
Definition First (db : DB) (P : ServiceAccount → bool) : option ServiceAccount :=
  head (filter (λ sa, P sa = true) (accounts db)).

Definition First_id (db : DB) (id : Z) : option ServiceAccount :=
  First db (λ sa, bool_decide (ID sa = id)).

Definition First_key (db : DB) (k : string) : option ServiceAccount :=
  First db (λ sa, bool_decide (AccessKeyID sa = k)).

Definition update (db : DB) (id : Z) (f : ServiceAccount → ServiceAccount) : DB :=
  set_accounts db ((λ sa, if decide (ID sa = id) then f sa else sa) <$> accounts db).

Definition IsExpired (now : Z) (sa : ServiceAccount) : bool :=
  match ExpiresAt sa with None => false | Some e => (e <? now)%Z end.

(** ** Keys *)

(** The bytes, or an error, come from crypto/rand. *)
Definition generateAccessKeyID (b : result string (list Z)) : result string string :=
  match b with
  | Err e => Err ("generate access key: " +:+ e)
  | Ok b => Ok ("VC-AKIA-" +:+ EncodeToString b)
  end.

(** [base64.RawURLEncoding]. *)
Definition base64_char (d : Z) : ascii :=
  ascii_of_N (Z.to_N
    (if d <? 26 then d + 65 else if d <? 52 then d + 71 else if d <? 62 then d - 4
     else if d =? 62 then 45 else 95)%Z).

Fixpoint RawURLEncoding (bs : list Z) : string :=
  match bs with
  | a :: b :: c :: bs =>
      let x := SetBytes [a; b; c] in
      String (base64_char (x / 2 ^ 18)) (String (base64_char (x / 2 ^ 12 mod 64))
        (String (base64_char (x / 2 ^ 6 mod 64)) (String (base64_char (x mod 64))
          (RawURLEncoding bs))))
  | [a; b] =>
      let x := SetBytes [a; b; 0%Z] in
      String (base64_char (x / 2 ^ 18)) (String (base64_char (x / 2 ^ 12 mod 64))
        (String (base64_char (x / 2 ^ 6 mod 64)) EmptyString))
  | [a] =>
      String (base64_char (a / 4)) (String (base64_char (a mod 4 * 16)) EmptyString)
  | [] => EmptyString
  end.

Definition generateSecretKey (b : result string (list Z)) : result string string :=
  match b with
  | Err e => Err ("generate secret key: " +:+ e)
  | Ok b => Ok (RawURLEncoding b)
  end.

Definition newline : string := String "010"%char EmptyString.

Definition computeHMAC (secretKey accessKeyID timestamp method path : string) : string :=
  let signingString := accessKeyID +:+ newline +:+ timestamp +:+ newline
                       +:+ method +:+ newline +:+ path in
  EncodeToString (hmac (bytes_of secretKey) (bytes_of signingString)).

(** ** Time *)

(** [time.Unix(ts, 0)] in nanoseconds: the seconds are counted from the year 1
    in an int64. *)
Definition Unix (ts : Z) : Z :=
  ((wrap64 (ts + 62135596800) - 62135596800) * second)%Z.

(** The check of the clock skew; the negation is that of an int64. *)
Definition skew (now ts : Z) : Z :=
  let skew := time_sub now (Unix ts) in
  if (skew <? 0)%Z then wrap64 (- skew) else skew.

Definition timely (now ts : Z) : bool := negb (5 * minute <? skew now ts)%Z.

(** ** Operations *)

Record CreateServiceAccountRequest := mkCreate {
  req_Name : string;
  req_Description : string;
  req_ProjectID : option Z;
  req_ExpiresIn : string
}.

Record CreateServiceAccountResponse := mkResponse {
  resp_ServiceAccount : ServiceAccount;
  resp_AccessKeyID : string;
  resp_SecretKey : string
}.

Section service.
Local Open Scope go_scope.

(** bcrypt and HKDF are third-party code: the hash of a password, and the 32
    bytes derived from a secret and an info, or an error. *)
Variable bcrypt : string → result string string.
Variable hkdf : string → string → result string (list Z).

(** [time.ParseDuration]; nothing below depends on how it reads durations. *)
Variable ParseDuration : string → result string Z.

(** [s.config.JWT.Secret]. *)
Variable JWTSecret : string.

(** [e] with a message, when there is an error. *)
Definition wrapped {A} (msg : string) (r : result string A) : result string A :=
  match r with Ok a => Ok a | Err e => Err (msg +:+ ": " +:+ e) end.

(** The two generated keys and the hash of the secret one. *)
Definition new_keys (w : string → result string string → result string string)
    (rnd_key rnd_secret : result string (list Z)) : result string (string * string * string) :=
  try accessKeyID <- w "generate access key" (generateAccessKeyID rnd_key) ;
  try secretKey <- w "generate secret key" (generateSecretKey rnd_secret) ;
  try hash <- w "hash secret key" (bcrypt secretKey) ;
  Ok (accessKeyID, secretKey, hash).

Definition expiry (now : Z) (expiresIn : string) : result string (option Z) :=
  if decide (expiresIn = "") then Ok None
  else
    try dur <- wrapped "invalid expires_in duration" (ParseDuration expiresIn) ;
    Ok (Some (now + dur)%Z).

(** The unique indices refuse a name or a key that another row has. *)
Definition conflict (db : DB) (sa : ServiceAccount) : bool :=
  existsb (λ a, bool_decide (ID a ≠ ID sa) &&
    (bool_decide (Name a = Name sa) || bool_decide (AccessKeyID a = AccessKeyID sa))) (accounts db).

(** A write that fails for another reason gives its error as [fails]. *)
Definition write (fails : option string) (db : DB) (sa : ServiceAccount) : option string :=
  match fails with
  | Some e => Some e
  | None => if conflict db sa then Some "duplicate key" else None
  end.

Definition CreateServiceAccount (fails : option string) (now : Z)
    (rnd_key rnd_secret : result string (list Z)) (createdByID : Z)
    (req : CreateServiceAccountRequest) (db : DB)
    : result string CreateServiceAccountResponse * DB :=
  match new_keys wrapped rnd_key rnd_secret with
  | Err e => (Err e, db)
  | Ok (accessKeyID, secretKey, hash) =>
      match expiry now (req_ExpiresIn req) with
      | Err e => (Err e, db)
      | Ok exp =>
          let sa := mkAccount (nextID db) (req_Name req) (req_Description req)
                      (req_ProjectID req) createdByID accessKeyID hash true None exp in
          match write fails db sa with
          | Some e => (Err ("create service account: " +:+ e), db)
          | None =>
              (Ok (mkResponse sa accessKeyID secretKey),
               mkDB (accounts db ++ [sa]) (nextID db + 1) (service_account_roles db)
                 (service_account_policies db) (roles db) (policies db))
          end
      end
  end.

Definition DeleteServiceAccount (fails : option string) (id : Z) (db : DB)
    : option string * DB :=
  match fails with
  | Some e => (Some e, db)
  | None => (None, set_accounts db (filter (λ sa, ID sa ≠ id) (accounts db)))
  end.

Definition RotateServiceAccountKey (fails : option string)
    (rnd_key rnd_secret : result string (list Z)) (id : Z) (db : DB)
    : result string CreateServiceAccountResponse * DB :=
  match First_id db id with
  | None => (Err "record not found", db)
  | Some sa =>
      match new_keys (λ _ r, r) rnd_key rnd_secret with
      | Err e => (Err e, db)
      | Ok (accessKeyID, secretKey, hash) =>
          let sa := set_key sa accessKeyID hash in
          match write fails db sa with
          | Some e => (Err e, db)
          | None => (Ok (mkResponse sa accessKeyID secretKey), update db id (λ _, sa))
          end
      end
  end.

Definition ToggleServiceAccountStatus (fails : option string) (id : Z) (active : bool) (db : DB)
    : option string * DB :=
  match fails with
  | Some e => (Some e, db)
  | None => (None, update db id (λ sa, set_active sa active))
  end.

(** Roles and policies are attached by a row of a join table. *)
Definition set_roles (db : DB) (f : gset (Z * Z) → gset (Z * Z)) : DB :=
  mkDB (accounts db) (nextID db) (f (service_account_roles db)) (service_account_policies db)
    (roles db) (policies db).
Definition set_policies (db : DB) (f : gset (Z * Z) → gset (Z * Z)) : DB :=
  mkDB (accounts db) (nextID db) (service_account_roles db) (f (service_account_policies db))
    (roles db) (policies db).

Definition AttachRoleToServiceAccount (saID roleID : Z) (db : DB) : option string * DB :=
  match First_id db saID, roles db !! roleID with
  | Some _, Some _ => (None, set_roles db (union {[(saID, roleID)]}))
  | _, _ => (Some "record not found", db)
  end.

Definition DetachRoleFromServiceAccount (saID roleID : Z) (db : DB) : option string * DB :=
  match First_id db saID, roles db !! roleID with
  | Some _, Some _ => (None, set_roles db (λ s, s ∖ {[(saID, roleID)]}))
  | _, _ => (Some "record not found", db)
  end.

Definition AttachPolicyToServiceAccount (saID policyID : Z) (db : DB) : option string * DB :=
  match First_id db saID, decide (policyID ∈ policies db) with
  | Some _, left _ => (None, set_policies db (union {[(saID, policyID)]}))
  | _, _ => (Some "record not found", db)
  end.

Definition DetachPolicyFromServiceAccount (saID policyID : Z) (db : DB) : option string * DB :=
  match First_id db saID, decide (policyID ∈ policies db) with
  | Some _, left _ => (None, set_policies db (λ s, s ∖ {[(saID, policyID)]}))
  | _, _ => (Some "record not found", db)
  end.

(** ** Authentication *)

Definition deriveHMACKey (serverSecret accessKeyID : string) : string :=
  match hkdf serverSecret ("vc-hmac-apikey:" +:+ accessKeyID) with
  | Err _ => accessKeyID +:+ ":" +:+ serverSecret
  | Ok derived => EncodeToString derived
  end.

(** The names are collected in a map and come in no particular order. *)
Definition collectServiceAccountPermissions (db : DB) (sa : ServiceAccount) : list string :=
  let attached : list (Z * list string) :=
    filter (λ r, (ID sa, r.1) ∈ service_account_roles db) (map_to_list (roles db)) in
  elements (⋃ ((λ r, list_to_set r.2) <$> attached) : gset string).

Definition account_claims (sa : ServiceAccount) (permissions : list string) : Keys :=
  let claims : Keys :=
    <["user_id" := AStr ("sa-" +:+ Itoa (ID sa))]>
    (<["username" := AStr ("sa:" +:+ Name sa)]>
    (<["is_admin" := ABool false]>
    (<["is_service_account" := ABool true]>
    (<["service_account_id" := AUint (ID sa)]>
    (<["access_key_id" := AStr (AccessKeyID sa)]>
    (<["permissions" := AStrs permissions]> ∅)))))) in
  match ProjectID sa with
  | None => claims
  | Some p => <["tenant_id" := AStr (Itoa p)]> (<["project_id" := AUint p]> claims)
  end.

(** [fails] is an error of the lookup, [touched] tells whether the update of the
    last use, whose error is ignored, succeeds. *)
Definition AuthenticateByAPIKey (fails : option string) (touched : bool) (now : Z)
    (accessKeyID signature timestamp method path : string) (db : DB)
    : result string Keys * DB :=
  match fails with
  | Some e => (Err ("lookup service account: " +:+ e), db)
  | None =>
      match First_key db accessKeyID with
      | None => (Err "invalid access key", db)
      | Some sa =>
          if negb (IsActive sa) then (Err "service account is inactive", db)
          else if IsExpired now sa then (Err "service account has expired", db)
          else
            match ParseInt timestamp with
            | None => (Err "invalid timestamp", db)
            | Some ts =>
                if negb (timely now ts)
                then (Err "request timestamp too old or too far in the future", db)
                else
                  let hmacKey := deriveHMACKey JWTSecret accessKeyID in
                  if decide (signature = computeHMAC hmacKey accessKeyID timestamp method path)
                  then (Ok (account_claims sa (collectServiceAccountPermissions db sa)),
                        if touched then update db (ID sa) (λ sa, set_used sa now) else db)
                  else (Err "invalid signature", db)
            end
      end
  end.

(** ** Histories *)

Inductive op :=
| Create (fails : option string) (now : Z) (rnd_key rnd_secret : result string (list Z))
    (createdByID : Z) (req : CreateServiceAccountRequest)
| Delete (fails : option string) (id : Z)
| Rotate (fails : option string) (rnd_key rnd_secret : result string (list Z)) (id : Z)
| Toggle (fails : option string) (id : Z) (active : bool)
| AttachRole (saID roleID : Z)
| DetachRole (saID roleID : Z)
| AttachPolicy (saID policyID : Z)
| DetachPolicy (saID policyID : Z)
| Authenticate (fails : option string) (touched : bool) (now : Z)
    (accessKeyID signature timestamp method path : string).

Definition step (db : DB) (o : op) : DB :=
  match o with
  | Create f t k s u r => (CreateServiceAccount f t k s u r db).2
  | Delete f id => (DeleteServiceAccount f id db).2
  | Rotate f k s id => (RotateServiceAccountKey f k s id db).2
  | Toggle f id a => (ToggleServiceAccountStatus f id a db).2
  | AttachRole a r => (AttachRoleToServiceAccount a r db).2
  | DetachRole a r => (DetachRoleFromServiceAccount a r db).2
  | AttachPolicy a p => (AttachPolicyToServiceAccount a p db).2
  | DetachPolicy a p => (DetachPolicyFromServiceAccount a p db).2
  | Authenticate f u t k s ts m p => (AuthenticateByAPIKey f u t k s ts m p db).2
  end.

Definition run (db : DB) (ops : list op) : DB := fold_left step ops db.
End service.

(** ** Time stamps *)

(** Which time stamps pass: those within five minutes of the clock, as meant,
    and also those more than 2^63 nanoseconds (292 years) in the future, for which
    the difference is cut off at the least duration and its negation overflows. *)
Theorem timestamp_window now ts :
  (- 2 ^ 63 <= ts)%Z → (ts + 62135596800 < 2 ^ 63)%Z →
  timely now ts = true ↔
  (Z.abs (now - ts * second) <= 5 * minute ∨ now - ts * second <= - 2 ^ 63)%Z.
Proof.
  intros Hlo Hhi. unfold timely, skew.
  assert (Unix ts = ts * second)%Z as ->
    by (unfold Unix; rewrite wrap64_id by (unfold second in *; lia); lia).
  unfold time_sub. set (d := (now - ts * second)%Z). clearbody d. clear Hlo Hhi.
  unfold max_duration, min_duration, minute, second. rewrite negb_true_iff, Z.ltb_ge.
  destruct (Z.ltb_spec (Z.max (-2 ^ 63) (Z.min (2 ^ 63 - 1) d)) 0) as [Hn|Hn]; [|lia].
  destruct (Z.le_gt_cases d (- 2 ^ 63)) as [Hd|Hd].
  - rewrite Z.max_l by lia. split; [by right|]. intros _. vm_compute. discriminate.
  - rewrite wrap64_id by lia. lia.
Qed.

Lemma timestamp_window_witness :
  timely 1700000000000000000 1700000290 = true ∧ timely 1700000000000000000 20000000000 = true.
Proof.
  split.
  - apply (timestamp_window 1700000000000000000 1700000290); [lia..|]. left. vm_compute. discriminate.
  - apply (timestamp_window 1700000000000000000 20000000000); [lia..|]. right. vm_compute. discriminate.
Defined.

(** ** Keys are unique *)

Definition keys_ok (db : DB) : Prop :=
  NoDup (ID <$> accounts db) ∧ NoDup (AccessKeyID <$> accounts db) ∧
  ∀ sa, sa ∈ accounts db → (ID sa < nextID db)%Z.

Lemma update_same db id f :
  (∀ sa, ID (f sa) = ID sa ∧ AccessKeyID (f sa) = AccessKeyID sa) →
  keys_ok db → keys_ok (update db id f).
Proof.
  intros Hf (H1&H2&H3). unfold keys_ok, update. cbn [accounts set_accounts nextID].
  rewrite <-!list_fmap_compose. split; [|split].
  - erewrite list_fmap_ext; [exact H1|]. intros i sa _. simpl. case_decide; [apply Hf|done].
  - erewrite list_fmap_ext; [exact H2|]. intros i sa _. simpl. case_decide; [apply Hf|done].
  - intros sa (x&->&Hx)%list_elem_of_fmap. apply H3 in Hx. case_decide; [|done].
    by rewrite (proj1 (Hf x)).
Qed.

Lemma conflict_spec db sa :
  conflict db sa = false →
  ∀ a, a ∈ accounts db → ID a ≠ ID sa → AccessKeyID a ≠ AccessKeyID sa.
Proof.
  intros Hc a Ha Hid Hk. assert (conflict db sa = true); [|congruence].
  apply existsb_elem. exists a. split; [done|].
  apply andb_true_iff. split; [by apply bool_decide_eq_true|].
  apply orb_true_iff. right. by apply bool_decide_eq_true.
Qed.

Lemma First_elem db P sa : First db P = Some sa → sa ∈ accounts db ∧ P sa = true.
Proof.
  unfold First. intros H. apply head_Some_elem_of in H.
  apply list_elem_of_filter in H. tauto.
Qed.

(** The rows with a unique id and a replaced key. *)
Lemma rotate_keys db id sa :
  ID sa = id → conflict db sa = false → keys_ok db → keys_ok (update db id (λ _, sa)).
Proof.
  intros Hid Hcf (H1&H2&H3). pose proof (conflict_spec _ _ Hcf) as Hc. clear Hcf.
  unfold keys_ok, update.
  cbn [accounts set_accounts nextID]. rewrite <-!list_fmap_compose. split; [|split].
  - erewrite list_fmap_ext; [exact H1|]. intros i x _. simpl. by case_decide; [congruence|].
  - revert Hc H1 H2. clear H3. generalize (accounts db). intros l. induction l as [|x l IH].
    { intros. constructor. }
    rewrite !fmap_cons. intros Hc [Hx1 Hn1]%list.NoDup_cons [Hx2 Hn2]%list.NoDup_cons.
    apply list.NoDup_cons. split; [|apply IH; [|done..]; intros; apply Hc; [by right|done]].
    intros (y&E&Hy)%list_elem_of_fmap. simpl in E. destruct (decide (ID x = id)) as [Hxi|Hxi].
    + rewrite decide_False in E.
      2: { intros Hyi. apply Hx1. rewrite Hxi, <-Hyi. by apply list_elem_of_fmap_2. }
      apply (Hc y); [by right| |done]. intros Hyi. apply Hx1.
      rewrite Hxi, <-Hid, <-Hyi. by apply list_elem_of_fmap_2.
    + case_decide.
      * apply (Hc x); [by left|congruence|done].
      * apply Hx2. rewrite E. by apply list_elem_of_fmap_2.
  - intros y (x&->&Hx)%list_elem_of_fmap. apply H3 in Hx. case_decide; [|done]. congruence.
Qed.

Section histories.
Variable bcrypt : string → result string string.
Variable hkdf : string → string → result string (list Z).
Variable ParseDuration : string → result string Z.
Variable JWTSecret : string.

Abbreviation step_ := (step bcrypt hkdf ParseDuration JWTSecret).
Abbreviation run_ := (run bcrypt hkdf ParseDuration JWTSecret).
Abbreviation authenticate := (AuthenticateByAPIKey hkdf JWTSecret).

(** The key that an operation draws. *)
Definition generated (o : op) : option string :=
  match o with
  | Create _ _ rnd _ _ _ | Rotate _ rnd _ _ =>
      match generateAccessKeyID rnd with Ok k => Some k | Err _ => None end
  | _ => None
  end.

(** What an operation may do to the table. *)
Inductive change (o : op) (db : DB) : DB → Prop :=
| same_accounts db' : accounts db' = accounts db → nextID db' = nextID db → change o db db'
| created sa db' :
    generated o = Some (AccessKeyID sa) → ID sa = nextID db → conflict db sa = false →
    accounts db' = accounts db ++ [sa] → nextID db' = (nextID db + 1)%Z → change o db db'
| deleted id : change o db (set_accounts db (filter (λ sa, ID sa ≠ id) (accounts db)))
| rotated sa :
    generated o = Some (AccessKeyID sa) → conflict db sa = false →
    change o db (update db (ID sa) (λ _, sa))
| toggled id active :
    o = Toggle None id active → change o db (update db id (λ sa, set_active sa active))
| used id now : change o db (update db id (λ sa, set_used sa now)).

Lemma new_keys_key w rnd rnd' k s h :
  (∀ m r x, w m r = Ok x → r = Ok x) →
  new_keys bcrypt w rnd rnd' = Ok (k, s, h) → generateAccessKeyID rnd = Ok k.
Proof.
  intros Hw. unfold new_keys. destruct (w _ (generateAccessKeyID rnd)) eqn:E; [|done].
  destruct (w _ (generateSecretKey rnd')); [|done]. destruct (w _ (bcrypt _)); [|done].
  intros [= <- _ _]. by apply Hw in E.
Qed.

Lemma wrapped_Ok {A} m (r : result string A) x : wrapped m r = Ok x → r = Ok x.
Proof. unfold wrapped. destruct r; congruence. Qed.

Lemma step_change db o : change o db (step_ db o).
Proof.
  destruct o; cbn [step].
  - unfold CreateServiceAccount. destruct (new_keys _ _ _ _) as [[[k s] h]|e] eqn:Hk;
      [|by apply same_accounts].
    apply new_keys_key in Hk; [|intros ??; apply wrapped_Ok].
    destruct (expiry _ _ _) as [e|]; [|by apply same_accounts]. unfold write.
    destruct fails; [by apply same_accounts|].
    destruct (conflict _ _) eqn:Hc; [by apply same_accounts|].
    eapply created; [|..|exact Hc|done|done]; [|done]. simpl. by rewrite Hk.
  - unfold DeleteServiceAccount. destruct fails; [by apply same_accounts|]. apply deleted.
  - unfold RotateServiceAccountKey.
    destruct (First_id db id) as [sa|] eqn:Hf; [|by apply same_accounts].
    destruct (new_keys _ _ _ _) as [[[k s] h]|e] eqn:Hk; [|by apply same_accounts].
    apply new_keys_key in Hk; [|done]. unfold write.
    destruct fails; [by apply same_accounts|].
    destruct (conflict _ _) eqn:Hc; [by apply same_accounts|].
    apply First_elem in Hf as [_ Hid%bool_decide_eq_true]. rewrite <-Hid.
    apply (rotated _ db (set_key sa k h)); [simpl; by rewrite Hk|done].
  - unfold ToggleServiceAccountStatus. destruct fails; [by apply same_accounts|]. by apply toggled.
  - unfold AttachRoleToServiceAccount. by case_goal; apply same_accounts.
  - unfold DetachRoleFromServiceAccount. by case_goal; apply same_accounts.
  - unfold AttachPolicyToServiceAccount. by case_goal; apply same_accounts.
  - unfold DetachPolicyFromServiceAccount. by case_goal; apply same_accounts.
  - unfold AuthenticateByAPIKey. destruct fails; [by apply same_accounts|].
    destruct (First_key _ _) as [sa|]; [|by apply same_accounts].
    destruct (negb _); [by apply same_accounts|].
    destruct (IsExpired _ _); [by apply same_accounts|].
    destruct (ParseInt _); [|by apply same_accounts].
    destruct (negb _); [by apply same_accounts|]. case_decide; [|by apply same_accounts].
    destruct touched; [apply used|by apply same_accounts].
Qed.

Lemma change_keys o db db' : change o db db' → keys_ok db → keys_ok db'.
Proof.
  intros [db1 Ha Hn|sa db1 _ Hid Hc Ha Hn|id|sa _ Hc|id a _|id now] H.
  - unfold keys_ok. by rewrite Ha, Hn.
  - destruct H as (H1&H2&H3). unfold keys_ok. rewrite Ha, Hn, !fmap_app. split; [|split].
    + apply list.NoDup_app. split; [done|]. split; [|apply NoDup_singleton].
      intros x (y&->&Hy)%list_elem_of_fmap E%list_elem_of_singleton. apply H3 in Hy.
      rewrite Hid in E. lia.
    + apply list.NoDup_app. split; [done|]. split; [|apply NoDup_singleton].
      intros x (y&->&Hy)%list_elem_of_fmap E%list_elem_of_singleton.
      apply (conflict_spec _ _ Hc y Hy); [|done]. apply H3 in Hy. lia.
    + intros y [Hy| ->%list_elem_of_singleton]%elem_of_app; [apply H3 in Hy|]; lia.
  - destruct H as (H1&H2&H3). unfold keys_ok. cbn [accounts set_accounts nextID].
    split; [|split].
    + eapply sublist_NoDup; [exact H1|]. apply fmap_sublist, sublist_filter.
    + eapply sublist_NoDup; [exact H2|]. apply fmap_sublist, sublist_filter.
    + intros y [_ Hy]%list_elem_of_filter. by apply H3.
  - by apply rotate_keys.
  - by apply update_same.
  - by apply update_same.
Qed.

Lemma run_keys db ops : keys_ok db → keys_ok (run_ db ops).
Proof.
  revert db; induction ops as [|o ops IH]; intros db H; [done|]. cbn.
  apply IH. eapply change_keys; [apply step_change|done].
Qed.
(** ** Revocation *)

(** No active account has the key. *)
Definition revoked (k : string) (id : Z) (db : DB) : Prop :=
  ∀ sa, sa ∈ accounts db → AccessKeyID sa = k → ID sa = id ∧ IsActive sa = false.

Lemma revoked_refused k id db fails touched now sig ts m p :
  revoked k id db → is_ok (authenticate fails touched now k sig ts m p db).1 = false.
Proof.
  intros Hr. unfold AuthenticateByAPIKey. destruct fails; [done|].
  destruct (First_key db k) as [sa|] eqn:E; [|done].
  apply First_elem in E as [Hin Hk%bool_decide_eq_true].
  by rewrite (proj2 (Hr sa Hin Hk)).
Qed.

Lemma revoked_change k id o db db' :
  generated o ≠ Some k → (∀ f, o ≠ Toggle f id true) → change o db db' →
  revoked k id db → revoked k id db'.
Proof.
  intros Hg Ht [db1 Ha _|sa db1 Hk _ _ Ha _|id'|sa Hk _|id' a ->|id' now] Hr.
  - unfold revoked. by rewrite Ha.
  - unfold revoked. rewrite Ha. intros x [Hx| ->%list_elem_of_singleton]%elem_of_app E;
      [by apply Hr|]. by rewrite E in Hk.
  - intros x [_ Hx]%list_elem_of_filter. by apply Hr.
  - intros x (y&->&Hy)%list_elem_of_fmap. case_decide; [|by apply Hr].
    intros E. by rewrite E in Hk.
  - intros x (y&->&Hy)%list_elem_of_fmap. case_decide as Hi; [|by apply Hr]. simpl.
    intros [Hid _]%(Hr y Hy). split; [done|]. destruct a; [|done].
    destruct (Ht None). congruence.
  - intros x (y&->&Hy)%list_elem_of_fmap. case_decide; [|by apply Hr]. simpl. by apply Hr.
Qed.

(** An operation that takes the key [k] of account [id] away. *)
Definition revokes (db : DB) (id : Z) (o : op) : Prop :=
  o = Delete None id ∨ o = Toggle None id false ∨
  ∃ k s resp, o = Rotate None k s id ∧
    (RotateServiceAccountKey bcrypt None k s id db).1 = Ok resp.

Lemma NoDup_key db sa sa' :
  keys_ok db → sa ∈ accounts db → sa' ∈ accounts db → AccessKeyID sa' = AccessKeyID sa → sa' = sa.
Proof.
  intros (_&Hn&_). revert Hn. generalize (accounts db). intros l.
  induction l as [|x l IH]; intros Hn Hs Hs' E; [by apply elem_of_nil in Hs|].
  rewrite fmap_cons in Hn. apply list.NoDup_cons in Hn as [Hx Hn].
  apply elem_of_cons in Hs as [->|Hs], Hs' as [->|Hs']; [done|..|by apply IH];
    destruct Hx; [rewrite <-E|rewrite E]; by apply list_elem_of_fmap_2.
Qed.

Lemma revokes_revoked db id sa o :
  keys_ok db → First_id db id = Some sa → revokes db id o →
  generated o ≠ Some (AccessKeyID sa) → revoked (AccessKeyID sa) id (step_ db o).
Proof.
  intros Hok Hf Ho Hg. apply First_elem in Hf as Hsa. destruct Hsa as [Hin Hid].
  apply bool_decide_eq_true in Hid.
  assert (∀ x, x ∈ accounts db → AccessKeyID x = AccessKeyID sa → ID x = id) as Hu
    by (intros x Hx E; by rewrite (NoDup_key db sa x)).
  destruct Ho as [->|[->|(k&s&resp&->&Hr)]]; cbn [step].
  - intros x [Hne Hx]%list_elem_of_filter E. by destruct Hne; apply Hu.
  - intros x (y&->&Hy)%list_elem_of_fmap. case_decide as Hi; simpl; [done|].
    intros E. destruct Hi. by apply Hu.
  - unfold RotateServiceAccountKey in *. rewrite Hf in Hr |- *.
    destruct (new_keys _ _ _ _) as [[[k' s'] h]|e] eqn:Hk; [|done].
    apply new_keys_key in Hk; [|done]. cbn [generated] in Hg. rewrite Hk in Hg.
    destruct (write None db (set_key sa k' h)); [done|].
    intros x (y&->&Hy)%list_elem_of_fmap. case_decide as Hi; simpl; [congruence|].
    intros E. destruct Hi. by apply Hu.
Qed.

(** C11: Revocation is final: once the key of an account was rotated, the account
    deleted or deactivated, no later request with that key is authenticated,
    whatever else happens, unless the account is activated again or the very same
    key is drawn anew. *)
Theorem revoked_key_refused db0 before id sa o after :
  accounts db0 = [] →
  let db := run_ db0 before in
  First_id db id = Some sa → revokes db id o →
  (∀ o', o' ∈ o :: after →
     generated o' ≠ Some (AccessKeyID sa) ∧ ∀ f, o' ≠ Toggle f id true) →
  ∀ fails touched now sig ts m p,
    is_ok (authenticate fails touched now (AccessKeyID sa) sig ts m p
             (run_ db (o :: after))).1 = false.
Proof.
  intros H0 db Hf Ho Ha fails touched now sig ts m p.
  assert (keys_ok db) as Hok.
  { apply run_keys. unfold keys_ok. rewrite H0.
    split; [constructor|split; [constructor|]]. intros x Hx. by apply elem_of_nil in Hx. }
  apply (revoked_refused _ id). cbn [run fold_left].
  assert (revoked (AccessKeyID sa) id (step_ db o)) as Hr
    by (apply revokes_revoked; [done..|]; apply Ha; by left).
  assert (∀ o', o' ∈ after → generated o' ≠ Some (AccessKeyID sa) ∧ ∀ f, o' ≠ Toggle f id true)
    as Ha' by (intros; apply Ha; by right).
  clear Ha. revert Hr. generalize (step_ db o). clear -Ha'. intros d Hr.
  revert d Hr; induction after as [|o after IH]; intros d Hr; [done|]. cbn [fold_left].
  apply IH; [intros; apply Ha'; by right|]. destruct (Ha' o) as [H1 H2]; [by left|].
  by eapply revoked_change; [..|apply step_change|].
Qed.
(** ** The issued secret *)

Definition erase (sa : ServiceAccount) : ServiceAccount := set_key sa (AccessKeyID sa) "".
Definition erase_secrets (db : DB) : DB := set_accounts db (erase <$> accounts db).

Lemma First_erase db P :
  (∀ sa, P (erase sa) = P sa) → First (erase_secrets db) P = erase <$> First db P.
Proof.
  intros HP. unfold First, erase_secrets. cbn [accounts set_accounts].
  induction (accounts db) as [|x l IH]; [done|]. rewrite fmap_cons, !filter_cons, HP.
  by case_decide.
Qed.

Lemma authenticate_erase fails touched now k sig ts m p db :
  (authenticate fails touched now k sig ts m p (erase_secrets db)).1
  = (authenticate fails touched now k sig ts m p db).1.
Proof.
  unfold AuthenticateByAPIKey. destruct fails; [done|]. unfold First_key.
  rewrite First_erase by done. destruct (First db _) as [sa|]; [|done]. cbn [fmap option_fmap option_map].
  change (IsActive (erase sa)) with (IsActive sa).
  change (IsExpired now (erase sa)) with (IsExpired now sa).
  destruct (negb _); [done|]. destruct (IsExpired now sa); [done|].
  destruct (ParseInt ts); [|done]. destruct (negb _); [done|]. by case_decide.
Qed.

(** The secret that the owner of a new account gets plays no part in the
    authentication: of two histories that differ in the issued secret alone, every
    request is answered in the same way. The signature is checked against a key
    derived from the server's own secret and the public key id. *)
Theorem issued_secret_unused fails t rnd_key rnd_secret rnd_secret' u req db resp resp' db1 db2 :
  CreateServiceAccount bcrypt ParseDuration fails t rnd_key rnd_secret u req db = (Ok resp, db1) →
  CreateServiceAccount bcrypt ParseDuration fails t rnd_key rnd_secret' u req db = (Ok resp', db2) →
  ∀ f touched now k sig ts m p,
    (authenticate f touched now k sig ts m p db1).1 = (authenticate f touched now k sig ts m p db2).1.
Proof.
  unfold CreateServiceAccount. intros H1 H2 f touched now k sig ts m p.
  destruct (new_keys bcrypt wrapped rnd_key rnd_secret) as [[[k1 s1] h1]|] eqn:E1; [|done].
  destruct (new_keys bcrypt wrapped rnd_key rnd_secret') as [[[k2 s2] h2]|] eqn:E2; [|done].
  apply new_keys_key in E1; [|intros ??; apply wrapped_Ok].
  apply new_keys_key in E2; [|intros ??; apply wrapped_Ok].
  destruct (expiry _ _ _) as [e|]; [|done].
  destruct (write fails db _) in H1; [done|]. destruct (write fails db _) in H2; [done|].
  injection H1 as <- <-. injection H2 as <- <-. assert (k2 = k1) as -> by congruence.
  rewrite <-authenticate_erase. symmetry. rewrite <-authenticate_erase. f_equal. f_equal.
  unfold erase_secrets. simpl. by rewrite !fmap_app.
Qed.
End histories.

(** ** Permission checks *)

(** The claims of an authenticated key pass the shared [RequirePermission] for
    every permission that a role of the account has, whereas the identity
    service's own [RequirePermission] refuses them all: it looks for permissions in
    a JSON list and for a numeric user id. *)
Theorem service_account_refused `{UnicodeTables} `{Identity.IdentityStore}
    hkdf secret fails touched now k sig ts m p db db' claims resource action r :
  AuthenticateByAPIKey hkdf secret fails touched now k sig ts m p db = (Ok claims, db') →
  ∃ sa, First_key db k = Some sa ∧
    (resource ≠ "" → resource +:+ ":" +:+ action ∈ collectServiceAccountPermissions db sa →
     passes (RequirePermission LegacyToNew resource action r claims) = true) ∧
    identity_RequirePermission resource action r claims = Abort 403 "insufficient permissions".
Proof.
  unfold AuthenticateByAPIKey. destruct fails; [done|].
  destruct (First_key db k) as [sa|]; [|done]. intros Ha. exists sa. split; [done|].
  destruct (negb _); [done|]. destruct (IsExpired _ _); [done|]. destruct (ParseInt ts); [|done].
  destruct (negb _); [done|]. case_decide; [|done]. injection Ha as <- _.
  set (perms := collectServiceAccountPermissions db sa). clearbody perms.
  assert (account_claims sa perms !! "permissions" = Some (AStrs perms)) as Hp
    by (unfold account_claims; destruct (ProjectID sa); by simplify_map_eq).
  split.
  - intros Hne Hin. apply RequirePermission_passes; [done|]. do 2 right.
    exists (resource +:+ ":" +:+ action). split; [|by left]. unfold claim. by rewrite Hp.
  - unfold identity_RequirePermission. rewrite Hp.
    assert (is_admin (account_claims sa perms) = false ∧ context_uid (account_claims sa perms) = 0%Z)
      as [-> ->]; [|done].
    unfold is_admin, context_uid, account_claims. destruct (ProjectID sa); by simplify_map_eq.
Qed.

(** ** Witnesses *)

#[local] Existing Instances ascii_only Identity.example_store.

(** HKDF-SHA256 of RFC 5869 for 32 bytes without a salt. *)
Definition hkdf_sha256 (secret info : string) : result string (list Z) :=
  Ok (hmac (hmac (replicate 32 0%Z) (bytes_of secret)) (bytes_of info ++ [1%Z])).

Definition example_hash (s : string) : result string string := Ok ("hash of " +:+ s).
Definition example_duration (_ : string) : result string Z := Ok (720 * hour)%Z.

Definition example_bytes (n : nat) (x : Z) : result string (list Z) := Ok (replicate n x).

Definition example_create (secret : Z) : op :=
  Create None 0 (example_bytes 8 17) (example_bytes 32 secret) 1 (mkCreate "ci" "" None "").

Definition example_empty : DB := mkDB [] 1 ∅ ∅ {[7%Z := ["cluster:list"]]} ∅.

Definition example_key : string := "VC-AKIA-1111111111111111".

Definition example_db (secret : Z) : DB :=
  run example_hash hkdf_sha256 example_duration "s3cret" example_empty
    [example_create secret; AttachRole 1 7].

(** A request to list clusters at 1700000000, signed with [key]. *)
Definition example_request (key : string) (db : DB) : result string Keys * DB :=
  AuthenticateByAPIKey hkdf_sha256 "s3cret" None true 1700000000000000000 example_key
    (computeHMAC key example_key "1700000000" "GET" "/api/v1/clusters")
    "1700000000" "GET" "/api/v1/clusters" db.

Definition server_key : string := deriveHMACKey hkdf_sha256 "s3cret" example_key.
Definition issued_key (secret : Z) : string := RawURLEncoding (replicate 32 secret).

Lemma revoked_key_refused_witness :
  is_ok (example_request server_key (example_db 5)).1 = true ∧
  is_ok (example_request server_key
    (step example_hash hkdf_sha256 example_duration "s3cret" (example_db 5)
       (Rotate None (example_bytes 8 34) (example_bytes 32 6) 1))).1 = false.
Proof.
  split; [vm_compute; reflexivity|].
  assert (∃ sa, First_id (example_db 5) 1 = Some sa ∧ AccessKeyID sa = example_key) as (sa&Hsa&Hk).
  { eexists. split; vm_compute; reflexivity. }
  unfold example_request. rewrite <-Hk.
  refine (revoked_key_refused example_hash hkdf_sha256 example_duration "s3cret" example_empty
    [example_create 5; AttachRole 1 7] 1 sa
    (Rotate None (example_bytes 8 34) (example_bytes 32 6) 1) [] eq_refl Hsa _ _
    None true 1700000000000000000%Z _ _ _ _).
  - right. right. exists (example_bytes 8 34), (example_bytes 32 6). eexists.
    split; [reflexivity|]. vm_compute. reflexivity.
  - intros o' Ho. apply list_elem_of_singleton in Ho as ->. rewrite Hk.
    split; [vm_compute; discriminate|discriminate].
Defined.

(** The owner's signature, made with the issued secret, is refused; the server's
    is accepted whatever secret was issued. *)
Lemma issued_secret_unused_witness :
  let create secret := CreateServiceAccount example_hash example_duration None 0
    (example_bytes 8 17) (example_bytes 32 secret) 1 (mkCreate "ci" "" None "") example_empty in
  (example_request (issued_key 5) (create 5%Z).2).1 = Err "invalid signature" ∧
  (example_request server_key (create 5%Z).2).1 = (example_request server_key (create 6%Z).2).1 ∧
  is_ok (example_request server_key (create 5%Z).2).1 = true.
Proof.
  intros create. split; [vm_compute; reflexivity|]. split; [|vm_compute; reflexivity].
  assert (∃ resp, create 5%Z = (Ok resp, (create 5%Z).2)) as [r5 E5]
    by (eexists; reflexivity).
  assert (∃ resp, create 6%Z = (Ok resp, (create 6%Z).2)) as [r6 E6]
    by (eexists; reflexivity).
  exact (issued_secret_unused example_hash hkdf_sha256 example_duration "s3cret" None 0 _ _ _ 1 _
    _ r5 r6 _ _ E5 E6 _ _ _ _ _ _ _ _).
Defined.

Lemma service_account_refused_witness :
  ∃ claims db', example_request server_key (example_db 5) = (Ok claims, db') ∧
    passes (RequirePermission LegacyToNew "cluster" "list" get_request claims) = true ∧
    identity_RequirePermission "cluster" "list" get_request claims
    = Abort 403 "insufficient permissions".
Proof.
  assert (is_ok (example_request server_key (example_db 5)).1 = true) as Hok
    by (vm_compute; reflexivity).
  destruct (example_request server_key (example_db 5)) as [[claims|e] db'] eqn:E;
    [clear Hok|discriminate Hok].
  exists claims, db'. split; [reflexivity|].
  destruct (service_account_refused _ _ _ _ _ _ _ _ _ _ _ _ _ "cluster" "list" get_request E)
    as (sa&Hsa&Hp&Hi).
  split; [|exact Hi]. apply Hp; [discriminate|].
  assert (Some "cluster:list" = (collectServiceAccountPermissions (example_db 5) <$> Some sa) ≫= head)
    as Hh by (rewrite <-Hsa; vm_compute; reflexivity).
  cbn [fmap option_fmap option_map mbind option_bind] in Hh.
  exact (head_Some_elem_of _ _ (eq_sym Hh)).
Defined.
