(* ===== verification/Workflow.v ===== *)
(** * The workflow engine

    internal/management/workflow: tasks, their execution and compensation
    (engine.go, executor.go) and their resumption after a restart
    (reconciler.go). A run is a machine whose steps are the effects of the code:
    executing or compensating a step, and saving the task. Between any two of
    them the process may crash, which loses the task in memory but not its row.
    The theorems hold for every such history: a completed task has executed all
    steps in order, also when saves are lost; as long as the saves succeed, it has
    compensated none, a rolled-back one has compensated every step it attempted in
    reverse order, and a run that does not crash ends. *)
From S2P Require Import Prelude GoStrings.

Inductive TaskStatus :=
  StatusPending | StatusRunning | StatusCompleted | StatusFailed | StatusRollingBack
| StatusRolledBack.

#[global] Instance TaskStatus_eq_dec : EqDecision TaskStatus.
Proof. solve_decision. Defined.

Record Task := mkTask {
  Type_ : string;
  ResourceUUID : string;
  Status : TaskStatus;
  CurrentStep : nat;
  Payload : string;
  Error : string;
  CompletedAt : option Z
}.

Definition set_status (t : Task) (s : TaskStatus) : Task :=
  mkTask (Type_ t) (ResourceUUID t) s (CurrentStep t) (Payload t) (Error t) (CompletedAt t).
Definition set_step (t : Task) (i : nat) : Task :=
  mkTask (Type_ t) (ResourceUUID t) (Status t) i (Payload t) (Error t) (CompletedAt t).
Definition set_error (t : Task) (e : string) : Task :=
  mkTask (Type_ t) (ResourceUUID t) (Status t) (CurrentStep t) (Payload t) e (CompletedAt t).
Definition set_payload (t : Task) (p : string) : Task :=
  mkTask (Type_ t) (ResourceUUID t) (Status t) (CurrentStep t) p (Error t) (CompletedAt t).
Definition set_completed (t : Task) (now : Z) : Task :=
  mkTask (Type_ t) (ResourceUUID t) (Status t) (CurrentStep t) (Payload t) (Error t) (Some now).

(** ** Steps and runs *)

Section engine.

(** The state of the world that the steps act on. *)
Context {World : Type}.

(** A step gets the world, the task's resource and its payload, and returns the
    world, the payload and an error, if any. *)
Record Step := mkStep {
  step_Name : string;
  Execute : World → string → string → (World * string) * option string;
  Compensate : World → string → string → (World * string) * option string
}.

Record Workflow := mkWorkflow {
  wf_Name : string;
  Steps : list Step
}.

(** Where a run is; each constructor is followed by one effect. *)
Inductive pc :=
| Start                         (* [Run] is called *)
| AtStep (i : nat)              (* the head of the loop of [Run] *)
| StepDone (i : nat)            (* step [i] succeeded, before the save *)
| Finish                        (* after the loop of [Run] *)
| RollbackFrom (failedAt : nat) (* [rollback] is called *)
| Compensating (k failedAt : nat) (* the steps below [k] are left *)
| Returned (error : option string)
| Panicked.                     (* index out of range *)

Inductive event := Executed (i : nat) (ok : bool) | Compensated (i : nat) (ok : bool).

(** The run in memory is gone after a crash; [log] records the effects of the
    steps in the order of time. *)
Record Conf := mkConf {
  world : World;
  row : Task;
  mem : option (pc * Task);
  log : list event
}.

Definition no_error (e : option string) : bool :=
  match e with None => true | Some _ => false end.

(** [e.db.Save(task)], whose error is ignored: the row is written if [ok]. *)
Definition save (ok : bool) (c : Conf) (p : pc) (t : Task) : Conf :=
  mkConf (world c) (if ok then t else row c) (Some (p, t)) (log c).

Definition goto (c : Conf) (p : pc) (t : Task) : Conf :=
  mkConf (world c) (row c) (Some (p, t)) (log c).

Definition after (c : Conf) (w : World) (p : pc) (t : Task) (e : event) : Conf :=
  mkConf w (row c) (Some (p, t)) (log c ++ [e]).

(** The next effect of [Run]. *)
Definition run_next (ok : bool) (now : Z) (wf : Workflow) (c : Conf) (p : pc) (t : Task) : Conf :=
  match p with
  | Start => save ok c (AtStep (CurrentStep t)) (set_status t StatusRunning)
  | AtStep i =>
      match Steps wf !! i with
      | None => goto c Finish t
      | Some step =>
          let '((w, payload), err) := Execute step (world c) (ResourceUUID t) (Payload t) in
          let t := set_payload t payload in
          match err with
          | Some e => after c w (RollbackFrom i) (set_error t e) (Executed i false)
          | None => after c w (StepDone i) t (Executed i true)
          end
      end
  | StepDone i => save ok c (AtStep (S i)) (set_step t (S i))
  | Finish =>
      save ok c (Returned None) (set_completed (set_status t StatusCompleted) now)
  | _ => c
  end.

(** The next effect of [rollback]. *)
Definition rollback_next (ok : bool) (wf : Workflow) (c : Conf) (p : pc) (t : Task) : Conf :=
  match p with
  | RollbackFrom failedAt =>
      save ok c (Compensating (S failedAt) failedAt) (set_status t StatusRollingBack)
  | Compensating O failedAt =>
      match Steps wf !! failedAt with
      | None => goto c Panicked t
      | Some step =>
          save ok c
            (Returned (Some ("workflow failed at step " +:+ step_Name step +:+ ": " +:+ Error t)))
            (set_status t StatusRolledBack)
      end
  | Compensating (S i) failedAt =>
      match Steps wf !! i with
      | None => goto c Panicked t
      | Some step =>
          let '((w, payload), err) := Compensate step (world c) (ResourceUUID t) (Payload t) in
          after c w (Compensating i failedAt) (set_payload t payload) (Compensated i (no_error err))
      end
  | _ => c
  end.

Definition next (ok : bool) (now : Z) (wf : Workflow) (c : Conf) : Conf :=
  match mem c with
  | None => c
  | Some (p, t) =>
      match p with
      | Start | AtStep _ | StepDone _ | Finish => run_next ok now wf c p t
      | RollbackFrom _ | Compensating _ _ => rollback_next ok wf c p t
      | Returned _ | Panicked => c
      end
  end.

(** What [ReconcileTasks] does with an unfinished task. *)
Definition reconcile (t : Task) : option (pc * Task) :=
  match Status t with
  | StatusRollingBack => Some (RollbackFrom (CurrentStep t), t)
  | StatusPending | StatusRunning => Some (Start, t)
  | _ => None
  end.

(** The registry of workflows; a task of an unknown type is not resumed. *)
Abbreviation Registry := (gmap string Workflow).

Definition RunByType (registry : Registry) (t : Task) : result string (Workflow * (pc * Task)) :=
  match registry !! Type_ t with
  | None => Err ("no workflow registered for type: " +:+ Type_ t)
  | Some wf => Ok (wf, (Start, t))
  end.

Definition ReconcileTasks (registry : Registry) (tasks : list Task)
    : list (Workflow * (pc * Task)) :=
  omap (λ t, match reconcile t, registry !! Type_ t with
             | Some m, Some wf => Some (wf, m)
             | _, _ => None
             end) tasks.

(** ** Runs that are not interrupted *)

(** The compensation of steps, in this order. *)
Fixpoint undo (steps : list Step) (w : World) (t : Task) : World * Task :=
  match steps with
  | [] => (w, t)
  | step :: steps =>
      let '((w, payload), _) := Compensate step w (ResourceUUID t) (Payload t) in
      undo steps w (set_payload t payload)
  end.

Definition failure (step : Step) (t : Task) : string :=
  "workflow failed at step " +:+ step_Name step +:+ ": " +:+ Error t.

(** The steps from the [i]th, after [ran], the last of which comes first. *)
Fixpoint do_steps (now : Z) (ran : list Step) (i : nat) (steps : list Step) (w : World) (t : Task)
    : World * Task * option string :=
  match steps with
  | [] => (w, set_completed (set_status t StatusCompleted) now, None)
  | step :: steps =>
      let '((w, payload), err) := Execute step w (ResourceUUID t) (Payload t) in
      let t := set_payload t payload in
      match err with
      | None => do_steps now (step :: ran) (S i) steps w (set_step t (S i))
      | Some e =>
          let (w, t) := undo (step :: ran) w (set_status (set_error t e) StatusRollingBack) in
          (w, set_status t StatusRolledBack, Some (failure step t))
      end
  end.

(** The world, the task and the error with which [Run] returns. *)
Definition Run (now : Z) (wf : Workflow) (w : World) (t : Task) : World * Task * option string :=
  let n := CurrentStep t in
  do_steps now (reverse (take n (Steps wf))) n (drop n (Steps wf)) w (set_status t StatusRunning).

Lemma do_steps_ok now ran i step steps w t w' p :
  Execute step w (ResourceUUID t) (Payload t) = ((w', p), None) →
  do_steps now ran i (step :: steps) w t
  = do_steps now (step :: ran) (S i) steps w' (set_step (set_payload t p) (S i)).
Proof. intros E. simpl. by rewrite E. Qed.

Lemma do_steps_fail now ran i step steps w t w' p e :
  Execute step w (ResourceUUID t) (Payload t) = ((w', p), Some e) →
  do_steps now ran i (step :: steps) w t
  = let '((w1, p1), _) := Compensate step w' (ResourceUUID t) p in
    let (w2, t') := undo ran w1 (set_payload (set_status (set_error (set_payload t p) e) StatusRollingBack) p1) in
    (w2, set_status t' StatusRolledBack, Some (failure step t')).
Proof. intros E. simpl. rewrite E. by destruct (Compensate _ _ _ _) as [[] ?]. Qed.

Lemma undo_step step ran w t w' p err :
  Compensate step w (ResourceUUID t) (Payload t) = ((w', p), err) →
  undo (step :: ran) w t = undo ran w' (set_payload t p).
Proof. intros E. simpl. by rewrite E. Qed.

(** ** Histories *)

Section history.
Variable wf : Workflow.

(** One effect, a crash, or a restart that resumes the task from its row. A
    crash may leave the world in any state, also amid the execution of a step,
    which then counts as a failed attempt. With [lossy] the saves may fail. *)
Inductive sys_step (lossy : bool) : Conf → Conf → Prop :=
| sys_next c ok now :
    ok = true ∨ lossy = true → sys_step lossy c (next ok now wf c)
| sys_crash c w : sys_step lossy c (mkConf w (row c) None (log c))
| sys_crash_executing c w i t :
    mem c = Some (AtStep i, t) → i < length (Steps wf) →
    sys_step lossy c (mkConf w (row c) None (log c ++ [Executed i false]))
| sys_resume c :
    mem c = None → sys_step lossy c (mkConf (world c) (row c) (reconcile (row c)) (log c)).

Definition initial (w : World) (t : Task) : Conf := mkConf w t (Some (Start, t)) [].

Definition reachable (lossy : bool) : Conf → Conf → Prop := rtc (sys_step lossy).

#[global] Instance reachable_preorder lossy : PreOrder (reachable lossy).
Proof. unfold reachable. apply _. Qed.

(** ** The invariant *)

Definition is_executed (e : event) : Prop :=
  match e with Executed _ _ => True | Compensated _ _ => False end.

Definition attempted (l : list event) (j : nat) : Prop := ∃ ok, Executed j ok ∈ l.
Definition succeeded (l : list event) (j : nat) : Prop := Executed j true ∈ l.
Definition compensated (l : list event) (j : nat) : Prop := ∃ ok, Compensated j ok ∈ l.

(** Executions come before compensations. *)
Definition phased (l : list event) : Prop :=
  ∃ E C, l = E ++ C ∧ Forall is_executed E ∧ Forall (λ e, ¬ is_executed e) C.

(** The steps that were compensated, in the order of time. *)
Definition compensations (l : list event) : list nat :=
  omap (λ e, match e with Compensated j _ => Some j | Executed _ _ => None end) l.

(** The steps from the [i]th down to the first, and this countdown cut short after
    so many steps, time and again. *)
Definition countdown (i : nat) : list nat := reverse (seq 0 (S i)).
Definition rounds (i : nat) (ns : list nat) : list nat := concat ((λ n, take n (countdown i)) <$> ns).

(** A step is attempted only after all earlier ones have succeeded. *)
Definition ordered (l : list event) : Prop :=
  ∀ l1 i ok l2 j, l = l1 ++ Executed i ok :: l2 → j < i → succeeded l1 j.

(** What holds of the history while the row is at step [i]. *)
Definition progressed (l : list event) (i : nat) : Prop :=
  i ≤ length (Steps wf) ∧ (∀ j, j < i → succeeded l j) ∧ (∀ j, attempted l j → j ≤ i) ∧
  ordered l.

Definition forward (l : list event) (i : nat) (m : option (pc * Task)) : Prop :=
  Forall is_executed l ∧ progressed l i ∧
  match m with
  | None => True
  | Some (p, t) =>
      CurrentStep t = i ∧
      match p with
      | Start => True
      | AtStep k => k = i ∧ Status t = StatusRunning
      | StepDone k => k = i ∧ Status t = StatusRunning ∧ succeeded l i ∧ i < length (Steps wf)
      | RollbackFrom k => k = i ∧ i < length (Steps wf) ∧ attempted l i
      | Finish => i = length (Steps wf)
      | _ => False
      end
  end.

Definition backward (l : list event) (i : nat) (m : option (pc * Task)) : Prop :=
  phased l ∧ progressed l i ∧ i < length (Steps wf) ∧ attempted l i ∧
  match m with
  | None => ∃ ns, compensations l = rounds i ns
  | Some (p, t) =>
      CurrentStep t = i ∧
      match p with
      | RollbackFrom k => k = i ∧ ∃ ns, compensations l = rounds i ns
      | Compensating k f =>
          f = i ∧ k ≤ S i ∧ ∃ ns, compensations l = rounds i ns ++ take (S i - k) (countdown i)
      | _ => False
      end
  end.

Definition stopped (m : option (pc * Task)) : Prop :=
  match m with None => True | Some (Returned _, _) => True | _ => False end.

Definition inv (c : Conf) : Prop :=
  let i := CurrentStep (row c) in
  match Status (row c) with
  | StatusPending | StatusRunning => forward (log c) i (mem c)
  | StatusRollingBack => backward (log c) i (mem c)
  | StatusCompleted =>
      Forall is_executed (log c) ∧ progressed (log c) (length (Steps wf)) ∧ stopped (mem c)
  | StatusRolledBack =>
      phased (log c) ∧ progressed (log c) i ∧ attempted (log c) i ∧
      (∃ ns, compensations (log c) = rounds i ns ++ countdown i) ∧ stopped (mem c)
  | StatusFailed => False
  end.

(** ** Its preservation *)

Lemma attempted_snoc l i ok j : attempted (l ++ [Executed i ok]) j → attempted l j ∨ j = i.
Proof.
  intros [b Hb]. apply elem_of_app in Hb as [Hb|Hb]; [left; by exists b|].
  apply list_elem_of_singleton in Hb. naive_solver.
Qed.

Lemma attempted_snoc_comp l i ok j : attempted (l ++ [Compensated i ok]) j → attempted l j.
Proof.
  intros [b Hb]. apply elem_of_app in Hb as [Hb|Hb]; [by exists b|].
  by apply list_elem_of_singleton in Hb.
Qed.

Lemma succeeded_app l l' j : succeeded l j → succeeded (l ++ l') j.
Proof. unfold succeeded. rewrite elem_of_app. tauto. Qed.

Lemma attempted_app l l' j : attempted l j → attempted (l ++ l') j.
Proof. intros [ok H]. exists ok. rewrite elem_of_app. tauto. Qed.

Lemma attempted_last l j ok : attempted (l ++ [Executed j ok]) j.
Proof. exists ok. rewrite elem_of_app. right. by left. Qed.

Lemma compensations_app l l' : compensations (l ++ l') = compensations l ++ compensations l'.
Proof. apply omap_app. Qed.

Lemma compensations_elem l j : j ∈ compensations l ↔ compensated l j.
Proof.
  unfold compensations, compensated. rewrite list_elem_of_omap. split.
  - intros ([k ok|k ok] & Hin & E); simplify_eq. by exists ok.
  - intros [ok Hin]. by exists (Compensated j ok).
Qed.

Lemma executed_compensations l : Forall is_executed l → compensations l = [].
Proof. induction 1 as [|[] l He _ IH]; [done..|by destruct He]. Qed.

Lemma countdown_length i : length (countdown i) = S i.
Proof. unfold countdown. by rewrite length_reverse, length_seq. Qed.

Lemma countdown_elem i j : j ∈ countdown i ↔ j ≤ i.
Proof. unfold countdown. rewrite elem_of_reverse, elem_of_seq. lia. Qed.

Lemma countdown_all i : take (S i) (countdown i) = countdown i.
Proof. apply take_ge. by rewrite countdown_length. Qed.

(** After the steps above the [j]th comes the [j]th. *)
Lemma countdown_next i j : j ≤ i → take (S i - j) (countdown i) = take (i - j) (countdown i) ++ [j].
Proof.
  intros Hj. replace (S i - j) with (S (i - j)) by lia. apply take_S_r.
  unfold countdown. rewrite reverse_lookup by (rewrite length_seq; lia).
  rewrite length_seq, lookup_seq. lia.
Qed.

Lemma rounds_snoc i ns n : rounds i (ns ++ [n]) = rounds i ns ++ take n (countdown i).
Proof. unfold rounds. rewrite fmap_app, concat_app. simpl. by rewrite app_nil_r. Qed.

Lemma ordered_snoc l e :
  ordered l → (∀ i ok j, e = Executed i ok → j < i → succeeded l j) → ordered (l ++ [e]).
Proof.
  intros Ho He l1 i ok l2 j E Hj. destruct l2 as [|y l2 _] using rev_ind.
  - apply app_inj_tail in E as [-> E]. by apply (He i ok).
  - rewrite app_comm_cons, (assoc_L (++)) in E. apply app_inj_tail in E as [-> _].
    by apply (Ho l1 i ok l2).
Qed.

Lemma progressed_exec l i ok : progressed l i → progressed (l ++ [Executed i ok]) i.
Proof.
  intros (Hi&Hs&Ha&Ho). split_and!; [done|auto using succeeded_app| |].
  - intros j [Hj| ->]%attempted_snoc; auto.
  - apply ordered_snoc; [done|]. intros i' ok' j E Hj. simplify_eq. by apply Hs.
Qed.

Lemma progressed_comp l i j ok : progressed l i → progressed (l ++ [Compensated j ok]) i.
Proof.
  intros (Hi&Hs&Ha&Ho). split_and!; [done|auto using succeeded_app| |].
  - intros k Hk%attempted_snoc_comp; auto.
  - by apply ordered_snoc.
Qed.

Lemma progressed_S l i :
  progressed l i → succeeded l i → i < length (Steps wf) → progressed l (S i).
Proof.
  intros (_&Hs&Ha&Ho) Hsi Hi. split_and!; [lia| | |done].
  - intros j Hj. destruct (decide (j = i)) as [->|]; [done|]. apply Hs. lia.
  - intros j Hj%Ha. lia.
Qed.

Lemma executed_snoc l i ok : Forall is_executed l → Forall is_executed (l ++ [Executed i ok]).
Proof. intros H. apply Forall_app. split; [done|]. by repeat constructor. Qed.

Lemma executed_phased l : Forall is_executed l → phased l.
Proof. intros H. exists l, []. rewrite (right_id_L [] (++)). split_and!; [done..|constructor]. Qed.

Lemma phased_comp l i ok : phased l → phased (l ++ [Compensated i ok]).
Proof.
  intros (E&C&->&HE&HC). exists E, (C ++ [Compensated i ok]). rewrite (assoc_L (++)).
  split_and!; [done..|]. apply Forall_app. split; [done|]. repeat constructor. by intros [].
Qed.

Definition is_forward (s : TaskStatus) : Prop := s = StatusPending ∨ s = StatusRunning.

Lemma inv_forward c : is_forward (Status (row c)) →
  inv c ↔ forward (log c) (CurrentStep (row c)) (mem c).
Proof. unfold inv. intros [-> | ->]; done. Qed.

Lemma run_next_inv c p t now :
  is_forward (Status (row c)) →
  forward (log c) (CurrentStep (row c)) (Some (p, t)) →
  inv (match p with RollbackFrom _ => rollback_next true wf c p t
                  | _ => run_next true now wf c p t end).
Proof.
  intros Hst (Hl&Hp&Ht&Hpc). destruct p as [|i|i| |i| | |]; try done; simpl in Hpc.
  - apply inv_forward; [by right|]. simpl. rewrite Ht. by split_and!.
  - destruct Hpc as [-> Hr]. unfold run_next. destruct (Steps wf !! _) as [st|] eqn:Est.
    + apply lookup_lt_Some in Est.
      destruct (Execute st _ _) as [[w pl] [err|]]; apply inv_forward; try done; simpl;
        (split_and!; [by apply executed_snoc|by apply progressed_exec| |..]); try done; [apply attempted_last|].
      apply elem_of_app. right. by left.
    + apply lookup_ge_None in Est. apply inv_forward; [done|]. simpl.
      split_and!; try done. destruct Hp as (Hp&_). lia.
  - destruct Hpc as (->&Hr&Hs&Hi). apply inv_forward; [by right|]. simpl.
    split_and!; try done. by apply progressed_S.
  - simpl. unfold inv. simpl. rewrite <-Hpc. by split_and!.
  - destruct Hpc as (->&Hi&Ha). simpl. unfold inv. simpl. rewrite Ht.
    split_and!; try done; [by apply executed_phased|].
    exists []. rewrite Nat.sub_diag. by apply executed_compensations.
Qed.

Lemma rollback_next_inv c p t :
  Status (row c) = StatusRollingBack →
  backward (log c) (CurrentStep (row c)) (Some (p, t)) → inv (rollback_next true wf c p t).
Proof.
  intros Hst (Hl&Hp&Hi&Ha&Ht&Hpc). destruct p as [| | | |k|k f| |]; try done; simpl in Hpc.
  - destruct Hpc as (->&ns&Hc). unfold inv. simpl. rewrite Ht. split_and!; try done.
    exists ns. by rewrite Nat.sub_diag, app_nil_r.
  - destruct Hpc as (->&Hk&ns&Hc). destruct k as [|j]; simpl.
    + destruct (lookup_lt_is_Some_2 (Steps wf) _ Hi) as [st ->].
      unfold inv. simpl. rewrite Ht. split_and!; try done. exists ns. by rewrite Hc, Nat.sub_0_r, countdown_all.
    + destruct (lookup_lt_is_Some_2 (Steps wf) j) as [st ->]; [lia|].
      destruct (Compensate st _ _) as [[w pl] err]. unfold inv. simpl. rewrite Hst.
      split_and!; try done; [by apply phased_comp|by apply progressed_comp|by apply attempted_app|lia|].
      exists ns. rewrite compensations_app, Hc, <- (assoc_L (++)), (countdown_next _ j) by lia. done.
Qed.

Lemma next_inv c now : inv c → inv (next true now wf c).
Proof.
  intros H. unfold next. destruct (mem c) as [[p t]|] eqn:Hm; [|done].
  assert (is_forward (Status (row c)) ∨ Status (row c) = StatusRollingBack ∨
    stopped (mem c)) as [Hf|[Hb|Hs]].
  { unfold inv in H. destruct (Status (row c)); unfold is_forward; naive_solver. }
  - pose proof H as Hfw. apply inv_forward in Hfw; [|done]. rewrite Hm in Hfw.
    pose proof (run_next_inv c p t now Hf Hfw) as Hn. destruct p; try done.
    by destruct Hfw as (_&_&_&[]).
  - pose proof H as Hbw. unfold inv in Hbw. rewrite Hb, Hm in Hbw.
    pose proof (rollback_next_inv c p t Hb Hbw) as Hn. destruct p; try done.
    all: by destruct Hbw as (_&_&_&_&_&[]).
  - rewrite Hm in Hs. by destruct p.
Qed.

Lemma crash_backward l i m : backward l i m → backward l i None.
Proof.
  intros (Hl&Hp&Hi&Ha&Hm). split_and!; try done. destruct m as [[p t]|]; [|done].
  destruct Hm as [_ Hm]. destruct p as [| | | |k|k f| |]; try done; [by destruct Hm|].
  destruct Hm as (_&_&ns&Hc). exists (ns ++ [S i - k]). by rewrite rounds_snoc.
Qed.

Lemma crash_inv c w : inv c → inv (mkConf w (row c) None (log c)).
Proof.
  unfold inv. simpl. destruct (Status (row c)); try (unfold forward; naive_solver).
  apply crash_backward.
Qed.

Lemma crash_executing_inv c w i t :
  inv c → mem c = Some (AtStep i, t) → inv (mkConf w (row c) None (log c ++ [Executed i false])).
Proof.
  intros H Hm. unfold inv in *. simpl. rewrite Hm in H.
  destruct (Status (row c)); try (destruct H as (Hl&Hp&_&->&_);
    split_and!; [by apply executed_snoc|by apply progressed_exec|done]);
    unfold backward, stopped in H; naive_solver.
Qed.

Lemma resume_inv c :
  inv c → mem c = None → inv (mkConf (world c) (row c) (reconcile (row c)) (log c)).
Proof.
  intros H Hm. unfold inv in *. simpl. rewrite Hm in H. unfold reconcile.
  destruct (Status (row c)); try done;
    unfold forward, backward in *; naive_solver.
Qed.

Lemma history_inv c0 c : inv c0 → reachable false c0 c → inv c.
Proof.
  intros H0 Hr. induction Hr as [|c1 c2 c3 Hs _ IH]; [done|]. apply IH. clear IH.
  destruct Hs as [c ok now [-> |]|c w|c w i t Hm|c Hm]; try done.
  - by apply next_inv.
  - by apply crash_inv.
  - by apply (crash_executing_inv c w i t).
  - by apply resume_inv.
Qed.

Lemma initial_inv w t : Status t = StatusPending → CurrentStep t = 0 → inv (initial w t).
Proof.
  intros Hs Hc. unfold inv, initial. simpl. rewrite Hs, Hc.
  split; [apply Forall_nil_2; done|]. split; [|done].
  split; [apply Nat.le_0_l|]. split; [intros j; lia|]. split.
  - intros j [ok Ho]. by apply elem_of_nil in Ho.
  - intros l1 i ok l2 j E. by destruct l1.
Qed.

(** ** Theorems *)

(** ** Saves that fail *)

Definition all_succeeded (l : list event) : Prop := ∀ j, j < length (Steps wf) → succeeded l j.

(** What a task says of the history, in memory and in its row, also when saves are
    lost. *)
Definition truthful (l : list event) (t : Task) : Prop :=
  (∀ j, j < CurrentStep t → succeeded l j) ∧ (Status t = StatusCompleted → all_succeeded l).

Definition lossy_inv (c : Conf) : Prop :=
  ordered (log c) ∧ truthful (log c) (row c) ∧
  match mem c with
  | None => True
  | Some (p, t) =>
      truthful (log c) t ∧
      match p with
      | AtStep k => ∀ j, j < k → succeeded (log c) j
      | StepDone k => ∀ j, j < S k → succeeded (log c) j
      | Finish => all_succeeded (log c)
      | _ => True
      end
  end.

Lemma truthful_app l l' t : truthful l t → truthful (l ++ l') t.
Proof. intros [H1 H2]. split; [intros j Hj|intros Hs j Hj]; apply succeeded_app; auto. by apply H2. Qed.

Lemma save_lossy ok c p t :
  lossy_inv c → truthful (log c) t →
  match p with AtStep k => ∀ j, j < k → succeeded (log c) j | StepDone _ | Finish => False | _ => True end →
  lossy_inv (save ok c p t).
Proof.
  intros (Ho&Hr&_) Ht Hp. split; [done|]. simpl. split; [by destruct ok|]. split; [done|]. by destruct p.
Qed.

Lemma after_lossy c w p t e :
  lossy_inv c → truthful (log c) t → (∀ i ok j, e = Executed i ok → j < i → succeeded (log c) j) →
  match p with
  | StepDone k => e = Executed k true ∧ ∀ j, j < k → succeeded (log c) j
  | AtStep _ | Finish => False
  | _ => True
  end → lossy_inv (after c w p t e).
Proof.
  intros (Ho&Hr&_) Ht He Hp. split; [by apply ordered_snoc|]. simpl. split; [by apply truthful_app|].
  split; [by apply truthful_app|]. destruct p as [| |k| | | | |]; try done. destruct Hp as [-> Hp]. intros j Hj.
  destruct (decide (j = k)) as [->|]; [apply elem_of_app; right; by left|]. apply succeeded_app, Hp. lia.
Qed.

Lemma next_lossy ok now c : lossy_inv c → lossy_inv (next ok now wf c).
Proof.
  intros H. unfold next. destruct (mem c) as [[p t]|] eqn:Hm; [|done].
  assert (truthful (log c) t) as Ht by (unfold lossy_inv in H; rewrite Hm in H; naive_solver).
  pose proof H as (Ho&Hr&Hp). rewrite Hm in Hp. destruct Hp as [_ Hp].
  assert (truthful (log c) (set_status t StatusRunning) ∧ truthful (log c) (set_status t StatusRollingBack)
    ∧ truthful (log c) (set_status t StatusRolledBack)) as (T1&T2&T3) by (destruct Ht; done).
  destruct p as [|i|i| |i|[|k] f| |]; simpl; try done.
  - apply save_lossy; [done..|]. apply Ht.
  - destruct (Steps wf !! i) as [st|] eqn:E.
    + destruct (Execute st _ _) as [[w pl] [err|]]; (apply after_lossy; [done|by destruct Ht| |done]);
        intros k b j [= <- <-]; apply Hp.
    + apply lookup_ge_None in E. split; [done|]. simpl. split; [done|]. split; [done|]. intros j Hj. apply Hp. lia.
  - apply save_lossy; [done| |done]. destruct Ht as [_ Ht]. done.
  - apply save_lossy; [done| |done]. destruct Ht as [Ht _]. done.
  - by apply save_lossy.
  - destruct (Steps wf !! f); [by apply save_lossy|]. split; [done|]. by simpl.
  - destruct (Steps wf !! k) as [st|]; [|split; [done|]; by simpl].
    destruct (Compensate st _ _) as [[w pl] err]. by apply after_lossy; [done|destruct Ht| |].
Qed.

Lemma history_lossy lossy c0 c : lossy_inv c0 → reachable lossy c0 c → lossy_inv c.
Proof.
  intros H0 Hr. induction Hr as [|c1 c2 c3 Hs _ IH]; [done|]. apply IH. clear IH.
  destruct Hs as [c ok now _|c w|c w i t Hm|c Hm].
  - by apply next_lossy.
  - destruct H0 as (Ho&Hr&_). by split.
  - destruct H0 as (Ho&Hr&Hp). rewrite Hm in Hp. split; simpl; [|split; [by apply truthful_app|done]].
    apply ordered_snoc; [done|]. intros k ok j [= <- <-]. apply Hp.
  - destruct H0 as (Ho&Hr&_). split; [done|]. simpl. split; [done|]. unfold reconcile.
    by destruct (Status (row c)).
Qed.

Lemma initial_lossy w t : Status t = StatusPending → CurrentStep t = 0 → lossy_inv (initial w t).
Proof.
  intros Hs Hc. assert (truthful [] t) as Ht by (split; [intros j; lia|by rewrite Hs]).
  split; [|done]. intros l1 i ok l2 j E. by destruct l1.
Qed.

(** ** Theorems *)

(** C2: Whatever crashes and resumptions a task goes through, and whichever of its
    saves fail: when its row says that it is completed, every step has succeeded
    and each was attempted only after all earlier ones had succeeded. If all saves
    succeeded, moreover, no step was compensated. *)
Theorem completed_task lossy w t c :
  Status t = StatusPending → CurrentStep t = 0 → reachable lossy (initial w t) c →
  Status (row c) = StatusCompleted →
  (∀ j, j < length (Steps wf) → succeeded (log c) j) ∧ ordered (log c) ∧
  (lossy = false → Forall is_executed (log c)).
Proof.
  intros Hs Hc Hr Hst. pose proof (history_lossy _ _ _ (initial_lossy w t Hs Hc) Hr) as (Ho&[_ Hall]&_).
  split_and!; [by apply Hall|done|]. intros ->.
  pose proof (history_inv _ _ (initial_inv w t Hs Hc) Hr) as H. unfold inv in H. rewrite Hst in H. apply H.
Qed.

(** C3: As long as its saves succeed, when a task is rolled back after whatever
    crashes and resumptions: the compensations follow all executions, every step
    that was attempted has been compensated, and the compensations are countdowns
    from the step that failed, the last one attempted, to the first step: a whole
    one at the end, after those that crashes cut short. *)
Theorem rolled_back_task w t c :
  Status t = StatusPending → CurrentStep t = 0 → reachable false (initial w t) c →
  Status (row c) = StatusRolledBack →
  phased (log c) ∧ (∀ j, attempted (log c) j → compensated (log c) j) ∧
  ∃ i ns, (∀ j, attempted (log c) j ↔ j ≤ i) ∧ compensations (log c) = rounds i ns ++ countdown i.
Proof.
  intros Hs Hc Hr Hst. pose proof (history_inv _ _ (initial_inv w t Hs Hc) Hr) as H.
  unfold inv in H. rewrite Hst in H. destruct H as (Hl&(_&Hd&Ha&_)&Hi&(ns&Hcomp)&_).
  split_and!; [done| |].
  - intros j Hj%Ha. apply compensations_elem. rewrite Hcomp. apply elem_of_app. right. by apply countdown_elem.
  - exists (CurrentStep (row c)), ns. split; [|done]. intros j. split; [apply Ha|]. intros Hj.
    destruct (decide (j = CurrentStep (row c))) as [->|]; [done|]. exists true. apply Hd. lia.
Qed.

(** ** Termination *)

(** An upper bound of the effects left to a run. *)
Definition remaining (p : pc) (t : Task) : nat :=
  let n := length (Steps wf) in
  match p with
  | Start => 3 * (n - CurrentStep t) + n + 6
  | AtStep i => 3 * (n - i) + n + 5
  | StepDone i => 3 * (n - S i) + n + 6
  | Finish => 1
  | RollbackFrom i => i + 3
  | Compensating k _ => k + 1
  | Returned _ | Panicked => 0
  end.

Lemma next_decreases ok now c p t :
  mem c = Some (p, t) → 0 < remaining p t →
  ∃ p' t', mem (next ok now wf c) = Some (p', t') ∧ remaining p' t' < remaining p t.
Proof.
  intros Hm Hr. unfold next. rewrite Hm. destruct p as [|i|i| |i|[|k] f| |]; simpl in *; try lia.
  - eexists _, _. split; [done|]. simpl. lia.
  - destruct (Steps wf !! i) eqn:E.
    + apply lookup_lt_Some in E. destruct (Execute _ _ _ _) as [[] []];
        (eexists _, _; split; [done|]; simpl; lia).
    + eexists _, _. split; [done|]. simpl. lia.
  - eexists _, _. split; [done|]. simpl. lia.
  - eexists _, _. split; [done|]. simpl. lia.
  - eexists _, _. split; [done|]. simpl. lia.
  - destruct (Steps wf !! f); (eexists _, _; split; [done|]; simpl; lia).
  - destruct (Steps wf !! k); [|eexists _, _; split; [done|]; simpl; lia].
    destruct (Compensate _ _ _ _) as [[] ?]. eexists _, _. split; [done|]. simpl. lia.
Qed.

Lemma next_inactive ok now c p t :
  mem c = Some (p, t) → remaining p t = 0 → next ok now wf c = c.
Proof. intros Hm Hr. unfold next. rewrite Hm. destruct p; simpl in Hr; done || lia. Qed.

Lemma iter_stops now k c p t :
  mem c = Some (p, t) → remaining p t ≤ k →
  ∃ p' t', mem (Nat.iter k (next true now wf) c) = Some (p', t') ∧ remaining p' t' = 0.
Proof.
  revert c p t; induction k as [|k IH]; intros c p t Hm Hr; [exists p, t; split; [done|lia]|].
  rewrite Nat.iter_succ_r. destruct (decide (remaining p t = 0)) as [E|E].
  - rewrite (next_inactive _ _ _ _ _ Hm E). apply (IH _ p t); [done|lia].
  - destruct (next_decreases true now c p t Hm) as (p'&t'&Hm'&Hlt); [lia|].
    apply (IH _ p' t' Hm'). lia.
Qed.

Lemma remaining_bound c p t :
  inv c → mem c = Some (p, t) → remaining p t ≤ 4 * length (Steps wf) + 6.
Proof.
  intros H Hm. unfold inv, forward, backward, progressed in H. rewrite Hm in H.
  destruct (Status (row c)); try done; destruct p; simpl in *; try lia; naive_solver lia.
Qed.

Lemma iter_inv now k c : inv c → inv (Nat.iter k (next true now wf) c).
Proof. intros H. induction k as [|k IH]; [done|]. simpl. by apply next_inv. Qed.

(** C40: As long as the saves succeed, from every point of a history a run that
    does not crash any more ends after at most [4 n + 6] effects, for a workflow of
    [n] steps, with its task completed or rolled back. *)
Theorem run_ends w t0 c p t now :
  Status t0 = StatusPending → CurrentStep t0 = 0 → reachable false (initial w t0) c →
  mem c = Some (p, t) →
  let c' := Nat.iter (4 * length (Steps wf) + 6) (next true now wf) c in
  Status (row c') = StatusCompleted ∨ Status (row c') = StatusRolledBack.
Proof.
  intros Hs Hc Hr Hm c'. pose proof (history_inv _ _ (initial_inv w t0 Hs Hc) Hr) as H.
  destruct (iter_stops now (4 * length (Steps wf) + 6) c p t Hm) as (p'&t'&Hm'&Hz);
    [by apply (remaining_bound c)|].
  pose proof (iter_inv now (4 * length (Steps wf) + 6) c H) as H'. fold c' in Hm', H'.
  unfold inv, forward, backward in H'. rewrite Hm' in H'.
  destruct (Status (row c')); auto; destruct p'; simpl in *; lia || naive_solver.
Qed.

(** The machine of a run ends as [Run] says. *)
Definition leads (now : Z) (c c' : Conf) : Prop := ∃ k, Nat.iter k (next true now wf) c = c'.

Lemma leads_next now c c' : leads now (next true now wf c) c' → leads now c c'.
Proof. intros [k Hk]. exists (S k). by rewrite Nat.iter_succ_r. Qed.

Lemma leads_undo now step ran failedAt c t :
  reverse ran `prefix_of` Steps wf → mem c = Some (Compensating (length ran) failedAt, t) →
  Steps wf !! failedAt = Some step →
  let (w, t') := undo ran (world c) t in
  ∃ l, leads now c (mkConf w (set_status t' StatusRolledBack)
    (Some (Returned (Some (failure step t')), set_status t' StatusRolledBack)) l).
Proof.
  revert c t. induction ran as [|s ran IH]; intros c t Hp Hm Hs; simpl.
  - exists (log c), 1. simpl. unfold next. rewrite Hm. simpl. by rewrite Hs.
  - rewrite reverse_cons in Hp.
    assert (Steps wf !! length ran = Some s) as Hi.
    { destruct Hp as [rest ->]. rewrite <- app_assoc, lookup_app_r by (rewrite length_reverse; lia).
      by rewrite length_reverse, Nat.sub_diag. }
    assert (reverse ran `prefix_of` Steps wf) as Hp' by (eapply prefix_app_l; exact Hp).
    destruct (Compensate s (world c) (ResourceUUID t) (Payload t)) as [[w payload] err] eqn:Ec.
    set (c1 := next true now wf c).
    assert (mem c1 = Some (Compensating (length ran) failedAt, set_payload t payload) ∧ world c1 = w) as [Hm1 Hw].
    { unfold c1, next. rewrite Hm. simpl. rewrite Hi, Ec. done. }
    specialize (IH c1 _ Hp' Hm1 Hs). rewrite Hw in IH.
    destruct (undo ran w (set_payload t payload)) as [w' t']. destruct IH as [l Hl].
    exists l. by apply leads_next.
Qed.

Lemma leads_steps now steps ran i c t :
  Steps wf = reverse ran ++ steps → length ran = i → mem c = Some (AtStep i, t) →
  let '(w, t', e) := do_steps now ran i steps (world c) t in
  ∃ l, leads now c (mkConf w t' (Some (Returned e, t')) l).
Proof.
  revert ran i c t. induction steps as [|s steps IH]; intros ran i c t Hw Hi Hm; simpl.
  - exists (log c), 2. simpl. unfold next at 2. rewrite Hm. simpl.
    rewrite lookup_ge_None_2; [done|]. rewrite Hw, app_nil_r, length_reverse. lia.
  - assert (Steps wf !! i = Some s) as Hs.
    { rewrite Hw, lookup_app_r by (rewrite length_reverse; lia). by rewrite length_reverse, Hi, Nat.sub_diag. }
    destruct (Execute s (world c) (ResourceUUID t) (Payload t)) as [[w payload] [e|]] eqn:Ee.
    + set (t1 := set_status (set_error (set_payload t payload) e) StatusRollingBack).
      assert (next true now wf c = after c w (RollbackFrom i) (set_error (set_payload t payload) e) (Executed i false))
        as E1 by (unfold next; rewrite Hm; simpl; by rewrite Hs, Ee).
      set (c2 := next true now wf (next true now wf c)).
      assert (mem c2 = Some (Compensating (S i) i, t1) ∧ world c2 = w) as [Hm2 Hw2].
      { unfold c2. rewrite E1. done. }
      pose proof (leads_undo now s (s :: ran) i c2 t1) as H. simpl length in H. rewrite Hi, Hw2 in H.
      destruct (undo (s :: ran) w t1) as [w' t'] eqn:Eu. destruct H as [l Hl]; [|done|done|].
      { rewrite Hw, reverse_cons. exists steps. by rewrite <- app_assoc. }
      simpl in Eu. rewrite Eu. exists l. by do 2 apply leads_next.
    + assert (next true now wf c = after c w (StepDone i) (set_payload t payload) (Executed i true))
        as E1 by (unfold next; rewrite Hm; simpl; by rewrite Hs, Ee).
      set (c2 := next true now wf (next true now wf c)).
      assert (mem c2 = Some (AtStep (S i), set_step (set_payload t payload) (S i)) ∧ world c2 = w) as [Hm2 Hw2].
      { unfold c2. rewrite E1. done. }
      specialize (IH (s :: ran) (S i) c2 _ ltac:(by rewrite reverse_cons, <- app_assoc) ltac:(simpl; lia) Hm2).
      rewrite Hw2 in IH. destruct (do_steps _ _ _ _ _ _) as [[w' t'] e']. destruct IH as [l Hl].
      exists l. by do 2 apply leads_next.
Qed.

Lemma leads_run now w t :
  (CurrentStep t <= length (Steps wf))%nat →
  let '(w', t', e) := Run now wf w t in ∃ l, leads now (initial w t) (mkConf w' t' (Some (Returned e, t')) l).
Proof.
  intros Hn. unfold Run.
  pose proof (leads_steps now (drop (CurrentStep t) (Steps wf)) (reverse (take (CurrentStep t) (Steps wf)))
    (CurrentStep t) (next true now wf (initial w t)) (set_status t StatusRunning)) as H.
  rewrite reverse_involutive, take_drop in H. simpl world in H.
  destruct (do_steps _ _ _ _ _ _) as [[w' t'] e]. destruct H as [l Hl]; [done| |done|].
  { rewrite length_reverse, length_take. lia. }
  exists l. by apply leads_next.
Qed.

End history.
End engine.

Arguments Step : clear implicits.
Arguments Workflow : clear implicits.
Arguments Conf : clear implicits.

(** ** Locks *)

Module Locks.

(** Redis: [SET NX] with a time to live sets a key that is not there, and a key is
    there until its time has passed or it is deleted. Times are in nanoseconds. *)
Class Redis := {
  store : Type;
  SetNX : Z → string → Z → store → bool * store;
  Del : string → store → store;
  held : Z → string → store → bool;
  SetNX_result now key ttl s : (SetNX now key ttl s).1 = negb (held now key s);
  SetNX_held now key ttl s now' key' : (now <= now')%Z →
    held now' key' (SetNX now key ttl s).2
    = if negb (held now key s) && bool_decide (key' = key) then (now' <? now + ttl)%Z else held now' key' s;
  Del_held key s now' key' :
    held now' key' (Del key s) = if bool_decide (key' = key) then false else held now' key' s
}.

Section locks.
Context {redis : Redis}.

Definition lock_key (resourceUUID : string) : string := "lock:wf:" +:+ resourceUUID.

(** Without Redis there are no locks; [up] tells that it answers. The handlers
    ignore the error and look at the result. *)
Definition AcquireLock (up : bool) (now : Z) (resourceUUID : string) (ttl : Z) (r : option store)
    : bool * option store :=
  match r with
  | None => (true, None)
  | Some s =>
      if up then let (ok, s) := SetNX now (lock_key resourceUUID) ttl s in (ok, Some s) else (false, Some s)
  end.

Definition ReleaseLock (up : bool) (resourceUUID : string) (r : option store) : option store :=
  match r with
  | None => None
  | Some s => Some (if up then Del (lock_key resourceUUID) s else s)
  end.

Inductive op := Acquire (up : bool) (now : Z) (resourceUUID : string) (ttl : Z) | Release (up : bool) (resourceUUID : string).

Definition perform (r : option store) (o : op) : option store :=
  match o with
  | Acquire up now id ttl => (AcquireLock up now id ttl r).2
  | Release up id => ReleaseLock up id r
  end.

Lemma lock_key_inj a b : lock_key a = lock_key b → a = b.
Proof. unfold lock_key. apply str_app_inj_l. Qed.

(** Operations in the order of time, from [t] on and before [t1], none of which
    releases the lock of a resource. *)
Fixpoint within (t t1 : Z) (uuid : string) (os : list op) : Prop :=
  match os with
  | [] => True
  | Acquire _ now _ _ :: os => (t <= now < t1)%Z ∧ within now t1 uuid os
  | Release _ id :: os => id ≠ uuid ∧ within t t1 uuid os
  end.

Lemma locked_excludes t t1 uuid os up now ttl s :
  (∀ t', (t <= t' < t1)%Z → held t' (lock_key uuid) s = true) →
  within t t1 uuid (os ++ [Acquire up now uuid ttl]) →
  (AcquireLock up now uuid ttl (foldl perform (Some s) os)).1 = false.
Proof.
  revert t s. induction os as [|[up' now' id ttl'|up' id] os IH]; intros t s Hs; simpl.
  - intros [Hn _]. destruct up; [|done]. pose proof (SetNX_result now (lock_key uuid) ttl s) as Hr.
    rewrite Hs in Hr by lia. by destruct (SetNX _ _ _ _).
  - intros [Hn Hos]. destruct up'; [|apply (IH now'); [intros; apply Hs; lia|done]].
    pose proof (λ t' key', SetNX_held now' (lock_key id) ttl' s t' key') as Hh.
    destruct (SetNX now' (lock_key id) ttl' s) as [ok s']. simpl in Hh |- *.
    apply (IH now'); [|done]. intros t' Ht'. rewrite Hh by lia.
    destruct (decide (id = uuid)) as [->|Hne]; [by rewrite Hs, Hs by lia|].
    rewrite (bool_decide_eq_false_2 (_ = _)), andb_false_r; [apply Hs; lia|].
    by intros ->%lock_key_inj.
  - intros [Hne Hos]. destruct up'; [|by apply (IH t)]. apply (IH t); [|done]. intros t' Ht'.
    rewrite Del_held, bool_decide_eq_false_2; [by apply Hs|]. by intros ->%lock_key_inj.
Qed.

(** While a lock lasts and is not released, nobody else gets it. *)
Theorem lock_exclusive up t0 uuid ttl s r os up' now ttl' :
  AcquireLock up t0 uuid ttl (Some s) = (true, r) →
  within t0 (t0 + ttl) uuid (os ++ [Acquire up' now uuid ttl']) →
  (AcquireLock up' now uuid ttl' (foldl perform r os)).1 = false.
Proof.
  unfold AcquireLock at 1. destruct up; [|done].
  pose proof (SetNX_result t0 (lock_key uuid) ttl s) as Hr. pose proof (λ t', SetNX_held t0 (lock_key uuid) ttl s t' (lock_key uuid)) as Hh.
  destruct (SetNX _ _ _ _) as [ok s']. simpl in Hr, Hh. intros [= -> <-]. apply locked_excludes.
  intros t' Ht'. rewrite Hh, <- Hr, bool_decide_eq_true_2 by (done || lia). simpl. apply Z.ltb_lt. lia.
Qed.

(** But a request that outlasts its lock releases the lock of the next one, so that
    a third enters while the second still runs, before its lock has expired. *)
Theorem lock_stolen s uuid ttl t1 t2 ttl' :
  held 0 (lock_key uuid) s = false → (0 < ttl <= t1)%Z → (t1 <= t2 < t1 + ttl)%Z →
  let '(a, r) := AcquireLock true 0 uuid ttl (Some s) in
  let '(b, r) := AcquireLock true t1 uuid ttl r in
  let r := ReleaseLock true uuid r in
  let '(c, _) := AcquireLock true t2 uuid ttl' r in
  a = true ∧ b = true ∧ c = true.
Proof.
  intros H0 Ht1 Ht2. unfold AcquireLock, ReleaseLock.
  pose proof (SetNX_result 0 (lock_key uuid) ttl s) as R1. pose proof (SetNX_held 0 (lock_key uuid) ttl s t1 (lock_key uuid) ltac:(lia)) as H1.
  destruct (SetNX 0 _ _ s) as [a s1]. simpl in R1, H1. rewrite H0 in R1, H1. simpl in H1. rewrite bool_decide_eq_true_2 in H1 by done.
  rewrite (proj2 (Z.ltb_ge _ _)) in H1 by lia.
  pose proof (SetNX_result t1 (lock_key uuid) ttl s1) as R2. destruct (SetNX t1 _ _ s1) as [b s2]. simpl in R2.
  pose proof (SetNX_result t2 (lock_key uuid) ttl' (Del (lock_key uuid) s2)) as R3.
  destruct (SetNX t2 _ _ _) as [c s3]. simpl in R3. rewrite Del_held, bool_decide_eq_true_2 in R3 by done.
  rewrite H1 in R2. by subst.
Qed.
End locks.
End Locks.

(** ** Examples *)

(** Two steps that record themselves in the world; the second one fails until
    the world has been marked. *)
Definition mark (name : string) (fails : list string → bool) : Step (list string) :=
  mkStep name
    (λ w _ p, if fails w then ((w ++ ["fail " +:+ name], p), Some "boom")
            else ((w ++ [name], p), None))
    (λ w _ p, ((w ++ ["undo " +:+ name], p), None)).

Definition example (fails : list string → bool) : Workflow (list string) :=
  mkWorkflow "boot" [mark "volume" (λ _, false); mark "network" fails].

Definition fresh_task : Task := mkTask "boot" "i-1" StatusPending 0 "" "" None.

Definition run (k : nat) (wf : Workflow (list string)) (c : Conf (list string)) :=
  Nat.iter k (next true 7 wf) c.

Lemma iter_reachable lossy ok k (wf : Workflow (list string)) c :
  ok = true ∨ lossy = true → reachable wf lossy c (Nat.iter k (next ok 7 wf) c).
Proof.
  intros Hok. induction k as [|k IH]; [constructor|].
  eapply rtc_r; [exact IH|]. by apply (sys_next wf lossy _ ok 7).
Qed.

Lemma run_reachable k wf c : reachable wf false c (run k wf c).
Proof. apply iter_reachable. by left. Qed.

(** A crash after the first step, and the resumption. *)
Definition crashed (wf : Workflow (list string)) (k : nat) : Conf (list string) :=
  let c := run k wf (initial [] fresh_task) in
  mkConf (world c) (row c) (reconcile (row c)) (log c).

Lemma crashed_reachable wf k : reachable wf false (initial [] fresh_task) (crashed wf k).
Proof.
  eapply rtc_r; [eapply rtc_r; [apply (run_reachable k)|apply sys_crash]|].
  unfold crashed. by apply (sys_resume wf false (mkConf _ _ None _)).
Qed.

(** A store that keeps the time at which each key expires. *)
Definition redis_map : Locks.Redis.
Proof.
  refine {|
    Locks.store := gmap string Z;
    Locks.SetNX now key ttl s :=
      if match s !! key with Some t => (now <? t)%Z | None => false end then (false, s)
      else (true, <[key := (now + ttl)%Z]> s);
    Locks.Del key s := delete key s;
    Locks.held now key s := match s !! key with Some t => (now <? t)%Z | None => false end
  |}.
  - intros now key ttl s. by case_match.
  - intros now key ttl s now' key' Hle. destruct (match s !! key with Some _ => _ | None => _ end); simpl; [done|].
    case_bool_decide as Hk; [subst; by rewrite lookup_insert_eq|by rewrite lookup_insert_ne].
  - intros key s now' key'. case_bool_decide as Hk; [subst; by rewrite lookup_delete_eq|by rewrite lookup_delete_ne].
Defined.

Lemma lock_exclusive_witness :
  let minute := (60 * 10 ^ 9)%Z in
  let r := (Locks.AcquireLock (redis := redis_map) true 0 "i-1" (5 * minute) (Some ∅)).2 in
  (Locks.AcquireLock (redis := redis_map) true (3 * minute) "i-1" (5 * minute)
     (foldl (Locks.perform (redis := redis_map)) r [Locks.Acquire true minute "i-2" (5 * minute); Locks.Release true "i-2"])).1 = false.
Proof.
  intros minute r. refine (Locks.lock_exclusive (redis := redis_map) true 0 "i-1" (5 * minute) ∅ r _ _ _ _ eq_refl _).
  simpl. split_and!; try lia; done.
Defined.

Lemma lock_stolen_witness :
  let minute := (60 * 10 ^ 9)%Z in
  let '(a, r) := Locks.AcquireLock (redis := redis_map) true 0 "i-1" (5 * minute) (Some ∅) in
  let '(b, r) := Locks.AcquireLock true (6 * minute) "i-1" (5 * minute) r in
  let r := Locks.ReleaseLock true "i-1" r in
  let '(c, _) := Locks.AcquireLock true (7 * minute) "i-1" (5 * minute) r in
  a = true ∧ b = true ∧ c = true.
Proof.
  intros minute. refine (Locks.lock_stolen (redis := redis_map) ∅ "i-1" (5 * minute) (6 * minute) (7 * minute) (5 * minute) eq_refl _ _);
    lia.
Defined.

Lemma completed_task_witness :
  let wf := example (λ _, false) in
  let c := run 20 wf (crashed wf 2) in
  Status (row c) = StatusCompleted ∧ world c = ["volume"; "volume"; "network"] ∧
  (∀ j, j < 2 → succeeded (log c) j) ∧ ordered (log c) ∧ Forall is_executed (log c).
Proof.
  intros wf c. assert (Status (row c) = StatusCompleted) as Hs by (vm_compute; reflexivity).
  split; [exact Hs|]. split; [vm_compute; reflexivity|].
  destruct (completed_task wf false [] fresh_task c) as (H1&H2&H3); [reflexivity|reflexivity| |exact Hs|].
  { etrans; [apply crashed_reachable|apply run_reachable]. }
  split; [exact H1|]. split; [exact H2|]. by apply H3.
Defined.

(** A crash after the first compensation. *)
Lemma rolled_back_task_witness :
  let wf := example (λ _, true) in
  let c := run 20 wf (crashed wf 6) in
  Status (row c) = StatusRolledBack ∧ phased (log c) ∧
  world c = ["volume"; "fail network"; "undo network"; "undo network"; "undo volume"] ∧
  compensations (log c) = rounds 1 [1] ++ countdown 1 ∧
  ∃ i ns, (∀ j, attempted (log c) j ↔ j ≤ i) ∧ compensations (log c) = rounds i ns ++ countdown i.
Proof.
  intros wf c. assert (Status (row c) = StatusRolledBack) as Hs by (vm_compute; reflexivity).
  destruct (rolled_back_task wf [] fresh_task c) as (H1&H2&H3); [reflexivity|reflexivity| |exact Hs|].
  { etrans; [apply crashed_reachable|apply run_reachable]. }
  split; [exact Hs|]. split; [exact H1|]. split; [vm_compute; reflexivity|].
  split; [vm_compute; reflexivity|exact H3].
Defined.

Lemma run_ends_witness :
  let wf := example (λ _, true) in
  let c := run 14 wf (crashed wf 4) in
  Status (row c) = StatusCompleted ∨ Status (row c) = StatusRolledBack.
Proof.
  intros wf c. refine (run_ends wf [] fresh_task (crashed wf 4) Start
    (row (crashed wf 4)) 7 _ _ _ _); [reflexivity|reflexivity|apply crashed_reachable|reflexivity].
Defined.

(** The saves' errors are ignored, so that a step of a completed task may have been
    compensated after it succeeded: here the
    failure of the second step rolls the task back, but the saves of the
    rollback are lost; the resumed task executes the second step and completes,
    although the first step has been undone and never done again. *)
Theorem lost_save_completes_undone :
  ∃ c, reachable (example (λ w, bool_decide ("fail network" ∉ w))) true (initial [] fresh_task) c ∧
    Status (row c) = StatusCompleted ∧
    world c = ["volume"; "fail network"; "undo network"; "undo volume"; "network"].
Proof.
  set (wf := example (λ w, bool_decide ("fail network" ∉ w))).
  set (c1 := run 4 wf (initial [] fresh_task)).
  set (c2 := Nat.iter 4 (next false 7 wf) c1).
  set (c3 := mkConf (world c2) (row c2) (reconcile (row c2)) (log c2)).
  exists (run 20 wf c3). split; [|split; vm_compute; reflexivity].
  etrans; [apply (iter_reachable true true 4); by left|].
  etrans; [apply (iter_reachable true false 4); by right|].
  etrans; [eapply rtc_r; [apply rtc_once, (sys_crash wf true c2 (world c2))|]|].
  - by apply (sys_resume wf true (mkConf (world c2) (row c2) None (log c2))).
  - apply (iter_reachable true true 20). by left.
Qed.
