(* ===== verification/Modules.v ===== *)
(** * The module registry of the management plane

    internal/management: registration, dependency order and initialization of
    the service modules (module_registry.go, module.go), the registered modules
    themselves (modules_core.go, modules_optional.go) and the feature flags
    (feature_flags.go). The theorems say that the sort finds a dependency order
    whenever there is one, which modules come up for each configuration, and
    that the services which the factories ask each other for are not found. *)
From Stdlib Require Import Ascii.
From S2P Require Import Prelude GoStrings Vrn.

(** ** Configuration and flags *)

(** [ModulesConfig]: the flags that are not [nil], by the name of their field. *)
Abbreviation ModulesConfig := (gmap string bool).

Definition isEnabled (flag : option bool) : bool :=
  match flag with None => true | Some b => b end.

(** The flags set at run time. *)
Abbreviation FeatureFlags := (gmap string bool).

Definition Set_ (ff : FeatureFlags) (name : string) (enabled : bool) : FeatureFlags :=
  <[name := enabled]> ff.

Definition IsEnabled (ff : FeatureFlags) (name : string) : bool :=
  match ff !! name with None => true | Some b => b end.

(** The field that a flag sets. *)
Definition flag_fields : list (string * string) :=
  [("event", "EnableEvent"); ("quota", "EnableQuota"); ("config", "EnableConfig");
   ("domain", "EnableDomain"); ("tools", "EnableTools"); ("usage", "EnableUsage");
   ("vpn", "EnableVPN"); ("backup", "EnableBackup"); ("autoscale", "EnableAutoScale");
   ("storage", "EnableStorage"); ("task", "EnableTask"); ("tag", "EnableTag");
   ("notification", "EnableNotify"); ("image", "EnableImage"); ("apidocs", "EnableAPIDocs");
   ("dns", "EnableDNS"); ("objectstorage", "EnableObjStorage"); ("orchestration", "EnableOrch");
   ("ha", "EnableHA"); ("kms", "EnableKMS"); ("ratelimit", "EnableRateLimit");
   ("encryption", "EnableEncryption"); ("caas", "EnableCaaS"); ("audit", "EnableAudit");
   ("dr", "EnableDR"); ("baremetal", "EnableBareMetal"); ("catalog", "EnableCatalog");
   ("selfheal", "EnableSelfHeal"); ("registry", "EnableRegistry");
   ("configcenter", "EnableConfigCtr"); ("eventbus", "EnableEventBus"); ("redis", "EnableRedis");
   ("natgateway", "EnableNATGW"); ("abac", "EnableABAC"); ("tidb", "EnableTiDB");
   ("elasticsearch", "EnableES"); ("invoice", "EnableInvoice");
   ("stackdrift", "EnableStackDrift"); ("gpuscheduler", "EnableGPU")].

(** The fields of [ModulesConfig]. *)
Definition config_fields : list string :=
  ["EnableEvent"; "EnableQuota"; "EnableConfig"; "EnableDomain"; "EnableTools"; "EnableUsage";
   "EnableVPN"; "EnableBackup"; "EnableAutoScale"; "EnableStorage"; "EnableTask"; "EnableTag";
   "EnableNotify"; "EnableImage"; "EnableAPIDocs"; "EnableDNS"; "EnableObjStorage";
   "EnableOrch"; "EnableHA"; "EnableKMS"; "EnableRateLimit"; "EnableEncryption"; "EnableCaaS";
   "EnableAudit"; "EnableDR"; "EnableBareMetal"; "EnableCatalog"; "EnableSelfHeal";
   "EnableRegistry"; "EnableConfigCtr"; "EnableEventBus"; "EnableHPC"; "EnableRedis";
   "EnableNATGW"; "EnableABAC"; "EnableTiDB"; "EnableES"; "EnableInvoice"; "EnableStackDrift";
   "EnableGPU"].

(** Each flag with a field sets it; two flags never set the same one, so the
    order in which the flags are visited is of no account. *)
Definition ApplyToModulesConfig (ff : FeatureFlags) (mc : ModulesConfig) : ModulesConfig :=
  map_fold (λ name enabled mc,
    match map_get flag_fields name with
    | Some field => <[field := enabled]> mc
    | None => mc
    end) mc ff.

(** ** Modules and factories *)

(** A module: an adapter around a service, or a module that gives access to its
    service itself. *)
Inductive Module_ := moduleAdapter (name : string) | provider (name : string).

Definition module_Name (m : Module_) : string :=
  match m with moduleAdapter n | provider n => n end.

Definition WrapModule (name : string) : Module_ := moduleAdapter name.

(** What the registry hands out for a module: the service, or the adapter, whose
    only methods are those of [Module]. *)
Inductive instance := AnAdapter (name : string) | AService (name : string).

Definition RegisterModule (instances : gmap string instance) (m : Module_)
    : gmap string instance :=
  <[module_Name m := match m with
                     | provider n => AService n
                     | moduleAdapter n => AnAdapter n
                     end]> instances.

(** [mctx.GetModule(name)] is [nil] or what was registered; with a type assertion
    to an interface of the service, [mctx.GetModule(name).(T)], an adapter is
    refused. *)
Definition GetModule (instances : gmap string instance) (name : string) : option instance :=
  instances !! name.

Definition GetModule_as (instances : gmap string instance) (name : string) : option instance :=
  match instances !! name with Some (AService n) => Some (AService n) | _ => None end.

(** The state of the initialization: the instances, for each module what its factory
    asked for, found and handed to the new service, and the modules whose adapter
    has a service, the others having [nil]. *)
Record Init := mkInit {
  instances : gmap string instance;
  injected : gmap string (list (string * instance));
  services : gset string
}.

Record ModuleDescriptor := mkModule {
  Name : string;
  Core : bool;
  DependsOn : list string;
  EnabledFn : option (ModulesConfig → bool);
  Factory : Init → result string Init
}.

(** The factories. [new_service] tells whether [NewService] of a module gives a
    service: a core factory passes the error on, an optional one drops it and
    registers an adapter around [nil]. The services that an optional factory hands
    something to are created without failing. *)
Section factories.
Variable new_service : string → bool.

(** The common part: the instances [gets] found are handed over, those [asserts]
    found if they have the type, and the module is registered. *)
Definition assemble (name : string) (created : bool) (asserts gets : list string) (st : Init) : Init :=
  let found get := omap (λ u, (λ i, (u, i)) <$> get (instances st) u) in
  mkInit (RegisterModule (instances st) (WrapModule name))
    (<[name := found GetModule_as asserts ++ found GetModule gets]> (injected st))
    (if created then {[ name ]} ∪ services st else services st).

Definition core (name : string) (deps asserts : list string) : ModuleDescriptor :=
  mkModule name true deps None (λ st,
    if new_service name then Ok (assemble name true asserts [] st)
    else Err ("new service: " +:+ name)).

Definition optional (name field : string) (created : bool) (deps gets : list string) : ModuleDescriptor :=
  mkModule name false deps (Some (λ mc, isEnabled (mc !! field)))
    (λ st, Ok (assemble name created [] gets st)).

Definition RegisterCoreModules_1 : list ModuleDescriptor :=
  [core "identity" [] [];
   core "image" ["storage"] ["storage"];
   core "storage" [] [];
   core "network" ["identity"] [];
   core "host" [] [];
   core "scheduler" ["host"] ["host"]].

Definition RegisterCoreModules_2 : list ModuleDescriptor :=
  [core "monitoring" [] [];
   core "metadata" [] [];
   core "event" [] [];
   core "quota" ["identity"] [];
   core "compute" ["network"; "event"; "quota"; "image"; "storage"]
     ["quota"; "event"; "network"; "host"];
   core "gateway" ["compute"; "identity"] []].

Definition RegisterCoreModules : list ModuleDescriptor :=
  RegisterCoreModules_1 ++ RegisterCoreModules_2.

Definition RegisterOptionalModules : list ModuleDescriptor :=
  [optional "audit" "EnableAudit" (new_service "audit") [] [];
   optional "backup" "EnableBackup" true ["storage"] ["storage"];
   optional "usage" "EnableUsage" true ["event"] ["event"];
   optional "invoice" "EnableInvoice" true ["usage"] ["usage"];
   optional "selfheal" "EnableSelfHeal" true ["compute"; "notification"] ["compute"; "notification"];
   optional "autoscale" "EnableAutoScale" (new_service "autoscale") ["compute"; "monitoring"] [];
   optional "kms" "EnableKMS" (new_service "kms") [] [];
   optional "vpn" "EnableVPN" (new_service "vpn") [] [];
   optional "notification" "EnableNotify" (new_service "notification") [] []].

Definition descriptors : list ModuleDescriptor := RegisterCoreModules ++ RegisterOptionalModules.
End factories.

(** ** Dependency order *)

Section sort.
Variable ds : list ModuleDescriptor.

(** [byName]: the last descriptor of a name. *)
Definition byName (name : string) : option ModuleDescriptor :=
  rev (filter (λ d, Name d = name) ds) !! 0.

(** [inDegree] and [dependents] after the first loop. *)
Definition inDegree : gmap string Z :=
  fold_left (λ m d,
    <[Name d := (default 0 (m !! Name d) + Z.of_nat (length (DependsOn d)))%Z]> m) ds ∅.

Definition dependents (dep : string) : list string :=
  concat ((λ d, (λ _, Name d) <$> filter (λ x, x = dep) (DependsOn d)) <$> ds).

(** The loop over the dependents of a module. *)
Definition release (st : gmap string Z * list string) (dependent : string)
    : gmap string Z * list string :=
  let '(deg, queue) := st in
  let k := (default 0 (deg !! dependent) - 1)%Z in
  let deg := <[dependent := k]> deg in
  if (k =? 0)%Z then (deg, Strings (queue ++ [dependent])) else (deg, queue).

(** The main loop; it takes a module off the queue in every turn. *)
Fixpoint kahn (fuel : nat) (deg : gmap string Z) (queue : list string) (result : list string)
    : list string :=
  match fuel, queue with
  | S fuel, name :: queue =>
      let '(deg, queue) := fold_left release (dependents name) (deg, queue) in
      kahn fuel deg queue (result ++ [name])
  | _, _ => result
  end.

Definition initial_queue : list string :=
  Strings ((filter (λ kv, kv.2 = 0%Z) (map_to_list inDegree)).*1).

Definition topologicalSort : result string (list ModuleDescriptor) :=
  let result := omap byName (kahn (S (length ds)) inDegree initial_queue []) in
  if decide (length result = length ds) then Ok result
  else Err "circular dependency detected among modules".
End sort.

(** ** Initialization *)

(** The format verb %q on a name without special characters. *)
Definition quoted (s : string) : string :=
  String "034"%char (s +:+ String "034"%char EmptyString).

(** The loop of [InitializeAll] over the ordered modules. *)
Fixpoint initialize (mc : ModulesConfig) (ordered : list ModuleDescriptor)
    (initialized : gset string) (st : Init) : result string (gset string * Init) :=
  match ordered with
  | [] => Ok (initialized, st)
  | desc :: ordered =>
      let disabled :=
        match EnabledFn desc with
        | Some enabled => negb (Core desc) && negb (enabled mc)
        | None => false
        end in
      if disabled then initialize mc ordered initialized st
      else if negb (forallb (λ dep, bool_decide (dep ∈ initialized)) (DependsOn desc)) then
        if Core desc then Err ("core module " +:+ quoted (Name desc) +:+ " has unmet dependency")
        else initialize mc ordered initialized st
      else
        match Factory desc st with
        | Err e =>
            if Core desc then Err ("core module " +:+ quoted (Name desc) +:+ " failed: " +:+ e)
            else initialize mc ordered initialized st
        | Ok st => initialize mc ordered ({[ Name desc ]} ∪ initialized) st
        end
  end.

Definition InitializeAll (ds : list ModuleDescriptor) (mc : ModulesConfig)
    : result string (gset string * Init) :=
  match topologicalSort ds with
  | Err e => Err ("module dependency error: " +:+ e)
  | Ok ordered => initialize mc ordered ∅ (mkInit ∅ ∅ ∅)
  end.

(** ** Correctness of the sort *)

(** Every dependency of a module comes before it. *)
Definition deps_before (l : list ModuleDescriptor) : Prop :=
  ∀ l1 d l2, l = l1 ++ d :: l2 → ∀ dep, dep ∈ DependsOn d → dep ∈ Name <$> l1.

Section kahn.
Variable ds : list ModuleDescriptor.
Hypothesis Hnd : NoDup (Name <$> ds).

(** How often [x] occurs in a list. *)
Definition occ (x : string) (l : list string) : nat := length (filter (λ y, y = x) l).

Lemma occ_cons x y l : occ x (y :: l) = (if decide (y = x) then 1 else 0) + occ x l.
Proof. unfold occ. rewrite filter_cons. by case_decide. Qed.

Lemma occ_app x l l' : occ x (l ++ l') = occ x l + occ x l'.
Proof. unfold occ. by rewrite list.filter_app, length_app. Qed.

Lemma occ_zero x l : occ x l = 0 ↔ x ∉ l.
Proof.
  induction l as [|y l IH]; [by split; [set_solver|]|]. rewrite occ_cons, not_elem_of_cons, <-IH.
  case_decide; naive_solver lia.
Qed.

Lemma occ_const {A} x m (l : list A) :
  occ x ((λ _, m) <$> l) = if decide (m = x) then length l else 0.
Proof.
  induction l as [|y l IH]; [by case_decide|]. rewrite fmap_cons, occ_cons, IH.
  by case_decide.
Qed.

Lemma occ_released x dep l :
  x ∉ Name <$> l →
  occ x (concat ((λ d, (λ _, Name d) <$> filter (λ y, y = dep) (DependsOn d)) <$> l)) = 0.
Proof.
  induction l as [|d l IH]; [done|]. rewrite fmap_cons, not_elem_of_cons. intros [Hx Hl].
  rewrite fmap_cons. cbn [concat]. rewrite occ_app, occ_const, decide_False by congruence.
  by rewrite IH.
Qed.

(** A module is released once for each time it names the dependency. *)
Lemma occ_dependents d dep :
  d ∈ ds → occ (Name d) (dependents ds dep) = occ dep (DependsOn d).
Proof.
  unfold dependents. induction ds as [|d' l IH]; intros Hd; [by apply elem_of_nil in Hd|].
  rewrite fmap_cons in *. apply list.NoDup_cons in Hnd as [Hn Hnd'].
  cbn [concat]. rewrite occ_app, occ_const.
  apply elem_of_cons in Hd as [->|Hd].
  - rewrite decide_True, occ_released by done. unfold occ. lia.
  - rewrite decide_False; [by apply IH|]. intros E. apply Hn. rewrite E.
    by apply list_elem_of_fmap_2.
Qed.

(** ** The state of the algorithm *)

(** The dependencies of [d], with repetitions, that are not yet in [done]. *)
Definition pending (done : list string) (d : ModuleDescriptor) : nat :=
  length (filter (λ dep, dep ∉ done) (DependsOn d)).

Lemma pending_nil d : pending [] d = length (DependsOn d).
Proof.
  unfold pending. induction (DependsOn d) as [|x l IH]; [done|].
  rewrite filter_cons, decide_True by apply not_elem_of_nil. cbn [length]. by f_equal.
Qed.

Lemma pending_snoc done name d :
  name ∉ done → pending (done ++ [name]) d + occ name (DependsOn d) = pending done d.
Proof.
  intros Hn. unfold pending. induction (DependsOn d) as [|x l IH]; [done|].
  rewrite occ_cons, !filter_cons.
  destruct (decide (x = name)) as [->|Hx].
  - rewrite decide_False by set_solver. rewrite !decide_True by done. cbn [length]. lia.
  - destruct (decide (x ∈ done)).
    + rewrite !decide_False by set_solver. lia.
    + rewrite !decide_True by set_solver. cbn [length]. lia.
Qed.

Lemma pending_zero done d : pending done d = 0 ↔ ∀ dep, dep ∈ DependsOn d → dep ∈ done.
Proof.
  unfold pending. induction (DependsOn d) as [|x l IH].
  { split; [|done]. intros _ dep H. by apply elem_of_nil in H. }
  rewrite filter_cons. destruct (decide (x ∈ done)) as [Hx|Hx].
  - rewrite decide_False by tauto. rewrite IH. setoid_rewrite elem_of_cons. naive_solver.
  - rewrite decide_True by done. split; [done|]. intros H. destruct Hx. apply H. by left.
Qed.

(** The degrees and the queue while modules [done] have been taken off. *)
Definition kahn_inv (deg : gmap string Z) (queue done : list string) : Prop :=
  NoDup (done ++ queue) ∧
  (∀ n, n ∈ done ++ queue → n ∈ Name <$> ds) ∧
  (∀ d, d ∈ ds → deg !! Name d = Some (Z.of_nat (pending done d))) ∧
  (∀ d, d ∈ ds → pending done d = 0 ↔ Name d ∈ done ++ queue).

(** Amid the loop over the dependents, of which those in [l] are left. *)
Definition release_inv (deg : gmap string Z) (queue done l : list string) : Prop :=
  NoDup (done ++ queue) ∧
  (∀ n, n ∈ done ++ queue → n ∈ Name <$> ds) ∧
  (∀ d, d ∈ ds → deg !! Name d = Some (Z.of_nat (pending done d + occ (Name d) l))) ∧
  (∀ d, d ∈ ds → pending done d + occ (Name d) l = 0 ↔ Name d ∈ done ++ queue).

Lemma Name_inj d d' : d ∈ ds → d' ∈ ds → Name d' = Name d → d' = d.
Proof.
  intros Hd Hd' E. apply list_elem_of_lookup in Hd' as [i Hi], Hd as [j Hj].
  assert (i = j) as ->.
  { eapply (NoDup_lookup (Name <$> ds)); [done|rewrite list_lookup_fmap, Hi; simpl; done|].
    rewrite list_lookup_fmap, Hj. simpl. by f_equal. }
  naive_solver.
Qed.

Lemma release_step deg queue done x l :
  (∃ d, d ∈ ds ∧ Name d = x) → release_inv deg queue done (x :: l) →
  let '(deg', queue') := release (deg, queue) x in release_inv deg' queue' done l.
Proof.
  intros (d&Hd&<-) (Hn&Hin&Hdeg&Hz). unfold release. rewrite (Hdeg d Hd). cbn [from_option id].
  rewrite occ_cons, decide_True by done.
  replace (Z.of_nat (pending done d + (1 + occ (Name d) l)) - 1)%Z
    with (Z.of_nat (pending done d + occ (Name d) l)) by lia.
  set (k := pending done d + occ (Name d) l).
  assert (Name d ∉ done ++ queue) as Hnot.
  { rewrite <-(Hz d Hd), occ_cons, decide_True by done. lia. }
  assert (∀ d', d' ∈ ds → <[Name d:=Z.of_nat k]> deg !! Name d' =
    Some (Z.of_nat (pending done d' + occ (Name d') l))) as Hdeg'.
  { intros d' Hd'. destruct (decide (Name d = Name d')) as [E|E].
    - rewrite E, lookup_insert_eq. by rewrite (Name_inj d d' Hd Hd').
    - rewrite lookup_insert_ne, (Hdeg d' Hd'), occ_cons, decide_False by done. done. }
  assert (∀ d', d' ∈ ds → Name d' ≠ Name d →
    (pending done d' + occ (Name d') l = 0 ↔ Name d' ∈ done ++ queue)) as Hz'.
  { intros d' Hd' Hne. rewrite <-(Hz d' Hd'), occ_cons, decide_False by done. done. }
  destruct (Z.eqb_spec (Z.of_nat k) 0) as [Ek|Ek].
  - assert (done ++ Strings (queue ++ [Name d]) ≡ₚ Name d :: (done ++ queue)) as HP
      by (rewrite Strings_perm; solve_Permutation).
    split_and!; [..|done|].
    + rewrite HP. by apply list.NoDup_cons.
    + intros n. rewrite HP. rewrite elem_of_cons. intros [->|Hi]; [|by apply Hin].
      by apply list_elem_of_fmap_2.
    + intros d' Hd'. rewrite HP, elem_of_cons.
      destruct (decide (Name d' = Name d)) as [E|E]; [|rewrite (Hz' d' Hd' E); naive_solver].
      rewrite (Name_inj d d' Hd Hd' E). fold k. split; [by left|lia].
  - split_and!; [done..|]. intros d' Hd'.
    destruct (decide (Name d' = Name d)) as [E|E]; [|by apply Hz'].
    rewrite (Name_inj d d' Hd Hd' E). fold k. split; [lia|done].
Qed.

Lemma release_fold l deg queue done :
  (∀ x, x ∈ l → ∃ d, d ∈ ds ∧ Name d = x) → release_inv deg queue done l →
  let '(deg', queue') := fold_left release l (deg, queue) in kahn_inv deg' queue' done.
Proof.
  revert deg queue; induction l as [|x l IH]; intros deg queue Hl H; cbn [fold_left].
  - destruct H as (Hn&Hin&Hdeg&Hz). split_and!; [done..| |].
    + intros d Hd. rewrite (Hdeg d Hd). by rewrite Nat.add_0_r.
    + intros d Hd. by rewrite <-(Hz d Hd), Nat.add_0_r.
  - pose proof (release_step deg queue done x l (Hl x ltac:(by left)) H) as Hs.
    destruct (release (deg, queue) x) as [deg' queue'].
    apply IH; [|done]. intros y Hy. apply Hl. by right.
Qed.

Lemma dependents_names dep x : x ∈ dependents ds dep → ∃ d, d ∈ ds ∧ Name d = x.
Proof.
  unfold dependents. rewrite elem_of_concat. intros (l&Hl&Hx).
  apply list_elem_of_fmap in Hl as (d&->&Hd). apply list_elem_of_fmap in Hx as (y&->&_). eauto.
Qed.

Lemma kahn_step deg name queue done :
  kahn_inv deg (name :: queue) done →
  let '(deg', queue') := fold_left release (dependents ds name) (deg, queue) in
  kahn_inv deg' queue' (done ++ [name]).
Proof.
  intros (Hn&Hin&Hdeg&Hz). apply release_fold; [apply dependents_names|].
  assert (name ∉ done) as Hname.
  { apply list.NoDup_app in Hn as (_&Hd&_). intros Hx. apply (Hd name Hx). by left. }
  assert (∀ d, d ∈ ds → pending (done ++ [name]) d + occ (Name d) (dependents ds name)
    = pending done d) as Hp.
  { intros d Hd. by rewrite occ_dependents, pending_snoc. }
  assert ((done ++ [name]) ++ queue = done ++ name :: queue) as Ha by by rewrite <-app_assoc.
  unfold release_inv. rewrite Ha. split_and!; [done..| |].
  - intros d Hd. rewrite Hp by done. by apply Hdeg.
  - intros d Hd. rewrite Hp by done. by apply Hz.
Qed.

(** The names taken off come after their dependencies. *)
Definition names_ordered (done : list string) : Prop :=
  ∀ l1 d l2, done = l1 ++ Name d :: l2 → d ∈ ds → ∀ dep, dep ∈ DependsOn d → dep ∈ l1.

Lemma names_ordered_snoc done name :
  names_ordered done → (∀ d, d ∈ ds → Name d = name → ∀ dep, dep ∈ DependsOn d → dep ∈ done) →
  names_ordered (done ++ [name]).
Proof.
  intros Ho Hd l1 d l2 E. destruct l2 as [|y l2 _] using rev_ind.
  - apply app_inj_tail in E as [<- E]. intros Hin. by apply (Hd d).
  - rewrite app_comm_cons, (assoc_L (++)) in E. apply app_inj_tail in E as [-> _].
    by apply (Ho l1 d l2).
Qed.

Lemma kahn_spec fuel deg queue done :
  kahn_inv deg queue done → names_ordered done → length ds < fuel + length done →
  let R := kahn ds fuel deg queue done in
  (∃ deg', kahn_inv deg' [] R) ∧ names_ordered R.
Proof.
  revert deg queue done; induction fuel as [|fuel IH]; intros deg queue done Hi Ho Hf.
  - exfalso. destruct Hi as (Hn&Hin&_).
    assert (length (done ++ queue) ≤ length (Name <$> ds)) as Hl
      by (apply NoDup_incl_length; [by apply NoDup_ListNoDup|]; intros n Hx;
          apply list_elem_of_In, Hin; by apply list_elem_of_In).
    rewrite length_app, length_fmap in Hl. simpl in Hf. lia.
  - destruct queue as [|name queue]; [by split; [exists deg|]|]. cbn [kahn].
    pose proof (kahn_step deg name queue done Hi) as Hs.
    destruct (fold_left release _ _) as [deg' queue']. apply IH; [done| |].
    + apply names_ordered_snoc; [done|]. intros d Hd <-. destruct Hi as (_&_&_&Hz).
      apply pending_zero, Hz; [done|]. apply elem_of_app. right. by left.
    + rewrite length_app. simpl. lia.
Qed.

Lemma inDegree_fold l (m : gmap string Z) :
  NoDup (Name <$> l) → (∀ d, d ∈ l → m !! Name d = None) →
  let m' := fold_left (λ m d,
    <[Name d := (default 0 (m !! Name d) + Z.of_nat (length (DependsOn d)))%Z]> m) l m in
  (∀ d, d ∈ l → m' !! Name d = Some (Z.of_nat (length (DependsOn d)))) ∧
  (∀ n, n ∉ Name <$> l → m' !! n = m !! n).
Proof.
  revert m; induction l as [|d l IH]; intros m Hn Hm; cbn [fold_left].
  { split; [|done]. intros d Hd. by apply elem_of_nil in Hd. }
  rewrite fmap_cons in Hn. apply list.NoDup_cons in Hn as [Hd Hn].
  rewrite (Hm d) by (by left). cbn [from_option id]. rewrite Z.add_0_l.
  destruct (IH (<[Name d:=Z.of_nat (length (DependsOn d))]> m) Hn) as [H1 H2].
  { intros d' Hd'. rewrite lookup_insert_ne; [apply Hm; by right|].
    intros E. apply Hd. rewrite E. by apply list_elem_of_fmap_2. }
  split.
  - intros d' [->|Hd']%elem_of_cons; [|by apply H1]. rewrite H2 by done.
    apply lookup_insert_eq.
  - intros n. rewrite fmap_cons, not_elem_of_cons. intros [Hne Hn']. rewrite H2 by done.
    by apply lookup_insert_ne.
Qed.

Lemma inDegree_lookup :
  (∀ d, d ∈ ds → inDegree ds !! Name d = Some (Z.of_nat (length (DependsOn d)))) ∧
  (∀ n, n ∉ Name <$> ds → inDegree ds !! n = None).
Proof.
  destruct (inDegree_fold ds ∅ Hnd) as [H1 H2]; [done|]. split; [exact H1|].
  intros n Hn. unfold inDegree. rewrite (H2 n Hn). apply lookup_empty.
Qed.

Lemma elem_of_initial_queue n : n ∈ initial_queue ds ↔ inDegree ds !! n = Some 0%Z.
Proof.
  unfold initial_queue. rewrite Strings_perm, list_elem_of_fmap. split.
  - intros ((k&v)&->&[Hv Hk]%list_elem_of_filter). simpl in *. subst v.
    by apply elem_of_map_to_list.
  - intros H. exists (n, 0%Z). split; [done|]. apply list_elem_of_filter. split; [done|].
    by apply elem_of_map_to_list.
Qed.

Lemma initial_queue_NoDup : NoDup (initial_queue ds).
Proof.
  unfold initial_queue. rewrite Strings_perm.
  pose proof (NoDup_fst_map_to_list (inDegree ds)) as Hn.
  induction (map_to_list (inDegree ds)) as [|[k v] l IH]; [constructor|].
  rewrite fmap_cons in Hn. apply list.NoDup_cons in Hn as [Hk Hn].
  rewrite filter_cons. case_decide; [|by apply IH]. rewrite fmap_cons.
  apply list.NoDup_cons. split; [|by apply IH]. intros Hin. apply Hk.
  apply list_elem_of_fmap in Hin as (x&->&Hx). apply list_elem_of_filter in Hx as [_ Hx].
  by apply list_elem_of_fmap_2.
Qed.

Lemma kahn_inv_initial : kahn_inv (inDegree ds) (initial_queue ds) [].
Proof.
  destruct inDegree_lookup as [H1 H2]. unfold kahn_inv. cbn [app]. split_and!.
  - apply initial_queue_NoDup.
  - intros n Hn%elem_of_initial_queue. destruct (decide (n ∈ Name <$> ds)) as [|Hx]; [done|].
    by rewrite (H2 n Hx) in Hn.
  - intros d Hd. by rewrite (H1 d Hd), pending_nil.
  - intros d Hd. rewrite elem_of_initial_queue, (H1 d Hd), pending_nil.
    split; [by intros ->|]. intros [= E]. lia.
Qed.

Lemma byName_spec d : d ∈ ds → byName ds (Name d) = Some d.
Proof.
  intros Hd. unfold byName.
  assert (∀ d', d' ∈ rev (filter (λ d', Name d' = Name d) ds) → d' = d) as Hu.
  { intros d' [E Hd']%list_elem_of_In%in_rev%list_elem_of_In%list_elem_of_filter.
    by apply Name_inj. }
  assert (d ∈ rev (filter (λ d', Name d' = Name d) ds)) as Hin
    by (apply list_elem_of_In, in_rev; rewrite rev_involutive;
        by apply list_elem_of_In, list_elem_of_filter).
  destruct (rev _) as [|d' l]; [by apply elem_of_nil in Hin|]. simpl. f_equal.
  apply Hu. by left.
Qed.

Lemma byName_names (l : list string) :
  (∀ n, n ∈ l → n ∈ Name <$> ds) →
  Name <$> omap (byName ds) l = l ∧ (∀ d, d ∈ omap (byName ds) l → d ∈ ds).
Proof.
  induction l as [|n l IH]; intros Hl.
  { split; [done|]. intros d Hd. by apply elem_of_nil in Hd. }
  destruct IH as [IH1 IH2]; [intros; apply Hl; by right|].
  destruct (proj1 (list_elem_of_fmap Name ds n)) as (d&->&Hd); [apply Hl; by left|].
  cbn [omap list_omap]. rewrite (byName_spec d Hd). split.
  - rewrite fmap_cons. by f_equal.
  - intros d' [->|Hd']%elem_of_cons; [done|by apply IH2].
Qed.

Lemma names_ordered_deps r :
  (∀ d, d ∈ r → d ∈ ds) → names_ordered (Name <$> r) → deps_before r.
Proof.
  intros Hr Ho l1 d l2 -> dep Hdep. eapply (Ho (Name <$> l1) d (Name <$> l2)); [|..|done].
  - by rewrite fmap_app, fmap_cons.
  - apply Hr, elem_of_app. right. by left.
Qed.

Lemma NoDup_names_perm r :
  NoDup (Name <$> r) → (∀ d, d ∈ r → d ∈ ds) → length r = length ds → r ≡ₚ ds.
Proof.
  intros Hn Hr Hl. apply submseteq_length_Permutation; [|lia].
  apply NoDup_submseteq; [|done]. by apply NoDup_fmap_1 in Hn.
Qed.

(** A run that is stuck with an order at hand has taken every module. *)
Lemma kahn_complete deg R L :
  kahn_inv deg [] R → L ≡ₚ ds → deps_before L → ∀ d, d ∈ ds → Name d ∈ R.
Proof.
  intros (_&_&_&Hz) HL Ho.
  assert (∀ l1 l2, L = l1 ++ l2 → ∀ d, d ∈ l1 → Name d ∈ R) as Hall.
  { induction l1 as [|x l1 IH] using rev_ind; intros l2 E d Hd.
    { by apply elem_of_nil in Hd. }
    rewrite <-app_assoc in E. apply elem_of_app in Hd as [Hd| ->%list_elem_of_singleton].
    { by apply (IH _ E). }
    assert (x ∈ ds) as Hx by (rewrite <-HL, E; apply elem_of_app; right; by left).
    rewrite <-(app_nil_r R). apply (Hz x Hx), pending_zero. intros dep Hdep.
    destruct (proj1 (list_elem_of_fmap Name l1 dep)) as (d&->&Hd);
      [by apply (Ho l1 x l2)|]. by apply (IH _ E). }
  intros d Hd. apply (Hall L []); [by rewrite app_nil_r|]. by rewrite HL.
Qed.
End kahn.

Lemma topologicalSort_sound ds r :
  NoDup (Name <$> ds) → topologicalSort ds = Ok r → r ≡ₚ ds ∧ deps_before r.
Proof.
  intros Hnd. unfold topologicalSort.
  destruct (kahn_spec ds Hnd (S (length ds)) (inDegree ds) (initial_queue ds) [])
    as [[deg Hi] Ho]; [by apply kahn_inv_initial|by intros [|??] ???|simpl; lia|].
  set (R := kahn ds _ _ _ _) in *. clearbody R.
  destruct Hi as (Hn&Hin&_). rewrite app_nil_r in Hn, Hin.
  destruct (byName_names ds Hnd R Hin) as [Hr1 Hr2].
  case_decide as Hl; [|done]. intros [= <-]. split.
  - apply NoDup_names_perm; [by rewrite Hr1|done..].
  - apply (names_ordered_deps ds); [done|]. by rewrite Hr1.
Qed.

Lemma topologicalSort_complete ds L :
  NoDup (Name <$> ds) → L ≡ₚ ds → deps_before L → ∃ r, topologicalSort ds = Ok r.
Proof.
  intros Hnd HL Hd. unfold topologicalSort.
  destruct (kahn_spec ds Hnd (S (length ds)) (inDegree ds) (initial_queue ds) [])
    as [[deg Hi] _]; [by apply kahn_inv_initial|by intros [|??] ???|simpl; lia|].
  set (R := kahn ds _ _ _ _) in *. clearbody R.
  destruct (id Hi) as (Hn&Hin&_). rewrite app_nil_r in Hn, Hin.
  destruct (byName_names ds Hnd R Hin) as [Hr1 _].
  rewrite decide_True; [by eexists|].
  rewrite <-(length_fmap Name (omap _ _)), Hr1, <-(length_fmap Name ds).
  apply Nat.le_antisymm; apply NoDup_incl_length; try by apply NoDup_ListNoDup.
  - intros n Hx. apply list_elem_of_In, Hin. by apply list_elem_of_In.
  - intros n (d&->&Hx)%list_elem_of_In%list_elem_of_fmap. apply list_elem_of_In.
    by apply (kahn_complete ds deg R L).
Qed.

(** C24: [topologicalSort] of modules with distinct names is sound and complete: an
    order that it returns has every module once and each one after all that it depends
    on, and it returns one whenever such an order exists. *)
Theorem topologicalSort_correct ds :
  NoDup (Name <$> ds) →
  (∀ r, topologicalSort ds = Ok r → r ≡ₚ ds ∧ deps_before r) ∧
  (∀ L, L ≡ₚ ds → deps_before L → ∃ r, topologicalSort ds = Ok r).
Proof.
  intros Hnd. split.
  - intros r. by apply topologicalSort_sound.
  - intros L. by apply topologicalSort_complete.
Qed.

Lemma topologicalSort_correct_witness :
  let ds := RegisterCoreModules (λ _, true) in
  NoDup (Name <$> ds) ∧ ∀ r, topologicalSort ds = Ok r → r ≡ₚ ds ∧ deps_before r.
Proof.
  assert (NoDup (Name <$> RegisterCoreModules (λ _, true))) as Hnd
    by (apply (bool_decide_unpack _); vm_compute; exact I).
  split; [exact Hnd|]. exact (proj1 (topologicalSort_correct _ Hnd)).
Defined.

(** ** Initialization *)

(** A module is to be started: it is core, or its flag is on or not set. *)
Definition wanted (mc : ModulesConfig) (d : ModuleDescriptor) : bool :=
  match EnabledFn d with Some enabled => Core d || enabled mc | None => true end.

(** Which modules of [l] are up. *)
Definition up_spec (mc : ModulesConfig) (l : list ModuleDescriptor) (I : gset string) : Prop :=
  ∀ d, d ∈ l → Name d ∈ I ↔ wanted mc d ∧ ∀ dep, dep ∈ DependsOn d → dep ∈ I.

Section initialization.
Variable mc : ModulesConfig.
Variable all : list ModuleDescriptor.
Hypothesis Hnd : NoDup (Name <$> all).
Hypothesis Hdeps : deps_before all.
Hypothesis Hcore : ∀ d, d ∈ all → Core d → ∀ dep, dep ∈ DependsOn d →
  ∃ d', d' ∈ all ∧ Core d' ∧ Name d' = dep.
Hypothesis Hfactory : ∀ d, d ∈ all → ∀ st, ∃ st', Factory d st = Ok st'.

(** Starting or passing over the next module keeps [up_spec]. *)
Lemma up_spec_snoc before d after I I' :
  all = before ++ d :: after → up_spec mc before I → (∀ n, n ∈ I → n ∈ Name <$> before) →
  (∀ n, n ≠ Name d → n ∈ I' ↔ n ∈ I) →
  (Name d ∈ I' ↔ wanted mc d ∧ ∀ dep, dep ∈ DependsOn d → dep ∈ I) →
  up_spec mc (before ++ [d]) I' ∧ ∀ n, n ∈ I' → n ∈ Name <$> before ++ [d].
Proof.
  intros E Hup HI Hne Hd.
  assert (Name d ∉ Name <$> before) as Hfresh.
  { rewrite E, fmap_app, fmap_cons in Hnd. apply list.NoDup_app in Hnd as (_&Hx&_).
    intros Hin. eapply Hx; [exact Hin|]. by left. }
  assert (∀ l1 x l2, before ++ [d] = l1 ++ x :: l2 → ∀ dep, dep ∈ DependsOn x →
    dep ∈ Name <$> before) as Hdep.
  { intros l1 x l2 E' dep Hx. assert (all = l1 ++ x :: l2 ++ after) as E''.
    { rewrite E, (cons_middle d before after), app_assoc, E'. by rewrite <-app_assoc. }
    pose proof (Hdeps _ _ _ E'' dep Hx) as Hin. destruct l2 as [|y l2 _] using rev_ind.
    - by apply app_inj_tail in E' as [-> _].
    - rewrite app_comm_cons, app_assoc in E'. apply app_inj_tail in E' as [-> _].
      rewrite fmap_app. apply elem_of_app. by left. }
  split.
  - intros x Hx. assert (∀ dep, dep ∈ DependsOn x → dep ∈ I' ↔ dep ∈ I) as Hsame.
    { apply list_elem_of_split in Hx as (l1&l2&E'). intros dep Hx. apply Hne. intros ->.
      by apply Hfresh, (Hdep _ _ _ E'). }
    apply elem_of_app in Hx as [Hx| ->%list_elem_of_singleton].
    + rewrite Hne, (Hup x Hx); [naive_solver|]. intros Ex. apply Hfresh. rewrite <-Ex.
      by apply list_elem_of_fmap_2.
    + rewrite Hd. naive_solver.
  - intros n Hn. rewrite fmap_app. apply elem_of_app.
    destruct (decide (n = Name d)) as [->|Hx]; [right; by left|left; by apply HI, Hne].
Qed.

Lemma core_deps before d after (I : gset string) :
  all = before ++ d :: after → (∀ x, x ∈ before → Core x → Name x ∈ I) → Core d →
  ∀ dep, dep ∈ DependsOn d → dep ∈ I.
Proof.
  intros E HI Hd dep Hdep.
  destruct (Hcore d) with dep as (d'&Hd'&Hc&<-); [|done..|].
  { rewrite E. apply elem_of_app. right. by left. }
  destruct (proj1 (list_elem_of_fmap Name before (Name d'))) as (x&En&Hx).
  { by apply (Hdeps _ _ _ E). }
  rewrite En. apply HI; [done|]. rewrite <-(Name_inj all Hnd x d'); [done| |done|done].
  rewrite E. apply elem_of_app. by left.
Qed.

Lemma next_fresh before d after : all = before ++ d :: after → Name d ∉ Name <$> before.
Proof.
  intros E Hin. rewrite E, fmap_app, fmap_cons in Hnd.
  apply list.NoDup_app in Hnd as (_&Hf&_). eapply Hf; [exact Hin|by left].
Qed.

Lemma deps_met d (I : gset string) :
  forallb (λ dep, bool_decide (dep ∈ I)) (DependsOn d) = true ↔
  ∀ dep, dep ∈ DependsOn d → dep ∈ I.
Proof.
  rewrite forallb_elem. split; intros Hx dep Hin; specialize (Hx dep Hin);
    by apply bool_decide_eq_true in Hx || by apply bool_decide_eq_true.
Qed.

Lemma wanted_core d : Core d → wanted mc d.
Proof. unfold wanted. by destruct (EnabledFn d), (Core d). Qed.

Lemma initialize_spec before ordered I st :
  all = before ++ ordered → up_spec mc before I → (∀ n, n ∈ I → n ∈ Name <$> before) →
  (∀ x, x ∈ before → Core x → Name x ∈ I) →
  ∃ I' st', initialize mc ordered I st = Ok (I', st') ∧ up_spec mc all I' ∧
            ∀ x, x ∈ all → Core x → Name x ∈ I'.
Proof.
  revert before I st; induction ordered as [|d ordered IH]; intros before I st E Hup HI Hc.
  { rewrite app_nil_r in E. subst before. by exists I, st. }
  pose proof (next_fresh _ _ _ E) as Hfresh.
  assert (∀ I', (∀ n, n ≠ Name d → n ∈ I' ↔ n ∈ I) →
    (Name d ∈ I' ↔ wanted mc d ∧ ∀ dep, dep ∈ DependsOn d → dep ∈ I) → ∀ st',
    ∃ I'' st'', initialize mc ordered I' st' = Ok (I'', st'') ∧ up_spec mc all I'' ∧
                ∀ x, x ∈ all → Core x → Name x ∈ I'') as Hgo.
  { intros I' Hne Hd st'. destruct (up_spec_snoc before d ordered I I') as [H1 H2]; [done..|].
    apply (IH (before ++ [d])); [by rewrite <-app_assoc|done..|].
    intros x [Hx| ->%list_elem_of_singleton]%elem_of_app Cx.
    - apply Hne; [|by apply Hc]. intros Ex. apply Hfresh. rewrite <-Ex.
      by apply list_elem_of_fmap_2.
    - apply Hd. split; [by apply wanted_core|]. by apply (core_deps before d ordered). }
  cbn [initialize].
  destruct (match EnabledFn d with Some _ => _ | None => _ end) eqn:Hdis.
  { apply Hgo; [done|]. split; [by intros Hn%HI|]. intros [Hw _]. unfold wanted in Hw.
    destruct (EnabledFn d) as [f|]; [|done]. by destruct (Core d), (f mc). }
  assert (wanted mc d) as Hw
    by (unfold wanted; destruct (EnabledFn d) as [f|]; [by destruct (Core d), (f mc)|done]).
  pose proof (deps_met d I) as Hall. destruct (forallb _ _); cbn [negb].
  - destruct (Hfactory d) with st as [st' ->].
    { rewrite E. apply elem_of_app. right. by left. }
    apply Hgo; [set_solver|]. split; [|set_solver]. intros _. split; [done|by apply Hall].
  - destruct (Core d) eqn:Hcd.
    { assert (false = true); [|done]. apply Hall, (core_deps before d ordered I); by rewrite ?Hcd. }
    apply Hgo; [done|]. split; [by intros Hn%HI|]. by intros [_ Hx%Hall].
Qed.
End initialization.

(** An initialization that succeeds has started every core module. *)
Lemma initialize_core mc ordered I st I' st' :
  initialize mc ordered I st = Ok (I', st') →
  I ⊆ I' ∧ ∀ d, d ∈ ordered → Core d → Name d ∈ I' ∧ ∃ s s', Factory d s = Ok s'.
Proof.
  revert I st; induction ordered as [|d ordered IH]; intros I st; cbn [initialize].
  { intros [= <- <-]. split; [done|]. intros d Hd. by apply elem_of_nil in Hd. }
  assert (∀ I1 st1, initialize mc ordered I1 st1 = Ok (I', st') → I ⊆ I1 →
    (Core d → Name d ∈ I1 ∧ ∃ s s', Factory d s = Ok s') →
    I ⊆ I' ∧ ∀ x, x ∈ d :: ordered → Core x → Name x ∈ I' ∧ ∃ s s', Factory x s = Ok s')
    as Hgo.
  { intros I1 st1 [H1 H2]%IH Hs Hd. split; [set_solver|].
    intros x [->|Hx]%elem_of_cons Cx; [|by apply H2].
    destruct (Hd Cx) as [Hx Hf]. split; [set_solver|done]. }
  destruct (match EnabledFn d with Some _ => _ | None => _ end) eqn:Hdis.
  { intros H. apply (Hgo _ _ H); [done|]. intros Cd. destruct (EnabledFn d); [|done].
    by destruct (Core d). }
  destruct (forallb _ _); cbn [negb]; [destruct (Factory d st) as [st1|e] eqn:Hf|].
  - intros H. apply (Hgo _ _ H); [set_solver|]. intros _. split; [set_solver|by exists st, st1].
  - destruct (Core d); [done|]. intros H. by apply (Hgo _ _ H).
  - destruct (Core d); [done|]. intros H. by apply (Hgo _ _ H).
Qed.

(** ** The registered modules *)

Section registered.
Variable new_service : string → bool.
Variable mc : ModulesConfig.

Let ds := descriptors new_service.

Lemma registered_NoDup : NoDup (Name <$> ds).
Proof. apply (bool_decide_unpack _). vm_compute. exact I. Qed.

Lemma registered_sorts : ∃ r, topologicalSort ds = Ok r ∧ r ≡ₚ ds ∧ deps_before r.
Proof.
  assert (match topologicalSort ds with Ok _ => true | Err _ => false end = true) as H
    by (vm_compute; reflexivity).
  pose proof (topologicalSort_sound ds) as Hs.
  destruct (topologicalSort ds) as [r|e]; [|discriminate H].
  exists r. split; [reflexivity|]. exact (Hs r registered_NoDup eq_refl).
Qed.

(** The dependencies of core modules are core. *)
Lemma registered_core d :
  d ∈ ds → Core d → ∀ dep, dep ∈ DependsOn d → ∃ d', d' ∈ ds ∧ Core d' ∧ Name d' = dep.
Proof.
  assert (forallb (λ d, negb (Core d) || forallb (λ dep,
    existsb (λ d', Core d' && bool_decide (Name d' = dep)) ds) (DependsOn d)) ds = true) as H
    by (vm_compute; reflexivity).
  intros Hd Cd dep Hdep. rewrite forallb_elem in H. specialize (H d Hd).
  destruct (Core d); [|done]. cbn [negb orb] in H. rewrite forallb_elem in H.
  specialize (H dep Hdep). apply existsb_elem in H as (d'&Hd'&[Cd' Hn]%andb_true_iff).
  exists d'. split; [done|]. split; [by rewrite Cd'|by apply bool_decide_eq_true in Hn].
Qed.

Lemma registered_cases d :
  d ∈ ds →
  (d ∈ RegisterCoreModules new_service ∧ Core d ∧
     ∃ deps asserts, d = core new_service (Name d) deps asserts) ∨
  (Core d = false ∧ ∃ field created deps gets, d = optional (Name d) field created deps gets).
Proof.
  intros [Hd|Hd]%elem_of_app; [left; split; [done|]|right]; revert d Hd;
    apply list.Forall_forall; repeat constructor; by eauto.
Qed.

Lemma registered_factory d :
  (∀ c, c ∈ RegisterCoreModules new_service → new_service (Name c) = true) →
  d ∈ ds → ∀ st, ∃ st', Factory d st = Ok st'.
Proof.
  intros Hs Hd st. destruct (registered_cases d Hd) as [(Hc&_&deps&asserts&E)|(_&f&created&deps&gets&E)];
    rewrite E; simpl; [|by eexists].
  rewrite Hs by done. by eexists.
Qed.

Lemma InitializeAll_spec :
  (∀ c, c ∈ RegisterCoreModules new_service → new_service (Name c) = true) →
  ∃ I st, InitializeAll ds mc = Ok (I, st) ∧ up_spec mc ds I ∧ ∀ x, x ∈ ds → Core x → Name x ∈ I.
Proof.
  intros Hs. destruct registered_sorts as (r&Hr&Hp&Hd). unfold InitializeAll. rewrite Hr. clear Hr.
  destruct (initialize_spec mc r) with (@nil ModuleDescriptor) r (∅ : gset string)
    (mkInit ∅ ∅ ∅) as (I&st&HI&Hup&Hc); [..|exists I, st; split; [done|]].
  - rewrite Hp. apply registered_NoDup.
  - done.
  - intros d Hx Cd dep Hdep. rewrite Hp in Hx.
    destruct (registered_core d Hx Cd dep Hdep) as (d'&Hd'&?). exists d'. by rewrite Hp.
  - intros d Hx. apply registered_factory; [done|]. by rewrite <-Hp.
  - done.
  - intros d Hx. by apply elem_of_nil in Hx.
  - set_solver.
  - intros x Hx. by apply elem_of_nil in Hx.
  - split; [intros d Hx; apply Hup|intros d Hx; apply Hc]; by rewrite Hp.
Qed.


Lemma core_Core c : c ∈ RegisterCoreModules new_service → Core c.
Proof. revert c. apply list.Forall_forall. repeat constructor. Qed.

End registered.

(** Membership in a list that is written out. *)
Ltac listed := repeat first [left; reflexivity | right].









(** The instances are adapters, and the core modules that are up were given nothing. *)
Definition only_adapters (cores : list string) (I : gset string) (st : Init) : Prop :=
  (∀ n i, instances st !! n = Some i → ∃ n', i = AnAdapter n') ∧
  (∀ n, n ∈ cores → n ∈ I → injected st !! n = Some []).

Lemma GetModule_as_adapter cores I st n :
  only_adapters cores I st → GetModule_as (instances st) n = None.
Proof.
  intros [H _]. unfold GetModule_as. destruct (instances st !! n) as [i|] eqn:E; [|done].
  by destruct (H n i E) as [n' ->].
Qed.

Lemma assemble_adapters cores (I : gset string) st name created asserts gets :
  only_adapters cores I st → (name ∈ cores → gets = []) →
  only_adapters cores ({[ name ]} ∪ I) (assemble name created asserts gets st).
Proof.
  intros Ha Hg. split.
  - intros n i. unfold assemble, RegisterModule, WrapModule. simpl.
    rewrite lookup_insert_Some. intros [[<- <-]|[_ H]]; [by eexists|by apply Ha in H].
  - intros n Hn. unfold assemble. cbn [injected]. destruct (decide (n = name)) as [->|Hne].
    + intros _. rewrite lookup_insert_eq, (Hg Hn). f_equal. cbn [app omap list_omap].
      rewrite app_nil_r. induction asserts as [|u l IH]; [done|]. cbn [omap list_omap].
      by rewrite (GetModule_as_adapter _ _ _ u Ha).
    + intros Hi. rewrite lookup_insert_ne by done. apply Ha; [done|set_solver].
Qed.

Lemma registered_assemble new_service d st st' :
  d ∈ descriptors new_service → Factory d st = Ok st' →
  ∃ created asserts gets, st' = assemble (Name d) created asserts gets st ∧
    (Name d ∈ Name <$> RegisterCoreModules (λ _, true) → gets = []).
Proof.
  intros Hd. destruct (registered_cases new_service d Hd)
    as [(_&_&deps&asserts&E)|(Cd&field&created&deps&gets&E)]; intros H.
  - exists true, asserts, []. split; [|done]. rewrite E in H. cbn in H.
    destruct (new_service (Name d)); [|done]. by injection H as <-.
  - exists created, [], gets. split; [rewrite E in H; by injection H as <-|]. intros Hn.
    change (Name d ∈ Name <$> RegisterCoreModules new_service) in Hn.
    apply list_elem_of_fmap in Hn as (c&Ec&Hc).
    assert (d = c) as ->.
    { apply (Name_inj (descriptors new_service)); [apply registered_NoDup| |done|done].
      apply elem_of_app. by left. }
    apply core_Core in Hc. by rewrite Cd in Hc.
Qed.

Lemma initialize_adapters new_service cores mc ordered I st I' st' :
  cores = Name <$> RegisterCoreModules (λ _, true) →
  (∀ d, d ∈ ordered → d ∈ descriptors new_service) →
  only_adapters cores I st → initialize mc ordered I st = Ok (I', st') →
  only_adapters cores I' st'.
Proof.
  intros Ec. revert I st; induction ordered as [|d ordered IH]; intros I st Hd Ha; cbn [initialize].
  { by intros [= <- <-]. }
  assert (∀ x, x ∈ ordered → x ∈ descriptors new_service) as Hd' by (intros; apply Hd; by right).
  destruct (match EnabledFn d with Some _ => _ | None => _ end); [by apply IH|].
  destruct (forallb _ _); cbn [negb]; [destruct (Factory d st) as [st1|e] eqn:Hf|].
  - apply IH; [done|].
    destruct (registered_assemble new_service d st st1) as (created&asserts&gets&->&Hg);
      [apply Hd; by left|done|]. apply assemble_adapters; [done|]. by rewrite Ec.
  - destruct (Core d); [done|]. by apply IH.
  - destruct (Core d); [done|]. by apply IH.
Qed.

Lemma initialized_adapters new_service mc I st :
  InitializeAll (descriptors new_service) mc = Ok (I, st) →
  only_adapters (Name <$> RegisterCoreModules (λ _, true)) I st.
Proof.
  unfold InitializeAll. destruct (registered_sorts new_service) as (r&Hr&Hp&_). rewrite Hr. clear Hr. intros H.
  apply (initialize_adapters new_service _ mc r ∅ (mkInit ∅ ∅ ∅)); [done| | |done].
  - intros d Hd. by rewrite <-Hp.
  - split; [|set_solver]. intros n i Hi. cbn in Hi. by rewrite lookup_empty in Hi.
Qed.

Lemma core_given_nothing new_service mc I st c :
  InitializeAll (descriptors new_service) mc = Ok (I, st) → c ∈ RegisterCoreModules new_service →
  injected st !! Name c = Some [].
Proof.
  intros H Hc. pose proof (initialized_adapters _ _ _ _ H) as Ha.
  unfold InitializeAll in H. destruct (registered_sorts new_service) as (r&Hr&Hp&_). rewrite Hr in H. clear Hr.
  apply Ha.
  - change (Name c ∈ Name <$> RegisterCoreModules new_service). by apply list_elem_of_fmap_2.
  - apply initialize_core in H as [_ H]. apply H; [|by eapply core_Core].
    rewrite Hp. apply elem_of_app. by left.
Qed.

(** No service reaches another module: after every initialization that succeeds,
    a type assertion on a module finds nothing, because the registry holds the
    adapters, and every core module was created without any of the services its
    factory asks for (compute without quota checker, event logger, port allocator and
    host manager, the scheduler without hosts, image without storage). *)
Theorem services_not_found new_service mc I st :
  InitializeAll (descriptors new_service) mc = Ok (I, st) →
  (∀ name, GetModule_as (instances st) name = None) ∧
  (∀ c, c ∈ RegisterCoreModules new_service → injected st !! Name c = Some []).
Proof.
  intros H. split; [intros name; eapply GetModule_as_adapter; by eapply initialized_adapters|].
  intros c Hc. by eapply core_given_nothing.
Qed.

Lemma services_not_found_witness :
  ∃ I st, InitializeAll (descriptors (λ _, true)) ∅ = Ok (I, st) ∧
    injected st !! "compute" = Some [].
Proof.
  destruct (InitializeAll_spec (λ _, true) ∅ (λ _ _, eq_refl)) as (I&st&H&_).
  exists I, st. split; [exact H|].
  eapply (proj2 (services_not_found _ _ _ _ H) (core _ "compute" _ _)).
  unfold RegisterCoreModules. listed.
Defined.
