(* ===== verification/Quota.v ===== *)
(** * Quotas

    internal/management/quota/service.go: the limits and the usage of a tenant,
    the handlers that change them and the check that other modules make before
    they create a resource. The database is written through the ORM, whose
    treatment of zero values is an interface with its documented laws. The
    theorems say that the use of a tenant is what the successful updates add up to,
    and that a check compares it with the limit in force, for the four resources
    that are checked; that checks which overlap do not see each other; and what
    becomes of a limit of zero. *)
From S2P Require Import Prelude.
Local Open Scope Z_scope.

(** ** Tables *)

(** The columns of the two tables that hold a number per resource. *)
Inductive column :=
  Instances | VCPUs | RAMMB | DiskGB | Volumes | Snapshots | FloatingIPs | Networks
| Subnets | Routers | SecurityGroups.

#[global] Instance column_eq_dec : EqDecision column.
Proof. solve_decision. Defined.

Definition all_columns : list column :=
  [Instances; VCPUs; RAMMB; DiskGB; Volumes; Snapshots; FloatingIPs; Networks; Subnets;
   Routers; SecurityGroups].

(** The name by which other modules ask for a resource. *)
Definition column_of (resourceType : string) : option column :=
  match resourceType with
  | "instances" => Some Instances
  | "vcpus" => Some VCPUs
  | "ram_mb" => Some RAMMB
  | "disk_gb" => Some DiskGB
  | "volumes" => Some Volumes
  | "snapshots" => Some Snapshots
  | "floating_ips" => Some FloatingIPs
  | "networks" => Some Networks
  | "subnets" => Some Subnets
  | "routers" => Some Routers
  | "security_groups" => Some SecurityGroups
  | _ => None
  end.

(** A row of either table without its key: a number in each column. *)
Definition numbers : Type := column → Z.

Definition zero : numbers := λ _, 0.

Definition add (n : numbers) (c : column) (delta : Z) : numbers :=
  λ c', if decide (c' = c) then n c + delta else n c'.

Record QuotaSet := mkQuotaSet { TenantID : string; limits : numbers }.
Record QuotaUsage := mkQuotaUsage { usage_TenantID : string; used : numbers }.

(** The tables by tenant, the unique index. *)
Record DB := mkDB {
  quota_sets : gmap string QuotaSet;
  quota_usage : gmap string QuotaUsage
}.

(** What the ORM writes for a struct: [Create] gives a zero field the default of
    its tag, which is -1 for every limit, and [Updates] with a struct writes the
    fields that are not zero. *)
Class Gorm := {
  Create : QuotaSet → QuotaSet;
  Updates : QuotaSet → QuotaSet → QuotaSet;
  Create_tenant q : TenantID (Create q) = TenantID q;
  Create_limits q c : limits (Create q) c = if limits q c =? 0 then -1 else limits q c;
  Updates_tenant q r :
    TenantID (Updates q r) = if decide (TenantID r = "") then TenantID q else TenantID r;
  Updates_limits q r c :
    limits (Updates q r) c = if limits r c =? 0 then limits q c else limits r c
}.

(** ** The service *)

Inductive body :=
| Message (m : string)
| Error (e : string)
| AQuota (q : QuotaSet)
| AUsage (u : QuotaUsage)
| UsageAndQuota (u : QuotaUsage) (q : QuotaSet).

Inductive quota_error :=
| QuotaExceeded (resource : string) (limit current : Z)
| Database (e : string).

(** Which query of an upsert failed. *)
Inductive upsert_error := Querying | Creating | Updating.

Definition hard_coded : QuotaSet :=
  mkQuotaSet "default" (λ c,
    match c with
    | Instances => 10
    | VCPUs => 20
    | RAMMB => 51200
    | DiskGB => 1000
    | _ => 10
    end).

Definition set_quota (db : DB) (q : QuotaSet) : DB :=
  mkDB (<[TenantID q := q]> (quota_sets db)) (quota_usage db).
Definition set_usage (db : DB) (u : QuotaUsage) : DB :=
  mkDB (quota_sets db) (<[usage_TenantID u := u]> (quota_usage db)).



Section service.
Context {gorm : Gorm}.

(** A query with an error that is not a missing row: [err] is that error. *)
Definition First {A} (err : option string) (table : gmap string A) (tenant : string)
    : result (option string) A :=
  match err with
  | Some e => Err (Some e)
  | None => match table !! tenant with Some r => Ok r | None => Err None end
  end.

Definition getDefaultQuota (err : option string) (db : DB) : QuotaSet :=
  match First err (quota_sets db) "default" with
  | Ok quota => quota
  | Err _ => hard_coded
  end.

Definition getQuota (err err_default : option string) (tenantID : string) (db : DB) : Z * body :=
  match First err (quota_sets db) tenantID with
  | Ok quota => (200, AQuota quota)
  | Err None => (200, AQuota (getDefaultQuota err_default db))
  | Err (Some _) => (500, Error "internal server error")
  end.

(** The part that [updateQuota] and [updateDefaults] share; [write] is the error
    of the write, and the first component tells whether a row was created. *)
Definition upsert (err write : option string) (req : QuotaSet) (db : DB)
    : result upsert_error (bool * QuotaSet) * DB :=
  match First err (quota_sets db) (TenantID req) with
  | Err None =>
      match write with
      | Some _ => (Err Creating, db)
      | None => (Ok (true, Create req), set_quota db (Create req))
      end
  | Ok existing =>
      match write with
      | Some _ => (Err Updating, db)
      | None => (Ok (false, req), set_quota db (Updates existing req))
      end
  | Err (Some _) => (Err Querying, db)
  end.

(** [req] is the body of the request, or the error of decoding it. *)
Definition updateQuota (err write : option string) (tenantID : string)
    (req : result string QuotaSet) (db : DB) : (Z * body) * DB :=
  match req with
  | Err e => ((400, Error e), db)
  | Ok req =>
      match upsert err write (mkQuotaSet tenantID (limits req)) db with
      | (Ok (created, q), db) => ((if created then 201 else 200, AQuota q), db)
      | (Err Creating, db) => ((500, Error "failed to create quota"), db)
      | (Err Updating, db) => ((500, Error "failed to update quota"), db)
      | (Err Querying, db) => ((500, Error "internal server error"), db)
      end
  end.

Definition updateDefaults (err write : option string) (req : result string QuotaSet) (db : DB)
    : (Z * body) * DB :=
  match req with
  | Err e => ((400, Error e), db)
  | Ok req =>
      match upsert err write (mkQuotaSet "default" (limits req)) db with
      | (Ok (_, q), db) => ((200, AQuota q), db)
      | (Err Creating, db) => ((500, Error "failed to create default quota"), db)
      | (Err Updating, db) => ((500, Error "failed to update default quota"), db)
      | (Err Querying, db) => ((500, Error "internal server error"), db)
      end
  end.

Definition resetQuota (write : option string) (tenantID : string) (db : DB) : (Z * body) * DB :=
  match write with
  | Some _ => ((500, Error "failed to delete quota"), db)
  | None =>
      ((200, Message "quota reset to defaults"),
       mkDB (delete tenantID (quota_sets db)) (quota_usage db))
  end.

Definition getUsage (err err_quota err_default : option string) (tenantID : string) (db : DB)
    : Z * body :=
  match First err (quota_usage db) tenantID with
  | Err None => (200, AUsage (mkQuotaUsage tenantID zero))
  | Err (Some _) => (500, Error "internal server error")
  | Ok usage =>
      let quota :=
        match First err_quota (quota_sets db) tenantID with
        | Ok quota => quota
        | Err _ => getDefaultQuota err_default db
        end in
      (200, UsageAndQuota usage quota)
  end.

Definition getDefaults (err : option string) (db : DB) : Z * body :=
  (200, AQuota (getDefaultQuota err db)).

(** The columns that [CheckQuota] looks at. *)
Definition checked (c : column) : bool :=
  match c with Instances | VCPUs | RAMMB | DiskGB => true | _ => false end.

(** The sum is that of an int. *)
Definition CheckQuota (err err_default err_usage : option string)
    (tenantID resourceType : string) (delta : Z) (db : DB) : result quota_error unit :=
  match First err (quota_sets db) tenantID with
  | Err (Some e) => Err (Database e)
  | r =>
      let quota := match r with Ok q => q | Err _ => getDefaultQuota err_default db end in
      match First err_usage (quota_usage db) tenantID with
      | Err (Some e) => Err (Database e)
      | r =>
          let usage := match r with Ok u => u | Err _ => mkQuotaUsage tenantID zero end in
          match column_of resourceType with
          | Some c =>
              if checked c && (0 <=? limits quota c)
                 && (limits quota c <? wrap64 (used usage c + delta))
              then Err (QuotaExceeded resourceType (limits quota c) (used usage c))
              else Ok tt
          | None => Ok tt
          end
      end
  end.

(** The row of a tenant's usage, created when there is none. *)
Definition usage_row (err write_row : option string) (tenantID : string) (db : DB)
    : result string (QuotaUsage * DB) :=
  match First err (quota_usage db) tenantID with
  | Ok usage => Ok (usage, db)
  | Err None =>
      match write_row with
      | Some e => Err e
      | None => let usage := mkQuotaUsage tenantID zero in Ok (usage, set_usage db usage)
      end
  | Err (Some e) => Err e
  end.

(** The database adds [delta] to the column, and refuses a sum that does not fit
    an int8 column. *)
Definition UpdateUsage (err write_row write : option string)
    (tenantID resourceType : string) (delta : Z) (db : DB) : option string * DB :=
  match usage_row err write_row tenantID db with
  | Err e => (Some e, db)
  | Ok (usage, db) =>
      match column_of resourceType with
      | None => (write, db)
      | Some c =>
          match write with
          | Some e => (Some e, db)
          | None =>
              let sum := used usage c + delta in
              if (- 2 ^ 63 <=? sum) && (sum <? 2 ^ 63) then
                (None, set_usage db (mkQuotaUsage (usage_TenantID usage) (add (used usage) c delta)))
              else (Some "bigint out of range", db)
          end
      end
  end.

(** ** Histories *)

(** The calls that change the tables, with any outcome of their queries. *)
Inductive call :=
| PutQuota (err write : option string) (tenantID : string) (req : result string QuotaSet)
| PutDefaults (err write : option string) (req : result string QuotaSet)
| DeleteQuota (write : option string) (tenantID : string)
| Use (err write_row write : option string) (tenantID resourceType : string) (delta : Z).

Definition perform (o : call) (db : DB) : DB :=
  match o with
  | PutQuota err write t req => snd (updateQuota err write t req db)
  | PutDefaults err write req => snd (updateDefaults err write req db)
  | DeleteQuota write t => snd (resetQuota write t db)
  | Use err write_row write t r delta => snd (UpdateUsage err write_row write t r delta db)
  end.

Definition history (os : list call) : DB := foldl (λ db o, perform o db) (mkDB ∅ ∅) os.

(** ** What is used and allowed *)

(** The limit in force of a tenant, if there is one, and its use. *)
Definition limit_of (db : DB) (tenantID : string) (c : column) : option Z :=
  let quota := match quota_sets db !! tenantID with
               | Some q => q | None => getDefaultQuota None db end in
  if checked c && (0 <=? limits quota c) then Some (limits quota c) else None.

Definition used_of (db : DB) (tenantID : string) (c : column) : Z :=
  match quota_usage db !! tenantID with Some u => used u c | None => 0 end.

Definition accepted (e : option string) : bool := match e with None => true | Some _ => false end.

(** What the updates of a tenant's use of a resource that answer without an error
    add up to. *)
Fixpoint booked (t : string) (c : column) (os : list call) (db : DB) : Z :=
  match os with
  | [] => 0
  | o :: os =>
      match o with
      | Use err write_row write t' r delta =>
          if bool_decide (t' = t ∧ column_of r = Some c)
             && accepted (UpdateUsage err write_row write t' r delta db).1
          then delta else 0
      | _ => 0
      end + booked t c os (perform o db)
  end.

(** The four resources that are checked, and their limits when no row says
    otherwise. *)
Definition default_limits : list (string * (column * Z)) :=
  [("instances", (Instances, 10)); ("vcpus", (VCPUs, 20)); ("ram_mb", (RAMMB, 51200)); ("disk_gb", (DiskGB, 1000))].

(** The limit of a resource by its name: that of the tenant, else that of the
    defaults, else the one above. *)
Definition in_force (db : DB) (t r : string) (m : Z) : Prop :=
  ∃ c d, (r, (c, d)) ∈ default_limits ∧
    match quota_sets db !! t, quota_sets db !! "default" with
    | Some q, _ => m = limits q c
    | None, Some q => m = limits q c
    | None, None => m = d
    end.

(** Requests whose checks all come before their updates. *)
Definition overlapping (t r : string) (delta : Z) (n : nat) (db : DB) : DB :=
  if forallb (λ _, is_ok (CheckQuota None None None t r delta db)) (seq 0 n)
  then Nat.iter n (λ db, snd (UpdateUsage None None None t r delta db)) db
  else db.
End service.

(** The ORM as documented. *)
Definition documented : Gorm.
Proof.
  refine {|
    Create q := mkQuotaSet (TenantID q) (λ c, if limits q c =? 0 then -1 else limits q c);
    Updates q r :=
      mkQuotaSet (if decide (TenantID r = "") then TenantID q else TenantID r)
        (λ c, if limits r c =? 0 then limits q c else limits r c)
  |}; done.
Defined.

(** Rows are filed under their tenant, and no limit is zero. *)
Definition wf (db : DB) : Prop :=
  map_Forall (λ t q, TenantID q = t ∧ ∀ c, limits q c ≠ 0) (quota_sets db) ∧
  map_Forall (λ t u, usage_TenantID u = t) (quota_usage db).

Section facts.
Context {gorm : Gorm}.

Lemma First_Ok {A} err (m : gmap string A) t r : First err m t = Ok r → m !! t = Some r.
Proof. unfold First. intros H. case_hyp H; by simplify_eq. Qed.

(** *** Well-formed tables *)

Lemma upsert_wf err write req db : wf db → wf (snd (upsert err write req db)).
Proof.
  intros [Hq Hu]. unfold upsert. case_goal; simpl; try done.
  all: split; [|done]; simpl; apply map_Forall_insert_2; [|done].
  - destruct (Hq _ _ (First_Ok _ _ _ _ ltac:(eassumption))) as [Ht Hl]. split; [done|].
    intros c. rewrite Updates_limits. case_goal; zbool; naive_solver.
  - split; [done|]. intros c. rewrite Create_limits. case_goal; zbool; lia.
Qed.

Lemma set_usage_wf db u : wf db → wf (set_usage db u).
Proof. intros [Hq Hu]. split; [done|]. by apply map_Forall_insert_2. Qed.

Lemma usage_row_wf err write_row t db u db' :
  wf db → usage_row err write_row t db = Ok (u, db') → wf db'.
Proof.
  intros Hwf H. unfold usage_row in H. case_hyp H; simplify_eq; auto using set_usage_wf.
Qed.

Lemma perform_wf o db : wf db → wf (perform o db).
Proof.
  intros Hwf. destruct o as [err write t [req|e]|err write [req|e]|write t|err wr write t r delta];
    simpl; try done.
  - pose proof (upsert_wf err write (mkQuotaSet t (limits req)) db Hwf) as H.
    unfold updateQuota. case_goal; simplify_eq/=; done.
  - pose proof (upsert_wf err write (mkQuotaSet "default" (limits req)) db Hwf) as H.
    unfold updateDefaults. case_goal; simplify_eq/=; done.
  - destruct write; [done|]. destruct Hwf. split; [by apply map_Forall_delete|done].
  - unfold UpdateUsage. destruct (usage_row err wr t db) as [[u db']|e] eqn:Hrow; [|done].
    apply usage_row_wf in Hrow; [|done]. case_goal; simpl; auto using set_usage_wf.
Qed.

Lemma wf_histories (os : list call) db : wf db → wf (foldl (λ db o, perform o db) db os).
Proof. revert db. induction os as [|o os IH]; intros db Hdb; simpl; auto using perform_wf. Qed.

Lemma wf_empty : wf (mkDB ∅ ∅).
Proof. split; apply map_Forall_empty. Qed.

(** The tables of any history are well formed. *)
Theorem history_wf (os : list call) : wf (history os).
Proof. apply wf_histories, wf_empty. Qed.

(** *** Use and limits *)

Lemma usage_row_found t db :
  wf db → ∃ u db', usage_row None None t db = Ok (u, db') ∧ wf db' ∧ usage_TenantID u = t ∧
    (∀ c, used u c = used_of db t c) ∧ quota_sets db' = quota_sets db ∧
    (∀ t' c, used_of db' t' c = used_of db t' c).
Proof.
  intros Hwf. unfold usage_row, First, used_of. destruct (quota_usage db !! t) as [u|] eqn:E.
  - exists u, db. split_and!; try done. by apply Hwf in E.
  - eexists _, _. split; [done|]. split_and!; try done; [by apply set_usage_wf|].
    intros t' c. simpl. destruct (decide (t' = t)) as [->|Hne].
    + by rewrite lookup_insert_eq, E.
    + by rewrite lookup_insert_ne.
Qed.

Lemma used_of_set db u t c :
  used_of (set_usage db u) t c =
  if decide (t = usage_TenantID u) then used u c else used_of db t c.
Proof.
  unfold used_of, set_usage. simpl. case_decide as Ht.
  - by rewrite Ht, lookup_insert_eq.
  - by rewrite lookup_insert_ne.
Qed.

Lemma limit_of_sets db db' t c :
  quota_sets db' = quota_sets db → limit_of db' t c = limit_of db t c.
Proof. unfold limit_of, getDefaultQuota. by intros ->. Qed.

Lemma CheckQuota_spec t r delta db c :
  column_of r = Some c → - 2 ^ 63 <= used_of db t c + delta < 2 ^ 63 →
  is_ok (CheckQuota None None None t r delta db) =
  match limit_of db t c with Some m => used_of db t c + delta <=? m | None => true end.
Proof.
  intros Hc Hr. unfold CheckQuota, limit_of, used_of, First, zero in *. rewrite Hc.
  destruct (quota_usage db !! t); simpl in *; (rewrite wrap64_id; [|lia]);
    destruct (quota_sets db !! t); simpl; case_goal; zbool; simpl in *; try lia; try done.
Qed.

Lemma CheckQuota_other t r delta db :
  column_of r = None → CheckQuota None None None t r delta db = Ok tt.
Proof. intros Hr. unfold CheckQuota, First. rewrite Hr.
  by destruct (quota_sets db !! t), (quota_usage db !! t). Qed.

Lemma UpdateUsage_spec t r delta db :
  wf db → (∀ c, column_of r = Some c → - 2 ^ 63 <= used_of db t c + delta < 2 ^ 63) →
  ∃ db', UpdateUsage None None None t r delta db = (None, db') ∧ wf db' ∧
    quota_sets db' = quota_sets db ∧
    ∀ t' c, used_of db' t' c =
      if decide (t' = t ∧ Some c = column_of r) then used_of db t c + delta else used_of db t' c.
Proof.
  intros Hwf Hr. unfold UpdateUsage.
  destruct (usage_row_found t db Hwf) as (u & db' & -> & Hwf' & Hut & Hu & Hs & Hsame).
  destruct (column_of r) as [c|].
  - specialize (Hr c eq_refl). rewrite Hu. destruct (andb_true_iff
      (- 2 ^ 63 <=? used_of db t c + delta) (used_of db t c + delta <? 2 ^ 63)) as [_ ->];
      [|split; [apply Z.leb_le | apply Z.ltb_lt]; lia].
    eexists. split_and!; [done|by apply set_usage_wf|done|]. intros t' c'.
    rewrite used_of_set. simpl. unfold add. rewrite Hsame, Hut, !Hu.
    repeat case_decide; naive_solver.
  - eexists. split_and!; [done|done|done|]. intros t' c'. rewrite Hsame. case_decide; naive_solver.
Qed.

Lemma usage_row_same err write_row t db r : usage_row err write_row t db = Ok r → usage_row None None t db = Ok r.
Proof.
  unfold usage_row, First. destruct err; [done|]. destruct (quota_usage db !! t); [done|]. by destruct write_row.
Qed.

(** An update changes the use of its resource if it answers without an error, and
    no other. *)
Lemma UpdateUsage_used err write_row write t r delta db t' c :
  wf db →
  used_of (UpdateUsage err write_row write t r delta db).2 t' c
  = used_of db t' c + if bool_decide (t = t' ∧ column_of r = Some c)
                         && accepted (UpdateUsage err write_row write t r delta db).1 then delta else 0.
Proof.
  intros Hwf. unfold UpdateUsage. destruct (usage_row err write_row t db) as [[u db']|e] eqn:E.
  2: { simpl. rewrite andb_false_r. lia. }
  assert (usage_TenantID u = t ∧ (∀ c, used u c = used_of db t c) ∧ ∀ t c, used_of db' t c = used_of db t c)
    as (Ht & Hu & Hsame).
  { destruct (usage_row_found t db Hwf) as (u' & db'' & E' & _ & Ht & Hu & _ & Hs).
    apply usage_row_same in E. rewrite E in E'. by injection E' as -> ->. }
  destruct (column_of r) as [c'|]; [|simpl; rewrite bool_decide_eq_false_2 by naive_solver; simpl; rewrite Hsame; lia].
  destruct write; [simpl; rewrite andb_false_r, Hsame; lia|].
  destruct ((- 2 ^ 63 <=? _) && _); [|simpl; rewrite andb_false_r, Hsame; lia]. simpl. rewrite andb_true_r, used_of_set. simpl.
  unfold add. rewrite Ht, Hsame, !Hu. repeat case_decide; case_bool_decide; naive_solver lia.
Qed.

Lemma upsert_usage err write req db : quota_usage (upsert err write req db).2 = quota_usage db.
Proof. unfold upsert. by case_goal. Qed.

Lemma quota_calls_usage o db :
  match o with Use _ _ _ _ _ _ => True | _ => quota_usage (perform o db) = quota_usage db end.
Proof.
  destruct o as [err write t [req|e]|err write [req|e]|write t|err wr write t r delta]; simpl; try done.
  - pose proof (upsert_usage err write (mkQuotaSet t (limits req)) db) as H.
    unfold updateQuota. by case_goal; simplify_eq/=.
  - pose proof (upsert_usage err write (mkQuotaSet "default" (limits req)) db) as H.
    unfold updateDefaults. by case_goal; simplify_eq/=.
  - by destruct write.
Qed.

Lemma booked_used t c os db :
  wf db → used_of (foldl (λ db o, perform o db) db os) t c = used_of db t c + booked t c os db.
Proof.
  revert db. induction os as [|o os IH]; intros db Hwf; cbn [foldl booked]; [lia|].
  rewrite IH by (by apply perform_wf). pose proof (quota_calls_usage o db) as Hq.
  destruct o as [err write t' req|err write req|write t'|err wr write t' r delta];
    try (unfold used_of at 1; rewrite Hq; fold (used_of db t c); lia).
  simpl perform. rewrite UpdateUsage_used by done. lia.
Qed.

Lemma column_limits r c : column_of r = Some c → checked c = true → (r, (c, limits hard_coded c)) ∈ default_limits.
Proof.
  intros Hr Hc. unfold column_of in Hr. repeat case_match; simplify_eq; try done; apply list_elem_of_In; simpl; auto.
Qed.

Lemma default_columns r c d : (r, (c, d)) ∈ default_limits →
  column_of r = Some c ∧ checked c = true ∧ d = limits hard_coded c.
Proof. intros H. unfold default_limits in H. rewrite !elem_of_cons in H. set_unfold. naive_solver. Qed.

(** C12: After any calls that set, reset and default quotas and update the use, with any
    outcome of their queries: the use of a resource is what the updates that
    answered without an error add up to, and a check whose reads succeed refuses
    more of a resource exactly if it is one of the four that are checked, and this
    would exceed a limit in force that is not negative; the error then says so. *)
Theorem usage_checked os t r delta :
  let db := history os in
  (∀ c, used_of db t c = booked t c os (mkDB ∅ ∅)) ∧
  ∀ c, column_of r = Some c → - 2 ^ 63 <= booked t c os (mkDB ∅ ∅) + delta < 2 ^ 63 →
    ∀ e, CheckQuota None None None t r delta db = Err e ↔
      ∃ m, in_force db t r m ∧ 0 <= m < booked t c os (mkDB ∅ ∅) + delta ∧
        e = QuotaExceeded r m (booked t c os (mkDB ∅ ∅)).
Proof.
  intros db. assert (∀ c, used_of db t c = booked t c os (mkDB ∅ ∅)) as Hb.
  { intros c. unfold db, history. rewrite booked_used by apply wf_empty. done. }
  split; [done|]. intros c Hc Hr e. rewrite <- Hb in Hr |- *. clear Hb.
  assert (∀ m, in_force db t r m ↔ checked c = true ∧
    m = limits (match quota_sets db !! t with Some q => q | None => getDefaultQuota None db end) c) as Hm.
  { intros m. unfold in_force, getDefaultQuota, First. split.
    - intros (c' & d & (Hc' & Hk & ->)%default_columns & H). simplify_eq. split; [done|].
      by destruct (quota_sets db !! t); [|destruct (quota_sets db !! "default")].
    - intros [Hk ->]. exists c, (limits hard_coded c). split; [by apply column_limits|].
      by destruct (quota_sets db !! t); [|destruct (quota_sets db !! "default")]. }
  setoid_rewrite Hm. clear Hm. set (q := limits (match _ with Some q => q | None => _ end) c).
  assert (CheckQuota None None None t r delta db
    = if checked c && (0 <=? q) && (q <? used_of db t c + delta)
      then Err (QuotaExceeded r q (used_of db t c)) else Ok tt) as ->.
  { revert Hr. unfold q, CheckQuota, First, used_of, zero. rewrite Hc.
    destruct (quota_usage db !! t); simpl; intros Hr; (rewrite wrap64_id; [|lia]); by destruct (quota_sets db !! t). }
  destruct (_ && _ && _) eqn:E.
  - zbool. split; [intros [= <-]; exists q; by split_and!|]. by intros (m & [_ ->] & _ & ->).
  - split; [done|]. intros (m & [Hk ->] & Hle & _). rewrite Hk in E. zbool; lia.
Qed.

(** *** A limit of zero *)

(** A request that sets a limit to zero leaves the resource without a limit when
    the tenant had no quota of its own, and the old limit in place when it had. *)
Theorem zero_limit_lost (t : string) (c : column) (req : QuotaSet) db :
  t ≠ "" → limits req c = 0 →
  let '((status, _), db') := updateQuota None None t (Ok req) db in
  match quota_sets db !! t with
  | None => status = 201 ∧ limit_of db' t c = None
  | Some _ => status = 200 ∧ (wf db → limit_of db' t c = limit_of db t c)
  end.
Proof.
  intros Ht Hz. unfold updateQuota, upsert, First. simpl.
  destruct (quota_sets db !! t) as [q|] eqn:Hq; simpl; (split; [done|]).
  - intros [Hwf _]. unfold limit_of. simpl. rewrite Updates_tenant. simpl.
    rewrite decide_False by done. rewrite Hq, lookup_insert_eq, Updates_limits. simpl.
    by rewrite Hz.
  - unfold limit_of. simpl. rewrite Create_tenant. simpl.
    rewrite lookup_insert_eq, Create_limits. simpl. rewrite Hz. simpl. by rewrite andb_false_r.
Qed.

(** No history of the service puts a limit of zero in force. *)
Theorem no_zero_limit (os : list call) t c :
  limit_of (history os) t c ≠ Some 0.
Proof.
  destruct (wf_histories os _ wf_empty) as [Hwf _].
  fold (history os) in Hwf. set (db := history os) in *. unfold limit_of, getDefaultQuota, First.
  destruct (quota_sets db !! t) as [q|] eqn:Hq.
  - destruct (Hwf _ _ Hq) as [_ Hl]. specialize (Hl c). case_goal; congruence.
  - destruct (quota_sets db !! "default") as [q|] eqn:Hd; simpl.
    + destruct (Hwf _ _ Hd) as [_ Hl]. specialize (Hl c). case_goal; congruence.
    + by destruct c.
Qed.

(** *** The check alone *)

Lemma iter_used n t r c delta db :
  wf db → column_of r = Some c → Z.abs (used_of db t c) + Z.of_nat n * Z.abs delta < 2 ^ 63 →
  let db' := Nat.iter n (λ db, snd (UpdateUsage None None None t r delta db)) db in
  wf db' ∧ used_of db' t c = used_of db t c + Z.of_nat n * delta.
Proof.
  intros Hwf Hc. induction n as [|n IH]; intros Hr; simpl; [split; [done|lia]|].
  destruct IH as [Hwf' Hu]; [lia|]. set (db' := Nat.iter n _ db) in *.
  destruct (UpdateUsage_spec t r delta db' Hwf') as (db'' & -> & Hwf'' & _ & Hu').
  { intros c' Hc'. simplify_eq. rewrite Hu. lia. }
  split; [done|]. simpl. rewrite Hu', decide_True by naive_solver. rewrite Hu. lia.
Qed.

(** Requests that overlap are checked against the same use: each of [n] requests
    that fits alone passes, and together they use [n] times as much, whatever the
    limit. *)
Theorem overlapping_requests (t r : string) (c : column) delta (n : nat) db m :
  wf db → column_of r = Some c → limit_of db t c = Some m →
  used_of db t c + delta <= m → 0 <= used_of db t c → 0 < delta →
  used_of db t c + Z.of_nat (S n) * delta < 2 ^ 63 →
  used_of (overlapping t r delta (S n) db) t c = used_of db t c + Z.of_nat (S n) * delta.
Proof.
  intros Hwf Hc Hm Hfit Hu Hd Hn. unfold overlapping.
  rewrite CheckQuota_spec with (c := c) by (done || lia). rewrite Hm.
  rewrite (proj2 (Z.leb_le _ _) Hfit).
  replace (forallb (λ _, true) (seq 0 (S n))) with true
    by (symmetry; by apply forallb_forall).
  apply iter_used; [done|done|lia].
Qed.
End facts.

(** ** Witnesses *)

Definition tenant_tables : DB :=
  mkDB {["acme" := mkQuotaSet "acme" (λ c, match c with Instances => 2 | _ => -1 end)]} ∅.

Lemma tenant_tables_wf : wf tenant_tables.
Proof.
  split; [|apply map_Forall_empty]. apply map_Forall_singleton. split; [done|]. by intros [].
Qed.

(** A limit of two instances, of which one is used. *)
Definition two_instances : list call :=
  [PutQuota None None "acme" (Ok (mkQuotaSet "" (λ c, match c with Instances => 2 | _ => -1 end)));
   Use None None None "acme" "instances" 1; Use None None (Some "timeout") "acme" "instances" 5].

Lemma usage_checked_witness :
  CheckQuota None None None "acme" "instances" 1 (history (gorm := documented) two_instances) = Ok tt ∧
  CheckQuota None None None "acme" "instances" 2 (history (gorm := documented) two_instances)
  = Err (QuotaExceeded "instances" 2 1).
Proof.
  split; [vm_compute; reflexivity|].
  apply (proj2 (usage_checked (gorm := documented) two_instances "acme" "instances" 2) Instances);
    [reflexivity|vm_compute; split; [discriminate|reflexivity]|].
  exists 2. split; [|split; [vm_compute; split; [discriminate|reflexivity]|vm_compute; reflexivity]].
  exists Instances, 10. split; [left|vm_compute; reflexivity].
Defined.

Lemma zero_limit_lost_witness :
  limit_of (updateQuota (gorm := documented) None None "acme"
    (Ok (mkQuotaSet "" (λ _, 0))) (mkDB ∅ ∅)).2 "acme" Instances = None.
Proof.
  pose proof (zero_limit_lost (gorm := documented) "acme" Instances (mkQuotaSet "" (λ _, 0))
    (mkDB ∅ ∅)) as H.
  simpl in H. by destruct H as [_ H].
Defined.

Lemma overlapping_requests_witness :
  limit_of tenant_tables "acme" Instances = Some 2 ∧
  used_of (overlapping "acme" "instances" 2 4 tenant_tables) "acme" Instances = 8.
Proof.
  split; [reflexivity|].
  apply (overlapping_requests "acme" "instances" Instances 2 3 tenant_tables 2);
    (apply tenant_tables_wf || done).
Defined.
