(* ===== verification/Idempotency.v ===== *)
(** * Idempotency keys

    pkg/idempotency/middleware.go: the store of responses, the middleware that
    answers a repeated POST from it, and the requests that run at the same time.
    A request is a thread whose steps are the calls of the store, each under the
    store's mutex, and its handler. The theorems say that handlers of one key
    never overlap, that a request that starts after a response was stored is
    answered from it, that a request which looked before and marked after runs its
    handler again, and that a handler that panics blocks its key for good. *)
From Stdlib Require Import Ascii.
From S2P Require Import Prelude GoStrings Utf8 NetIP Http Sha256.
Local Open Scope Z_scope.

(** ** The store *)

Notation Header := (gmap string (list string)).

Record Entry := mkEntry {
  StatusCode : Z;
  Body : string;
  Headers : Header;
  CreatedAt : Z
}.

Record MemoryStore := mkMemoryStore {
  entries : gmap string Entry;
  processing : gset string
}.

Definition NewMemoryStore : MemoryStore := mkMemoryStore ∅ ∅.

Definition Get (s : MemoryStore) (key : string) : option Entry := entries s !! key.

Definition Set_ (s : MemoryStore) (key : string) (entry : Entry) (ttl : Z) : MemoryStore :=
  mkMemoryStore (<[key := entry]> (entries s)) (processing s ∖ {[key]}).

Definition SetProcessing (s : MemoryStore) (key : string) : bool * MemoryStore :=
  if bool_decide (key ∈ processing s) then (false, s)
  else (true, mkMemoryStore (entries s) ({[key]} ∪ processing s)).

Definition ClearProcessing (s : MemoryStore) (key : string) : MemoryStore :=
  mkMemoryStore (entries s) (processing s ∖ {[key]}).

(** One tick of the cleanup. *)
Definition cleanup (now : Z) (s : MemoryStore) : MemoryStore :=
  mkMemoryStore
    (filter (λ kv, ¬ (24 * hour < time_sub now (CreatedAt kv.2))) (entries s))
    (processing s).

(** ** The middleware *)

(** What the authentication put in the context as the user's id. *)
Inductive value := VString (s : string) | VFloat64 (n : Z) | VOther.

(** The bytes that are hashed. *)
Definition preimage (key path : string) (user : option string) : string :=
  key +:+ String "|" (path +:+ match user with Some u => String "|" (TrimSpace u) | None => "" end).

Definition buildKey (key path : string) (userID : option value) : outcome string :=
  let hash user := EncodeToString (sha256 (bytes_of (preimage key path user))) in
  match userID with
  | None => Returns (hash None)
  | Some (VString u) => Returns (hash (Some u))
  | Some _ => Panics
  end.

Definition cloneHeaders (src : Header) : Header :=
  filter (λ kv, HasPrefix kv.1 "Content-" = true ∨ kv.1 = "X-Request-Id") src.

Record Config := mkConfig { TTL : Z; IncludePaths : list string }.

Definition defaults (cfg : Config) : Config :=
  mkConfig (if TTL cfg =? 0 then 24 * hour else TTL cfg) (IncludePaths cfg).

Record Request := mkRequest {
  Method : string;
  IdempotencyKey : string;
  Path : string;
  user_id : option value
}.

(** Whether a request is looked up, and its trimmed key. *)
Definition covered (cfg : Config) (r : Request) : option string :=
  if decide (Method r ≠ "POST") then None
  else
    let key := TrimSpace (IdempotencyKey r) in
    if decide (key = "") then None
    else
      match IncludePaths cfg with
      | [] => Some key
      | prefixes => if existsb (HasPrefix (Path r)) prefixes then Some key else None
      end.

(** What a handler does to the writer, in order. *)
Inductive write := WriteHeader (code : Z) | Write (b : string).

(** The writer that records: the status and the body. *)
Definition record (w : Z * string) (x : write) : Z * string :=
  match x with
  | WriteHeader code => (code, w.2)
  | Write b => (w.1, w.2 +:+ b)%string
  end.

Definition captured (ws : list write) : Z * string := foldl record (200, "") ws.

(** A run of the rest of the chain: its writes and the headers, or a panic. *)
Inductive handler_run := Wrote (ws : list write) (h : Header) | HandlerPanics.

Definition succeeded (code : Z) : bool := (200 <=? code) && (code <? 300).

Definition new_entry (now : Z) (ws : list write) (h : Header) : Entry :=
  mkEntry (captured ws).1 (captured ws).2 (cloneHeaders h) now.

(** After the handler: the response is stored or the key is released. *)
Definition finish (cfg : Config) (now : Z) (key : string) (ws : list write) (h : Header)
    (s : MemoryStore) : MemoryStore :=
  if succeeded (captured ws).1 then Set_ s key (new_entry now ws h) (TTL cfg)
  else ClearProcessing s key.

(** Headers are set through [Header.Set], the last value of a list remaining. *)
Definition Header_Set (h : Header) (k v : string) : Header := <[k := [v]]> h.

Definition replay_headers (e : Entry) (h : Header) : Header :=
  Header_Set
    (map_fold (λ k vals h, foldl (λ h v, Header_Set h k v) h vals) h (Headers e))
    "Idempotent-Replayed" "true".

Inductive reply :=
| Passed (run : handler_run)
| Replayed (e : Entry) (h : Header)
| Conflict
| Executed (ws : list write) (h : Header)
| Panicked.

(** The middleware for a request that runs alone; [writer] has the headers that
    were set before it. *)
Definition Middleware (cfg : Config) (r : Request) (run : handler_run) (now : Z)
    (writer : Header) (s : MemoryStore) : reply * MemoryStore :=
  let cfg := defaults cfg in
  match covered cfg r with
  | None => (Passed run, s)
  | Some key =>
      match buildKey key (Path r) (user_id r) with
      | Panics => (Panicked, s)
      | Returns compositeKey =>
          match Get s compositeKey with
          | Some entry => (Replayed entry (replay_headers entry writer), s)
          | None =>
              match SetProcessing s compositeKey with
              | (false, s) => (Conflict, s)
              | (true, s) =>
                  match run with
                  | HandlerPanics => (Panicked, s)
                  | Wrote ws h => (Executed ws h, finish cfg now compositeKey ws h s)
                  end
              end
          end
      end
  end.

(** ** Requests that run at the same time *)

(** Where a request of a key stands. *)
Inductive pc :=
| PStart | PMissed | PRunning
| PFinished (ws : list write) (h : Header)
| PDone (o : reply).

Inductive event :=
| ELookup (writer : Header) | EMark | EHandler (run : handler_run) | EFinish.

Definition advance (cfg : Config) (now : Z) (e : event) (key : string) (p : pc) (s : MemoryStore)
    : option (pc * MemoryStore) :=
  match e, p with
  | ELookup writer, PStart =>
      match Get s key with
      | Some entry => Some (PDone (Replayed entry (replay_headers entry writer)), s)
      | None => Some (PMissed, s)
      end
  | EMark, PMissed =>
      match SetProcessing s key with
      | (false, s) => Some (PDone Conflict, s)
      | (true, s) => Some (PRunning, s)
      end
  | EHandler (Wrote ws h), PRunning => Some (PFinished ws h, s)
  | EHandler HandlerPanics, PRunning => Some (PDone Panicked, s)
  | EFinish, PFinished ws h => Some (PDone (Executed ws h), finish cfg now key ws h s)
  | _, _ => None
  end.

(** The requests, each with its composite key, the store and the clock. *)
Record system := mkSystem { threads : list (string * pc); store : MemoryStore; clock : Z }.

Inductive step (cfg : Config) : system → system → Prop :=
| step_thread i e key p p' ts s s' now :
    ts !! i = Some (key, p) → advance cfg now e key p s = Some (p', s') →
    step cfg (mkSystem ts s now) (mkSystem (<[i := (key, p')]> ts) s' now)
| step_arrival key ts s now :
    step cfg (mkSystem ts s now) (mkSystem (ts ++ [(key, PStart)]) s now)
| step_cleanup ts s now :
    step cfg (mkSystem ts s now) (mkSystem ts (cleanup now s) now)
| step_time ts s now now' :
    now <= now' → step cfg (mkSystem ts s now) (mkSystem ts s now').

(** The threads whose handler is running or whose result is not stored yet, and
    those that keep their key marked, also after a panic. *)
Definition holds (p : pc) : bool :=
  match p with PRunning | PFinished _ _ => true | _ => false end.

Definition keeps (p : pc) : bool :=
  match p with PRunning | PFinished _ _ | PDone Panicked => true | _ => false end.

Definition idle (now : Z) : system := mkSystem [] NewMemoryStore now.


(** *** Handlers of one key do not overlap *)

Definition exclusive (y : system) : Prop :=
  (∀ key, key ∈ processing (store y) ↔ ∃ i p, threads y !! i = Some (key, p) ∧ keeps p = true) ∧
  (∀ i j key p q, threads y !! i = Some (key, p) → threads y !! j = Some (key, q) →
     keeps p = true → keeps q = true → i = j).

(** The thread that a step of thread [i] leaves at [j]. *)
Lemma stepped_lookup (ts : list (string * pc)) i key p p' j k q :
  ts !! i = Some (key, p) → <[i := (key, p')]> ts !! j = Some (k, q) →
  (j = i ∧ k = key ∧ q = p') ∨ (j ≠ i ∧ ts !! j = Some (k, q)).
Proof.
  intros Hi Hj. destruct (decide (j = i)) as [->|Hne].
  - rewrite list_lookup_insert_eq in Hj by (by eapply lookup_lt_Some). naive_solver.
  - rewrite list_lookup_insert_ne in Hj by done. naive_solver.
Qed.

Lemma arrived_lookup (ts : list (string * pc)) key j k q :
  (ts ++ [(key, PStart)]) !! j = Some (k, q) →
  ts !! j = Some (k, q) ∨ (length ts = j ∧ k = key ∧ q = PStart).
Proof.
  intros H. apply lookup_app_Some in H as [H|[H1 H2]]; [by left|right].
  apply list_lookup_singleton_Some in H2 as [H2 H3]. naive_solver lia.
Qed.

(** What a step of a thread does to the marks: it removes its own, sets it, or leaves
    all as they are. *)
Lemma advance_marks cfg now e key p s p' s' :
  advance cfg now e key p s = Some (p', s') →
  (keeps p = true ∧ keeps p' = false ∧ processing s' = (processing s ∖ {[key]})) ∨
  (keeps p = false ∧ keeps p' = true ∧ key ∉ processing s ∧ processing s' = {[key]} ∪ processing s) ∨
  (keeps p = keeps p' ∧ processing s' = processing s).
Proof.
  intros H. destruct e as [| |[]|], p; simpl in H; try done; unfold SetProcessing, finish in H;
    case_hyp H; zbool; simplify_eq; naive_solver.
Qed.

Lemma stepped_self (ts : list (string * pc)) i key p p' :
  ts !! i = Some (key, p) → <[i := (key, p')]> ts !! i = Some (key, p').
Proof. intros Hi. apply list_lookup_insert_eq. by eapply lookup_lt_Some. Qed.

(** A mark has a keeper after a step, *)
Lemma advance_kept cfg now e key p p' i ts s s' k :
  ts !! i = Some (key, p) → advance cfg now e key p s = Some (p', s') → exclusive (mkSystem ts s now) →
  k ∈ processing s' → ∃ j q, <[i := (key, p')]> ts !! j = Some (k, q) ∧ keeps q = true.
Proof.
  intros Hi Ha [Hm _]. simpl in Hm. assert (k ∈ processing s → k ≠ key ∨ keeps p' = true →
    ∃ j q, <[i := (key, p')]> ts !! j = Some (k, q) ∧ keeps q = true) as Hother.
  { intros Hk Hp. apply Hm in Hk as (j & q & Hj & Hq). destruct (decide (j = i)) as [->|Hne].
    - simplify_eq. exists i, p'. split; [by apply stepped_self with p|]. naive_solver.
    - exists j, q. by rewrite list_lookup_insert_ne. }
  destruct (advance_marks _ _ _ _ _ _ _ _ Ha) as [(Hp & Hp' & ->)|[(Hp & Hp' & Hn & ->)|(Hp & ->)]].
  - rewrite elem_of_difference, elem_of_singleton. naive_solver.
  - rewrite elem_of_union, elem_of_singleton. intros [->|Hk]; [|by auto]. exists i, p'. split; [|done].
    by apply stepped_self with p.
  - intros Hk. destruct (decide (k = key)) as [->|]; [|by auto].
    pose proof Hk as (j & q & Hj & Hq)%Hm. destruct (decide (j = i)) as [->|Hne].
    + simplify_eq. apply Hother; [done|]. right. congruence.
    + exists j, q. by rewrite list_lookup_insert_ne.
Qed.

(** and a keeper is the only one and has marked its key. *)
Lemma advance_exclusive cfg now e key p p' i ts s s' :
  ts !! i = Some (key, p) → advance cfg now e key p s = Some (p', s') →
  exclusive (mkSystem ts s now) → exclusive (mkSystem (<[i := (key, p')]> ts) s' now).
Proof.
  intros Hi Ha Hex. pose proof (λ k, advance_kept _ _ _ _ _ _ _ _ _ _ k Hi Ha Hex) as Hkept. destruct Hex as [Hm Hx].
  simpl in *. assert (∀ j k q, ts !! j = Some (k, q) → keeps q = true → k ∈ processing s) as Hin by naive_solver.
  assert (∀ j k q, ts !! j = Some (k, q) → keeps q = true → j ≠ i → k ∈ processing s' ∧ (k = key → keeps p' = false)) as Hj.
  { intros j k q Hj Hq Hne. pose proof (Hin _ _ _ Hj Hq) as Hk.
    destruct (advance_marks _ _ _ _ _ _ _ _ Ha) as [(Hp & Hp' & ->)|[(Hp & Hp' & Hn & ->)|(Hp & ->)]].
    - split; [|done]. apply elem_of_difference. split; [done|]. intros ->%elem_of_singleton. apply Hne. by eapply Hx.
    - split; [set_solver|]. by intros ->.
    - split; [done|]. intros ->. rewrite <- Hp. apply not_true_is_false. intros Hpt. apply Hne. by eapply Hx. }
  assert (keeps p' = true → key ∈ processing s') as Hi'.
  { intros Hp'. destruct (advance_marks _ _ _ _ _ _ _ _ Ha) as [(_ & ? & _)|[(_ & _ & _ & ->)|(Hp & ->)]];
      [congruence|set_solver|]. eapply Hin; [done|congruence]. }
  split; simpl.
  - intros k. split; [apply Hkept|]. intros (j & q & Hjq & Hq).
    apply (stepped_lookup _ _ _ _ _ _ _ _ Hi) in Hjq as [(-> & -> & ->)|[Hne Hjq]]; [by apply Hi'|by eapply Hj].
  - intros j1 j2 k q1 q2 H1 H2 Hq1 Hq2.
    apply (stepped_lookup _ _ _ _ _ _ _ _ Hi) in H1 as [(-> & -> & ->)|[Hn1 H1]];
      apply (stepped_lookup _ _ _ _ _ _ _ _ Hi) in H2 as [(-> & ? & ->)|[Hn2 H2]]; simplify_eq; [done| | |by eapply Hx].
    + destruct (Hj _ _ _ H2 Hq2 Hn2) as [_ Hc]. rewrite Hc in Hq1; done.
    + destruct (Hj _ _ _ H1 Hq1 Hn1) as [_ Hc]. rewrite Hc in Hq2; done.
Qed.

Lemma step_exclusive cfg y y' : step cfg y y' → exclusive y → exclusive y'.
Proof.
  intros Hs Hy. destruct Hs as [i e key p p' ts s s' now Hi Ha|key ts s now|ts s now|ts s now now' _];
    try done; [by eapply advance_exclusive|]. destruct Hy as [Hm Hx]. split; simpl in *.
  - intros k. rewrite Hm. split; intros (i & p & Hi & Hp); exists i, p; (split; [|done]).
    + by apply lookup_app_l_Some.
    + apply arrived_lookup in Hi as [?|(_ & _ & ->)]; done.
  - intros i j k p q Hi Hj. apply arrived_lookup in Hi as [Hi|(_ & _ & ->)]; [|done].
    apply arrived_lookup in Hj as [Hj|(_ & _ & ->)]; [by eapply Hx|done].
Qed.

Lemma reachable_exclusive cfg now y : rtc (step cfg) (idle now) y → exclusive y.
Proof.
  intros Hr. apply (rtc_ind_r exclusive (idle now)) in Hr; [done| |].
  { split; [|done]. intros key. split; [set_solver|]. by intros (i & p & ? & _). }
  intros y1 y2 _ Hs Hy. by eapply step_exclusive.
Qed.

(** C22: For all interleavings of requests: a key is marked exactly if some request of
    it is between the mark and the storing of its result, or its handler has
    panicked; and there is at most one such request of a key. In particular the
    handlers of two requests with the same key never run at the same time. *)
Theorem handlers_exclusive cfg now y :
  rtc (step cfg) (idle now) y →
  (∀ key, key ∈ processing (store y) ↔ ∃ i p, threads y !! i = Some (key, p) ∧ keeps p = true) ∧
  (∀ i j key p q, threads y !! i = Some (key, p) → threads y !! j = Some (key, q) →
     keeps p = true → keeps q = true → i = j).
Proof. apply reachable_exclusive. Qed.

(** *** A stored response is the answer *)



Lemma advance_entries_ne cfg now e k p s p' s' key :
  advance cfg now e k p s = Some (p', s') → key ≠ k →
  entries s' !! key = entries s !! key.
Proof.
  intros H Hk. destruct e as [| |[]|], p; simpl in H; try done; unfold SetProcessing, finish in H;
    case_hyp H; simplify_eq/=; try done. by rewrite lookup_insert_ne.
Qed.



(** *** A handler that panics *)

(** The key is marked, no handler of it is running, and the requests that had not
    looked in [y0] have not run theirs. *)
Definition blocked (key : string) (y0 y : system) : Prop :=
  entries (store y) !! key = None ∧ key ∈ processing (store y) ∧
  ∀ i p, threads y !! i = Some (key, p) →
    p = PStart ∨ p = PMissed ∨ p = PDone Conflict ∨ (∃ o, p = PDone o ∧ threads y0 !! i = Some (key, p)).

Lemma advance_marks_ne cfg now e k p s p' s' key :
  advance cfg now e k p s = Some (p', s') → key ≠ k →
  key ∈ processing s → key ∈ processing s'.
Proof.
  intros H Hk Hin.
  destruct (advance_marks _ _ _ _ _ _ _ _ H) as [(_ & _ & ->)|[(_ & _ & _ & ->)|(_ & ->)]]; set_solver.
Qed.

Lemma step_blocked cfg key y0 y y' : step cfg y y' → blocked key y0 y → blocked key y0 y'.
Proof.
  intros Hs (He & Hc & Ht).
  destruct Hs as [i ev k p p' ts s s' now Hi Ha|k ts s now|ts s now|ts s now now' Hle]; simpl in *.
  - destruct (decide (k = key)) as [->|Hne].
    + assert (s' = s ∧ (p' = PMissed ∨ p' = PDone Conflict)) as [-> Hp'].
      { destruct (Ht i p Hi) as [->|[->|[->|[o [-> _]]]]]; destruct ev as [w| |[]|]; try done; simpl in Ha.
        - unfold Get in Ha. rewrite He in Ha. naive_solver.
        - unfold SetProcessing in Ha. rewrite bool_decide_true in Ha by done. naive_solver. }
      split_and!; [done..|]. simpl. intros j q Hj.
      apply (stepped_lookup _ _ _ _ _ _ _ _ Hi) in Hj as [(-> & _ & ->)|[? ?]]; naive_solver.
    + split_and!; simpl.
      * by rewrite (advance_entries_ne _ _ _ _ _ _ _ _ key Ha).
      * by eapply advance_marks_ne.
      * intros j q Hj. apply (stepped_lookup _ _ _ _ _ _ _ _ Hi) in Hj as [(-> & ? & ->)|[? ?]];
          [congruence|eauto].
  - split_and!; simpl; [done..|]. intros j q Hj. apply arrived_lookup in Hj as [Hj|(? & -> & ->)]; eauto.
  - split_and!; simpl; [|done|done]. apply map_lookup_filter_None. by left.
  - done.
Qed.

(** When a handler panics, its key stays marked: no request of the key that
    starts afterwards runs its handler or gets any other answer than a conflict. *)
Theorem panic_blocks_key cfg now i key y y' :
  rtc (step cfg) (idle now) y →
  threads y !! i = Some (key, PRunning) → entries (store y) !! key = None →
  rtc (step cfg) (mkSystem (<[i := (key, PDone Panicked)]> (threads y)) (store y) (clock y)) y' →
  ∀ j p, threads y' !! j = Some (key, p) → (length (threads y) <= j)%nat →
    p = PStart ∨ p = PMissed ∨ p = PDone Conflict.
Proof.
  intros Hr Hi He Hr' j p Hj Hlen.
  destruct (reachable_exclusive _ _ _ Hr) as [Hm Hx].
  assert (Hne : Forall (λ t, holds t.2 = true → t.1 ≠ key)
    (<[i := (key, PDone Panicked)]> (threads y))).
  { apply Forall_lookup. intros k [key' q] Hk. simpl. intros Hq ->.
    apply (stepped_lookup _ _ _ _ _ _ _ _ Hi) in Hk as [(-> & _ & ->)|[Hne Hk]]; [done|].
    apply Hne. eapply Hx; [done..| |done]. by destruct q. }
  set (y0 := mkSystem _ _ _) in Hr'.
  assert (blocked key y0 y') as (_ & _ & Hb).
  { apply (rtc_ind_r (blocked key y0) y0) in Hr'; [done| |intros; by eapply step_blocked].
    split_and!; [done|apply Hm; by exists i, PRunning|]. intros k q Hk.
    pose proof (proj1 (Forall_lookup _ _) Hne k _ Hk) as Hh. simpl in Hh.
    destruct q; try (by (destruct Hh; [|reflexivity])); eauto 10. }
  destruct (Hb j p Hj) as [?|[?|[?|[o [_ Ho]]]]]; auto.
  apply lookup_lt_Some in Ho. simpl in Ho. rewrite length_insert in Ho. lia.
Qed.

(** *** Requests that looked before the response was stored *)

Lemma step_middle cfg now e key p p' s s' l1 l2 :
  advance cfg now e key p s = Some (p', s') →
  step cfg (mkSystem (l1 ++ (key, p) :: l2) s now) (mkSystem (l1 ++ (key, p') :: l2) s' now).
Proof.
  intros Ha. replace (l1 ++ (key, p') :: l2) with
    (<[length l1 := (key, p')]> (l1 ++ (key, p) :: l2)).
  - eapply step_thread; [|done]. by apply list_lookup_middle.
  - by rewrite insert_app_r_alt, Nat.sub_diag by lia.
Qed.

Lemma arrivals cfg now key s n :
  rtc (step cfg) (mkSystem [] s now) (mkSystem (replicate n (key, PStart)) s now).
Proof.
  induction n as [|n IH]; [done|]. eapply rtc_r; [done|].
  rewrite replicate_S_end. apply step_arrival.
Qed.

Lemma lookups cfg now key s n m :
  entries s !! key = None →
  rtc (step cfg) (mkSystem (replicate m (key, PMissed) ++ replicate n (key, PStart)) s now)
    (mkSystem (replicate (n + m) (key, PMissed)) s now).
Proof.
  intros Hs. revert m. induction n as [|n IH]; intros m; simpl; [by rewrite app_nil_r|].
  eapply rtc_l.
  - apply (step_middle cfg now (ELookup ∅) key _ PMissed s s). simpl. unfold Get. by rewrite Hs.
  - specialize (IH (S m)). rewrite replicate_S_end, <- app_assoc in IH.
    by rewrite Nat.add_succ_r in IH.
Qed.

Lemma executions cfg now key ws h s n m :
  key ∉ processing s → ∃ s',
  rtc (step cfg) (mkSystem (replicate m (key, PDone (Executed ws h)) ++ replicate n (key, PMissed)) s now)
    (mkSystem (replicate (n + m) (key, PDone (Executed ws h))) s' now).
Proof.
  revert m s. induction n as [|n IH]; intros m s Hs; [exists s; by rewrite app_nil_r|].
  set (s1 := mkMemoryStore (entries s) ({[key]} ∪ processing s)).
  assert (key ∉ processing (finish cfg now key ws h s1)) as Hs2.
  { unfold finish. destruct (succeeded _); simpl; set_solver. }
  destruct (IH (S m) _ Hs2) as [s' Hr]. exists s'. simpl.
  eapply rtc_l; [apply (step_middle cfg now EMark key _ PRunning s s1)|].
  { simpl. unfold SetProcessing. by rewrite bool_decide_false. }
  eapply rtc_l; [by apply (step_middle cfg now (EHandler (Wrote ws h)) key _ (PFinished ws h) s1 s1)|].
  eapply rtc_l; [by apply (step_middle cfg now EFinish key _ (PDone (Executed ws h)) s1)|].
  rewrite replicate_S_end, <- app_assoc in Hr. by rewrite Nat.add_succ_r in Hr.
Qed.

(** The lookup and the mark are two calls of the store: any number of requests
    with one key that look before the first of them ends can run their handlers,
    one after the other, although the first has stored a successful response. *)
Theorem handlers_repeated cfg now key ws h n :
  ∃ y, rtc (step cfg) (idle now) y ∧ threads y = replicate n (key, PDone (Executed ws h)).
Proof.
  destruct (executions cfg now key ws h NewMemoryStore n 0) as [s' Hr]; [set_solver|].
  rewrite Nat.add_0_r in Hr.
  exists (mkSystem (replicate n (key, PDone (Executed ws h))) s' now). split; [|done].
  etrans; [apply arrivals|]. etrans; [by apply (lookups cfg now key _ n 0)|].
  rewrite Nat.add_0_r. apply Hr.
Qed.

(** *** A request alone *)

(** A covered request that runs alone takes the steps of a thread one after the
    other. *)
Theorem Middleware_steps cfg r run now w s key k :
  covered cfg r = Some key → buildKey key (Path r) (user_id r) = Returns k →
  ∃ ts, rtc (step (defaults cfg)) (mkSystem [(k, PStart)] s now)
    (mkSystem ts (Middleware cfg r run now w s).2 now) ∧
    ts = [(k, PDone (Middleware cfg r run now w s).1)].
Proof.
  intros Hc Hk. unfold Middleware. assert (covered (defaults cfg) r = Some key) as -> by done.
  rewrite Hk. eexists. split; [|done].
  destruct (Get s k) as [e|] eqn:Hg; simpl.
  { apply rtc_once. apply (step_middle _ _ (ELookup w) k _ _ s s [] []). simpl. by rewrite Hg. }
  eapply rtc_l; [apply (step_middle _ _ (ELookup w) k _ PMissed s s [] []); simpl; by rewrite Hg|].
  destruct (SetProcessing s k) as [[] s1] eqn:Hm; simpl.
  2: { apply rtc_once. apply (step_middle _ _ EMark k _ _ s s1 [] []). simpl. by rewrite Hm. }
  eapply rtc_l; [apply (step_middle _ _ EMark k _ PRunning s s1 [] []); simpl; by rewrite Hm|].
  destruct run as [ws h|]; simpl.
  - eapply rtc_l; [by apply (step_middle _ _ (EHandler (Wrote ws h)) k _ (PFinished ws h) s1 s1 [] [])|].
    by apply rtc_once, (step_middle _ _ EFinish k _ _ s1 _ [] []).
  - by apply rtc_once, (step_middle _ _ (EHandler HandlerPanics) k _ _ s1 s1 [] []).
Qed.

(** A second request after a successful one gets the status and the body of the
    first, whatever its handler would do. *)
Theorem second_request_replayed cfg r ws h run now now' w w' s s' :
  succeeded (captured ws).1 = true →
  Middleware cfg r (Wrote ws h) now w s = (Executed ws h, s') →
  ∃ entry, Middleware cfg r run now' w' s' = (Replayed entry (replay_headers entry w'), s') ∧
    (StatusCode entry, Body entry) = captured ws.
Proof.
  intros Hok H. unfold Middleware in *. destruct (covered _ r) as [key|]; [|done].
  destruct (buildKey key (Path r) (user_id r)) as [k|]; [|done].
  destruct (Get s k); [done|]. destruct (SetProcessing s k) as [[] s1]; [|done].
  unfold finish in H. rewrite Hok in H. injection H as <-.
  exists (new_entry now ws h). unfold Get, Set_. simpl. rewrite lookup_insert_eq.
  split; [done|]. by destruct (captured ws).
Qed.

(** *** Composite keys *)

(** With no bar in the key and in the path, the hashed bytes tell the key, the
    path and the trimmed user apart. *)
Theorem preimage_injective key path user key' path' user' :
  str_mem "|" key = false → str_mem "|" path = false →
  str_mem "|" key' = false → str_mem "|" path' = false →
  preimage key path user = preimage key' path' user' →
  key = key' ∧ path = path' ∧ TrimSpace <$> user = TrimSpace <$> user'.
Proof.
  intros Hk Hp Hk' Hp' E. apply (f_equal (str_cut "|")) in E. unfold preimage in E.
  rewrite !str_cut_app in E by done. injection E as -> E. split; [done|].
  destruct user as [u|], user' as [u'|]; cbn in E |- *.
  - apply (f_equal (str_cut "|")) in E. rewrite !str_cut_app in E by done. injection E as -> ->. done.
  - apply (f_equal (str_mem "|")) in E. rewrite !str_mem_app, Hp, Hp' in E. done.
  - apply (f_equal (str_mem "|")) in E. rewrite !str_mem_app, Hp, Hp' in E. done.
  - by rewrite !str_app_nil_r in E.
Qed.

(** The user's id of a token is a number, for which the key is not built: every
    covered request of a logged-in user ends in a panic before its handler. *)
Theorem numeric_user_panics cfg r run now w s n key :
  covered (defaults cfg) r = Some key → user_id r = Some (VFloat64 n) →
  Middleware cfg r run now w s = (Panicked, s).
Proof. intros Hc Hu. unfold Middleware. by rewrite Hc, Hu. Qed.

(** ** Witnesses *)

Definition plain : Config := mkConfig 0 [].
Definition created : list write := [WriteHeader 201; Write "{}"].
Definition post : Request := mkRequest "POST" " k1 " "/api/v1/instances" (Some (VString "7")).


Definition running : system :=
  mkSystem [("k", PRunning)] (mkMemoryStore ∅ ({["k"]} ∪ ∅)) 0.

Lemma running_reachable : rtc (step plain) (idle 0) running.
Proof.
  eapply rtc_l; [apply (step_arrival plain "k")|].
  eapply rtc_l; [by apply (step_middle plain 0 (ELookup ∅) "k" PStart PMissed NewMemoryStore NewMemoryStore [] [])|].
  apply rtc_once. by apply (step_middle plain 0 EMark "k" PMissed PRunning NewMemoryStore _ [] []).
Qed.

(** A second request of the key while the first one runs. *)
Definition refused : system :=
  mkSystem [("k", PRunning); ("k", PDone Conflict)] (mkMemoryStore ∅ ({["k"]} ∪ ∅)) 0.

Lemma refused_reachable : rtc (step plain) (idle 0) refused.
Proof.
  etrans; [apply running_reachable|]. eapply rtc_l; [apply (step_arrival plain "k")|].
  eapply rtc_l; [by apply (step_middle plain 0 (ELookup ∅) "k" PStart PMissed (store running) (store running)
    [("k", PRunning)] [])|].
  apply rtc_once. by apply (step_middle plain 0 EMark "k" PMissed (PDone Conflict) (store running) (store running)
    [("k", PRunning)] []).
Qed.

Lemma handlers_exclusive_witness :
  "k" ∈ processing (store refused) ∧
  ∀ j q, threads refused !! j = Some ("k", q) → keeps q = true → j = 0%nat.
Proof.
  destruct (handlers_exclusive plain 0 refused refused_reachable) as [H1 H2]. split.
  - apply H1. exists 0%nat, PRunning. split; reflexivity.
  - intros j q Hj Hq. exact (H2 j 0%nat "k" q PRunning Hj eq_refl Hq eq_refl).
Defined.


Lemma panic_blocks_key_witness :
  let y' := mkSystem [("k", PDone Panicked); ("k", PDone Conflict)] (store running) 0 in
  PDone Conflict = PStart ∨ PDone Conflict = PMissed ∨ PDone Conflict = PDone Conflict.
Proof.
  intros y'. apply (panic_blocks_key plain 0 0 "k" running y' running_reachable) with (j := 1%nat);
    try done.
  eapply rtc_l; [apply (step_arrival plain "k")|].
  eapply rtc_l; [by apply (step_middle plain 0 (ELookup ∅) "k" PStart PMissed (store running)
    (store running) [("k", PDone Panicked)] [])|].
  apply rtc_once. by apply (step_middle plain 0 EMark "k" PMissed (PDone Conflict) (store running)
    (store running) [("k", PDone Panicked)] []).
Defined.

Lemma Middleware_steps_witness :
  ∃ k ts s', rtc (step (defaults plain)) (mkSystem [(k, PStart)] NewMemoryStore 0) (mkSystem ts s' 0) ∧
    ts = [(k, PDone (Executed created ∅))].
Proof.
  destruct (Middleware_steps plain post (Wrote created ∅) 0 ∅ NewMemoryStore "k1" _ eq_refl eq_refl)
    as (ts & H1 & H2).
  eexists _, ts, _. split; [exact H1|]. rewrite H2. reflexivity.
Defined.

Lemma second_request_replayed_witness :
  ∃ entry s', Middleware plain post HandlerPanics 5 ∅ s' =
    (Replayed entry (replay_headers entry ∅), s') ∧ StatusCode entry = 201.
Proof.
  destruct (second_request_replayed plain post created ∅ HandlerPanics 0 5 ∅ ∅ NewMemoryStore
    (Middleware plain post (Wrote created ∅) 0 ∅ NewMemoryStore).2) as (entry & H1 & H2);
    [done|reflexivity|].
  eexists entry, _. split; [exact H1|]. by injection H2.
Defined.

Lemma preimage_injective_witness :
  ∃ u, preimage "a" "/x" (Some " u ") = preimage "a" "/x" (Some u) ∧
       TrimSpace <$> Some " u " = TrimSpace <$> Some u.
Proof.
  exists "u". split; [done|].
  by apply (preimage_injective "a" "/x" (Some " u ") "a" "/x" (Some "u")).
Defined.

Lemma numeric_user_panics_witness :
  Middleware plain (mkRequest "POST" "k" "/api/v1/instances" (Some (VFloat64 7))) HandlerPanics 0 ∅
    NewMemoryStore = (Panicked, NewMemoryStore).
Proof. by apply numeric_user_panics with (n := 7) (key := "k"). Defined.
