(* ===== verification/Naming.v ===== *)
(** * Names and ids of resources

    pkg/naming/naming.go: the ids of resources with their prefixes, the validation
    of names in its three modes, and slugs. The random bytes of the generators are
    arguments. The theorems say that a generated id is valid and gives its prefix
    and digits back, that the slug of any display name is a valid DNS name and its
    own slug, and what a valid general name can contain. *)
From Stdlib Require Import Ascii.
From S2P Require Import Prelude GoStrings Utf8 Regex NetIP Sha256.
Local Open Scope Z_scope.

(** ** Ids *)

Definition prefixMap : list (string * string) := [
  ("i", "Instance"); ("flv", "Flavor"); ("img", "Image"); ("vol", "Volume");
  ("snap", "Snapshot"); ("spool", "StoragePool"); ("bak", "Backup"); ("net", "Network");
  ("sub", "Subnet"); ("rtr", "Router"); ("eip", "FloatingIP"); ("sg", "SecurityGroup");
  ("port", "Port"); ("lb", "LoadBalancer"); ("vpc", "VPC"); ("fw", "FirewallPolicy");
  ("acl", "ACL"); ("qos", "QoSPolicy"); ("pf", "PortForwarding"); ("pm", "PortMirror");
  ("trunk", "TrunkPort"); ("srt", "StaticRoute"); ("bgp", "BGPPeer"); ("asnr", "ASNRange");
  ("asna", "ASNAllocation"); ("advr", "AdvertisedRoute"); ("rpol", "RoutePolicy");
  ("noff", "NetworkOffering"); ("dns", "DNSRecord"); ("dnsz", "DNSZone"); ("vgw", "VPNGateway");
  ("cgw", "VPNCustomerGateway"); ("vpn", "VPNConnection"); ("zone", "Zone"); ("cls", "Cluster");
  ("host", "Host"); ("asn", "ASN"); ("k8s", "KubernetesCluster"); ("k8sn", "KubernetesNode");
  ("bms", "BaremetalServer"); ("prov", "Provision"); ("proj", "Project"); ("usr", "User");
  ("dom", "Domain"); ("role", "Role"); ("task", "Task"); ("evt", "Event"); ("tag", "Tag");
  ("mig", "Migration")].

Definition prefix_name (prefix : string) : option string :=
  snd <$> List.find (λ p, bool_decide (p.1 = prefix)) prefixMap.

(** [b] is the result of reading six random bytes, [None] when it fails. *)
Definition GenerateID (b : option (list Z)) (prefix : string) : string :=
  prefix +:+ String "-" (match b with Some b => EncodeToString b | None => "000000000000" end).

Definition ParseID (id : string) : option (string * string) :=
  match IndexByte id "-" with
  | Some idx =>
      if (idx =? 0)%nat || (str_len id - 1 <=? idx)%nat then None
      else Some (str_take idx id, str_drop (S idx) id)
  | None => None
  end.

Definition ResourceType (id : string) : string :=
  match ParseID id with
  | None => ""
  | Some (prefix, _) => default "" (prefix_name prefix)
  end.

Definition hex_rune (c : Z) : bool := in_ranges [(48, 57); (97, 102)] c.

Definition IsValidID (id : string) : bool :=
  match ParseID id with
  | None => false
  | Some (prefix, hex) =>
      match prefix_name prefix with
      | None => false
      | Some _ =>
          if (str_len hex <? 8)%nat || (16 <? str_len hex)%nat then false
          else forallb hex_rune (runes hex)
      end
  end.

(** [b] is the result of reading three random bytes. *)
Definition GenerateAutoName (b : option (list Z)) (prefix : string) : string :=
  prefix +:+ String "-" (match b with Some b => EncodeToString b | None => "000000" end).

(** ** Names *)

Inductive NameMode := ModeGeneral | ModeDNSSafe | ModeIdentifier.

Definition MaxNameLength : Z := 255.
Definition MaxDNSNameLength : Z := 63.
Definition MinNameLength : Z := 1.

Inductive name_error :=
| TooShort | ControlCharacter (r : Z) | Unsafe | TooLong | BadCharacters.

Definition lower : Z * Z := (97, 122).
Definition upper : Z * Z := (65, 90).
Definition decimal : Z * Z := (48, 57).
Definition one (c : Z) : Z * Z := (c, c).

Definition dns_end : Z → bool := in_ranges [lower; decimal].
Definition dns_inner : Z → bool := in_ranges [lower; decimal; one 45].

Definition reDNSSafe : regex := Cat (Class dns_end) (Cat (UpTo 61 (Class dns_inner)) (Class dns_end)).

Definition reIdentifier : regex :=
  Cat (Class (in_ranges [lower; upper]))
      (UpTo 62 (Class (in_ranges [lower; upper; decimal; one 95; one 46; one 45]))).

Section names.
Context {tables : RuneTables}.

Definition general_start (r : Z) : bool := IsLetter r || IsNumber r.

(** [\s] is space, tab, line feed, form feed and carriage return. *)
Definition general_rest (r : Z) : bool :=
  IsLetter r || IsNumber r
  || in_ranges [one 9; one 10; one 12; one 13; one 32; one 95; one 46; one 64; one 35; one 38;
                one 40; one 41; one 45] r.

Definition reGeneral : regex := Cat (Class general_start) (UpTo 254 (Class general_rest)).

(** [None] is the nil error. *)
Definition ValidateName (name : string) (mode : NameMode) : option name_error :=
  if RuneCountInString name <? MinNameLength then Some TooShort
  else
    match List.find IsControl (runes name) with
    | Some r => Some (ControlCharacter r)
    | None =>
        let lower := ToLower name in
        if str_contains lower "<script" || str_contains lower "javascript:" then Some Unsafe
        else
          match mode with
          | ModeGeneral =>
              if MaxNameLength <? RuneCountInString name then Some TooLong
              else if negb (match_all reGeneral name) then Some BadCharacters else None
          | ModeDNSSafe =>
              if MaxDNSNameLength <? Z.of_nat (str_len name) then Some TooLong
              else
                match name with
                | String c EmptyString =>
                    if byte_in "a" "z" c || byte_in "0" "9" c then None else Some BadCharacters
                | _ => if negb (match_all reDNSSafe name) then Some BadCharacters else None
                end
          | ModeIdentifier =>
              if MaxDNSNameLength <? Z.of_nat (str_len name) then Some TooLong
              else if negb (match_all reIdentifier name) then Some BadCharacters else None
          end
    end.

(** ** Slugs *)

(** The replacer maps single bytes to single bytes. *)
Definition separator (c : ascii) : ascii :=
  if bool_decide (c ∈ [" "; "_"; "."; "/"; "\"]%char) then "-"%char else c.

Definition slug_rune (r : Z) : bool := in_ranges [lower; decimal; one 45] r.

(** The loop that halves runs of hyphens until there are none. *)
Fixpoint collapse (fuel : nat) (slug : string) : string :=
  if str_contains slug "--" then
    match fuel with
    | O => slug
    | S fuel => collapse fuel (ReplaceAll slug "--" "-")
    end
  else slug.

(** [strings.TrimLeft] and [strings.TrimRight] of hyphens. *)
Fixpoint trim_left (s : string) : string :=
  match s with
  | String "-" s => trim_left s
  | s => s
  end.

Fixpoint trim_right (s : string) : string :=
  match s with
  | EmptyString => EmptyString
  | String c s =>
      match trim_right s with
      | EmptyString => if decide (c = "-"%char) then EmptyString else String c EmptyString
      | t => String c t
      end
  end.

Definition GenerateSlug (b : option (list Z)) (name : string) : string :=
  let slug := ToLower name in
  let slug := str_map separator slug in
  let slug := encode (filter (λ r, slug_rune r = true) (runes slug)) in
  let slug := collapse (str_len slug) slug in
  let slug := trim_right (trim_left slug) in
  let slug :=
    if MaxDNSNameLength <? Z.of_nat (str_len slug)
    then trim_right (str_take 63 slug) else slug in
  if decide (slug = "") then "res-" +:+ str_drop 1 (GenerateID b "") else slug.

(** ** Hexadecimal digits *)

Definition hex_char (c : ascii) : bool := hex_rune (byte_of c).

Lemma digit_char_hex d : 0 <= d < 16 → hex_char (digit_char d) = true.
Proof.
  intros Hd. assert (d ∈ seqZ 0 16) as Hin by (apply elem_of_seqZ; lia).
  clear Hd. revert d Hin. apply list.Forall_forall. by vm_compute; repeat constructor.
Qed.

Lemma EncodeToString_hex bs :
  Forall is_byte bs → str_forall hex_char (EncodeToString bs) = true.
Proof.
  induction 1 as [|b bs Hb Hbs IH]; [done|]. simpl. unfold is_byte in Hb.
  rewrite !digit_char_hex, IH; [done|..]; Z.div_mod_to_equations; lia.
Qed.

Lemma EncodeToString_len bs : str_len (EncodeToString bs) = (2 * length bs)%nat.
Proof. induction bs as [|b bs IH]; simpl; [done|]. rewrite IH. lia. Qed.

Definition random_bytes (n : nat) (b : option (list Z)) : Prop :=
  match b with Some b => length b = n ∧ Forall is_byte b | None => True end.

(** The part of a generated id after its prefix. *)
Definition id_digits (b : option (list Z)) : string := str_drop 1 (GenerateID b "").

Lemma id_digits_hex b : random_bytes 6 b →
  str_forall hex_char (id_digits b) = true ∧ str_len (id_digits b) = 12%nat.
Proof.
  destruct b as [b|]; [|by intros; vm_compute]. intros [Hl Hb].
  change (id_digits (Some b)) with (EncodeToString b).
  rewrite EncodeToString_len, Hl. auto using EncodeToString_hex.
Qed.

Lemma hex_ascii s : str_forall hex_char s = true → str_forall is_ascii s = true.
Proof.
  apply str_forall_mono. intros c. unfold hex_char, hex_rune, is_ascii, in_ranges. simpl.
  rewrite orb_false_r, orb_true_iff. intros [?|?]; zbool; apply Z.ltb_lt; lia.
Qed.

Lemma hex_no_hyphen s : str_forall hex_char s = true → str_mem "-" s = false.
Proof.
  induction s as [|c s IH]; [done|]. simpl. rewrite andb_true_iff. intros [Hc Hs].
  rewrite IH by done. rewrite orb_false_r. apply bool_decide_eq_false_2. by intros ->.
Qed.

(** ** Ids *)

(** The prefixes have no hyphen and are not empty. *)
Lemma prefix_shape prefix name :
  prefix_name prefix = Some name → str_mem "-" prefix = false ∧ prefix ≠ "" ∧ name ≠ "".
Proof.
  unfold prefix_name. destruct (List.find _ _) as [[p n]|] eqn:Hf; [|done]. intros [= <-].
  apply List.find_some in Hf as [Hin Hp]. simpl in Hp. zbool. subst p.
  assert (forallb (λ p, negb (str_mem "-" p.1) && negb (bool_decide (p.1 = ""))
    && negb (bool_decide (p.2 = ""))) prefixMap = true) as H by (by vm_compute).
  rewrite forallb_forall in H. specialize (H _ Hin). simpl in H. by zbool.
Qed.

Lemma ParseID_cut id prefix hex :
  ParseID id = Some (prefix, hex) ↔
  id = prefix +:+ String "-" hex ∧ str_mem "-" prefix = false ∧ prefix ≠ "" ∧ hex ≠ "".
Proof.
  unfold ParseID. rewrite IndexByte_cut. destruct (str_cut "-" id) as [[l r]|] eqn:Hc; simpl.
  - destruct (str_cut_take_drop _ _ _ _ Hc) as [Ht Hd]. rewrite Ht, Hd.
    apply str_cut_Some in Hc as [-> Hm]. rewrite str_len_app. simpl.
    assert ((str_len l =? 0)%nat = bool_decide (l = "")) as ->.
    { by destruct l. }
    assert ((str_len l + S (str_len r) - 1 <=? str_len l)%nat = bool_decide (r = "")) as ->.
    { destruct r; [apply Nat.leb_le|apply Nat.leb_gt]; simpl; lia. }
    split.
    + intros H. case_hyp H; zbool; by simplify_eq.
    + intros (E & Hm' & Hp & Hh). apply (f_equal (str_cut "-")) in E.
      rewrite !str_cut_app in E by done. simplify_eq.
      by rewrite !bool_decide_eq_false_2.
  - split; [done|]. intros (-> & Hm & _). by rewrite str_cut_app in Hc.
Qed.

(** An id generated with a known prefix is valid, gives back the prefix and the
    digits, and names its resource type. *)
Theorem generated_id_valid b prefix name :
  random_bytes 6 b → prefix_name prefix = Some name →
  ParseID (GenerateID b prefix) = Some (prefix, id_digits b) ∧
  IsValidID (GenerateID b prefix) = true ∧ ResourceType (GenerateID b prefix) = name.
Proof.
  intros Hb Hn. destruct (prefix_shape _ _ Hn) as (Hm & Hp & _).
  destruct (id_digits_hex _ Hb) as [Hhex Hlen].
  assert (ParseID (GenerateID b prefix) = Some (prefix, id_digits b)) as Hparse.
  { apply ParseID_cut. split_and!; try done. intros E. by rewrite E in Hlen. }
  unfold IsValidID, ResourceType. rewrite Hparse, Hn, Hlen. split_and!; [done| |done]. simpl.
  rewrite runes_ascii by (by apply hex_ascii).
  apply forallb_forall. apply (str_forall_bytes hex_rune) in Hhex.
  by apply List.Forall_forall.
Qed.

(** ** Slugs *)

Definition slug_char (c : ascii) : bool := slug_rune (byte_of c).

(** Whether the last byte is a hyphen. *)
Fixpoint ends (s : string) : bool :=
  match s with
  | EmptyString => false
  | String c EmptyString => bool_decide (c = "-"%char)
  | String _ s => ends s
  end.

Definition is_slug (s : string) : Prop :=
  str_forall slug_char s = true ∧ str_contains s "--" = false ∧ s ≠ "" ∧
  (str_len s <= 63)%nat ∧ HasPrefix s "-" = false ∧ ends s = false.

(** *** Collapsing *)

(** Induction on a string by one byte, or by a pair of hyphens. *)
Lemma hyphens_ind (P : string → Prop) :
  P "" → (∀ s, P s → P (String "-" (String "-" s))) →
  (∀ c s, HasPrefix (String c s) "--" = false → P s → P (String c s)) → ∀ s, P s.
Proof.
  intros H0 H2 H1 s. remember (str_len s) as n eqn:Hn. revert s Hn.
  induction (lt_wf n) as [n _ IH]. intros [|c s] ->; [done|].
  destruct (HasPrefix (String c s) "--") eqn:Hp.
  - apply HasPrefix_spec in Hp as [t E]. rewrite E. apply H2.
    eapply (IH (str_len t)); [|done]. rewrite E, str_len_app. simpl. lia.
  - apply H1; [done|]. eapply IH; [|done]. simpl. lia.
Qed.

Lemma ReplaceAll_hyphens s :
  ReplaceAll (String "-" (String "-" s)) "--" "-" = String "-" (ReplaceAll s "--" "-").
Proof. done. Qed.

Lemma ReplaceAll_other c s :
  HasPrefix (String c s) "--" = false →
  ReplaceAll (String c s) "--" "-" = String c (ReplaceAll s "--" "-").
Proof. intros H. unfold ReplaceAll. cbn [replace_from]. by rewrite H. Qed.

Lemma ReplaceAll_slug s :
  str_forall slug_char s = true → str_forall slug_char (ReplaceAll s "--" "-") = true.
Proof.
  induction s as [|s IH|c s Hp IH] using hyphens_ind; [done|..].
  - rewrite ReplaceAll_hyphens. auto.
  - rewrite ReplaceAll_other by done. cbn [str_forall]. rewrite !andb_true_iff. naive_solver.
Qed.

Lemma ReplaceAll_len s :
  (str_len (ReplaceAll s "--" "-") <= str_len s)%nat ∧
  (str_contains s "--" = true → (str_len (ReplaceAll s "--" "-") < str_len s)%nat).
Proof.
  induction s as [|s IH|c s Hp IH] using hyphens_ind; [done|..].
  - rewrite ReplaceAll_hyphens. cbn [str_len]. lia.
  - rewrite ReplaceAll_other by done. cbn [str_len str_contains]. rewrite Hp. simpl.
    destruct IH as [IH1 IH2]. split; [lia|]. intros H. specialize (IH2 H). lia.
Qed.

(** The loop ends after at most as many rounds as there are bytes. *)
Lemma collapse_done fuel s :
  (str_len s <= fuel)%nat → str_contains (collapse fuel s) "--" = false.
Proof.
  revert s. induction fuel as [|fuel IH]; intros s Hs; simpl.
  - destruct s; [done|simpl in Hs; lia].
  - destruct (str_contains s "--") eqn:E; [|done]. apply IH.
    destruct (ReplaceAll_len s) as [_ H]. specialize (H E). lia.
Qed.

Lemma collapse_slug fuel s :
  str_forall slug_char s = true → str_forall slug_char (collapse fuel s) = true.
Proof.
  revert s. induction fuel as [|fuel IH]; intros s Hs; simpl; case_goal; auto using ReplaceAll_slug.
Qed.

(** *** Trimming *)

Lemma trim_left_suffix s :
  (∃ a, s = a +:+ trim_left s) ∧ HasPrefix (trim_left s) "-" = false.
Proof.
  induction s as [|c s [[a IH] Hp]]; [split; [by exists ""|done]|].
  destruct (decide (c = "-"%char)) as [->|Hc].
  - split; [|done]. exists (String "-" a). rewrite str_app_cons. cbn [trim_left]. by rewrite <- IH.
  - assert (trim_left (String c s) = String c s) as ->.
    { simpl. repeat match goal with |- context [match ?b with _ => _ end] => destruct b; try done end. }
    split; [by exists ""|]. simpl. by rewrite bool_decide_eq_false_2 by congruence.
Qed.

Lemma trim_right_prefix s :
  (∃ b, s = trim_right s +:+ b) ∧ ends (trim_right s) = false.
Proof.
  induction s as [|c s [[b IH] He]]; [split; [by exists ""|done]|]. simpl.
  destruct (trim_right s) as [|d t] eqn:Ht.
  - case_decide as Hc; [split; [by eexists|done]|].
    split; [exists s; done|]. simpl. by rewrite bool_decide_eq_false_2.
  - split; [|done]. exists b. rewrite str_app_cons. by rewrite <- IH.
Qed.

Lemma trim_right_id s : ends s = false → trim_right s = s.
Proof.
  induction s as [|c s IH]; [done|]. intros He. simpl. destruct s as [|d t].
  - simpl in He. zbool. by rewrite decide_False.
  - rewrite IH by done. done.
Qed.

(** A prefix of a string without double hyphens and without one in front. *)
Definition clean (s : string) : Prop :=
  str_forall slug_char s = true ∧ str_contains s "--" = false ∧ HasPrefix s "-" = false.

Lemma clean_prefix s t b : clean s → s = t +:+ b → clean t.
Proof.
  intros (Hf & Hc & Hp) ->. rewrite str_forall_app in Hf. apply andb_true_iff in Hf as [Hf _].
  split_and!; [done| |].
  - by apply (str_contains_sub "" t b).
  - destruct t; [done|]. simpl in Hp |- *. done.
Qed.

(** *** The slug of a name *)

Lemma slug_rune_range r : slug_rune r = true → (97 <= r <= 122) ∨ (48 <= r <= 57) ∨ r = 45.
Proof.
  unfold slug_rune, in_ranges. simpl. rewrite !orb_true_iff.
  intros [?|[?|[?|?]]]; zbool; auto with lia; done.
Qed.

Lemma slug_ascii s : str_forall slug_char s = true → str_forall is_ascii s = true.
Proof.
  apply str_forall_mono. intros c Hc. apply slug_rune_range in Hc. apply Z.ltb_lt. lia.
Qed.

Lemma kept_slug rs :
  str_forall slug_char (encode (filter (λ r, slug_rune r = true) rs)) = true.
Proof.
  apply (str_forall_bytes slug_rune). rewrite bytes_of_encode.
  - apply list.Forall_forall. intros r Hr. by apply list_elem_of_filter in Hr as [? _].
  - apply list.Forall_forall. intros r Hr. apply list_elem_of_filter in Hr as [Hr _].
    apply slug_rune_range in Hr. lia.
Qed.

Lemma hex_slug x : str_forall hex_char x = true → str_len x = 12%nat → is_slug ("res-" +:+ x).
Proof.
  intros Hx Hl. pose proof (hex_no_hyphen _ Hx) as Hm.
  assert (∀ s, str_mem "-" s = false → str_contains s "--" = false) as Hc.
  { induction s as [|c s IH]; [done|]. cbn [str_mem str_contains HasPrefix].
    intros [Hc Hs]%orb_false_iff. rewrite IH by done. zbool.
    by rewrite bool_decide_eq_false_2 by congruence. }
  assert (∀ s, str_mem "-" s = false → ends s = false) as He.
  { induction s as [|c s IH]; [done|]. cbn [str_mem]. intros [Hd Hs]%orb_false_iff. zbool.
    destruct s; [by apply bool_decide_eq_false_2|by apply IH]. }
  destruct x as [|d x]; [done|]. split_and!.
  - rewrite str_forall_app. apply andb_true_iff. split; [done|]. revert Hx. apply str_forall_mono.
    intros c. unfold hex_char, slug_char, hex_rune, slug_rune, in_ranges. simpl.
    rewrite !orb_true_iff. intros [?|[?|?]]; zbool; try done; zdecide; auto.
  - pose proof (Hc _ Hm) as Hd. cbn [str_mem] in Hm. zbool.
    change ("res-" +:+ String d x)
      with (String "r" (String "e" (String "s" (String "-" (String d x))))).
    cbn [str_contains] in Hd |- *. rewrite Hd. simpl.
    by rewrite (bool_decide_eq_false_2 ("-"%char = d)) by congruence.
  - done.
  - rewrite str_len_app, Hl. simpl. lia.
  - done.
  - by apply (He (String d x)).
Qed.

Lemma GenerateSlug_slug b name : random_bytes 6 b → is_slug (GenerateSlug b name).
Proof.
  intros Hb. unfold GenerateSlug. cbv zeta. set (kept := encode _).
  set (col := collapse _ _).
  assert (clean (trim_left col)) as Hl.
  { destruct (trim_left_suffix col) as [[a E] Hp].
    assert (str_forall slug_char col = true) as Hf by apply collapse_slug, kept_slug.
    assert (str_contains col "--" = false) as Hc by by apply collapse_done.
    rewrite E in Hf, Hc. rewrite str_forall_app in Hf. apply andb_true_iff in Hf as [_ Hf].
    split_and!; [done| |done]. apply (str_contains_sub a _ ""). by rewrite str_app_nil_r. }
  destruct (trim_right_prefix (trim_left col)) as [[t E] He].
  pose proof (clean_prefix _ _ _ Hl E) as Hr. set (s := trim_right _) in *.
  set (s' := if _ <? _ then _ else s).
  assert (clean s' ∧ (str_len s' <= 63)%nat ∧ ends s' = false) as ((Hf & Hc & Hp) & Hlen & He').
  { subst s'. unfold MaxDNSNameLength. destruct (_ <? _) eqn:Hlt; zbool.
    - destruct (trim_right_prefix (str_take 63 s)) as [[u Eu] Heu].
      assert (clean (str_take 63 s)) as Ht.
      { apply (clean_prefix s _ (str_drop 63 s)); [done|]. by rewrite str_take_drop. }
      split_and!; [by eapply clean_prefix| |done].
      apply (f_equal str_len) in Eu. rewrite str_len_app, str_take_len in Eu; lia.
    - split_and!; [done|lia|done]. }
  case_decide as Hs; [|done]. destruct (id_digits_hex b Hb). by apply hex_slug.
Qed.

Lemma slug_lower s : is_slug s → ToLower s = s.
Proof.
  intros (Hf & _). apply ToLower_ascii; [by apply slug_ascii|].
  apply (str_forall_bytes slug_rune) in Hf. apply (list.Forall_impl _ _ _ Hf).
  intros r Hr%slug_rune_range. lia.
Qed.

Lemma slug_map s : str_forall slug_char s = true → str_map separator s = s.
Proof.
  induction s as [|c s IH]; [done|]. simpl. rewrite andb_true_iff. intros [Hc Hs].
  rewrite IH by done. f_equal. unfold separator. case_bool_decide as Hin; [|done].
  rewrite !elem_of_cons, elem_of_nil in Hin. by destruct Hin as [->|[->|[->|[->|[->|[]]]]]].
Qed.

Lemma GenerateSlug_id b s : is_slug s → GenerateSlug b s = s.
Proof.
  intros Hs. pose proof (slug_lower s Hs) as Hlow. destruct Hs as (Hf & Hc & Hn & Hl & Hp & He).
  unfold GenerateSlug. cbv zeta. rewrite Hlow, slug_map, runes_ascii by auto using slug_ascii.
  rewrite (filter_all (λ r, slug_rune r = true)) by (by apply str_forall_bytes).
  rewrite encode_bytes by (by apply slug_ascii).
  assert (collapse (str_len s) s = s) as ->.
  { destruct (str_len s); simpl; by rewrite Hc. }
  assert (trim_left s = s) as ->.
  { destruct (trim_left_suffix s) as [[[|c a] E] _]; [by rewrite str_app_nil_l in E|].
    destruct s as [|d s]; [done|]. simpl in Hp. rewrite andb_true_r in Hp. zbool.
    simpl. repeat match goal with |- context [match ?b with _ => _ end] => destruct b; try done end. }
  rewrite trim_right_id by done. unfold MaxDNSNameLength. zdecide. by rewrite decide_False.
Qed.

(** *** Slugs are DNS names *)

Lemma not_contains c s sub :
  str_mem c sub = true → str_mem c s = false → str_contains s sub = false.
Proof.
  intros Hsub Hs. apply not_true_iff_false. intros (a & b & ->)%str_contains_spec.
  rewrite !str_mem_app, Hsub in Hs. by rewrite orb_true_r in Hs.
Qed.

Lemma slug_without c s :
  slug_char c = false → str_forall slug_char s = true → str_mem c s = false.
Proof.
  intros Hc. induction s as [|d s IH]; [done|]. simpl. rewrite andb_true_iff. intros [Hd Hs].
  rewrite IH, orb_false_r by done. apply bool_decide_eq_false_2. congruence.
Qed.

Lemma ends_last s c : ends (s +:+ String c "") = bool_decide (c = "-"%char).
Proof.
  induction s as [|d s IH]; [done|]. rewrite str_app_cons. rewrite <- IH.
  by destruct s.
Qed.

Lemma last_byte s : s ≠ "" → ∃ t c, s = t +:+ String c "".
Proof.
  induction s as [|d s IH]; [done|]. intros _. destruct s as [|e s]; [by exists "", d|].
  destruct IH as (t & c & E); [done|]. exists (String d t), c. rewrite str_app_cons. by rewrite <- E.
Qed.

Lemma slug_end c : slug_char c = true → c ≠ "-"%char → dns_end (byte_of c) = true.
Proof.
  intros Hc Hne. apply slug_rune_range in Hc. unfold dns_end, in_ranges. simpl.
  assert (byte_of c ≠ 45).
  { contradict Hne. rewrite <- (chr_byte_of c), Hne. done. }
  rewrite orb_false_r, orb_true_iff. destruct Hc as [?|[?|?]]; [left|right|done]; zdecide; done.
Qed.

Lemma slug_matches s :
  is_slug s → (2 <= str_len s)%nat → match_all reDNSSafe s = true.
Proof.
  intros (Hf & _ & Hn & Hl & Hp & He) H2. unfold match_all.
  rewrite matches_lang, runes_ascii by (by apply slug_ascii).
  destruct s as [|c s]; [done|]. simpl in H2.
  destruct (last_byte s) as (t & d & ->); [by destruct s; [simpl in H2; lia|]|].
  change (String c (t +:+ String d "")) with (String c "" +:+ (t +:+ String d "")) in Hf, He.
  rewrite !str_forall_app in Hf. simpl in Hf. rewrite !andb_true_r in Hf. apply andb_true_iff in Hf as [Hc Hf].
  apply andb_true_iff in Hf as [Ht Hd].
  rewrite <- str_app_assoc, ends_last in He. simpl in Hp. rewrite andb_true_r in Hp. zbool.
  cbn [bytes_of]. rewrite bytes_of_app. cbn [bytes_of].
  unfold reDNSSafe. rewrite lang_class_cat. eexists _, _. split; [done|].
  split; [by apply slug_end|]. rewrite lang_cat_inv. eexists _, _. split; [done|].
  rewrite lang_upto_class, lang_class_inv. split; [split|].
  - rewrite length_bytes_of. simpl in Hl. rewrite str_len_app in Hl. simpl in Hl. lia.
  - by apply (str_forall_bytes slug_rune) in Ht.
  - exists (byte_of d). split; [done|]. by apply slug_end.
Qed.

Lemma slug_name s : is_slug s → ValidateName s ModeDNSSafe = None.
Proof.
  intros Hs. pose proof (slug_lower s Hs) as Hlow. pose proof Hs as (Hf & _ & Hn & Hl & Hp & He).
  unfold ValidateName, RuneCountInString, MinNameLength, MaxDNSNameLength.
  rewrite Hlow, runes_ascii by (by apply slug_ascii). rewrite length_bytes_of.
  assert (str_len s ≠ 0)%nat by (by destruct s).
  destruct (List.find IsControl (bytes_of s)) as [r|] eqn:Hfind.
  { apply List.find_some in Hfind as [Hin Hr]. apply (str_forall_bytes slug_rune) in Hf.
    rewrite List.Forall_forall in Hf. specialize (Hf r Hin). apply slug_rune_range in Hf.
    unfold IsControl in Hr. apply orb_true_iff in Hr as [?|?]; zbool; lia. }
  rewrite (not_contains "<"), (not_contains ":") by (done || by apply slug_without).
  zdecide. simpl. destruct s as [|c [|d s]]; [done| |].
  - simpl in Hf, He. rewrite andb_true_r in Hf. zbool. pose proof (slug_end c Hf He) as Hc.
    unfold dns_end, in_ranges in Hc. simpl in Hc. rewrite orb_false_r in Hc.
    assert (byte_in "a" "z" c || byte_in "0" "9" c = true) as -> by exact Hc. done.
  - rewrite slug_matches; [done|done|simpl; lia].
Qed.

(** Whatever the display name, the slug is a valid DNS name, and it is its own
    slug. *)
Theorem slug_is_dns_name b b' name :
  random_bytes 6 b →
  ValidateName (GenerateSlug b name) ModeDNSSafe = None ∧
  GenerateSlug b' (GenerateSlug b name) = GenerateSlug b name.
Proof.
  intros Hb. pose proof (GenerateSlug_slug b name Hb). auto using slug_name, GenerateSlug_id.
Qed.

(** ** General names *)

(** A valid general name has between 1 and 255 runes, and those in ASCII are
    letters, digits, spaces and [_.@#&()-]: in particular no angle bracket and no
    colon, so that the test for markup refuses nothing more. *)
Theorem general_name_runes name :
  ValidateName name ModeGeneral = None →
  1 <= RuneCountInString name <= 255 ∧
  Forall (λ r, r < 128 → in_ranges [lower; upper; decimal; one 32; one 95; one 46; one 64; one 35;
    one 38; one 40; one 41; one 45] r = true) (runes name).
Proof.
  unfold ValidateName, MinNameLength, MaxNameLength. intros H. case_hyp H; try done. zbool.
  split; [lia|].
  assert (Forall (λ r, general_rest r = true ∧ IsControl r = false ∧ 0 <= r) (runes name)) as Hr.
  { apply list.Forall_forall. intros r Hr. split_and!.
    - match goal with Hm : match_all reGeneral name = true |- _ =>
        apply matches_lang, lang_class_cat in Hm as (c & v & E & Hc & [_ Hv]%lang_upto_class) end.
      rewrite E in Hr. apply elem_of_cons in Hr as [->|Hr].
      + unfold general_start in Hc. unfold general_rest. by rewrite Hc.
      + rewrite list.Forall_forall in Hv. auto.
    - by eapply List.find_none; [|apply list_elem_of_In].
    - pose proof (runes_nonneg name) as Hn. rewrite list.Forall_forall in Hn. auto. }
  eapply list.Forall_impl; [exact Hr|]. intros r (Hg & Hc & Hn) Hlt. simpl in Hg, Hc.
  unfold general_rest in Hg. rewrite IsLetter_ascii, IsNumber_ascii in Hg by lia.
  unfold IsControl, in_ranges in *. simpl in *. repeat rewrite orb_true_iff in Hg.
  apply orb_false_iff in Hc as [Hc _]. repeat rewrite orb_true_iff. zbool.
  destruct_or? Hg; try (rewrite Hg; tauto).
  all: zbool; exfalso; apply not_true_iff_false in Hc; apply Hc; by zdecide.
Qed.
End names.

(** ** Witnesses *)

Lemma generated_id_valid_witness :
  IsValidID (GenerateID (Some [1; 2; 3; 4; 5; 255]) "vol") = true ∧
  ResourceType (GenerateID (Some [1; 2; 3; 4; 5; 255]) "vol") = "Volume".
Proof.
  destruct (generated_id_valid (Some [1; 2; 3; 4; 5; 255]) "vol" "Volume") as (_ & H1 & H2).
  - split; [done|]. repeat constructor; unfold is_byte; lia.
  - done.
  - by split.
Defined.

Lemma slug_is_dns_name_witness :
  GenerateSlug (tables := ascii_runes) None "Web  Server_01." = "web-server-01" ∧
  ValidateName (tables := ascii_runes)
    (GenerateSlug (tables := ascii_runes) None "Web  Server_01.") ModeDNSSafe = None.
Proof.
  split; [by vm_compute|].
  by apply (slug_is_dns_name (tables := ascii_runes) None None "Web  Server_01.").
Defined.

Lemma general_name_runes_witness :
  1 <= RuneCountInString "VM (prod) #1" <= 255.
Proof.
  apply (general_name_runes (tables := ascii_runes) "VM (prod) #1"). by vm_compute.
Defined.

