(* ===== verification/Security.v ===== *)
(** * Secrets of the configuration

    pkg/security/crypto.go and the use of it in pkg/database/database.go: the
    master key, the encrypted values of the configuration, and the credentials of
    the database. Random bytes, the environment and the key file are arguments.
    The theorems say that a value that was encrypted is decrypted to the same
    text, and what becomes of credentials. *)
From Stdlib Require Import Ascii.
From S2P Require Import Prelude GoStrings Utf8 NetIP Aes.
Local Open Scope Z_scope.

(** ** Bytes and text *)

Definition string_of (bs : list Z) : string := foldr (λ b s, String (chr b) s) "" bs.

(** [aes.NewCipher]. *)
Definition NewCipher (key : list Z) : result string (list Z → list Z) :=
  if decide (length key ∈ [16; 24; 32]%nat) then Ok (aes key)
  else Err "crypto/aes: invalid key size".

(** The nonce followed by the sealed text, as [gcm.Seal(nonce, nonce, ...)], with
    the nonce read from the source of random bytes. *)
Definition seal_with (key : list Z) (nonce : result string (list Z)) (plain : list Z)
    : result string (list Z) :=
  match NewCipher key with
  | Err e => Err e
  | Ok E =>
      match nonce with
      | Err e => Err e
      | Ok nonce => Ok (nonce ++ Seal E nonce plain)
      end
  end.

(** Taking it apart and opening it; [short] is the error for what is too short, and
    [wrap] comes before the error of a text that does not open. *)
Definition open_with (short wrap : string) (key data : list Z) : result string (list Z) :=
  match NewCipher key with
  | Err e => Err e
  | Ok E =>
      if (length data <? NonceSize)%nat then Err short
      else
        match Open E (take NonceSize data) (drop NonceSize data) with
        | Some plain => Ok plain
        | None => Err (wrap +:+ "cipher: message authentication failed")
        end
  end.

(** ** The operations *)

Definition DefaultMasterKeyPath : string := "/etc/vc-stack/master.key".

Definition GenerateMasterKey (rand : result string (list Z)) : result string string :=
  match rand with
  | Err e => Err ("generate master key: " +:+ e)
  | Ok key => Ok (b64_encode key)
  end.

Definition decoded (s : string) : result string (list Z) :=
  match b64_decode s with Some bs => Ok bs | None => Err "illegal base64 data" end.

(** [VC_MASTER_KEY] and the contents of files. *)
Definition GetMasterKey (env : string) (ReadFile : string → result string string)
    (keyPath : string) : result string (list Z) :=
  if decide (env ≠ "") then decoded (TrimSpace env)
  else
    let p := if decide (keyPath = "") then DefaultMasterKeyPath else keyPath in
    match ReadFile p with
    | Err e => Err ("read master key file " +:+ p +:+ ": " +:+ e)
    | Ok keyFile => decoded (TrimSpace keyFile)
    end.

Definition invalid_length : string := "invalid key length: must be 16, 24, or 32 bytes".

Definition key_length (key : list Z) : bool := bool_decide (length key ∈ [32; 16; 24]%nat).

Definition Encrypt (plain : string) (key : list Z) (nonce : result string (list Z))
    : result string string :=
  if negb (key_length key) then Err invalid_length
  else
    match seal_with key nonce (bytes_of plain) with
    | Err e => Err e
    | Ok ciphertext => Ok ("ENC(" +:+ b64_encode ciphertext +:+ ")")
    end.

Definition Decrypt (encrypted : string) (key : list Z) : result string string :=
  if negb (HasPrefix encrypted "ENC(") || negb (HasSuffix encrypted ")") then Ok encrypted
  else
    let encStr := str_take (str_len encrypted - 1 - 4) (str_drop 4 encrypted) in
    match b64_decode encStr with
    | None => Err "base64 decode: illegal base64 data"
    | Some data =>
        if negb (key_length key) then Err invalid_length
        else
          match open_with "malformed ciphertext" "decrypt: " key data with
          | Ok plain => Ok (string_of plain)
          | Err e => Err e
          end
    end.

(** The credentials in [database.New]: each that looks encrypted is replaced when
    it can be decrypted, and left otherwise. *)
Definition credential (key : list Z) (value : string) : string :=
  if HasPrefix value "ENC(" then
    match Decrypt value key with Ok dec => dec | Err _ => value end
  else value.

Definition credentials (env : string) (ReadFile : string → result string string)
    (username password : string) : string * string :=
  if HasPrefix username "ENC(" || HasPrefix password "ENC(" then
    match GetMasterKey env ReadFile "" with
    | Ok key =>
        if (16 <=? length key)%nat then (credential key username, credential key password)
        else (username, password)
    | Err _ => (username, password)
    end
  else (username, password).

Inductive LogLevel := Silent | LogError | Warn | Info.

Definition gormLogLevel `{RuneTables} (level : string) : LogLevel :=
  match ToLower level with
  | "silent" => Silent
  | "error" => LogError
  | "info" => Info
  | _ => Warn
  end.

(** ** Decrypting undoes encrypting *)

Lemma string_of_bytes s : string_of (bytes_of s) = s.
Proof. induction s as [|c s IH]; simpl; [done|]. by rewrite chr_byte_of, IH. Qed.

Lemma bytes_of_bytes s : Forall is_byte (bytes_of s).
Proof. apply (list.Forall_impl _ _ _ (bytes_of_range s)). done. Qed.

(** A nonce of the right size, read without error. *)
Definition good_nonce (nonce : result string (list Z)) : Prop :=
  match nonce with Ok n => bytes_n NonceSize n | Err _ => False end.

Definition good_key (key : list Z) : Prop :=
  length key ∈ [16; 24; 32]%nat ∧ Forall is_byte key.

Lemma good_key_aes key : good_key key →
  NewCipher key = Ok (aes key) ∧ ∀ b, bytes_n 16 b → bytes_n 16 (aes key b).
Proof.
  intros [Hl Hb]. unfold NewCipher. rewrite decide_True by done. split; [done|].
  intros b Hblock. rewrite !elem_of_cons, elem_of_nil in Hl.
  destruct Hl as [Hl|[Hl|[Hl|[]]]]; [apply (aes_block 4)|apply (aes_block 6)|apply (aes_block 8)];
    try done; lia.
Qed.

Lemma open_seal_with short wrap key nonce plain :
  good_key key → good_nonce nonce → Forall is_byte plain →
  ∃ data, seal_with key nonce plain = Ok data ∧ Forall is_byte data ∧
    open_with short wrap key data = Ok plain.
Proof.
  intros Hk Hn Hp. destruct nonce as [n|]; [|done]. simpl in Hn.
  destruct (good_key_aes key Hk) as [HE Hblock]. unfold seal_with, open_with. rewrite HE.
  eexists. split; [done|].
  destruct (Seal_n (aes key) Hblock n plain (length plain)) as [_ Hs]; [done|by split|].
  split; [apply Forall_app; split; [by destruct Hn|done]|].
  destruct Hn as [Hl Hb]. rewrite length_app, Hl.
  destruct (_ <? _)%nat eqn:Hlt; [apply Nat.ltb_lt in Hlt; lia|].
  rewrite take_app_length', drop_app_length', Open_Seal by done. done.
Qed.

(** What was sealed opens, whenever sealing succeeded. *)
Lemma sealed_opens short wrap key nonce plain data :
  Forall is_byte key → good_nonce nonce → Forall is_byte plain →
  seal_with key nonce plain = Ok data →
  good_key key ∧ Forall is_byte data ∧ open_with short wrap key data = Ok plain.
Proof.
  intros Hk Hn Hp Hs. assert (good_key key) as Hg.
  { split; [|done]. unfold seal_with, NewCipher in Hs. by case_decide. }
  destruct (open_seal_with short wrap key nonce plain Hg Hn Hp) as (d & Hs' & Hd & Ho).
  rewrite Hs in Hs'. by simplify_eq.
Qed.

(** A nonce that is read is good, one that is not makes sealing fail. *)
Lemma seal_with_nonce key nonce plain data :
  match nonce with Ok n => bytes_n NonceSize n | Err _ => True end →
  seal_with key nonce plain = Ok data → good_nonce nonce.
Proof. unfold seal_with. destruct nonce; [done|]. by destruct (NewCipher key). Qed.

Lemma encryption_undone plain key nonce :
  good_key key → good_nonce nonce →
  ∃ s, Encrypt plain key nonce = Ok s ∧ HasPrefix s "ENC(" = true ∧ Decrypt s key = Ok plain.
Proof.
  intros Hk Hn. assert (key_length key = true) as Hl.
  { destruct Hk as [Hl _]. apply bool_decide_eq_true_2. set_solver. }
  destruct (open_seal_with "malformed ciphertext" "decrypt: " key nonce (bytes_of plain) Hk Hn (bytes_of_bytes _))
    as (data & Hs & Hb & Ho).
  exists ("ENC(" +:+ b64_encode data +:+ ")").
  assert (HasPrefix ("ENC(" +:+ b64_encode data +:+ ")") "ENC(" = true) as Hp
    by (apply HasPrefix_spec; eauto).
  assert (HasSuffix ("ENC(" +:+ b64_encode data +:+ ")") ")" = true) as Hsuf.
  { apply HasSuffix_spec. exists ("ENC(" +:+ b64_encode data). by rewrite str_app_assoc. }
  unfold Encrypt, Decrypt. rewrite Hl, Hs, Hp, Hsuf. cbn [negb orb].
  split_and!; [done|done|]. rewrite (str_drop_app "ENC("), !str_len_app.
  replace (str_len "ENC(" + (str_len (b64_encode data) + str_len ")") - 1 - 4)%nat
    with (str_len (b64_encode data)) by (simpl; lia).
  rewrite str_take_app, b64_roundtrip by done. rewrite Ho. by rewrite string_of_bytes.
Qed.

(** C35: Every text that is encrypted under a key of 16, 24 or 32 bytes decrypts under
    the same key to itself, also when it looks encrypted already. *)
Theorem decrypt_encrypt plain key nonce :
  good_key key → good_nonce nonce →
  ∃ s, Encrypt plain key nonce = Ok s ∧ HasPrefix s "ENC(" = true ∧ Decrypt s key = Ok plain.
Proof. apply encryption_undone. Qed.

(** ** The master key and the credentials *)

Lemma b64_char_plain v : 0 <= v < 64 →
  is_ascii (b64_char v) = true ∧ IsSpace (byte_of (b64_char v)) = false.
Proof.
  intros Hv. assert (v ∈ seqZ 0 64) as Hin by (apply elem_of_seqZ; lia).
  assert (forallb (λ v, is_ascii (b64_char v) && negb (IsSpace (byte_of (b64_char v)))) (seqZ 0 64) = true)
    as H by (by vm_compute).
  rewrite forallb_elem in H. specialize (H v Hin). by zbool.
Qed.

Lemma b64_encode_plain bs : Forall is_byte bs →
  str_forall is_ascii (b64_encode bs) = true ∧
  Forall (λ r, IsSpace r = false) (bytes_of (b64_encode bs)).
Proof.
  assert (∀ v, 0 <= v < 64 → is_ascii (b64_char v) = true) as Ha by (intros; by apply b64_char_plain).
  assert (∀ v, 0 <= v < 64 → IsSpace (byte_of (b64_char v)) = false) as Hs by (intros; by apply b64_char_plain).
  induction bs as [|a|a b|a b c bs IH] using triples_ind; intros Hb; [by split|..];
    repeat (apply list.Forall_cons in Hb as [? Hb]); unfold is_byte in *;
    cbn [b64_encode str_forall bytes_of]; rewrite !Ha by (Z.div_mod_to_equations; lia);
    (split; [try done; by apply IH|]);
    repeat (constructor; [first [done | apply Hs; Z.div_mod_to_equations; lia]|]); [done|done|].
  by apply IH.
Qed.

Lemma b64_encode_trimmed bs : Forall is_byte bs → TrimSpace (b64_encode bs) = b64_encode bs.
Proof.
  intros Hb. destruct (b64_encode_plain bs Hb) as [Ha Hs].
  apply TrimSpace_id. by rewrite runes_ascii.
Qed.

(** A generated master key that is put in the environment is the key that is
    read. *)
Theorem master_key_read key ReadFile path :
  length key = 32%nat → Forall is_byte key →
  ∃ env, GenerateMasterKey (Ok key) = Ok env ∧ GetMasterKey env ReadFile path = Ok key.
Proof.
  intros Hl Hb. eexists. split; [done|]. unfold GetMasterKey.
  rewrite decide_True by (destruct key as [|? [|? [|? ?]]]; done).
  unfold decoded. by rewrite b64_encode_trimmed, b64_roundtrip.
Qed.

(** Credentials that were encrypted under the master key of the environment reach
    the database in the clear. *)
Theorem credentials_decrypted key ReadFile user pass n1 n2 :
  length key = 32%nat → Forall is_byte key → good_nonce n1 → good_nonce n2 →
  ∃ u p, Encrypt user key n1 = Ok u ∧ Encrypt pass key n2 = Ok p ∧
    credentials (b64_encode key) ReadFile u p = (user, pass).
Proof.
  intros Hl Hb Hn1 Hn2.
  assert (good_key key) as Hk by (split; [rewrite Hl; set_solver|done]).
  destruct (encryption_undone user key n1 Hk Hn1) as (u & Hu & Pu & Du).
  destruct (encryption_undone pass key n2 Hk Hn2) as (p & Hp & Pp & Dp).
  exists u, p. split_and!; [done..|]. unfold credentials, credential. rewrite Pu, Pp. cbn [orb].
  unfold GetMasterKey. rewrite decide_True by (destruct key as [|? [|? [|? ?]]]; done).
  unfold decoded. rewrite b64_encode_trimmed, b64_roundtrip, Hl by done. cbn [Nat.leb].
  by rewrite Du, Dp.
Qed.

Lemma decrypt_encrypt_witness :
  let key := seqZ 0 32 in
  ∃ s, Encrypt "s3cret" key (Ok (seqZ 100 12)) = Ok s ∧ HasPrefix s "ENC(" = true ∧
       Decrypt s key = Ok "s3cret".
Proof.
  intros key. apply decrypt_encrypt.
  - split; [vm_compute; set_solver|]. unfold key. apply list.Forall_forall.
    intros x [? ?]%elem_of_seqZ. unfold is_byte. lia.
  - split; [done|]. apply list.Forall_forall. intros x [? ?]%elem_of_seqZ. unfold is_byte. lia.
Defined.

Lemma master_key_read_witness :
  ∃ env, GenerateMasterKey (Ok (seqZ 0 32)) = Ok env ∧
    GetMasterKey env (λ _, Err "no such file") "" = Ok (seqZ 0 32).
Proof.
  apply master_key_read; [done|]. apply list.Forall_forall.
  intros x [? ?]%elem_of_seqZ. unfold is_byte. lia.
Defined.

Lemma credentials_decrypted_witness :
  ∃ u p, credentials (b64_encode (seqZ 0 32)) (λ _, Err "no such file") u p = ("vc", "pw").
Proof.
  assert (∀ n, 0 <= n < 100 → bytes_n 12 (seqZ n 12)) as Hn.
  { intros n Hn. split; [by rewrite length_seqZ|]. apply list.Forall_forall.
    intros x [? ?]%elem_of_seqZ. unfold is_byte. lia. }
  destruct (credentials_decrypted (seqZ 0 32) (λ _, Err "no such file") "vc" "pw"
    (Ok (seqZ 1 12)) (Ok (seqZ 2 12))) as (u & p & _ & _ & H).
  - done.
  - apply list.Forall_forall. intros x [? ?]%elem_of_seqZ. unfold is_byte. lia.
  - apply Hn. lia.
  - apply Hn. lia.
  - by exists u, p.
Defined.
