(* ===== verification/Kms.v ===== *)
(** * Key management

    internal/management/kms: secrets and encryption keys under a master key, and
    the encryption of data with them. Random bytes, new UUIDs, the clock and the
    outcome of database writes are arguments of the operations; rows that are
    soft-deleted stay in the tables. The theorems say that what a key encrypted it
    decrypts after any history that does not destroy it, that a stored secret
    without an expiry is returned as it was given and no longer once it is deleted,
    that no listing depends on the protected bytes, and what rotation, expiry and
    failing writes do. The operations and their histories run under one master key:
    the configured one, or, where [NewService] draws one because none is configured,
    one run of the service; [ephemeral_key_lost] shows what a restart then does. *)
From Stdlib Require Import Ascii.
From S2P Require Import Prelude GoStrings Utf8 NetIP Http GoTime Sha256 Aes Security.
Local Open Scope Z_scope.

(** ** Tables *)

(** The columns; the creator of a secret is never written. *)
Record Secret := mkSecret {
  s_ID : Z; s_UUID : string; s_Name : string; s_ProjectID : string; s_SecretType : string;
  s_Algorithm : string; s_BitLength : Z; s_Mode : string; s_Status : string;
  s_Expiration : option Z; s_ContentType : string; s_Payload : list Z; s_Description : string;
  s_CreatedAt : Z; s_UpdatedAt : Z; s_Deleted : bool
}.

Record EncryptionKey := mkKey {
  k_ID : Z; k_UUID : string; k_Name : string; k_ProjectID : string; k_Algorithm : string;
  k_BitLength : Z; k_Mode : string; k_Status : string; k_KeyMaterial : list Z;
  k_UsageCount : Z; k_Expiration : option Z; k_RotatedFrom : option Z; k_RotatedAt : option Z;
  k_Description : string; k_CreatedAt : Z; k_UpdatedAt : Z; k_Deleted : bool
}.

(** The rows in the order of their ids, and the next ids. *)
Record DB := mkDB {
  secrets : list Secret;
  keys : list EncryptionKey;
  next_secret : Z;
  next_key : Z
}.

(** A read of [n] random bytes, the [i]-th of a call. *)
Definition random : Type := nat → nat → result string (list Z).

(** ** Cryptography *)

Definition too_short : string := "kms: ciphertext too short".

Definition encryptInternal (masterKey : list Z) (nonce : result string (list Z)) (plaintext : list Z)
    : result string (list Z) := seal_with masterKey nonce plaintext.

Definition decryptInternal (masterKey ciphertext : list Z) : result string (list Z) :=
  open_with too_short "" masterKey ciphertext.

Definition encryptWithKey (keyMaterial : list Z) (nonce : result string (list Z))
    (plaintext : list Z) : result string (list Z) := seal_with keyMaterial nonce plaintext.

Definition decryptWithKey (keyMaterial ciphertext : list Z) : result string (list Z) :=
  open_with too_short "" keyMaterial ciphertext.

(** A slice of negative length panics. *)
Definition generateKeyMaterial (rand : nat → result string (list Z)) (bits : Z)
    : outcome (result string (list Z)) :=
  let bytes := Z.quot bits 8 in
  let bytes := if bytes =? 0 then 32 else bytes in
  if bytes <? 0 then Panics else Returns (rand (Z.to_nat bytes)).

Definition verifyCryptoRand (rand : nat → result string (list Z)) : option string :=
  match rand 1%nat with
  | Err e => Some ("kms: crypto/rand not available: " +:+ e)
  | Ok _ => None
  end.

(** The master key of a new service: the configured one, or one for this run. *)
Definition NewService (hasDB : bool) (masterKey : list Z) (rand : random) (migrate : option string)
    : result string (list Z) :=
  if negb hasDB then Err "kms: database is required"
  else
    match verifyCryptoRand (rand 0%nat) with
    | Some e => Err e
    | None =>
        let key :=
          if decide (masterKey = []) then
            match rand 1%nat 32%nat with
            | Err e => Err ("kms: generate ephemeral master key: " +:+ e)
            | Ok key => Ok key
            end
          else Ok masterKey in
        match key, migrate with
        | Err e, _ => Err e
        | Ok _, Some e => Err ("kms: migrate: " +:+ e)
        | Ok key, None => Ok key
        end
    end.

Definition GenerateSecret (rand : nat → result string (list Z)) (bits : Z)
    : outcome (result string string) :=
  let bits := if bits =? 0 then 256 else bits in
  let bytes := Z.quot bits 8 in
  if bytes <? 0 then Panics
  else
    match rand (Z.to_nat bytes) with
    | Err e => Returns (Err e)
    | Ok b => Returns (Ok (b64_encode b))
    end.

(** ** Rows *)

(** The live row with a numeric id, or with a UUID. *)
Definition named (id : Z) (uuid : string) (idStr : string) : bool :=
  match Atoi idStr with
  | Some n => n =? id
  | None => bool_decide (uuid = idStr)
  end.

Definition findSecret (db : DB) (idStr : string) : option Secret :=
  List.find (λ s, negb (s_Deleted s) && named (s_ID s) (s_UUID s) idStr) (secrets db).

Definition findKey (db : DB) (idStr : string) : option EncryptionKey :=
  List.find (λ k, negb (k_Deleted k) && named (k_ID k) (k_UUID k) idStr) (keys db).

Definition findKeyByUUID (db : DB) (uuid : string) : option EncryptionKey :=
  List.find (λ k, negb (k_Deleted k) && bool_decide (k_UUID k = uuid)) (keys db).

Definition on_secret (id : Z) (f : Secret → Secret) (db : DB) : DB :=
  mkDB ((λ s, if s_ID s =? id then f s else s) <$> secrets db) (keys db) (next_secret db) (next_key db).

Definition on_key (id : Z) (f : EncryptionKey → EncryptionKey) (db : DB) : DB :=
  mkDB (secrets db) ((λ k, if k_ID k =? id then f k else k) <$> keys db) (next_secret db) (next_key db).

(** [Create]: the row with the next id of the sequence. *)
Definition add_secret (s : Secret) (db : DB) : DB :=
  mkDB (secrets db ++ [s]) (keys db) (next_secret db + 1) (next_key db).

Definition add_key (k : EncryptionKey) (db : DB) : DB :=
  mkDB (secrets db) (keys db ++ [k]) (next_secret db) (next_key db + 1).

Definition used_once (k : EncryptionKey) : EncryptionKey :=
  mkKey (k_ID k) (k_UUID k) (k_Name k) (k_ProjectID k) (k_Algorithm k) (k_BitLength k) (k_Mode k)
    (k_Status k) (k_KeyMaterial k) (k_UsageCount k + 1) (k_Expiration k) (k_RotatedFrom k)
    (k_RotatedAt k) (k_Description k) (k_CreatedAt k) (k_UpdatedAt k) (k_Deleted k).

Definition with_status (now : Z) (status : string) (material : list Z) (k : EncryptionKey)
    : EncryptionKey :=
  mkKey (k_ID k) (k_UUID k) (k_Name k) (k_ProjectID k) (k_Algorithm k) (k_BitLength k) (k_Mode k)
    status material (k_UsageCount k) (k_Expiration k) (k_RotatedFrom k) (k_RotatedAt k)
    (k_Description k) (k_CreatedAt k) now (k_Deleted k).

Definition soft_deleted (k : EncryptionKey) : EncryptionKey :=
  mkKey (k_ID k) (k_UUID k) (k_Name k) (k_ProjectID k) (k_Algorithm k) (k_BitLength k) (k_Mode k)
    (k_Status k) (k_KeyMaterial k) (k_UsageCount k) (k_Expiration k) (k_RotatedFrom k)
    (k_RotatedAt k) (k_Description k) (k_CreatedAt k) (k_UpdatedAt k) true.

Definition destroyed_secret (now : Z) (s : Secret) : Secret :=
  mkSecret (s_ID s) (s_UUID s) (s_Name s) (s_ProjectID s) (s_SecretType s) (s_Algorithm s)
    (s_BitLength s) (s_Mode s) "destroyed" (s_Expiration s) (s_ContentType s) [] (s_Description s)
    (s_CreatedAt s) now (s_Deleted s).

Definition soft_deleted_secret (s : Secret) : Secret :=
  mkSecret (s_ID s) (s_UUID s) (s_Name s) (s_ProjectID s) (s_SecretType s) (s_Algorithm s)
    (s_BitLength s) (s_Mode s) (s_Status s) (s_Expiration s) (s_ContentType s) (s_Payload s)
    (s_Description s) (s_CreatedAt s) (s_UpdatedAt s) true.

(** ** Secrets *)

Section handlers.
Context {tables : RuneTables}.
Variable masterKey : list Z.

(** The rows in the order the database gives them for [created_at DESC]. *)
Variable newest_secrets : list Secret → list Secret.
Variable newest_keys : list EncryptionKey → list EncryptionKey.

(** [q.Where("column = ?", v)] when the parameter is given. *)
Definition given (v : string) (P : string → bool) : bool := bool_decide (v = "") || P v.

Definition secret_item (s : Secret) : json := JObj [
  ("id", JNum (s_ID s)); ("uuid", JStr (s_UUID s)); ("name", JStr (s_Name s));
  ("project_id", JStr (s_ProjectID s)); ("secret_type", JStr (s_SecretType s));
  ("algorithm", JStr (s_Algorithm s)); ("bit_length", JNum (s_BitLength s));
  ("mode", JStr (s_Mode s)); ("status", JStr (s_Status s));
  ("content_type", JStr (s_ContentType s)); ("description", JStr (s_Description s));
  ("expiration", JOpt JTime (s_Expiration s)); ("created_at", JTime (s_CreatedAt s));
  ("updated_at", JTime (s_UpdatedAt s))].

Definition listSecrets (err : option string) (name secret_type status project_id : string) (db : DB)
    : response :=
  match err with
  | Some e => error 500 e
  | None =>
      let rows := newest_secrets (filter (λ s, negb (s_Deleted s)
        && given name (λ n, Like ("%" +:+ n +:+ "%") (s_Name s))
        && given secret_type (λ t, bool_decide (s_SecretType s = t))
        && given status (λ t, bool_decide (s_Status s = t))
        && given project_id (λ t, bool_decide (s_ProjectID s = t)) = true) (secrets db)) in
      (200, JObj [("secrets", JList (secret_item <$> rows)); ("total", JNum (Z.of_nat (length rows)))])
  end.

Record SecretRequest := mkSecretRequest {
  r_Name : string; r_ProjectID : string; r_SecretType : string; r_Algorithm : string;
  r_BitLength : Z; r_Mode : string; r_ContentType : string; r_Payload : string;
  r_Expiration : string; r_Description : string
}.

Definition or_default (v d : string) : string := if decide (v = "") then d else v.

Definition valid_types : list string :=
  ["symmetric"; "public"; "private"; "passphrase"; "certificate"; "opaque"].

(** The payload of a new secret with its algorithm and length: what was given, a
    generated key for a symmetric one, or nothing. *)
Definition new_payload (rand : random) (req : SecretRequest) (secretType : string)
    : outcome (result response (list Z * string * Z)) :=
  if decide (r_Payload req ≠ "") then
    match b64_decode (r_Payload req) with
    | None => Returns (Err (error 400 "payload must be base64-encoded"))
    | Some raw =>
        match encryptInternal masterKey (rand 0%nat NonceSize) raw with
        | Err _ => Returns (Err (error 500 "failed to encrypt payload"))
        | Ok encrypted => Returns (Ok (encrypted, r_Algorithm req, r_BitLength req))
        end
    end
  else if decide (secretType = "symmetric") then
    let bits := if r_BitLength req =? 0 then 256 else r_BitLength req in
    match generateKeyMaterial (rand 1%nat) bits with
    | Panics => Panics
    | Returns (Err _) => Returns (Err (error 500 "failed to generate key material"))
    | Returns (Ok keyMaterial) =>
        match encryptInternal masterKey (rand 0%nat NonceSize) keyMaterial with
        | Err _ => Returns (Err (error 500 "failed to encrypt key material"))
        | Ok encrypted => Returns (Ok (encrypted, or_default (r_Algorithm req) "aes", bits))
        end
    end
  else Returns (Ok ([], r_Algorithm req, r_BitLength req)).

(** An expiry in RFC 3339 text, or none. *)
Definition parse_expiration (s : string) : option (option Z) :=
  if decide (s = "") then Some None
  else match ParseRFC3339 s with Some t => Some (Some (t_nanos t)) | None => None end.

Definition createSecret (now : Z) (uuid : string) (rand : random) (create : option string)
    (req : result string SecretRequest) (db : DB) : outcome (response * DB) :=
  match req with
  | Err e => Returns (error 400 e, db)
  | Ok req =>
      let secretType := or_default (r_SecretType req) "opaque" in
      let contentType := or_default (r_ContentType req) "application/octet-stream" in
      if negb (bool_decide (secretType ∈ valid_types)) then
        Returns (error 400 "invalid secret_type, must be: symmetric, public, private, passphrase, certificate, opaque", db)
      else
        match new_payload rand req secretType with
        | Panics => Panics
        | Returns (Err r) => Returns (r, db)
        | Returns (Ok (payload, algorithm, bits)) =>
            match parse_expiration (r_Expiration req) with
            | None => Returns (error 400 "expiration must be RFC3339 format", db)
            | Some expiration =>
                match create with
                | Some e => Returns (error 500 e, db)
                | None =>
                    let s := mkSecret (next_secret db) uuid (r_Name req) (r_ProjectID req) secretType
                      algorithm bits (r_Mode req) "active" expiration contentType payload
                      (r_Description req) now now false in
                    Returns ((201, JObj [("secret", JObj [
                      ("id", JNum (s_ID s)); ("uuid", JStr (s_UUID s)); ("name", JStr (s_Name s));
                      ("secret_type", JStr (s_SecretType s)); ("algorithm", JStr (s_Algorithm s));
                      ("bit_length", JNum (s_BitLength s)); ("status", JStr (s_Status s));
                      ("content_type", JStr (s_ContentType s)); ("description", JStr (s_Description s));
                      ("created_at", JTime (s_CreatedAt s))])]), add_secret s db)
                end
            end
        end
  end.

Definition getSecret (idStr : string) (db : DB) : response :=
  match findSecret db idStr with
  | None => error 404 "secret not found"
  | Some s =>
      (200, JObj [("secret", JObj [
        ("id", JNum (s_ID s)); ("uuid", JStr (s_UUID s)); ("name", JStr (s_Name s));
        ("project_id", JStr (s_ProjectID s)); ("secret_type", JStr (s_SecretType s));
        ("algorithm", JStr (s_Algorithm s)); ("bit_length", JNum (s_BitLength s));
        ("mode", JStr (s_Mode s)); ("status", JStr (s_Status s));
        ("content_type", JStr (s_ContentType s)); ("description", JStr (s_Description s));
        ("expiration", JOpt JTime (s_Expiration s));
        ("has_payload", JBool (negb (bool_decide (s_Payload s = []))));
        ("created_at", JTime (s_CreatedAt s)); ("updated_at", JTime (s_UpdatedAt s))])])
  end.

Definition getSecretPayload (idStr : string) (db : DB) : response :=
  match findSecret db idStr with
  | None => error 404 "secret not found"
  | Some s =>
      if decide (s_Status s ≠ "active") then error 403 "secret is not active"
      else if decide (s_Payload s = []) then error 404 "secret has no payload"
      else
        match decryptInternal masterKey (s_Payload s) with
        | Err _ => error 500 "failed to decrypt payload"
        | Ok plaintext =>
            (200, JObj [("uuid", JStr (s_UUID s)); ("payload", JStr (b64_encode plaintext))])
        end
  end.

(** The two writes of a deletion, whose errors are dropped: [wiped] and [deleted]
    tell whether they take effect. *)
Definition deleteSecret (now : Z) (wiped deleted : bool) (idStr : string) (db : DB) : response * DB :=
  match findSecret db idStr with
  | None => (error 404 "secret not found", db)
  | Some s =>
      let db := if wiped then on_secret (s_ID s) (destroyed_secret now) db else db in
      let db := if deleted then on_secret (s_ID s) soft_deleted_secret db else db in
      (message 200 "secret destroyed", db)
  end.

(** ** Keys *)

Definition key_item (k : EncryptionKey) : json := JObj [
  ("id", JNum (k_ID k)); ("uuid", JStr (k_UUID k)); ("name", JStr (k_Name k));
  ("project_id", JStr (k_ProjectID k)); ("algorithm", JStr (k_Algorithm k));
  ("bit_length", JNum (k_BitLength k)); ("mode", JStr (k_Mode k)); ("status", JStr (k_Status k));
  ("usage_count", JNum (k_UsageCount k)); ("rotated_from", JOpt JNum (k_RotatedFrom k));
  ("rotated_at", JOpt JTime (k_RotatedAt k)); ("description", JStr (k_Description k));
  ("expiration", JOpt JTime (k_Expiration k)); ("created_at", JTime (k_CreatedAt k));
  ("updated_at", JTime (k_UpdatedAt k))].

Definition listKeys (err : option string) (name status : string) (db : DB) : response :=
  match err with
  | Some e => error 500 e
  | None =>
      let rows := newest_keys (filter (λ k, negb (k_Deleted k)
        && given name (λ n, Like ("%" +:+ n +:+ "%") (k_Name k))
        && given status (λ t, bool_decide (k_Status k = t)) = true) (keys db)) in
      (200, JObj [("keys", JList (key_item <$> rows)); ("total", JNum (Z.of_nat (length rows)))])
  end.

Record KeyRequest := mkKeyRequest {
  kr_Name : string; kr_ProjectID : string; kr_Algorithm : string; kr_BitLength : Z;
  kr_Mode : string; kr_Expiration : string; kr_Description : string
}.

Definition created_key (k : EncryptionKey) : json := JObj [("key", JObj [
  ("id", JNum (k_ID k)); ("uuid", JStr (k_UUID k)); ("name", JStr (k_Name k));
  ("algorithm", JStr (k_Algorithm k)); ("bit_length", JNum (k_BitLength k));
  ("mode", JStr (k_Mode k)); ("status", JStr (k_Status k)); ("created_at", JTime (k_CreatedAt k))])].

Definition createKey (now : Z) (uuid : string) (rand : random) (create : option string)
    (req : result string KeyRequest) (db : DB) : outcome (response * DB) :=
  match req with
  | Err e => Returns (error 400 e, db)
  | Ok req =>
      let algorithm := or_default (kr_Algorithm req) "aes" in
      let bits := if kr_BitLength req =? 0 then 256 else kr_BitLength req in
      let mode := or_default (kr_Mode req) "gcm" in
      if decide (ToLower algorithm ≠ "aes") then
        Returns (error 400 ("unsupported algorithm: " +:+ algorithm +:+ " (supported: aes)"), db)
      else if negb (bool_decide (bits ∈ [128; 192; 256])) then
        Returns (error 400 ("invalid bit_length " +:+ Itoa bits +:+ " for " +:+ algorithm
                            +:+ " (supported: [128 192 256])"), db)
      else
        match generateKeyMaterial (rand 1%nat) bits with
        | Panics => Panics
        | Returns (Err _) => Returns (error 500 "failed to generate key material", db)
        | Returns (Ok keyMaterial) =>
            match encryptInternal masterKey (rand 0%nat NonceSize) keyMaterial with
            | Err _ => Returns (error 500 "failed to protect key material", db)
            | Ok encKey =>
                match parse_expiration (kr_Expiration req) with
                | None => Returns (error 400 "expiration must be RFC3339 format", db)
                | Some expiration =>
                    match create with
                    | Some e => Returns (error 500 e, db)
                    | None =>
                        let k := mkKey (next_key db) uuid (kr_Name req) (kr_ProjectID req)
                          (ToLower algorithm) bits (ToLower mode) "active" encKey 0 expiration
                          None None (kr_Description req) now now false in
                        Returns ((201, created_key k), add_key k db)
                    end
                end
            end
        end
  end.

Definition getKey (idStr : string) (db : DB) : response :=
  match findKey db idStr with
  | None => error 404 "encryption key not found"
  | Some k => (200, JObj [("key", key_item k)])
  end.

Definition deleteKey (now : Z) (wiped deleted : bool) (idStr : string) (db : DB) : response * DB :=
  match findKey db idStr with
  | None => (error 404 "encryption key not found", db)
  | Some k =>
      let db := if wiped then on_key (k_ID k) (with_status now "destroyed" []) db else db in
      let db := if deleted then on_key (k_ID k) soft_deleted db else db in
      (message 200 "key destroyed", db)
  end.

(** The old key is deactivated before the new one is written; [retired] tells
    whether that write takes effect, its error being dropped. *)
Definition rotateKey (now : Z) (uuid : string) (rand : random) (retired : bool)
    (create : option string) (idStr : string) (db : DB) : outcome (response * DB) :=
  match findKey db idStr with
  | None => Returns (error 404 "encryption key not found", db)
  | Some old =>
      if decide (k_Status old ≠ "active") then Returns (error 400 "can only rotate active keys", db)
      else
        match generateKeyMaterial (rand 1%nat) (k_BitLength old) with
        | Panics => Panics
        | Returns (Err _) => Returns (error 500 "failed to generate new key material", db)
        | Returns (Ok newMaterial) =>
            match encryptInternal masterKey (rand 0%nat NonceSize) newMaterial with
            | Err _ => Returns (error 500 "failed to protect new key material", db)
            | Ok encNewKey =>
                let new := mkKey (next_key db) uuid (k_Name old) (k_ProjectID old) (k_Algorithm old)
                  (k_BitLength old) (k_Mode old) "active" encNewKey 0 None (Some (k_ID old))
                  (Some now) ("Rotated from " +:+ k_UUID old) now now false in
                let db :=
                  if retired
                  then on_key (k_ID old) (λ k, with_status now "deactivated" (k_KeyMaterial k) k) db
                  else db in
                match create with
                | Some e => Returns (error 500 e, db)
                | None =>
                    Returns ((200, JObj [("message", JStr "key rotated"); ("old_key", JStr (k_UUID old));
                      ("new_key", JObj [("id", JNum (k_ID new)); ("uuid", JStr uuid);
                        ("name", JStr (k_Name new)); ("algorithm", JStr (k_Algorithm new));
                        ("bit_length", JNum (k_BitLength new)); ("status", JStr (k_Status new));
                        ("rotated_from", JNum (k_ID old))])]), add_key new db)
                end
            end
        end
  end.

(** ** Encryption of data *)

(** The counter of uses, written without a check. *)
Definition count_use (counted : bool) (k : EncryptionKey) (db : DB) : DB :=
  if counted then on_key (k_ID k) used_once db else db.

Definition encrypt (rand : random) (counted : bool) (req : result string (string * string)) (db : DB)
    : response * DB :=
  match req with
  | Err e => (error 400 e, db)
  | Ok (keyID, text) =>
      match findKey db keyID with
      | None => (error 404 "encryption key not found", db)
      | Some k =>
          if decide (k_Status k ≠ "active") then (error 400 "key is not active", db)
          else
            match decryptInternal masterKey (k_KeyMaterial k) with
            | Err _ => (error 500 "failed to access key material", db)
            | Ok keyMaterial =>
                match b64_decode text with
                | None => (error 400 "plaintext must be base64-encoded", db)
                | Some plaintext =>
                    match encryptWithKey keyMaterial (rand 0%nat NonceSize) plaintext with
                    | Err _ => (error 500 "encryption failed", db)
                    | Ok ciphertext =>
                        ((200, JObj [("key_id", JStr (k_UUID k));
                                     ("ciphertext", JStr (b64_encode ciphertext))]),
                         count_use counted k db)
                    end
                end
            end
      end
  end.

Definition decrypt (counted : bool) (req : result string (string * string)) (db : DB)
    : response * DB :=
  match req with
  | Err e => (error 400 e, db)
  | Ok (keyID, text) =>
      match findKey db keyID with
      | None => (error 404 "encryption key not found", db)
      | Some k =>
          if decide (k_Status k ≠ "active" ∧ k_Status k ≠ "deactivated")
          then (error 400 "key is not available for decryption", db)
          else
            match decryptInternal masterKey (k_KeyMaterial k) with
            | Err _ => (error 500 "failed to access key material", db)
            | Ok keyMaterial =>
                match b64_decode text with
                | None => (error 400 "ciphertext must be base64-encoded", db)
                | Some ciphertext =>
                    match decryptWithKey keyMaterial ciphertext with
                    | Err _ => (error 400 "decryption failed — invalid ciphertext or wrong key", db)
                    | Ok plaintext =>
                        ((200, JObj [("key_id", JStr (k_UUID k));
                                     ("plaintext", JStr (b64_encode plaintext))]),
                         count_use counted k db)
                    end
                end
            end
      end
  end.

(** The fingerprint slices the first eight bytes, which panics on a shorter key. *)
Definition generateDEK (rand : random) (counted : bool) (req : result string (string * Z)) (db : DB)
    : outcome (response * DB) :=
  match req with
  | Err e => Returns (error 400 e, db)
  | Ok (keyID, bitLength) =>
      match findKey db keyID with
      | None => Returns (error 404 "encryption key not found", db)
      | Some k =>
          if decide (k_Status k ≠ "active") then Returns (error 400 "key is not active", db)
          else
            let bits := if bitLength =? 0 then 256 else bitLength in
            match generateKeyMaterial (rand 1%nat) bits with
            | Panics => Panics
            | Returns (Err _) => Returns (error 500 "failed to generate DEK", db)
            | Returns (Ok dek) =>
                match decryptInternal masterKey (k_KeyMaterial k) with
                | Err _ => Returns (error 500 "failed to access key material", db)
                | Ok keyMaterial =>
                    match encryptWithKey keyMaterial (rand 0%nat NonceSize) dek with
                    | Err _ => Returns (error 500 "failed to wrap DEK", db)
                    | Ok wrapped =>
                        if (length dek <? 8)%nat then Panics
                        else
                          Returns ((200, JObj [("key_id", JStr (k_UUID k));
                            ("plaintext", JStr (b64_encode dek)); ("ciphertext", JStr (b64_encode wrapped));
                            ("bit_length", JNum bits); ("algorithm", JStr "aes");
                            ("key_id_hex", JStr (EncodeToString (take 8 dek)))]), count_use counted k db)
                    end
                end
            end
      end
  end.

Definition getStatus (db : DB) : response :=
  let count {A} (P : A → bool) (l : list A) : json := JNum (Z.of_nat (length (filter (λ x, P x = true) l))) in
  (200, JObj [("status", JStr "operational");
    ("master_key_loaded", JBool (negb (bool_decide (masterKey = []))));
    ("algorithm", JStr "AES-256-GCM");
    ("secrets_total", count (λ s, negb (s_Deleted s)) (secrets db));
    ("secrets_active", count (λ s, negb (s_Deleted s) && bool_decide (s_Status s = "active")) (secrets db));
    ("encryption_keys_total", count (λ k, negb (k_Deleted k)) (keys db));
    ("encryption_keys_active",
      count (λ k, negb (k_Deleted k) && bool_decide (k_Status k = "active")) (keys db))]).

(** *** For other services *)

Definition GetKeyMaterial (db : DB) (keyUUID : string) : result string (list Z) :=
  match findKeyByUUID db keyUUID with
  | None => Err ("key not found: " +:+ keyUUID)
  | Some k =>
      if decide (k_Status k ≠ "active" ∧ k_Status k ≠ "deactivated")
      then Err ("key " +:+ keyUUID +:+ " is " +:+ k_Status k)
      else decryptInternal masterKey (k_KeyMaterial k)
  end.

Definition EncryptData (rand : random) (counted : bool) (keyUUID : string) (data : list Z) (db : DB)
    : result string (list Z) * DB :=
  match findKeyByUUID db keyUUID with
  | None => (Err ("key not found: " +:+ keyUUID), db)
  | Some k =>
      match decryptInternal masterKey (k_KeyMaterial k) with
      | Err e => (Err ("access key material: " +:+ e), db)
      | Ok keyMaterial =>
          match encryptWithKey keyMaterial (rand 0%nat NonceSize) data with
          | Err e => (Err ("encrypt: " +:+ e), db)
          | Ok ciphertext => (Ok ciphertext, count_use counted k db)
          end
      end
  end.

Definition DecryptData (counted : bool) (keyUUID : string) (ciphertext : list Z) (db : DB)
    : result string (list Z) * DB :=
  match findKeyByUUID db keyUUID with
  | None => (Err ("key not found: " +:+ keyUUID), db)
  | Some k =>
      match decryptInternal masterKey (k_KeyMaterial k) with
      | Err e => (Err ("access key material: " +:+ e), db)
      | Ok keyMaterial =>
          match decryptWithKey keyMaterial ciphertext with
          | Err e => (Err ("decrypt: " +:+ e), db)
          | Ok plaintext => (Ok plaintext, count_use counted k db)
          end
      end
  end.

(** ** Histories *)

(** The calls that change the tables, with everything they depend on. *)
Inductive call :=
| CreateSecret (now : Z) (uuid : string) (rand : random) (create : option string)
    (req : result string SecretRequest)
| DeleteSecret (now : Z) (wiped deleted : bool) (id : string)
| CreateKey (now : Z) (uuid : string) (rand : random) (create : option string)
    (req : result string KeyRequest)
| DeleteKey (now : Z) (wiped deleted : bool) (id : string)
| RotateKey (now : Z) (uuid : string) (rand : random) (retired : bool) (create : option string)
    (id : string)
| Encrypting (rand : random) (counted : bool) (req : result string (string * string))
| Decrypting (counted : bool) (req : result string (string * string))
| GenerateDEK (rand : random) (counted : bool) (req : result string (string * Z))
| EncryptingData (rand : random) (counted : bool) (uuid : string) (data : list Z)
| DecryptingData (counted : bool) (uuid : string) (data : list Z).

(** The tables after a call; one that panics leaves them. *)
Definition after (db : DB) (o : outcome (response * DB)) : DB :=
  match o with Returns (_, db) => db | Panics => db end.

Definition perform (db : DB) (o : call) : DB :=
  match o with
  | CreateSecret now uuid rand create req => after db (createSecret now uuid rand create req db)
  | DeleteSecret now wiped deleted id => snd (deleteSecret now wiped deleted id db)
  | CreateKey now uuid rand create req => after db (createKey now uuid rand create req db)
  | DeleteKey now wiped deleted id => snd (deleteKey now wiped deleted id db)
  | RotateKey now uuid rand retired create id => after db (rotateKey now uuid rand retired create id db)
  | Encrypting rand counted req => snd (encrypt rand counted req db)
  | Decrypting counted req => snd (decrypt counted req db)
  | GenerateDEK rand counted req => after db (generateDEK rand counted req db)
  | EncryptingData rand counted uuid data => snd (EncryptData rand counted uuid data db)
  | DecryptingData counted uuid data => snd (DecryptData counted uuid data db)
  end.

Definition history (db : DB) (os : list call) : DB := foldl perform db os.

Definition empty : DB := mkDB [] [] 1 1.

(** The source of random bytes gives as many as it is asked for. *)
Definition good_random (rand : random) : Prop :=
  ∀ i n, match rand i n with Ok b => bytes_n n b | Err _ => True end.

Definition random_of (o : call) : option random :=
  match o with
  | CreateSecret _ _ r _ _ | CreateKey _ _ r _ _ | RotateKey _ _ r _ _ _ | Encrypting r _ _
  | GenerateDEK r _ _ | EncryptingData r _ _ _ => Some r
  | _ => None
  end.

Definition good_call (o : call) : Prop :=
  match random_of o with Some r => good_random r | None => True end.

(** *** How rows evolve *)

(** A key row keeps its identity, and its protected bytes until it is destroyed. *)
Definition key_evolves (k k' : EncryptionKey) : Prop :=
  k_ID k' = k_ID k ∧ k_UUID k' = k_UUID k ∧
  (k_Status k' = "destroyed" ∨ k_KeyMaterial k' = k_KeyMaterial k) ∧
  (k_Status k = "destroyed" → k_Status k' = "destroyed") ∧
  (k_Deleted k = true → k_Deleted k' = true).

Definition secret_evolves (s s' : Secret) : Prop :=
  s_ID s' = s_ID s ∧ s_UUID s' = s_UUID s ∧
  (s_Status s' = "destroyed" ∨ (s_Status s' = s_Status s ∧ s_Payload s' = s_Payload s)) ∧
  (s_Status s = "destroyed" → s_Status s' = "destroyed") ∧
  (s_Deleted s = true → s_Deleted s' = true).

(** Every row of [db] is in [db'], evolved, and what else is there has a new id. *)
Definition evolves (db db' : DB) : Prop :=
  (∀ k, k ∈ keys db → ∃ k', k' ∈ keys db' ∧ key_evolves k k') ∧
  (∀ k', k' ∈ keys db' → (∃ k, k ∈ keys db ∧ key_evolves k k') ∨ next_key db <= k_ID k') ∧
  (∀ s, s ∈ secrets db → ∃ s', s' ∈ secrets db' ∧ secret_evolves s s') ∧
  (∀ s', s' ∈ secrets db' → (∃ s, s ∈ secrets db ∧ secret_evolves s s') ∨ next_secret db <= s_ID s') ∧
  next_key db <= next_key db' ∧ next_secret db <= next_secret db'.

(** Keys have one of three states and of three lengths, and unless destroyed their
    material opens under the master key to a key of the cipher. *)
Definition key_ok (k : EncryptionKey) : Prop :=
  k_Status k ∈ ["active"; "deactivated"; "destroyed"] ∧ k_BitLength k ∈ [128; 192; 256] ∧
  (k_Status k ≠ "destroyed" →
   ∃ m, decryptInternal masterKey (k_KeyMaterial k) = Ok m ∧ good_key m).

Definition secret_ok (s : Secret) : Prop := s_Status s ∈ ["active"; "destroyed"].

Definition inv (db : DB) : Prop :=
  NoDup (k_ID <$> keys db) ∧ Forall (λ k, k_ID k < next_key db ∧ key_ok k) (keys db) ∧
  NoDup (s_ID <$> secrets db) ∧ Forall (λ s, s_ID s < next_secret db ∧ secret_ok s) (secrets db).

(** The single writes that the calls are made of. *)
Inductive move (db : DB) : DB → Prop :=
| move_used id : move db (on_key id used_once db)
| move_wiped id now : move db (on_key id (with_status now "destroyed" []) db)
| move_deleted id : move db (on_key id soft_deleted db)
| move_retired id now :
    (∀ k, k ∈ keys db → k_ID k = id → k_Status k = "active") →
    move db (on_key id (λ k, with_status now "deactivated" (k_KeyMaterial k) k) db)
| move_key k : k_ID k = next_key db → key_ok k → move db (add_key k db)
| move_secret_wiped id now : move db (on_secret id (destroyed_secret now) db)
| move_secret_deleted id : move db (on_secret id soft_deleted_secret db)
| move_secret s : s_ID s = next_secret db → secret_ok s → move db (add_secret s db).

Lemma key_evolves_refl k : key_evolves k k.
Proof. split_and!; auto. Qed.

Lemma key_evolves_trans k1 k2 k3 : key_evolves k1 k2 → key_evolves k2 k3 → key_evolves k1 k3.
Proof.
  intros (A1 & A2 & A3 & A4 & A5) (B1 & B2 & B3 & B4 & B5). split_and!; try congruence; auto.
  destruct B3 as [?|B3]; [by left|]. destruct A3 as [?|A3]; [left; auto|right; congruence].
Qed.

Lemma secret_evolves_refl s : secret_evolves s s.
Proof. split_and!; auto. Qed.

Lemma secret_evolves_trans s1 s2 s3 :
  secret_evolves s1 s2 → secret_evolves s2 s3 → secret_evolves s1 s3.
Proof.
  intros (A1 & A2 & A3 & A4 & A5) (B1 & B2 & B3 & B4 & B5). split_and!; try congruence; auto.
  destruct B3 as [?|[B3 B3']]; [by left|]. destruct A3 as [?|[A3 A3']]; [left; auto|right; split; congruence].
Qed.

#[local] Instance evolves_preorder : PreOrder evolves.
Proof.
  split.
  - intros db. split_and!; try lia; eauto using key_evolves_refl, secret_evolves_refl.
  - intros a b c (A1 & A2 & A3 & A4 & A5 & A6) (B1 & B2 & B3 & B4 & B5 & B6). split_and!; try lia.
    + intros k (k' & Hk' & E)%A1. destruct (B1 k' Hk') as (k'' & ? & ?).
      eauto using key_evolves_trans.
    + intros k'' [(k' & Hk' & E)|?]%B2; [|right; lia].
      destruct (A2 k' Hk') as [(k & ? & ?)|?]; [left; eauto using key_evolves_trans|].
      right. destruct E as [-> _]. lia.
    + intros s (s' & Hs' & E)%A3. destruct (B3 s' Hs') as (s'' & ? & ?).
      eauto using secret_evolves_trans.
    + intros s'' [(s' & Hs' & E)|?]%B4; [|right; lia].
      destruct (A4 s' Hs') as [(s & ? & ?)|?]; [left; eauto using secret_evolves_trans|].
      right. destruct E as [-> _]. lia.
Qed.

(** Updating the rows of one id. *)
Lemma on_key_evolves id f db :
  (∀ k, k ∈ keys db → k_ID k = id → key_evolves k (f k)) → evolves db (on_key id f db).
Proof.
  intros Hf. assert (∀ k, k ∈ keys db → key_evolves k (if k_ID k =? id then f k else k)) as H.
  { intros k Hk. destruct (_ =? _) eqn:E; zbool; auto using key_evolves_refl. }
  split_and!; simpl; try lia; eauto using secret_evolves_refl.
  - intros k Hk. eexists. split; [|by apply H]. apply list_elem_of_fmap. eauto.
  - intros k' (k & -> & Hk)%list_elem_of_fmap. left. eauto.
Qed.

Lemma on_secret_evolves id f db :
  (∀ s, s ∈ secrets db → s_ID s = id → secret_evolves s (f s)) → evolves db (on_secret id f db).
Proof.
  intros Hf. assert (∀ s, s ∈ secrets db → secret_evolves s (if s_ID s =? id then f s else s)) as H.
  { intros k Hk. destruct (_ =? _) eqn:E; zbool; auto using secret_evolves_refl. }
  split_and!; simpl; try lia; eauto using key_evolves_refl.
  - intros k Hk. eexists. split; [|by apply H]. apply list_elem_of_fmap. eauto.
  - intros k' (k & -> & Hk)%list_elem_of_fmap. left. eauto.
Qed.

Lemma move_evolves db db' : move db db' → evolves db db'.
Proof.
  destruct 1 as [id|id now|id|id now Ha|k Hk _|id now|id|s Hs _].
  1-4: apply on_key_evolves; intros k Hin Hid; split_and!; simpl; auto.
  - intros Hd. by rewrite Ha in Hd.
  - split_and!; simpl; try lia; eauto using secret_evolves_refl.
    + intros x Hx. exists x. split; [by apply elem_of_app; left|apply key_evolves_refl].
    + intros x [Hx|Hx]%elem_of_app; [left; eauto using key_evolves_refl|right].
      apply list_elem_of_singleton in Hx as ->. lia.
  - apply on_secret_evolves. intros s Hin Hid. split_and!; simpl; auto.
  - apply on_secret_evolves. intros s Hin Hid. split_and!; simpl; auto.
  - split_and!; simpl; try lia; eauto using key_evolves_refl.
    + intros x Hx. exists x. split; [by apply elem_of_app; left|apply secret_evolves_refl].
    + intros x [Hx|Hx]%elem_of_app; [left; eauto using secret_evolves_refl|right].
      apply list_elem_of_singleton in Hx as ->. lia.
Qed.

Lemma on_key_inv id f db :
  (∀ k, k_ID (f k) = k_ID k) → (∀ k, k ∈ keys db → k_ID k = id → key_ok k → key_ok (f k)) →
  inv db → inv (on_key id f db).
Proof.
  intros Hid Hok (N1 & F1 & N2 & F2). split_and!; simpl; try done.
  - rewrite <- list_fmap_compose. replace (k_ID ∘ _ <$> keys db) with (k_ID <$> keys db); [done|].
    apply list_fmap_ext. intros i k Hk. simpl. by destruct (_ =? _).
  - apply Forall_fmap, list.Forall_forall. intros k Hk. simpl. rewrite list.Forall_forall in F1.
    destruct (F1 k Hk) as [Hlt Hkok]. destruct (_ =? _) eqn:E; zbool; rewrite ?Hid; auto.
Qed.

Lemma on_secret_inv id f db :
  (∀ s, s_ID (f s) = s_ID s) → (∀ s, secret_ok s → secret_ok (f s)) → inv db → inv (on_secret id f db).
Proof.
  intros Hid Hok (N1 & F1 & N2 & F2). split_and!; simpl; try done.
  - rewrite <- list_fmap_compose. replace (s_ID ∘ _ <$> secrets db) with (s_ID <$> secrets db); [done|].
    apply list_fmap_ext. intros i s Hs. simpl. by destruct (_ =? _).
  - apply Forall_fmap, list.Forall_forall. intros s Hs. simpl. rewrite list.Forall_forall in F2.
    destruct (F2 s Hs) as [Hlt Hsok]. destruct (_ =? _) eqn:E; zbool; rewrite ?Hid; auto.
Qed.

Lemma fresh_id {A} (id : A → Z) (l : list A) x n :
  NoDup (id <$> l) → Forall (λ y, id y < n) l → id x = n → NoDup (id <$> l ++ [x]).
Proof.
  intros Hn Hl Hx. rewrite fmap_app. apply list.NoDup_app. split_and!; [done| |apply NoDup_singleton].
  intros i (y & -> & Hy)%list_elem_of_fmap Hi%list_elem_of_singleton.
  rewrite list.Forall_forall in Hl. specialize (Hl y Hy). lia.
Qed.

Lemma move_inv db db' : move db db' → inv db → inv db'.
Proof.
  intros Hm Hinv. destruct Hm as [id|id now|id|id now Ha|k Hk Hok|id now|id|s Hs Hok].
  - by apply on_key_inv.
  - apply on_key_inv; [done| |done]. intros k _ _ (_ & Hb & _). split_and!; [set_solver|done|done].
  - by apply on_key_inv.
  - apply on_key_inv; [done| |done]. intros k Hin Hid (_ & Hb & Hm). split_and!; [set_solver|done|].
    intros _. apply Hm. by rewrite (Ha k Hin Hid).
  - destruct Hinv as (N1 & F1 & N2 & F2). split_and!; simpl; [|apply Forall_app; split|done|done].
    + eapply fresh_id; [done| |done]. eapply list.Forall_impl; [exact F1|]. by intros ? [? _].
    + eapply list.Forall_impl; [exact F1|]. intros ? [? ?]. split; [lia|done].
    + constructor; [split; [lia|done]|constructor].
  - apply on_secret_inv; [done| |done]. intros s _. unfold secret_ok. simpl. set_solver.
  - by apply on_secret_inv.
  - destruct Hinv as (N1 & F1 & N2 & F2). split_and!; simpl; [done|done| |apply Forall_app; split].
    + eapply fresh_id; [done| |done]. eapply list.Forall_impl; [exact F2|]. by intros ? [? _].
    + eapply list.Forall_impl; [exact F2|]. intros ? [? ?]. split; [lia|done].
    + constructor; [split; [lia|done]|constructor].
Qed.

Lemma moves_inv db db' : rtc move db db' → inv db → inv db'.
Proof. induction 1; eauto using move_inv. Qed.

Lemma moves_evolve db db' : rtc move db db' → evolves db db'.
Proof. induction 1; [done|]. etrans; [by apply move_evolves|done]. Qed.

(** *** Calls are sequences of such writes *)

Hypothesis masterKey_bytes : Forall is_byte masterKey.

Lemma findKey_Some db id k :
  findKey db id = Some k → k ∈ keys db ∧ k_Deleted k = false ∧ named (k_ID k) (k_UUID k) id = true.
Proof.
  intros [Hin H]%List.find_some. zbool. split_and!; [by apply list_elem_of_In|done|done].
Qed.

Lemma key_unique db k k' : inv db → k ∈ keys db → k' ∈ keys db → k_ID k = k_ID k' → k = k'.
Proof.
  intros (N & _) Hk Hk' E. apply list_elem_of_lookup in Hk as [i Hi], Hk' as [j Hj].
  assert (i = j) as ->; [|congruence].
  eapply NoDup_lookup; [exact N|by rewrite list_lookup_fmap, Hi|by rewrite list_lookup_fmap, Hj, E].
Qed.

Lemma secret_unique db s s' : inv db → s ∈ secrets db → s' ∈ secrets db → s_ID s = s_ID s' → s = s'.
Proof.
  intros (_ & _ & N & _) Hk Hk' E. apply list_elem_of_lookup in Hk as [i Hi], Hk' as [j Hj].
  assert (i = j) as ->; [|congruence].
  eapply NoDup_lookup; [exact N|by rewrite list_lookup_fmap, Hi|by rewrite list_lookup_fmap, Hj, E].
Qed.

Lemma inv_key_ok db k : inv db → k ∈ keys db → key_ok k.
Proof. intros (_ & F & _) Hk. rewrite list.Forall_forall in F. by apply F. Qed.

(** New material of an allowed length, protected by the master key, opens. *)
Lemma new_material rand bits m enc :
  good_random rand → bits ∈ [128; 192; 256] →
  generateKeyMaterial (rand 1%nat) bits = Returns (Ok m) →
  encryptInternal masterKey (rand 0%nat NonceSize) m = Ok enc →
  decryptInternal masterKey enc = Ok m ∧ good_key m.
Proof.
  intros Hr Hb Hm He. unfold generateKeyMaterial in Hm.
  assert (good_key m) as Hg.
  { assert (∀ n, n ∈ [16; 24; 32]%nat → rand 1%nat n = Ok m → good_key m) as Hgood.
    { intros n Hn E. specialize (Hr 1%nat n). rewrite E in Hr. destruct Hr as [Hl Hf].
      split; [by rewrite Hl|done]. }
    rewrite !elem_of_cons, elem_of_nil in Hb.
    destruct Hb as [->|[->|[->|[]]]]; injection Hm as Hm; eapply Hgood; try exact Hm;
      rewrite !elem_of_cons; auto. }
  split; [|done]. pose proof (Hr 0%nat NonceSize) as Hn. pose proof (seal_with_nonce _ _ _ _ Hn He).
  by apply (sealed_opens _ _ _ _ _ _ masterKey_bytes H (proj2 Hg) He).
Qed.

Lemma count_use_moves counted k db : rtc move db (count_use counted k db).
Proof. destruct counted; [|done]. apply rtc_once. constructor. Qed.

Lemma createKey_moves now uuid rand create req db :
  good_random rand → rtc move db (after db (createKey now uuid rand create req db)).
Proof.
  intros Hr. unfold createKey. destruct req as [req|]; [|done]. cbv zeta.
  set (bits := if _ =? 0 then 256 else _).
  case_decide; [done|]. destruct (negb (bool_decide (bits ∈ _))) eqn:Hb; [done|]. zbool.
  destruct (generateKeyMaterial _ bits) as [[m|]|] eqn:Hm; try done.
  destruct (encryptInternal _ _ _) as [enc|] eqn:He; [|done].
  destruct (parse_expiration _); [|done]. destruct create; [done|]. simpl.
  apply rtc_once. apply move_key; [done|]. split_and!; simpl; [set_solver|done|].
  intros _. exists m. by eapply new_material.
Qed.

Lemma rotateKey_moves now uuid rand retired create id db :
  inv db → good_random rand → rtc move db (after db (rotateKey now uuid rand retired create id db)).
Proof.
  intros Hinv Hr. unfold rotateKey. destruct (findKey db id) as [old|] eqn:Hf; [|done].
  apply findKey_Some in Hf as (Hin & _ & _). case_decide as Hst; [done|].
  destruct (inv_key_ok _ _ Hinv Hin) as (_ & Hb & _).
  destruct (generateKeyMaterial _ _) as [[m|]|] eqn:Hm; try done.
  destruct (encryptInternal _ _ _) as [enc|] eqn:He; [|done]. cbv zeta.
  match goal with |- context [add_key ?k _] => set (new := k) end.
  set (db1 := if retired then _ else db).
  assert (rtc move db db1 ∧ next_key db1 = next_key db) as [Hm1 Hn].
  { subst db1. destruct retired; [|done]. split; [|done]. apply rtc_once. apply move_retired.
    intros k Hk E. rewrite (key_unique db k old) by done. by destruct (decide (k_Status old = "active")). }
  destruct create; [done|]. simpl. eapply rtc_r; [done|]. apply move_key; [by rewrite Hn|].
  split_and!; simpl; [set_solver|done|]. intros _. exists m. by eapply new_material.
Qed.

Lemma perform_moves o db : inv db → good_call o → rtc move db (perform db o).
Proof.
  intros Hinv Hg. destruct o as [now uuid rand create req|now wiped deleted id|now uuid rand create req
    |now wiped deleted id|now uuid rand retired create id|rand counted req|counted req|rand counted req
    |rand counted uuid data|counted uuid data]; simpl.
  - unfold createSecret. destruct req as [req|]; [|done]. cbv zeta. destruct (negb _); [done|].
    destruct (new_payload _ _ _) as [[[[p a] b]|]|]; try done.
    destruct (parse_expiration _); [|done]. destruct create; [done|]. simpl.
    apply rtc_once. apply move_secret; [done|]. unfold secret_ok. simpl. set_solver.
  - unfold deleteSecret. destruct (findSecret db id) as [s|]; [|done].
    cbv zeta. simpl. trans (if wiped then on_secret (s_ID s) (destroyed_secret now) db else db);
      [destruct wiped|destruct deleted]; try done; apply rtc_once; constructor.
  - by apply createKey_moves.
  - unfold deleteKey. destruct (findKey db id) as [k|]; [|done].
    cbv zeta. simpl. trans (if wiped then on_key (k_ID k) (with_status now "destroyed" []) db else db);
      [destruct wiped|destruct deleted]; try done; apply rtc_once; constructor.
  - by apply rotateKey_moves.
  - unfold encrypt. case_goal; try done; apply count_use_moves.
  - unfold decrypt. case_goal; try done; apply count_use_moves.
  - unfold generateDEK. case_goal; try done; apply count_use_moves.
  - unfold EncryptData. case_goal; try done; apply count_use_moves.
  - unfold DecryptData. case_goal; try done; apply count_use_moves.
Qed.

Lemma history_moves os db :
  inv db → Forall good_call os → rtc move db (history db os) ∧ inv (history db os).
Proof.
  intros Hinv Hos. revert db Hinv. induction Hos as [|o os Ho Hos IH]; intros db Hinv; [done|].
  simpl. pose proof (perform_moves o db Hinv Ho) as Hm. pose proof (moves_inv _ _ Hm Hinv) as Hinv'.
  destruct (IH _ Hinv') as [Hm' ?]. split; [by etrans|done].
Qed.

Lemma inv_empty : inv empty.
Proof. split_and!; simpl; constructor. Qed.

(** *** Encrypted data stays readable *)

(** The row of a key after a history. *)
Lemma key_after os db k k' :
  inv db → Forall good_call os → k ∈ keys db → k' ∈ keys (history db os) → k_ID k' = k_ID k →
  k_Status k' ≠ "destroyed" →
  k_KeyMaterial k' = k_KeyMaterial k ∧ k_UUID k' = k_UUID k ∧ k_Status k ≠ "destroyed".
Proof.
  intros Hinv Hos Hk Hk' Hid Hst. destruct (history_moves os db Hinv Hos) as [Hm Hinv'].
  destruct (moves_evolve _ _ Hm) as (Hev & _).
  destruct (Hev k Hk) as (k'' & Hk'' & E1 & E2 & E3 & E4 & _).
  assert (k'' = k') as -> by (eapply key_unique; [done..|congruence]).
  split_and!; [|done|auto]. by destruct E3.
Qed.

Lemma encrypt_data_opens k m rand data c :
  decryptInternal masterKey (k_KeyMaterial k) = Ok m → good_key m → good_random rand →
  Forall is_byte data → encryptWithKey m (rand 0%nat NonceSize) data = Ok c →
  Forall is_byte c ∧ decryptWithKey m c = Ok data.
Proof.
  intros Hd [_ Hm] Hr Hb He. pose proof (Hr 0%nat NonceSize) as Hn.
  pose proof (seal_with_nonce _ _ _ _ Hn He) as Hgood.
  by destruct (sealed_opens too_short "" _ _ _ _ Hm Hgood Hb He) as (_ & ? & ?).
Qed.

(** C4: What the encryption endpoint returned is decrypted by the same key to the
    bytes that were given, after any history in which the key was not destroyed:
    rotations of it, other keys, failing writes and all. *)
Theorem encrypted_data_readable os os' rand counted counted' id text uuid c :
  Forall good_call os → Forall good_call os' → good_random rand →
  let db := history empty os in
  (encrypt rand counted (Ok (id, text)) db).1
  = (200, JObj [("key_id", JStr uuid); ("ciphertext", JStr c)]) →
  let db' := history (encrypt rand counted (Ok (id, text)) db).2 os' in
  ∀ k k', findKey db id = Some k → findKey db' id = Some k' → k_ID k' = k_ID k →
    k_Status k' ≠ "destroyed" →
  ∃ plain, b64_decode text = Some plain ∧
    (decrypt counted' (Ok (id, c)) db').1
    = (200, JObj [("key_id", JStr (k_UUID k)); ("plaintext", JStr (b64_encode plain))]).
Proof.
  intros Hos Hos' Hr db Hbody db' k k' Hk Hk' Hid Hst.
  destruct (history_moves os empty inv_empty Hos) as [_ Hinv]. fold db in Hinv.
  pose proof (perform_moves (Encrypting rand counted (Ok (id, text))) db Hinv Hr) as Hm1.
  change (perform db (Encrypting rand counted (Ok (id, text)))) with
    (encrypt rand counted (Ok (id, text)) db).2 in Hm1.
  pose proof (moves_inv _ _ Hm1 Hinv) as Hinv1.
  destruct (findKey_Some _ _ _ Hk) as (Hin & Hlive & _).
  destruct (findKey_Some _ _ _ Hk') as (Hin' & _ & _).
  assert (k_KeyMaterial k' = k_KeyMaterial k ∧ k_UUID k' = k_UUID k ∧ k_Status k ≠ "destroyed")
    as (Hmat & Huuid & Hst0).
  { apply (key_after (Encrypting rand counted (Ok (id, text)) :: os') db k k'); try done.
    by constructor. }
  destruct (inv_key_ok _ _ Hinv Hin) as (_ & _ & Hok). destruct (Hok Hst0) as (m & Hdec & Hgood).
  unfold encrypt in Hbody. rewrite Hk in Hbody.
  case_decide as Hact; [done|]. rewrite Hdec in Hbody.
  destruct (b64_decode text) as [plain|] eqn:Ht; [|done]. exists plain. split; [done|].
  destruct (encryptWithKey m _ plain) as [ct|] eqn:Hct; [|done]. simpl in Hbody.
  injection Hbody as _ <-.
  destruct (encrypt_data_opens k m rand plain ct Hdec Hgood Hr (b64_decode_bytes _ _ Ht) Hct) as [Hb Ho].
  unfold decrypt. rewrite Hk'.
  destruct (history_moves os' _ Hinv1 Hos') as [_ Hinv']. fold db' in Hinv'.
  destruct (inv_key_ok _ _ Hinv' Hin') as (Hset & _ & _).
  rewrite !elem_of_cons, elem_of_nil in Hset. rewrite decide_False by naive_solver.
  rewrite Hmat, Hdec, b64_roundtrip by done. by rewrite Ho, Huuid.
Qed.

(** *** Secrets *)

Lemma findSecret_Some db id x :
  findSecret db id = Some x → x ∈ secrets db ∧ s_Deleted x = false ∧ named (s_ID x) (s_UUID x) id = true.
Proof.
  intros [Hin H]%List.find_some. zbool. split_and!; [by apply list_elem_of_In|done|done].
Qed.

(** C32: Under one master key, a secret that was stored with a payload and without an
    expiration is returned with the same bytes as long as it is not destroyed,
    whatever happens to the others. *)
Theorem stored_secret_returned os os' now uuid rand req db1 body :
  Forall good_call os → Forall good_call os' → good_random rand → r_Payload req ≠ "" → r_Expiration req = "" →
  let db := history empty os in
  createSecret now uuid rand None (Ok req) db = Returns ((201, body), db1) →
  ∀ id x, findSecret (history db1 os') id = Some x → s_ID x = next_secret db →
    s_Status x ≠ "destroyed" →
  ∃ raw, b64_decode (r_Payload req) = Some raw ∧
    getSecretPayload id (history db1 os')
    = (200, JObj [("uuid", JStr uuid); ("payload", JStr (b64_encode raw))]).
Proof.
  intros Hos Hos' Hr Hp _ db Hc id x Hx Hid Hst.
  destruct (history_moves os empty inv_empty Hos) as [_ Hinv]. fold db in Hinv.
  unfold createSecret in Hc. cbv zeta in Hc. destruct (negb _); [done|].
  unfold new_payload in Hc. rewrite decide_True in Hc by done.
  destruct (b64_decode (r_Payload req)) as [raw|] eqn:Hraw; [|done].
  destruct (encryptInternal masterKey _ raw) as [enc|] eqn:Henc; [|done].
  destruct (parse_expiration _) as [e|]; [|done]. simpl in Hc.
  match type of Hc with context [add_secret ?x _] => set (new := x) in Hc end.
  injection Hc as _ <-.
  assert (move db (add_secret new db)) as Hmove by (apply move_secret; [done|unfold secret_ok; simpl; set_solver]).
  pose proof (move_inv _ _ Hmove Hinv) as Hinv1.
  destruct (history_moves os' _ Hinv1 Hos') as [Hm' Hinv'].
  destruct (moves_evolve _ _ Hm') as (_ & _ & Hev & _).
  destruct (Hev new) as (x' & Hx' & E1 & E2 & E3 & _); [apply elem_of_app; right; by left|].
  destruct (findSecret_Some _ _ _ Hx) as (Hin & _).
  assert (x' = x) as -> by (eapply secret_unique; [done..|simpl in E1; congruence]).
  destruct E3 as [?|[E3 E4]]; [done|].
  exists raw. split; [done|]. unfold getSecretPayload. rewrite Hx, E3, E4, E2.
  destruct (sealed_opens too_short "" masterKey (rand 0%nat NonceSize) raw enc) as (_ & _ & Hopen); try done.
  { apply (seal_with_nonce masterKey _ raw enc); [apply Hr|done]. }
  { by eapply b64_decode_bytes. }
  rewrite decide_False by (by intros []). rewrite decide_False.
  - unfold decryptInternal. simpl. by rewrite Hopen.
  - simpl. intros ->. unfold open_with in Hopen. destruct (NewCipher masterKey); done.
Qed.

(** A secret whose row was deleted is not found again, whatever happens later. *)
Theorem deleted_secret_gone os os' now wiped id x :
  Forall good_call os → Forall good_call os' →
  let db := history empty os in
  findSecret db id = Some x →
  ∀ id' x', findSecret (history (deleteSecret now wiped true id db).2 os') id' = Some x' →
    s_ID x' ≠ s_ID x.
Proof.
  intros Hos Hos' db Hx id' x' Hx' E.
  destruct (history_moves os empty inv_empty Hos) as [_ Hinv]. fold db in Hinv.
  destruct (findSecret_Some _ _ _ Hx) as (Hin & _). destruct (findSecret_Some _ _ _ Hx') as (Hin' & Hlive & _).
  pose proof (perform_moves (DeleteSecret now wiped true id) db Hinv I) as Hm.
  pose proof (moves_inv _ _ Hm Hinv) as Hinv1. simpl in Hinv1.
  assert (∃ y, y ∈ secrets (deleteSecret now wiped true id db).2 ∧ s_ID y = s_ID x ∧ s_Deleted y = true)
    as (y & Hy & Hyid & Hyd).
  { unfold deleteSecret. rewrite Hx. simpl. destruct wiped; simpl.
    - exists (soft_deleted_secret (destroyed_secret now x)). split; [|done].
      apply list_elem_of_fmap. exists (destroyed_secret now x). simpl. rewrite Z.eqb_refl. split; [done|].
      apply list_elem_of_fmap. exists x. by rewrite Z.eqb_refl.
    - exists (soft_deleted_secret x). split; [|done]. apply list_elem_of_fmap. exists x. by rewrite Z.eqb_refl. }
  destruct (history_moves os' _ Hinv1 Hos') as [Hm' Hinv'].
  destruct (moves_evolve _ _ Hm') as (_ & _ & Hev & _).
  destruct (Hev y Hy) as (z & Hz & E1 & _ & _ & _ & Hd). specialize (Hd Hyd).
  assert (z = x') as -> by (eapply secret_unique; [done..|congruence]). congruence.
Qed.

(** *** Rotation *)

(** A key that rotation deactivated is refused by the endpoint and still encrypts
    for the other services. *)
Theorem retired_key_encrypts os uuid k rand counted data nonce :
  Forall good_call os → good_random rand → rand 0%nat NonceSize = Ok nonce →
  let db := history empty os in
  findKeyByUUID db uuid = Some k → k_Status k = "deactivated" →
  (∃ c, (EncryptData rand counted uuid data db).1 = Ok c) ∧
  (∀ text, findKey db uuid = Some k →
     (encrypt rand counted (Ok (uuid, text)) db).1 = error 400 "key is not active").
Proof.
  intros Hos Hr Hn db Hk Hst.
  destruct (history_moves os empty inv_empty Hos) as [_ Hinv]. fold db in Hinv.
  assert (k ∈ keys db) as Hin by (apply List.find_some in Hk as [Hin _]; by apply list_elem_of_In).
  destruct (inv_key_ok _ _ Hinv Hin) as (_ & _ & Hok).
  destruct Hok as (m & Hdec & Hgood); [by rewrite Hst|]. split.
  - unfold EncryptData. rewrite Hk, Hdec. unfold encryptWithKey, seal_with.
    destruct (good_key_aes m Hgood) as [-> _]. rewrite Hn. by eexists.
  - intros text Hf. unfold encrypt. rewrite Hf, Hst. by rewrite decide_True.
Qed.

(** Finding a row after the rows were changed in ways the search does not see. *)
(** When the new key cannot be written, the rotation fails and leaves the old key
    deactivated: no encryption with it succeeds any more. *)
Theorem failed_rotation_retires now uuid rand e id k db db' :
  findKey db id = Some k →
  rotateKey now uuid rand true (Some e) id db = Returns (error 500 e, db') → db' ≠ db →
  ∀ rand' counted text,
    (encrypt rand' counted (Ok (id, text)) db').1 = error 400 "key is not active".
Proof.
  intros Hk Hrot Hne rand' counted text. unfold rotateKey in Hrot. rewrite Hk in Hrot.
  case_decide; [by simplify_eq|]. destruct (generateKeyMaterial _ _) as [[m|]|]; [|by simplify_eq..].
  destruct (encryptInternal _ _ _); [|by simplify_eq]. injection Hrot as <-.
  unfold encrypt, findKey. simpl. rewrite find_fmap by (intros x; by destruct (_ =? _)).
  change (List.find _ (keys db)) with (findKey db id). rewrite Hk. simpl.
  rewrite Z.eqb_refl. simpl. done.
Qed.

(** *** Listings *)

(** The tables with the protected bytes erased; whether there is a payload stays. *)
Definition erase_secret (x : Secret) : Secret :=
  mkSecret (s_ID x) (s_UUID x) (s_Name x) (s_ProjectID x) (s_SecretType x) (s_Algorithm x)
    (s_BitLength x) (s_Mode x) (s_Status x) (s_Expiration x) (s_ContentType x)
    (if decide (s_Payload x = []) then [] else [0]) (s_Description x) (s_CreatedAt x) (s_UpdatedAt x)
    (s_Deleted x).

Definition erase_key (k : EncryptionKey) : EncryptionKey :=
  mkKey (k_ID k) (k_UUID k) (k_Name k) (k_ProjectID k) (k_Algorithm k) (k_BitLength k) (k_Mode k)
    (k_Status k) [] (k_UsageCount k) (k_Expiration k) (k_RotatedFrom k) (k_RotatedAt k)
    (k_Description k) (k_CreatedAt k) (k_UpdatedAt k) (k_Deleted k).

Definition erase (db : DB) : DB :=
  mkDB (erase_secret <$> secrets db) (erase_key <$> keys db) (next_secret db) (next_key db).

Lemma filter_fmap {A} (P : A → bool) (g : A → A) (l : list A) :
  (∀ x, P (g x) = P x) → filter (λ x, P x = true) (g <$> l) = g <$> filter (λ x, P x = true) l.
Proof.
  intros HP. induction l as [|x l IH]; [done|]. rewrite fmap_cons, !filter_cons, HP.
  case_decide; [by rewrite IH|done].
Qed.

(** The responses that describe secrets and keys do not depend on the protected
    bytes, the order of the rows depending on their times alone. *)
Theorem listings_hide_material :
  (∀ l, newest_secrets (erase_secret <$> l) = erase_secret <$> newest_secrets l) →
  (∀ l, newest_keys (erase_key <$> l) = erase_key <$> newest_keys l) →
  ∀ err name ty status project id db,
    listSecrets err name ty status project (erase db) = listSecrets err name ty status project db ∧
    getSecret id (erase db) = getSecret id db ∧
    listKeys err name status (erase db) = listKeys err name status db ∧
    getKey id (erase db) = getKey id db ∧ getStatus (erase db) = getStatus db.
Proof.
  intros Hs Hk err name ty status project id db.
  unfold listSecrets, getSecret, listKeys, getKey, getStatus, findSecret, findKey. simpl.
  rewrite !(find_fmap _ erase_secret), !(find_fmap _ erase_key) by done.
  rewrite !(filter_fmap _ erase_secret), !(filter_fmap _ erase_key) by done.
  rewrite !length_fmap, Hs, Hk, !length_fmap, <- !list_fmap_compose. split_and!; try done.
  - destruct (List.find _ (secrets db)) as [x|]; [|done]. simpl. repeat f_equal.
    case_decide as E; [by rewrite E|]. by rewrite !bool_decide_eq_false_2.
  - by destruct (List.find _ (keys db)).
Qed.

(** *** Data keys *)

(** A data key is returned together with a text that the key decrypts to it. *)
Theorem data_key_unwraps os rand counted counted' id bits body db' :
  Forall good_call os → good_random rand →
  let db := history empty os in
  generateDEK rand counted (Ok (id, bits)) db = Returns ((200, body), db') →
  ∃ uuid dek wrapped b hex, body = JObj [("key_id", JStr uuid); ("plaintext", JStr dek);
      ("ciphertext", JStr wrapped); ("bit_length", JNum b); ("algorithm", JStr "aes");
      ("key_id_hex", JStr hex)] ∧
    (decrypt counted' (Ok (id, wrapped)) db).1
    = (200, JObj [("key_id", JStr uuid); ("plaintext", JStr dek)]).
Proof.
  intros Hos Hr db H. destruct (history_moves os empty inv_empty Hos) as [_ Hinv]. fold db in Hinv.
  unfold generateDEK in H. destruct (findKey db id) as [k|] eqn:Hk; [|done].
  case_decide as Hst; [done|]. cbv zeta in H.
  destruct (generateKeyMaterial (rand 1%nat) _) as [[dek|]|] eqn:Hdek; try done.
  destruct (findKey_Some _ _ _ Hk) as (Hin & _).
  destruct (inv_key_ok _ _ Hinv Hin) as (_ & _ & Hok).
  destruct Hok as (m & Hdec & Hgood). { by rewrite Hst. }
  rewrite Hdec in H. destruct (encryptWithKey m _ dek) as [w|] eqn:Hw; [|done].
  destruct (_ <? 8)%nat; [done|]. injection H as <- _. eexists _, _, _, _, _. split; [done|].
  assert (Forall is_byte dek) as Hb.
  { unfold generateKeyMaterial in Hdek. destruct (_ <? 0); [done|]. injection Hdek as Hd.
    specialize (Hr 1%nat). match type of Hd with rand _ ?n = _ => specialize (Hr n) end.
    rewrite Hd in Hr. by destruct Hr. }
  destruct (encrypt_data_opens k m rand dek w Hdec Hgood Hr Hb Hw) as [Hwb Ho].
  unfold decrypt. rewrite Hk, decide_False by naive_solver. rewrite Hdec, b64_roundtrip by done.
  by rewrite Ho.
Qed.

(** A data key of fewer than 64 bits makes the handler panic. *)
Theorem short_data_key_panics rand counted id bits k m nonce dek db :
  findKey db id = Some k → k_Status k = "active" →
  decryptInternal masterKey (k_KeyMaterial k) = Ok m → good_key m →
  8 <= bits < 64 → rand 0%nat NonceSize = Ok nonce → rand 1%nat (Z.to_nat (bits / 8)) = Ok dek →
  good_random rand →
  generateDEK rand counted (Ok (id, bits)) db = Panics.
Proof.
  intros Hk Hst Hdec Hgood Hb Hn Hd Hr. unfold generateDEK, generateKeyMaterial.
  rewrite Hk, Hst, decide_False by auto. cbv zeta.
  assert (1 <= bits / 8 < 8) by (Z.div_mod_to_equations; lia).
  rewrite (proj2 (Z.eqb_neq bits 0)) by lia. rewrite Z.quot_div_nonneg by lia.
  rewrite (proj2 (Z.eqb_neq (bits / 8) 0)) by lia. zdecide. rewrite Hd, Hdec. unfold encryptWithKey, seal_with.
  destruct (good_key_aes m Hgood) as [-> _]. rewrite Hn. specialize (Hr 1%nat (Z.to_nat (bits / 8))).
  rewrite Hd in Hr. destruct Hr as [-> _].
  destruct (_ <? 8)%nat eqn:E; [done|]. apply Nat.ltb_ge in E. lia.
Qed.
End handlers.

(** ** Witnesses *)

Definition w_master : list Z := seqZ 0 32.
Definition w_random : random := λ _ n, Ok (replicate n 7).
Definition w_create (uuid : string) : call :=
  CreateKey 0 uuid w_random None (Ok (mkKeyRequest "db" "" "" 0 "" "" "")).
Definition w_db : DB := history (tables := ascii_runes) w_master empty [w_create "u-1"].
Definition w_rotated : DB :=
  history (tables := ascii_runes) w_master w_db [RotateKey 5 "u-2" w_random true None "1"].

Definition row (o : option EncryptionKey) : EncryptionKey :=
  match o with
  | Some k => k
  | None => mkKey 0 "" "" "" "" 0 "" "" [] 0 None None None "" 0 0 false
  end.

Definition body_text (j : json) : string :=
  match j with JObj [_; (_, JStr c)] => c | _ => "" end.

Definition w_cipher : string :=
  Eval vm_compute in body_text (encrypt w_master w_random true (Ok ("1", "aGk=")) w_db).1.2.

Lemma w_master_bytes : Forall is_byte w_master.
Proof. apply list.Forall_forall. intros x [? ?]%elem_of_seqZ. unfold is_byte. lia. Qed.

Lemma w_random_good : good_random w_random.
Proof.
  intros i n. split; [apply length_replicate|]. apply list.Forall_forall.
  intros x [-> _]%elem_of_replicate. unfold is_byte. lia.
Qed.

Lemma w_create_good uuid : Forall good_call [w_create uuid].
Proof. constructor; [apply w_random_good|constructor]. Qed.

Lemma encrypted_data_readable_witness :
  let db' := history (tables := ascii_runes) w_master
    (encrypt w_master w_random true (Ok ("1", "aGk=")) w_db).2
    [RotateKey 5 "u-2" w_random true None "1"] in
  ∃ plain, b64_decode "aGk=" = Some plain ∧
    (decrypt w_master true (Ok ("1", w_cipher)) db').1
    = (200, JObj [("key_id", JStr "u-1"); ("plaintext", JStr (b64_encode plain))]).
Proof.
  intros db'.
  destruct (encrypted_data_readable (tables := ascii_runes) w_master w_master_bytes [w_create "u-1"]
    [RotateKey 5 "u-2" w_random true None "1"] w_random true true "1" "aGk=" "u-1" w_cipher)
    with (k := row (findKey w_db "1")) (k' := row (findKey db' "1")) as (plain & H1 & H2).
  - apply w_create_good.
  - constructor; [apply w_random_good|constructor].
  - apply w_random_good.
  - vm_compute. reflexivity.
  - vm_compute. reflexivity.
  - vm_compute. reflexivity.
  - vm_compute. reflexivity.
  - vm_compute. discriminate.
  - exists plain. split; [done|exact H2].
Defined.

Definition w_secret : SecretRequest := mkSecretRequest "pw" "" "" "" 0 "" "" "aGk=" "" "".

Definition w_secret_db : DB :=
  match createSecret w_master 0 "s-1" w_random None (Ok w_secret) empty with
  | Returns (_, db) => db | Panics => empty end.

Definition srow (o : option Secret) : Secret :=
  match o with Some x => x | None => mkSecret 0 "" "" "" "" "" 0 "" "" None "" [] "" 0 0 false end.

Lemma stored_secret_returned_witness :
  ∃ raw, b64_decode "aGk=" = Some raw ∧
    getSecretPayload w_master "1" w_secret_db
    = (200, JObj [("uuid", JStr "s-1"); ("payload", JStr (b64_encode raw))]).
Proof.
  destruct (createSecret w_master 0 "s-1" w_random None (Ok w_secret) empty)
    as [[[st body] db1]|] eqn:E; [|vm_compute in E; discriminate].
  assert (st = 201 ∧ db1 = w_secret_db) as [-> ->].
  { unfold w_secret_db. rewrite E. split; [|done]. vm_compute in E. by injection E. }
  pose proof (stored_secret_returned (tables := ascii_runes) w_master w_master_bytes [] [] 0 "s-1" w_random
    w_secret w_secret_db body ltac:(constructor) ltac:(constructor) w_random_good ltac:(discriminate) eq_refl E
    "1" (srow (findSecret w_secret_db "1"))) as H.
  change (history w_master w_secret_db []) with w_secret_db in H. apply H.
  - vm_compute. reflexivity.
  - vm_compute. reflexivity.
  - vm_compute. discriminate.
Defined.

(** Without a configured master key a service that is started again draws another
    one, and answers that the payload cannot be decrypted. *)
Theorem ephemeral_key_lost :
  let other := repeat 7 32 in
  NewService true [] (λ _ n, Ok (repeat 7 n)) None = Ok other ∧
  getSecretPayload other "1" w_secret_db = error 500 "failed to decrypt payload".
Proof. split; vm_compute; reflexivity. Qed.

Definition w_two : list call :=
  [CreateSecret 0 "s-1" w_random None (Ok w_secret); CreateSecret 1 "s-2" w_random None (Ok w_secret)].
Definition w_two_db : DB := history (tables := ascii_runes) w_master empty w_two.

Lemma w_two_good : Forall good_call w_two.
Proof. constructor; [apply w_random_good|]. constructor; [apply w_random_good|constructor]. Qed.

Lemma w_two_found :
  findSecret w_two_db "1" = Some (srow (findSecret w_two_db "1")) ∧
  findSecret (deleteSecret 3 true true "1" w_two_db).2 "2"
  = Some (srow (findSecret w_two_db "2")).
Proof. split; vm_compute; reflexivity. Qed.

Lemma deleted_secret_gone_witness :
  s_ID (srow (findSecret w_two_db "2")) ≠ s_ID (srow (findSecret w_two_db "1")).
Proof.
  exact (deleted_secret_gone (tables := ascii_runes) w_master w_master_bytes w_two [] 3 true "1"
    (srow (findSecret w_two_db "1")) w_two_good (list.Forall_nil_2 _) (proj1 w_two_found) "2"
    (srow (findSecret w_two_db "2")) (proj2 w_two_found)).
Defined.

Lemma retired_key_encrypts_witness :
  ∃ c, (EncryptData w_master w_random true "u-1" [104; 105] w_rotated).1 = Ok c.
Proof.
  apply (retired_key_encrypts (tables := ascii_runes) w_master w_master_bytes
    [w_create "u-1"; RotateKey 5 "u-2" w_random true None "1"] "u-1" (row (findKeyByUUID w_rotated "u-1"))
    w_random true [104; 105] (replicate 12 7)).
  - constructor; [apply w_random_good|]. constructor; [apply w_random_good|constructor].
  - apply w_random_good.
  - reflexivity.
  - vm_compute. reflexivity.
  - vm_compute. reflexivity.
Defined.

Lemma failed_rotation_retires_witness :
  ∃ db', rotateKey w_master 5 "u-2" w_random true (Some "disk full") "1" w_db
         = Returns (error 500 "disk full", db') ∧
    (encrypt w_master w_random true (Ok ("1", "aGk=")) db').1 = error 400 "key is not active".
Proof.
  destruct (rotateKey w_master 5 "u-2" w_random true (Some "disk full") "1" w_db) as [[r db']|] eqn:E;
    [|vm_compute in E; discriminate].
  assert (r = error 500 "disk full") as -> by (vm_compute in E; by injection E).
  exists db'. split; [done|].
  apply (failed_rotation_retires w_master 5 "u-2" w_random "disk full" "1" (row (findKey w_db "1")) w_db db').
  - vm_compute. reflexivity.
  - done.
  - intros ->. vm_compute in E. discriminate.
Defined.

Lemma listings_hide_material_witness :
  getSecret "1" (erase w_secret_db) = getSecret "1" w_secret_db.
Proof.
  by apply (listings_hide_material w_master (λ l, l) (λ l, l) (λ l, eq_refl) (λ l, eq_refl) None "" "" "" "").
Defined.

Lemma w_data_key :
  ∃ body db', generateDEK w_master w_random true (Ok ("1", 0)) w_db = Returns ((200, body), db').
Proof. eexists _, _. vm_compute. reflexivity. Qed.

Lemma data_key_unwraps_witness :
  ∃ uuid dek wrapped, (decrypt w_master true (Ok ("1", wrapped)) w_db).1
    = (200, JObj [("key_id", JStr uuid); ("plaintext", JStr dek)]).
Proof.
  destruct w_data_key as (body & db' & E).
  destruct (data_key_unwraps (tables := ascii_runes) w_master w_master_bytes [w_create "u-1"] w_random true true
    "1" 0 body db' (w_create_good "u-1") w_random_good E) as (u & dek & w & b & hex & _ & H).
  exists u, dek, w. exact H.
Defined.

Lemma w_row_material :
  decryptInternal w_master (k_KeyMaterial (row (findKey w_db "1"))) = Ok (replicate 32 7).
Proof. vm_compute. reflexivity. Qed.

Lemma w_material_good : good_key (replicate 32 7).
Proof.
  split; [rewrite !elem_of_cons; auto|]. apply list.Forall_forall.
  intros x [-> _]%elem_of_replicate. unfold is_byte. lia.
Qed.

Lemma w_row_found : findKey w_db "1" = Some (row (findKey w_db "1")).
Proof. vm_compute. reflexivity. Qed.

Lemma w_row_active : k_Status (row (findKey w_db "1")) = "active".
Proof. vm_compute. reflexivity. Qed.

Lemma short_data_key_panics_witness :
  generateDEK w_master w_random true (Ok ("1", 32)) w_db = Panics.
Proof.
  exact (short_data_key_panics w_master w_random true "1" 32 (row (findKey w_db "1")) (replicate 32 7)
    (replicate 12 7) (replicate 4 7) w_db w_row_found w_row_active w_row_material w_material_good
    ltac:(lia) eq_refl eq_refl w_random_good).
Defined.
