(* ===== verification/Ha.v ===== *)
(** * High availability

    internal/management/ha: the monitor that takes hosts down and fences them,
    the evacuation of a host, the choice of a destination, and the settings of
    policies and instances. The clock, new UUIDs and the queries whose errors the
    code looks at are arguments; the order in which the database returns hosts is
    one that it is asked for. The theorems say that the targets are sorted by
    priority, that an evacuation accounts for every instance of the host and
    where each ends, that all go to one host whatever its room when the sizes of
    instances cannot be read, what the monitor changes, how often an instance can be restarted, and when disabling the
    protection of an instance has no effect. *)
From Stdlib Require Import Ascii.
From S2P Require Import Prelude GoStrings NetIP Http.
Local Open Scope Z_scope.

(** ** Tables *)

(** The columns of hosts and instances that the service reads or writes. *)
Record Host := mkHost {
  h_ID : Z; h_UUID : string; h_Name : string; h_Status : string; h_ResourceState : string;
  h_CPUCores : Z; h_RAMMB : Z; h_DiskGB : Z;
  h_CPUAllocated : Z; h_RAMAllocatedMB : Z; h_DiskAllocatedGB : Z;
  h_LastHeartbeat : option Z; h_DisconnectedAt : option Z; h_Deleted : bool
}.

Record flavorInfo := mkFlavor { VCPUs : Z; RAMMB : Z; DiskGB : Z }.

Record Instance := mkInstance {
  i_ID : Z; i_Name : string; i_HostID : string; i_Status : string; i_PowerState : string;
  i_Size : flavorInfo; i_UpdatedAt : Z; i_Deleted : bool
}.

Record HAPolicy := mkPolicy {
  p_ID : Z; p_UUID : string; p_Name : string; p_Priority : Z; p_Enabled : bool;
  p_MaxRestarts : Z; p_RestartWindow : Z; p_RestartDelay : Z; p_PreferSameHost : bool;
  p_TargetHostID : option string
}.

Record InstanceHAConfig := mkConfig {
  c_ID : Z; c_InstanceID : Z; c_PolicyID : option Z; c_HAEnabled : bool; c_Priority : Z;
  c_MaxRestarts : Z; c_RestartCount : Z; c_LastRestart : option Z
}.

Record EvacuationEvent := mkEvacuation {
  e_ID : Z; e_UUID : string; e_SourceHostID : string; e_SourceHostName : string;
  e_Trigger : string; e_Status : string; e_TotalInstances : Z; e_Evacuated : Z; e_Failed : Z;
  e_Skipped : Z; e_StartedAt : Z; e_CompletedAt : option Z
}.

Record EvacuationInstance := mkEvInst {
  v_ID : Z; v_EvacuationID : Z; v_InstanceID : Z; v_InstanceName : string;
  v_SourceHostID : string; v_DestHostID : string; v_DestHostName : string; v_Status : string;
  v_ErrorMessage : string; v_StartedAt : option Z; v_CompletedAt : option Z
}.

Record FencingEvent := mkFencing {
  f_ID : Z; f_HostID : string; f_HostName : string; f_Method : string; f_Status : string;
  f_Reason : string; f_FencedAt : option Z; f_ReleasedAt : option Z; f_FencedBy : string
}.

Record DB := mkDB {
  hosts : list Host;
  instances : list Instance;
  policies : list HAPolicy;
  configs : list InstanceHAConfig;
  evacuations : list EvacuationEvent;
  evacuation_instances : list EvacuationInstance;
  fencing : list FencingEvent
}.

(** Tables without deletions number their rows. *)
Definition next {A} (l : list A) : Z := Z.of_nat (length l) + 1.

Definition set_hosts (f : list Host → list Host) (db : DB) : DB :=
  mkDB (f (hosts db)) (instances db) (policies db) (configs db) (evacuations db)
    (evacuation_instances db) (fencing db).
Definition set_instances (f : list Instance → list Instance) (db : DB) : DB :=
  mkDB (hosts db) (f (instances db)) (policies db) (configs db) (evacuations db)
    (evacuation_instances db) (fencing db).
Definition set_policies (f : list HAPolicy → list HAPolicy) (db : DB) : DB :=
  mkDB (hosts db) (instances db) (f (policies db)) (configs db) (evacuations db)
    (evacuation_instances db) (fencing db).
Definition set_configs (f : list InstanceHAConfig → list InstanceHAConfig) (db : DB) : DB :=
  mkDB (hosts db) (instances db) (policies db) (f (configs db)) (evacuations db)
    (evacuation_instances db) (fencing db).
Definition set_evacuations (f : list EvacuationEvent → list EvacuationEvent) (db : DB) : DB :=
  mkDB (hosts db) (instances db) (policies db) (configs db) (f (evacuations db))
    (evacuation_instances db) (fencing db).
Definition set_evinsts (f : list EvacuationInstance → list EvacuationInstance) (db : DB) : DB :=
  mkDB (hosts db) (instances db) (policies db) (configs db) (evacuations db)
    (f (evacuation_instances db)) (fencing db).
Definition set_fencing (f : list FencingEvent → list FencingEvent) (db : DB) : DB :=
  mkDB (hosts db) (instances db) (policies db) (configs db) (evacuations db)
    (evacuation_instances db) (f (fencing db)).

(** [UPDATE ... WHERE]. *)
Definition update {A} (P : A → bool) (f : A → A) (l : list A) : list A :=
  (λ x, if P x then f x else x) <$> l.

(** Column updates. *)
Definition with_states (status state : string) (disconnected : option Z) (h : Host) : Host :=
  mkHost (h_ID h) (h_UUID h) (h_Name h) status state (h_CPUCores h) (h_RAMMB h) (h_DiskGB h)
    (h_CPUAllocated h) (h_RAMAllocatedMB h) (h_DiskAllocatedGB h) (h_LastHeartbeat h) disconnected
    (h_Deleted h).

Definition with_allocated (fi : flavorInfo) (h : Host) : Host :=
  mkHost (h_ID h) (h_UUID h) (h_Name h) (h_Status h) (h_ResourceState h) (h_CPUCores h) (h_RAMMB h)
    (h_DiskGB h) (h_CPUAllocated h + VCPUs fi) (h_RAMAllocatedMB h + RAMMB fi)
    (h_DiskAllocatedGB h + DiskGB fi) (h_LastHeartbeat h) (h_DisconnectedAt h) (h_Deleted h).

Definition with_place (host status power : string) (updated : Z) (i : Instance) : Instance :=
  mkInstance (i_ID i) (i_Name i) host status power (i_Size i) updated (i_Deleted i).

Definition with_power (status power : string) (i : Instance) : Instance :=
  with_place (i_HostID i) status power (i_UpdatedAt i) i.

Definition restarted (now : Z) (c : InstanceHAConfig) : InstanceHAConfig :=
  mkConfig (c_ID c) (c_InstanceID c) (c_PolicyID c) (c_HAEnabled c) (c_Priority c) (c_MaxRestarts c)
    (c_RestartCount c + 1) (Some now).

Definition put_evinst (v : EvacuationInstance) : DB → DB :=
  set_evinsts (update (λ w, v_ID w =? v_ID v) (λ _, v)).

Definition put_evacuation (e : EvacuationEvent) : DB → DB :=
  set_evacuations (update (λ w, e_ID w =? e_ID e) (λ _, e)).

(** ** Hosts going down *)

Section service.
Context {defaults : Defaults}.

(** Whether the table of instances has the columns with their sizes; a query for
    columns that are not there fails, and the sizes are then read as zero. *)
Variable sized : bool.

(** The order that the database gives to rows for [cpu_allocated ASC,
    ram_allocated_mb ASC]. *)
Variable least_loaded : list Host → list Host.

(** Whether the database refuses to compare a number with a text that is none, as
    PostgreSQL does. *)
Variable strict : bool.

(** The settings; the limit of concurrent evacuations is not used. *)
Variable heartbeatTimeout : Z.
Variable autoEvacuate autoFence : bool.

Definition fenceHostInternal (now : Z) (hostUUID hostName reason : string) (db : DB) : DB :=
  let db := set_fencing (λ l, l ++ [mkFencing (next l) hostUUID hostName "api" "fenced" reason
    (Some now) None "ha-monitor"]) db in
  set_hosts (update (λ h, negb (h_Deleted h) && bool_decide (h_UUID h = hostUUID))
    (λ h, with_states (h_Status h) "disabled" (h_DisconnectedAt h) h)) db.

(** Hosts that are up, enabled and silent. *)
Definition downed (now : Z) (h : Host) : bool :=
  negb (h_Deleted h) && bool_decide (h_Status h = "up") && bool_decide (h_ResourceState h = "enabled")
  && match h_LastHeartbeat h with None => true | Some t => t <? now - heartbeatTimeout end.

(** One round of the monitor, with the evacuations it starts. *)
Definition checkAndEvacuate (now : Z) (err : option string) (db : DB) : list (string * string) * DB :=
  match err with
  | Some _ => ([], db)
  | None =>
      let found := filter (λ h, downed now h = true) (hosts db) in
      (if autoEvacuate then (λ h, (h_UUID h, h_Name h)) <$> found else [],
       foldl (λ db h,
         let db := set_hosts (update (λ x, negb (h_Deleted x) && (h_ID x =? h_ID h))
           (λ x, with_states "down" (h_ResourceState x) (Some now) x)) db in
         if autoFence then fenceHostInternal now (h_UUID h) (h_Name h) "heartbeat_timeout" db else db)
         db found)
  end.

(** ** Evacuation *)

Definition find_instance (db : DB) (id : Z) : option Instance :=
  List.find (λ i, i_ID i =? id) (instances db).

Definition find_config (db : DB) (id : Z) : option InstanceHAConfig :=
  List.find (λ c, c_InstanceID c =? id) (configs db).

(** The size of an instance as the query returns it. *)
Definition flavor_of (db : DB) (id : Z) : flavorInfo :=
  match find_instance db id with
  | Some i => if sized then i_Size i else mkFlavor 0 0 0
  | None => mkFlavor 0 0 0
  end.

Definition fits (fi : flavorInfo) (h : Host) : bool :=
  ((VCPUs fi <=? 0) || (VCPUs fi <=? h_CPUCores h - h_CPUAllocated h))
  && ((RAMMB fi <=? 0) || (RAMMB fi <=? h_RAMMB h - h_RAMAllocatedMB h))
  && ((DiskGB fi <=? 0) || (DiskGB fi <=? h_DiskGB h - h_DiskAllocatedGB h)).

Definition candidate (exclude : string) (fi : flavorInfo) (h : Host) : bool :=
  negb (h_Deleted h) && bool_decide (h_Status h = "up") && bool_decide (h_ResourceState h = "enabled")
  && negb (bool_decide (h_UUID h = exclude)) && fits fi h.

Definition findBestHost (err : option string) (excludeHostUUID : string) (instanceID : Z) (db : DB)
    : result string Host :=
  let fi := flavor_of db instanceID in
  match err with
  | Some e => Err ("query hosts: " +:+ e)
  | None =>
      match least_loaded (filter (λ h, candidate excludeHostUUID fi h = true) (hosts db)) with
      | [] => Err "no healthy hosts with sufficient resources"
      | h :: _ => Ok h
      end
  end.

Definition rescheduleInstance (now : Z) (err : option string) (instanceID : Z) (destHost : Host) (db : DB)
    : option string * DB :=
  match err with
  | Some e => (Some ("update instance host: " +:+ e), db)
  | None =>
      let db := set_instances (update (λ i, i_ID i =? instanceID)
        (with_place (h_UUID destHost) "rebuilding" "rebuilding" now)) db in
      let fi := flavor_of db instanceID in
      (None, set_hosts (update (λ h, negb (h_Deleted h) && (h_ID h =? h_ID destHost))
        (with_allocated fi)) db)
  end.

Record target := mkTarget {
  t_InstanceID : Z; t_InstanceName : string; t_Priority : Z; t_HAEnabled : bool
}.

Definition target_of (db : DB) (i : Instance) : target :=
  match find_config db (i_ID i) with
  | None => mkTarget (i_ID i) (i_Name i) 0 true
  | Some c => mkTarget (i_ID i) (i_Name i) (c_Priority c) (c_HAEnabled c)
  end.

(** The inner loop of the sort: [x] is in place [i]; whatever is greater comes to
    [i], what was there taking its place. *)
Fixpoint sweep (x : target) (l : list target) : target * list target :=
  match l with
  | [] => (x, [])
  | y :: l =>
      if t_Priority x <? t_Priority y
      then let (m, l) := sweep y l in (m, x :: l)
      else let (m, l) := sweep x l in (m, y :: l)
  end.

Fixpoint exchange_sort (fuel : nat) (l : list target) : list target :=
  match fuel, l with
  | S fuel, x :: l => let (m, l) := sweep x l in m :: exchange_sort fuel l
  | _, l => l
  end.

Definition sort_targets (l : list target) : list target := exchange_sort (length l) l.

(** The reading of the clock and the errors of the two checked queries while an
    instance is handled. *)
Record oracle := mkOracle {
  o_now : Z; o_query : option string; o_update : option string
}.

(** Whether the limit of restarts holds an instance back. *)
Definition limited (now : Z) (c : InstanceHAConfig) : bool :=
  (c_MaxRestarts c <=? c_RestartCount c)
  && match c_LastRestart c with
     | Some last => now <? last + wrap64 (c_MaxRestarts c * second)
     | None => false
     end.

Inductive verdict := Evacuated | Failed | Skipped.

#[export] Instance verdict_eq_dec : EqDecision verdict.
Proof. solve_decision. Defined.

Definition with_outcome (status err : string) (v : EvacuationInstance) : EvacuationInstance :=
  mkEvInst (v_ID v) (v_EvacuationID v) (v_InstanceID v) (v_InstanceName v) (v_SourceHostID v)
    (v_DestHostID v) (v_DestHostName v) status err (v_StartedAt v) (v_CompletedAt v).

(** One target of the loop. *)
Definition evacuate_target (o : oracle) (evID : Z) (hostUUID : string) (t : target) (db : DB)
    : verdict * DB :=
  let id := t_InstanceID t in
  let v := mkEvInst (next (evacuation_instances db)) evID id (t_InstanceName t) hostUUID "" ""
    "pending" "" None None in
  let db := set_evinsts (λ l, l ++ [v]) db in
  if negb (t_HAEnabled t) then
    (Skipped, set_instances (update (λ i, i_ID i =? id) (with_power "stopped" "host_down"))
      (put_evinst (with_outcome "skipped" "" v) db))
  else
    let held :=
      match find_config db id with
      | Some c =>
          if limited (o_now o) c then
            Some (put_evinst (with_outcome "skipped"
              ("max restarts (" +:+ Itoa (c_MaxRestarts c) +:+ ") exceeded within window") v) db)
          else None
      | None => None
      end in
    match held with
    | Some db => (Skipped, db)
    | None =>
        let v := mkEvInst (v_ID v) evID id (t_InstanceName t) hostUUID "" "" "migrating" ""
          (Some (o_now o)) None in
        let db := put_evinst v db in
        match findBestHost (o_query o) hostUUID id db with
        | Err e =>
            (Failed, set_instances (update (λ i, i_ID i =? id) (with_power "error" "host_down"))
              (put_evinst (with_outcome "failed" ("no suitable host: " +:+ e) v) db))
        | Ok dest =>
            let v := mkEvInst (v_ID v) evID id (t_InstanceName t) hostUUID (h_UUID dest) (h_Name dest)
              "migrating" "" (Some (o_now o)) None in
            match rescheduleInstance (o_now o) (o_update o) id dest db with
            | (Some e, db) => (Failed, put_evinst (with_outcome "failed" e v) db)
            | (None, db) =>
                let v := mkEvInst (v_ID v) evID id (t_InstanceName t) hostUUID (h_UUID dest)
                  (h_Name dest) "completed" "" (Some (o_now o)) (Some (o_now o)) in
                (Evacuated, set_configs (update (λ c, c_InstanceID c =? id) (restarted (o_now o)))
                  (put_evinst v db))
            end
        end
    end.

(** The loop over the targets with its three counters. *)
Fixpoint evacuate_targets (evID : Z) (hostUUID : string) (ts : list (oracle * target))
    (counts : Z * Z * Z) (db : DB) : (Z * Z * Z) * DB :=
  match ts with
  | [] => (counts, db)
  | (o, t) :: ts =>
      let '(e, f, s) := counts in
      match evacuate_target o evID hostUUID t db with
      | (Evacuated, db) => evacuate_targets evID hostUUID ts (e + 1, f, s) db
      | (Failed, db) => evacuate_targets evID hostUUID ts (e, f + 1, s) db
      | (Skipped, db) => evacuate_targets evID hostUUID ts (e, f, s + 1) db
      end
  end.

(** The instances that run on a host. *)
Definition running_on (hostUUID : string) (i : Instance) : bool :=
  bool_decide (i_HostID i = hostUUID)
  && (bool_decide (i_Status i = "active") || bool_decide (i_Status i = "building"))
  && negb (i_Deleted i).

Definition with_counts (status : string) (total e f s : Z) (completed : option Z) (v : EvacuationEvent)
    : EvacuationEvent :=
  mkEvacuation (e_ID v) (e_UUID v) (e_SourceHostID v) (e_SourceHostName v) (e_Trigger v) status total
    e f s (e_StartedAt v) completed.

(** An evacuation; [os] gives the reading of the clock and the errors for the
    target in each place of the sorted list, [ended] the last reading. *)
Definition evacuateHostInternal (now : Z) (uuid : string) (os : nat → oracle) (ended : Z)
    (hostUUID hostName trigger : string) (db : DB) : DB :=
  let evt := mkEvacuation (next (evacuations db)) uuid hostUUID hostName trigger "running" 0 0 0 0 now None in
  let db := set_evacuations (λ l, l ++ [evt]) db in
  let insts := filter (λ i, running_on hostUUID i = true) (instances db) in
  let total := Z.of_nat (length insts) in
  let db := put_evacuation (with_counts "running" total 0 0 0 None evt) db in
  match insts with
  | [] => put_evacuation (with_counts "completed" total 0 0 0 (Some ended) evt) db
  | _ =>
      let targets := sort_targets (target_of db <$> insts) in
      let '((e, f, s), db) :=
        evacuate_targets (e_ID evt) hostUUID (imap (λ n t, (os n, t)) targets) (0, 0, 0) db in
      let status := if f =? 0 then "completed" else if 0 <? e then "partial" else "failed" in
      put_evacuation (with_counts status total e f s (Some ended) evt) db
  end.

(** ** Handlers *)

(** [Where("id = ? OR uuid = ?", id, id)] of the live rows. *)
Definition by_id_or_uuid {A} (id : A → Z) (uuid : A → string) (live : A → bool) (param : string)
    (l : list A) : option A :=
  match Atoi param with
  | Some n => List.find (λ x, live x && ((id x =? n) || bool_decide (uuid x = param))) l
  | None => if strict then None else List.find (λ x, live x && bool_decide (uuid x = param)) l
  end.

Definition find_host (db : DB) (param : string) : option Host :=
  by_id_or_uuid h_ID h_UUID (λ h, negb (h_Deleted h)) param (hosts db).

Definition find_policy (db : DB) (param : string) : option HAPolicy :=
  by_id_or_uuid p_ID p_UUID (λ _, true) param (policies db).

(** *** Policies *)

(** The row that [Create] writes, with the number that the database draws where
    the policy has none. *)
Definition created_policy (drawn : Z) (uuid : string) (p : HAPolicy) : HAPolicy :=
  mkPolicy (if p_ID p =? 0 then drawn else p_ID p) uuid (p_Name p) (p_Priority p)
    (stored_bool true (p_Enabled p)) (stored_int 3 (p_MaxRestarts p))
    (stored_int 3600 (p_RestartWindow p)) (p_RestartDelay p) (p_PreferSameHost p) (p_TargetHostID p).

(** [Create] fails when the number or the UUID is in use. *)
Definition add_policy (p : HAPolicy) (db : DB) : option DB :=
  if existsb (λ q, (p_ID q =? p_ID p) || bool_decide (p_UUID q = p_UUID p)) (policies db) then None
  else Some (set_policies (λ l, l ++ [p]) db).

Definition seeded : list HAPolicy := [
  mkPolicy 0 "" "default" 0 true 3 3600 0 false None;
  mkPolicy 0 "" "critical" 100 true 10 3600 0 false None;
  mkPolicy 0 "" "best-effort" (-10) true 1 3600 0 false None].

Definition seedDefaultPolicy (drawn : list (Z * string)) (db : DB) : DB :=
  match policies db with
  | [] => foldl (λ db dp, default db (add_policy (created_policy dp.1.1 dp.1.2 dp.2) db)) db (zip drawn seeded)
  | _ => db
  end.

Definition policy_json (p : HAPolicy) : json := JObj [
  ("id", JNum (p_ID p)); ("uuid", JStr (p_UUID p)); ("name", JStr (p_Name p));
  ("priority", JNum (p_Priority p)); ("enabled", JBool (p_Enabled p));
  ("max_restarts", JNum (p_MaxRestarts p)); ("restart_window", JNum (p_RestartWindow p));
  ("restart_delay", JNum (p_RestartDelay p)); ("prefer_same_host", JBool (p_PreferSameHost p));
  ("target_host_id", JOpt JStr (p_TargetHostID p))].

Definition createPolicy (drawn : Z) (uuid : string) (create : option string)
    (req : result string HAPolicy) (db : DB) : response * DB :=
  match req with
  | Err e => (error 400 e, db)
  | Ok p =>
      if decide (p_Name p = "") then (error 400 "name is required", db)
      else if existsb (λ q, bool_decide (p_Name q = p_Name p)) (policies db)
      then (error 409 "policy name already exists", db)
      else
        let p := created_policy drawn uuid p in
        match create, add_policy p db with
        | None, Some db => ((201, JObj [("policy", policy_json p)]), db)
        | _, _ => (error 500 "failed to create policy", db)
        end
  end.

Definition uses (id : Z) (db : DB) : Z :=
  Z.of_nat (length (filter (λ c, c_PolicyID c = Some id) (configs db))).

Definition getPolicy (param : string) (db : DB) : response :=
  match find_policy db param with
  | None => error 404 "policy not found"
  | Some p => (200, JObj [("policy", policy_json p); ("instance_count", JNum (uses (p_ID p) db))])
  end.

(** A column of the body of an update; a name or a type that the table does not
    have is an error. *)
Definition set_column (p : HAPolicy) (kv : string * json) : option HAPolicy :=
  match kv with
  | ("name", JStr v) => Some (mkPolicy (p_ID p) (p_UUID p) v (p_Priority p) (p_Enabled p)
      (p_MaxRestarts p) (p_RestartWindow p) (p_RestartDelay p) (p_PreferSameHost p) (p_TargetHostID p))
  | ("priority", JNum v) => Some (mkPolicy (p_ID p) (p_UUID p) (p_Name p) v (p_Enabled p)
      (p_MaxRestarts p) (p_RestartWindow p) (p_RestartDelay p) (p_PreferSameHost p) (p_TargetHostID p))
  | ("enabled", JBool v) => Some (mkPolicy (p_ID p) (p_UUID p) (p_Name p) (p_Priority p) v
      (p_MaxRestarts p) (p_RestartWindow p) (p_RestartDelay p) (p_PreferSameHost p) (p_TargetHostID p))
  | ("max_restarts", JNum v) => Some (mkPolicy (p_ID p) (p_UUID p) (p_Name p) (p_Priority p)
      (p_Enabled p) v (p_RestartWindow p) (p_RestartDelay p) (p_PreferSameHost p) (p_TargetHostID p))
  | ("restart_window", JNum v) => Some (mkPolicy (p_ID p) (p_UUID p) (p_Name p) (p_Priority p)
      (p_Enabled p) (p_MaxRestarts p) v (p_RestartDelay p) (p_PreferSameHost p) (p_TargetHostID p))
  | ("restart_delay", JNum v) => Some (mkPolicy (p_ID p) (p_UUID p) (p_Name p) (p_Priority p)
      (p_Enabled p) (p_MaxRestarts p) (p_RestartWindow p) v (p_PreferSameHost p) (p_TargetHostID p))
  | ("prefer_same_host", JBool v) => Some (mkPolicy (p_ID p) (p_UUID p) (p_Name p) (p_Priority p)
      (p_Enabled p) (p_MaxRestarts p) (p_RestartWindow p) (p_RestartDelay p) v (p_TargetHostID p))
  | ("target_host_id", JStr v) => Some (mkPolicy (p_ID p) (p_UUID p) (p_Name p) (p_Priority p)
      (p_Enabled p) (p_MaxRestarts p) (p_RestartWindow p) (p_RestartDelay p) (p_PreferSameHost p) (Some v))
  | ("target_host_id", JNull) => Some (mkPolicy (p_ID p) (p_UUID p) (p_Name p) (p_Priority p)
      (p_Enabled p) (p_MaxRestarts p) (p_RestartWindow p) (p_RestartDelay p) (p_PreferSameHost p) None)
  | _ => None
  end.

Fixpoint set_columns (p : HAPolicy) (kvs : list (string * json)) : option HAPolicy :=
  match kvs with
  | [] => Some p
  | kv :: kvs => p ← set_column p kv; set_columns p kvs
  end.

Definition updatePolicy (param : string) (req : result string (list (string * json))) (db : DB)
    : response * DB :=
  match find_policy db param with
  | None => (error 404 "policy not found", db)
  | Some p =>
      match req with
      | Err e => (error 400 e, db)
      | Ok kvs =>
          match set_columns p (filter (λ kv, kv.1 ≠ "uuid" ∧ kv.1 ≠ "id") kvs) with
          | None => (error 500 "failed to update policy", db)
          | Some p' =>
              ((200, JObj [("policy", policy_json p')]),
               set_policies (update (λ q, p_ID q =? p_ID p) (λ _, p')) db)
          end
      end
  end.

Definition built_in (name : string) : bool :=
  bool_decide (name ∈ ["default"; "critical"; "best-effort"]).

Definition deletePolicy (force : string) (param : string) (db : DB) : response * DB :=
  match find_policy db param with
  | None => (error 404 "policy not found", db)
  | Some p =>
      if built_in (p_Name p) then (error 403 "cannot delete built-in policy", db)
      else
        let count := uses (p_ID p) db in
        if (0 <? count) && negb (bool_decide (force = "true")) then
          ((409, JObj [("error", JStr ("policy in use by " +:+ Itoa count
              +:+ " instance(s), use ?force=true")); ("instance_count", JNum count)]), db)
        else
          ((200, JObj [("ok", JBool true)]),
           set_policies (filter (λ q, p_ID q ≠ p_ID p)) db)
  end.

(** *** Instances *)

(** The row that [Create] writes for an instance without one. *)
Definition created_config (id instanceID : Z) (enabled : bool) : InstanceHAConfig :=
  mkConfig id instanceID None (stored_bool true enabled) 0 3 0 None.

Definition config_json (c : InstanceHAConfig) : json := JObj [
  ("id", JNum (c_ID c)); ("instance_id", JNum (c_InstanceID c));
  ("policy_id", JOpt JNum (c_PolicyID c)); ("ha_enabled", JBool (c_HAEnabled c));
  ("priority", JNum (c_Priority c)); ("max_restarts", JNum (c_MaxRestarts c));
  ("restart_count", JNum (c_RestartCount c)); ("last_restart", JOpt JTime (c_LastRestart c))].

Record HARequest := mkHARequest {
  q_HAEnabled : option bool; q_Priority : option Z; q_PolicyID : option Z; q_MaxRestarts : option Z
}.

Definition apply_request (q : HARequest) (c : InstanceHAConfig) : InstanceHAConfig :=
  mkConfig (c_ID c) (c_InstanceID c)
    (match q_PolicyID q with Some p => Some p | None => c_PolicyID c end)
    (default (c_HAEnabled c) (q_HAEnabled q)) (default (c_Priority c) (q_Priority q))
    (default (c_MaxRestarts c) (q_MaxRestarts q)) (c_RestartCount c) (c_LastRestart c).

(** The row of an instance, created when it has none. *)
Definition with_config (instanceID : Z) (enabled : bool) (db : DB) : InstanceHAConfig * DB :=
  match find_config db instanceID with
  | Some c => (c, db)
  | None =>
      let c := created_config (next (configs db)) instanceID enabled in
      (c, set_configs (λ l, l ++ [c]) db)
  end.

Definition updateInstanceHA (param : string) (req : result string HARequest) (db : DB) : response * DB :=
  match ParseUint32 param with
  | None => (error 400 "invalid instance ID", db)
  | Some id =>
      if negb (existsb (λ i, (i_ID i =? id) && negb (i_Deleted i)) (instances db))
      then (error 404 "instance not found", db)
      else
        match req with
        | Err e => (error 400 e, db)
        | Ok q =>
            let (c, db) := with_config id true db in
            ((200, JObj [("ha_config", config_json (apply_request q c))]),
             set_configs (update (λ x, c_ID x =? c_ID c) (apply_request q)) db)
        end
  end.

Definition setInstanceHAState (param : string) (enabled : bool) (db : DB) : response * DB :=
  match ParseUint32 param with
  | None => (error 400 "invalid instance ID", db)
  | Some id =>
      ((200, JObj [("ok", JBool true); ("ha_enabled", JBool enabled)]),
       match find_config db id with
       | None => set_configs (λ l, l ++ [created_config (next l) id enabled]) db
       | Some c =>
           set_configs (update (λ x, c_ID x =? c_ID c)
             (apply_request (mkHARequest (Some enabled) None None None))) db
       end)
  end.

Definition enableInstanceHA (param : string) : DB → response * DB := setInstanceHAState param true.
Definition disableInstanceHA (param : string) : DB → response * DB := setInstanceHAState param false.

(** *** Hosts *)

(** The second component says whether an evacuation is started. *)
Definition evacuateHostManual (param : string) (db : DB) : response * option (string * string) :=
  match find_host db param with
  | None => (error 404 "host not found", None)
  | Some h =>
      let count := Z.of_nat (length (filter (λ i, running_on (h_UUID h) i = true) (instances db))) in
      if count =? 0 then
        ((200, JObj [("ok", JBool true); ("message", JStr "no instances to evacuate");
                     ("affected", JNum 0)]), None)
      else
        ((202, JObj [("ok", JBool true);
            ("message", JStr ("evacuating " +:+ Itoa count +:+ " instance(s) from host " +:+ h_Name h));
            ("affected", JNum count)]), Some (h_UUID h, h_Name h))
  end.

Definition fenceHost (now : Z) (reason : string) (param : string) (db : DB) : response * DB :=
  match find_host db param with
  | None => (error 404 "host not found", db)
  | Some h =>
      let reason := if decide (reason = "") then "manual fencing" else reason in
      ((200, JObj [("ok", JBool true); ("message", JStr ("host " +:+ h_Name h +:+ " fenced"))]),
       fenceHostInternal now (h_UUID h) (h_Name h) reason db)
  end.

Definition released (now : Z) (f : FencingEvent) : FencingEvent :=
  mkFencing (f_ID f) (f_HostID f) (f_HostName f) (f_Method f) "released" (f_Reason f) (f_FencedAt f)
    (Some now) (f_FencedBy f).

Definition unfenceHost (now : Z) (param : string) (db : DB) : response * DB :=
  match find_host db param with
  | None => (error 404 "host not found", db)
  | Some h =>
      ((200, JObj [("ok", JBool true); ("message", JStr ("host " +:+ h_Name h +:+ " unfenced"))]),
       set_hosts (update (λ x, negb (h_Deleted x) && (h_ID x =? h_ID h))
         (λ x, with_states "up" "enabled" (h_DisconnectedAt x) x))
       (set_fencing (update (λ f, bool_decide (f_HostID f = h_UUID h) && bool_decide (f_Status f = "fenced"))
         (released now)) db))
  end.

(** ** The order of the targets *)

Lemma sweep_perm x l : let (m, l') := sweep x l in m :: l' ≡ₚ x :: l.
Proof.
  revert x. induction l as [|y l IH]; intros x; simpl; [done|].
  destruct (_ <? _).
  - specialize (IH y). destruct (sweep y l) as [m l']. by rewrite Permutation_swap, IH.
  - specialize (IH x). destruct (sweep x l) as [m l']. rewrite Permutation_swap, IH. apply Permutation_swap.
Qed.

Lemma sweep_max x l :
  let (m, l') := sweep x l in
  t_Priority x <= t_Priority m ∧ Forall (λ t, t_Priority t <= t_Priority m) l'.
Proof.
  revert x. induction l as [|y l IH]; intros x; simpl; [split; [lia|constructor]|].
  destruct (_ <? _) eqn:E; zbool.
  - specialize (IH y). destruct (sweep y l) as [m l'], IH. split; [lia|]. constructor; [lia|done].
  - specialize (IH x). destruct (sweep x l) as [m l'], IH. split; [lia|]. constructor; [lia|done].
Qed.

Lemma sweep_length x l : length (sweep x l).2 = length l.
Proof. pose proof (sweep_perm x l) as H. destruct (sweep x l). apply Permutation_length in H. simpl in *. lia. Qed.

(** The sort gives the targets in descending order of their priorities. *)
Theorem sort_targets_sorted l :
  sort_targets l ≡ₚ l ∧ StronglySorted (λ s t, t_Priority t <= t_Priority s) (sort_targets l).
Proof.
  unfold sort_targets. remember (length l) as n eqn:Hn. revert l Hn.
  induction n as [|n IH]; intros [|x l] Hn; try done; [by split; [|constructor]|]. simpl.
  pose proof (sweep_perm x l) as Hp. pose proof (sweep_max x l) as Hm.
  pose proof (sweep_length x l) as Hl. destruct (sweep x l) as [m l']. simpl in *.
  destruct Hm as [_ Hm]. destruct (IH l') as [Hp' Hs]; [lia|]. split; [by rewrite Hp'|].
  constructor; [done|]. by rewrite Hp'.
Qed.

(** ** What an evacuation does *)

(** The order that was asked for is one of the same rows. *)
Hypothesis least_loaded_perm : ∀ l, least_loaded l ≡ₚ l.

(** The effect of a target on hosts, instances and settings. *)
Inductive effect (hostUUID : string) (t : target) (db db' : DB) : verdict → Prop :=
| effect_disabled :
    t_HAEnabled t = false → hosts db' = hosts db → configs db' = configs db →
    instances db' = update (λ i, i_ID i =? t_InstanceID t) (with_power "stopped" "host_down") (instances db) →
    effect hostUUID t db db' Skipped
| effect_limited now c :
    find_config db (t_InstanceID t) = Some c → limited now c = true →
    hosts db' = hosts db → configs db' = configs db → instances db' = instances db →
    effect hostUUID t db db' Skipped
| effect_no_host :
    hosts db' = hosts db → configs db' = configs db →
    instances db' = update (λ i, i_ID i =? t_InstanceID t) (with_power "error" "host_down") (instances db) →
    effect hostUUID t db db' Failed
| effect_not_moved :
    hosts db' = hosts db → configs db' = configs db → instances db' = instances db →
    effect hostUUID t db db' Failed
| effect_moved now dest rest :
    let fi := flavor_of db (t_InstanceID t) in
    least_loaded (filter (λ h, candidate hostUUID fi h = true) (hosts db)) = dest :: rest →
    hosts db' = update (λ h, negb (h_Deleted h) && (h_ID h =? h_ID dest)) (with_allocated fi) (hosts db) →
    instances db' = update (λ i, i_ID i =? t_InstanceID t)
      (with_place (h_UUID dest) "rebuilding" "rebuilding" now) (instances db) →
    effect hostUUID t db db' Evacuated.

Lemma find_update {A} (P Q : A → bool) (f : A → A) l :
  (∀ x, P (f x) = P x) → List.find P (update Q f l) = (λ x, if Q x then f x else x) <$> List.find P l.
Proof.
  intros HP. induction l as [|x l IH]; [done|]. simpl.
  assert (P (if Q x then f x else x) = P x) as -> by (by destruct (Q x)). by destruct (P x).
Qed.

(** Moving an instance does not change its size. *)
Lemma flavor_of_placed db db' id P host st pw now :
  instances db' = update P (with_place host st pw now) (instances db) → flavor_of db' id = flavor_of db id.
Proof.
  intros E. unfold flavor_of, find_instance. rewrite E, find_update by done.
  destruct (List.find _ _) as [i|]; [|done]. simpl. by destruct (P i).
Qed.

Lemma evacuate_target_effect o evID hostUUID t db v db' :
  evacuate_target o evID hostUUID t db = (v, db') →
  effect hostUUID t db db' v ∧ evacuations db' = evacuations db ∧
  length (evacuation_instances db') = S (length (evacuation_instances db)).
Proof.
  unfold evacuate_target. cbv zeta. intros H.
  assert (∀ x db, length (evacuation_instances (put_evinst x db)) = length (evacuation_instances db)) as Hput
    by (intros; apply length_fmap).
  destruct (negb (t_HAEnabled t)) eqn:Hen.
  { zbool. simplify_eq. split_and!; [by apply effect_disabled|done|].
    simpl. unfold update. rewrite length_fmap, length_app. simpl. lia. }
  change (find_config (set_evinsts _ db) (t_InstanceID t)) with (find_config db (t_InstanceID t)) in H.
  destruct (match find_config db (t_InstanceID t) with Some c => _ | None => _ end) as [db1|] eqn:Hheld.
  { destruct (find_config db (t_InstanceID t)) as [c|] eqn:Hc; [|done].
    destruct (limited (o_now o) c) eqn:Hl; [|done]. simplify_eq. split_and!; [by eapply effect_limited|done|].
    simpl. unfold update. rewrite length_fmap, length_app. simpl. lia. }
  clear Hheld. unfold findBestHost in H. cbv zeta in H.
  match type of H with context [flavor_of ?d _] =>
    change (flavor_of d (t_InstanceID t)) with (flavor_of db (t_InstanceID t)) in H end.
  simpl hosts in H.
  destruct (o_query o) as [e|].
  { simplify_eq. split_and!; [by apply effect_no_host|done|].
    simpl. unfold update. rewrite !length_fmap, length_app. simpl. lia. }
  destruct (least_loaded _) as [|dest rest] eqn:Hb.
  { simplify_eq. split_and!; [by apply effect_no_host|done|].
    simpl. unfold update. rewrite !length_fmap, length_app. simpl. lia. }
  unfold rescheduleInstance in H. destruct (o_update o) as [e|].
  { simplify_eq. split_and!; [by apply effect_not_moved|done|].
    simpl. unfold update. rewrite !length_fmap, length_app. simpl. lia. }
  cbv zeta in H. erewrite (flavor_of_placed db) in H by done. simplify_eq.
  split_and!; [by eapply effect_moved|done|].
  simpl. unfold update. rewrite !length_fmap, length_app. simpl. lia.
Qed.

(** A property of hosts and instances that the effect of every target keeps is
    kept by the loop, which counts every target once. *)
Lemma evacuate_targets_inv (P : DB → Prop) evID hostUUID ts counts db :
  (∀ t db db' v, effect hostUUID t db db' v → P db → P db') → P db →
  let '((e, f, s), db') := evacuate_targets evID hostUUID ts counts db in
  P db' ∧ e + f + s = counts.1.1 + counts.1.2 + counts.2 + Z.of_nat (length ts) ∧
  counts.1.1 <= e ∧ counts.1.2 <= f ∧ counts.2 <= s ∧
  evacuations db' = evacuations db ∧
  length (evacuation_instances db') = (length (evacuation_instances db) + length ts)%nat.
Proof.
  intros HP. revert counts db. induction ts as [|[o t] ts IH]; intros [[e f] s] db Hdb; simpl.
  { split_and!; simpl; try done; lia. }
  destruct (evacuate_target o evID hostUUID t db) as [v db1] eqn:E.
  apply evacuate_target_effect in E as (Heff & Hev & Hlen). pose proof (HP _ _ _ _ Heff Hdb) as Hdb1.
  destruct v; match goal with |- context [evacuate_targets _ _ ts ?c db1] =>
    specialize (IH c db1 Hdb1) end;
    destruct (evacuate_targets _ _ ts _ db1) as [[[e' f'] s'] db2]; simpl in *;
    destruct IH as (? & ? & ? & ? & ? & ? & ?); split_and!; try done; try lia; congruence.
Qed.

Lemma candidate_spec hostUUID fi db dest rest :
  least_loaded (filter (λ h, candidate hostUUID fi h = true) (hosts db)) = dest :: rest →
  dest ∈ hosts db ∧ candidate hostUUID fi dest = true.
Proof.
  intros E.
  assert (dest ∈ filter (λ h, candidate hostUUID fi h = true) (hosts db)) as H.
  { rewrite <- (least_loaded_perm (filter _ _)), E. left. }
  apply list_elem_of_filter in H. tauto.
Qed.

(** *** Where instances end *)

(** A host that can take instances, by its UUID. *)
Definition available (uuid : string) (h : Host) : bool :=
  negb (h_Deleted h) && bool_decide (h_Status h = "up") && bool_decide (h_ResourceState h = "enabled")
  && bool_decide (h_UUID h = uuid).

Inductive fate (hostUUID : string) (hs : list Host) (i : Instance) : verdict → Instance → Prop :=
| fate_moved dest now :
    dest ≠ hostUUID → existsb (available dest) hs = true →
    fate hostUUID hs i Evacuated (with_place dest "rebuilding" "rebuilding" now i)
| fate_error : fate hostUUID hs i Failed (with_power "error" "host_down" i)
| fate_kept : fate hostUUID hs i Failed i
| fate_stopped : fate hostUUID hs i Skipped (with_power "stopped" "host_down" i)
| fate_held : fate hostUUID hs i Skipped i.

(** Updates of allocations leave hosts available. *)
Lemma available_update uuid P fi hs :
  existsb (available uuid) (update P (with_allocated fi) hs) = existsb (available uuid) hs.
Proof. induction hs as [|h hs IH]; [done|]. simpl. rewrite IH. by destruct (P h). Qed.

Lemma find_instance_update db db' id id' f :
  (∀ i, i_ID (f i) = i_ID i) → instances db' = update (λ i, i_ID i =? id) f (instances db) →
  find_instance db' id' = (λ i, if id =? id' then f i else i) <$> find_instance db id'.
Proof.
  intros Hf E. unfold find_instance. rewrite E, find_update by (intros x; by rewrite Hf).
  destruct (List.find _ _) as [i|] eqn:F; [|done]. apply List.find_some in F as [_ F]. zbool.
  simpl. by subst id'; rewrite (Z.eqb_sym id).
Qed.

Lemma effect_fate hostUUID t db db' v :
  effect hostUUID t db db' v →
  (∀ id, id ≠ t_InstanceID t → find_instance db' id = find_instance db id) ∧
  (∀ i, find_instance db (t_InstanceID t) = Some i →
    ∃ i', find_instance db' (t_InstanceID t) = Some i' ∧ fate hostUUID (hosts db) i v i') ∧
  (∀ uuid, existsb (available uuid) (hosts db') = existsb (available uuid) (hosts db)).
Proof.
  intros H. assert (∀ f, instances db' = update (λ i, i_ID i =? t_InstanceID t) f (instances db) →
      (∀ i, i_ID (f i) = i_ID i) →
      (∀ id, id ≠ t_InstanceID t → find_instance db' id = find_instance db id) ∧
      find_instance db' (t_InstanceID t) = f <$> find_instance db (t_InstanceID t)) as Hf.
  { intros f E Hid. split; [intros id Hne|]; rewrite (find_instance_update _ _ _ _ _ Hid E);
      [rewrite (proj2 (Z.eqb_neq _ _)) by congruence|rewrite Z.eqb_refl]; [|done].
    by destruct (find_instance db id). }
  assert (instances db' = instances db → ∀ id, find_instance db' id = find_instance db id) as Hs.
  { intros E id. unfold find_instance. by rewrite E. }
  destruct H as [_ Hh _ Hi|now c _ _ Hh _ Hi|Hh _ Hi|Hh _ Hi|now dest rest fi Hl Hh Hi];
    try (specialize (Hf _ Hi (λ _, eq_refl)) as [Hne He]); try specialize (Hs Hi);
    (split; [by auto|split; [|intros; rewrite Hh, ?available_update; done]]); intros i Hfi.
  - exists (with_power "stopped" "host_down" i). rewrite He, Hfi. split; [done|constructor].
  - exists i. rewrite Hs. split; [done|constructor].
  - exists (with_power "error" "host_down" i). rewrite He, Hfi. split; [done|constructor].
  - exists i. rewrite Hs. split; [done|constructor].
  - exists (with_place (h_UUID dest) "rebuilding" "rebuilding" now i). rewrite He, Hfi. split; [done|].
    apply candidate_spec in Hl as [Hin Hc]. unfold candidate in Hc. rewrite !andb_true_iff in Hc.
    destruct Hc as [[Hc Hne'] _]. constructor.
    + intros E. by rewrite (bool_decide_eq_true_2 _ E) in Hne'.
    + apply existsb_exists. exists dest. split; [by apply list_elem_of_In|]. unfold available.
      rewrite (bool_decide_eq_true_2 (h_UUID dest = _) eq_refl), andb_true_r. by rewrite !andb_true_iff.
Qed.

Definition count (v : verdict) (l : list verdict) : Z := Z.of_nat (length (filter (v =.) l)).

Lemma count_cons v w l : count v (w :: l) = (if decide (v = w) then 1 else 0) + count v l.
Proof. unfold count. rewrite filter_cons. case_decide; simpl; lia. Qed.

Lemma fate_hosts hostUUID hs hs' i v i' :
  (∀ uuid, existsb (available uuid) hs = existsb (available uuid) hs') →
  fate hostUUID hs i v i' → fate hostUUID hs' i v i'.
Proof. intros H []; constructor; by rewrite <- ?H. Qed.

(** Every target meets its fate once, and the counters add up. *)
Lemma evacuate_targets_fate evID hostUUID ts counts db :
  NoDup (t_InstanceID <$> ts.*2) →
  let '((e, f, s), db') := evacuate_targets evID hostUUID ts counts db in
  ∃ w : Z → verdict,
    (∀ t i, t ∈ ts.*2 → find_instance db (t_InstanceID t) = Some i →
      ∃ i', find_instance db' (t_InstanceID t) = Some i' ∧
        fate hostUUID (hosts db) i (w (t_InstanceID t)) i') ∧
    (∀ id, id ∉ t_InstanceID <$> ts.*2 → find_instance db' id = find_instance db id) ∧
    let vs := w <$> (t_InstanceID <$> ts.*2) in
    e = counts.1.1 + count Evacuated vs ∧ f = counts.1.2 + count Failed vs ∧
    s = counts.2 + count Skipped vs.
Proof.
  revert counts db. induction ts as [|[o t] ts IH]; intros [[e f] s] db Hn.
  { simpl. exists (λ _, Failed). split; [by intros ?? ?%not_elem_of_nil|]. unfold count. simpl.
    split_and!; try done; lia. }
  cbn [evacuate_targets]. rewrite !fmap_cons in *. cbn [snd] in *. apply list.NoDup_cons in Hn as [Hnot Hn].
  destruct (evacuate_target o evID hostUUID t db) as [v db1] eqn:E.
  apply evacuate_target_effect in E as (Heff & _). apply effect_fate in Heff as (Hne & Hfate & Hav).
  set (c' := match v with Evacuated => (e + 1, f, s) | Failed => (e, f + 1, s) | Skipped => (e, f, s + 1) end).
  specialize (IH c' db1 Hn). replace (match v with Evacuated => _ | _ => _ end)
    with (evacuate_targets evID hostUUID ts c' db1) by (by destruct v).
  destruct (evacuate_targets evID hostUUID ts c' db1) as [[[e' f'] s'] db2].
  destruct IH as (w & Hw & Hrest & He & Hf & Hs).
  set (w' := λ id, if id =? t_InstanceID t then v else w id).
  assert (∀ id, id ≠ t_InstanceID t → w' id = w id) as Hother.
  { intros id Hid. unfold w'. by rewrite (proj2 (Z.eqb_neq _ _) Hid). }
  assert (w' (t_InstanceID t) = v) as Hv by (unfold w'; by rewrite Z.eqb_refl).
  assert (w' <$> (t_InstanceID <$> ts.*2) = w <$> (t_InstanceID <$> ts.*2)) as Heq.
  { apply list_fmap_ext. intros n id Hid. apply Hother. intros ->. apply Hnot.
    by eapply list_elem_of_lookup_2. }
  exists w'. split; [|split].
  - intros u i Hu Hi. apply elem_of_cons in Hu as [->|Hu].
    + destruct (Hfate i Hi) as (i' & Hi' & Hf'). exists i'. rewrite Hrest, Hv by done. done.
    + assert (t_InstanceID u ≠ t_InstanceID t) as Hid.
      { intros Hid. apply Hnot. rewrite <- Hid. by apply list_elem_of_fmap_2. }
      rewrite <- (Hne _ Hid) in Hi. destruct (Hw u i Hu Hi) as (i' & Hi' & Hf'). exists i'.
      split; [done|]. rewrite Hother by done. eapply fate_hosts; [|exact Hf']. intros. by rewrite Hav.
  - intros id Hid. apply not_elem_of_cons in Hid as [Hid1 Hid2]. rewrite Hrest by done. by apply Hne.
  - rewrite fmap_cons, Heq, Hv, !count_cons, He, Hf, Hs. unfold c'. destruct v; simpl; lia.
Qed.

(** A property that every effect keeps, and that does not look at the rows of
    evacuations, is kept by an evacuation. *)
Lemma evacuation_inv (P : DB → Prop) now uuid os ended hostUUID hostName trigger db :
  (∀ t db db' v, effect hostUUID t db db' v → P db → P db') →
  (∀ f db, P db → P (set_evacuations f db)) → P db →
  P (evacuateHostInternal now uuid os ended hostUUID hostName trigger db).
Proof.
  intros HP Hset Hdb. unfold evacuateHostInternal, put_evacuation.
  match goal with |- context [match ?l with [] => _ | _ => _ end] => destruct l; [by auto|] end.
  match goal with |- context [evacuate_targets ?a ?b ?c ?d ?e] =>
    pose proof (evacuate_targets_inv P a b c d e HP) as H;
    destruct (evacuate_targets a b c d e) as [[[? ?] ?] db'] end.
  apply Hset. apply H. by auto.
Qed.

Lemma with_allocated_nothing h : with_allocated (mkFlavor 0 0 0) h = h.
Proof. destruct h. unfold with_allocated. simpl. by rewrite !Z.add_0_r. Qed.

(** An instance stayed where it was or went to the host [dest]. *)
Definition drawn (dest : string) (i i' : Instance) : Prop :=
  i_Size i' = i_Size i ∧ (i_HostID i' = i_HostID i ∨ i_HostID i' = dest).

(** When the sizes cannot be read, all instances that move go to the same host,
    whatever its room, and nothing is allocated for them. *)
Theorem unsized_one_host now uuid os ended hostUUID hostName trigger db dest rest :
  sized = false →
  least_loaded (filter (λ h, candidate hostUUID (mkFlavor 0 0 0) h = true) (hosts db)) = dest :: rest →
  let db' := evacuateHostInternal now uuid os ended hostUUID hostName trigger db in
  hosts db' = hosts db ∧
  Forall2 (drawn (h_UUID dest))
    (instances db) (instances db').
Proof.
  intros Hs Hd. apply (evacuation_inv (λ db', hosts db' = hosts db ∧
    Forall2 (drawn (h_UUID dest)) (instances db) (instances db'))).
  - intros t db1 db2 v Heff [Hh HF].
    assert (∀ id, flavor_of db1 id = mkFlavor 0 0 0) as Hfl.
    { intros id. unfold flavor_of. rewrite Hs. by destruct (find_instance db1 id). }
    assert (∀ P f, (∀ i, drawn (h_UUID dest) i (f i)) →
      Forall2 (drawn (h_UUID dest))
        (instances db) (update P f (instances db1))) as Hup.
    { intros P f Hf. apply list.Forall2_fmap_r. eapply list.Forall2_impl; [exact HF|].
      intros i i' [Hz Hi]. simpl. destruct (P i'); [|done]. unfold drawn.
      destruct (Hf i') as [-> [->| ->]]; auto. }
    destruct Heff as [_ Hh' _ Hi|now' c _ _ Hh' _ Hi|Hh' _ Hi|Hh' _ Hi|now' dest' rest' fi Hl Hh' Hi];
      rewrite Hi; split; try congruence; try done; try (apply Hup; by split; auto).
    + rewrite Hh'. unfold fi. rewrite Hfl. transitivity (hosts db1); [|done].
      rewrite <- (list_fmap_id (hosts db1)) at 2. apply list_fmap_ext. intros n h _. simpl.
      rewrite with_allocated_nothing. by case_goal.
    + unfold fi in Hl. rewrite Hfl, Hh, Hd in Hl. simplify_eq. apply Hup. by split; auto.
  - done.
  - split; [done|]. apply list.Forall2_same_length_lookup_2; [done|]. intros. simplify_eq. unfold drawn. auto.
Qed.

Lemma put_last e l db :
  evacuations db = l ++ [e] → Forall (λ w, e_ID w < e_ID e) l →
  ∀ e', e_ID e' = e_ID e → evacuations (put_evacuation e' db) = l ++ [e'].
Proof.
  intros E Hl e' He. unfold put_evacuation, set_evacuations, update. simpl.
  rewrite E, fmap_app. simpl. rewrite He, Z.eqb_refl. f_equal.
  rewrite <- (list_fmap_id l) at 2. apply list_fmap_ext. intros n w Hw.
  pose proof (proj1 (list.Forall_forall _ _) Hl w (list_elem_of_lookup_2 _ _ _ Hw)) as Hlt.
  simpl in *. by rewrite (proj2 (Z.eqb_neq _ _)) by lia.
Qed.

Lemma count_perm v l l' : l ≡ₚ l' → count v l = count v l'.
Proof. intros H. unfold count. by rewrite H. Qed.

Lemma find_instance_nodup db i :
  NoDup (i_ID <$> instances db) → i ∈ instances db → find_instance db (i_ID i) = Some i.
Proof.
  intros Hn Hi. unfold find_instance. destruct (List.find _ _) as [j|] eqn:E.
  - apply List.find_some in E as [Hj E]. zbool. f_equal. apply list_elem_of_In in Hj.
    by eapply nodup_key.
  - apply list_elem_of_In in Hi. eapply List.find_none in E; [|exact Hi]. by rewrite Z.eqb_refl in E.
Qed.

Lemma imap_snd (os : nat → oracle) (l : list target) : (imap (λ n t, (os n, t)) l).*2 = l.
Proof.
  revert os. induction l as [|t l IH]; intros os; [done|]. simpl. f_equal. apply (IH (os ∘ S)).
Qed.

Lemma targets_ids db insts :
  t_InstanceID <$> sort_targets (target_of db <$> insts) ≡ₚ i_ID <$> insts.
Proof.
  rewrite (proj1 (sort_targets_sorted _)), <- list_fmap_compose. apply reflexive_eq, list_fmap_ext.
  intros n i _. simpl. unfold target_of. by destruct (find_config db (i_ID i)).
Qed.

(** C21: Every instance that ran on the host meets its fate, the others stay as they
    were, and the row of the evacuation says how many met which. *)
Theorem evacuation_accounts now uuid os ended hostUUID hostName trigger db :
  NoDup (i_ID <$> instances db) → Forall (λ w, e_ID w < next (evacuations db)) (evacuations db) →
  let insts := filter (λ i, running_on hostUUID i = true) (instances db) in
  let db' := evacuateHostInternal now uuid os ended hostUUID hostName trigger db in
  ∃ w : Z → verdict,
    (∀ i, i ∈ insts → ∃ i', find_instance db' (i_ID i) = Some i' ∧
      fate hostUUID (hosts db) i (w (i_ID i)) i') ∧
    (∀ id, id ∉ i_ID <$> insts → find_instance db' id = find_instance db id) ∧
    let vs := w <$> (i_ID <$> insts) in
    ∃ row, evacuations db' = evacuations db ++ [row] ∧
      e_Evacuated row = count Evacuated vs ∧ e_Failed row = count Failed vs ∧
      e_Skipped row = count Skipped vs ∧ e_TotalInstances row = Z.of_nat (length insts) ∧
      e_CompletedAt row = Some ended ∧
      e_Status row = if e_Failed row =? 0 then "completed"
        else if 0 <? e_Evacuated row then "partial" else "failed".
Proof.
  intros Hn Hev insts. unfold evacuateHostInternal. cbv zeta.
  set (evt := mkEvacuation _ uuid _ _ _ _ _ _ _ _ _ _). cbn [instances set_evacuations]. fold insts.
  set (db1 := set_evacuations _ db). set (db2 := put_evacuation _ db1).
  assert (evacuations db2 = evacuations db ++ [with_counts "running" (Z.of_nat (length insts)) 0 0 0 None evt])
    as E2 by (apply (put_last evt); [reflexivity|exact Hev|reflexivity]).
  assert (∀ i, i ∈ insts → i ∈ instances db) as Hsub.
  { intros i Hi. apply list_elem_of_filter in Hi. tauto. }
  destruct insts as [|i0 l0] eqn:Hins.
  { exists (λ _, Failed). split; [by intros ? ?%not_elem_of_nil|]. split; [done|].
    eexists. split; [by apply (put_last _ _ _ E2)|]. done. }
  rewrite <- Hins in *.
  match goal with |- context [evacuate_targets ?a ?b ?c ?d ?e] =>
    pose proof (evacuate_targets_fate a b c d e) as Hfate;
    pose proof (evacuate_targets_inv (λ _, True) a b c d e (λ _ _ _ _ _ H, H) I) as Hinv;
    destruct (evacuate_targets a b c d e) as [[[e' f'] s'] db'] end.
  rewrite imap_snd in Hfate. destruct Hinv as (_ & _ & _ & _ & _ & Hevs & _).
  destruct Hfate as (w & Hw & Hrest & He & Hf & Hs).
  { rewrite targets_ids. eapply sublist_NoDup; [exact Hn|]. apply fmap_sublist, sublist_filter. }
  exists w. split; [|split].
  - intros i Hi. pose proof (targets_ids db2 insts) as Hp.
    assert (i_ID i ∈ t_InstanceID <$> sort_targets (target_of db2 <$> insts)) as Ht.
    { rewrite Hp. by apply list_elem_of_fmap_2. }
    apply list_elem_of_fmap in Ht as (t & Hti & Ht). rewrite Hti. apply Hw; [done|]. rewrite <- Hti.
    by apply (find_instance_nodup db2); [|apply Hsub].
  - intros id Hid. apply Hrest. by rewrite targets_ids.
  - pose proof (λ v, count_perm v _ _ (fmap_Permutation w _ _ (targets_ids db2 insts))) as Hc.
    rewrite Hc in He. rewrite Hc in Hf. rewrite Hc in Hs.
    eexists. split; [rewrite E2 in Hevs; by apply (put_last _ _ _ Hevs)|]. simpl. subst. done.
Qed.

(** *** The monitor *)

Definition taken_down (now : Z) (h : Host) : Host :=
  with_states "down" (if autoFence then "disabled" else h_ResourceState h) (Some now) h.

Definition take_down (now : Z) (db : DB) (h : Host) : DB :=
  let db := set_hosts (update (λ x, negb (h_Deleted x) && (h_ID x =? h_ID h))
    (λ x, with_states "down" (h_ResourceState x) (Some now) x)) db in
  if autoFence then fenceHostInternal now (h_UUID h) (h_Name h) "heartbeat_timeout" db else db.

(** Ids and UUIDs of [fs] name the same rows. *)
Definition coherent (fs hs : list Host) : Prop :=
  ∀ h x, h ∈ fs → x ∈ hs → h_ID x = h_ID h ↔ h_UUID x = h_UUID h.

Lemma take_down_hosts now db h :
  coherent [h] (hosts db) →
  hosts (take_down now db h)
  = update (λ x, negb (h_Deleted x) && (h_ID x =? h_ID h)) (taken_down now) (hosts db).
Proof.
  intros Hc. unfold take_down, taken_down. destruct autoFence; [|done]. simpl. unfold update.
  rewrite <- list_fmap_compose. apply list_fmap_ext. intros n x Hx. simpl.
  specialize (Hc h x). rewrite list_elem_of_singleton in Hc.
  specialize (Hc eq_refl (list_elem_of_lookup_2 _ _ _ Hx)).
  destruct (h_Deleted x) eqn:D; simpl; [by rewrite D|].
  destruct (h_ID x =? h_ID h) eqn:E; zbool; simpl; rewrite D; simpl.
  - by rewrite bool_decide_eq_true_2 by tauto.
  - by rewrite bool_decide_eq_false_2 by tauto.
Qed.

Lemma coherent_update fs P now hs : coherent fs hs → coherent fs (update P (taken_down now) hs).
Proof.
  intros H h x Hh Hx. apply list_elem_of_fmap in Hx as (y & -> & Hy). specialize (H h y Hh Hy).
  by destruct (P y).
Qed.

Lemma take_down_all now fs db :
  coherent fs (hosts db) →
  let db' := foldl (take_down now) db fs in
  hosts db' = update (λ x, negb (h_Deleted x) && bool_decide (h_ID x ∈ h_ID <$> fs)) (taken_down now) (hosts db) ∧
  length (fencing db') = (length (fencing db) + if autoFence then length fs else 0)%nat ∧
  instances db' = instances db ∧ configs db' = configs db.
Proof.
  revert db. induction fs as [|h fs IH]; intros db Hc; cbn [foldl].
  - split_and!; try done; [|by destruct autoFence]. unfold update.
    rewrite <- (list_fmap_id (hosts db)) at 1. apply list_fmap_ext. intros n x _.
    by rewrite (bool_decide_eq_false_2 (h_ID x ∈ _)), andb_false_r by apply not_elem_of_nil.
  - assert (coherent [h] (hosts db)) as H1.
    { intros h' x Hh. apply list_elem_of_singleton in Hh as ->. apply Hc. left. }
    destruct (IH (take_down now db h)) as (Eh & Ef & Ei & Ecf).
    { rewrite take_down_hosts by done. apply coherent_update. intros h' x Hh. apply Hc. by right. }
    split_and!.
    + rewrite Eh, take_down_hosts by done. unfold update. rewrite <- list_fmap_compose.
      apply list_fmap_ext. intros n x _. cbn [fmap list_fmap]. unfold compose.
      destruct (h_Deleted x) eqn:D; simpl; [by rewrite D|].
      pose proof (elem_of_cons (h_ID <$> fs) (h_ID x) (h_ID h)) as Hcons.
      destruct (h_ID x =? h_ID h) eqn:E; zbool; simpl; rewrite D; simpl.
      * rewrite (bool_decide_eq_true_2 (_ ∈ _ :: _)) by tauto. unfold taken_down. by destruct autoFence; case_goal.
      * by rewrite (bool_decide_ext (_ ∈ _ :: _) (h_ID x ∈ h_ID <$> fs)) by tauto.
    + rewrite Ef. unfold take_down. destruct autoFence; simpl; rewrite ?length_app; simpl; lia.
    + rewrite Ei. unfold take_down. by destruct autoFence.
    + rewrite Ecf. unfold take_down. by destruct autoFence.
Qed.

(** A round of the monitor marks exactly the silent hosts as down, fencing each
    when it is told to, starts their evacuations when it is told to, and leaves
    none behind. *)
Theorem monitor_round now db :
  NoDup (h_ID <$> hosts db) → NoDup (h_UUID <$> hosts db) →
  let found := filter (λ h, downed now h = true) (hosts db) in
  let '(evacuating, db') := checkAndEvacuate now None db in
  hosts db' = update (downed now) (taken_down now) (hosts db) ∧
  Forall (λ h, downed now h = false) (hosts db') ∧
  evacuating = (if autoEvacuate then (λ h, (h_UUID h, h_Name h)) <$> found else []) ∧
  length (fencing db') = (length (fencing db) + if autoFence then length found else 0)%nat ∧
  instances db' = instances db.
Proof.
  intros H1 H2 found. unfold checkAndEvacuate. fold found.
  assert (∀ h, h ∈ found ↔ downed now h = true ∧ h ∈ hosts db) as Hfound.
  { intros h. unfold found. by rewrite list_elem_of_filter. }
  destruct (take_down_all now found db) as (Eh & Ef & Ei & _).
  { intros h x Hh Hx. apply Hfound in Hh as [_ Hh].
    split; intros E; f_equal; by eapply nodup_key; [| | |exact E]. }
  assert (hosts (foldl (take_down now) db found) = update (downed now) (taken_down now) (hosts db)) as Eh'.
  { rewrite Eh. apply list_fmap_ext. intros n x Hx. apply list_elem_of_lookup_2 in Hx.
    assert (downed now x = negb (h_Deleted x) && bool_decide (h_ID x ∈ h_ID <$> found)) as ->; [|done].
    apply eq_true_iff_eq. rewrite andb_true_iff, bool_decide_eq_true, list_elem_of_fmap. split.
    - intros Hd. split; [revert Hd; unfold downed; by destruct (h_Deleted x)|]. exists x. by rewrite Hfound.
    - intros [_ (h & E & Hh)]. apply Hfound in Hh as [Hd Hh].
      assert (x = h) as -> by (by eapply nodup_key; [exact H1|..]). done. }
  split_and!; try done.
  change (Forall (λ h, downed now h = false) (hosts (foldl (take_down now) db found))). rewrite Eh'.
  apply list.Forall_fmap, list.Forall_forall. intros h _. simpl.
  destruct (downed now h) eqn:E; [|done]. unfold downed, taken_down. simpl. by rewrite andb_false_r.
Qed.

(** *** Protection of instances *)

(** Disabling the protection of an instance that has no row of its own answers
    that it is disabled and leaves it enabled; asking again disables it. *)
Theorem disable_without_row param id i db :
  ParseUint32 param = Some id → i_ID i = id → find_config db id = None →
  let said_so := (200, JObj [("ok", JBool true); ("ha_enabled", JBool false)]) in
  let (r, db') := disableInstanceHA param db in
  let (r', db'') := disableInstanceHA param db' in
  r = said_so ∧ t_HAEnabled (target_of db' i) = true ∧
  r' = said_so ∧ t_HAEnabled (target_of db'' i) = false.
Proof.
  intros Hp Hi Hnone. unfold disableInstanceHA, setInstanceHAState. rewrite Hp, Hnone.
  set (c := created_config (next (configs db)) id false).
  assert (find_config (set_configs (λ l, l ++ [created_config (next l) id false]) db) id = Some c) as Hfind.
  { unfold find_config in *. simpl. rewrite find_app_none by done. simpl. by rewrite Z.eqb_refl. }
  rewrite Hfind. unfold target_of. rewrite Hi, Hfind. split_and!; [done| |done|].
  - simpl. by rewrite stored_bool_spec.
  - unfold find_config in *. simpl in *. rewrite find_update by done. rewrite Hfind. simpl.
    by rewrite Z.eqb_refl.
Qed.
End service.

(** ** Instances *)

(** The order of the query. *)
Definition by_allocation (a b : Host) : Prop :=
  h_CPUAllocated a < h_CPUAllocated b ∨
  (h_CPUAllocated a = h_CPUAllocated b ∧ h_RAMAllocatedMB a <= h_RAMAllocatedMB b).

#[export] Instance by_allocation_dec a b : Decision (by_allocation a b).
Proof. unfold by_allocation. apply _. Defined.

Definition order_by : list Host → list Host := merge_sort by_allocation.

Lemma order_by_perm l : order_by l ≡ₚ l.
Proof. apply merge_sort_Permutation. Qed.

Definition a_host (id : Z) (uuid status : string) (cores allocated : Z) : Host :=
  mkHost id uuid uuid status "enabled" cores 4096 100 allocated 1536 15 None None false.

Definition an_instance (id : Z) (name host : string) (cpus : Z) : Instance :=
  mkInstance id name host "active" "running" (mkFlavor cpus 512 5) 0 false.

(** Three hosts, one of them down with three instances on it. *)
Definition cluster : DB :=
  mkDB [a_host 1 "host-a" "down" 8 8; a_host 2 "host-b" "up" 8 2; a_host 3 "host-c" "up" 8 3]
    [an_instance 11 "web" "host-a" 5; an_instance 12 "db" "host-a" 2; an_instance 13 "batch" "host-a" 1;
     an_instance 14 "cache" "host-b" 2]
    [] [mkConfig 1 12 None true 100 3 0 None; mkConfig 2 13 None false 0 3 0 None] [] [] [].

Definition quiet (n : nat) : oracle := mkOracle (Z.of_nat n) None None.

Lemma cluster_keys :
  NoDup (h_ID <$> hosts cluster) ∧ NoDup (h_UUID <$> hosts cluster) ∧ NoDup (i_ID <$> instances cluster).
Proof. split_and!; apply (bool_decide_unpack _); vm_compute; exact I. Qed.

Lemma evacuation_accounts_witness :
  evacuations (evacuateHostInternal true order_by 0 "ev-1" quiet 9 "host-a" "host-a" "manual" cluster)
  = [mkEvacuation 1 "ev-1" "host-a" "host-a" "manual" "completed" 3 2 0 1 0 (Some 9)].
Proof.
  pose proof (evacuation_accounts true order_by order_by_perm 0 "ev-1" quiet 9 "host-a" "host-a" "manual"
    cluster (proj2 (proj2 cluster_keys)) (list.Forall_nil_2 _)) as (w & _ & _ & row & E & _).
  vm_compute. reflexivity.
Defined.

(** The cores that the instances of a host need together. *)
Definition cores_on (uuid : string) (l : list Instance) : Z :=
  foldr (λ i n, (if bool_decide (i_HostID i = uuid) then VCPUs (i_Size i) else 0) + n) 0 l.

(** Nine cores are asked of a host that has eight, two of them shown as taken. *)
Lemma unsized_one_host_witness :
  let db' := evacuateHostInternal false order_by 0 "ev-1" quiet 9 "host-a" "host-a" "manual" cluster in
  hosts db' = hosts cluster ∧ cores_on "host-b" (instances db') = 9.
Proof.
  split; [|vm_compute; reflexivity].
  apply (unsized_one_host false order_by 0 "ev-1" quiet 9 "host-a" "host-a" "manual" cluster
    (a_host 2 "host-b" "up" 8 2) [a_host 3 "host-c" "up" 8 3]); reflexivity.
Defined.

Lemma monitor_round_witness :
  h_Status <$> hosts (checkAndEvacuate (90 * second) true true (100 * second) None cluster).2
  = ["down"; "down"; "down"].
Proof.
  pose proof (monitor_round (90 * second) true true (100 * second) cluster
    (proj1 cluster_keys) (proj1 (proj2 cluster_keys))) as H.
  destruct (checkAndEvacuate _ _ _ _ _ _) as [l db'] eqn:E. destruct H as (H & _). simpl. by rewrite H.
Defined.

Lemma disable_without_row_witness :
  t_HAEnabled (target_of (disableInstanceHA (defaults := gorm_defaults) "11" cluster).2
    (an_instance 11 "web" "host-a" 5)) = true.
Proof.
  pose proof (disable_without_row (defaults := gorm_defaults) "11" 11 (an_instance 11 "web" "host-a" 5)
    cluster eq_refl eq_refl eq_refl) as H.
  destruct (disableInstanceHA "11" cluster) as [r db']. by destruct (disableInstanceHA "11" db'), H as (_ & H & _).
Defined.
