(* ===== verification/Sessions.v ===== *)
(** * Users, sessions and second factors

    internal/management/identity: login, access and refresh tokens (service.go),
    the handlers of users, profiles and passwords (handlers.go, handler_user.go,
    handler_profile.go), multi-factor authentication (mfa.go) and temporary
    credentials (sts.go). The login throttle is the one of Throttle, the
    middleware in front of the protected handlers the one of Rbac. JWT, bcrypt and
    TOTP are interfaces; the clock, random bytes and the outcome of database
    writes are arguments. The theorems say when a login succeeds and what its
    token says, that a refresh token that was revoked and a recovery code that was
    used are refused for good, that no answer depends on stored secrets; and what
    the handlers allow beyond that. *)
From Stdlib Require Import Ascii.
From S2P Require Import Prelude GoStrings Utf8 NetIP Sha256 Aes Policy Throttle Rbac Http.
Local Open Scope Z_scope.

(** ** Third-party libraries *)

(** The claims of a token: the fields of [Claims] and of [MFAClaims], a missing
    one being read as its zero value. Dates are in seconds. *)
Record Payload := mkPayload {
  p_UserID : Z; p_ProjectID : Z; p_Username : string; p_Email : string; p_IsAdmin : bool;
  p_Roles : list string; p_Permissions : list string; p_Purpose : string;
  p_Subject : string; p_IssuedAt : Z; p_ExpiresAt : Z; p_NotBefore : option Z;
  p_Issuer : string; p_Audience : list string
}.

(** JSON replaces the bytes of a text that are not UTF-8. *)
Definition json_text (s : string) : string := encode (runes s).

Definition transmitted (p : Payload) : Payload :=
  mkPayload (p_UserID p) (p_ProjectID p) (json_text (p_Username p)) (json_text (p_Email p)) (p_IsAdmin p)
    (json_text <$> p_Roles p) (json_text <$> p_Permissions p) (json_text (p_Purpose p))
    (json_text (p_Subject p)) (p_IssuedAt p) (p_ExpiresAt p) (p_NotBefore p) (json_text (p_Issuer p))
    (json_text <$> p_Audience p).

(** When the dates of a token admit its use. *)
Definition timely (now : Z) (p : Payload) : bool :=
  (now <? p_ExpiresAt p * second)
  && match p_NotBefore p with Some t => t * second <=? now | None => true end.

(** golang-jwt: a token signed with a secret is accepted with that secret, at
    the times it admits. *)
Class JWT := {
  SignedString : string → Payload → string;
  ParseWithClaims : string → Z → string → option Payload;
  ParseWithClaims_signed secret now p :
    ParseWithClaims secret now (SignedString secret p)
    = if timely now p then Some (transmitted p) else None
}.

(** bcrypt: the hash of a password with a salt, and the comparison with a hash,
    which a text that is too short for a hash never passes. *)
Class Bcrypt := {
  GenerateFromPassword : list Z → string → result string string;
  CompareHashAndPassword : string → string → bool;
  Compare_generated salt pw h :
    GenerateFromPassword salt pw = Ok h → CompareHashAndPassword h pw = true;
  Compare_empty pw : CompareHashAndPassword "" pw = false
}.

(** The check of a one-time code against a secret. *)
Class TOTP := totp_Validate : Z → string → string → bool.

(** ** Tables *)

(** The recovery codes are a JSON array of hashes, or the empty text. *)
Record User := mkUser {
  ID : Z; Username : string; Email : string; Password : string; FirstName : string;
  LastName : string; IsActive : bool; IsAdmin : bool; MFAEnabled : bool; MFASecret : string;
  RecoveryCodes : option (list string); MFAVerifiedAt : option Z
}.

Record Role := mkRole { r_ID : Z; r_Name : string; r_Description : string }.

Record Permission := mkPermission {
  pm_ID : Z; pm_Name : string; pm_Resource : string; pm_Action : string; pm_Description : string
}.

Record RefreshToken := mkRefreshToken {
  t_ID : Z; t_Token : string; t_UserID : Z; t_ExpiresAt : Z; t_IsRevoked : bool
}.

Record TrustStatement := mkTrust {
  Effect : string; Identities : list string; Projects : list string; All : bool; Action : string
}.

Record STSSession := mkSession {
  s_ID : Z; s_AccessKeyID : string; s_SecretKey : string; s_SessionToken : string; s_UserID : Z;
  s_AssumedRoleID : Z; s_SessionName : string; s_ProjectID : Z; s_ExpiresAt : Z
}.

(** A policy with its document, which Policy.v evaluates. *)
Record PolicyRow := mkPolicyRow {
  po_ID : Z; po_Policy : Policy; po_Description : string; po_Type : string
}.

Record Project := mkProject {
  pr_ID : Z; pr_Name : string; pr_Description : string; pr_UserID : Z
}.

(** Roles, permissions and policies are joined by pairs of ids. The throttle is in
    memory. *)
Record DB := mkDB {
  users : list User;
  roles : list Role;
  permissions : list Permission;
  policies : list PolicyRow;
  user_roles : list (Z * Z);
  role_permissions : list (Z * Z);
  role_policies : list (Z * Z);
  projects : list Project;
  refresh_tokens : list RefreshToken;
  trust_policies : list (Z * list TrustStatement);
  sts_sessions : list STSSession;
  throttle : loginThrottle
}.

Definition set_users (f : list User → list User) (db : DB) : DB :=
  mkDB (f (users db)) (roles db) (permissions db) (policies db) (user_roles db) (role_permissions db)
    (role_policies db) (projects db) (refresh_tokens db) (trust_policies db) (sts_sessions db) (throttle db).
Definition set_tokens (f : list RefreshToken → list RefreshToken) (db : DB) : DB :=
  mkDB (users db) (roles db) (permissions db) (policies db) (user_roles db) (role_permissions db)
    (role_policies db) (projects db) (f (refresh_tokens db)) (trust_policies db) (sts_sessions db) (throttle db).
Definition set_sessions (f : list STSSession → list STSSession) (db : DB) : DB :=
  mkDB (users db) (roles db) (permissions db) (policies db) (user_roles db) (role_permissions db)
    (role_policies db) (projects db) (refresh_tokens db) (trust_policies db) (f (sts_sessions db)) (throttle db).
Definition set_throttle (lt : loginThrottle) (db : DB) : DB :=
  mkDB (users db) (roles db) (permissions db) (policies db) (user_roles db) (role_permissions db)
    (role_policies db) (projects db) (refresh_tokens db) (trust_policies db) (sts_sessions db) lt.

(** [First] by primary key. *)
Definition find_user (db : DB) (id : Z) : option User := List.find (λ u, ID u =? id) (users db).

Definition on_user (id : Z) (f : User → User) : DB → DB :=
  set_users (fmap (λ u, if ID u =? id then f u else u)).

Definition with_mfa (enabled : bool) (secret : string) (codes : option (list string))
    (verified : option Z) (u : User) : User :=
  mkUser (ID u) (Username u) (Email u) (Password u) (FirstName u) (LastName u) (IsActive u) (IsAdmin u)
    enabled secret codes verified.

Definition with_codes (codes : option (list string)) (u : User) : User :=
  with_mfa (MFAEnabled u) (MFASecret u) codes (MFAVerifiedAt u) u.

Definition with_password (h : string) (u : User) : User :=
  mkUser (ID u) (Username u) (Email u) h (FirstName u) (LastName u) (IsActive u) (IsAdmin u)
    (MFAEnabled u) (MFASecret u) (RecoveryCodes u) (MFAVerifiedAt u).

Definition with_profile (email first last : string) (active admin : bool) (u : User) : User :=
  mkUser (ID u) (Username u) email (Password u) first last active admin
    (MFAEnabled u) (MFASecret u) (RecoveryCodes u) (MFAVerifiedAt u).

(** [Preload("Roles.Permissions")]. *)
Definition roles_of (db : DB) (uid : Z) : list Role :=
  filter (λ r, (uid, r_ID r) ∈ user_roles db) (roles db).

Definition permissions_of (db : DB) (rid : Z) : list Permission :=
  filter (λ p, (rid, pm_ID p) ∈ role_permissions db) (permissions db).

Definition permission_text (p : Permission) : string := pm_Resource p +:+ ":" +:+ pm_Action p.

Definition user_permissions (db : DB) (uid : Z) : list string :=
  r ← roles_of db uid; permission_text <$> permissions_of db (r_ID r).

(** The text of random bytes in URL encoding, and without padding. *)
Definition url_char (c : ascii) : ascii :=
  if decide (c = "+"%char) then "-"%char else if decide (c = "/"%char) then "_"%char else c.

Fixpoint url_text (s : string) : string :=
  match s with EmptyString => "" | String c s => String (url_char c) (url_text s) end.

Fixpoint unpadded (s : string) : string :=
  match s with
  | EmptyString => ""
  | String c s => if decide (c = "="%char) then "" else String c (unpadded s)
  end.

Definition URLEncoding (bs : list Z) : string := url_text (b64_encode bs).
Definition RawURLEncoding (bs : list Z) : string := unpadded (URLEncoding bs).

(** ** Tokens and login *)

Section service.
Context {jwt : JWT} {bcrypt : Bcrypt} {totp : TOTP}.

(** The configuration of the tokens. *)
Variable Secret : string.
Variable ExpiresIn RefreshExpiresIn : Z.

(** [jwt.NewNumericDate]. *)
Definition NumericDate (t : Z) : Z := t / second.

Definition access_payload (now : Z) (u : User) (db : DB) : Payload :=
  let project := match List.find (λ p, pr_UserID p =? ID u) (projects db) with
                 | Some p => pr_ID p | None => 0 end in
  mkPayload (ID u) project (Username u) (Email u) (IsAdmin u) (r_Name <$> roles_of db (ID u))
    (user_permissions db (ID u)) "" (Itoa (ID u)) (NumericDate now) (NumericDate (now + ExpiresIn))
    (Some (NumericDate now)) "vc-stack-identity" ["vc-stack"].

Definition generateAccessToken (now : Z) (u : User) (db : DB) : string :=
  SignedString Secret (access_payload now u db).

(** The bytes drawn, the id that the database draws and the error of the write
    are arguments; a token is unique in its table. *)
Record drawn_token := mkDrawn {
  d_bytes : result string (list Z); d_id : Z; d_create : option string
}.

Definition generateRefreshToken (now : Z) (d : drawn_token) (u : User) (db : DB)
    : result string string * DB :=
  match d_bytes d with
  | Err e => (Err e, db)
  | Ok bs =>
      let token := URLEncoding bs in
      match d_create d with
      | Some e => (Err e, db)
      | None =>
          if existsb (λ t, bool_decide (t_Token t = token) || (t_ID t =? d_id d)) (refresh_tokens db)
          then (Err "duplicate key", db)
          else (Ok token, set_tokens (λ l, l ++ [mkRefreshToken (d_id d) token (ID u)
                                              (now + RefreshExpiresIn) false]) db)
      end
  end.

Definition ValidateToken (now : Z) (token : string) : option Claims :=
  p ← ParseWithClaims Secret now token;
  Some (mkClaims (p_UserID p) (p_Username p) (p_IsAdmin p) (p_Roles p) (p_Permissions p)).

Definition mfa_payload (now : Z) (u : User) : Payload :=
  mkPayload (ID u) 0 (Username u) "" false [] [] "mfa_challenge" (Itoa (ID u)) (NumericDate now)
    (NumericDate (now + 5 * minute)) None "vc-stack-identity" [].

Definition generateMFAToken (now : Z) (u : User) : string := SignedString Secret (mfa_payload now u).

Definition validateMFAToken (now : Z) (token : string) : option Z :=
  p ← ParseWithClaims Secret now token;
  if decide (p_Purpose p = "mfa_challenge") then Some (p_UserID p) else None.

Definition validateTOTP (now : Z) (u : User) (code : string) : bool :=
  if decide (MFASecret u = "") then false else totp_Validate now code (MFASecret u).

(** The list without the first hash that a code matches. *)
Fixpoint use_code (code : string) (hashes : list string) : option (list string) :=
  match hashes with
  | [] => None
  | h :: hashes =>
      if CompareHashAndPassword h code then Some hashes
      else cons h <$> use_code code hashes
  end.

(** [written] tells whether the update takes effect, its error being dropped. *)
Definition validateRecoveryCode (written : bool) (u : User) (code : string) (db : DB) : bool * DB :=
  match RecoveryCodes u ≫= use_code code with
  | None => (false, db)
  | Some rest =>
      (true, if written then on_user (ID u) (with_codes (Some rest)) db else db)
  end.

(** The second factor of [Login] and of the challenge. *)
Definition second_factor (now : Z) (written : bool) (u : User) (code : string) (db : DB) : bool * DB :=
  if validateTOTP now u code then (true, db) else validateRecoveryCode written u code db.

Definition authenticateUser (username password : string) (db : DB) : option User :=
  u ← List.find (λ u, (bool_decide (Username u = username) || bool_decide (Email u = username))
                      && IsActive u) (users db);
  if CompareHashAndPassword (Password u) password then Some u else None.

Record LoginRequest := mkLogin { l_Username : string; l_Password : string; l_TOTPCode : string }.

Record LoginResponse := mkLoginResponse {
  AccessToken : string; l_RefreshToken : string; l_ExpiresIn : Z; l_User : option User;
  MFARequired : bool; MFAToken : string
}.

(** The two tokens of a session. *)
Definition issue (now : Z) (d : drawn_token) (u : User) (db : DB) : result string LoginResponse * DB :=
  let access := generateAccessToken now u db in
  match generateRefreshToken now d u db with
  | (Err e, db) => (Err ("failed to generate refresh token: " +:+ e), db)
  | (Ok refresh, db) =>
      (Ok (mkLoginResponse access refresh (Z.quot ExpiresIn second) (Some u) false ""), db)
  end.

Definition Login (now : Z) (written : bool) (d : drawn_token) (req : LoginRequest) (db : DB)
    : result string LoginResponse * DB :=
  let '((blocked, remaining), lt) := check now (throttle db) (l_Username req) in
  let db := set_throttle lt db in
  if blocked then
    (Err ("too many failed login attempts, try again in " +:+ Itoa (Z.quot remaining second) +:+ " seconds"), db)
  else
    match authenticateUser (l_Username req) (l_Password req) db with
    | None => (Err "invalid credentials",
               set_throttle (recordFailure now (throttle db) (l_Username req)) db)
    | Some u =>
        let db := set_throttle (clear (throttle db) (l_Username req)) db in
        if MFAEnabled u then
          if decide (l_TOTPCode req = "")
          then (Ok (mkLoginResponse "" "" 0 None true (generateMFAToken now u)), db)
          else
            match second_factor now written u (l_TOTPCode req) db with
            | (false, db) => (Err "invalid MFA code", db)
            | (true, db) => issue now d u db
            end
        else issue now d u db
    end.

Definition RefreshAccessToken (now : Z) (refreshToken : string) (db : DB) : result string LoginResponse :=
  match List.find (λ t, bool_decide (t_Token t = refreshToken) && (now <? t_ExpiresAt t)
                        && negb (t_IsRevoked t)) (refresh_tokens db) with
  | None => Err "invalid refresh token"
  | Some t =>
      (* The user that is loaded with the token; the zero value if there is none. *)
      let u := default (mkUser 0 "" "" "" "" "" false false false "" None None) (find_user db (t_UserID t)) in
      Ok (mkLoginResponse (generateAccessToken now u db) refreshToken (Z.quot ExpiresIn second) (Some u) false "")
  end.

Definition revoked (t : RefreshToken) : RefreshToken :=
  mkRefreshToken (t_ID t) (t_Token t) (t_UserID t) (t_ExpiresAt t) true.

Definition Logout (write : option string) (refreshToken : string) (db : DB) : option string * DB :=
  match write with
  | Some e => (Some e, db)
  | None =>
      (None, set_tokens (fmap (λ t, if decide (t_Token t = refreshToken) then revoked t else t)) db)
  end.

(** ** Answers *)

Definition permission_json (p : Permission) : json := JObj [
  ("id", JNum (pm_ID p)); ("name", JStr (pm_Name p)); ("resource", JStr (pm_Resource p));
  ("action", JStr (pm_Action p)); ("description", JStr (pm_Description p))].

Definition role_json (perms : json) (r : Role) : json := JObj [
  ("id", JNum (r_ID r)); ("name", JStr (r_Name r)); ("description", JStr (r_Description r));
  ("permissions", perms); ("policies", JNull)].

(** A user without its secrets; [rs] are the roles where they were loaded. *)
Definition user_json (rs : json) (u : User) : json := JObj [
  ("id", JNum (ID u)); ("username", JStr (Username u)); ("email", JStr (Email u));
  ("first_name", JStr (FirstName u)); ("last_name", JStr (LastName u));
  ("is_active", JBool (IsActive u)); ("is_admin", JBool (IsAdmin u));
  ("mfa_enabled", JBool (MFAEnabled u)); ("mfa_verified_at", JOpt JTime (MFAVerifiedAt u));
  ("roles", rs); ("policies", JNull)].

Definition loaded_roles (db : DB) (u : User) : json := 
  JList ((λ r, role_json (JList (permission_json <$> permissions_of db (r_ID r))) r) <$> roles_of db (ID u)).

Definition login_json (db : DB) (r : LoginResponse) : json :=
  if MFARequired r then JObj [("mfa_required", JBool true); ("mfa_token", JStr (MFAToken r))]
  else JObj [("access_token", JStr (AccessToken r)); ("refresh_token", JStr (l_RefreshToken r));
    ("expires_in", JNum (l_ExpiresIn r)); ("token_type", JStr "Bearer");
    ("user", JOpt (λ u, user_json (loaded_roles db u) u) (l_User r))].

(** A cookie: its name, value, age in seconds and path. *)
Definition cookie : Type := string * string * Z * string.

Definition setAuthCookies (r : LoginResponse) : list cookie :=
  ("vc_access_token", AccessToken r, Z.quot ExpiresIn second, "/") ::
  (if decide (l_RefreshToken r = "") then []
   else [("vc_refresh_token", l_RefreshToken r, Z.quot RefreshExpiresIn second, "/api/v1/auth")]).

Definition clearAuthCookies : list cookie :=
  [("vc_access_token", "", -1, "/"); ("vc_refresh_token", "", -1, "/api/v1/auth")].

(** ** Handlers of sessions *)

(** The body of a request is the decoded structure, or the error of decoding or
    validating it. *)
Definition loginHandler (now : Z) (written : bool) (d : drawn_token) (req : result string LoginRequest)
    (db : DB) : (response * list cookie) * DB :=
  match req with
  | Err _ => ((error 400 "Invalid request format", []), db)
  | Ok req =>
      match Login now written d req db with
      | (Err e, db) => ((error 401 e, []), db)
      | (Ok r, db) =>
          (((200, login_json db r), if decide (AccessToken r = "") then [] else setAuthCookies r), db)
      end
  end.

Definition refreshHandler (now : Z) (req : result string string) (db : DB) : response * list cookie :=
  match req with
  | Err _ => (error 400 "Invalid request format", [])
  | Ok token =>
      match RefreshAccessToken now token db with
      | Err e => (error 401 e, [])
      | Ok r => ((200, login_json db r), if decide (AccessToken r = "") then [] else setAuthCookies r)
      end
  end.

Definition logoutHandler (write : option string) (req : result string string) (db : DB)
    : (response * list cookie) * DB :=
  match req with
  | Err _ => ((error 400 "Invalid request format", []), db)
  | Ok token =>
      match Logout write token db with
      | (Some _, db) => ((error 500 "Failed to logout", []), db)
      | (None, db) => ((message 200 "Logged out successfully", clearAuthCookies), db)
      end
  end.

(** ** Handlers of the second factor *)

(** The user of a request behind the middleware. *)
Definition current (c : Keys) (db : DB) : result response User :=
  match c !! "user_id" with
  | None => Err (error 401 "not authenticated")
  | Some _ =>
      match find_user db (context_uid c) with
      | None => Err (error 404 "user not found")
      | Some u => Ok u
      end
  end.

(** The [i]-th code from its four random bytes, and its hash. *)
Fixpoint generate_codes (n i : nat) (rand : nat → result string (list Z)) (salt : nat → list Z)
    : result string (list string * list string) :=
  match n with
  | O => Ok ([], [])
  | S n =>
      match rand i with
      | Err e => Err e
      | Ok b =>
          let code := Sha256.EncodeToString b in
          match GenerateFromPassword (salt i) code with
          | Err e => Err e
          | Ok h =>
              match generate_codes n (S i) rand salt with
              | Err e => Err e
              | Ok (codes, hashes) => Ok (code :: codes, h :: hashes)
              end
          end
      end
  end.

Definition generateRecoveryCodes := generate_codes 10 0.

Definition mfaSetupHandler (key : result string (string * string)) (rand : nat → result string (list Z))
    (salt : nat → list Z) (write : bool) (c : Keys) (db : DB) : response * DB :=
  match current c db with
  | Err r => (r, db)
  | Ok u =>
      if MFAEnabled u
      then (error 409 "MFA is already enabled; disable it first to re-enroll", db)
      else
        match key with
        | Err _ => (error 500 "failed to generate MFA secret", db)
        | Ok (secret, url) =>
            match generateRecoveryCodes rand salt with
            | Err _ => (error 500 "failed to generate recovery codes", db)
            | Ok (codes, hashes) =>
                if write then
                  ((200, JObj [("secret", JStr secret); ("provision_uri", JStr url);
                               ("recovery_codes", JList (JStr <$> codes))]),
                   on_user (ID u) (λ u, with_mfa (MFAEnabled u) secret (Some hashes) (MFAVerifiedAt u) u) db)
                else (error 500 "failed to save MFA configuration", db)
            end
        end
  end.

Definition mfaVerifyHandler (now : Z) (write : bool) (req : result string string) (c : Keys) (db : DB)
    : response * DB :=
  match c !! "user_id" with
  | None => (error 401 "not authenticated", db)
  | Some _ =>
      match req with
      | Err e => (error 400 e, db)
      | Ok code =>
          match current c db with
          | Err r => (r, db)
          | Ok u =>
              if decide (MFASecret u = "")
              then (error 400 "MFA setup not initiated; call /mfa/setup first", db)
              else if negb (totp_Validate now code (MFASecret u))
              then (error 401 "invalid TOTP code", db)
              else if write then
                ((200, JObj [("ok", JBool true); ("message", JStr "MFA is now enabled")]),
                 on_user (ID u) (λ u, with_mfa true (MFASecret u) (RecoveryCodes u) (Some now) u) db)
              else (error 500 "failed to enable MFA", db)
          end
      end
  end.

(** The current user, when the password that the body repeats is theirs. *)
Definition confirmed (req : result string string) (enabled : bool) (c : Keys) (db : DB)
    : result response User :=
  match c !! "user_id" with
  | None => Err (error 401 "not authenticated")
  | Some _ =>
      match req with
      | Err e => Err (error 400 e)
      | Ok password =>
          match current c db with
          | Err r => Err r
          | Ok u =>
              if enabled && negb (MFAEnabled u) then Err (error 400 "MFA is not enabled")
              else if CompareHashAndPassword (Password u) password then Ok u
              else Err (error 401 "incorrect password")
          end
      end
  end.

Definition mfaDisableHandler (write : bool) (req : result string string) (c : Keys) (db : DB)
    : response * DB :=
  match confirmed req false c db with
  | Err r => (r, db)
  | Ok u =>
      if write then
        ((200, JObj [("ok", JBool true); ("message", JStr "MFA has been disabled")]),
         on_user (ID u) (with_mfa false "" None None) db)
      else (error 500 "failed to disable MFA", db)
  end.

Definition mfaRegenerateCodesHandler (rand : nat → result string (list Z)) (salt : nat → list Z)
    (write : bool) (req : result string string) (c : Keys) (db : DB) : response * DB :=
  match confirmed req true c db with
  | Err r => (r, db)
  | Ok u =>
      match generateRecoveryCodes rand salt with
      | Err _ => (error 500 "failed to generate recovery codes", db)
      | Ok (codes, hashes) =>
          if write then
            ((200, JObj [("recovery_codes", JList (JStr <$> codes))]),
             on_user (ID u) (with_codes (Some hashes)) db)
          else (error 500 "failed to save recovery codes", db)
      end
  end.

Definition mfaStatusHandler (c : Keys) (db : DB) : response :=
  match current c db with
  | Err r => r
  | Ok u =>
      (200, JObj [("mfa_enabled", JBool (MFAEnabled u)); ("mfa_verified_at", JOpt JTime (MFAVerifiedAt u));
        ("recovery_codes_remaining", JNum (Z.of_nat (length (default [] (RecoveryCodes u)))))])
  end.

(** The second step of a login: the token of the first and a code. *)
Definition mfaChallengeHandler (now : Z) (written : bool) (d : drawn_token)
    (req : result string (string * string)) (db : DB) : response * DB :=
  match req with
  | Err e => (error 400 e, db)
  | Ok (token, code) =>
      match validateMFAToken now token with
      | None => (error 401 "invalid or expired MFA token", db)
      | Some uid =>
          match find_user db uid with
          | None => (error 404 "user not found", db)
          | Some u =>
              match second_factor now written u code db with
              | (false, db) => (error 401 "invalid MFA code", db)
              | (true, db) =>
                  let access := generateAccessToken now u db in
                  match generateRefreshToken now d u db with
                  | (Err _, db) => (error 500 "failed to generate refresh token", db)
                  | (Ok refresh, db) =>
                      ((200, login_json db (mkLoginResponse access refresh (Z.quot ExpiresIn second)
                         (Some u) false "")), db)
                  end
              end
          end
      end
  end.

(** ** Handlers of users *)

Definition listUsersHandler (err : bool) (db : DB) : response :=
  if err then error 500 "Failed to retrieve users"
  else (200, JObj [("users", JList
    ((λ u, user_json (JList (role_json JNull <$> roles_of db (ID u))) u) <$> users db))]).

Record NewUser := mkNewUser {
  n_Username : string; n_Email : string; n_Password : string; n_FirstName : string;
  n_LastName : string; n_IsAdmin : bool
}.

(** [id] is the number that the database draws. *)
Definition createUserHandler (id : Z) (create : option string) (req : result string NewUser) (db : DB)
    : response * DB :=
  match req with
  | Err e => (error 400 e, db)
  | Ok req =>
      let u := mkUser id (n_Username req) (n_Email req) "" (n_FirstName req) (n_LastName req) true
        (n_IsAdmin req) false "" None None in
      match create with
      | Some _ => (error 500 "Failed to create user", db)
      | None =>
          if existsb (λ v, ID v =? id) (users db) then (error 500 "Failed to create user", db)
          else ((201, JObj [("user", user_json JNull u)]), set_users (λ l, l ++ [u]) db)
      end
  end.

(** The user that a parameter of the path names. *)
Definition named_user (param : string) (db : DB) : result response User :=
  match ParseUint32 param with
  | None => Err (error 400 "Invalid user ID")
  | Some id =>
      match find_user db id with
      | None => Err (error 404 "User not found")
      | Some u => Ok u
      end
  end.

Definition getUserHandler (param : string) (db : DB) : response :=
  match named_user param db with
  | Err r => r
  | Ok u => (200, JObj [("user", user_json (loaded_roles db u) u)])
  end.

Record UserUpdate := mkUserUpdate {
  u_Email : string; u_FirstName : string; u_LastName : string; u_IsActive : option bool;
  u_IsAdmin : option bool
}.

Definition nonempty (v old : string) : string := if decide (v = "") then old else v.

Definition updated_user (req : UserUpdate) (u : User) : User :=
  with_profile (nonempty (u_Email req) (Email u)) (nonempty (u_FirstName req) (FirstName u))
    (nonempty (u_LastName req) (LastName u)) (default (IsActive u) (u_IsActive req))
    (default (IsAdmin u) (u_IsAdmin req)) u.

Definition updateUserHandler (write : bool) (param : string) (req : result string UserUpdate) (db : DB)
    : response * DB :=
  match named_user param db with
  | Err r => (r, db)
  | Ok u =>
      match req with
      | Err e => (error 400 e, db)
      | Ok req =>
          let u := updated_user req u in
          if write then ((200, JObj [("user", user_json JNull u)]), on_user (ID u) (λ _, u) db)
          else (error 500 "Failed to update user", db)
      end
  end.

(** The migration makes foreign keys: the database keeps a user to whom a refresh
    token or a role refers. *)
Definition user_referenced (id : Z) (db : DB) : bool :=
  existsb (λ t, t_UserID t =? id) (refresh_tokens db) || existsb (λ ur, ur.1 =? id) (user_roles db).

Definition deleteUserHandler (write : bool) (param : string) (db : DB) : response * DB :=
  match ParseUint32 param with
  | None => (error 400 "Invalid user ID", db)
  | Some id =>
      if write && negb (user_referenced id db) then (message 200 "User deleted successfully", set_users (filter (λ u, ID u ≠ id)) db)
      else (error 500 "Failed to delete user", db)
  end.

Definition updateUserStatusHandler (write : bool) (param : string) (req : result string string) (db : DB)
    : response * DB :=
  match ParseUint32 param with
  | None => (error 400 "Invalid user ID", db)
  | Some _ =>
      match req with
      | Err e => (error 400 e, db)
      | Ok status =>
          match named_user param db with
          | Err r => (r, db)
          | Ok u =>
              let save active :=
                let u := with_profile (Email u) (FirstName u) (LastName u) active (IsAdmin u) u in
                if write then ((200, JObj [("user", user_json JNull u)]), on_user (ID u) (λ _, u) db)
                else (error 500 "Failed to update user status", db) in
              if decide (status = "active") then save true
              else if decide (status = "inactive") then save false
              else if decide (status = "suspended") then save false
              else (error 400 "Invalid status", db)
          end
      end
  end.

(** [env] is ADMIN_DEFAULT_PASSWORD. *)
Definition resetUserPasswordHandler (env : string) (salt : list Z) (write : bool) (param : string) (db : DB)
    : response * DB :=
  match named_user param db with
  | Err r => (r, db)
  | Ok u =>
      match GenerateFromPassword salt (nonempty env "ChangeMe123!") with
      | Err _ => (error 500 "Failed to reset password", db)
      | Ok h =>
          if write then (message 200 "Password reset to default", on_user (ID u) (with_password h) db)
          else (error 500 "Failed to reset password", db)
      end
  end.

(** ** Handlers of the profile *)

(** The profile handlers take the id only as the number that the service's own
    middleware sets. *)
Definition profile (c : Keys) (db : DB) : result response User :=
  match c !! "user_id" with
  | Some (AUint uid) =>
      match find_user db uid with
      | None => Err (error 404 "User not found")
      | Some u => Ok u
      end
  | _ => Err (error 401 "Invalid user ID")
  end.

Definition getProfileHandler (c : Keys) (db : DB) : response :=
  match profile c db with
  | Err r => r
  | Ok u => (200, JObj [("user", user_json JNull u)])
  end.

Definition updateProfileHandler (write : bool) (req : result string (string * string)) (c : Keys) (db : DB)
    : response * DB :=
  match profile c db with
  | Err r => (r, db)
  | Ok u =>
      match req with
      | Err _ => (error 400 "Invalid request", db)
      | Ok (first, last) =>
          let u := with_profile (Email u) (nonempty first (FirstName u)) (nonempty last (LastName u))
            (IsActive u) (IsAdmin u) u in
          if bool_decide (first = "") && bool_decide (last = "")
          then ((200, JObj [("user", user_json JNull u)]), db)
          else if write then ((200, JObj [("user", user_json JNull u)]), on_user (ID u) (λ _, u) db)
          else (error 500 "Failed to update profile", db)
      end
  end.

Definition changePasswordHandler (salt : list Z) (write : bool) (req : result string (string * string))
    (c : Keys) (db : DB) : response * DB :=
  match profile c db with
  | Err r => (r, db)
  | Ok u =>
      match req with
      | Err _ => (error 400 "Invalid request", db)
      | Ok (old, new) =>
          if negb (CompareHashAndPassword (Password u) old) then (error 400 "Current password incorrect", db)
          else
            match GenerateFromPassword salt new with
            | Err _ => (error 500 "Failed to update password", db)
            | Ok h =>
                if write then (message 200 "Password updated", on_user (ID u) (with_password h) db)
                else (error 500 "Failed to change password", db)
            end
      end
  end.

(** ** Temporary credentials *)

Definition loadTrustPolicy (rid : Z) (db : DB) : option (list TrustStatement) :=
  snd <$> List.find (λ t, t.1 =? rid) (trust_policies db).

Definition trusts (userID : Z) (username : string) (s : TrustStatement) : bool :=
  bool_decide (Effect s = "Allow")
  && (bool_decide (Action s = "sts:AssumeRole") || bool_decide (Action s = "*"))
  && (All s || existsb (λ id, bool_decide (id = "user:" +:+ Itoa userID)
                              || bool_decide (id = "user:" +:+ username)
                              || bool_decide (id = "*")) (Identities s)).

Definition evaluateTrustPolicy (policy : list TrustStatement) (userID : Z) (username : string) : bool :=
  existsb (trusts userID username) policy.

(** The row has no session token, and the table admits each token once. *)
Definition generateSTSCredentials (now : Z) (id : Z) (key secret : result string (list Z))
    (create : option string) (userID roleID : Z) (sessionName : string) (durationSec : Z) (db : DB)
    : result string (STSSession * DB) :=
  match key with
  | Err e => Err ("failed to generate access key: " +:+ e)
  | Ok key =>
      match secret with
      | Err e => Err ("failed to generate secret key: " +:+ e)
      | Ok secret =>
          let session := mkSession id ("VCTMP" +:+ RawURLEncoding key) (RawURLEncoding secret) "" userID
            roleID sessionName 0 (now + durationSec * second) in
          let taken s := (s_ID s =? id) || bool_decide (s_AccessKeyID s = s_AccessKeyID session)
            || bool_decide (s_SessionToken s = s_SessionToken session) in
          match create with
          | Some e => Err ("failed to store STS session: " +:+ e)
          | None =>
              if existsb taken (sts_sessions db)
              then Err "failed to store STS session: duplicate key"
              else Ok (session, set_sessions (λ l, l ++ [session]) db)
          end
      end
  end.

(** The role is loaded with its policies only, so that [perms] is empty. *)
Definition sts_payload (now : Z) (userID : Z) (username : string) (role : Role) (perms : list Permission)
    (policies : list string) (durationSec : Z) : Payload :=
  mkPayload userID 0 username "" false ["sts-session:" +:+ r_Name role]
    ((permission_text <$> perms) ++ ((λ p, "policy:" +:+ p) <$> policies)) "" (Itoa userID)
    (NumericDate now) (NumericDate (now + durationSec * second)) (Some (NumericDate now)) "vc-stack-sts"
    ["vc-stack"].

Definition generateSTSToken (now : Z) (userID : Z) (username : string) (role : Role)
    (perms : list Permission) (policies : list string) (durationSec : Z) : string :=
  SignedString Secret (sts_payload now userID username role perms policies durationSec).

Record AssumeRoleRequest := mkAssume { a_RoleID : Z; a_SessionName : string; a_DurationSeconds : Z }.

Definition policies_of (db : DB) (rid : Z) : list PolicyRow :=
  filter (λ p, (rid, po_ID p) ∈ role_policies db) (policies db).

Definition policy_name (p : PolicyRow) : string := p_Name (po_Policy p).

Definition context_username (c : Keys) : string :=
  match c !! "username" with Some (AStr s) => s | _ => "" end.

Definition assumeRoleHandler (now : Z) (id : Z) (key secret : result string (list Z))
    (create : option string) (req : result string AssumeRoleRequest) (c : Keys) (db : DB) : response * DB :=
  match req with
  | Err e => (error 400 ("Invalid request: " +:+ e), db)
  | Ok req =>
      let duration := if a_DurationSeconds req <=? 0 then 3600 else a_DurationSeconds req in
      if 43200 <? duration
      then (error 400 "Duration cannot exceed 43200 seconds (12 hours)", db)
      else
        match c !! "user_id" with
        | Some (AUint userID) =>
            match List.find (λ r, r_ID r =? a_RoleID req) (roles db) with
            | None => (error 404 "Role not found", db)
            | Some role =>
                match loadTrustPolicy (r_ID role) db with
                | None => (error 403 "Role does not have a trust policy or it is invalid", db)
                | Some policy =>
                    let username := context_username c in
                    if negb (evaluateTrustPolicy policy userID username)
                    then (error 403 "User is not authorized to assume this role", db)
                    else
                      match generateSTSCredentials now id key secret create userID (r_ID role)
                              (a_SessionName req) duration db with
                      | Err _ => (error 500 "Failed to generate temporary credentials", db)
                      | Ok (session, db') =>
                          let token := generateSTSToken now userID username role []
                            (policy_name <$> policies_of db (r_ID role)) duration in
                          ((200, JObj [("credentials", JObj [
                              ("access_key_id", JStr (s_AccessKeyID session));
                              ("secret_key", JStr (s_SecretKey session));
                              ("session_token", JStr token); ("expiration", JTime (s_ExpiresAt session))]);
                            ("assumed_role", JStr (r_Name role))]), db')
                      end
                end
            end
        | _ => (error 401 "Invalid caller identity", db)
        end
  end.

Definition callerIdentityHandler (c : Keys) : response :=
  let uid := match c !! "user_id" with Some (AUint n) => n | _ => 0 end in
  let uname := context_username c in
  let assumed :=
    match c !! "roles" with
    | Some (AStrs l) => List.find (λ r, HasPrefix r "sts-session:") l
    | _ => None
    end in
  (200, JObj ([("user_id", JNum uid); ("username", JStr uname); ("project_id", JNum 0)]
    ++ match assumed with
       | Some r => if decide (TrimPrefix r "sts-session:" = "") then []
                   else [("assumed_role", JStr (TrimPrefix r "sts-session:"))]
       | None => []
       end
    ++ [("is_temporary", JBool (bool_decide (assumed ≠ None))); ("account", JStr "vc-stack");
        ("vrn", JStr ("vrn:vcstack:iam::" +:+ Itoa uid +:+ ":user/" +:+ uname))])).

Definition CleanupExpiredSessions (now : Z) : DB → DB :=
  set_sessions (filter (λ s, ¬ (s_ExpiresAt s < now))).

(** The middleware in front of the handlers of users, profiles, second factors
    and temporary credentials. *)
Definition protected (now : Z) : list Handler := [authMiddleware (ValidateToken now)].

(** ** Histories *)

Inductive call :=
| CLogin (now : Z) (written : bool) (d : drawn_token) (req : result string LoginRequest)
| CLogout (write : option string) (req : result string string)
| CChallenge (now : Z) (written : bool) (d : drawn_token) (req : result string (string * string))
| CSetup (key : result string (string * string)) (rand : nat → result string (list Z))
    (salt : nat → list Z) (write : bool) (c : Keys)
| CVerify (now : Z) (write : bool) (req : result string string) (c : Keys)
| CDisable (write : bool) (req : result string string) (c : Keys)
| CRegenerate (rand : nat → result string (list Z)) (salt : nat → list Z) (write : bool)
    (req : result string string) (c : Keys)
| CCreateUser (id : Z) (create : option string) (req : result string NewUser)
| CUpdateUser (write : bool) (param : string) (req : result string UserUpdate)
| CDeleteUser (write : bool) (param : string)
| CUpdateStatus (write : bool) (param : string) (req : result string string)
| CResetPassword (env : string) (salt : list Z) (write : bool) (param : string)
| CUpdateProfile (write : bool) (req : result string (string * string)) (c : Keys)
| CChangePassword (salt : list Z) (write : bool) (req : result string (string * string)) (c : Keys)
| CAssumeRole (now id : Z) (key secret : result string (list Z)) (create : option string)
    (req : result string AssumeRoleRequest) (c : Keys)
| CCleanup (now : Z)
(* Whatever the handlers of roles, projects and trust do to their tables. *)
| CGrants (rs : list Role) (ps : list Permission) (pols : list PolicyRow) (ur rp rpol : list (Z * Z))
    (prj : list Project) (trust : list (Z * list TrustStatement)).

Definition perform (db : DB) (o : call) : DB :=
  match o with
  | CLogin now written d req => (loginHandler now written d req db).2
  | CLogout write req => (logoutHandler write req db).2
  | CChallenge now written d req => (mfaChallengeHandler now written d req db).2
  | CSetup key rand salt write c => (mfaSetupHandler key rand salt write c db).2
  | CVerify now write req c => (mfaVerifyHandler now write req c db).2
  | CDisable write req c => (mfaDisableHandler write req c db).2
  | CRegenerate rand salt write req c => (mfaRegenerateCodesHandler rand salt write req c db).2
  | CCreateUser id create req => (createUserHandler id create req db).2
  | CUpdateUser write param req => (updateUserHandler write param req db).2
  | CDeleteUser write param => (deleteUserHandler write param db).2
  | CUpdateStatus write param req => (updateUserStatusHandler write param req db).2
  | CResetPassword env salt write param => (resetUserPasswordHandler env salt write param db).2
  | CUpdateProfile write req c => (updateProfileHandler write req c db).2
  | CChangePassword salt write req c => (changePasswordHandler salt write req c db).2
  | CAssumeRole now id key secret create req c => (assumeRoleHandler now id key secret create req c db).2
  | CCleanup now => CleanupExpiredSessions now db
  | CGrants rs ps pols ur rp rpol prj trust =>
      mkDB (users db) rs ps pols ur rp rpol prj (refresh_tokens db) trust (sts_sessions db) (throttle db)
  end.

Definition history (db : DB) (os : list call) : DB := foldl perform db os.

(** *** How tables change *)

(** The table of refresh tokens grows by a new token, or tokens are revoked. *)
Inductive tokens_move (l : list RefreshToken) : list RefreshToken → Prop :=
| tokens_same : tokens_move l l
| tokens_revoked token :
    tokens_move l ((λ t, if decide (t_Token t = token) then revoked t else t) <$> l)
| tokens_new t : Forall (λ t', t_Token t' ≠ t_Token t) l → tokens_move l (l ++ [t]).

Lemma generateRefreshToken_moves now d u db :
  tokens_move (refresh_tokens db) (refresh_tokens (generateRefreshToken now d u db).2) ∧
  users (generateRefreshToken now d u db).2 = users db ∧
  sts_sessions (generateRefreshToken now d u db).2 = sts_sessions db.
Proof.
  unfold generateRefreshToken. destruct (d_bytes d) as [bs|e]; [|split; [constructor|done]].
  destruct (d_create d); [split; [constructor|done]|].
  destruct (existsb _ _) eqn:E; [split; [constructor|done]|]. split; [|done]. constructor.
  apply list.Forall_forall. intros t Ht Heq. simpl in Heq.
  assert (existsb (λ t, bool_decide (t_Token t = URLEncoding bs) || (t_ID t =? d_id d)) (refresh_tokens db)
    = true) as H; [|congruence].
  apply existsb_exists. exists t. split; [by apply list_elem_of_In|]. by rewrite bool_decide_eq_true_2.
Qed.

Lemma second_factor_tokens now written u code db :
  refresh_tokens (second_factor now written u code db).2 = refresh_tokens db ∧
  sts_sessions (second_factor now written u code db).2 = sts_sessions db.
Proof.
  unfold second_factor, validateRecoveryCode. destruct (validateTOTP _ _ _); [done|].
  destruct (_ ≫= _); [|done]. by destruct written.
Qed.

Lemma issue_moves now d u db :
  tokens_move (refresh_tokens db) (refresh_tokens (issue now d u db).2) ∧
  users (issue now d u db).2 = users db ∧ sts_sessions (issue now d u db).2 = sts_sessions db.
Proof.
  unfold issue. pose proof (generateRefreshToken_moves now d u db) as H.
  by destruct (generateRefreshToken now d u db) as [[]].
Qed.

Lemma Login_moves now written d req db :
  tokens_move (refresh_tokens db) (refresh_tokens (Login now written d req db).2) ∧
  sts_sessions (Login now written d req db).2 = sts_sessions db.
Proof.
  unfold Login. destruct (check _ _ _) as [[[] remaining] lt]; [by split; [constructor|]|].
  destruct (authenticateUser _ _ _) as [u|]; [|by split; [constructor|]].
  set (db1 := set_throttle _ _). destruct (MFAEnabled u).
  - case_decide; [by split; [constructor|]|].
    pose proof (second_factor_tokens now written u (l_TOTPCode req) db1) as [H1 H2].
    destruct (second_factor _ _ _ _ _) as [[] db2]; simpl in H1, H2.
    + pose proof (issue_moves now d u db2) as (Hi & _ & Hs). rewrite H1 in Hi. by rewrite Hs.
    + simpl. rewrite H1. by split; [constructor|].
  - pose proof (issue_moves now d u db1) as (H & _ & Hs). by rewrite Hs.
Qed.

Lemma challenge_moves now written d req db :
  tokens_move (refresh_tokens db) (refresh_tokens (mfaChallengeHandler now written d req db).2) ∧
  sts_sessions (mfaChallengeHandler now written d req db).2 = sts_sessions db.
Proof.
  unfold mfaChallengeHandler. destruct req as [[token code]|]; [|by split; [constructor|]].
  destruct (validateMFAToken _ _) as [uid|]; [|by split; [constructor|]].
  destruct (find_user db uid) as [u|]; [|by split; [constructor|]].
  pose proof (second_factor_tokens now written u code db) as [H1 H2].
  destruct (second_factor _ _ _ _ _) as [[] db2]; simpl in H1, H2; simpl.
  - pose proof (generateRefreshToken_moves now d u db2) as (H & _ & Hs). rewrite H1, H2 in *.
    by destruct (generateRefreshToken now d u db2) as [[] db3].
  - rewrite H1. by split; [constructor|].
Qed.

Lemma loginHandler_db now written d req db :
  (loginHandler now written d (Ok req) db).2 = (Login now written d req db).2.
Proof. simpl. by destruct (Login now written d req db) as [[] ?]. Qed.

Lemma perform_tokens db o : tokens_move (refresh_tokens db) (refresh_tokens (perform db o)).
Proof.
  assert (∀ db' : DB, refresh_tokens db' = refresh_tokens db →
    tokens_move (refresh_tokens db) (refresh_tokens db')) as Hsame by (intros ? ->; constructor).
  destruct o; unfold perform;
    try (apply Hsame; unfold mfaSetupHandler, mfaVerifyHandler, mfaDisableHandler,
      mfaRegenerateCodesHandler, createUserHandler, updateUserHandler, deleteUserHandler,
      updateUserStatusHandler, resetUserPasswordHandler, updateProfileHandler, changePasswordHandler,
      CleanupExpiredSessions; repeat case_match; done).
  - destruct req as [req|]; [|constructor]. rewrite loginHandler_db. apply Login_moves.
  - unfold logoutHandler, Logout. destruct req as [token|]; [|constructor].
    destruct write; [constructor|]. simpl. constructor.
  - apply challenge_moves.
  - apply Hsame. unfold assumeRoleHandler, generateSTSCredentials. repeat case_match; simplify_eq; done.
Qed.

(** A refresh token that exists and is revoked. *)
Definition dead (token : string) (l : list RefreshToken) : Prop :=
  Exists (λ t, t_Token t = token) l ∧ Forall (λ t, t_Token t = token → t_IsRevoked t = true) l.

Lemma dead_move token l l' : tokens_move l l' → dead token l → dead token l'.
Proof.
  intros Hm [He Hf]. destruct Hm as [|token'|t Hnew]; [done| |]; split.
  - apply list.Exists_fmap. eapply list.Exists_impl; [exact He|]. intros t Ht. simpl. by case_decide.
  - apply list.Forall_fmap. eapply list.Forall_impl; [exact Hf|]. intros t Ht. simpl. by case_decide.
  - apply list.Exists_app. by left.
  - apply list.Forall_app. split; [done|]. constructor; [|done]. intros <-.
    apply list.Exists_exists in He as (t' & Hin & Ht'). exfalso.
    by apply (proj1 (list.Forall_forall _ _) Hnew t' Hin).
Qed.

(** C8: After a logout, the refresh token is refused for good. *)
Theorem logout_final token db t os now :
  t ∈ refresh_tokens db → t_Token t = token →
  RefreshAccessToken now token (history (Logout None token db).2 os) = Err "invalid refresh token".
Proof.
  intros Hin Ht. assert (dead token (refresh_tokens (history (Logout None token db).2 os))) as [_ Hf].
  { assert (dead token (refresh_tokens (Logout None token db).2)) as Hd.
    { split; simpl.
      - apply list.Exists_fmap, list.Exists_exists. exists t. split; [done|]. simpl. by case_decide.
      - apply list.Forall_fmap, list.Forall_forall. intros t' _. simpl. by case_decide. }
    revert Hd. generalize (Logout None token db).2. induction os as [|o os IH]; intros db' Hd; [done|].
    apply IH. eapply dead_move; [apply perform_tokens|done]. }
  unfold RefreshAccessToken. rewrite (proj2 (find_none_elem _ _)); [done|]. intros t' Ht'.
  pose proof (proj1 (list.Forall_forall _ _) Hf t' Ht') as Hr. simpl in Hr.
  destruct (bool_decide _) eqn:E; [|done]. zbool. rewrite Hr by done. by rewrite andb_false_r.
Qed.

(** *** Recovery codes *)

(** No recovery code of a user, or of the user with an id, is matched by a text. *)
Definition unmatched (code : string) (u : User) : Prop :=
  Forall (λ h, CompareHashAndPassword h code = false) (default [] (RecoveryCodes u)).

Definition spent (uid : Z) (code : string) (db : DB) : Prop :=
  ∀ u, u ∈ users db → ID u = uid → unmatched code u.

(** The new recovery codes of a call, if it makes any, do not match the text. *)
Definition not_drawn (code : string) (o : call) : Prop :=
  match o with
  | CSetup _ rand salt _ _ | CRegenerate rand salt _ _ _ =>
      ∀ codes hashes, generateRecoveryCodes rand salt = Ok (codes, hashes) →
        Forall (λ h, CompareHashAndPassword h code = false) hashes
  | _ => True
  end.

Lemma on_user_spent uid code id f db :
  (∀ u, u ∈ users db → ID u = id → ID (f u) = id ∧ (unmatched code u → unmatched code (f u))) →
  spent uid code db → spent uid code (on_user id f db).
Proof.
  intros Hf Hs u Hu. simpl in Hu. apply list_elem_of_fmap in Hu as (v & -> & Hv).
  destruct (ID v =? id) eqn:E; [|by apply Hs]. zbool. destruct (Hf v Hv E) as [Hid Hok].
  intros Hu. apply Hok, (Hs v Hv). congruence.
Qed.

(** A row that was read and is written back with the same codes. *)
Lemma written_back uid code u u' db :
  u ∈ users db → ID u' = ID u → RecoveryCodes u' = RecoveryCodes u →
  spent uid code db → spent uid code (on_user (ID u) (λ _, u') db).
Proof.
  intros Hu Hid Hc Hs v Hv Hvid. simpl in Hv. apply list_elem_of_fmap in Hv as (w & -> & Hw).
  destruct (ID w =? ID u) eqn:E; [|by apply Hs]. zbool. unfold unmatched. rewrite Hc. apply (Hs u Hu).
  congruence.
Qed.

Lemma use_code_sub code hashes rest :
  use_code code hashes = Some rest → ∃ h l r, hashes = l ++ h :: r ∧ rest = l ++ r ∧
    CompareHashAndPassword h code = true ∧ Forall (λ h, CompareHashAndPassword h code = false) l.
Proof.
  revert rest. induction hashes as [|h hs IH]; intros rest; simpl; [done|].
  destruct (CompareHashAndPassword h code) eqn:E.
  - intros [= ->]. by exists h, [], rest.
  - destruct (use_code code hs) as [rest'|]; [|done]. simpl. intros [= <-].
    destruct (IH rest' eq_refl) as (h' & l & r & -> & -> & Hh & Hl). exists h', (h :: l), r. auto.
Qed.

Lemma find_user_elem db id u : find_user db id = Some u → u ∈ users db ∧ ID u = id.
Proof. intros H. apply find_elem in H as [? ?]. by zbool. Qed.

Lemma current_elem c db u : current c db = Ok u → u ∈ users db.
Proof.
  unfold current. destruct (c !! _); [|done]. destruct (find_user _ _) eqn:E; [|done].
  intros [= ->]. by apply find_user_elem in E as [? _].
Qed.

Lemma confirmed_elem req en c db u : confirmed req en c db = Ok u → u ∈ users db.
Proof.
  unfold confirmed. destruct (c !! _); [|done]. destruct req; [|done].
  destruct (current c db) as [v|] eqn:E; [|done]. destruct (en && _); [done|].
  destruct (CompareHashAndPassword _ _); [|done]. intros [= ->]. by apply current_elem in E.
Qed.

Lemma profile_elem c db u : profile c db = Ok u → u ∈ users db.
Proof.
  unfold profile. destruct (c !! _) as [[]|]; try done. destruct (find_user _ _) eqn:E; [|done].
  intros [= ->]. by apply find_user_elem in E as [? _].
Qed.

Lemma named_elem param db u : named_user param db = Ok u → u ∈ users db.
Proof.
  unfold named_user. destruct (ParseUint32 _); [|done]. destruct (find_user _ _) eqn:E; [|done].
  intros [= ->]. by apply find_user_elem in E as [? _].
Qed.

(** Using a code only removes hashes. *)
Lemma second_factor_spent now written uid code u code' db :
  u ∈ users db → spent uid code db → spent uid code (second_factor now written u code' db).2.
Proof.
  intros Hu Hs. unfold second_factor, validateRecoveryCode. destruct (validateTOTP _ _ _); [done|].
  destruct (RecoveryCodes u ≫= use_code code') as [rest|] eqn:E; [|done]. destruct written; [|done].
  intros v Hv Hvid. simpl in Hv. apply list_elem_of_fmap in Hv as (w & -> & Hw).
  destruct (ID w =? ID u) eqn:Eid; [|by apply Hs]. zbool.
  specialize (Hs u Hu). unfold unmatched in *. simpl in *.
  destruct (RecoveryCodes u) as [hs|]; [|done]. simpl in *.
  destruct (use_code_sub _ _ _ E) as (h & l & r & -> & -> & _). rewrite <- Eid in Hs.
  specialize (Hs Hvid). apply list.Forall_app in Hs as [Hl Hr]. apply list.Forall_cons in Hr as [_ Hr].
  by apply list.Forall_app.
Qed.

Lemma Login_spent now written d req uid code db :
  spent uid code db → spent uid code (Login now written d req db).2.
Proof.
  intros Hs. unfold Login. destruct (check _ _ _) as [[[] remaining] lt]; [done|].
  destruct (authenticateUser _ _ _) as [u|] eqn:E; [|done].
  assert (u ∈ users db) as Hu.
  { unfold authenticateUser in E. destruct (List.find _ _) as [v|] eqn:F; [|done]. simpl in E.
    destruct (CompareHashAndPassword _ _); [|done]. simplify_eq. by apply find_elem in F as [? _]. }
  set (db1 := set_throttle _ _). assert (spent uid code db1) as Hs1 by done.
  assert (∀ db', spent uid code db' → spent uid code (issue now d u db').2) as Hissue.
  { intros db' H. pose proof (issue_moves now d u db') as (_ & Hus & _). intros v. rewrite Hus. apply H. }
  destruct (MFAEnabled u); [|by apply Hissue]. case_decide; [done|].
  pose proof (second_factor_spent now written uid code u (l_TOTPCode req) db1 Hu Hs1) as H2.
  destruct (second_factor _ _ _ _ _) as [[] db2]; [by apply Hissue|done].
Qed.

Lemma challenge_spent now written d req uid code db :
  spent uid code db → spent uid code (mfaChallengeHandler now written d req db).2.
Proof.
  intros Hs. unfold mfaChallengeHandler. destruct req as [[token code']|]; [|done].
  destruct (validateMFAToken _ _) as [id|]; [|done]. destruct (find_user db id) as [u|] eqn:E; [|done].
  apply find_user_elem in E as [Hu _].
  pose proof (second_factor_spent now written uid code u code' db Hu Hs) as H2.
  destruct (second_factor _ _ _ _ _) as [[] db2]; [|done]. simpl.
  pose proof (generateRefreshToken_moves now d u db2) as (_ & Hus & _).
  destruct (generateRefreshToken now d u db2) as [[] db3]; simpl in *; intros v; rewrite Hus; apply H2.
Qed.

Lemma perform_spent uid code db o :
  not_drawn code o → spent uid code db → spent uid code (perform db o).
Proof.
  intros Hn Hs. destruct o; simpl in Hn; unfold perform; try done.
  - destruct req; [|done]. rewrite loginHandler_db. by apply Login_spent.
  - unfold logoutHandler, Logout. by destruct req, write.
  - by apply challenge_spent.
  - unfold mfaSetupHandler. destruct (current c db) as [u|]; [|done]. destruct (MFAEnabled u); [done|].
    destruct key as [[secret url]|]; [|done].
    destruct (generateRecoveryCodes rand salt) as [[codes hashes]|] eqn:E; [|done]. destruct write; [|done].
    apply on_user_spent; [|done]. intros v _ Hv. split; [done|]. intros _. by apply (Hn codes).
  - unfold mfaVerifyHandler. repeat case_match; try done. apply on_user_spent; [|done]. auto.
  - unfold mfaDisableHandler. repeat case_match; try done. apply on_user_spent; [|done].
    intros v _ Hv. split; [done|]. intros _. by constructor.
  - unfold mfaRegenerateCodesHandler. destruct (confirmed _ _ _ _) as [u|]; [|done].
    destruct (generateRecoveryCodes rand salt) as [[codes hashes]|] eqn:E; [|done]. destruct write; [|done].
    apply on_user_spent; [|done]. intros v _ Hv. split; [done|]. intros _. by apply (Hn codes).
  - unfold createUserHandler. repeat case_match; try done. intros u Hu. simpl in Hu.
    apply elem_of_app in Hu as [Hu|Hu]; [by apply Hs|]. apply list_elem_of_singleton in Hu as ->.
    intros _. by constructor.
  - unfold updateUserHandler. destruct (named_user param db) as [u|] eqn:E; [|done].
    apply named_elem in E. destruct req, write; try done. by apply (written_back uid code u).
  - unfold deleteUserHandler. destruct (ParseUint32 param); [|done]. destruct (write && _); [|done].
    intros u Hu. simpl in Hu. apply list_elem_of_filter in Hu as [_ Hu]. by apply Hs.
  - unfold updateUserStatusHandler. destruct (ParseUint32 param); [|done]. destruct req as [status|]; [|done].
    destruct (named_user param db) as [u|] eqn:E; [|done]. apply named_elem in E.
    repeat case_decide; destruct write; try done; by apply (written_back uid code u).
  - unfold resetUserPasswordHandler. repeat case_match; try done. apply on_user_spent; [|done]. auto.
  - unfold updateProfileHandler. destruct (profile c db) as [u|] eqn:E; [|done]. apply profile_elem in E.
    destruct req as [[first last]|]; [|done]. destruct (_ && _); [done|]. destruct write; [|done].
    by apply (written_back uid code u).
  - unfold changePasswordHandler. repeat case_match; try done. apply on_user_spent; [|done]. auto.
  - unfold assumeRoleHandler, generateSTSCredentials. repeat case_match; simplify_eq; done.
Qed.

(** The code is used up when its hash, the only one it matches, is removed. *)
Lemma use_code_only code l h r :
  CompareHashAndPassword h code = true → Forall (λ h, CompareHashAndPassword h code = false) (l ++ r) →
  use_code code (l ++ h :: r) = Some (l ++ r).
Proof.
  intros Hh. induction l as [|x l IH]; simpl; [by rewrite Hh|].
  intros [Hx Hl]%list.Forall_cons. by rewrite Hx, IH.
Qed.

(** C9: A recovery code that matches one of the hashes of a user passes as a second
    factor. If the removal of the hash is written, the code is not accepted again
    whatever requests follow, one after the other, unless it is drawn anew: a second
    factor with it passes only as a one-time password. If the write fails, whose
    error is ignored, nothing changes, so that the code stays usable. *)
Theorem recovery_code_once now first u code db now' written os l h r :
  RecoveryCodes u = Some (l ++ h :: r) → CompareHashAndPassword h code = true →
  Forall (λ h, CompareHashAndPassword h code = false) (l ++ r) → validateTOTP now u code = false →
  Forall (not_drawn code) os →
  let (ok, db1) := second_factor now first u code db in
  ok = true ∧
  if first then
    ∀ u', find_user (history db1 os) (ID u) = Some u' →
      (second_factor now' written u' code (history db1 os)).1 = validateTOTP now' u' code
  else db1 = db.
Proof.
  intros Hc Hh Hrest Htotp Hos. unfold second_factor at 1. rewrite Htotp.
  unfold validateRecoveryCode at 1. rewrite Hc. simpl. rewrite use_code_only by done.
  split; [done|]. destruct first; [|done]. intros u' Hu'.
  set (db1 := on_user (ID u) _ db) in *.
  assert (spent (ID u) code db1) as Hs.
  { intros v Hv Hvid. simpl in Hv. apply list_elem_of_fmap in Hv as (w & -> & Hw).
    destruct (ID w =? ID u) eqn:E; [done|]. by rewrite Hvid, Z.eqb_refl in E. }
  assert (spent (ID u) code (history db1 os)) as Hs'.
  { clear Hu'. generalize dependent db1. induction os as [|o os IH]; intros db1 Hs; [done|].
    apply list.Forall_cons in Hos as [Ho Hos]. apply (IH Hos). by apply perform_spent. }
  apply find_user_elem in Hu' as [Hin Hid]. specialize (Hs' u' Hin Hid). unfold unmatched in Hs'.
  unfold second_factor, validateRecoveryCode. destruct (validateTOTP now' u' code); [done|].
  destruct (RecoveryCodes u' ≫= use_code code) as [rest'|] eqn:E; [|done]. exfalso.
  destruct (RecoveryCodes u') as [hs|]; [|done]. simpl in *.
  destruct (use_code_sub _ _ _ E) as (h' & l' & r' & -> & _ & Hh' & _).
  apply list.Forall_app in Hs' as [_ Hs']. apply list.Forall_cons in Hs' as [Hs' _]. congruence.
Qed.

(** *** Users with tokens *)

(** A user who exists, and to whom a refresh token refers. *)
Definition held (uid : Z) (db : DB) : Prop :=
  Exists (λ t, t_UserID t = uid) (refresh_tokens db) ∧ uid ∈ ID <$> users db.

Lemma on_user_ids uid id f db :
  (∀ u, ID u = id → ID (f u) = id) → uid ∈ ID <$> users db → uid ∈ ID <$> users (on_user id f db).
Proof.
  intros Hf (u & -> & Hu)%list_elem_of_fmap. apply list_elem_of_fmap.
  exists (if ID u =? id then f u else u). split; [|by apply list_elem_of_fmap; exists u].
  destruct (ID u =? id) eqn:E; zbool; [|done]. by rewrite Hf.
Qed.

Lemma second_factor_ids uid now written u code db :
  uid ∈ ID <$> users db → uid ∈ ID <$> users (second_factor now written u code db).2.
Proof.
  intros H. unfold second_factor, validateRecoveryCode. repeat case_match; simplify_eq; try done.
  by apply on_user_ids.
Qed.

Lemma Login_ids uid now written d req db :
  uid ∈ ID <$> users db → uid ∈ ID <$> users (Login now written d req db).2.
Proof.
  intros H. unfold Login. destruct (check _ _ _) as [[[] remaining] lt]; [done|].
  destruct (authenticateUser _ _ _) as [u|]; [|done]. set (db1 := set_throttle _ _).
  destruct (MFAEnabled u); [|pose proof (issue_moves now d u db1) as (_ & Hu & _); by rewrite Hu].
  case_decide; [done|]. pose proof (second_factor_ids uid now written u (l_TOTPCode req) db1 H) as H2.
  destruct (second_factor _ _ _ _ _) as [[] db2]; [|done].
  pose proof (issue_moves now d u db2) as (_ & Hu & _). by rewrite Hu.
Qed.

Lemma challenge_ids uid now written d req db :
  uid ∈ ID <$> users db → uid ∈ ID <$> users (mfaChallengeHandler now written d req db).2.
Proof.
  intros H. unfold mfaChallengeHandler. destruct req as [[token code]|]; [|done].
  destruct (validateMFAToken _ _) as [id|]; [|done]. destruct (find_user db id) as [u|]; [|done].
  pose proof (second_factor_ids uid now written u code db H) as H2.
  destruct (second_factor _ _ _ _ _) as [[] db2]; [|done].
  pose proof (generateRefreshToken_moves now d u db2) as (_ & Hu & _).
  destruct (generateRefreshToken now d u db2) as [[] db3]; simpl in *; by rewrite Hu.
Qed.

Lemma perform_held uid db o : held uid db → held uid (perform db o).
Proof.
  intros [Ht Hu]. split.
  { destruct (perform_tokens db o) as [|token|t]; [done| |apply list.Exists_app; by left].
    apply list.Exists_fmap. eapply list.Exists_impl; [exact Ht|]. intros t Hx. simpl. by case_decide. }
  destruct o; unfold perform;
    try (unfold mfaSetupHandler, mfaVerifyHandler, mfaDisableHandler, mfaRegenerateCodesHandler,
      updateUserHandler, updateUserStatusHandler, resetUserPasswordHandler, updateProfileHandler,
      changePasswordHandler; repeat case_match; try done; apply on_user_ids; done).
  - destruct req; [|done]. rewrite loginHandler_db. by apply Login_ids.
  - unfold logoutHandler, Logout. by destruct req, write.
  - by apply challenge_ids.
  - unfold createUserHandler. repeat case_match; try done. simpl. rewrite fmap_app. apply elem_of_app. by left.
  - unfold deleteUserHandler. destruct (ParseUint32 param) as [id|]; [|done].
    destruct (write && _) eqn:E; [|done]. apply andb_true_iff in E as [_ E].
    apply list_elem_of_fmap in Hu as (u & -> & Hu). apply list_elem_of_fmap. exists u. split; [done|].
    apply list_elem_of_filter. split; [|done]. intros <-. apply list.Exists_exists in Ht as (t & Hin & Ht).
    apply negb_true_iff, orb_false_iff in E as [E _]. apply not_true_iff_false in E. apply E, existsb_exists.
    exists t. split; [by apply list_elem_of_In|]. by apply Z.eqb_eq.
  - unfold assumeRoleHandler, generateSTSCredentials. repeat case_match; simplify_eq; done.
Qed.

(** A user to whom a refresh token was issued is never deleted: no operation
    removes the token, and the database keeps the user it refers to. *)
Theorem logged_in_user_kept uid db t os :
  t ∈ refresh_tokens db → t_UserID t = uid → uid ∈ ID <$> users db →
  uid ∈ ID <$> users (history db os).
Proof.
  intros Hin Ht Hu. assert (held uid db) as H by (split; [apply list.Exists_exists; eauto|done]).
  clear Hin Hu. revert db H. induction os as [|o os IH]; intros db H; [by destruct H|].
  apply IH, perform_held, H.
Qed.

(** *** Logins *)

(** A draw that the database accepts. *)
Definition good_draw (d : drawn_token) (db : DB) : Prop :=
  ∃ bs, d_bytes d = Ok bs ∧ d_create d = None ∧
    existsb (λ t, bool_decide (t_Token t = URLEncoding bs) || (t_ID t =? d_id d)) (refresh_tokens db) = false.

(** What the access token of a user says while it is valid. *)
Definition user_claims (u : User) (db : DB) : Claims :=
  mkClaims (ID u) (json_text (Username u)) (IsAdmin u) (json_text <$> (r_Name <$> roles_of db (ID u)))
    (json_text <$> user_permissions db (ID u)).

Lemma issued_token now now' u db :
  now / second * second <= now' < (now + ExpiresIn) / second * second →
  ValidateToken now' (generateAccessToken now u db) = Some (user_claims u db).
Proof.
  intros Hn. unfold ValidateToken, generateAccessToken. rewrite ParseWithClaims_signed.
  unfold timely, access_payload, NumericDate. simpl.
  rewrite (proj2 (Z.ltb_lt _ _)), (proj2 (Z.leb_le _ _)) by lia. done.
Qed.

(** Whether the second factor of a user is passed. *)
Definition factor_ok (now : Z) (u : User) (code : string) : bool :=
  negb (MFAEnabled u)
  || (negb (bool_decide (code = "")) && (validateTOTP now u code
      || match RecoveryCodes u ≫= use_code code with Some _ => true | None => false end)).

(** The session that a login issues. *)
Definition session_of (now : Z) (u : User) (db : DB) (r : LoginResponse) : Prop :=
  MFARequired r = false ∧ l_User r = Some u ∧ AccessToken r = generateAccessToken now u db.

Lemma issue_session now d u db db' :
  good_draw d db → refresh_tokens db' = refresh_tokens db →
  (∀ u, generateAccessToken now u db' = generateAccessToken now u db) →
  ∃ r db'', issue now d u db' = (Ok r, db'') ∧ session_of now u db r.
Proof.
  intros (bs & Hb & Hc & He) Ht Ha. unfold issue, generateRefreshToken. rewrite Hb, Hc, Ht, He.
  eexists _, _. split; [done|]. split; [done|]. split; [done|]. apply Ha.
Qed.

Lemma second_factor_spec now written u code db :
  let '(ok, db') := second_factor now written u code db in
  ok = validateTOTP now u code
       || match RecoveryCodes u ≫= use_code code with Some _ => true | None => false end ∧
  refresh_tokens db' = refresh_tokens db ∧
  (∀ u, generateAccessToken now u db' = generateAccessToken now u db).
Proof.
  unfold second_factor, validateRecoveryCode. destruct (validateTOTP _ _ _); [done|].
  destruct (_ ≫= _); [|done]. by destruct written.
Qed.

Lemma Login_outcome now written d req db :
  good_draw d db →
  match (Login now written d req db).1 with
  | Ok r =>
      (check now (throttle db) (l_Username req)).1.1 = false ∧
      ∃ u, authenticateUser (l_Username req) (l_Password req) db = Some u ∧
        (MFARequired r = true ∧ MFAEnabled u = true ∧ l_TOTPCode req = "" ∨
         factor_ok now u (l_TOTPCode req) = true ∧ session_of now u db r)
  | Err _ =>
      (check now (throttle db) (l_Username req)).1.1 = true ∨
      authenticateUser (l_Username req) (l_Password req) db = None ∨
      ∃ u, authenticateUser (l_Username req) (l_Password req) db = Some u ∧
        factor_ok now u (l_TOTPCode req) = false
  end.
Proof.
  intros Hd. unfold Login, factor_ok.
  destruct (check _ _ _) as [[[] remaining] lt]; simpl; [by left|].
  change (authenticateUser (l_Username req) (l_Password req) (set_throttle lt db))
    with (authenticateUser (l_Username req) (l_Password req) db).
  destruct (authenticateUser _ _ db) as [u|]; [|by right; left].
  set (db1 := set_throttle _ _).
  pose proof (issue_session now d u db db1 Hd eq_refl (λ _, eq_refl)) as (r & db2 & E & Hr).
  destruct (MFAEnabled u) eqn:Hm.
  2: { rewrite E. simpl. split; [done|]. exists u. rewrite Hm. auto. }
  case_decide as Hcode; [simpl; split; [done|]; exists u; rewrite Hm; auto|].
  pose proof (second_factor_spec now written u (l_TOTPCode req) db1) as Hs.
  destruct (second_factor _ _ _ _ db1) as [ok db3]. destruct Hs as (Hok & Ht & Ha).
  assert (bool_decide (l_TOTPCode req = "") = false) as Hb by (by apply bool_decide_eq_false_2).
  destruct ok.
  - pose proof (issue_session now d u db db3 Hd Ht Ha) as (r3 & db4 & E3 & Hr3). rewrite E3. simpl.
    split; [done|]. exists u. rewrite Hm, Hb, <- Hok. auto.
  - simpl. right; right. exists u. by rewrite Hm, Hb, <- Hok.
Qed.

(** A session is issued only with a refresh token that the database has accepted. *)
Lemma issue_draw now d u db r : (issue now d u db).1 = Ok r → good_draw d db.
Proof.
  unfold issue, generateRefreshToken, good_draw. destruct (d_bytes d) as [bs|]; [|done].
  destruct (d_create d); [done|]. destruct (existsb _ _) eqn:E; [done|]. intros _. by exists bs.
Qed.

Lemma Login_draw now written d req db r :
  (Login now written d req db).1 = Ok r → MFARequired r = false → good_draw d db.
Proof.
  unfold Login. destruct (check _ _ _) as [[[] remaining] lt]; simpl; [done|].
  destruct (authenticateUser _ _ _) as [u|]; [|done]. set (db1 := set_throttle _ _).
  destruct (MFAEnabled u); [|intros H _; by apply (issue_draw now d u db1 r)].
  case_decide; [by intros [= <-]|].
  pose proof (second_factor_spec now written u (l_TOTPCode req) db1) as Hs.
  destruct (second_factor _ _ _ _ db1) as [[] db3]; [|done]. destruct Hs as (_ & Ht & _).
  intros Hi _. apply issue_draw in Hi. unfold good_draw in *. by rewrite Ht in Hi.
Qed.

(** The name is locked out: it has failed too often since a time that is not over. *)
Definition locked_out (now : Z) (name : string) (db : DB) : Prop :=
  ∃ a, failures (throttle db) !! name = Some a ∧
    time_sub now (firstAt a) <= lockout (throttle db) ∧ maxFailures (throttle db) <= count a.

Definition called (name : string) (u : User) : Prop := Username u = name ∨ Email u = name.

(** The first user of the table who is active and has the name or address. *)
Definition first_active (name : string) (db : DB) (u : User) : Prop :=
  ∃ l r, users db = l ++ u :: r ∧ called name u ∧ IsActive u = true ∧
    Forall (λ v, ¬ (called name v ∧ IsActive v = true)) l.

(** They have no second factor, or the code is right for the secret or matches a
    recovery code. *)
Definition second_factor_passed (now : Z) (u : User) (code : string) : Prop :=
  MFAEnabled u = false ∨
  code ≠ "" ∧
    (MFASecret u ≠ "" ∧ totp_Validate now code (MFASecret u) = true ∨
     ∃ hs h, RecoveryCodes u = Some hs ∧ h ∈ hs ∧ CompareHashAndPassword h code = true).

(** Random bytes are drawn and the token made of them is stored under an id, both of
    which are new. *)
Definition token_stored (d : drawn_token) (db : DB) : Prop :=
  ∃ bs, d_bytes d = Ok bs ∧ d_create d = None ∧
    ∀ t, t ∈ refresh_tokens db → t_Token t ≠ URLEncoding bs ∧ t_ID t ≠ d_id d.

(** The user has a role with the permission. *)
Definition permitted (u : User) (db : DB) (role : Role) (perm : Permission) : Prop :=
  role ∈ roles db ∧ (ID u, r_ID role) ∈ user_roles db ∧
  perm ∈ permissions db ∧ (r_ID role, pm_ID perm) ∈ role_permissions db.

Lemma check_locked now name db : (check now (throttle db) name).1.1 = false ↔ ¬ locked_out now name db.
Proof.
  unfold check, locked_out. destruct (failures _ !! name) as [a|]; [|naive_solver].
  destruct (_ <? _) eqn:E1; zbool; simpl; [split; [intros _ (b & ? & ? & ?)|done]; simplify_eq; lia|].
  destruct (_ <=? _) eqn:E2; zbool; simpl.
  - split; [done|]. intros H. destruct H. by exists a.
  - split; [intros _ (b & ? & ? & ?)|done]; simplify_eq; lia.
Qed.

Lemma find_split {A} (f : A → bool) l x :
  List.find f l = Some x ↔ ∃ a b, l = a ++ x :: b ∧ f x = true ∧ Forall (λ y, f y = false) a.
Proof.
  induction l as [|y l IH]; simpl; [split; [done|]; by intros ([]&?&?&_)|].
  destruct (f y) eqn:E.
  - split; [intros [= ->]; by exists [], l|]. intros ([|z a] & b & H & Hx & Hf); simpl in H; simplify_eq; [done|].
    apply list.Forall_cons in Hf as [? _]. congruence.
  - rewrite IH. split; intros (a & b & H & Hx & Hf).
    + subst. exists (y :: a), b. split_and!; [done..|]. by constructor.
    + destruct a as [|z a]; simpl in H; simplify_eq; [congruence|]. apply list.Forall_cons in Hf as [_ Hf]. by exists a, b.
Qed.

Lemma authenticated name pw db u :
  authenticateUser name pw db = Some u ↔ first_active name db u ∧ CompareHashAndPassword (Password u) pw = true.
Proof.
  set (f u := (bool_decide (Username u = name) || bool_decide (Email u = name)) && IsActive u).
  assert (∀ v, f v = true ↔ called name v ∧ IsActive v = true) as Hf.
  { intros v. unfold f, called. by rewrite andb_true_iff, orb_true_iff, !bool_decide_eq_true. }
  assert (List.find f (users db) = Some u ↔ first_active name db u) as Hfind.
  { rewrite find_split. unfold first_active.
    split; intros (l & r & Hl & H); exists l, r; (split; [done|]).
    - destruct H as [[? ?]%Hf Hall]. split_and!; [done..|]. eapply list.Forall_impl; [done|].
      intros v Hv Hc. apply Hf in Hc. congruence.
    - destruct H as (? & ? & Hall). split; [by apply Hf|]. eapply list.Forall_impl; [done|].
      intros v Hv. apply not_true_is_false. by rewrite Hf. }
  rewrite <- Hfind. unfold authenticateUser. fold f. clear Hfind Hf.
  destruct (List.find f _) as [v|]; simpl; [|split; [done|by intros [? _]]].
  destruct (CompareHashAndPassword (Password v) pw) eqn:E; split; [by intros [= <-]|by intros [? _]|done|].
  intros [[= ->] ?]. congruence.
Qed.

Lemma use_code_iff code hs :
  is_Some (use_code code hs) ↔ ∃ h, h ∈ hs ∧ CompareHashAndPassword h code = true.
Proof.
  split.
  - intros [rest H]. apply use_code_sub in H as (h & l & r & -> & _ & Hh & _). exists h.
    split; [apply elem_of_app; right; by left|done].
  - intros (h & Hin & Hh). induction hs as [|x hs IH]; [by apply elem_of_nil in Hin|]. simpl.
    destruct (CompareHashAndPassword x code) eqn:E; [done|].
    apply elem_of_cons in Hin as [->|Hin]; [congruence|]. destruct (IH Hin) as [rest ->]. done.
Qed.

Lemma factor_passed now u code : factor_ok now u code = true ↔ second_factor_passed now u code.
Proof.
  unfold factor_ok, second_factor_passed, validateTOTP.
  rewrite orb_true_iff, andb_true_iff, orb_true_iff, !negb_true_iff, bool_decide_eq_false.
  apply or_iff_compat_l, and_iff_compat_l, Morphisms_Prop.or_iff_morphism.
  - case_decide; naive_solver.
  - destruct (RecoveryCodes u) as [hs|]; simpl; [|naive_solver].
    transitivity (is_Some (use_code code hs)); [destruct (use_code code hs); naive_solver|].
    rewrite use_code_iff. naive_solver.
Qed.

Lemma draw_stored d db : good_draw d db ↔ token_stored d db.
Proof.
  unfold good_draw, token_stored. split; intros (bs & ? & ? & H); exists bs; (split_and!; [done..|]).
  - rewrite <- not_true_iff_false, existsb_elem in H. intros t Ht.
    split; intros E; apply H; exists t; (split; [done|]); apply orb_true_iff;
      [left; by apply bool_decide_eq_true|right; by apply Z.eqb_eq].
  - rewrite <- not_true_iff_false, existsb_elem. intros (t & Ht & [E%bool_decide_eq_true|E%Z.eqb_eq]%orb_true_iff);
      by destruct (H t Ht).
Qed.

Lemma user_permission u db x :
  x ∈ user_permissions db (ID u) ↔ ∃ role perm, permitted u db role perm ∧ x = permission_text perm.
Proof.
  unfold user_permissions, permissions_of, roles_of, permitted. rewrite list_elem_of_bind. split.
  - intros (role & (perm & -> & [Hp Hin]%list_elem_of_filter)%list_elem_of_fmap & [Hr Hri]%list_elem_of_filter).
    by exists role, perm.
  - intros (role & perm & (? & ? & ? & ?) & ->). exists role. split; [|by apply list_elem_of_filter].
    apply list_elem_of_fmap_2, list_elem_of_filter. done.
Qed.

(** C6: A login gives a session exactly if the name is not locked out, the password
    is that of the first active user with the name or address, their second factor,
    if they have one, is passed, and the refresh token is drawn and stored; and the
    access token then says, while it is valid, who they are and what their roles
    permit. *)
Theorem login_succeeds now written d req db :
  ((∃ r, (Login now written d req db).1 = Ok r ∧ MFARequired r = false) ↔
    ¬ locked_out now (l_Username req) db ∧ token_stored d db ∧
    ∃ u, first_active (l_Username req) db u ∧ CompareHashAndPassword (Password u) (l_Password req) = true ∧
      second_factor_passed now u (l_TOTPCode req)) ∧
  ∀ r, (Login now written d req db).1 = Ok r → MFARequired r = false →
    ∃ u, l_User r = Some u ∧ first_active (l_Username req) db u ∧
      ∀ now', now / second * second <= now' < (now + ExpiresIn) / second * second →
        ∃ cl, ValidateToken now' (AccessToken r) = Some cl ∧
          claims_UserID cl = ID u ∧ claims_Username cl = json_text (Username u) ∧ claims_IsAdmin cl = IsAdmin u ∧
          ∀ x, x ∈ claims_Permissions cl ↔
            ∃ role perm, permitted u db role perm ∧ x = json_text (pm_Resource perm +:+ ":" +:+ pm_Action perm).
Proof.
  pose proof (Login_outcome now written d req db) as H. pose proof (Login_draw now written d req db) as Hdraw.
  split; [split|].
  - intros (r & E & Hm). specialize (H (Hdraw r E Hm)). rewrite E in H.
    destruct H as [Hc (u & Hu & [[? _]|[Hf _]])]; [congruence|]. apply authenticated in Hu as [? ?].
    split; [by apply check_locked|]. split; [by eapply draw_stored, Hdraw|]. exists u. by rewrite <- factor_passed.
  - intros (Hc%check_locked & Hd%draw_stored & u & Hu & Hp & Hf%factor_passed). specialize (H Hd).
    pose proof (proj2 (authenticated _ _ _ _) (conj Hu Hp)) as Ha. destruct (Login now written d req db).1 as [r|e].
    + destruct H as [_ (u' & Hu' & [(_ & Hm & Hcode)|[_ (Hr & _)]])]; [|by exists r].
      simplify_eq. unfold factor_ok in Hf. by rewrite Hm, Hcode in Hf.
    + destruct H as [H|[H|(u' & Hu' & H)]]; congruence.
  - intros r E Hm. specialize (H (Hdraw r E Hm)). rewrite E in H.
    destruct H as [_ (u & Hu & [[? _]|[_ (_ & Hlu & Ha)]])]; [congruence|]. apply authenticated in Hu as [? _].
    exists u. split; [done|]. split; [done|]. intros now' Hn. rewrite Ha. eexists. split; [by apply issued_token|].
    split_and!; [done..|]. intros x. simpl. rewrite list_elem_of_fmap. setoid_rewrite user_permission. naive_solver.
Qed.

(** *** Ways around *)

(** The header that carries a token. *)
Definition bearer (token : string) : Request :=
  mkRequest (λ h, if decide (h = "Authorization") then "Bearer " +:+ token else "") (λ _, None) (λ _, "") "" "".

Definition keys_of (cl : Claims) : Keys :=
  <["permissions" := AStrs (claims_Permissions cl)]> (<["roles" := AStrs (claims_Roles cl)]>
    (<["is_admin" := ABool (claims_IsAdmin cl)]> (<["username" := AStr (claims_Username cl)]>
      (<["user_id" := AUint (claims_UserID cl)]> ∅)))).

Lemma bearer_passes now token cl :
  ValidateToken now token = Some cl →
  authMiddleware (ValidateToken now) (bearer token) ∅ = Next (keys_of cl).
Proof.
  intros H. unfold authMiddleware, auth_header. simpl.
  change ("" +:+ token) with token. by rewrite H.
Qed.

(** The token that [Login] hands out before the second factor is accepted by the
    middleware. *)
Lemma challenge_token_valid now u :
  ValidateToken now (generateMFAToken now u) = Some (mkClaims (ID u) (json_text (Username u)) false [] []).
Proof.
  unfold ValidateToken, generateMFAToken. rewrite ParseWithClaims_signed.
  unfold timely, mfa_payload, NumericDate. simpl.
  rewrite (proj2 (Z.ltb_lt _ _)); [done|].
  pose proof (Z.div_mod (now + 5 * minute) second ltac:(done)).
  pose proof (Z.mod_pos_bound (now + 5 * minute) second ltac:(done)). unfold minute, second in *. lia.
Qed.

Lemma authenticate_on_user username pw f db u :
  (∀ v, ID (f v) = ID v ∧ Username (f v) = Username v ∧ Email (f v) = Email v ∧ IsActive (f v) = IsActive v ∧
    Password (f v) = Password v) →
  authenticateUser username pw db = Some u →
  authenticateUser username pw (on_user (ID u) f db) = Some (f u).
Proof.
  intros Hf H. unfold authenticateUser in *. simpl.
  rewrite find_fmap.
  2: { intros v. destruct (ID v =? ID u); [|done]. destruct (Hf v) as (_ & -> & -> & -> & _). done. }
  destruct (List.find _ (users db)) as [v|]; [|done]. simpl in *.
  destruct (CompareHashAndPassword (Password v) pw) eqn:E; [|done]. simplify_eq.
  rewrite Z.eqb_refl. destruct (Hf u) as (_ & _ & _ & _ & ->). by rewrite E.
Qed.

Lemma check_cleared now lt name : (check now (clear lt name) name).1.1 = false.
Proof. unfold check, clear. simpl. by rewrite lookup_delete_eq. Qed.

(** The password alone is enough to log in as a user with a second factor: the
    token that [Login] returns for the second step passes the middleware, and with
    it the password disables the second factor. *)
Theorem password_suffices now u pw d db :
  MFAEnabled u = true → authenticateUser (Username u) pw db = Some u → find_user db (ID u) = Some u →
  (check now (throttle db) (Username u)).1.1 = false → good_draw d db →
  let req := mkLogin (Username u) pw "" in
  ∃ token db1 c answer db2 r,
    Login now true d req db = (Ok (mkLoginResponse "" "" 0 None true token), db1) ∧
    authMiddleware (ValidateToken now) (bearer token) ∅ = Next c ∧
    mfaDisableHandler true (Ok pw) c db1 = ((200, answer), db2) ∧
    (Login now true d req db2).1 = Ok r ∧ MFARequired r = false ∧
    AccessToken r = generateAccessToken now (with_mfa false "" None None u) db.
Proof.
  intros Hm Hauth Hfind Hcheck Hd req. unfold Login at 1. simpl.
  destruct (check _ _ _) as [[b remaining] lt]. simpl in Hcheck. subst b.
  change (authenticateUser (Username u) pw (set_throttle lt db)) with (authenticateUser (Username u) pw db).
  rewrite Hauth, Hm. set (db1 := set_throttle _ _).
  set (c := keys_of (mkClaims (ID u) (json_text (Username u)) false [] [])).
  exists (generateMFAToken now u), db1, c. rewrite (bearer_passes _ _ _ (challenge_token_valid now u)). set (db2 := on_user (ID u) (with_mfa false "" None None) db1).
  assert (mfaDisableHandler true (Ok pw) c db1 = ((200, JObj [("ok", JBool true);
    ("message", JStr "MFA has been disabled")]), db2)) as ->.
  { unfold mfaDisableHandler, confirmed, current.
    replace (c !! "user_id") with (Some (AUint (ID u))) by done.
    replace (find_user db1 (context_uid c)) with (Some u) by done. simpl.
    unfold authenticateUser in Hauth. destruct (List.find _ _) as [v|]; [|done]. simpl in Hauth.
    destruct (CompareHashAndPassword (Password v) pw) eqn:E; [|done]. simplify_eq. by rewrite E. }
  pose proof (Login_outcome now true d req db2 Hd) as H. unfold factor_ok in H.
  assert (authenticateUser (l_Username req) (l_Password req) db2 = Some (with_mfa false "" None None u)) as Hauth2
    by (apply (authenticate_on_user (Username u) pw _ db1 u); done).
  assert ((check now (throttle db2) (l_Username req)).1.1 = false) as Hcheck2 by apply check_cleared.
  destruct (Login now true d req db2).1 as [r|e] eqn:E2.
  - destruct H as [_ (u' & Hu' & [(_ & Hm' & _)|[_ (Hr & _ & Ha)]])].
    + rewrite Hauth2 in Hu'. by simplify_eq.
    + rewrite Hauth2 in Hu'. simplify_eq. eexists _, db2, r. split_and!; done.
  - exfalso. destruct H as [H|[H|(u' & Hu' & H)]]; [congruence|congruence|].
    rewrite Hauth2 in Hu'. by simplify_eq.
Qed.

Lemma find_user_updated db u uid f :
  find_user db uid = Some u → ID (f u) = uid → (∀ v, ID v = uid → ID (f v) = uid) →
  find_user (on_user uid f db) uid = Some (f u).
Proof.
  intros H Hu Hf. unfold find_user in *. simpl. rewrite find_fmap.
  2: { intros v. destruct (ID v =? uid) eqn:E; [|by rewrite E]. zbool. by rewrite Hf, Z.eqb_refl. }
  rewrite H. simpl. apply find_elem in H as [_ H]. by rewrite H.
Qed.

(** A token that can be refreshed. *)
Definition live_token (now : Z) (token : string) (uid : Z) (db : DB) : Prop :=
  ∃ t, List.find (λ t, bool_decide (t_Token t = token) && (now <? t_ExpiresAt t) && negb (t_IsRevoked t))
         (refresh_tokens db) = Some t ∧ t_UserID t = uid.

Lemma refreshed now token uid u db :
  live_token now token uid db → find_user db uid = Some u →
  RefreshAccessToken now token db
  = Ok (mkLoginResponse (generateAccessToken now u db) token (Z.quot ExpiresIn second) (Some u) false "").
Proof.
  intros (t & Ht & Hid) Hu. unfold RefreshAccessToken. rewrite Ht, Hid, Hu. done.
Qed.

(** With any valid token the handler of users can be reached, and it makes any
    user, also the one that asks, an administrator: the next access token says
    so. *)
Theorem anyone_becomes_admin now caller cl param uid u token db :
  ValidateToken now caller = Some cl →
  ParseUint32 param = Some uid → find_user db uid = Some u → live_token now token uid db →
  passes (chain (protected now) (bearer caller) ∅) = true ∧
  let (answer, db') := updateUserHandler true param (Ok (mkUserUpdate "" "" "" None (Some true))) db in
  answer.1 = 200 ∧
  ∃ r, RefreshAccessToken now token db' = Ok r ∧
    ∀ now', now / second * second <= now' < (now + ExpiresIn) / second * second →
      ∃ cl', ValidateToken now' (AccessToken r) = Some cl' ∧ claims_UserID cl' = uid ∧
        claims_IsAdmin cl' = true.
Proof.
  intros Hv Hp Hu Ht. split; [unfold protected, chain; by rewrite (bearer_passes _ _ _ Hv)|].
  unfold updateUserHandler, named_user. rewrite Hp, Hu. split; [done|].
  pose proof (find_user_elem _ _ _ Hu) as [_ Hid]. change (ID (updated_user _ u)) with (ID u). rewrite Hid.
  set (u' := updated_user _ u). set (db' := on_user uid _ db).
  assert (find_user db' uid = Some u') as Hu' by (apply (find_user_updated db u); auto).
  eexists. split; [by apply (refreshed now token uid u' db')|]. intros now' Hn.
  exists (user_claims u' db'). cbn [AccessToken]. rewrite issued_token by done. auto.
Qed.

(** A user whom an administrator deactivates is refused at the login but keeps
    getting access tokens with all permissions for the refresh token. *)
Theorem deactivated_user_refreshes now written d param uid u token req db :
  ParseUint32 param = Some uid → find_user db uid = Some u → live_token now token uid db →
  good_draw d db →
  Forall (λ v, ID v ≠ uid → Username v ≠ l_Username req ∧ Email v ≠ l_Username req) (users db) →
  let (answer, db') := updateUserStatusHandler true param (Ok "inactive") db in
  answer.1 = 200 ∧ (∃ e, (Login now written d req db').1 = Err e) ∧
  ∃ r, RefreshAccessToken now token db' = Ok r ∧
    ∀ now', now / second * second <= now' < (now + ExpiresIn) / second * second →
      ValidateToken now' (AccessToken r) = Some (user_claims u db).
Proof.
  intros Hp Hu Ht Hd Hother. unfold updateUserStatusHandler, named_user. rewrite Hp, Hu.
  pose proof (find_user_elem _ _ _ Hu) as [Hin Hid]. simpl.
  change (ID (with_profile _ _ _ _ _ u)) with (ID u). rewrite Hid.
  set (u' := with_profile _ _ _ false _ u). set (db' := on_user uid _ db). split; [done|]. split.
  - pose proof (Login_outcome now written d req db' Hd) as H.
    destruct (Login now written d req db').1 as [r|e]; [|by exists e]. exfalso.
    destruct H as [_ (v & Hv & _)]. unfold authenticateUser in Hv.
    destruct (List.find _ _) as [w|] eqn:F; [|done]. apply find_elem in F as [Hw Hm]. simpl in Hw.
    apply list_elem_of_fmap in Hw as (x & -> & Hx). destruct (Z.eqb_spec (ID x) uid) as [E|E].
    + by rewrite andb_false_r in Hm.
    + destruct (proj1 (list.Forall_forall _ _) Hother x Hx E) as [H1 H2].
      by rewrite !bool_decide_eq_false_2 in Hm.
  - assert (find_user db' uid = Some u') as Hu' by (apply (find_user_updated db u); auto).
    eexists. split; [by apply (refreshed now token uid u' db')|]. intros now' Hn.
    cbn [AccessToken]. by rewrite issued_token.
Qed.

(** A new user cannot log in: the password of the request is not stored. *)
Theorem created_user_locked_out id n db now written d pw code :
  existsb (λ v, ID v =? id) (users db) = false →
  Forall (λ v, Username v ≠ n_Username n ∧ Email v ≠ n_Username n) (users db) → good_draw d db →
  let (answer, db') := createUserHandler id None (Ok n) db in
  answer.1 = 201 ∧ ∃ e, (Login now written d (mkLogin (n_Username n) pw code) db').1 = Err e.
Proof.
  intros Hid Hother Hd. unfold createUserHandler. rewrite Hid. split; [done|].
  set (u := mkUser id _ _ _ _ _ _ _ _ _ _ _). set (db' := set_users _ db).
  pose proof (Login_outcome now written d (mkLogin (n_Username n) pw code) db' Hd) as H.
  destruct (Login _ _ _ _ db').1 as [r|e]; [|by exists e]. exfalso.
  destruct H as [_ (v & Hv & _)]. unfold authenticateUser in Hv. simpl in Hv.
  rewrite find_app_none in Hv.
  2: { apply find_none_elem. intros w Hw.
       destruct (proj1 (list.Forall_forall _ _) Hother w Hw). by rewrite !bool_decide_eq_false_2. }
  simpl in Hv. rewrite bool_decide_eq_true_2 in Hv by done. simpl in Hv. by rewrite Compare_empty in Hv.
Qed.

(** *** Temporary credentials *)

Definition no_cleanup (o : call) : Prop := match o with CCleanup _ => False | _ => True end.

(** Sessions of temporary credentials are stored without a token. *)
Definition blank_session (db : DB) : Prop := Exists (λ s, s_SessionToken s = "") (sts_sessions db).

Lemma assume_sessions now id key secret create req c db :
  let '(answer, db') := assumeRoleHandler now id key secret create req c db in
  answer.1 ≠ 200 ∧ sts_sessions db' = sts_sessions db ∨
  ∃ s, sts_sessions db' = sts_sessions db ++ [s] ∧ s_SessionToken s = "" ∧ ¬ blank_session db.
Proof.
  unfold assumeRoleHandler.
  destruct req as [req|]; [|by left; split]. set (duration := if _ <=? 0 then _ else _).
  destruct (43200 <? duration); [by left; split|]. destruct (c !! _) as [[]|]; try (by left; split).
  destruct (List.find _ (roles db)) as [role|]; [|by left; split].
  destruct (loadTrustPolicy _ db) as [policy|]; [|by left; split]. destruct (negb _); [by left; split|].
  unfold generateSTSCredentials. destruct key as [key|]; [|by left; split]. destruct secret as [secret|]; [|by left; split].
  destruct create; [by left; split|]. destruct (existsb _ _) eqn:E; [by left; split|]. right.
  eexists. split; [done|]. split; [done|]. intros Hb. apply list.Exists_exists in Hb as (s & Hs & Ht).
  assert (existsb (λ s, (s_ID s =? id) || bool_decide (s_AccessKeyID s = "VCTMP" +:+ RawURLEncoding key)
    || bool_decide (s_SessionToken s = "")) (sts_sessions db) = true) as H; [|simpl in E; congruence].
  apply existsb_exists. exists s. split; [by apply list_elem_of_In|].
  by rewrite (bool_decide_eq_true_2 (s_SessionToken s = "") Ht), orb_true_r.
Qed.

Lemma perform_blank db o : no_cleanup o → blank_session db → blank_session (perform db o).
Proof.
  intros Ho Hb. assert (∀ db', sts_sessions db' = sts_sessions db → blank_session db') as Hsame
    by (unfold blank_session; by intros ? ->).
  destruct o; simpl in Ho; unfold perform; try done;
    try (apply Hsame; unfold logoutHandler, Logout, mfaSetupHandler, mfaVerifyHandler, mfaDisableHandler,
      mfaRegenerateCodesHandler, createUserHandler, updateUserHandler, deleteUserHandler,
      updateUserStatusHandler, resetUserPasswordHandler, updateProfileHandler, changePasswordHandler;
      repeat case_match; simplify_eq; done).
  - destruct req; [|done]. rewrite loginHandler_db. apply Hsame, Login_moves.
  - apply Hsame, challenge_moves.
  - pose proof (assume_sessions now id key secret create req c db) as H.
    destruct (assumeRoleHandler _ _ _ _ _ _ _ _) as [r db']. destruct H as [[_ H]|(s & _ & _ & H)];
      [by apply Hsame|done].
Qed.

(** Once a role was assumed, no role can be assumed any more, by anyone, until
    expired sessions are cleaned up, which nothing does. *)
Theorem one_session now id key secret create req c db answer os now' id' key' secret' create' req' c' :
  (assumeRoleHandler now id key secret create req c db).1 = (200, answer) → Forall no_cleanup os →
  let db' := history (assumeRoleHandler now id key secret create req c db).2 os in
  ∀ body, (assumeRoleHandler now' id' key' secret' create' req' c' db').1 ≠ (200, body).
Proof.
  intros Hok Hos db' body E. assert (blank_session db') as Hb.
  { pose proof (assume_sessions now id key secret create req c db) as H. subst db'. clear E.
    destruct (assumeRoleHandler now id key secret create req c db) as [r db1]. simpl in *.
    assert (blank_session db1) as H1.
    { destruct H as [[H _]|(s & Hs & Ht & _)]; [by rewrite Hok in H|]. unfold blank_session. rewrite Hs.
      apply list.Exists_app. right. by constructor. }
    clear H. revert db1 H1. induction os as [|o os IH]; intros db1 H1; [done|].
    apply list.Forall_cons in Hos as [Ho Hos]. apply (IH Hos). by apply perform_blank. }
  generalize dependent db'. intros db' E Hb.
  pose proof (assume_sessions now' id' key' secret' create' req' c' db') as H.
  destruct (assumeRoleHandler _ _ _ _ _ _ _ db') as [r db1]. simpl in E. subst r.
  by destruct H as [[H _]|(s & _ & _ & H)].
Qed.

(** A role is assumed only by a user whom its trust policy names, for twelve hours
    at most, and the token carries the names of the role's policies but none of
    its permissions. *)
Theorem assumed_role now id key secret create req c db body :
  (assumeRoleHandler now id key secret create (Ok req) c db).1 = (200, body) →
  ∃ uid role trust duration token creds,
    c !! "user_id" = Some (AUint uid) ∧ role ∈ roles db ∧ r_ID role = a_RoleID req ∧
    loadTrustPolicy (r_ID role) db = Some trust ∧ evaluateTrustPolicy trust uid (context_username c) = true ∧
    0 < duration <= 43200 ∧ body = JObj [("credentials", JObj creds); ("assumed_role", JStr (r_Name role))] ∧
    ("session_token", JStr token) ∈ creds ∧
    ∀ now', now / second * second <= now' < (now + duration * second) / second * second →
      ValidateToken now' token = Some (mkClaims uid (json_text (context_username c)) false
        [json_text ("sts-session:" +:+ r_Name role)]
        ((λ p, json_text ("policy:" +:+ policy_name p)) <$> policies_of db (r_ID role))).
Proof.
  unfold assumeRoleHandler. set (duration := if _ <=? 0 then _ else _).
  assert (0 < duration) as Hpos by (unfold duration; destruct (_ <=? 0) eqn:E; lia).
  destruct (43200 <? duration) eqn:Hd; [done|]. destruct (c !! "user_id") as [[]|] eqn:Hc; try done.
  destruct (List.find _ (roles db)) as [role|] eqn:Hr; [|done]. apply find_elem in Hr as [Hin Hid].
  destruct (loadTrustPolicy _ db) as [trust|] eqn:Ht; [|done].
  destruct (evaluateTrustPolicy _ _ _) eqn:He; [|done]. simpl.
  destruct (generateSTSCredentials _ _ _ _ _ _ _ _ _ db) as [[session db']|]; [|done]. simpl.
  intros [= <-]. zbool.
  eexists n, role, trust, duration, (generateSTSToken now n (context_username c) role []
    (policy_name <$> policies_of db (r_ID role)) duration), _.
  split_and!; try done; [by rewrite !elem_of_cons; auto|]. intros now' Hn.
  unfold ValidateToken, generateSTSToken. rewrite ParseWithClaims_signed.
  unfold timely, sts_payload, NumericDate. simpl.
  rewrite (proj2 (Z.ltb_lt _ _)), (proj2 (Z.leb_le _ _)) by lia. simpl.
  by rewrite <- !list_fmap_compose.
Qed.
End service.

(** ** Instances *)

(** Tokens that spell out the secret and the claims. *)
Fixpoint pos_text (p : positive) : string :=
  match p with xH => "" | xO p => String "0" (pos_text p) | xI p => String "1" (pos_text p) end.

Fixpoint text_pos (s : string) : positive :=
  match s with
  | EmptyString => xH
  | String c s => if decide (c = "1"%char) then xI (text_pos s) else xO (text_pos s)
  end.

Lemma text_pos_text p : text_pos (pos_text p) = p.
Proof. induction p as [p IH|p IH|]; simpl; by rewrite ?IH. Qed.

Definition z_text (z : Z) : string :=
  match z with Z0 => "" | Zpos p => String "+" (pos_text p) | Zneg p => String "-" (pos_text p) end.

Definition text_z (s : string) : Z :=
  match s with
  | EmptyString => 0
  | String c s => if decide (c = "+"%char) then Zpos (text_pos s) else Zneg (text_pos s)
  end.

Lemma text_z_text z : text_z (z_text z) = z.
Proof. destruct z as [|p|p]; simpl; by rewrite ?text_pos_text. Qed.

(** Texts in sequence, with commas and backslashes escaped. *)
Fixpoint field (s rest : string) : string :=
  match s with
  | EmptyString => String "," rest
  | String c s =>
      if decide (c = "\"%char) then String "\" (String "\" (field s rest))
      else if decide (c = ","%char) then String "\" (String "," (field s rest))
      else String c (field s rest)
  end.

Fixpoint unfield (s : string) : string * string :=
  match s with
  | EmptyString => ("", "")
  | String c s =>
      if decide (c = ","%char) then ("", s)
      else if decide (c = "\"%char)
      then match s with
           | String d s => let (f, r) := unfield s in (String d f, r)
           | EmptyString => ("", "")
           end
      else let (f, r) := unfield s in (String c f, r)
  end.

Lemma unfield_field s rest : unfield (field s rest) = (s, rest).
Proof.
  induction s as [|c s IH]; [done|]. simpl. case_decide; [subst; simpl; by rewrite IH|].
  case_decide; [subst; simpl; by rewrite IH|]. simpl. rewrite !decide_False by done. by rewrite IH.
Qed.

Definition pack (l : list string) : string := foldr field "" l.

Fixpoint unpack_with (fuel : nat) (s : string) : list string :=
  match fuel, s with
  | S fuel, String _ _ => let (x, r) := unfield s in x :: unpack_with fuel r
  | _, _ => []
  end.

Definition unpack (s : string) : list string := unpack_with (str_len s) s.

Lemma field_cons s rest : ∃ c t, field s rest = String c t ∧ (str_len rest <= str_len t)%nat.
Proof.
  destruct s as [|c s]; simpl; [by eexists _, _|].
  assert (str_len rest <= str_len (field s rest))%nat as H.
  { induction s as [|d s IH]; simpl; [lia|]. repeat case_decide; simpl; lia. }
  repeat case_decide; eexists _, _; (split; [done|]); simpl; lia.
Qed.

Lemma unpack_pack l : unpack (pack l) = l.
Proof.
  unfold unpack. assert (∀ n, (str_len (pack l) <= n)%nat → unpack_with n (pack l) = l) as H; [|by apply H].
  induction l as [|s l IH]; intros n Hn; [by destruct n|]. simpl in *.
  destruct (field_cons s (pack l)) as (c & t & E & Hle). fold (pack l) in *. rewrite E in Hn. simpl in Hn.
  destruct n as [|n]; [lia|]. simpl. rewrite E. rewrite <- E, unfield_field. f_equal. apply IH. lia.
Qed.

Definition payload_text (secret : string) (p : Payload) : string :=
  pack [secret; z_text (p_UserID p); z_text (p_ProjectID p); p_Username p; p_Email p;
    if p_IsAdmin p then "1" else ""; pack (p_Roles p); pack (p_Permissions p); p_Purpose p; p_Subject p;
    z_text (p_IssuedAt p); z_text (p_ExpiresAt p);
    match p_NotBefore p with Some t => String "s" (z_text t) | None => "" end;
    p_Issuer p; pack (p_Audience p)].

Definition text_payload (t : string) : option (string * Payload) :=
  match unpack t with
  | [secret; uid; pid; name; mail; admin; rs; ps; purpose; sub; iat; exp; nbf; iss; aud] =>
      Some (secret, mkPayload (text_z uid) (text_z pid) name mail (bool_decide (admin = "1")) (unpack rs)
        (unpack ps) purpose sub (text_z iat) (text_z exp)
        (match nbf with String _ t => Some (text_z t) | EmptyString => None end) iss (unpack aud))
  | _ => None
  end.

Lemma text_payload_text secret p : text_payload (payload_text secret p) = Some (secret, p).
Proof.
  unfold text_payload, payload_text. rewrite unpack_pack, !unpack_pack, !text_z_text.
  destruct p as [? ? ? ? admin ? ? ? ? ? ? nbf ? ?]. simpl.
  destruct admin, nbf; simpl; by rewrite ?text_z_text.
Qed.

Definition plain_jwt : JWT.
Proof.
  refine {|
    SignedString := payload_text;
    ParseWithClaims secret now t :=
      match text_payload t with
      | Some (s, p) => if bool_decide (s = secret) && timely now p then Some (transmitted p) else None
      | None => None
      end
  |}.
  intros secret now p. by rewrite text_payload_text, bool_decide_eq_true_2.
Defined.

Definition plain_bcrypt : Bcrypt.
Proof.
  refine {|
    GenerateFromPassword _ pw := Ok ("$" +:+ pw);
    CompareHashAndPassword h pw := bool_decide (h = "$" +:+ pw)
  |}; [intros _ pw h [= <-]; by apply bool_decide_eq_true_2|done].
Defined.

Definition plain_totp : TOTP := λ _ code secret, bool_decide (code = secret).

#[local] Existing Instance plain_jwt.
#[local] Existing Instance plain_bcrypt.
#[local] Existing Instance plain_totp.

Definition alice : User :=
  mkUser 1 "alice" "alice@example.org" "$pw" "Alice" "A" true false true "123456"
    (Some ["$c1"; "$c2"]) (Some 0).
Definition bob : User :=
  mkUser 2 "bob" "bob@example.org" "$bobpw" "Bob" "B" true false false "" None None.

Definition sample : DB :=
  mkDB [alice; bob] [mkRole 1 "ops" ""] [mkPermission 1 "instance:list" "instance" "list" ""]
    [mkPolicyRow 1 (mkPolicy "readonly" None) "" "custom"]
    [(1, 1)] [(1, 1)] [(1, 1)] [] [mkRefreshToken 1 "tok" 2 (1000 * second) false]
    [(1, [mkTrust "Allow" ["user:alice"] [] false "sts:AssumeRole"])] [] newLoginThrottle.

Definition draw : drawn_token := mkDrawn (Ok (replicate 32 7)) 2 None.

Lemma draw_good : good_draw draw sample.
Proof. exists (replicate 32 7). split; [done|]. split; [done|]. vm_compute. reflexivity. Qed.

Definition day : Z := 24 * hour.

Lemma logout_final_witness :
  RefreshAccessToken "s" day 10 "tok" (history "s" day day (Logout None "tok" sample).2
    [CLogin 5 true draw (Ok (mkLogin "bob" "bobpw" ""))]) = Err "invalid refresh token".
Proof.
  apply (logout_final "s" day day "tok" sample (mkRefreshToken 1 "tok" 2 (1000 * second) false)); [|done].
  vm_compute. left.
Defined.

Lemma recovery_code_once_witness :
  let db' := history "s" day day (second_factor 1 true alice "c1" sample).2
    [CLogin 5 true draw (Ok (mkLogin "alice" "pw" "c2"))] in
  (second_factor 1 true alice "c1" sample).1 = true ∧
  (second_factor 9 true (with_codes (Some []) alice) "c1" db').1 = false.
Proof.
  intros db'.
  pose proof (recovery_code_once "s" day day 1 true alice "c1" sample 9 true
    [CLogin 5 true draw (Ok (mkLogin "alice" "pw" "c2"))] [] "$c1" ["$c2"]) as H.
  destruct (second_factor 1 true alice "c1" sample) as [ok db1] eqn:E. destruct H as [H1 H2].
  - done.
  - done.
  - constructor; [done|constructor].
  - done.
  - constructor; [done|constructor].
  - split; [done|]. apply H2. vm_compute in E. injection E as <- <-. vm_compute. reflexivity.
Defined.

Lemma login_succeeds_example :
  (∃ r, (Login "s" day day 5 true draw (mkLogin "alice" "pw" "123456") sample).1 = Ok r ∧ MFARequired r = false) ∧
  ¬ (∃ r, (Login "s" day day 5 true draw (mkLogin "alice" "pw" "000000") sample).1 = Ok r ∧
      MFARequired r = false).
Proof.
  split; [eexists; split; vm_compute; reflexivity|]. intros (r & H & _). vm_compute in H. discriminate.
Qed.

Lemma password_suffices_witness :
  ∃ r db1 db2 c answer, mfaDisableHandler true (Ok "pw") c db1 = ((200, answer), db2) ∧
    (Login "s" day day 5 true draw (mkLogin "alice" "pw" "") db2).1 = Ok r ∧ MFARequired r = false.
Proof.
  destruct (password_suffices "s" day day 5 alice "pw" draw sample) as
    (token & db1 & c & answer & db2 & r & _ & _ & H2 & H3 & H4 & _);
    [reflexivity|reflexivity|reflexivity|reflexivity|apply draw_good|].
  exists r, db1, db2, c, answer. auto.
Defined.

Lemma anyone_becomes_admin_witness :
  ∃ r, RefreshAccessToken "s" day 5 "tok"
    (updateUserHandler true "2" (Ok (mkUserUpdate "" "" "" None (Some true))) sample).2 = Ok r.
Proof.
  destruct (anyone_becomes_admin "s" day 5 (generateMFAToken "s" 5 alice) (mkClaims 1 "alice" false [] [])
    "2" 2 bob "tok" sample) as [_ H];
    [vm_compute; reflexivity|reflexivity|reflexivity|eexists; split; reflexivity|].
  destruct (updateUserHandler _ _ _ _) as [a db']. destruct H as [_ (r & Hr & _)]. by exists r.
Defined.

Lemma deactivated_user_refreshes_witness :
  ∃ r, RefreshAccessToken "s" day 5 "tok" (updateUserStatusHandler true "2" (Ok "inactive") sample).2 = Ok r.
Proof.
  pose proof (deactivated_user_refreshes "s" day day 5 true draw "2" 2 bob "tok" (mkLogin "bob" "bobpw" "")
    sample) as H.
  destruct (updateUserStatusHandler _ _ _ _) as [a db'].
  destruct H as (_ & _ & r & Hr & _); [reflexivity|reflexivity|eexists; split; reflexivity|apply draw_good| |by exists r].
  constructor; [by intros _|]. constructor; [|constructor]. intros H. by destruct H.
Defined.

Lemma created_user_locked_out_witness :
  ∃ e, (Login "s" day day 5 true draw (mkLogin "carol" "longpassword" "")
    (createUserHandler 3 None (Ok (mkNewUser "carol" "c@example.org" "longpassword" "C" "C" false)) sample).2).1
    = Err e.
Proof.
  pose proof (created_user_locked_out "s" day day 3 (mkNewUser "carol" "c@example.org" "longpassword" "C" "C" false)
    sample 5 true draw "longpassword" "") as H.
  destruct (createUserHandler _ _ _ _) as [a db'].
  destruct H as [_ H]; [reflexivity|repeat (constructor; [done|]); constructor|apply draw_good|exact H].
Defined.

Definition alice_keys : Keys := keys_of (mkClaims 1 "alice" false [] []).
Definition assume (db : DB) : response * DB :=
  assumeRoleHandler "s" 5 1 (Ok (replicate 16 1)) (Ok (replicate 32 2)) None (Ok (mkAssume 1 "s1" 0))
    alice_keys db.

Definition reply_body (r : response) : json := r.2.

Lemma assume_answer : (assume sample).1 = (200, reply_body (assume sample).1).
Proof. vm_compute. reflexivity. Qed.

Lemma one_session_witness :
  (assumeRoleHandler "s" 9 2 (Ok (replicate 16 3)) (Ok (replicate 32 4)) None (Ok (mkAssume 1 "s2" 0))
    alice_keys (assume sample).2).1 ≠ (200, JNull).
Proof.
  exact (one_session "s" day day 5 1 (Ok (replicate 16 1)) (Ok (replicate 32 2)) None (Ok (mkAssume 1 "s1" 0))
    alice_keys sample (reply_body (assume sample).1) [] 9 2 (Ok (replicate 16 3)) (Ok (replicate 32 4)) None
    (Ok (mkAssume 1 "s2" 0)) alice_keys assume_answer (list.Forall_nil_2 _) JNull).
Defined.

Lemma assumed_role_witness :
  ∃ token, ValidateToken "s" 5 token
    = Some (mkClaims 1 "alice" false ["sts-session:ops"] ["policy:readonly"]).
Proof.
  destruct (assumed_role "s" 5 1 (Ok (replicate 16 1)) (Ok (replicate 32 2)) None (mkAssume 1 "s1" 0)
    alice_keys sample (reply_body (assume sample).1) assume_answer)
    as (uid & role & trust & duration & token & creds & Hu & Hin & _ & _ & _ & Hd & Hb & _ & H).
  apply list_elem_of_singleton in Hin as ->. injection Hu as <-.
  exists token. rewrite H; [vm_compute; reflexivity|]. split; [vm_compute; discriminate|].
  rewrite Z.div_add by done. change (5 / second) with 0. unfold second. lia.
Defined.

Lemma logged_in_user_kept_witness :
  2 ∈ ID <$> users (history "s" day day sample [CDeleteUser true "2"; CDeleteUser true "7"]).
Proof.
  refine (logged_in_user_kept "s" day day 2 sample (mkRefreshToken 1 "tok" 2 (1000 * second) false) _ _ _ _);
    [by left|reflexivity|by right; left].
Defined.
