(* ===== verification/Grants.v ===== *)
(** * Roles, permissions and policies

    internal/management/identity/handler_rbac.go: the handlers of roles,
    permissions and the roles of users; and the handlers of policies in
    handler_profile.go. They work on the tables of Sessions, from which the access
    tokens take the permissions of a user. Rows are in the order of their ids,
    which the database draws; the outcome of queries and writes are arguments. The
    theorems say which routes a token opens, what assigning and deleting roles does
    to that, and that the rows of the system are kept. *)
From Stdlib Require Import Ascii.
From S2P Require Json.
From S2P Require Import Prelude GoStrings Utf8 NetIP Vrn Policy Actions Rbac Http Sessions.
Local Open Scope Z_scope.

(** ** The database *)

(** PostgreSQL: the number that a text parameter stands for, the order of texts,
    and the rows of policies that a condition selects, if it is well formed. *)
Class Postgres := {
  text_int8 : string → option Z;
  collate : string → string → bool;
  condition : string → option (PolicyRow → bool)
}.

Definition with_grants (rs : list Role) (ps : list Permission) (pols : list PolicyRow)
    (ur rp rpol : list (Z * Z)) (db : DB) : DB :=
  mkDB (users db) rs ps pols ur rp rpol (projects db) (refresh_tokens db) (trust_policies db)
    (sts_sessions db) (throttle db).

Definition set_roles (f : list Role → list Role) (db : DB) : DB :=
  with_grants (f (roles db)) (permissions db) (policies db) (user_roles db) (role_permissions db)
    (role_policies db) db.
Definition set_permissions (f : list Permission → list Permission) (db : DB) : DB :=
  with_grants (roles db) (f (permissions db)) (policies db) (user_roles db) (role_permissions db)
    (role_policies db) db.
Definition set_policies (f : list PolicyRow → list PolicyRow) (db : DB) : DB :=
  with_grants (roles db) (permissions db) (f (policies db)) (user_roles db) (role_permissions db)
    (role_policies db) db.
Definition set_user_roles (f : list (Z * Z) → list (Z * Z)) (db : DB) : DB :=
  with_grants (roles db) (permissions db) (policies db) (f (user_roles db)) (role_permissions db)
    (role_policies db) db.
Definition set_role_permissions (f : list (Z * Z) → list (Z * Z)) (db : DB) : DB :=
  with_grants (roles db) (permissions db) (policies db) (user_roles db) (f (role_permissions db))
    (role_policies db) db.
Definition set_role_policies (f : list (Z * Z) → list (Z * Z)) (db : DB) : DB :=
  with_grants (roles db) (permissions db) (policies db) (user_roles db) (role_permissions db)
    (f (role_policies db)) db.

Definition find_role (db : DB) (id : Z) : option Role := List.find (λ r, r_ID r =? id) (roles db).
Definition find_permission (db : DB) (id : Z) : option Permission :=
  List.find (λ p, pm_ID p =? id) (permissions db).

(** [id IN ?]. *)
Definition permissions_with (ids : list Z) (db : DB) : list Permission :=
  filter (λ p, pm_ID p ∈ ids) (permissions db).

(** The pairs of a join table without those of a row on the left. *)
Definition unjoined (id : Z) (l : list (Z * Z)) : list (Z * Z) := filter (λ x, x.1 ≠ id) l.

(** How many users have a role. *)
Definition user_count (db : DB) (rid : Z) : Z := Z.of_nat (length (filter (λ ur, ur.2 = rid) (user_roles db))).

(** ** Answers *)

Definition policy_json (p : PolicyRow) : json := JObj [
  ("id", JNum (po_ID p)); ("name", JStr (policy_name p)); ("description", JStr (po_Description p));
  ("type", JStr (po_Type p));
  ("document", JOpt (λ m, Json.in_body (Json.JObj m)) (Document (po_Policy p)))].

(** The members of a role that is loaded with its permissions and policies. *)
Definition role_members (db : DB) (r : Role) : list (string * json) := [
  ("id", JNum (r_ID r)); ("name", JStr (r_Name r)); ("description", JStr (r_Description r));
  ("permissions", JList (permission_json <$> permissions_of db (r_ID r)));
  ("policies", JList (policy_json <$> policies_of db (r_ID r)))].

(** ** Roles *)

Definition sysRoles (name : string) : bool := bool_decide (name ∈ ["admin"; "operator"; "viewer"; "member"]).

(** [counted] tells whether the query for the counts succeeds; its error is
    dropped. *)
Definition listRolesHandler (err counted : bool) (name : string) (db : DB) : response :=
  if err then error 500 "Failed to list roles"
  else
    let rs := if decide (name = "") then roles db
              else filter (λ r, Like ("%" +:+ name +:+ "%") (r_Name r) = true) (roles db) in
    let view r := JObj (role_members db r ++ [
      ("permission_count", JNum (Z.of_nat (length (permissions_of db (r_ID r)))));
      ("user_count", JNum (if counted then user_count db (r_ID r) else 0))]) in
    (200, JObj [("roles", JList (view <$> rs));
                ("metadata", JObj [("total_count", JNum (Z.of_nat (length rs)))])]).

(** A missing list of permissions is [None]. *)
Record RoleRequest := mkRoleRequest {
  rr_Name : string; rr_Description : string; rr_PermissionIDs : option (list Z)
}.

(** [counted] and [found] tell whether the two queries succeed, [create] whether
    the database takes the row; [id] is the number it draws. *)
Definition createRoleHandler (id : Z) (counted found create : bool) (req : result string RoleRequest)
    (db : DB) : response * DB :=
  match req with
  | Err e => (error 400 e, db)
  | Ok req =>
      if counted && existsb (λ r, bool_decide (r_Name r = rr_Name req)) (roles db)
      then (error 409 "role name already exists", db)
      else
        let ids := default [] (rr_PermissionIDs req) in
        if bool_decide (ids ≠ []) && negb found then (error 500 "failed to find permissions", db)
        else
          let perms := permissions_with ids db in
          let r := mkRole id (rr_Name req) (rr_Description req) in
          if negb create || existsb (λ r, r_ID r =? id) (roles db)
          then (error 500 "failed to create role", db)
          else
            ((201, JObj [("role", role_json (if decide (ids = []) then JNull
                                             else JList (permission_json <$> perms)) r)]),
             set_role_permissions (λ l, l ++ ((λ p, (id, pm_ID p)) <$> perms))
               (set_roles (λ l, l ++ [r]) db))
  end.

Definition named_role (param : string) (db : DB) : result response Role :=
  match ParseUint32 param with
  | None => Err (error 400 "invalid ID")
  | Some id =>
      match find_role db id with
      | None => Err (error 404 "role not found")
      | Some r => Ok r
      end
  end.

Definition getRoleHandler (counted : bool) (param : string) (db : DB) : response :=
  match named_role param db with
  | Err e => e
  | Ok r => (200, JObj [("role", JObj (role_members db r));
                        ("user_count", JNum (if counted then user_count db (r_ID r) else 0))])
  end.

(** [Association("Permissions").Replace]. *)
Definition replace_permissions (rid : Z) (perms : list Permission) : DB → DB :=
  set_role_permissions (λ l, unjoined rid l ++ ((λ p, (rid, pm_ID p)) <$> perms)).

(** [found] tells whether the permissions can be read, [replaced] whether the
    association is written; both errors are dropped. *)
Definition updateRoleHandler (write found replaced : bool) (param : string) (req : result string RoleRequest)
    (db : DB) : response * DB :=
  match named_role param db with
  | Err e => (e, db)
  | Ok role =>
      match req with
      | Err e => (error 400 e, db)
      | Ok req =>
          let rename := bool_decide (rr_Name req ≠ "") && bool_decide (rr_Name req ≠ r_Name role) in
          if rename && sysRoles (r_Name role) then (error 403 "cannot rename system role", db)
          else if negb write then (error 500 "failed to update role", db)
          else
            let role := mkRole (r_ID role) (nonempty (rr_Name req) (r_Name role))
              (nonempty (rr_Description req) (r_Description role)) in
            let db := set_roles (fmap (λ r, if r_ID r =? r_ID role then role else r)) db in
            let db :=
              match rr_PermissionIDs req with
              | Some ids =>
                  if replaced
                  then replace_permissions (r_ID role) (if found then permissions_with ids db else []) db
                  else db
              | None => db
              end in
            ((200, JObj [("role", role_json (JList (permission_json <$> permissions_of db (r_ID role))) role)]),
             db)
      end
  end.

(** The foreign keys that refer to a role. *)
Definition role_referenced (id : Z) (db : DB) : bool :=
  existsb (λ ur, ur.2 =? id) (user_roles db)
  || existsb (λ x, x.1 =? id) (role_permissions db) || existsb (λ x, x.1 =? id) (role_policies db).

(** The three deletions that come first may fail without notice. *)
Definition deleteRoleHandler (perms pols assigned write : bool) (param : string) (db : DB) : response * DB :=
  match named_role param db with
  | Err e => (e, db)
  | Ok role =>
      let id := r_ID role in
      if sysRoles (r_Name role) then (error 403 "cannot delete system role", db)
      else
        let db := if perms then set_role_permissions (unjoined id) db else db in
        let db := if pols then set_role_policies (unjoined id) db else db in
        let db := if assigned then set_user_roles (filter (λ ur, ur.2 ≠ id)) db else db in
        if write && negb (role_referenced id db)
        then (message 200 "role deleted", set_roles (filter (λ r, r_ID r ≠ id)) db)
        else (error 500 "failed to delete role", db)
  end.

(** ** Permissions *)

Section handlers.
Context {pg : Postgres}.

(** [ORDER BY resource ASC, action ASC]. *)
Definition permission_leb (p q : Permission) : bool :=
  if bool_decide (pm_Resource p = pm_Resource q) then collate (pm_Action p) (pm_Action q)
  else collate (pm_Resource p) (pm_Resource q).

Definition permission_le : relation Permission := λ p q, permission_leb p q = true.

#[local] Instance permission_le_dec : RelDecision permission_le.
Proof. intros p q. unfold permission_le. apply _. Defined.

Definition listPermissionsHandler (err : bool) (resource action : string) (db : DB) : response :=
  if err then error 500 "failed to list permissions"
  else
    let ps := merge_sort permission_le
      (filter (λ p, (resource = "" ∨ pm_Resource p = resource) ∧ (action = "" ∨ pm_Action p = action))
        (permissions db)) in
    let groups := Strings (remove_dups (pm_Resource <$> ps)) in
    (200, JObj [("permissions", JList (permission_json <$> ps));
      ("groups", JObj ((λ g, (g, JList (permission_json <$> filter (λ p, pm_Resource p = g) ps))) <$> groups));
      ("metadata", JObj [("total_count", JNum (Z.of_nat (length ps)))])]).

Record PermissionRequest := mkPermissionRequest {
  pq_Name : string; pq_Resource : string; pq_Action : string; pq_Description : string
}.

(** The name of a permission is unique. *)
Definition createPermissionHandler (id : Z) (create : bool) (req : result string PermissionRequest) (db : DB)
    : response * DB :=
  match req with
  | Err e => (error 400 e, db)
  | Ok req =>
      let p := mkPermission id (pq_Name req) (pq_Resource req) (pq_Action req) (pq_Description req) in
      if negb create
         || existsb (λ q, (pm_ID q =? id) || bool_decide (pm_Name q = pq_Name req)) (permissions db)
      then (error 409 "permission already exists", db)
      else ((201, JObj [("permission", permission_json p)]), set_permissions (λ l, l ++ [p]) db)
  end.

Definition named_permission (param : string) (db : DB) : result response Permission :=
  match ParseUint32 param with
  | None => Err (error 400 "invalid ID")
  | Some id =>
      match find_permission db id with
      | None => Err (error 404 "permission not found")
      | Some p => Ok p
      end
  end.

Definition getPermissionHandler (param : string) (db : DB) : response :=
  match named_permission param db with
  | Err e => e
  | Ok p => (200, JObj [("permission", permission_json p)])
  end.

(** The error of the write is dropped. *)
Definition updatePermissionHandler (write : bool) (param : string) (req : result string string) (db : DB)
    : response * DB :=
  match named_permission param db with
  | Err e => (e, db)
  | Ok p =>
      match req with
      | Err e => (error 400 e, db)
      | Ok description =>
          let p := mkPermission (pm_ID p) (pm_Name p) (pm_Resource p) (pm_Action p)
            (nonempty description (pm_Description p)) in
          ((200, JObj [("permission", permission_json p)]),
           if bool_decide (description ≠ "") && write
           then set_permissions (fmap (λ q, if pm_ID q =? pm_ID p then p else q)) db else db)
      end
  end.

Definition deletePermissionHandler (cleared write : bool) (param : string) (db : DB) : response * DB :=
  match named_permission param db with
  | Err e => (e, db)
  | Ok p =>
      let db := if cleared then set_role_permissions (filter (λ x, x.2 ≠ pm_ID p)) db else db in
      if write && negb (existsb (λ x, x.2 =? pm_ID p) (role_permissions db))
      then (message 200 "permission deleted", set_permissions (filter (λ q, pm_ID q ≠ pm_ID p)) db)
      else (error 500 "failed to delete permission", db)
  end.

(** ** Roles of users *)

(** [counted] tells whether the check for the pair can be made; its error is
    dropped, and the table then refuses a pair that it has. *)
Definition assignUserRoleHandler (counted write : bool) (param : string) (req : result string Z) (db : DB)
    : response * DB :=
  match ParseUint32 param with
  | None => (error 400 "invalid user ID", db)
  | Some uid =>
      match req with
      | Err e => (error 400 e, db)
      | Ok rid =>
          match find_user db uid with
          | None => (error 404 "user not found", db)
          | Some _ =>
              match find_role db rid with
              | None => (error 404 "role not found", db)
              | Some role =>
                  if counted && bool_decide ((uid, rid) ∈ user_roles db)
                  then (error 409 "role already assigned to user", db)
                  else if negb write || bool_decide ((uid, rid) ∈ user_roles db)
                  then (error 500 "failed to assign role", db)
                  else
                    ((200, JObj [("message", JStr "role assigned"); ("user_id", JNum uid);
                                 ("role", JStr (r_Name role))]),
                     set_user_roles (λ l, l ++ [(uid, rid)]) db)
              end
          end
      end
  end.

(** The two parameters reach the database as texts. *)
Definition unassignUserRoleHandler (write : bool) (userID roleID : string) (db : DB) : response * DB :=
  match text_int8 userID, text_int8 roleID with
  | Some uid, Some rid =>
      if write then (message 200 "role unassigned", set_user_roles (filter (λ ur, ur ≠ (uid, rid))) db)
      else (error 500 "failed to unassign role", db)
  | _, _ => (error 500 "failed to unassign role", db)
  end.

Definition listUserRolesHandler (param : string) (db : DB) : response :=
  match ParseUint32 param with
  | None => error 400 "invalid ID"
  | Some uid =>
      match find_user db uid with
      | None => error 404 "user not found"
      | Some u => (200, JObj [("roles", loaded_roles db u)])
      end
  end.

(** ** Policies *)

Definition listPoliciesHandler (err : bool) (db : DB) : response :=
  if err then error 500 "failed to list policies"
  else (200, JObj [("policies", JList (policy_json <$> policies db))]).

Record PolicyRequest := mkPolicyRequest {
  pp_Name : string; pp_Description : string; pp_Document : option (list (string * Json.json))
}.

(** The name of a policy is unique. *)
Definition createPolicyHandler (id : Z) (create : bool) (req : result string PolicyRequest) (db : DB)
    : response * DB :=
  match req with
  | Err e => (error 400 e, db)
  | Ok req =>
      let p := mkPolicyRow id (mkPolicy (pp_Name req) (pp_Document req)) (pp_Description req) "custom" in
      if negb create || existsb (λ q, (po_ID q =? id) || bool_decide (policy_name q = pp_Name req)) (policies db)
      then (error 500 "failed to create policy", db)
      else ((200, JObj [("policy", policy_json p)]), set_policies (λ l, l ++ [p]) db)
  end.

(** [First(&policy, id)] with a text: a number is the primary key, any other text
    that is not empty is the condition of the query. *)
Definition First_policy (id : string) (db : DB) : option PolicyRow :=
  match Atoi id with
  | Some n => List.find (λ p, po_ID p =? n) (policies db)
  | None =>
      if decide (id = "") then head (policies db)
      else selects ← condition id; List.find selects (policies db)
  end.

Definition getPolicyHandler (id : string) (db : DB) : response :=
  match First_policy id db with
  | None => error 404 "policy not found"
  | Some p => (200, JObj [("policy", policy_json p)])
  end.

(** The description and the document of the body, empty and absent ones being left
    as they are. *)
Definition updatePolicyHandler (write : bool) (id : string)
    (req : result string (string * option (list (string * Json.json)))) (db : DB) : response * DB :=
  match First_policy id db with
  | None => (error 404 "policy not found", db)
  | Some p =>
      if decide (po_Type p = "system") then (error 403 "cannot modify system policy", db)
      else
        match req with
        | Err e => (error 400 e, db)
        | Ok (description, document) =>
            let doc := match document with Some d => Some d | None => Document (po_Policy p) end in
            let p := mkPolicyRow (po_ID p) (mkPolicy (policy_name p) doc)
              (nonempty description (po_Description p)) (po_Type p) in
            if write then
              ((200, JObj [("policy", policy_json p)]),
               set_policies (fmap (λ q, if po_ID q =? po_ID p then p else q)) db)
            else (error 500 "failed to update policy", db)
        end
  end.

(** [referenced] stands for the tables that refer to policies. *)
Definition deletePolicyHandler (write : bool) (referenced : Z → bool) (id : string) (db : DB) : response * DB :=
  match First_policy id db with
  | None => (error 404 "policy not found", db)
  | Some p =>
      if decide (po_Type p = "system") then (error 403 "cannot delete system policy", db)
      else if write && negb (referenced (po_ID p)) && negb (existsb (λ x, x.2 =? po_ID p) (role_policies db))
      then ((200, JObj [("ok", JBool true)]), set_policies (filter (λ q, po_ID q ≠ po_ID p)) db)
      else (error 500 "failed to delete policy", db)
  end.
End handlers.

(** ** Routes *)

Section routes.
Context {jwt : JWT} {unicode : UnicodeTables}.
Variable Secret : string.
Variable ExpiresIn : Z.
Variable apiKeyAuthenticator :
  option (string → string → string → string → string → result string Keys).

(** The claims of a token as the middleware of the other services decodes them. *)
Definition strings_claim (l : list string) : any :=
  match l with [] => ANil | _ => AList (AStr <$> l) end.

Definition map_claims (p : Payload) : Keys := list_to_map [
  ("user_id", AFloat (p_UserID p)); ("project_id", AFloat (p_ProjectID p)); ("username", AStr (p_Username p));
  ("email", AStr (p_Email p)); ("is_admin", ABool (p_IsAdmin p)); ("roles", strings_claim (p_Roles p));
  ("permissions", strings_claim (p_Permissions p))].

Definition jwtParse (now : Z) (secret token : string) : option Keys :=
  map_claims <$> ParseWithClaims secret now token.

(** A route that needs a permission, reached with the access token that a user
    was issued. *)
Definition route (now : Z) (token resource action : string) : Rbac.outcome :=
  chain [AuthMiddleware (jwtParse now) apiKeyAuthenticator Secret;
         RequirePermission LegacyToNew resource action] (bearer token) ∅.

(** A permission of one of the user's roles grants the action. *)
Definition permits (uid : Z) (resource action : string) (db : DB) : Prop :=
  ∃ r p, r ∈ roles db ∧ (uid, r_ID r) ∈ user_roles db ∧ p ∈ permissions db ∧
    (r_ID r, pm_ID p) ∈ role_permissions db ∧ granting LegacyToNew resource action (permission_text p).

(** The permissions are texts in UTF-8. *)
Definition utf8_permissions (db : DB) : Prop :=
  ∀ p, p ∈ permissions db → json_text (permission_text p) = permission_text p.

Lemma claim_strings_strings l : claim_strings (strings_claim l) = l.
Proof.
  destruct l as [|s l]; [done|]. simpl. f_equal. induction l as [|t l IH]; [done|]. simpl. by rewrite IH.
Qed.

Lemma elem_of_user_permissions t db uid :
  t ∈ user_permissions db uid ↔
  ∃ r p, r ∈ roles db ∧ (uid, r_ID r) ∈ user_roles db ∧ p ∈ permissions db ∧
    (r_ID r, pm_ID p) ∈ role_permissions db ∧ t = permission_text p.
Proof.
  unfold user_permissions, roles_of, permissions_of. rewrite list_elem_of_bind.
  setoid_rewrite list_elem_of_filter. setoid_rewrite list_elem_of_fmap.
  setoid_rewrite list_elem_of_filter. naive_solver.
Qed.

Lemma permits_texts uid resource action db :
  utf8_permissions db →
  (∃ t, t ∈ json_text <$> user_permissions db uid ∧ granting LegacyToNew resource action t) ↔
  permits uid resource action db.
Proof.
  intros Hu. setoid_rewrite list_elem_of_fmap. setoid_rewrite elem_of_user_permissions. split.
  - intros (t & (t' & -> & r & p & Hr & Hur & Hp & Hrp & ->) & Hg). rewrite Hu in Hg by done.
    exists r, p. auto.
  - intros (r & p & Hr & Hur & Hp & Hrp & Hg). exists (permission_text p). split; [|done].
    exists (permission_text p). rewrite Hu by done. split; [done|]. exists r, p. auto.
Qed.

Lemma map_claims_lookup p :
  map_claims p !! "is_admin" = Some (ABool (p_IsAdmin p)) ∧
  map_claims p !! "permissions" = Some (strings_claim (p_Permissions p)).
Proof. unfold map_claims. simpl. split; by simplify_map_eq. Qed.

Lemma route_permits now now' u db resource action :
  resource ≠ "" → utf8_permissions db →
  now / second * second <= now' < (now + ExpiresIn) / second * second →
  passes (route now' (generateAccessToken Secret ExpiresIn now u db) resource action) = true ↔
  IsAdmin u = true ∨ permits (ID u) resource action db.
Proof.
  intros Hne Hu Hn. unfold route, chain. set (token := generateAccessToken _ _ _ _ _).
  assert (jwtParse now' Secret token
    = Some (map_claims (transmitted (access_payload ExpiresIn now u db)))) as Hp.
  { unfold jwtParse, token, generateAccessToken. rewrite ParseWithClaims_signed.
    unfold timely, access_payload, NumericDate. simpl.
    by rewrite (proj2 (Z.ltb_lt _ _)), (proj2 (Z.leb_le _ _)) by lia. }
  rewrite (AuthMiddleware_bearer _ _ Secret (bearer token) token _ _ eq_refl Hp).
  set (c := set_claims _ _).
  assert (passes (match RequirePermission LegacyToNew resource action (bearer token) c with
                  | Next c => Next c | Abort s d => Abort s d end)
    = passes (RequirePermission LegacyToNew resource action (bearer token) c)) as ->
    by (by destruct (RequirePermission _ _ _ _ _)).
  rewrite RequirePermission_passes by done. unfold is_admin, claim, c.
  rewrite !set_claims_lookup by set_solver. cbn [default]. unfold claim.
  destruct (map_claims_lookup (transmitted (access_payload ExpiresIn now u db))) as [-> ->]. cbn [default].
  unfold default, from_option, id. rewrite claim_strings_strings. cbn [p_Permissions transmitted access_payload p_IsAdmin].
  rewrite permits_texts by done. split; [|tauto]. intros [?|H]; [done|exact H].
Qed.

(** C7: A session opens exactly the routes that the roles of its user permit, and all
    of them for an administrator: from the name and the password to the handlers
    of the other services. *)
Theorem login_opens_routes {bcrypt : Bcrypt} {totp : TOTP} RefreshExpiresIn now written d req db r resource
    action now' :
  good_draw d db → utf8_permissions db → resource ≠ "" →
  (Login Secret ExpiresIn RefreshExpiresIn now written d req db).1 = Ok r → MFARequired r = false →
  now / second * second <= now' < (now + ExpiresIn) / second * second →
  ∃ u, authenticateUser (l_Username req) (l_Password req) db = Some u ∧
    (passes (route now' (AccessToken r) resource action) = true ↔
     IsAdmin u = true ∨ permits (ID u) resource action db).
Proof.
  intros Hd Hu Hne E Hm Hn.
  pose proof (Login_outcome Secret ExpiresIn RefreshExpiresIn now written d req db Hd) as H.
  rewrite E in H. destruct H as [_ (u & Ha & [[? _]|[_ (_ & _ & Ht)]])]; [congruence|].
  exists u. split; [done|]. rewrite Ht. by apply route_permits.
Qed.

(** The token that a user is issued after they were given a role opens the routes
    of all its permissions. *)
Theorem assigned_role_opens counted write param rid u uid db answer db' p now now' :
  ParseUint32 param = Some uid → find_user db uid = Some u →
  assignUserRoleHandler counted write param (Ok rid) db = ((200, answer), db') →
  p ∈ permissions_of db rid → pm_Resource p ≠ "" → utf8_permissions db →
  now / second * second <= now' < (now + ExpiresIn) / second * second →
  passes (route now' (generateAccessToken Secret ExpiresIn now u db') (pm_Resource p) (pm_Action p)) = true.
Proof.
  intros Hparam Hfind. unfold assignUserRoleHandler. rewrite Hparam, Hfind.
  destruct (find_role db rid) as [role|] eqn:Hr; [|done]. apply find_elem in Hr as [Hin Hid]. zbool.
  destruct (counted && _); [done|]. destruct (negb write || _); [done|]. intros [= _ <-] Hp Hne Hu Hn.
  apply route_permits; [done..|]. right. unfold permissions_of in Hp.
  rewrite list_elem_of_filter in Hp. destruct Hp as [Hrp Hp]. apply find_user_elem in Hfind as [_ <-].
  exists role, p. rewrite Hid. split_and!; [done| |done..|by left].
  simpl. apply elem_of_app. right. by left.
Qed.

(** Once a role is deleted, only other roles open routes. *)
Theorem deleted_role_closes perms pols assigned write param role db answer db' u resource action now now' :
  named_role param db = Ok role →
  deleteRoleHandler perms pols assigned write param db = ((200, answer), db') →
  resource ≠ "" → utf8_permissions db → now / second * second <= now' < (now + ExpiresIn) / second * second →
  passes (route now' (generateAccessToken Secret ExpiresIn now u db') resource action) = true ↔
  IsAdmin u = true ∨ ∃ r p, r ∈ roles db ∧ r_ID r ≠ r_ID role ∧ (ID u, r_ID r) ∈ user_roles db ∧
    p ∈ permissions db ∧ (r_ID r, pm_ID p) ∈ role_permissions db ∧
    granting LegacyToNew resource action (permission_text p).
Proof.
  intros Hr E Hne Hu Hn. unfold deleteRoleHandler in E. rewrite Hr in E.
  destruct (sysRoles _); [done|]. destruct (write && _); [|done]. injection E as _ <-.
  rewrite route_permits; [|done|by destruct perms, pols, assigned|done].
  apply or_iff_compat_l. unfold permits.
  assert (∀ r p, r_ID r ≠ r_ID role →
    ((r_ID r, pm_ID p) ∈ unjoined (r_ID role) (role_permissions db)
      ↔ (r_ID r, pm_ID p) ∈ role_permissions db) ∧
    ((ID u, r_ID r) ∈ filter (λ ur, ur.2 ≠ r_ID role) (user_roles db) ↔ (ID u, r_ID r) ∈ user_roles db)) as Hx.
  { intros r p Hd. unfold unjoined. rewrite !list_elem_of_filter. simpl. tauto. }
  split; intros (r & p & H).
  - destruct H as (Hin & Hur & Hp & Hrp & Hg). simpl in Hin. apply list_elem_of_filter in Hin as [Hd Hin].
    exists r, p. destruct (Hx r p Hd) as [H1 H2].
    destruct perms, pols, assigned; simpl in *; rewrite ?H1, ?H2 in *; auto 10.
  - destruct H as (Hin & Hd & Hur & Hp & Hrp & Hg). exists r, p. destruct (Hx r p Hd) as [H1 H2].
    destruct perms, pols, assigned; simpl; rewrite ?H1, ?H2, list_elem_of_filter; auto 10.
Qed.
End routes.

(** ** Examples *)

#[local] Existing Instance plain_jwt.
#[local] Existing Instance plain_bcrypt.
#[local] Existing Instance plain_totp.
#[local] Existing Instance ascii_only.

Lemma sample_utf8 : utf8_permissions sample.
Proof. intros p ->%list_elem_of_singleton. vm_compute. reflexivity. Qed.

Lemma login_opens_routes_witness :
  ∃ r, (Login "s" day day 5 true draw (mkLogin "alice" "pw" "123456") sample).1 = Ok r ∧
    passes (route "s" None 5 (AccessToken r) "instance" "list") = true ∧
    passes (route "s" None 5 (AccessToken r) "instance" "delete") = false.
Proof.
  destruct (Login "s" day day 5 true draw (mkLogin "alice" "pw" "123456") sample).1 as [r|] eqn:E;
    [|vm_compute in E; discriminate].
  exists r. split; [done|].
  assert (∀ action, ∃ u, authenticateUser "alice" "pw" sample = Some u ∧
    (passes (route "s" None 5 (AccessToken r) "instance" action) = true ↔
     IsAdmin u = true ∨ permits (ID u) "instance" action sample)) as H.
  { intros action. apply (login_opens_routes "s" day None day 5 true draw (mkLogin "alice" "pw" "123456") sample
      r "instance" action 5 draw_good sample_utf8); [done|exact E| |vm_compute; split; [discriminate|reflexivity]].
    vm_compute in E. injection E as <-. reflexivity. }
  split.
  - destruct (H "list") as (u & Hu & Hp). vm_compute in Hu. injection Hu as <-. apply Hp. right.
    exists (mkRole 1 "ops" ""), (mkPermission 1 "instance:list" "instance" "list" "").
    split_and!; try (by left).
  - destruct (H "delete") as (u & Hu & Hp). vm_compute in Hu. injection Hu as <-.
    apply not_true_iff_false. rewrite Hp. intros [?|(r' & p & Hr & _ & Hin & _ & Hg)]; [done|].
    apply list_elem_of_singleton in Hin as ->. destruct Hg as [Hg|[Hg|[Hg|[[_ Hg]|[Hg _]]]]];
      [discriminate Hg..| |discriminate Hg]. vm_compute in Hg. discriminate Hg.
Defined.

Lemma assigned_role_opens_witness :
  passes (route "s" None 5 (generateAccessToken "s" day 5 bob
    (assignUserRoleHandler true true "2" (Ok 1) sample).2) "instance" "list") = true.
Proof.
  eapply (assigned_role_opens "s" day None true true "2" 1 bob 2 sample _ _
    (mkPermission 1 "instance:list" "instance" "list" "") 5 5);
    [reflexivity|reflexivity|vm_compute; reflexivity|by left|done|exact sample_utf8|].
  vm_compute. split; [discriminate|reflexivity].
Defined.

Lemma deleted_role_closes_witness :
  passes (route "s" None 5 (generateAccessToken "s" day 5 alice
    (deleteRoleHandler true true true true "1" sample).2) "instance" "list") = false.
Proof.
  apply not_true_iff_false. intros H.
  apply (deleted_role_closes "s" day None true true true true "1" (mkRole 1 "ops" "") sample _ _ alice "instance"
    "list" 5 5 eq_refl eq_refl ltac:(done) sample_utf8) in H; [|vm_compute; split; [discriminate|reflexivity]].
  destruct H as [?|(r & p & Hr & Hne & _)]; [done|]. apply list_elem_of_singleton in Hr as ->. by apply Hne.
Defined.
