(* ===== verification/Groups.v ===== *)
(** * Groups and permission boundaries

    internal/management/identity/groups.go: groups of users with roles and
    policies, permission boundaries, and their handlers; and the policies of users
    (handler_profile.go). Together with the tables of Sessions they are the
    database that Identity.v reads through its interface, which is instantiated
    here. The theorems say that the rows of the system are kept, what the effective
    permissions of a member of a group are, and that neither groups nor boundaries
    count for tokens and authorization. *)
From Stdlib Require Import Ascii.
From S2P Require Import Prelude GoStrings Utf8 NetIP Vrn Policy Identity Actions Throttle Rbac Http Tables Sessions Grants.
Local Open Scope Z_scope.

(** ** Tables *)

Record Group := mkGroup { g_ID : Z; g_Name : string; g_Description : string; g_Path : string }.

Record PermissionBoundary := mkBoundary {
  b_ID : Z; EntityType : string; EntityID : Z; PolicyID : Z
}.

(** The database of the identity service; in a pair the group or the user comes
    first. *)
Record IAM := mkIAM {
  auth : DB;
  user_policies : list (Z * Z);
  groups : list Group;
  group_users : list (Z * Z);
  group_roles : list (Z * Z);
  group_policies : list (Z * Z);
  boundaries : list PermissionBoundary
}.

Definition set_auth (f : DB → DB) (s : IAM) : IAM :=
  mkIAM (f (auth s)) (user_policies s) (groups s) (group_users s) (group_roles s) (group_policies s)
    (boundaries s).
Definition set_user_policies (f : list (Z * Z) → list (Z * Z)) (s : IAM) : IAM :=
  mkIAM (auth s) (f (user_policies s)) (groups s) (group_users s) (group_roles s) (group_policies s)
    (boundaries s).
Definition set_groups (f : list Group → list Group) (s : IAM) : IAM :=
  mkIAM (auth s) (user_policies s) (f (groups s)) (group_users s) (group_roles s) (group_policies s)
    (boundaries s).
Definition set_group_users (f : list (Z * Z) → list (Z * Z)) (s : IAM) : IAM :=
  mkIAM (auth s) (user_policies s) (groups s) (f (group_users s)) (group_roles s) (group_policies s)
    (boundaries s).
Definition set_group_roles (f : list (Z * Z) → list (Z * Z)) (s : IAM) : IAM :=
  mkIAM (auth s) (user_policies s) (groups s) (group_users s) (f (group_roles s)) (group_policies s)
    (boundaries s).
Definition set_group_policies (f : list (Z * Z) → list (Z * Z)) (s : IAM) : IAM :=
  mkIAM (auth s) (user_policies s) (groups s) (group_users s) (group_roles s) (f (group_policies s))
    (boundaries s).
Definition set_boundaries (f : list PermissionBoundary → list PermissionBoundary) (s : IAM) : IAM :=
  mkIAM (auth s) (user_policies s) (groups s) (group_users s) (group_roles s) (group_policies s)
    (f (boundaries s)).

Definition find_group (s : IAM) (id : Z) : option Group := List.find (λ g, g_ID g =? id) (groups s).
Definition find_policy (s : IAM) (id : Z) : option PolicyRow :=
  List.find (λ p, po_ID p =? id) (policies (auth s)).

(** [gorm.ErrRecordNotFound]. *)
Definition not_found : string := "record not found".
Definition duplicate : string := "duplicate key".

(** ** Groups *)

Record CreateGroupRequest := mkGroupRequest { gr_Name : string; gr_Description : string; gr_Path : string }.

(** The name of a group is unique. [create] and [write] are the error of the
    database, if it has one. *)
Definition CreateGroup (id : Z) (create : option string) (req : CreateGroupRequest) (s : IAM)
    : result string Group * IAM :=
  let g := mkGroup id (gr_Name req) (gr_Description req) (nonempty (gr_Path req) "/") in
  match create with
  | Some e => (Err ("create group: " +:+ e), s)
  | None =>
      if existsb (λ h, (g_ID h =? id) || bool_decide (g_Name h = g_Name g)) (groups s)
      then (Err ("create group: " +:+ duplicate), s)
      else (Ok g, set_groups (λ l, l ++ [g]) s)
  end.

Definition UpdateGroup (write : option string) (id : Z) (req : CreateGroupRequest) (s : IAM)
    : result string Group * IAM :=
  match find_group s id with
  | None => (Err not_found, s)
  | Some g =>
      let g := mkGroup id (nonempty (gr_Name req) (g_Name g)) (nonempty (gr_Description req) (g_Description g))
        (nonempty (gr_Path req) (g_Path g)) in
      match write with
      | Some e => (Err e, s)
      | None =>
          if existsb (λ h, negb (g_ID h =? id) && bool_decide (g_Name h = g_Name g)) (groups s)
          then (Err duplicate, s)
          else (Ok g, set_groups (fmap (λ h, if g_ID h =? id then g else h)) s)
      end
  end.

(** The errors of the three deletions that come first are dropped; the database
    keeps a group that a pair refers to. *)
Definition DeleteGroup (us rs ps : bool) (write : option string) (id : Z) (s : IAM) : option string * IAM :=
  match find_group s id with
  | None => (Some not_found, s)
  | Some _ =>
      let s := if us then set_group_users (unjoined id) s else s in
      let s := if rs then set_group_roles (unjoined id) s else s in
      let s := if ps then set_group_policies (unjoined id) s else s in
      match write with
      | Some e => (Some e, s)
      | None =>
          if existsb (λ x, x.1 =? id) (group_users s ++ group_roles s ++ group_policies s)
          then (Some "foreign key", s)
          else (None, set_groups (filter (λ g, g_ID g ≠ id)) s)
      end
  end.

(** [Association(...).Append] adds a pair once, [Association(...).Delete] removes
    it. *)
Definition appended (x : Z * Z) (l : list (Z * Z)) : list (Z * Z) :=
  if decide (x ∈ l) then l else l ++ [x].

Definition removed (x : Z * Z) (l : list (Z * Z)) : list (Z * Z) := filter (λ y, y ≠ x) l.

(** The six operations on the members of a group: both rows have to exist. *)
Definition on_pair (write : option string) (gid : Z) (found : bool)
    (f : IAM → IAM) (s : IAM) : option string * IAM :=
  match find_group s gid with
  | None => (Some not_found, s)
  | Some _ =>
      if negb found then (Some not_found, s)
      else match write with Some e => (Some e, s) | None => (None, f s) end
  end.

Definition AddUserToGroup (write : option string) (gid uid : Z) (s : IAM) : option string * IAM :=
  on_pair write gid (bool_decide (find_user (auth s) uid ≠ None)) (set_group_users (appended (gid, uid))) s.

Definition RemoveUserFromGroup (write : option string) (gid uid : Z) (s : IAM) : option string * IAM :=
  on_pair write gid (bool_decide (find_user (auth s) uid ≠ None)) (set_group_users (removed (gid, uid))) s.

Definition AttachRoleToGroup (write : option string) (gid rid : Z) (s : IAM) : option string * IAM :=
  on_pair write gid (bool_decide (find_role (auth s) rid ≠ None)) (set_group_roles (appended (gid, rid))) s.

Definition DetachRoleFromGroup (write : option string) (gid rid : Z) (s : IAM) : option string * IAM :=
  on_pair write gid (bool_decide (find_role (auth s) rid ≠ None)) (set_group_roles (removed (gid, rid))) s.

Definition AttachPolicyToGroup (write : option string) (gid pid : Z) (s : IAM) : option string * IAM :=
  on_pair write gid (bool_decide (find_policy s pid ≠ None)) (set_group_policies (appended (gid, pid))) s.

Definition DetachPolicyFromGroup (write : option string) (gid pid : Z) (s : IAM) : option string * IAM :=
  on_pair write gid (bool_decide (find_policy s pid ≠ None)) (set_group_policies (removed (gid, pid))) s.

(** ** Permission boundaries *)

(** The error of the deletion is dropped. *)
Definition SetPermissionBoundary (id : Z) (deleted : bool) (create : option string) (entityType : string)
    (entityID policyID : Z) (s : IAM) : result string PermissionBoundary * IAM :=
  match find_policy s policyID with
  | None => (Err ("policy not found: " +:+ not_found), s)
  | Some _ =>
      let s := if deleted
               then set_boundaries (filter (λ b, ¬ (EntityType b = entityType ∧ EntityID b = entityID))) s
               else s in
      let b := mkBoundary id entityType entityID policyID in
      match create with
      | Some e => (Err e, s)
      | None =>
          if existsb (λ b, b_ID b =? id) (boundaries s) then (Err duplicate, s)
          else (Ok b, set_boundaries (λ l, l ++ [b]) s)
      end
  end.

Definition find_boundary (entityType : string) (entityID : Z) (s : IAM) : option PermissionBoundary :=
  List.find (λ b, bool_decide (EntityType b = entityType) && (EntityID b =? entityID)) (boundaries s).

Definition DeletePermissionBoundary (write : option string) (entityType : string) (entityID : Z) (s : IAM)
    : option string * IAM :=
  match write with
  | Some e => (Some e, s)
  | None => (None, set_boundaries (filter (λ b, ¬ (EntityType b = entityType ∧ EntityID b = entityID))) s)
  end.

(** ** The queries of the service *)

(** A row of [Role] with what is loaded with it. *)
Definition loaded_role (s : IAM) (r : Role) : Identity.Role :=
  Identity.mkRole (r_ID r) (pm_Name <$> permissions_of (auth s) (r_ID r))
    (po_Policy <$> policies_of (auth s) (r_ID r)).

(** The policies, and the roles, that a join table attaches to a row. *)
Definition attached_policies (joins : list (Z * Z)) (id : Z) (s : IAM) : list Policy :=
  po_Policy <$> filter (λ p, (id, po_ID p) ∈ joins) (policies (auth s)).

Definition attached_roles (joins : list (Z * Z)) (id : Z) (s : IAM) : list Identity.Role :=
  loaded_role s <$> filter (λ r, (id, r_ID r) ∈ joins) (roles (auth s)).

Definition loaded_user (s : IAM) (u : User) : Identity.User :=
  Identity.mkUser (IsAdmin u) (loaded_role s <$> roles_of (auth s) (ID u))
    (attached_policies (user_policies s) (ID u) s).

Definition loaded_group (s : IAM) (g : Group) : Identity.Group :=
  Identity.mkGroup (attached_roles (group_roles s) (g_ID g) s)
    (attached_policies (group_policies s) (g_ID g) s).

Definition no_policy : PolicyRow := mkPolicyRow 0 (mkPolicy "" None) "" "".

Definition GetPermissionBoundary (entityType : string) (entityID : Z) (s : IAM)
    : option (PermissionBoundary * PolicyRow) :=
  b ← find_boundary entityType entityID s; Some (b, default no_policy (find_policy s (PolicyID b))).

(** [First]: a row or the error that there is none. *)
Definition row {A B} (f : A → B) (x : option A) : result string B :=
  match x with Some a => Ok (f a) | None => Err not_found end.

(** The interface of Identity.v over the tables; the service accounts have tables
    of their own. *)
Definition ListUserGroups (uid : Z) (s : IAM) : list Group :=
  filter (λ g, (g_ID g, uid) ∈ group_users s) (groups s).

Definition tables (accounts : Z → result string ServiceAccount) (s : IAM) : IdentityStore := {|
  First_user uid := row (loaded_user s) (find_user (auth s) uid);
  First_group gid := row (loaded_group s) (find_group s gid);
  First_service_account := accounts;
  First_role rid := row (loaded_role s) (find_role (auth s) rid);
  Identity.ListUserGroups uid := Ok (loaded_group s <$> ListUserGroups uid s);
  Identity.GetPermissionBoundary entityType entityID := row (po_Policy ∘ snd) (GetPermissionBoundary entityType entityID s)
|}.

(** ** Handlers *)

Definition omitempty {A} (k : string) (f : A → json) (l : list A) : list (string * json) :=
  match l with [] => [] | _ => [(k, JList (f <$> l))] end.

(** A group; [s] is the database where it is loaded with its members. *)
Definition group_json (loaded : option IAM) (g : Group) : json :=
  JObj ([("id", JNum (g_ID g)); ("name", JStr (g_Name g)); ("description", JStr (g_Description g));
         ("path", JStr (g_Path g))]
    ++ match loaded with
       | None => []
       | Some s =>
           omitempty "users" (user_json JNull) (filter (λ u, (g_ID g, ID u) ∈ group_users s) (users (auth s)))
           ++ omitempty "roles" (role_json JNull)
                (filter (λ r, (g_ID g, r_ID r) ∈ group_roles s) (roles (auth s)))
           ++ omitempty "policies" policy_json
                (filter (λ p, (g_ID g, po_ID p) ∈ group_policies s) (policies (auth s)))
       end).

Definition createGroupHandler (id : Z) (create : option string) (req : result string CreateGroupRequest)
    (s : IAM) : response * IAM :=
  match req with
  | Err e => (error 400 ("invalid request: " +:+ e), s)
  | Ok req =>
      match CreateGroup id create req s with
      | (Err e, s) => (error 500 e, s)
      | (Ok g, s) => ((201, group_json None g), s)
      end
  end.

Definition listGroupsHandler (err : option string) (s : IAM) : response :=
  match err with
  | Some e => error 500 e
  | None => (200, JObj [("groups", JList (group_json (Some s) <$> groups s))])
  end.

Definition getGroupHandler (param : string) (s : IAM) : response :=
  match ParseUint32 param with
  | None => error 400 "invalid group ID"
  | Some id =>
      match find_group s id with
      | None => error 404 "group not found"
      | Some g => (200, group_json (Some s) g)
      end
  end.

Definition updateGroupHandler (write : option string) (param : string) (req : result string CreateGroupRequest)
    (s : IAM) : response * IAM :=
  match ParseUint32 param with
  | None => (error 400 "invalid group ID", s)
  | Some id =>
      match req with
      | Err _ => (error 400 "invalid request", s)
      | Ok req =>
          match UpdateGroup write id req s with
          | (Err e, s) => (error 500 e, s)
          | (Ok g, s) => ((200, group_json None g), s)
          end
      end
  end.

(** The answer of an operation that returns an error or nothing. *)
Definition answer (ok : string) (r : option string * IAM) : response * IAM :=
  match r with
  | (Some e, s) => (error 500 e, s)
  | (None, s) => (message 200 ok, s)
  end.

Definition deleteGroupHandler (us rs ps : bool) (write : option string) (param : string) (s : IAM)
    : response * IAM :=
  match ParseUint32 param with
  | None => (error 400 "invalid group ID", s)
  | Some id => answer "group deleted" (DeleteGroup us rs ps write id s)
  end.

Definition addUserToGroupHandler (write : option string) (gid uid : string) (s : IAM) : response * IAM :=
  answer "user added to group" (AddUserToGroup write (uint_param gid) (uint_param uid) s).
Definition removeUserFromGroupHandler (write : option string) (gid uid : string) (s : IAM) : response * IAM :=
  answer "user removed from group" (RemoveUserFromGroup write (uint_param gid) (uint_param uid) s).
Definition attachGroupRoleHandler (write : option string) (gid rid : string) (s : IAM) : response * IAM :=
  answer "role attached to group" (AttachRoleToGroup write (uint_param gid) (uint_param rid) s).
Definition detachGroupRoleHandler (write : option string) (gid rid : string) (s : IAM) : response * IAM :=
  answer "role detached from group" (DetachRoleFromGroup write (uint_param gid) (uint_param rid) s).
Definition attachGroupPolicyHandler (write : option string) (gid pid : string) (s : IAM) : response * IAM :=
  answer "policy attached to group" (AttachPolicyToGroup write (uint_param gid) (uint_param pid) s).
Definition detachGroupPolicyHandler (write : option string) (gid pid : string) (s : IAM) : response * IAM :=
  answer "policy detached from group" (DetachPolicyFromGroup write (uint_param gid) (uint_param pid) s).

(** A boundary; its policy is there where it was loaded. *)
Definition boundary_json (p : PolicyRow) (b : PermissionBoundary) : json :=
  JObj [("id", JNum (b_ID b)); ("entity_type", JStr (EntityType b)); ("entity_id", JNum (EntityID b));
        ("policy_id", JNum (PolicyID b)); ("policy", policy_json p)].

Definition setPermissionBoundaryHandler (id : Z) (deleted : bool) (create : option string)
    (entityType param : string) (req : result string Z) (s : IAM) : response * IAM :=
  match ParseUint32 param with
  | None => (error 400 "invalid entity ID", s)
  | Some entityID =>
      match req with
      | Err _ => (error 400 "invalid request", s)
      | Ok policyID =>
          match SetPermissionBoundary id deleted create entityType entityID policyID s with
          | (Err e, s) => (error 500 e, s)
          | (Ok b, s) => ((200, boundary_json no_policy b), s)
          end
      end
  end.

Definition getPermissionBoundaryHandler (entityType param : string) (s : IAM) : response :=
  match ParseUint32 param with
  | None => error 400 "invalid entity ID"
  | Some entityID =>
      match GetPermissionBoundary entityType entityID s with
      | None => error 404 "no permission boundary set"
      | Some (b, p) => (200, boundary_json p b)
      end
  end.

Definition deletePermissionBoundaryHandler (write : option string) (entityType param : string) (s : IAM)
    : response * IAM :=
  match ParseUint32 param with
  | None => (error 400 "invalid entity ID", s)
  | Some entityID => answer "permission boundary removed" (DeletePermissionBoundary write entityType entityID s)
  end.

Section service.
Context {unicode : UnicodeTables} {jwt : JWT} {bcrypt : Bcrypt} {totp : TOTP} {pg : Postgres}.
Variable accounts : Z → result string ServiceAccount.

(** A boundary that leaves nothing makes a list that is [nil]. *)
Definition effectivePermissionsHandler (param : string) (s : IAM) : response :=
  match ParseUint32 param with
  | None => error 400 "invalid user ID"
  | Some id =>
      match EffectivePermissions (store := tables accounts s) id with
      | Err e => error 500 e
      | Ok (perms, pols) =>
          let bounded := GetPermissionBoundary "user" id s ≫= (λ b, Document (po_Policy b.2)) in
          (200, JObj [("user_id", JNum id);
            ("permissions", match perms, bounded with [], Some _ => JNull | _, _ => JList (JStr <$> perms) end);
            ("policies", JList ((λ p, JStr (p_Name p)) <$> pols))])
      end
  end.

(** The parameters of the attachment are texts; both rows have to exist, and a
    pair is there once. *)
Definition attachUserPolicyHandler (write : bool) (userID policyID : string) (s : IAM) : response * IAM :=
  let failed := (error 500 "failed to attach policy", s) in
  match text_int8 userID, text_int8 policyID with
  | Some uid, Some pid =>
      if write && bool_decide (find_user (auth s) uid ≠ None) && bool_decide (find_policy s pid ≠ None)
         && bool_decide ((uid, pid) ∉ user_policies s)
      then ((200, JObj [("ok", JBool true)]), set_user_policies (λ l, l ++ [(uid, pid)]) s)
      else failed
  | _, _ => failed
  end.

Definition detachUserPolicyHandler (write : bool) (userID policyID : string) (s : IAM) : response * IAM :=
  let failed := (error 500 "failed to detach policy", s) in
  match text_int8 userID, text_int8 policyID with
  | Some uid, Some pid =>
      if write then ((200, JObj [("ok", JBool true)]), set_user_policies (removed (uid, pid)) s) else failed
  | _, _ => failed
  end.

(** The tables that refer to a policy. *)
Definition policy_referenced (s : IAM) (pid : Z) : bool :=
  existsb (λ x, x.2 =? pid) (user_policies s ++ group_policies s)
  || existsb (λ b, PolicyID b =? pid) (boundaries s).

(** ** Histories *)

Variable Secret : string.
Variable ExpiresIn RefreshExpiresIn : Z.

(** The calls that change the database: the handlers of roles, permissions,
    policies, groups and boundaries, and the calls of Sessions. *)
Inductive hcall :=
| ICreateRole (id : Z) (counted found create : bool) (req : result string RoleRequest)
| IUpdateRole (write found replaced : bool) (param : string) (req : result string RoleRequest)
| IDeleteRole (perms pols assigned write : bool) (param : string)
| ICreatePermission (id : Z) (create : bool) (req : result string PermissionRequest)
| IUpdatePermission (write : bool) (param : string) (req : result string string)
| IDeletePermission (cleared write : bool) (param : string)
| IAssignRole (counted write : bool) (param : string) (req : result string Z)
| IUnassignRole (write : bool) (userID roleID : string)
| ICreatePolicy (id : Z) (create : bool) (req : result string PolicyRequest)
| IUpdatePolicy (write : bool) (id : string) (req : result string (string * option (list (string * Json.json))))
| IDeletePolicy (write : bool) (id : string)
| IAttachPolicy (write : bool) (userID policyID : string)
| IDetachPolicy (write : bool) (userID policyID : string)
| IGroup (o : gcall)
with gcall :=
| GCreate (id : Z) (create : option string) (req : result string CreateGroupRequest)
| GUpdate (write : option string) (param : string) (req : result string CreateGroupRequest)
| GDelete (us rs ps : bool) (write : option string) (param : string)
| GAddUser (write : option string) (gid uid : string)
| GRemoveUser (write : option string) (gid uid : string)
| GAttachRole (write : option string) (gid rid : string)
| GDetachRole (write : option string) (gid rid : string)
| GAttachPolicy (write : option string) (gid pid : string)
| GDetachPolicy (write : option string) (gid pid : string)
| GSetBoundary (id : Z) (deleted : bool) (create : option string) (entityType param : string)
    (req : result string Z)
| GDeleteBoundary (write : option string) (entityType param : string).

Inductive icall := ISession (o : call) | IHandle (h : hcall).

Definition answer_group (s : IAM) (o : gcall) : response * IAM :=
  match o with
  | GCreate id create req => createGroupHandler id create req s
  | GUpdate write param req => updateGroupHandler write param req s
  | GDelete us rs ps write param => deleteGroupHandler us rs ps write param s
  | GAddUser write gid uid => addUserToGroupHandler write gid uid s
  | GRemoveUser write gid uid => removeUserFromGroupHandler write gid uid s
  | GAttachRole write gid rid => attachGroupRoleHandler write gid rid s
  | GDetachRole write gid rid => detachGroupRoleHandler write gid rid s
  | GAttachPolicy write gid pid => attachGroupPolicyHandler write gid pid s
  | GDetachPolicy write gid pid => detachGroupPolicyHandler write gid pid s
  | GSetBoundary id deleted create entityType param req =>
      setPermissionBoundaryHandler id deleted create entityType param req s
  | GDeleteBoundary write entityType param => deletePermissionBoundaryHandler write entityType param s
  end.

(** A handler of Grants, on its part of the database. *)
Definition on_auth (f : DB → response * DB) (s : IAM) : response * IAM :=
  ((f (auth s)).1, set_auth (λ _, (f (auth s)).2) s).

Definition hanswer (s : IAM) (h : hcall) : response * IAM :=
  match h with
  | ICreateRole id counted found create req => on_auth (createRoleHandler id counted found create req) s
  | IUpdateRole write found replaced param req => on_auth (updateRoleHandler write found replaced param req) s
  | IDeleteRole perms pols assigned write param => on_auth (deleteRoleHandler perms pols assigned write param) s
  | ICreatePermission id create req => on_auth (createPermissionHandler id create req) s
  | IUpdatePermission write param req => on_auth (updatePermissionHandler write param req) s
  | IDeletePermission cleared write param => on_auth (deletePermissionHandler cleared write param) s
  | IAssignRole counted write param req => on_auth (assignUserRoleHandler counted write param req) s
  | IUnassignRole write userID roleID => on_auth (unassignUserRoleHandler write userID roleID) s
  | ICreatePolicy id create req => on_auth (createPolicyHandler id create req) s
  | IUpdatePolicy write id req => on_auth (updatePolicyHandler write id req) s
  | IDeletePolicy write id => on_auth (deletePolicyHandler write (policy_referenced s) id) s
  | IAttachPolicy write userID policyID => attachUserPolicyHandler write userID policyID s
  | IDetachPolicy write userID policyID => detachUserPolicyHandler write userID policyID s
  | IGroup o => answer_group s o
  end.

Definition iperform (s : IAM) (o : icall) : IAM :=
  match o with
  | ISession (CGrants _ _ _ _ _ _ _ _) => s
  | ISession o => set_auth (λ db, perform Secret ExpiresIn RefreshExpiresIn db o) s
  | IHandle h => (hanswer s h).2
  end.

Definition ihistory (s : IAM) (os : list icall) : IAM := foldl iperform s os.

(** *** How tables change *)

Definition grants (db : DB) :=
  (roles db, permissions db, policies db, user_roles db, role_permissions db, role_policies db).

Lemma generateRefreshToken_grants now d u db :
  grants (generateRefreshToken RefreshExpiresIn now d u db).2 = grants db.
Proof. unfold generateRefreshToken. repeat case_match; simplify_eq; done. Qed.

Lemma second_factor_grants now written u code db :
  grants (second_factor now written u code db).2 = grants db.
Proof. unfold second_factor, validateRecoveryCode. repeat case_match; simplify_eq; done. Qed.

Lemma issue_grants now d u db : grants (issue Secret ExpiresIn RefreshExpiresIn now d u db).2 = grants db.
Proof.
  unfold issue. pose proof (generateRefreshToken_grants now d u db) as H.
  by destruct (generateRefreshToken _ _ _ _ _) as [[] ?].
Qed.

Lemma perform_grants db o :
  (∀ rs ps pols ur rp rpol prj trust, o ≠ CGrants rs ps pols ur rp rpol prj trust) →
  grants (perform Secret ExpiresIn RefreshExpiresIn db o) = grants db.
Proof.
  intros Hg. destruct o; unfold perform;
    try (unfold logoutHandler, Logout, mfaSetupHandler, mfaVerifyHandler, mfaDisableHandler,
      mfaRegenerateCodesHandler, createUserHandler, updateUserHandler, deleteUserHandler,
      updateUserStatusHandler, resetUserPasswordHandler, updateProfileHandler, changePasswordHandler,
      assumeRoleHandler, generateSTSCredentials, CleanupExpiredSessions; repeat case_match; simplify_eq; done).
  - destruct req as [req|]; [|done]. rewrite loginHandler_db. unfold Login.
    destruct (check _ _ _) as [[[] remaining] lt]; [done|]. destruct (authenticateUser _ _ _) as [u|]; [|done].
    set (db1 := set_throttle _ _). destruct (MFAEnabled u); [|apply (issue_grants now d u db1)].
    case_decide; [done|]. pose proof (second_factor_grants now written u (l_TOTPCode req) db1) as H2.
    destruct (second_factor _ _ _ _ _) as [[] db2]; [|exact H2]. rewrite issue_grants. exact H2.
  - unfold mfaChallengeHandler. destruct req as [[token code]|]; [|done].
    destruct (validateMFAToken _ _) as [uid|]; [|done]. destruct (find_user db uid) as [u|]; [|done].
    pose proof (second_factor_grants now written u code db) as H2.
    destruct (second_factor _ _ _ _ _) as [[] db2]; [|exact H2].
    pose proof (generateRefreshToken_grants now d u db2) as H3.
    destruct (generateRefreshToken _ _ _ _ _) as [[] ?]; (etrans; [exact H3|exact H2]).
  - by destruct (Hg rs ps pols ur rp rpol prj trust).
Qed.

(** The table of roles grows by a role, loses one that is not of the system, or a
    role is changed, one of the system keeping its name; ids stay unique. *)
Inductive roles_move (l : list Role) : list Role → Prop :=
| roles_same : roles_move l l
| roles_new r : r_ID r ∉ r_ID <$> l → roles_move l (l ++ [r])
| roles_changed r r' :
    r ∈ l → r_ID r' = r_ID r → (sysRoles (r_Name r) = true → r_Name r' = r_Name r) →
    roles_move l (on_row r_ID (r_ID r) (λ _, r') l)
| roles_less r : r ∈ l → sysRoles (r_Name r) = false → roles_move l (without_row r_ID (r_ID r) l).

(** Policies in the same way; one of the system never changes. *)
Inductive policies_move (l : list PolicyRow) : list PolicyRow → Prop :=
| policies_same : policies_move l l
| policies_new p : po_ID p ∉ po_ID <$> l → policies_move l (l ++ [p])
| policies_changed p p' :
    p ∈ l → po_ID p' = po_ID p → po_Type p ≠ "system" →
    policies_move l (on_row po_ID (po_ID p) (λ _, p') l)
| policies_less p : p ∈ l → po_Type p ≠ "system" → policies_move l (without_row po_ID (po_ID p) l).

Lemma named_role_elem param db r : named_role param db = Ok r → r ∈ roles db.
Proof.
  unfold named_role. destruct (ParseUint32 _); [|done]. destruct (find_role _ _) eqn:E; [|done].
  intros [= ->]. by apply find_elem in E as [? _].
Qed.

Lemma First_policy_elem id db p : First_policy id db = Some p → p ∈ policies db.
Proof.
  unfold First_policy. destruct (Atoi id); [by intros [? _]%find_elem|].
  case_decide; [by intros ?%head_Some_elem_of|].
  destruct (condition id); [|done]. by intros [? _]%find_elem.
Qed.

Lemma createRole_moves id counted found create req db :
  let db' := (createRoleHandler id counted found create req db).2 in
  roles_move (roles db) (roles db') ∧ policies db' = policies db.
Proof.
  unfold createRoleHandler. destruct req as [req|]; [|by split; [constructor|]].
  destruct (counted && _); [by split; [constructor|]|].
  destruct (bool_decide _ && _); [by split; [constructor|]|].
  destruct (negb create || _) eqn:E; [by split; [constructor|]|]. split; [|done]. simpl.
  apply orb_false_iff in E as [_ E]. constructor. by apply (has_row_false r_ID).
Qed.

Lemma updateRole_moves write found replaced param req db :
  let db' := (updateRoleHandler write found replaced param req db).2 in
  roles_move (roles db) (roles db') ∧ policies db' = policies db.
Proof.
  unfold updateRoleHandler. destruct (named_role param db) as [r|] eqn:Er; [|by split; [constructor|]].
  destruct req as [req|]; [|by split; [constructor|]].
  destruct ((_ && _) && _) eqn:E; [by split; [constructor|]|].
  destruct (negb write); [by split; [constructor|]|]. simpl. set (role := mkRole _ _ _).
  assert (roles_move (roles db) ((λ x, if r_ID x =? r_ID role then role else x) <$> roles db)) as Hm.
  { apply (roles_changed _ r role); [by apply named_role_elem in Er|done|]. intros Hs. rewrite Hs, andb_true_r in E.
    simpl. unfold nonempty. case_decide as Hn; [done|].
    apply andb_false_iff in E as [E|E]; zbool; [done|]. by apply dec_stable. }
  split; repeat case_match; exact Hm || done.
Qed.

Lemma deleteRole_moves perms pols assigned write param db :
  let db' := (deleteRoleHandler perms pols assigned write param db).2 in
  roles_move (roles db) (roles db') ∧ policies db' = policies db.
Proof.
  unfold deleteRoleHandler. destruct (named_role param db) as [r|] eqn:Er; [|by split; [constructor|]].
  destruct (sysRoles _) eqn:Es; [by split; [constructor|]|]. apply named_role_elem in Er.
  destruct (write && _); (split; [|by destruct perms, pols, assigned]);
    destruct perms, pols, assigned; simpl; by constructor.
Qed.

Lemma policies_moves db :
  (∀ id create req, policies_move (policies db) (policies (createPolicyHandler id create req db).2)) ∧
  (∀ write id req, policies_move (policies db) (policies (updatePolicyHandler write id req db).2)) ∧
  (∀ write f id, policies_move (policies db) (policies (deletePolicyHandler write f id db).2)).
Proof.
  split_and!.
  - intros id create req. unfold createPolicyHandler. destruct req as [req|]; [|constructor].
    destruct (negb create || _) eqn:E; [constructor|]. apply orb_false_iff in E as [_ E]. constructor. simpl.
    apply (has_row_false po_ID). apply not_true_iff_false. apply not_true_iff_false in E. contradict E.
    apply existsb_exists in E as (x & Hx & E). apply existsb_exists. exists x. split; [done|]. by rewrite E.
  - intros write id req. unfold updatePolicyHandler. destruct (First_policy id db) as [p|] eqn:Ep; [|constructor].
    case_decide as Ht; [constructor|]. destruct req as [[description document]|]; [|constructor].
    destruct write; [|constructor]. apply First_policy_elem in Ep. simpl. by apply policies_changed.
  - intros write f id. unfold deletePolicyHandler. destruct (First_policy id db) as [p|] eqn:Ep; [|constructor].
    case_decide as Ht; [constructor|]. apply First_policy_elem in Ep. destruct (_ && _); [|constructor].
    by apply policies_less.
Qed.

Lemma on_pair_auth write gid found f s :
  (auth (f s) = auth s ∧ user_policies (f s) = user_policies s) →
  auth (on_pair write gid found f s).2 = auth s ∧
  user_policies (on_pair write gid found f s).2 = user_policies s.
Proof. intros H. unfold on_pair. repeat case_match; done. Qed.

Lemma answer_auth text r : auth (answer text r).2 = auth r.2 ∧ user_policies (answer text r).2 = user_policies r.2.
Proof. by destruct r as [[] ?]. Qed.

(** Groups and boundaries are in tables of their own. *)
Lemma answer_group_auth s o :
  auth (answer_group s o).2 = auth s ∧ user_policies (answer_group s o).2 = user_policies s.
Proof.
  destruct o; unfold answer_group;
    try (edestruct answer_auth as [E1 E2]; unfold addUserToGroupHandler, removeUserFromGroupHandler,
      attachGroupRoleHandler, detachGroupRoleHandler, attachGroupPolicyHandler, detachGroupPolicyHandler;
      rewrite E1, E2; by apply on_pair_auth).
  - unfold createGroupHandler, CreateGroup. repeat case_match; simplify_eq; done.
  - unfold updateGroupHandler, UpdateGroup. repeat case_match; simplify_eq; done.
  - unfold deleteGroupHandler. destruct (ParseUint32 param) as [id|]; [|done].
    destruct (answer_auth "group deleted" (DeleteGroup us rs ps write id s)) as [-> ->].
    unfold DeleteGroup. destruct (find_group s id); [|done].
    destruct write, us, rs, ps; simpl; repeat case_match; done.
  - unfold setPermissionBoundaryHandler, SetPermissionBoundary.
    destruct deleted; repeat case_match; simplify_eq; done.
  - unfold deletePermissionBoundaryHandler, DeletePermissionBoundary. repeat case_match; simplify_eq; done.
Qed.

Lemma iperform_moves s o :
  roles_move (roles (auth s)) (roles (auth (iperform s o))) ∧
  policies_move (policies (auth s)) (policies (auth (iperform s o))).
Proof.
  assert (∀ db, roles db = roles (auth s) ∧ policies db = policies (auth s) →
    roles_move (roles (auth s)) (roles db) ∧ policies_move (policies (auth s)) (policies db)) as Hsame.
  { intros db [-> ->]. split; constructor. }
  destruct o as [o|h]; unfold iperform.
  { destruct o; try (by apply Hsame);
      (apply Hsame; unfold set_auth; cbn [auth]; match goal with |- context [perform ?S ?E ?R ?db ?o] =>
        pose proof (perform_grants db o ltac:(done)) as H end; unfold grants in H; by simplify_eq). }
  destruct h; unfold hanswer.
  - destruct (createRole_moves id counted found create req (auth s)) as [? E]. simpl. rewrite E.
    by split; [|constructor].
  - destruct (updateRole_moves write found replaced param req (auth s)) as [? E]. simpl. rewrite E.
    by split; [|constructor].
  - destruct (deleteRole_moves perms pols assigned write param (auth s)) as [? E]. simpl. rewrite E.
    by split; [|constructor].
  - apply Hsame. simpl. unfold createPermissionHandler. repeat case_match; done.
  - apply Hsame. simpl. unfold updatePermissionHandler. repeat case_match; done.
  - apply Hsame. simpl. unfold deletePermissionHandler. destruct cleared; repeat case_match; done.
  - apply Hsame. simpl. unfold assignUserRoleHandler. repeat case_match; done.
  - apply Hsame. simpl. unfold unassignUserRoleHandler. repeat case_match; done.
  - split; [|apply policies_moves]. simpl. unfold createPolicyHandler. repeat case_match; constructor.
  - split; [|apply policies_moves]. simpl. unfold updatePolicyHandler. repeat case_match; constructor.
  - split; [|apply policies_moves]. simpl. unfold deletePolicyHandler. repeat case_match; constructor.
  - apply Hsame. unfold attachUserPolicyHandler. repeat case_match; done.
  - apply Hsame. unfold detachUserPolicyHandler. repeat case_match; done.
  - apply Hsame. by destruct (answer_group_auth s o) as [-> _].
Qed.

(** *** Errors *)

(** The calls that delete pairs or boundaries before they may fail. *)
Definition in_steps (h : hcall) : bool :=
  match h with
  | IDeleteRole _ _ _ _ _ | IDeletePermission _ _ _ | IGroup (GDelete _ _ _ _ _)
  | IGroup (GSetBoundary _ _ _ _ _ _) => true
  | _ => false
  end.

(** The rows are the same, and nothing is attached that was not. *)
Definition detached (s s' : IAM) : Prop :=
  users (auth s') = users (auth s) ∧ roles (auth s') = roles (auth s) ∧
  permissions (auth s') = permissions (auth s) ∧ policies (auth s') = policies (auth s) ∧
  groups s' = groups s ∧ user_roles (auth s') ⊆ user_roles (auth s) ∧
  role_permissions (auth s') ⊆ role_permissions (auth s) ∧ role_policies (auth s') ⊆ role_policies (auth s) ∧
  user_policies s' ⊆ user_policies s ∧ group_users s' ⊆ group_users s ∧ group_roles s' ⊆ group_roles s ∧
  group_policies s' ⊆ group_policies s ∧ boundaries s' ⊆ boundaries s.

Lemma detached_refl s : detached s s.
Proof. repeat split; set_solver. Qed.

Lemma on_auth_same f s : (f (auth s)).2 = auth s → (on_auth f s).2 = s.
Proof. intros E. unfold on_auth, set_auth. simpl. rewrite E. by destruct s. Qed.

Lemma on_pair_failed text write gid found f s :
  400 <= (answer text (on_pair write gid found f s)).1.1 → (answer text (on_pair write gid found f s)).2 = s.
Proof. unfold on_pair. repeat case_match; simpl; lia || done. Qed.

Lemma same_unless_in_steps s h :
  400 <= (hanswer s h).1.1 → in_steps h = false → (hanswer s h).2 = s.
Proof.
  intros He Hi. destruct h as [| | | | | | | | | | | | |o]; try done; cbn [hanswer on_auth fst] in He;
    unfold hanswer; try apply on_auth_same; revert He.
  - unfold createRoleHandler. repeat case_match; simpl; lia || done.
  - unfold updateRoleHandler. repeat case_match; simpl; lia || done.
  - unfold createPermissionHandler. repeat case_match; simpl; lia || done.
  - unfold updatePermissionHandler. repeat case_match; simpl; lia || done.
  - unfold assignUserRoleHandler. repeat case_match; simpl; lia || done.
  - unfold unassignUserRoleHandler. repeat case_match; simpl; lia || done.
  - unfold createPolicyHandler. repeat case_match; simpl; lia || done.
  - unfold updatePolicyHandler. repeat case_match; simpl; lia || done.
  - unfold deletePolicyHandler. repeat case_match; simpl; lia || done.
  - unfold attachUserPolicyHandler. repeat case_match; simpl; lia || done.
  - unfold detachUserPolicyHandler. repeat case_match; simpl; lia || done.
  - destruct o; try done; try apply on_pair_failed; unfold answer_group.
    + unfold createGroupHandler, CreateGroup. repeat case_match; simplify_eq; simpl; lia || done.
    + unfold updateGroupHandler, UpdateGroup. repeat case_match; simplify_eq; simpl; lia || done.
    + unfold deletePermissionBoundaryHandler, DeletePermissionBoundary.
      repeat case_match; simplify_eq; simpl; lia || done.
Qed.

(** A call that answers with an error changes nothing; one that works in steps may
    have detached something, and no more. *)
Theorem failed_calls_detach_only s h :
  400 <= (hanswer s h).1.1 →
  (in_steps h = false → (hanswer s h).2 = s) ∧ detached s (hanswer s h).2.
Proof.
  intros He. split; [by apply same_unless_in_steps|].
  destruct (in_steps h) eqn:Hi; [|rewrite same_unless_in_steps by done; apply detached_refl]. revert He.
  destruct h as [| |perms pols assigned write param| | |cleared write param| | | | | | | |o]; try done;
    [| |destruct o; try done]; cbn [hanswer answer_group on_auth fst snd].
  - unfold deleteRoleHandler. destruct (named_role param (auth s)) as [r|]; [|intros _; exact (detached_refl s)].
    destruct (sysRoles _); [intros _; exact (detached_refl s)|]. destruct (write && _); [simpl; lia|]. intros _.
    destruct perms, pols, assigned; repeat split; simpl; try done; apply list_subseteq_filter.
  - unfold deletePermissionHandler. destruct (named_permission param (auth s)) as [q|]; [|intros _; exact (detached_refl s)].
    destruct (write && _); [simpl; lia|]. intros _.
    destruct cleared; repeat split; simpl; try done; apply list_subseteq_filter.
  - unfold deleteGroupHandler. destruct (ParseUint32 _) as [id|]; [|intros _; exact (detached_refl s)]. unfold DeleteGroup.
    destruct (find_group s id); [|intros _; exact (detached_refl s)]. set (s1 := if us then _ else _). set (s2 := if rs then _ else _).
    set (s3 := if ps then _ else _).
    assert (detached s s3) as H.
    { unfold s3, s2, s1. destruct us, rs, ps; repeat split; simpl; try done; apply list_subseteq_filter. }
    destruct write; [done|]. destruct (existsb _ _); [done|simpl; lia].
  - unfold setPermissionBoundaryHandler. destruct (ParseUint32 _) as [eid|]; [|intros _; exact (detached_refl s)].
    destruct req as [pid|]; [|intros _; exact (detached_refl s)]. unfold SetPermissionBoundary. destruct (find_policy s pid); [|intros _; exact (detached_refl s)].
    set (s1 := if deleted then _ else _).
    assert (detached s s1) as H.
    { unfold s1. destruct deleted; repeat split; simpl; try done; apply list_subseteq_filter. }
    destruct create; [done|]. destruct (existsb _ _); [done|simpl; lia].
Qed.

(** *** Rows of the system *)

Lemma roles_move_kept l l' r :
  roles_move l l' → keyed r_ID l → r ∈ l → sysRoles (r_Name r) = true →
  keyed r_ID l' ∧ ∃ r', r' ∈ l' ∧ r_ID r' = r_ID r ∧ r_Name r' = r_Name r.
Proof.
  intros Hm Hk Hr Hs. destruct Hm as [|x Hx|x x' Hx Hid Hname|x Hx Hsys].
  - eauto.
  - split; [apply keyed_snoc; [done|by apply has_row_false]|]. exists r. rewrite elem_of_app. auto.
  - split; [by apply keyed_on_row|]. exists (if r_ID r =? r_ID x then x' else r).
    split; [by apply list_elem_of_fmap; exists r|]. destruct (_ =? _) eqn:E; [|done]. apply Z.eqb_eq in E.
    assert (r = x) as -> by (by apply (nodup_key r_ID l)). auto.
  - split; [by apply keyed_filter|]. exists r. split; [|done]. apply list_elem_of_filter. split; [|done].
    intros E. assert (r = x) as -> by (by apply (nodup_key r_ID l)). congruence.
Qed.

Lemma policies_move_kept l l' p :
  policies_move l l' → keyed po_ID l → p ∈ l → po_Type p = "system" → keyed po_ID l' ∧ p ∈ l'.
Proof.
  intros Hm Hk Hp Hs. destruct Hm as [|x Hx|x x' Hx Hid Hty|x Hx Hty].
  - eauto.
  - split; [apply keyed_snoc; [done|by apply has_row_false]|]. rewrite elem_of_app. auto.
  - split; [by apply keyed_on_row|]. apply list_elem_of_fmap. exists p. split; [|done].
    destruct (_ =? _) eqn:E; [|done]. apply Z.eqb_eq in E.
    assert (p = x) as -> by (by apply (nodup_key po_ID l)). done.
  - split; [by apply keyed_filter|]. apply list_elem_of_filter. split; [|done].
    intros E. assert (p = x) as -> by (by apply (nodup_key po_ID l)). congruence.
Qed.

(** The roles of the system keep their names, and its policies stay as they are,
    whatever the handlers are asked to do. *)
Theorem system_rows_kept s os r p :
  keyed r_ID (roles (auth s)) → keyed po_ID (policies (auth s)) →
  r ∈ roles (auth s) → sysRoles (r_Name r) = true → p ∈ policies (auth s) → po_Type p = "system" →
  (∃ r', r' ∈ roles (auth (ihistory s os)) ∧ r_ID r' = r_ID r ∧ r_Name r' = r_Name r) ∧
  p ∈ policies (auth (ihistory s os)).
Proof.
  revert s r. induction os as [|o os IH]; intros s r Hkr Hkp Hr Hs Hp Ht; [eauto|].
  destruct (iperform_moves s o) as [Hmr Hmp].
  destruct (roles_move_kept _ _ r Hmr Hkr Hr Hs) as (Hkr' & r' & Hr' & Hid & Hn).
  destruct (policies_move_kept _ _ p Hmp Hkp Hp Ht) as [Hkp' Hp'].
  rewrite <- Hn in Hs. rewrite <- Hid, <- Hn. apply (IH (iperform s o) r'); auto.
Qed.

(** *** Groups *)

Lemma answer_groups_auth os : ∀ s,
  let s' := foldl (λ s o, (answer_group s o).2) s os in
  auth s' = auth s ∧ user_policies s' = user_policies s.
Proof.
  induction os as [|o os IH]; intros s; [done|]. simpl.
  destruct (IH (answer_group s o).2) as [-> ->]. apply answer_group_auth.
Qed.

(** Neither groups nor boundaries count: no operation on them changes what a user
    is authorized to do or what the next token says, although they are said to
    bring the roles and policies of the group and to limit permissions. *)
Theorem groups_not_enforced s os uid action resource now u :
  let s' := foldl (λ s o, (answer_group s o).2) s os in
  Authorize (store := tables accounts s') uid action resource
    = Authorize (store := tables accounts s) uid action resource ∧
  generateAccessToken Secret ExpiresIn now u (auth s') = generateAccessToken Secret ExpiresIn now u (auth s).
Proof.
  intros s'. destruct (answer_groups_auth os s) as [Ha Hp]. fold s' in Ha, Hp. rewrite Ha. split; [|done].
  unfold Authorize. simpl. rewrite Ha. destruct (find_user (auth s) uid) as [v|]; [|done]. simpl.
  unfold attached_policies, loaded_role. by rewrite Hp, Ha.
Qed.

Lemma added_to_group write gid uid s s' :
  AddUserToGroup write gid uid s = (None, s') →
  (gid, uid) ∈ group_users s' ∧ auth s' = auth s ∧ groups s' = groups s ∧ group_roles s' = group_roles s ∧
  boundaries s' = boundaries s ∧ find_group s gid ≠ None ∧ find_user (auth s) uid ≠ None.
Proof.
  unfold AddUserToGroup, on_pair. destruct (find_group s gid); [|done]. destruct (negb _) eqn:E; [done|].
  destruct write; [done|]. intros [= <-]. zbool. split_and!; try done. simpl. unfold appended.
  case_decide; [done|]. apply elem_of_app. right. by left.
Qed.

Lemma attached_to_group write gid rid s s' :
  AttachRoleToGroup write gid rid s = (None, s') →
  (gid, rid) ∈ group_roles s' ∧ auth s' = auth s ∧ groups s' = groups s ∧ group_users s' = group_users s ∧
  boundaries s' = boundaries s ∧ find_role (auth s) rid ≠ None.
Proof.
  unfold AttachRoleToGroup, on_pair. destruct (find_group s gid); [|done].
  destruct (negb _) eqn:E; [done|]. destruct write; [done|]. intros [= <-]. zbool.
  split_and!; try done. simpl. unfold appended. case_decide; [done|]. apply elem_of_app. right. by left.
Qed.

(** Yet the effective permissions of a user without a boundary list those of a role
    of a group to which the user was added. *)
Theorem group_member_listed write write' gid uid rid s s1 s2 p :
  AddUserToGroup write gid uid s = (None, s1) → AttachRoleToGroup write' gid rid s1 = (None, s2) →
  find_boundary "user" uid s = None → p ∈ permissions_of (auth s) rid →
  ∃ perms pols, EffectivePermissions (store := tables accounts s2) uid = Ok (perms, pols) ∧ pm_Name p ∈ perms.
Proof.
  intros (Hu & Ha & Hg & Hr & Hb & Hgid & Huid)%added_to_group
    (Hr2 & Ha2 & Hg2 & Hu2 & Hb2 & Hrid)%attached_to_group Hbound Hp.
  rewrite Ha in Ha2, Hrid. rewrite Hg in Hg2. rewrite Hb in Hb2.
  destruct (find_group s gid) as [g|] eqn:Eg; [|done]. destruct (find_user (auth s) uid) as [u|] eqn:Eu; [|done].
  destruct (find_role (auth s) rid) as [r|] eqn:Er; [|done].
  unfold EffectivePermissions. simpl. unfold GetPermissionBoundary, find_boundary. rewrite Ha2, Hb2, Eu.
  unfold find_boundary in Hbound. rewrite Hbound. simpl. eexists _, _. split; [done|].
  rewrite elem_of_elements, elem_of_union. right. apply elem_of_group_permissions.
  pose proof (row_with_elem g_ID gid (groups s) g Eg) as [Hgin Hgk].
  pose proof (row_with_elem r_ID rid (roles (auth s)) r Er) as [Hrin Hrk].
  exists (loaded_group s2 g), (loaded_role s2 r), (loaded_role s2 r). split_and!.
  - apply list_elem_of_fmap. exists g. split; [done|]. apply list_elem_of_filter.
    rewrite Hg2, Hu2, Hgk. auto.
  - simpl. unfold attached_roles. apply list_elem_of_fmap. exists r. split; [done|].
    apply list_elem_of_filter. rewrite Ha2, Hgk, Hrk. auto.
  - simpl. rewrite Ha2, Hrk, Er. done.
  - simpl. rewrite Ha2, Hrk. apply list_elem_of_fmap. eauto.
Qed.
End service.

(** ** Examples *)

#[local] Existing Instance plain_jwt.
#[local] Existing Instance plain_bcrypt.
#[local] Existing Instance plain_totp.
#[local] Existing Instance ascii_only.

(** A database whose conditions are all refused. *)
Definition plain_pg : Postgres := {|
  text_int8 := ParseInt; collate := string_leb; condition := λ _, None
|}.
#[local] Existing Instance plain_pg.

Definition no_accounts (_ : Z) : result string ServiceAccount := Err not_found.

Definition iam : IAM :=
  mkIAM (set_policies (λ l, l ++ [mkPolicyRow 2 (mkPolicy "admin-all" None) "" "system"])
          (set_roles (λ l, l ++ [mkRole 2 "admin" ""]) sample))
    [] [mkGroup 1 "dev" "" "/"] [] [] [] [].

Lemma system_rows_kept_witness :
  let s := ihistory "s" day day iam [IHandle (IUpdateRole true true true "2" (Ok (mkRoleRequest "root" "" None)));
    IHandle (IDeleteRole true true true true "2"); IHandle (IDeletePolicy true "2");
    IHandle (IUpdateRole true true true "1" (Ok (mkRoleRequest "admin" "" None)))] in
  ∃ r, r ∈ roles (auth s) ∧ r_ID r = 2 ∧ r_Name r = "admin".
Proof.
  intros s. refine (proj1 (system_rows_kept "s" day day iam _ (mkRole 2 "admin" "")
    (mkPolicyRow 2 (mkPolicy "admin-all" None) "" "system") _ _ _ _ _ _)).
  - apply (bool_decide_unpack _). vm_compute. exact I.
  - apply (bool_decide_unpack _). vm_compute. exact I.
  - right. by left.
  - reflexivity.
  - right. by left.
  - reflexivity.
Defined.

Lemma group_member_listed_witness :
  ∃ perms pols, EffectivePermissions (store := tables no_accounts
    (AttachRoleToGroup None 1 1 (AddUserToGroup None 1 2 iam).2).2) 2 = Ok (perms, pols) ∧
    "instance:list" ∈ perms.
Proof.
  refine (group_member_listed no_accounts None None 1 2 1 iam (AddUserToGroup None 1 2 iam).2
    (AttachRoleToGroup None 1 1 (AddUserToGroup None 1 2 iam).2).2
    (mkPermission 1 "instance:list" "instance" "list" "") _ _ _ _);
    [reflexivity|reflexivity|reflexivity|by left].
Defined.

(** A boundary whose replacement fails is lost. *)
Lemma failed_calls_detach_only_witness :
  let s := (hanswer iam (IGroup (GSetBoundary 1 true None "user" "1" (Ok 1)))).2 in
  let h := IGroup (GSetBoundary 2 true (Some "timeout") "user" "1" (Ok 2)) in
  detached s (hanswer s h).2 ∧ length (boundaries s) = 1%nat ∧ boundaries (hanswer s h).2 = [].
Proof.
  intros s h. split; [|split; reflexivity].
  apply (failed_calls_detach_only s h). vm_compute. discriminate.
Defined.
