(* ===== verification/Projects.v ===== *)
(** * Projects and the first administrator

    internal/management/identity/handler_project.go: projects, their members and
    their quotas; and the start of the service in service.go, which makes the first
    administrator and their project. The theorems say that the limits that are set
    are the ones that are read, that a restart changes nothing, and that the first
    administrator can log in. *)
From S2P Require Import Prelude GoStrings Utf8 NetIP Throttle Rbac Http Tables Sessions.
Local Open Scope Z_scope.

(** ** Tables *)

Record ProjectMember := mkMember { m_ID : Z; m_ProjectID : Z; m_UserID : Z; m_Role : string }.

(** The row without a project holds the defaults. *)
Record Quota := mkQuota {
  q_ID : Z; q_ProjectID : option Z; VCPUs : Z; RAMMB : Z; DiskGB : Z; Instances : Z
}.

Record Tenancy := mkTenancy { auth : DB; members : list ProjectMember; quotas : list Quota }.

Definition set_projects (f : list Project → list Project) (db : DB) : DB :=
  mkDB (users db) (roles db) (permissions db) (policies db) (user_roles db) (role_permissions db)
    (role_policies db) (f (projects db)) (refresh_tokens db) (trust_policies db) (sts_sessions db) (throttle db).

Definition with_projects (f : list Project → list Project) (t : Tenancy) : Tenancy :=
  mkTenancy (set_projects f (auth t)) (members t) (quotas t).
Definition with_members (f : list ProjectMember → list ProjectMember) (t : Tenancy) : Tenancy :=
  mkTenancy (auth t) (f (members t)) (quotas t).
Definition with_quotas (f : list Quota → list Quota) (t : Tenancy) : Tenancy :=
  mkTenancy (auth t) (members t) (f (quotas t)).

(** The user id that the middleware put into the context, if it is a number. *)
Definition current_uid (c : Keys) : option Z :=
  match c !! "user_id" with Some (AUint n) => Some n | _ => None end.

(** ** Projects *)

Definition member_json (db : DB) (m : ProjectMember) : json :=
  JObj [("id", JNum (m_ID m)); ("project_id", JNum (m_ProjectID m)); ("user_id", JNum (m_UserID m));
        ("user", user_json JNull (default (mkUser 0 "" "" "" "" "" false false false "" None None)
                                    (find_user db (m_UserID m))));
        ("role", JStr (m_Role m))].

Definition project_json (loaded : list json) (p : Project) : json :=
  JObj ([("id", JNum (pr_ID p)); ("name", JStr (pr_Name p)); ("description", JStr (pr_Description p));
         ("user_id", JNum (pr_UserID p))]
    ++ match loaded with [] => [] | _ => [("members", JList loaded)] end).

Definition listProjectsHandler (err : bool) (owner : string) (c : Keys) (t : Tenancy) : response :=
  let all := projects (auth t) in
  let l := if decide (owner = "true") then
             match current_uid c with Some uid => filter (λ p, pr_UserID p = uid) all | None => all end
           else all in
  if err then error 500 "Failed to list projects"
  else (200, JObj [("projects", JList (project_json [] <$> l))]).

Record ProjectRequest := mkProjectRequest { rq_Name : string; rq_Description : string; rq_UserID : Z }.

Definition createProjectHandler (id : Z) (create : bool) (req : result string ProjectRequest) (c : Keys)
    (t : Tenancy) : response * Tenancy :=
  match req with
  | Err _ => (error 400 "Invalid request", t)
  | Ok req =>
      let uid := if rq_UserID req =? 0 then default 0 (current_uid c) else rq_UserID req in
      let p := mkProject id (rq_Name req) (rq_Description req) uid in
      if negb create || has_row pr_ID id (projects (auth t)) then (error 500 "Failed to create project", t)
      else ((201, JObj [("project", project_json [] p)]), with_projects (λ l, l ++ [p]) t)
  end.

(** The database keeps a project that has members. *)
Definition deleteProjectHandler (write : bool) (param : string) (t : Tenancy) : response * Tenancy :=
  match ParseUint32 param with
  | None => (error 400 "Invalid project ID", t)
  | Some id =>
      if write && negb (existsb (λ m, m_ProjectID m =? id) (members t))
      then (message 200 "Project deleted", with_projects (without_row pr_ID id) t)
      else (error 500 "Failed to delete project", t)
  end.

Definition getProjectDetailHandler (param : string) (t : Tenancy) : response :=
  match ParseUint32 param with
  | None => error 400 "Invalid project ID"
  | Some id =>
      match row_with pr_ID id (projects (auth t)) with
      | None => error 404 "Project not found"
      | Some p =>
          (200, JObj [("project", project_json
             (member_json (auth t) <$> filter (λ m, m_ProjectID m = id) (members t)) p)])
      end
  end.

(** ** Members *)

Definition listProjectMembersHandler (err : bool) (param : string) (t : Tenancy) : response :=
  match ParseUint32 param with
  | None => error 400 "Invalid project ID"
  | Some id =>
      if err then error 500 "Failed to list members"
      else (200, JObj [("members", JList (member_json (auth t) <$> filter (λ m, m_ProjectID m = id) (members t)))])
  end.

(** The project and the user have to exist, and a user is a member once. *)
Definition addProjectMemberHandler (mid : Z) (create : bool) (param : string) (req : result string (Z * string))
    (t : Tenancy) : response * Tenancy :=
  match ParseUint32 param with
  | None => (error 400 "Invalid project ID", t)
  | Some id =>
      match req with
      | Err e => (error 400 e, t)
      | Ok (uid, role) =>
          let m := mkMember mid id uid (nonempty role "member") in
          if create && has_row pr_ID id (projects (auth t)) && has_row ID uid (users (auth t))
             && negb (existsb (λ m, (m_ID m =? mid) || ((m_ProjectID m =? id) && (m_UserID m =? uid))) (members t))
          then ((201, JObj [("member", member_json (auth t) m)]), with_members (λ l, l ++ [m]) t)
          else (error 500 "Failed to add member", t)
      end
  end.

(** The member is named by its own id; the project of the path is not looked at. *)
Definition updateProjectMemberHandler (write : bool) (memberId : string) (req : result string string)
    (t : Tenancy) : response * Tenancy :=
  match ParseUint32 memberId with
  | None => (error 400 "Invalid member ID", t)
  | Some mid =>
      match req with
      | Err e => (error 400 e, t)
      | Ok role =>
          if write then
            ((200, JObj [("ok", JBool true)]),
             with_members (on_row m_ID mid (λ m, mkMember (m_ID m) (m_ProjectID m) (m_UserID m) role)) t)
          else (error 500 "Failed to update member role", t)
      end
  end.

Definition removeProjectMemberHandler (write : bool) (memberId : string) (t : Tenancy) : response * Tenancy :=
  match ParseUint32 memberId with
  | None => (error 400 "Invalid member ID", t)
  | Some mid =>
      if write then ((200, JObj [("ok", JBool true)]), with_members (without_row m_ID mid) t)
      else (error 500 "Failed to remove member", t)
  end.

(** ** Quotas *)

Definition quota_json (q : Quota) : json :=
  JObj [("id", JNum (q_ID q)); ("project_id", JOpt JNum (q_ProjectID q)); ("vcpus", JNum (VCPUs q));
        ("ram_mb", JNum (RAMMB q)); ("disk_gb", JNum (DiskGB q)); ("instances", JNum (Instances q))].

(** The first row of a project, or of the defaults. *)
Definition quota_of (pid : option Z) (t : Tenancy) : option Quota :=
  List.find (λ q, bool_decide (q_ProjectID q = pid)) (quotas t).

(** [read] tells whether the query succeeds. *)
Definition getDefaultQuotaHandler (read : bool) (t : Tenancy) : response :=
  let q := match quota_of None t with
           | Some q => if read then q else mkQuota 0 None 16 32768 500 20
           | None => mkQuota 0 None 16 32768 500 20
           end in
  (200, JObj [("quota", quota_json q)]).

(** The four limits of a request. *)
Definition limited (id : Z) (pid : option Z) (req : Quota) : Quota :=
  mkQuota id pid (VCPUs req) (RAMMB req) (DiskGB req) (Instances req).

(** A row is made if none can be read, and updated otherwise. A project has one
    row; the defaults may have several. *)
Definition upsert (read write : bool) (id : Z) (pid : option Z) (req : Quota) (t : Tenancy)
    : option Quota * Tenancy :=
  match (if read then quota_of pid t else None) with
  | None =>
      if negb write || has_row q_ID id (quotas t)
         || (bool_decide (pid ≠ None) && existsb (λ q, bool_decide (q_ProjectID q = pid)) (quotas t))
      then (None, t)
      else (Some (limited id pid req), with_quotas (λ l, l ++ [limited id pid req]) t)
  | Some q =>
      if write then (Some (limited (q_ID q) pid req), with_quotas (on_row q_ID (q_ID q) (λ q, limited (q_ID q) pid req)) t)
      else (None, t)
  end.

Definition updateDefaultQuotaHandler (read write : bool) (id : Z) (req : result string Quota) (t : Tenancy)
    : response * Tenancy :=
  match req with
  | Err _ => (error 400 "Invalid request", t)
  | Ok req =>
      match upsert read write id None req t with
      | (None, t) =>
          (error 500 (match (if read then quota_of None t else None) with
                      | None => "Failed to set default quota"
                      | Some _ => "Failed to update default quota" end), t)
      | (Some q, t) => ((200, JObj [("quota", quota_json q)]), t)
      end
  end.

Definition getProjectQuotaHandler (read : bool) (projectId : string) (t : Tenancy) : response :=
  match ParseUint32 projectId with
  | None => error 400 "Invalid project ID"
  | Some pid =>
      match (if read then quota_of (Some pid) t else None) with
      | None => getDefaultQuotaHandler read t
      | Some q => (200, JObj [("quota", quota_json q)])
      end
  end.

Definition updateProjectQuotaHandler (read write : bool) (id : Z) (projectId : string) (req : result string Quota)
    (t : Tenancy) : response * Tenancy :=
  match ParseUint32 projectId with
  | None => (error 400 "Invalid project ID", t)
  | Some pid =>
      match req with
      | Err _ => (error 400 "Invalid request", t)
      | Ok req =>
          match upsert read write id (Some pid) req t with
          | (None, t) =>
              (error 500 (match (if read then quota_of (Some pid) t else None) with
                          | None => "Failed to create project quota"
                          | Some _ => "Failed to update project quota" end), t)
          | (Some q, t) => ((200, JObj [("quota", quota_json q)]), t)
          end
      end
  end.

(** ** The start of the service *)

Section start.
Context {bcrypt : Bcrypt}.

(** [env] is ADMIN_DEFAULT_PASSWORD and [mode] GIN_MODE; the four errors are those
    of the queries and writes, in order, and the two ids are drawn. *)
Definition createDefaultAdmin (env mode : string) (salt : list Z) (uid pid : Z)
    (find_admin create_admin find_project create_project : option string) (db : DB) : option string * DB :=
  let admin :=
    match find_admin with
    | Some e => (Err e, db)
    | None =>
        match List.find (λ u, bool_decide (Username u = "admin")) (users db) with
        | Some u => (Ok u, db)
        | None =>
            if bool_decide (env = "") && bool_decide (mode = "release")
            then (Err "ADMIN_DEFAULT_PASSWORD must be set in production; refusing to start with a default password",
                  db)
            else
              match GenerateFromPassword salt (nonempty env "ChangeMe123!") with
              | Err e => (Err e, db)
              | Ok h =>
                  let u := mkUser uid "admin" "admin@vcstack.org" h "System" "Administrator" true true false ""
                    None None in
                  match create_admin with
                  | Some e => (Err e, db)
                  | None =>
                      if has_row ID uid (users db) then (Err "duplicate key", db)
                      else (Ok u, set_users (λ l, l ++ [u]) db)
                  end
              end
        end
    end in
  match admin with
  | (Err e, db) => (Some e, db)
  | (Ok u, db) =>
      match find_project with
      | Some e => (Some e, db)
      | None =>
          match List.find (λ p, bool_decide (pr_Name p = "default") && (pr_UserID p =? ID u)) (projects db) with
          | Some _ => (None, db)
          | None =>
              match create_project with
              | Some e => (Some ("failed to create default project: " +:+ e), db)
              | None =>
                  if has_row pr_ID pid (projects db)
                  then (Some "failed to create default project: duplicate key", db)
                  else (None, set_projects (λ l, l ++ [mkProject pid "default" "Default project for admin" (ID u)]) db)
              end
          end
      end
  end.

(** ** Theorems *)

(** The limits of a quota. *)
Definition same_limits (q req : Quota) : Prop :=
  VCPUs q = VCPUs req ∧ RAMMB q = RAMMB req ∧ DiskGB q = DiskGB req ∧ Instances q = Instances req.

Lemma upsert_reads read write id pid req t q t' :
  keyed q_ID (quotas t) → upsert read write id pid req t = (Some q, t') → (read = true ∨ quota_of pid t = None) →
  (∃ q', quota_of pid t' = Some q' ∧ same_limits q' req) ∧
  ∀ pid', pid' ≠ pid → quota_of pid' t' = quota_of pid' t.
Proof.
  intros Hk E Hread. unfold upsert in E.
  destruct (if read then quota_of pid t else None) as [q0|] eqn:E0.
  - destruct read; [|done]. destruct write; [|done]. injection E as <- <-. unfold quota_of in *. simpl.
    apply find_elem in E0 as Hq. destruct Hq as [Hin Hpid]. apply bool_decide_eq_true in Hpid.
    assert (∀ x, x ∈ quotas t → (q_ID x =? q_ID q0) = true → q_ProjectID x = pid) as Hx.
    { intros x Hxin Hx. apply Z.eqb_eq in Hx. assert (x = q0) as -> by (by apply (nodup_key q_ID (quotas t))).
      done. }
    unfold on_row. split.
    + rewrite find_fmap_in.
      * rewrite E0. simpl. rewrite Z.eqb_refl. eexists. split; [done|]. by split_and!.
      * intros x Hxin. destruct (q_ID x =? q_ID q0) eqn:Ex; [|done]. simpl. by rewrite (Hx x).
    + intros pid' Hne. rewrite find_fmap_in.
      * destruct (List.find (λ q, bool_decide (q_ProjectID q = pid')) (quotas t)) as [x|] eqn:Ef; [|done]. simpl.
        apply find_elem in Ef as [Hxin Hp]. apply bool_decide_eq_true in Hp.
        destruct (q_ID x =? q_ID q0) eqn:Ex; [|done]. rewrite (Hx x) in Hp by done. congruence.
      * intros x Hxin. destruct (q_ID x =? q_ID q0) eqn:Ex; [|done]. simpl. by rewrite (Hx x).
  - assert (quota_of pid t = None) as Hnone by (destruct Hread; [by subst read|done]).
    destruct (negb write || _ || _); [done|]. injection E as <- <-. unfold quota_of in *. simpl. split.
    + rewrite find_app_none by done. simpl. rewrite bool_decide_eq_true_2 by done. eexists. split; [done|].
      by split_and!.
    + intros pid' Hne. destruct (List.find (λ q, bool_decide (q_ProjectID q = pid')) (quotas t)) as [x|] eqn:Ef; [by apply find_app_some|].
      rewrite find_app_none by done. simpl. by rewrite bool_decide_eq_false_2.
Qed.

(** The limits that are set for a project are the ones that are read for it, and
    those of every other project stay as they were. *)
Theorem quota_set_get write id projectId req t body t' :
  keyed q_ID (quotas t) →
  updateProjectQuotaHandler true write id projectId (Ok req) t = ((200, body), t') →
  (∃ q, getProjectQuotaHandler true projectId t' = (200, JObj [("quota", quota_json q)]) ∧ same_limits q req) ∧
  ∀ other, ParseUint32 other ≠ ParseUint32 projectId →
    getProjectQuotaHandler true other t' = getProjectQuotaHandler true other t.
Proof.
  intros Hk. unfold updateProjectQuotaHandler, getProjectQuotaHandler.
  destruct (ParseUint32 projectId) as [pid|]; [|done].
  destruct (upsert _ _ _ _ _ _) as [[q|] t1] eqn:E; [|done]. intros [= _ ->].
  destruct (upsert_reads _ _ _ _ _ _ _ _ Hk E ltac:(by left)) as [(q' & Hq & Hl) Ho]. split.
  - exists q'. by rewrite Hq.
  - intros other Hne. destruct (ParseUint32 other) as [pid'|]; [|done].
    rewrite Ho by congruence. unfold getDefaultQuotaHandler. by rewrite Ho.
Qed.

(** A start of the service that succeeds leaves an active administrator with a
    project, whom a later start leaves as they are, whatever its settings; and who
    can be authenticated with the configured password if they were made by it. *)
Theorem default_admin env mode salt uid pid db db' :
  createDefaultAdmin env mode salt uid pid None None None None db = (None, db') →
  (∃ u, u ∈ users db' ∧ Username u = "admin" ∧
     ∃ p, p ∈ projects db' ∧ pr_Name p = "default" ∧ pr_UserID p = ID u) ∧
  (∀ env' mode' salt' uid' pid' create create',
     createDefaultAdmin env' mode' salt' uid' pid' None create None create' db' = (None, db')) ∧
  (Forall (λ u, Username u ≠ "admin" ∧ Email u ≠ "admin") (users db) →
     ∃ u, authenticateUser "admin" (nonempty env "ChangeMe123!") db' = Some u ∧ IsAdmin u = true).
Proof.
  intros E. set (is_admin := λ u, bool_decide (Username u = "admin")).
  set (its u := λ p, bool_decide (pr_Name p = "default") && (pr_UserID p =? ID u)).
  assert (∃ u p, List.find is_admin (users db') = Some u ∧ List.find (its u) (projects db') = Some p ∧
    (List.find is_admin (users db) = None → users db' = users db ++ [u] ∧ IsActive u = true ∧ IsAdmin u = true ∧
       CompareHashAndPassword (Password u) (nonempty env "ChangeMe123!") = true))
    as (u & p & Hu & Hp & Hnew).
  { unfold createDefaultAdmin in E. fold is_admin in E.
    destruct (List.find is_admin (users db)) as [u|] eqn:Eu.
    - fold (its u) in E. destruct (List.find (its u) (projects db)) as [p|] eqn:Ep.
      + injection E as <-. exists u, p. done.
      + destruct (has_row _ _ _); [done|]. injection E as <-. exists u. eexists. simpl. split; [done|].
        rewrite find_app_none by done. unfold its. simpl. by rewrite Z.eqb_refl.
    - destruct (bool_decide _ && _); [done|]. destruct (GenerateFromPassword _ _) as [h|] eqn:Eh; [|done].
      apply Compare_generated in Eh. destruct (has_row _ _ _); [done|].
      set (u := mkUser _ _ _ _ _ _ _ _ _ _ _ _) in E. fold (its u) in E. exists u.
      assert (List.find is_admin (users db ++ [u]) = Some u) as Hu by (by rewrite find_app_none).
      cbn [projects set_users] in E. destruct (List.find (its u) (projects db)) as [p|] eqn:Ep.
      + injection E as <-. exists p. simpl. split; [done|]. split; [done|]. by intros _.
      + destruct (has_row _ _ _); [done|]. injection E as <-. eexists. simpl. split; [done|].
        rewrite find_app_none by done. unfold its. simpl. rewrite Z.eqb_refl. split; [done|]. by intros _. }
  pose proof (find_elem _ _ _ Hu) as [Hin Hname]. pose proof (find_elem _ _ _ Hp) as [Hpin Hpr].
  unfold is_admin, its in Hname, Hpr. apply andb_true_iff in Hpr as [Hn Ho]. zbool. split_and!.
  - exists u. split; [done|]. split; [done|]. exists p. auto.
  - intros. unfold createDefaultAdmin. fold is_admin. rewrite Hu. fold (its u). by rewrite Hp.
  - intros Hf. exists u.
    assert (List.find is_admin (users db) = None) as Hnone.
    { apply find_none_elem. intros v Hv. apply (proj1 (list.Forall_forall _ _) Hf) in Hv as [Hv _].
      unfold is_admin. by apply bool_decide_eq_false_2. }
    destruct (Hnew Hnone) as (Hus & Hact & Hadm & Hc). split; [|done].
    generalize dependent (nonempty env "ChangeMe123!"). intros pw _ Hc. unfold authenticateUser. rewrite Hus.
    rewrite find_app_none; [simpl; rewrite (bool_decide_eq_true_2 _ Hname), Hact; simpl; by rewrite Hc|]. apply find_none_elem. intros v Hv.
    apply (proj1 (list.Forall_forall _ _) Hf) in Hv as [Hv1 Hv2]. by rewrite !bool_decide_eq_false_2.
Qed.
End start.

(** ** Examples *)

#[local] Existing Instance plain_bcrypt.

Definition tenancy : Tenancy := mkTenancy sample [] [mkQuota 1 None 8 8192 100 10].

Lemma quota_set_get_witness :
  let t' := (updateProjectQuotaHandler true true 2 "7" (Ok (mkQuota 0 None 1 512 5 1)) tenancy).2 in
  (∃ q, getProjectQuotaHandler true "7" t' = (200, JObj [("quota", quota_json q)]) ∧
     same_limits q (mkQuota 0 None 1 512 5 1)) ∧
  getProjectQuotaHandler true "8" t' = getProjectQuotaHandler true "8" tenancy.
Proof.
  destruct (quota_set_get true 2 "7" (mkQuota 0 None 1 512 5 1) tenancy _ _
    ltac:(apply NoDup_singleton) eq_refl) as [H1 H2].
  split; [exact H1|]. apply H2. discriminate.
Defined.

Lemma default_admin_witness :
  ∃ u, authenticateUser "admin" "secret12"
    (createDefaultAdmin "secret12" "release" [1] 9 4 None None None None sample).2 = Some u ∧ IsAdmin u = true.
Proof.
  refine (proj2 (proj2 (default_admin "secret12" "release" [1] 9 4 sample
    (createDefaultAdmin "secret12" "release" [1] 9 4 None None None None sample).2 _)) _);
    [vm_compute; reflexivity|]. repeat constructor; discriminate.
Defined.
