(* ===== verification/Node.v ===== *)
(** * Resources of a compute node

    internal/compute: the console ports of virtual machines
    (vm/vnc_port_allocator.go), the pool of microVMs (firecracker/pool.go), and the
    resource tracker and the task queue (resources.go). The mutex of each makes its
    operations atomic; whether a port is free and whether a machine runs are
    arguments. The theorems show that the port allocator refines a map from
    machines to ports, that the pool is bounded and, if machines are released by
    those who hold them, hands out a machine to one user at a time, and that the task
    queue runs every task once, in order, unless it is stopped. *)
From S2P Require Import Prelude GoStrings NetIP.
Local Open Scope Z_scope.

(** ** Console ports *)

Module Ports.

Record VNCPortAllocator := mkAllocator { basePort : Z; maxPort : Z; used : gmap Z string }.

Definition NewVNCPortAllocator : VNCPortAllocator := mkAllocator 5900 5999 ∅.

(** The port of a machine; the order in which a map is walked does not matter
    where a machine has one port. *)
Definition port_of (vmID : string) (used : gmap Z string) : option Z :=
  fst <$> List.find (λ kv, bool_decide (kv.2 = vmID)) (map_to_list used).

(** The search among [n] ports. *)
Fixpoint free_port (isPortFree : Z → bool) (n : nat) (port : Z) (used : gmap Z string) : option Z :=
  match n with
  | O => None
  | S n =>
      if bool_decide (is_Some (used !! port)) then free_port isPortFree n (port + 1) used
      else if negb (isPortFree port) then free_port isPortFree n (port + 1) used
      else Some port
  end.

Definition Allocate (isPortFree : Z → bool) (vmID : string) (a : VNCPortAllocator)
    : result string Z * VNCPortAllocator :=
  match port_of vmID (used a) with
  | Some port => (Ok port, a)
  | None =>
      match free_port isPortFree (Z.to_nat (maxPort a - basePort a + 1)) (basePort a) (used a) with
      | Some port => (Ok port, mkAllocator (basePort a) (maxPort a) (<[port := vmID]> (used a)))
      | None =>
          (Err ("no free VNC ports in range " +:+ Itoa (basePort a) +:+ "-" +:+ Itoa (maxPort a)), a)
      end
  end.

Definition Release (vmID : string) (a : VNCPortAllocator) : VNCPortAllocator :=
  match port_of vmID (used a) with
  | Some port => mkAllocator (basePort a) (maxPort a) (delete port (used a))
  | None => a
  end.

Definition PortFor (vmID : string) (a : VNCPortAllocator) : Z := default 0 (port_of vmID (used a)).

(** *** A map from machines to ports *)

Inductive op := OAllocate (isPortFree : Z → bool) (vmID : string) | ORelease (vmID : string).

(** What a machine is told: a port, or that there is none. *)
Inductive out := Got (port : Z) | Refused | Done.

(** The specification: a machine keeps its port, a new one gets the lowest port
    that is free, and is refused only if there is none. *)
Inductive spec_step (m : gmap string Z) : op → out → gmap string Z → Prop :=
| spec_again f id port : m !! id = Some port → spec_step m (OAllocate f id) (Got port) m
| spec_new f id port :
    m !! id = None → 5900 <= port <= 5999 → f port = true → (∀ id', m !! id' ≠ Some port) →
    (∀ q, 5900 <= q < port → f q = true → ∃ id', m !! id' = Some q) →
    spec_step m (OAllocate f id) (Got port) (<[id := port]> m)
| spec_refused f id :
    m !! id = None → (∀ q, 5900 <= q <= 5999 → f q = true → ∃ id', m !! id' = Some q) →
    spec_step m (OAllocate f id) Refused m
| spec_release id : spec_step m (ORelease id) Done (delete id m).

Inductive spec_run (m : gmap string Z) : list op → list out → gmap string Z → Prop :=
| run_nil : spec_run m [] [] m
| run_cons o os out outs m1 m2 :
    spec_step m o out m1 → spec_run m1 os outs m2 → spec_run m (o :: os) (out :: outs) m2.

(** The operations of the allocator. *)
Definition perform (a : VNCPortAllocator) (o : op) : out * VNCPortAllocator :=
  match o with
  | OAllocate f id =>
      match Allocate f id a with
      | (Ok port, a) => (Got port, a)
      | (Err _, a) => (Refused, a)
      end
  | ORelease id => (Done, Release id a)
  end.

Fixpoint run (a : VNCPortAllocator) (os : list op) : list out * VNCPortAllocator :=
  match os with
  | [] => ([], a)
  | o :: os =>
      let (out, a) := perform a o in
      let (outs, a) := run a os in
      (out :: outs, a)
  end.

(** The ports by machine are the machines by port. *)
Definition represents (a : VNCPortAllocator) (m : gmap string Z) : Prop :=
  basePort a = 5900 ∧ maxPort a = 5999 ∧ ∀ port id, used a !! port = Some id ↔ m !! id = Some port.

Lemma port_of_represents a m id : represents a m → port_of id (used a) = m !! id.
Proof.
  intros (_ & _ & H). unfold port_of. destruct (List.find _ _) as [[port id']|] eqn:E; simpl.
  - apply find_elem in E as [Hin Hid]. simpl in Hid. zbool. subst id'.
    apply elem_of_map_to_list in Hin. symmetry. by apply H.
  - destruct (m !! id) as [port|] eqn:Em; [|done]. apply H in Em.
    apply elem_of_map_to_list in Em. rewrite find_none_elem in E. specialize (E _ Em). simpl in E.
    by rewrite bool_decide_eq_true_2 in E.
Qed.

Lemma free_port_spec f n port l :
  match free_port f n port l with
  | Some p => port <= p < port + Z.of_nat n ∧ l !! p = None ∧ f p = true ∧
      ∀ q, port <= q < p → f q = true → is_Some (l !! q)
  | None => ∀ q, port <= q < port + Z.of_nat n → f q = true → is_Some (l !! q)
  end.
Proof.
  revert port. induction n as [|n IH]; intros port; simpl; [lia|].
  specialize (IH (port + 1)). case_bool_decide as Ht; [|destruct (f port) eqn:Ef; simpl].
  - destruct (free_port f n (port + 1) l) as [p|].
    + destruct IH as (? & ? & ? & Hq). split_and!; [lia|lia|done|done|]. intros q Hr Hf.
      destruct (decide (q = port)) as [->|]; [done|]. apply Hq; [lia|done].
    + intros q Hr Hf. destruct (decide (q = port)) as [->|]; [done|]. apply IH; [lia|done].
  - apply eq_None_not_Some in Ht. split_and!; [lia|lia|done|done|lia].
  - destruct (free_port f n (port + 1) l) as [p|].
    + destruct IH as (? & ? & ? & Hq). split_and!; [lia|lia|done|done|]. intros q Hr Hf.
      destruct (decide (q = port)) as [->|]; [congruence|]. apply Hq; [lia|done].
    + intros q Hr Hf. destruct (decide (q = port)) as [->|]; [congruence|]. apply IH; [lia|done].
Qed.

Lemma perform_refines a m o :
  represents a m → ∃ m', spec_step m o (perform a o).1 m' ∧ represents (perform a o).2 m'.
Proof.
  intros Hr. destruct o as [f id|id]; simpl.
  - unfold Allocate. rewrite (port_of_represents a m id Hr). destruct (m !! id) as [port|] eqn:Em.
    { exists m. split; [by apply spec_again|done]. }
    destruct Hr as (Hb & Hx & H). rewrite Hb, Hx. change (Z.to_nat (5999 - 5900 + 1)) with 100%nat.
    pose proof (free_port_spec f 100 5900 (used a)) as Hs.
    assert (∀ q, is_Some (used a !! q) → ∃ id', m !! id' = Some q) as Ht.
    { intros q [id' Hq]. exists id'. by apply H. }
    destruct (free_port f 100 5900 (used a)) as [port|].
    + destruct Hs as (? & Hfree & Hf & Hlow). exists (<[id := port]> m). split.
      * apply spec_new; auto; [lia|]. intros id' Hid. apply H in Hid. congruence.
      * split_and!; [done|done|]. intros p id'. simpl. rewrite !lookup_insert_Some, H.
        destruct (decide (port = p)) as [<-|]; destruct (decide (id = id')) as [<-|]; [naive_solver| | |naive_solver].
        -- split; [naive_solver|]. intros [?|[_ Hp]]; [naive_solver|]. apply H in Hp. congruence.
        -- split; [naive_solver|]. intros [?|[? _]]; naive_solver.
    + exists m. split; [|done]. apply spec_refused; [done|]. intros q Hq Hfq. apply Ht, Hs; [lia|done].
  - exists (delete id m). split; [constructor|]. unfold Release. rewrite (port_of_represents a m id Hr).
    destruct Hr as (Hb & Hx & H). destruct (m !! id) as [port|] eqn:Em.
    + split_and!; [done|done|]. intros p id'. simpl. rewrite !lookup_delete_Some, H. split.
      * intros [Hp Hid]. split; [|done]. intros ->. congruence.
      * intros [Hid Hp]. split; [|done]. intros ->. apply H in Hp, Em. congruence.
    + by rewrite delete_id.
Qed.

(** C16: The allocator refines the map: in every sequence of requests each machine has
    one port of its own, and is refused only if every port is taken or in use. *)
Theorem ports_refine os :
  ∃ m, spec_run ∅ os (run NewVNCPortAllocator os).1 m ∧
    ∀ id, PortFor id (run NewVNCPortAllocator os).2 = default 0 (m !! id).
Proof.
  assert (represents NewVNCPortAllocator ∅) as H0.
  { split_and!; [done|done|]. intros port id. simpl. by rewrite !lookup_empty. }
  revert H0. generalize NewVNCPortAllocator (∅ : gmap string Z). induction os as [|o os IH]; intros a m Hr.
  - exists m. split; [constructor|]. intros id. simpl. unfold PortFor. by rewrite (port_of_represents a m).
  - destruct (perform_refines a m o Hr) as (m1 & Hs & Hr1). simpl.
    destruct (perform a o) as [out a1]. simpl in Hs, Hr1. destruct (IH a1 m1 Hr1) as (m2 & Hrun & Hp).
    destruct (run a1 os) as [outs a2]. exists m2. split; [by econstructor|done].
Qed.
End Ports.

(** ** The pool of microVMs *)

Module Pool.

Record PooledVM := mkVM { VMID : Z; CreatedAt : Z }.

(** [registry] has the ids of the machines of the node. A machine has one object,
    which its users and the pool share: [in_use] are those whose flag [InUse] is
    set. *)
Record Pool := mkPool {
  idle : list PooledVM; maxSize : Z; minIdle : Z; idleTimeout : Z; registry : gset Z;
  baseSnapshot : option string; in_use : gset Z
}.

Definition set_idle (l : list PooledVM) (p : Pool) : Pool :=
  mkPool l (maxSize p) (minIdle p) (idleTimeout p) (registry p) (baseSnapshot p) (in_use p).
Definition unregister (id : Z) (p : Pool) : Pool :=
  mkPool (idle p) (maxSize p) (minIdle p) (idleTimeout p) (registry p ∖ {[id]}) (baseSnapshot p) (in_use p).
Definition set_in_use (f : gset Z → gset Z) (p : Pool) : Pool :=
  mkPool (idle p) (maxSize p) (minIdle p) (idleTimeout p) (registry p) (baseSnapshot p) (f (in_use p)).

Definition NewPool (maxSize minIdle idleTimeout : Z) (registry : gset Z) : Pool :=
  mkPool [] (if maxSize <=? 0 then 10 else maxSize) (if minIdle <=? 0 then 2 else minIdle)
    (if idleTimeout <=? 0 then 5 * minute else idleTimeout) registry None ∅.

Definition SetBaseSnapshot (id : string) (p : Pool) : Pool :=
  mkPool (idle p) (maxSize p) (minIdle p) (idleTimeout p) (registry p) (Some id) (in_use p).

Section clients.
(** [IsRunning] of a machine's client, at the time of the call. *)
Variable running : Z → bool.

(** The first machine that can be claimed, and the others. *)
Fixpoint claim (in_use : gset Z) (l : list PooledVM) : option (PooledVM * list PooledVM) :=
  match l with
  | [] => None
  | vm :: l =>
      if negb (bool_decide (VMID vm ∈ in_use)) && running (VMID vm) then Some (vm, l)
      else '(found, rest) ← claim in_use l; Some (found, vm :: rest)
  end.

Definition Claim (p : Pool) : option PooledVM * Pool :=
  match claim (in_use p) (idle p) with
  | Some (vm, rest) => (Some vm, set_in_use (λ u, {[VMID vm]} ∪ u) (set_idle rest p))
  | None => (None, p)
  end.

(** The second result are the machines that are killed. *)
Definition Release (vm : PooledVM) (p : Pool) : Pool * list Z :=
  let p := set_in_use (λ u, u ∖ {[VMID vm]}) p in
  if maxSize p <=? Z.of_nat (length (idle p)) then (unregister (VMID vm) p, [VMID vm])
  else (set_idle (idle p ++ [vm]) p, []).

Definition Size (p : Pool) : Z := Z.of_nat (length (idle p)).

(** The loop of [maintain]: the machines that are kept, the ids that leave the
    registry, and those that are killed. *)
Fixpoint sweep (now min timeout : Z) (l kept : list PooledVM) (removed killed : list Z)
    : list PooledVM * list Z * list Z :=
  match l with
  | [] => (kept, removed, killed)
  | vm :: l =>
      if (min <=? Z.of_nat (length kept)) && (timeout <? time_sub now (CreatedAt vm))
      then sweep now min timeout l kept (removed ++ [VMID vm]) (killed ++ [VMID vm])
      else if negb (running (VMID vm)) then sweep now min timeout l kept (removed ++ [VMID vm]) killed
      else sweep now min timeout l (kept ++ [vm]) removed killed
  end.

Definition maintain (now : Z) (p : Pool) : Pool * list Z :=
  let '(kept, removed, killed) := sweep now (minIdle p) (idleTimeout p) (idle p) [] [] [] in
  (foldr unregister (set_idle kept p) removed, killed).

Definition Stop (p : Pool) : Pool * list Z :=
  let ids := VMID <$> idle p in
  (set_idle [] (foldr unregister p ids), ids).

Record PoolStats := mkStats {
  st_MaxSize : Z; st_MinIdle : Z; st_IdleCount : Z; st_RunningCount : Z; st_BaseSnapshotID : string
}.

Definition Stats (p : Pool) : PoolStats :=
  mkStats (maxSize p) (minIdle p) (Size p)
    (Z.of_nat (length (filter (λ vm, running (VMID vm) = true) (idle p)))) (default "" (baseSnapshot p)).

Record FunctionResult := mkResult { StatusCode : Z; r_VMID : Z; ColdStart : bool; r_Error : string }.

(** The error of [PutMMDS], if it has one, is an argument. The machine goes back
    to the pool when the call returns. *)
Definition InvokeFunction (putMMDS : option string) (p : Pool) : result string FunctionResult * (Pool * list Z) :=
  match Claim p with
  | (None, p) => (Err "no idle VMs available, cold start required", (p, []))
  | (Some vm, p) =>
      (Ok (match putMMDS with
           | Some e => mkResult 500 (VMID vm) false ("failed to inject function payload: " +:+ e)
           | None => mkResult 202 (VMID vm) false ""
           end), Release vm p)
  end.
End clients.

(** *** Invariants *)

(** A pool, and who holds which machine. *)
Record system := mkSystem { pool : Pool; held : list (nat * Z) }.

(** A user claims a machine or releases one, which also adds it to the pool when it is
    new. *)
Inductive op :=
| OClaim (user : nat) (running : Z → bool)
| ORelease (user : nat) (vm : PooledVM)
| OMaintain (running : Z → bool) (now : Z)
| OStop.

Definition perform (s : system) (o : op) : system :=
  match o with
  | OClaim user running =>
      match Claim running (pool s) with
      | (Some vm, p) => mkSystem p (held s ++ [(user, VMID vm)])
      | (None, p) => mkSystem p (held s)
      end
  | ORelease user vm => mkSystem (Release vm (pool s)).1 (filter (λ h, h ≠ (user, VMID vm)) (held s))
  | OMaintain running now => mkSystem (maintain running now (pool s)).1 (held s)
  | OStop => mkSystem (Stop (pool s)).1 (held s)
  end.

(** The machines in the pool and with users. *)
Definition ids (s : system) : list Z := (VMID <$> idle (pool s)) ++ (snd <$> held s).

(** A machine is released by a user who holds it, or it is new. [Release] does not
    check this. *)
Definition disciplined (s : system) (o : op) : Prop :=
  match o with
  | ORelease user vm => (user, VMID vm) ∈ held s ∨ VMID vm ∉ ids s
  | _ => True
  end.

Fixpoint disciplined_run (s : system) (os : list op) : Prop :=
  match os with [] => True | o :: os => disciplined s o ∧ disciplined_run (perform s o) os end.

Definition bounded (s : system) : Prop := Size (pool s) <= maxSize (pool s).

Lemma foldr_unregister l p :
  idle (foldr unregister p l) = idle p ∧ maxSize (foldr unregister p l) = maxSize p ∧
  minIdle (foldr unregister p l) = minIdle p ∧ registry (foldr unregister p l) = registry p ∖ list_to_set l.
Proof.
  induction l as [|i l IH]; simpl; [split_and!; try done; set_solver|]. destruct IH as (? & ? & ? & ->).
  split_and!; try done. set_solver.
Qed.

Lemma claim_spec running u l vm rest :
  claim running u l = Some (vm, rest) → ∃ a b, l = a ++ vm :: b ∧ rest = a ++ b.
Proof.
  revert rest. induction l as [|x l IH]; intros rest; simpl; [done|].
  destruct (_ && _).
  - intros [= <- <-]. by exists [], l.
  - destruct (claim running u l) as [[found r]|]; [|done]. simpl. intros [= <- <-].
    destruct (IH r eq_refl) as (a & b & -> & ->). by exists (x :: a), b.
Qed.

(** The sweep keeps machines that run, in their order: every one that runs and is
    not expired, and no fewer than the minimum if so many run. *)
Lemma sweep_spec running now min timeout l kept removed killed :
  let r := sweep running now min timeout l kept removed killed in
  ∃ more, r.1.1 = kept ++ more ∧ more `sublist_of` l ∧
    Forall (λ vm, running (VMID vm) = true) more ∧
    (∀ vm, vm ∈ l → running (VMID vm) = true → time_sub now (CreatedAt vm) <= timeout → vm ∈ more) ∧
    Z.min min (Z.of_nat (length kept + length (filter (λ vm, running (VMID vm) = true) l)))
      <= Z.of_nat (length r.1.1).
Proof.
  revert kept removed killed. induction l as [|vm l IH]; intros kept removed killed; simpl.
  { exists []. rewrite app_nil_r. split_and!; [done|done|done|set_solver|simpl; lia]. }
  rewrite filter_cons. destruct (_ && _) eqn:E; [|destruct (running (VMID vm)) eqn:Er; simpl].
  - apply andb_true_iff in E as [E1 E2]. zbool.
    destruct (IH kept (removed ++ [VMID vm]) (killed ++ [VMID vm])) as (more & Hr & Hs & Hf & Hk & Hl).
    exists more. split_and!; [done|by apply sublist_cons|done| |rewrite Hr, length_app in *; lia].
    intros x [->|Hx]%elem_of_cons Hrun Ht; [lia|by apply Hk].
  - destruct (IH (kept ++ [vm]) removed killed) as (more & Hr & Hs & Hf & Hk & Hl).
    exists (vm :: more). rewrite Hr, <- app_assoc in *. split_and!;
      [done|by apply sublist_skip|by constructor| |].
    + intros x [->|Hx]%elem_of_cons Hrun Ht; [by left|right; by apply Hk].
    + rewrite !length_app in *. simpl in *. lia.
  - destruct (IH kept (removed ++ [VMID vm]) killed) as (more & Hr & Hs & Hf & Hk & Hl).
    exists more. split_and!; [done|by apply sublist_cons|done| |].
    + intros x [->|Hx]%elem_of_cons Hrun Ht; [congruence|by apply Hk].
    + done.
Qed.

(** What becomes of the machines in the pool. *)
Lemma maintained running now p :
  idle (maintain running now p).1 `sublist_of` idle p ∧ maxSize (maintain running now p).1 = maxSize p.
Proof.
  unfold maintain. pose proof (sweep_spec running now (minIdle p) (idleTimeout p) (idle p) [] [] []) as H.
  destruct (sweep _ _ _ _ _ _ _ _) as [[kept removed] killed]. simpl in H. destruct H as (more & -> & Hs & _). simpl.
  destruct (foldr_unregister removed (set_idle more p)) as (-> & -> & _ & _). done.
Qed.

Lemma stopped p : idle (Stop p).1 = [] ∧ maxSize (Stop p).1 = maxSize p.
Proof. split; [done|]. simpl. apply foldr_unregister. Qed.

Lemma perform_bounded s o : bounded s → bounded (perform s o).
Proof.
  unfold bounded, Size. intros Hb. destruct o as [user running|user vm|running now|]; cbn [perform].
  - unfold Claim. destruct (claim _ _ _) as [[vm rest]|] eqn:E; [|done].
    apply claim_spec in E as (a & b & Hi & ->). rewrite Hi in Hb. simpl. rewrite !length_app in *. simpl in *. lia.
  - unfold Release. simpl. destruct (_ <=? _) eqn:E; simpl; zbool; [done|]. rewrite length_app. simpl. lia.
  - cbn [pool]. destruct (maintained running now (pool s)) as [Hs ->]. apply sublist_length in Hs. lia.
  - cbn [pool]. destruct (stopped (pool s)) as [-> ->]. simpl. lia.
Qed.

(** Releasing a machine that is held, or new, leaves each machine in one place. *)
Lemma release_once user vm s :
  NoDup (ids s) → disciplined s (ORelease user vm) → NoDup (ids (perform s (ORelease user vm))).
Proof.
  unfold ids. intros Hn Hd. cbn [perform pool held].
  set (h' := filter (λ h, h ≠ (user, VMID vm)) (held s)).
  assert (h' `sublist_of` held s) as Hsub by apply list.sublist_filter.
  assert (VMID vm ∉ (VMID <$> idle (pool s)) ++ (snd <$> h')) as Hnew.
  { intros [Hi|Hh]%elem_of_app.
    - destruct Hd as [Hd|Hd]; [|by apply Hd, elem_of_app; left].
      apply list.NoDup_app in Hn as (_ & Hdis & _). eapply Hdis; [exact Hi|].
      apply (list_elem_of_fmap_2 snd) in Hd. exact Hd.
    - apply list_elem_of_fmap in Hh as ([u i] & Hi & Hh). simpl in Hi. subst i.
      apply list_elem_of_filter in Hh as [Hne Hh]. destruct Hd as [Hd|Hd].
      + apply list.NoDup_app in Hn as (_ & _ & Hn). by apply Hne, (nodup_key snd (held s)).
      + apply Hd, elem_of_app. right. apply (list_elem_of_fmap_2 snd) in Hh. exact Hh. }
  assert (NoDup ((VMID <$> idle (pool s)) ++ (snd <$> h'))) as Hn'.
  { eapply sublist_NoDup; [exact Hn|]. apply sublist_app; [done|]. by apply fmap_sublist. }
  unfold Release. simpl. destruct (_ <=? _); simpl; [done|].
  apply (NoDup_Permutation_proper (VMID vm :: ((VMID <$> idle (pool s)) ++ (snd <$> h')))).
  - rewrite fmap_app. simpl. solve_Permutation.
  - by apply list.NoDup_cons.
Qed.

Lemma perform_once s o : NoDup (ids s) → disciplined s o → NoDup (ids (perform s o)).
Proof.
  intros Hn Hd. destruct o as [user running|user vm|running now|]; [|by apply release_once|..]; clear Hd; unfold ids in *; cbn [perform].
  - unfold Claim. destruct (claim _ _ _) as [[vm rest]|] eqn:E; [|done].
    apply claim_spec in E as (a & b & Hi & ->). rewrite Hi in Hn. simpl. revert Hn. apply NoDup_Permutation_proper.
    rewrite !fmap_app, fmap_cons. simpl. solve_Permutation.
  - cbn [pool held]. eapply sublist_NoDup; [exact Hn|]. apply sublist_app; [|done]. apply fmap_sublist, maintained.
  - cbn [pool held]. rewrite (proj1 (stopped (pool s))). by apply list.NoDup_app in Hn as (_ & _ & Hn).
Qed.

(** C31: For every sequence of calls the pool holds no more machines than its maximum. If
    moreover a machine is only released by a user who holds it, or is new, no machine
    is in the pool twice, in it and with a user, or with two users. *)
Theorem pool_exclusive maxSize minIdle idleTimeout registry os :
  let s0 := mkSystem (NewPool maxSize minIdle idleTimeout registry) [] in
  let s := foldl perform s0 os in
  Size (pool s) <= Pool.maxSize (pool s) ∧
  (disciplined_run s0 os → NoDup ((VMID <$> idle (pool s)) ++ (snd <$> held s))).
Proof.
  intros s0 s. assert (bounded s0 ∧ NoDup (ids s0)) as [Hb Hn].
  { split; [unfold bounded, Size; simpl; destruct (maxSize <=? 0) eqn:E; zbool; lia|constructor]. }
  unfold s. clearbody s0. clear s. revert s0 Hb Hn. induction os as [|o os IH]; intros s0 Hb Hn; [done|].
  cbn [foldl disciplined_run]. split.
  - clear Hn. revert Hb. clear IH. intros Hb. change (bounded (foldl perform (perform s0 o) os)).
    apply (perform_bounded s0 o) in Hb. revert Hb. generalize (perform s0 o).
    induction os as [|o' os IH']; intros t Ht; [done|]. by apply IH', perform_bounded.
  - intros [Ho Hos]. apply (IH (perform s0 o)); [by apply perform_bounded|by apply perform_once|done].
Qed.

(** Maintenance keeps only machines that run, all of them that are not expired,
    and at least the minimum if so many run. *)
Theorem maintain_keeps running now p p' killed :
  maintain running now p = (p', killed) →
  idle p' `sublist_of` idle p ∧ Forall (λ vm, running (VMID vm) = true) (idle p') ∧
  (∀ vm, vm ∈ idle p → running (VMID vm) = true → time_sub now (CreatedAt vm) <= idleTimeout p → vm ∈ idle p') ∧
  Z.min (minIdle p) (Z.of_nat (length (filter (λ vm, running (VMID vm) = true) (idle p)))) <= Size p'.
Proof.
  unfold maintain. pose proof (sweep_spec running now (minIdle p) (idleTimeout p) (idle p) [] [] []) as H.
  destruct (sweep _ _ _ _ _ _ _ _) as [[kept removed] killed']. simpl in H. destruct H as (more & -> & H).
  intros [= <- _]. destruct (foldr_unregister removed (set_idle more p)) as (Hi & _).
  unfold Size. rewrite Hi. simpl. destruct H as (? & ? & ? & ?). done.
Qed.
End Pool.

(** ** The resource tracker *)

Module Tracker.

Record ResourceAllocation := mkAllocation {
  ResourceID : string; ResourceType : string; ProjectID : Z; UserID : Z; AllocatedAt : Z;
  Metadata : gmap string string
}.

#[export] Instance ResourceAllocation_eq : EqDecision ResourceAllocation.
Proof. solve_decision. Defined.

Abbreviation ResourceTracker := (gmap string ResourceAllocation).

Definition NewResourceTracker : ResourceTracker := ∅.
Definition Track (alloc : ResourceAllocation) (rt : ResourceTracker) : ResourceTracker :=
  <[ResourceID alloc := alloc]> rt.
Definition Release (resourceID : string) (rt : ResourceTracker) : ResourceTracker := delete resourceID rt.
Definition Get (resourceID : string) (rt : ResourceTracker) : option ResourceAllocation := rt !! resourceID.
Definition ListByProject (projectID : Z) (rt : ResourceTracker) : list ResourceAllocation :=
  filter (λ a, ProjectID a = projectID) (snd <$> map_to_list rt).
Definition Count (rt : ResourceTracker) : nat := size rt.

Inductive op := OTrack (alloc : ResourceAllocation) | ORelease (resourceID : string).

#[export] Instance op_eq : EqDecision op.
Proof. solve_decision. Defined.

Definition perform (rt : ResourceTracker) (o : op) : ResourceTracker :=
  match o with OTrack alloc => Track alloc rt | ORelease id => Release id rt end.

(** The allocation of a resource that was made last and not released. *)
Fixpoint latest (id : string) (os : list op) : option ResourceAllocation :=
  match os with
  | [] => None
  | OTrack alloc :: os =>
      match latest id os with
      | Some a => Some a
      | None => if decide (ResourceID alloc = id ∧ ORelease id ∉ os) then Some alloc else None
      end
  | ORelease _ :: os => latest id os
  end.

Lemma perform_lookup os id rt :
  Get id (foldl perform rt os)
  = match latest id os with
    | Some a => Some a
    | None => if decide (ORelease id ∈ os) then None else rt !! id
    end.
Proof.
  unfold Get. revert rt. induction os as [|o os IH]; intros rt; [done|]. simpl. rewrite IH.
  destruct o as [alloc|id']; simpl.
  - destruct (latest id os) as [a|] eqn:El; [done|]. unfold Track.
    repeat case_decide; rewrite ?elem_of_cons in *; try naive_solver.
    + destruct H0 as [<- _]. by rewrite lookup_insert_eq.
    + rewrite lookup_insert_ne; [done|naive_solver].
  - destruct (latest id os) as [a|] eqn:El; [done|]. unfold Release.
    repeat case_decide; rewrite ?elem_of_cons in *; try naive_solver.
    + destruct H0 as [[= ->]|?]; [apply lookup_delete_eq|done].
    + rewrite lookup_delete_ne; [done|naive_solver].
Qed.

(** A project's list are the resources that were tracked for it last and not
    released since. *)
Theorem tracked_resources os projectID a :
  let rt := foldl perform NewResourceTracker os in
  a ∈ ListByProject projectID rt ↔ ProjectID a = projectID ∧ ∃ id, latest id os = Some a.
Proof.
  intros rt. unfold ListByProject. rewrite list_elem_of_filter, list_elem_of_fmap.
  apply and_iff_compat_l. split.
  - intros ([id a'] & -> & Hin%elem_of_map_to_list). exists id. simpl.
    pose proof (perform_lookup os id NewResourceTracker) as H. unfold Get in H. fold rt in H.
    rewrite Hin in H. destruct (latest id os); [congruence|]. by case_decide.
  - intros (id & Hl). exists (id, a). split; [done|]. apply elem_of_map_to_list.
    pose proof (perform_lookup os id NewResourceTracker) as H. unfold Get in H. fold rt in H.
    by rewrite Hl in H.
Qed.
End Tracker.

(** ** The task queue *)

Module Tasks.
Section queue.
Context {task : Type}.

(** A worker waits in its [select], runs a task, or has returned. *)
Inductive worker := Waiting | Running (t : task) | Returned.

(** The channel of tasks, whether the channel of [Stop] is closed, and the workers;
    [started] and [finished] record the tasks that were taken and done. *)
Record TaskQueue := mkQueue {
  taskCh : list task; stopCh : bool; workers : list worker; started : list task; finished : list task
}.

Definition capacity : nat := 100.

Definition NewTaskQueue (n : Z) : TaskQueue :=
  mkQueue [] false (replicate (if n <=? 0 then 5%nat else Z.to_nat n) Waiting) [] [].

(** A [select] with several cases that are ready takes any of them. *)
Inductive event :=
| Queued (t : task)    (* Submit sends the task *)
| Closed (t : task)    (* Submit answers that the queue is closed *)
| Full (t : task)      (* Submit answers that the queue is full *)
| Take (i : nat)       (* worker [i] receives a task *)
| Finish (i : nat)     (* worker [i] has executed its task, with or without error *)
| Leave (i : nat)      (* worker [i] sees the stop *)
| Stop.                (* Stop closes its channel *)

Definition Submit (q : TaskQueue) (t : task) : list event :=
  (if (length (taskCh q) <? capacity)%nat then [Queued t] else [])
  ++ (if stopCh q then [Closed t] else [])
  ++ (if (capacity <=? length (taskCh q))%nat && negb (stopCh q) then [Full t] else []).

Definition set_worker (i : nat) (w : worker) (q : TaskQueue) : TaskQueue :=
  mkQueue (taskCh q) (stopCh q) (<[i := w]> (workers q)) (started q) (finished q).

(** One step, if the event can happen; a second [Stop] panics. *)
Definition step (q : TaskQueue) (e : event) : option TaskQueue :=
  match e with
  | Queued t =>
      if (length (taskCh q) <? capacity)%nat
      then Some (mkQueue (taskCh q ++ [t]) (stopCh q) (workers q) (started q) (finished q)) else None
  | Closed t => if stopCh q then Some q else None
  | Full t => if (capacity <=? length (taskCh q))%nat && negb (stopCh q) then Some q else None
  | Take i =>
      match workers q !! i, taskCh q with
      | Some Waiting, t :: ts =>
          Some (mkQueue ts (stopCh q) (<[i := Running t]> (workers q)) (started q ++ [t]) (finished q))
      | _, _ => None
      end
  | Finish i =>
      match workers q !! i with
      | Some (Running t) =>
          Some (mkQueue (taskCh q) (stopCh q) (<[i := Waiting]> (workers q)) (started q) (finished q ++ [t]))
      | _ => None
      end
  | Leave i =>
      match workers q !! i with
      | Some Waiting => if stopCh q then Some (set_worker i Returned q) else None
      | _ => None
      end
  | Stop => if stopCh q then None else Some (mkQueue (taskCh q) true (workers q) (started q) (finished q))
  end.

Fixpoint run (q : TaskQueue) (es : list event) : option TaskQueue :=
  match es with [] => Some q | e :: es => q ← step q e; run q es end.

(** The tasks that were accepted, in order. *)
Definition accepted (es : list event) : list task :=
  omap (λ e, match e with Queued t => Some t | _ => None end) es.

(** The tasks that are being executed. *)
Definition executing (ws : list worker) : list task :=
  omap (λ w, match w with Running t => Some t | _ => None end) ws.

(** The workers alone. *)
Definition by_worker (e : event) : bool := match e with Take _ | Finish _ => true | _ => false end.

Lemma executing_insert i w w' (l : list worker) :
  l !! i = Some w → executing (<[i := w']> l) ++ executing [w] ≡ₚ executing [w'] ++ executing l.
Proof.
  unfold executing. revert i. induction l as [|x l IH]; intros [|i] Hi; simplify_eq/=.
  - destruct w, w'; simpl; rewrite ?app_nil_r; try done; try solve_Permutation;
      rewrite Permutation_app_comm; done.
  - specialize (IH i Hi). destruct x; simpl in *; rewrite <- ?Permutation_middle; [done| |done].
    rewrite <- IH. destruct w'; simpl; done.
Qed.

Lemma executing_cons w ws :
  executing (w :: ws) = match w with Running t => t :: executing ws | _ => executing ws end.
Proof. by destruct w. Qed.

Lemma executing_le ws : (length (executing ws) <= length ws)%nat.
Proof. induction ws as [|w ws IH]; [done|]. rewrite executing_cons. destruct w; simpl; lia. Qed.

Lemma elem_of_insert (ws : list worker) i x y : y ∈ <[i := x]> ws → y = x ∨ y ∈ ws.
Proof.
  intros (j & Hj)%list_elem_of_lookup. apply list_lookup_insert_Some in Hj as [(_ & -> & _)|[_ Hj]]; [by left|].
  right. by eapply list_elem_of_lookup_2.
Qed.

Lemma executing_taken ws i t : ws !! i = Some Waiting → executing (<[i := Running t]> ws) ≡ₚ t :: executing ws.
Proof. intros H. pose proof (executing_insert i Waiting (Running t) _ H) as E. by rewrite app_nil_r in E. Qed.

Lemma executing_finished ws i t :
  ws !! i = Some (Running t) → executing ws ≡ₚ t :: executing (<[i := Waiting]> ws).
Proof.
  intros H. pose proof (executing_insert i (Running t) Waiting _ H) as E. simpl in E.
  rewrite <- E. by rewrite <- Permutation_cons_append.
Qed.

Lemma executing_left ws i : ws !! i = Some Waiting → executing (<[i := Returned]> ws) ≡ₚ executing ws.
Proof. intros H. pose proof (executing_insert i Waiting Returned _ H) as E. by rewrite app_nil_r in E. Qed.

(** Tasks are neither lost nor made up: the accepted ones are those that were taken
    followed by those that wait, and the taken ones are done or being executed. *)
Definition accounted (n : nat) (acc : list task) (q : TaskQueue) : Prop :=
  acc = started q ++ taskCh q ∧ started q ≡ₚ finished q ++ executing (workers q) ∧
  (length (taskCh q) <= capacity)%nat ∧ length (workers q) = n ∧
  (stopCh q = false → Returned ∉ workers q).

Lemma step_accounted n acc q e q' :
  step q e = Some q' → accounted n acc q → accounted n (acc ++ accepted [e]) q'.
Proof.
  intros E (Ha & Hs & Hc & Hn & Hr).
  assert (accounted n (acc ++ []) q) as Hsame by (rewrite app_nil_r; done).
  destruct e; simpl in E.
  - destruct (_ <? _)%nat eqn:El; [|done]. apply Nat.ltb_lt in El. simplify_eq. split_and!; try done; simpl.
    + by rewrite <- app_assoc.
    + rewrite length_app. simpl. lia.
  - destruct (stopCh q); [|done]. by simplify_eq.
  - destruct (_ && _); [|done]. by simplify_eq.
  - destruct (workers q !! i) as [[]|] eqn:Ew; try done. destruct (taskCh q) as [|t ts] eqn:Et; [done|].
    simplify_eq. split_and!; simpl; rewrite ?app_nil_r.
    + by rewrite <- app_assoc.
    + rewrite Hs, (executing_taken _ i t Ew). solve_Permutation.
    + simpl in Hc. lia.
    + by rewrite length_insert.
    + intros Hst Hin. apply elem_of_insert in Hin as [?|?]; [done|]. by apply Hr.
  - destruct (workers q !! i) as [[]|] eqn:Ew; try done. simplify_eq. split_and!; simpl; rewrite ?app_nil_r; try done.
    + rewrite Hs, (executing_finished _ i t Ew). solve_Permutation.
    + by rewrite length_insert.
    + intros Hst Hin. apply elem_of_insert in Hin as [?|?]; [done|]. by apply Hr.
  - destruct (workers q !! i) as [[]|] eqn:Ew; try done. destruct (stopCh q) eqn:Es; [|done].
    simplify_eq. split_and!; simpl; rewrite ?app_nil_r; try done.
    + by rewrite Hs, (executing_left _ i Ew).
    + by rewrite length_insert.
    + by rewrite Es.
  - destruct (stopCh q); [done|]. simplify_eq. split_and!; simpl; rewrite ?app_nil_r; done.
Qed.

Lemma run_accounted n es : ∀ acc q q',
  run q es = Some q' → accounted n acc q → accounted n (acc ++ accepted es) q'.
Proof.
  induction es as [|e es IH]; intros acc q q' E Ha; simpl in E; [simplify_eq; by rewrite app_nil_r|].
  destruct (step q e) as [q1|] eqn:Es; [|done]. simpl in E.
  pose proof (IH _ _ _ E (step_accounted _ _ _ _ _ Es Ha)) as H. rewrite <- app_assoc in H.
  assert (accepted (e :: es) = accepted [e] ++ accepted es) as -> by (by destruct e). done.
Qed.

Lemma new_accounted n :
  let m := if n <=? 0 then 5%nat else Z.to_nat n in (0 < m)%nat ∧ accounted m [] (NewTaskQueue n).
Proof.
  intros m. split; [unfold m; destruct (n <=? 0) eqn:E; zbool; lia|]. split_and!; simpl; try done.
  - unfold executing. simpl. fold m. by induction m.
  - unfold capacity. lia.
  - apply length_replicate.
  - intros _ Hin. apply elem_of_replicate_inv in Hin. done.
Qed.

(** Every accepted task is taken once, in the order of acceptance; at most 100 wait
    and no more are executed at a time than there are workers. *)
Theorem tasks_in_order n es q :
  run (NewTaskQueue n) es = Some q →
  accepted es = started q ++ taskCh q ∧ started q ≡ₚ finished q ++ executing (workers q) ∧
  (length (taskCh q) <= 100)%nat ∧ Z.of_nat (length (executing (workers q))) <= Z.max 5 n.
Proof.
  intros E. destruct (new_accounted n) as [_ H0].
  pose proof (run_accounted _ es [] _ _ E H0) as (Ha & Hs & Hc & Hn & _). split_and!; [done..|].
  assert (length (executing (workers q)) <= length (workers q))%nat as Hle.
  { apply executing_le. }
  rewrite Hn in Hle. destruct (n <=? 0) eqn:En; zbool; lia.
Qed.

(** What the workers still have to do. *)
Definition pending (q : TaskQueue) : nat := 2 * length (taskCh q) + length (executing (workers q)).

Lemma step_pending q e q' :
  by_worker e = true → step q e = Some q' → (pending q' < pending q)%nat ∧ stopCh q' = stopCh q.
Proof.
  intros Hw E. destruct e; try done; simpl in E.
  - destruct (workers q !! i) as [[]|] eqn:Ew; try done. destruct (taskCh q) as [|t ts] eqn:Et; [done|].
    simplify_eq. split; [|done]. unfold pending. simpl. rewrite Et, (executing_taken _ i t Ew). simpl. lia.
  - destruct (workers q !! i) as [[]|] eqn:Ew; try done. simplify_eq. split; [|done]. unfold pending. simpl.
    rewrite (executing_finished _ i t Ew). simpl. lia.
Qed.

Lemma run_pending es : ∀ q q',
  Forall (λ e, by_worker e = true) es → run q es = Some q' →
  (length es + pending q' <= pending q)%nat ∧ stopCh q' = stopCh q ∧ accepted es = [].
Proof.
  induction es as [|e es IH]; intros q q' Hf E; simpl in E; [by simplify_eq|].
  apply list.Forall_cons in Hf as [He Hf]. destruct (step q e) as [q1|] eqn:Es; [|done]. simpl in E.
  destruct (step_pending _ _ _ He Es) as [Hp Hs]. destruct (IH _ _ Hf E) as (Hl & Hs' & Ha).
  split_and!; [simpl; lia|congruence|]. by destruct e.
Qed.

(** The workers can do something, or nothing is left to do. *)
Lemma progress n acc q :
  (0 < n)%nat → accounted n acc q → stopCh q = false →
  (∃ e q', by_worker e = true ∧ step q e = Some q') ∨ taskCh q = [] ∧ executing (workers q) = [].
Proof.
  intros Hn (_ & _ & _ & Hlen & Hr) Hs. specialize (Hr Hs).
  destruct (executing (workers q)) as [|t l] eqn:Ex.
  - destruct (taskCh q) as [|t ts] eqn:Et; [by right|]. left.
    destruct (workers q) as [|w ws] eqn:Ew; [simpl in Hlen; lia|]. rewrite executing_cons in Ex.
    destruct w; [|done|exfalso; apply Hr; by left]. exists (Take 0). eexists. split; [done|]. simpl.
    by rewrite Ew, Et.
  - left. assert (t ∈ executing (workers q)) as Hin by (rewrite Ex; by left).
    unfold executing in Hin. apply list_elem_of_omap in Hin as (w & Hw & Hwt).
    apply list_elem_of_lookup in Hw as (i & Hi). destruct w; try done. simplify_eq.
    exists (Finish i). eexists. split; [done|]. simpl. by rewrite Hi.
Qed.

(** C17: While the queue is not stopped, the workers end up having executed every task
    that was accepted: each thing they do brings them nearer to it, and they can
    always do something until it is reached. *)
Theorem tasks_executed n es q :
  run (NewTaskQueue n) es = Some q → stopCh q = false →
  (∀ ws q', Forall (λ e, by_worker e = true) ws → run q ws = Some q' → (length ws <= pending q)%nat) ∧
  (∀ ws q', Forall (λ e, by_worker e = true) ws → run q ws = Some q' →
     (∃ e q'', by_worker e = true ∧ step q' e = Some q'') ∨ finished q' ≡ₚ accepted es).
Proof.
  intros E Hs. destruct (new_accounted n) as [Hpos H0]. pose proof (run_accounted _ es [] _ _ E H0) as Hq.
  split; intros ws q' Hf Er; destruct (run_pending ws q q' Hf Er) as (Hl & Hs' & Ha); [lia|].
  pose proof (run_accounted _ ws _ _ _ Er Hq) as Hq'. rewrite Ha, app_nil_r in Hq'.
  rewrite <- Hs' in Hs. destruct (progress _ _ _ Hpos Hq' Hs) as [?|[Ht Hx]]; [by left|right].
  destruct Hq' as (Hacc & Hst & _). rewrite Ht, app_nil_r in Hacc. rewrite Hx, app_nil_r in Hst.
  simpl in Hacc. by rewrite Hacc.
Qed.

(** After [Stop] a task may still be accepted, and if the workers have returned it
    is never executed, although [Submit] reported no error. *)
Theorem stopped_queue_accepts q t es q' :
  stopCh q = true → (∀ w, w ∈ workers q → w = Returned) → (length (taskCh q) < capacity)%nat →
  Queued t ∈ Submit q t ∧
  (run q (Queued t :: es) = Some q' → finished q' = finished q ∧ started q' = started q).
Proof.
  intros Hs Hw Hc. split; [unfold Submit; rewrite (proj2 (Nat.ltb_lt _ _)) by done; by left|].
  generalize (Queued t :: es) as l. clear Hc. intros l. revert q Hs Hw.
  induction l as [|e l IH]; intros q Hs Hw E; simpl in E; [by simplify_eq|].
  destruct (step q e) as [q1|] eqn:E1; [|done]. simpl in E.
  assert (stopCh q1 = true ∧ workers q1 = workers q ∧ finished q1 = finished q ∧ started q1 = started q)
    as (H1 & H2 & H3 & H4).
  { assert (∀ i w, workers q !! i = Some w → w = Returned) as Hi
      by (intros i w Hi; apply Hw; by eapply list_elem_of_lookup_2).
    destruct e; simpl in E1; repeat case_match; simplify_eq; try done;
      match goal with H : workers q !! _ = Some _ |- _ => by apply Hi in H end. }
  rewrite <- H3, <- H4. apply IH; [done|by rewrite H2|done].
Qed.
End queue.
Arguments worker : clear implicits.
Arguments TaskQueue : clear implicits.
Arguments event : clear implicits.
End Tasks.

(** ** Examples *)

Lemma tasks_in_order_witness :
  let es := [Tasks.Queued 7; Tasks.Take 0; Tasks.Queued 8; Tasks.Take 1; Tasks.Finish 1] in
  ∃ q, Tasks.run (Tasks.NewTaskQueue 2) es = Some q ∧ Tasks.accepted es = Tasks.started q ++ Tasks.taskCh q ∧
    Tasks.finished q = [8].
Proof.
  intros es. destruct (Tasks.run (Tasks.NewTaskQueue 2) es) as [q|] eqn:E; [|vm_compute in E; discriminate].
  exists q. split; [done|]. split; [exact (proj1 (Tasks.tasks_in_order 2 es q E))|].
  vm_compute in E. injection E as <-. reflexivity.
Defined.

Lemma tasks_executed_witness :
  let es := [Tasks.Queued 7; Tasks.Take 0; Tasks.Queued 8] in
  ∃ q, Tasks.run (Tasks.NewTaskQueue 1) es = Some q ∧ Tasks.pending q = 3%nat ∧
    ((∃ e q', Tasks.by_worker e = true ∧ Tasks.step q e = Some q') ∨ Tasks.finished q ≡ₚ [7; 8]).
Proof.
  intros es. destruct (Tasks.run (Tasks.NewTaskQueue 1) es) as [q|] eqn:E; [|vm_compute in E; discriminate].
  exists q. split; [done|]. split; [vm_compute in E; injection E as <-; reflexivity|].
  refine (proj2 (Tasks.tasks_executed 1 es q E _) [] q (list.Forall_nil_2 _) eq_refl).
  vm_compute in E. injection E as <-. reflexivity.
Defined.

Lemma stopped_queue_accepts_witness :
  ∃ q, Tasks.run (Tasks.NewTaskQueue 1) [Tasks.Stop; Tasks.Leave 0] = Some q ∧ Tasks.Queued 7 ∈ Tasks.Submit q 7.
Proof.
  destruct (Tasks.run (Tasks.NewTaskQueue 1) [Tasks.Stop; Tasks.Leave 0]) as [q|] eqn:E;
    [|vm_compute in E; discriminate].
  exists q. split; [done|]. vm_compute in E. injection E as <-.
  refine (proj1 (Tasks.stopped_queue_accepts _ 7 [] (Tasks.mkQueue [7] true [Tasks.Returned] [] []) _ _ _));
    [reflexivity| |unfold Tasks.capacity; simpl; lia].
  intros w Hw. by apply list_elem_of_singleton in Hw.
Defined.

Lemma maintain_keeps_witness :
  let vm id := Pool.mkVM id 0 in
  let p := Pool.mkPool [vm 1; vm 2; vm 3; vm 4] 10 2 (5 * minute) {[1; 2; 3; 4]} None ∅ in
  let running id := negb (id =? 1) in
  Z.min 2 3 <= Pool.Size (Pool.maintain running (hour) p).1.
Proof.
  intros vm p running.
  exact (proj2 (proj2 (proj2 (Pool.maintain_keeps running hour p (Pool.maintain running hour p).1
    (Pool.maintain running hour p).2 ltac:(by destruct (Pool.maintain running hour p)))))).
Defined.

(** A new machine, claimed by one user, released and claimed by another. *)
Lemma pool_exclusive_witness :
  let vm := Pool.mkVM 1 0 in
  let os := [Pool.ORelease 0 vm; Pool.OClaim 1 (λ _, true); Pool.ORelease 1 vm; Pool.OClaim 2 (λ _, true)] in
  let s := foldl Pool.perform (Pool.mkSystem (Pool.NewPool 2 1 0 ∅) []) os in
  Pool.held s = [(2%nat, 1)] ∧ NoDup ((Pool.VMID <$> Pool.idle (Pool.pool s)) ++ (snd <$> Pool.held s)).
Proof.
  intros vm os s. split; [vm_compute; reflexivity|].
  refine (proj2 (Pool.pool_exclusive 2 1 0 ∅ os) _). vm_compute. split; [right; intros H; inversion H|].
  split; [done|]. split; [left; left|]. done.
Defined.

(** The pool does not check who releases a machine: a user who releases one twice puts
    it back while another user has it, and a third user claims it. *)
Theorem released_twice :
  let vm := Pool.mkVM 1 0 in
  let run := Pool.OClaim in
  let os := [Pool.ORelease 0 vm; run 1%nat (λ _, true); Pool.ORelease 1 vm; run 2%nat (λ _, true);
             Pool.ORelease 1 vm; run 3%nat (λ _, true)] in
  Pool.held (foldl Pool.perform (Pool.mkSystem (Pool.NewPool 2 1 0 ∅) []) os) = [(2%nat, 1); (3%nat, 1)].
Proof. vm_compute. reflexivity. Qed.
