(* ===== verification/Compute.v ===== *)
(** * The compute service

    internal/management/compute: instances and the steps of their workflows
    (models.go, workflow_steps.go, agent_client.go) and the handlers of instances
    (handler_instance.go, service.go); flavors and migrations are in Migration.v.
    The steps are those of the engine of Workflow.v, and act on the address tables
    of Ipam.v, on the hosts and on the volumes. The theorems say that a payload is
    read back, what a creation and a deletion leave behind, and what is left of
    both in the service as it is put together. *)
From Stdlib Require Import Ascii.
From S2P Require Import Prelude GoStrings Utf8 NetIP Http Json Tables.
From S2P Require Ipam Workflow Modules.
Local Open Scope Z_scope.

(** ** Instances and their payloads *)

(** [models.Instance]. The flavor and the image of a payload are zero, since the
    handlers do not load them; they, the metadata and the times, which no step
    reads, are left out. *)
Record Instance := mkInstance {
  i_ID : Z; i_Name : string; i_UUID : string; i_VMID : string;
  i_RootDiskGB : Z; i_FlavorID : Z; i_ImageID : Z; i_Status : string;
  i_PowerState : string; i_UserID : Z; i_ProjectID : Z; i_HostID : string;
  i_NodeAddress : string; i_IPAddress : string; i_RootRBDImage : string; i_FloatingIP : string;
  i_UserData : string; i_SSHKey : string; i_EnableTPM : bool; i_Networks : list (string * string)
}.

Definition set_ID (v : Z) (i : Instance) : Instance :=
  mkInstance v (i_Name i) (i_UUID i) (i_VMID i) (i_RootDiskGB i) (i_FlavorID i) (i_ImageID i)
    (i_Status i) (i_PowerState i) (i_UserID i) (i_ProjectID i) (i_HostID i) (i_NodeAddress i)
    (i_IPAddress i) (i_RootRBDImage i) (i_FloatingIP i) (i_UserData i) (i_SSHKey i)
    (i_EnableTPM i) (i_Networks i).
Definition set_Name (v : string) (i : Instance) : Instance :=
  mkInstance (i_ID i) v (i_UUID i) (i_VMID i) (i_RootDiskGB i) (i_FlavorID i) (i_ImageID i)
    (i_Status i) (i_PowerState i) (i_UserID i) (i_ProjectID i) (i_HostID i) (i_NodeAddress i)
    (i_IPAddress i) (i_RootRBDImage i) (i_FloatingIP i) (i_UserData i) (i_SSHKey i)
    (i_EnableTPM i) (i_Networks i).
Definition set_UUID (v : string) (i : Instance) : Instance :=
  mkInstance (i_ID i) (i_Name i) v (i_VMID i) (i_RootDiskGB i) (i_FlavorID i) (i_ImageID i)
    (i_Status i) (i_PowerState i) (i_UserID i) (i_ProjectID i) (i_HostID i) (i_NodeAddress i)
    (i_IPAddress i) (i_RootRBDImage i) (i_FloatingIP i) (i_UserData i) (i_SSHKey i)
    (i_EnableTPM i) (i_Networks i).
Definition set_VMID (v : string) (i : Instance) : Instance :=
  mkInstance (i_ID i) (i_Name i) (i_UUID i) v (i_RootDiskGB i) (i_FlavorID i) (i_ImageID i)
    (i_Status i) (i_PowerState i) (i_UserID i) (i_ProjectID i) (i_HostID i) (i_NodeAddress i)
    (i_IPAddress i) (i_RootRBDImage i) (i_FloatingIP i) (i_UserData i) (i_SSHKey i)
    (i_EnableTPM i) (i_Networks i).
Definition set_RootDiskGB (v : Z) (i : Instance) : Instance :=
  mkInstance (i_ID i) (i_Name i) (i_UUID i) (i_VMID i) v (i_FlavorID i) (i_ImageID i)
    (i_Status i) (i_PowerState i) (i_UserID i) (i_ProjectID i) (i_HostID i) (i_NodeAddress i)
    (i_IPAddress i) (i_RootRBDImage i) (i_FloatingIP i) (i_UserData i) (i_SSHKey i)
    (i_EnableTPM i) (i_Networks i).
Definition set_FlavorID (v : Z) (i : Instance) : Instance :=
  mkInstance (i_ID i) (i_Name i) (i_UUID i) (i_VMID i) (i_RootDiskGB i) v (i_ImageID i)
    (i_Status i) (i_PowerState i) (i_UserID i) (i_ProjectID i) (i_HostID i) (i_NodeAddress i)
    (i_IPAddress i) (i_RootRBDImage i) (i_FloatingIP i) (i_UserData i) (i_SSHKey i)
    (i_EnableTPM i) (i_Networks i).
Definition set_ImageID (v : Z) (i : Instance) : Instance :=
  mkInstance (i_ID i) (i_Name i) (i_UUID i) (i_VMID i) (i_RootDiskGB i) (i_FlavorID i) v
    (i_Status i) (i_PowerState i) (i_UserID i) (i_ProjectID i) (i_HostID i) (i_NodeAddress i)
    (i_IPAddress i) (i_RootRBDImage i) (i_FloatingIP i) (i_UserData i) (i_SSHKey i)
    (i_EnableTPM i) (i_Networks i).
Definition set_Status (v : string) (i : Instance) : Instance :=
  mkInstance (i_ID i) (i_Name i) (i_UUID i) (i_VMID i) (i_RootDiskGB i) (i_FlavorID i)
    (i_ImageID i) v (i_PowerState i) (i_UserID i) (i_ProjectID i) (i_HostID i) (i_NodeAddress i)
    (i_IPAddress i) (i_RootRBDImage i) (i_FloatingIP i) (i_UserData i) (i_SSHKey i)
    (i_EnableTPM i) (i_Networks i).
Definition set_PowerState (v : string) (i : Instance) : Instance :=
  mkInstance (i_ID i) (i_Name i) (i_UUID i) (i_VMID i) (i_RootDiskGB i) (i_FlavorID i)
    (i_ImageID i) (i_Status i) v (i_UserID i) (i_ProjectID i) (i_HostID i) (i_NodeAddress i)
    (i_IPAddress i) (i_RootRBDImage i) (i_FloatingIP i) (i_UserData i) (i_SSHKey i)
    (i_EnableTPM i) (i_Networks i).
Definition set_UserID (v : Z) (i : Instance) : Instance :=
  mkInstance (i_ID i) (i_Name i) (i_UUID i) (i_VMID i) (i_RootDiskGB i) (i_FlavorID i)
    (i_ImageID i) (i_Status i) (i_PowerState i) v (i_ProjectID i) (i_HostID i) (i_NodeAddress i)
    (i_IPAddress i) (i_RootRBDImage i) (i_FloatingIP i) (i_UserData i) (i_SSHKey i)
    (i_EnableTPM i) (i_Networks i).
Definition set_ProjectID (v : Z) (i : Instance) : Instance :=
  mkInstance (i_ID i) (i_Name i) (i_UUID i) (i_VMID i) (i_RootDiskGB i) (i_FlavorID i)
    (i_ImageID i) (i_Status i) (i_PowerState i) (i_UserID i) v (i_HostID i) (i_NodeAddress i)
    (i_IPAddress i) (i_RootRBDImage i) (i_FloatingIP i) (i_UserData i) (i_SSHKey i)
    (i_EnableTPM i) (i_Networks i).
Definition set_HostID (v : string) (i : Instance) : Instance :=
  mkInstance (i_ID i) (i_Name i) (i_UUID i) (i_VMID i) (i_RootDiskGB i) (i_FlavorID i)
    (i_ImageID i) (i_Status i) (i_PowerState i) (i_UserID i) (i_ProjectID i) v (i_NodeAddress i)
    (i_IPAddress i) (i_RootRBDImage i) (i_FloatingIP i) (i_UserData i) (i_SSHKey i)
    (i_EnableTPM i) (i_Networks i).
Definition set_NodeAddress (v : string) (i : Instance) : Instance :=
  mkInstance (i_ID i) (i_Name i) (i_UUID i) (i_VMID i) (i_RootDiskGB i) (i_FlavorID i)
    (i_ImageID i) (i_Status i) (i_PowerState i) (i_UserID i) (i_ProjectID i) (i_HostID i) v
    (i_IPAddress i) (i_RootRBDImage i) (i_FloatingIP i) (i_UserData i) (i_SSHKey i)
    (i_EnableTPM i) (i_Networks i).
Definition set_IPAddress (v : string) (i : Instance) : Instance :=
  mkInstance (i_ID i) (i_Name i) (i_UUID i) (i_VMID i) (i_RootDiskGB i) (i_FlavorID i)
    (i_ImageID i) (i_Status i) (i_PowerState i) (i_UserID i) (i_ProjectID i) (i_HostID i)
    (i_NodeAddress i) v (i_RootRBDImage i) (i_FloatingIP i) (i_UserData i) (i_SSHKey i)
    (i_EnableTPM i) (i_Networks i).
Definition set_RootRBDImage (v : string) (i : Instance) : Instance :=
  mkInstance (i_ID i) (i_Name i) (i_UUID i) (i_VMID i) (i_RootDiskGB i) (i_FlavorID i)
    (i_ImageID i) (i_Status i) (i_PowerState i) (i_UserID i) (i_ProjectID i) (i_HostID i)
    (i_NodeAddress i) (i_IPAddress i) v (i_FloatingIP i) (i_UserData i) (i_SSHKey i)
    (i_EnableTPM i) (i_Networks i).
Definition set_FloatingIP (v : string) (i : Instance) : Instance :=
  mkInstance (i_ID i) (i_Name i) (i_UUID i) (i_VMID i) (i_RootDiskGB i) (i_FlavorID i)
    (i_ImageID i) (i_Status i) (i_PowerState i) (i_UserID i) (i_ProjectID i) (i_HostID i)
    (i_NodeAddress i) (i_IPAddress i) (i_RootRBDImage i) v (i_UserData i) (i_SSHKey i)
    (i_EnableTPM i) (i_Networks i).
Definition set_UserData (v : string) (i : Instance) : Instance :=
  mkInstance (i_ID i) (i_Name i) (i_UUID i) (i_VMID i) (i_RootDiskGB i) (i_FlavorID i)
    (i_ImageID i) (i_Status i) (i_PowerState i) (i_UserID i) (i_ProjectID i) (i_HostID i)
    (i_NodeAddress i) (i_IPAddress i) (i_RootRBDImage i) (i_FloatingIP i) v (i_SSHKey i)
    (i_EnableTPM i) (i_Networks i).
Definition set_SSHKey (v : string) (i : Instance) : Instance :=
  mkInstance (i_ID i) (i_Name i) (i_UUID i) (i_VMID i) (i_RootDiskGB i) (i_FlavorID i)
    (i_ImageID i) (i_Status i) (i_PowerState i) (i_UserID i) (i_ProjectID i) (i_HostID i)
    (i_NodeAddress i) (i_IPAddress i) (i_RootRBDImage i) (i_FloatingIP i) (i_UserData i) v
    (i_EnableTPM i) (i_Networks i).
Definition set_EnableTPM (v : bool) (i : Instance) : Instance :=
  mkInstance (i_ID i) (i_Name i) (i_UUID i) (i_VMID i) (i_RootDiskGB i) (i_FlavorID i)
    (i_ImageID i) (i_Status i) (i_PowerState i) (i_UserID i) (i_ProjectID i) (i_HostID i)
    (i_NodeAddress i) (i_IPAddress i) (i_RootRBDImage i) (i_FloatingIP i) (i_UserData i)
    (i_SSHKey i) v (i_Networks i).
Definition set_Networks (v : list (string * string)) (i : Instance) : Instance :=
  mkInstance (i_ID i) (i_Name i) (i_UUID i) (i_VMID i) (i_RootDiskGB i) (i_FlavorID i)
    (i_ImageID i) (i_Status i) (i_PowerState i) (i_UserID i) (i_ProjectID i) (i_HostID i)
    (i_NodeAddress i) (i_IPAddress i) (i_RootRBDImage i) (i_FloatingIP i) (i_UserData i)
    (i_SSHKey i) (i_EnableTPM i) v.

Definition zero_Instance : Instance :=
  mkInstance 0 "" "" "" 0 0 0 "" "" 0 0 "" "" "" "" "" "" "" false [].

(** [json.Marshal] of an instance. *)
Definition network_json (n : string * string) : json := JObj [("uuid", JStr n.1); ("ip", JStr n.2)].

(** A slice that is empty is nil. *)
Definition networks_json (l : list (string * string)) : json :=
  match l with [] => JNull | _ => JArr (network_json <$> l) end.

Definition omitempty (k v : string) : list (string * json) := if decide (v = "") then [] else [(k, JStr v)].

Definition instance_json (i : Instance) : json :=
  JObj ([
    ("id", JNum (Itoa (i_ID i))); ("name", JStr (i_Name i)); ("uuid", JStr (i_UUID i));
    ("vm_id", JStr (i_VMID i)); ("root_disk_gb", JNum (Itoa (i_RootDiskGB i)));
    ("flavor_id", JNum (Itoa (i_FlavorID i))); ("image_id", JNum (Itoa (i_ImageID i)));
    ("status", JStr (i_Status i)); ("power_state", JStr (i_PowerState i));
    ("user_id", JNum (Itoa (i_UserID i))); ("project_id", JNum (Itoa (i_ProjectID i)));
    ("host_id", JStr (i_HostID i)); ("node_address", JStr (i_NodeAddress i));
    ("ip_address", JStr (i_IPAddress i)); ("root_rbd_image", JStr (i_RootRBDImage i));
    ("floating_ip", JStr (i_FloatingIP i))]
    ++ omitempty "user_data" (i_UserData i) ++ omitempty "ssh_key" (i_SSHKey i)
    ++ [("enable_tpm", JBool (i_EnableTPM i));
        ("networks", networks_json (i_Networks i))]).

Definition Marshal (i : Instance) : string := Text.marshal (instance_json i).

Section decoding.
Context {unicode : UnicodeTables}.

(** [json.Unmarshal] to an instance; a member belongs to the field whose name it
    has, be it in another case. *)
Definition set_network (k : string) (j : json) (n : string * string) : (string * string) * bool :=
  if EqualFold k "uuid" then Decode.field Decode.string_ fst (λ v n, (v, n.2)) j n
  else if EqualFold k "ip" then Decode.field Decode.string_ snd (λ v n, (n.1, v)) j n
  else (n, true).

Definition set_member (k : string) (j : json) (i : Instance) : Instance * bool :=
  if EqualFold k "id" then Decode.field (Decode.number_ ParseUint64) i_ID set_ID j i
  else if EqualFold k "name" then Decode.field Decode.string_ i_Name set_Name j i
  else if EqualFold k "uuid" then Decode.field Decode.string_ i_UUID set_UUID j i
  else if EqualFold k "vm_id" then Decode.field Decode.string_ i_VMID set_VMID j i
  else if EqualFold k "root_disk_gb" then Decode.field (Decode.number_ ParseInt) i_RootDiskGB set_RootDiskGB j i
  else if EqualFold k "flavor_id" then Decode.field (Decode.number_ ParseUint64) i_FlavorID set_FlavorID j i
  else if EqualFold k "image_id" then Decode.field (Decode.number_ ParseUint64) i_ImageID set_ImageID j i
  else if EqualFold k "status" then Decode.field Decode.string_ i_Status set_Status j i
  else if EqualFold k "power_state" then Decode.field Decode.string_ i_PowerState set_PowerState j i
  else if EqualFold k "user_id" then Decode.field (Decode.number_ ParseUint64) i_UserID set_UserID j i
  else if EqualFold k "project_id" then Decode.field (Decode.number_ ParseUint64) i_ProjectID set_ProjectID j i
  else if EqualFold k "host_id" then Decode.field Decode.string_ i_HostID set_HostID j i
  else if EqualFold k "node_address" then Decode.field Decode.string_ i_NodeAddress set_NodeAddress j i
  else if EqualFold k "ip_address" then Decode.field Decode.string_ i_IPAddress set_IPAddress j i
  else if EqualFold k "root_rbd_image" then Decode.field Decode.string_ i_RootRBDImage set_RootRBDImage j i
  else if EqualFold k "floating_ip" then Decode.field Decode.string_ i_FloatingIP set_FloatingIP j i
  else if EqualFold k "user_data" then Decode.field Decode.string_ i_UserData set_UserData j i
  else if EqualFold k "ssh_key" then Decode.field Decode.string_ i_SSHKey set_SSHKey j i
  else if EqualFold k "enable_tpm" then Decode.field Decode.bool_ i_EnableTPM set_EnableTPM j i
  else if EqualFold k "networks" then Decode.field (Decode.slice (Decode.struct set_network) ("", "")) i_Networks set_Networks j i
  else (i, true).

Definition Unmarshal (payload : string) : Instance * bool :=
  match Text.unmarshal payload with
  | Some j => Decode.struct set_member j zero_Instance
  | None => (zero_Instance, false)
  end.

(** An instance with the bytes of its texts that are not part of UTF-8 replaced. *)
Definition valid_Instance (i : Instance) : Instance :=
  mkInstance (i_ID i) (valid (i_Name i)) (valid (i_UUID i)) (valid (i_VMID i)) (i_RootDiskGB i)
    (i_FlavorID i) (i_ImageID i) (valid (i_Status i)) (valid (i_PowerState i)) (i_UserID i)
    (i_ProjectID i) (valid (i_HostID i)) (valid (i_NodeAddress i)) (valid (i_IPAddress i))
    (valid (i_RootRBDImage i)) (valid (i_FloatingIP i)) (valid (i_UserData i))
    (valid (i_SSHKey i)) (i_EnableTPM i) ((λ n, (valid n.1, valid n.2)) <$> i_Networks i).

(** The integers have the range of their types. *)
Definition ints_ok (i : Instance) : Prop :=
  Forall (λ n, 0 <= n < 2 ^ 64) [i_ID i; i_FlavorID i; i_ImageID i; i_UserID i; i_ProjectID i] ∧
  - 2 ^ 63 <= i_RootDiskGB i < 2 ^ 63.

Lemma network_read_back n : Decode.struct set_network (network_json n) ("", "") = (n, true).
Proof. by destruct n. Qed.

Lemma valid_networks l :
  Text.valid_utf8 (networks_json l) = networks_json ((λ n, (valid n.1, valid n.2)) <$> l).
Proof.
  destruct l as [|n l]; [done|]. rewrite fmap_cons. simpl. f_equal. f_equal.
  rewrite <- !list_fmap_compose. by apply list_fmap_ext.
Qed.

Lemma valid_omitempty k v :
  valid k = k → (Text.valid_member <$> omitempty k v) = omitempty k (valid v).
Proof.
  intros Hk. unfold omitempty. case_decide as Hv; case_decide as Hv'; try done.
  - by rewrite Hv in Hv'.
  - exfalso. by apply Hv, valid_empty.
  - unfold Text.valid_member. rewrite fmap_cons. cbn [fst snd]. by rewrite Hk.
Qed.

Lemma instance_valid i : Text.valid_utf8 (instance_json i) = instance_json (valid_Instance i).
Proof.
  unfold instance_json. cbn [Text.valid_utf8].
  change (λ kv : string * json, (valid kv.1, Text.valid_utf8 kv.2)) with Text.valid_member.
  rewrite !fmap_app, !valid_omitempty by done. f_equal. apply (f_equal2 app); [done|]. do 2 f_equal.
  rewrite !fmap_cons. unfold Text.valid_member at 1 2. cbn [fst snd]. by rewrite valid_networks.
Qed.

Lemma instance_printable i : ints_ok i → Text.printable Text.maxNestingDepth (instance_json i) = true.
Proof.
  intros [Hu Hd]. assert (∃ d, Text.maxNestingDepth = S (S (S d))) as [d ->].
  { exists (Z.to_nat 9997). unfold Text.maxNestingDepth. lia. }
  assert (∀ n, - 2 ^ 63 <= n < 2 ^ 64 → bool_decide (Text.number (Itoa n) = Some (Itoa n, "")) = true) as Hn.
  { intros n H. apply bool_decide_eq_true, Text.number_Itoa. lia. }
  repeat (apply list.Forall_cons in Hu as [? Hu]).
  unfold instance_json, omitempty. cbn [Text.printable]. rewrite !forallb_app. cbn [forallb snd Text.printable].
  rewrite !Hn by lia. simpl. repeat case_decide; simpl; (destruct (i_Networks i) as [|n l]; [done|]);
    apply andb_true_iff; (split; [|done]); apply forallb_elem; intros x Hx;
    change (x ∈ network_json <$> (n :: l)) in Hx; by apply list_elem_of_fmap in Hx as (y & -> & _).
Qed.

Lemma uint_member get put k n i :
  (∀ j, set_member k j i = Decode.field (Decode.number_ ParseUint64) get put j i) →
  0 <= n < 2 ^ 64 → set_member k (JNum (Itoa n)) i = (put n i, true).
Proof. intros -> Hn. by apply Decode.field_ok, Decode.number_ok, ParseUint64_Itoa. Qed.

Lemma int_member get put k n i :
  (∀ j, set_member k j i = Decode.field (Decode.number_ ParseInt) get put j i) →
  - 2 ^ 63 <= n < 2 ^ 63 → set_member k (JNum (Itoa n)) i = (put n i, true).
Proof. intros -> Hn. by apply Decode.field_ok, Decode.number_ok, ParseInt_Itoa. Qed.

Lemma networks_member l i :
  i_Networks i = [] →
  set_member "networks" (networks_json l) i = (set_Networks l i, true).
Proof.
  intros Hi. apply (Decode.field_ok (Decode.slice (Decode.struct set_network) ("", "")) i_Networks set_Networks).
  destruct l as [|n l]; [done|]. apply Decode.slice_all, list.Forall_forall. intros x _. apply network_read_back.
Qed.

Lemma omitempty_member get put k v i :
  (∀ j, set_member k j i = Decode.field Decode.string_ get put j i) → put "" i = i →
  Decode.struct set_member (JObj (omitempty k v)) i = (put v i, true).
Proof.
  intros Hk Hi. unfold omitempty. case_decide as E; [by rewrite E, Hi|].
  etrans; [by apply Decode.struct_cons; rewrite Hk|]. done.
Qed.

(** Decode the next member, and compute the fields. *)
Ltac fields := cbv [
  i_ID i_Name i_UUID i_VMID i_RootDiskGB i_FlavorID i_ImageID i_Status i_PowerState i_UserID
  i_ProjectID i_HostID i_NodeAddress i_IPAddress i_RootRBDImage i_FloatingIP i_UserData i_SSHKey
  i_EnableTPM i_Networks set_ID set_Name set_UUID set_VMID set_RootDiskGB set_FlavorID set_ImageID
  set_Status set_PowerState set_UserID set_ProjectID set_HostID set_NodeAddress set_IPAddress
  set_RootRBDImage set_FloatingIP set_UserData set_SSHKey set_EnableTPM set_Networks zero_Instance].
Tactic Notation "member" tactic(tac) := etrans; [apply Decode.struct_cons; tac|]; fields.

Lemma decode_instance i : ints_ok i → Decode.struct set_member (instance_json i) zero_Instance = (i, true).
Proof.
  intros [Hu Hd]. repeat (apply list.Forall_cons in Hu as [? Hu]). unfold instance_json. etrans; [apply Decode.struct_app|].
  - member (by apply (uint_member i_ID set_ID)). do 3 member (reflexivity).
    member (by apply (int_member i_RootDiskGB set_RootDiskGB)).
    member (by apply (uint_member i_FlavorID set_FlavorID)).
    member (by apply (uint_member i_ImageID set_ImageID)). do 2 member (reflexivity).
    member (by apply (uint_member i_UserID set_UserID)).
    member (by apply (uint_member i_ProjectID set_ProjectID)). do 5 member (reflexivity). reflexivity.
  - etrans; [apply Decode.struct_app, (omitempty_member i_UserData set_UserData); reflexivity|]. fields.
    etrans; [apply Decode.struct_app, (omitempty_member i_SSHKey set_SSHKey); reflexivity|]. fields.
    member (reflexivity). member (by apply (networks_member (i_Networks i))). by destruct i.
Qed.

(** What is written to a task as its payload is read back, but that bytes that are
    not part of UTF-8 are replaced. *)
Lemma payload_read_back i : ints_ok i → Unmarshal (Marshal i) = (valid_Instance i, true).
Proof.
  intros Hok. unfold Unmarshal, Marshal. rewrite Text.unmarshal_marshal by by apply instance_printable.
  rewrite instance_valid. by apply decode_instance.
Qed.
End decoding.

(** ** What the steps work on *)

(** google/uuid and PostgreSQL: the texts that [uuid.Parse] accepts, and what a text
    parameter is as a UUID and as an integer. *)
Class Keys := {
  uuid_ok : string → bool;
  pg_uuid : string → option string;
  pg_int : string → option Z;
  uuid_ok_empty : uuid_ok "" = false;
  pg_int_empty : pg_int "" = None;
  pg_int_uuid s n : pg_int s = Some n → pg_uuid s = None
}.

(** [models.Host], as far as it is used here; rows that were deleted stay. *)
Record Host := mkHost {
  h_ID : Z; h_UUID : string; h_Name : string; h_IPAddress : string; h_ManagementPort : Z;
  h_TLSEnabled : bool; h_Status : string; h_ResourceState : string;
  h_CPUAllocated : Z; h_RAMAllocatedMB : Z; h_Deleted : bool
}.

Definition GetManagementURL (h : Host) : string :=
  (if h_TLSEnabled h then "https" else "http") +:+ "://" +:+ h_IPAddress h +:+ ":" +:+ Itoa (h_ManagementPort h).

(** The rows are in the order of their primary keys. *)
Record NetworkPort := mkPort { p_SubnetID : string; p_DeviceID : string; p_FixedIPs : list string }.

(** The tables of the network service: addresses, the network of each subnet, and
    ports. *)
Record Network := mkNetwork {
  ipam : Ipam.DB; subnet_networks : list (string * string); ports : list NetworkPort
}.

Record Volume := mkVolume {
  v_Name : string; v_SizeGB : Z; v_RBDPool : string; v_RBDImage : string; v_UserID : Z; v_ProjectID : Z;
  v_Status : string; v_Bootable : bool
}.

(** A request to the agent of a node. *)
Record request := mkRequest { r_method : string; r_url : string; r_body : option json }.

(** [sent] are the requests to nodes so far. *)
Record World := mkWorld {
  hosts : list Host; network : Network; volumes : list Volume; sent : list request
}.

Definition set_network_of (n : Network) (w : World) : World := mkWorld (hosts w) n (volumes w) (sent w).
Definition set_volumes (l : list Volume) (w : World) : World := mkWorld (hosts w) (network w) l (sent w).
Definition set_sent (l : list request) (w : World) : World := mkWorld (hosts w) (network w) (volumes w) l.

Section service.
Context {unicode : UnicodeTables} {keys : Keys}.

(** The surroundings may answer each call in another way: the number drawn, whether
    an insertion fails, the errors of the storage backend, and the answers of nodes,
    a status or the error of the connection. *)
Variable rand : World → Z.
Variable insert_fails : World → bool.
Variable driver : World → Volume → option string.
Variable agent : World → request → result string (Z * string).
(** The texts of the errors of encoding/json and of the database. *)
Variable json_error : string → string.
Variable db_error : string.

(** *** Hosts *)

Definition findHostByID (id : string) (w : World) : option Host :=
  let live := filter (λ h, h_Deleted h = false) (hosts w) in
  if uuid_ok id then u ← pg_uuid id; List.find (λ h, bool_decide (h_UUID h = u)) live
  else n ← pg_int id; row_with h_ID n live.

Definition GetHostAddress (hostID : string) (w : World) : option string :=
  GetManagementURL <$> findHostByID hostID w.

Definition resolveNodeAddress (hostID : string) (w : World) : string := default "" (GetHostAddress hostID w).

(** *** Addresses *)

Definition ipam_message (e : Ipam.ipam_error) : string :=
  match e with
  | Ipam.LockFailed => "failed to acquire lock on subnet: " +:+ db_error
  | Ipam.InvalidCIDR cidr => "invalid CIDR " +:+ cidr +:+ ": invalid CIDR address: " +:+ cidr
  | Ipam.NoUsableIPs => "no usable IPs in range"
  | Ipam.PersistFailed => "failed to persist allocation: " +:+ db_error
  | Ipam.SubnetFull id => "subnet " +:+ id +:+ " is full"
  end.

Definition AllocateIP (instanceUUID networkID : string) (w : World) : result string string * World :=
  match List.find (λ sn, bool_decide (sn.2 = networkID)) (subnet_networks (network w)) with
  | None => (Err "record not found", w)
  | Some (sid, _) =>
      let (r, db) := Ipam.Allocate (rand w) (insert_fails w) (ipam (network w)) sid instanceUUID in
      (match r with Ok ip => Ok ip | Err e => Err (ipam_message e) end,
       set_network_of (mkNetwork db (subnet_networks (network w)) (ports (network w))) w)
  end.

Definition ReleaseIP (instanceUUID : string) (w : World) : World :=
  match List.find (λ p, bool_decide (p_DeviceID p = instanceUUID)) (ports (network w)) with
  | None => w
  | Some port =>
      let db := foldl (λ db ip, Ipam.Release db (p_SubnetID port) ip) (ipam (network w)) (p_FixedIPs port) in
      set_network_of (mkNetwork db (subnet_networks (network w)) (ports (network w))) w
  end.

(** *** Volumes *)

(** [CreateVolume] of the storage service: the row stays when the backend fails. *)
Definition CreateVolume (v : Volume) (w : World) : option string * World :=
  if insert_fails w then (Some db_error, w)
  else (driver w v, set_volumes (volumes w ++ [v]) w).

(** *** Nodes *)

(** [AgentClient.do]: a status from 400 on is an error. *)
Definition do_ (r : request) (w : World) : option string * World :=
  (match agent w r with
   | Err e => Some e
   | Ok (code, status) => if 400 <=? code then Some ("agent error: " +:+ status) else None
   end, set_sent (sent w ++ [r]) w).

Definition StartVM (hostAddr : string) (i : Instance) (w : World) : option string * World :=
  do_ (mkRequest "POST" (hostAddr +:+ "/api/v1/agent/vms") (Some (instance_json i))) w.

Definition StopVM (hostAddr uuid : string) (w : World) : option string * World :=
  do_ (mkRequest "DELETE" (hostAddr +:+ "/api/v1/agent/vms/" +:+ uuid) None) w.

Definition ConfigureNetwork (hostAddr bridgeMappings : string) (w : World) : option string * World :=
  do_ (mkRequest "POST" (hostAddr +:+ "/api/v1/agent/network/setup")
         (Some (JObj [("bridge_mappings", JStr bridgeMappings)]))) w.

(** *** Steps *)

(** What [Execute] and [Compensate] return: the world, the payload, and an error. *)
Definition outcome_ : Type := (World * string) * option string.

Definition StepAllocateIP_Execute (w : World) (uuid payload : string) : outcome_ :=
  let (inst, ok) := Unmarshal payload in
  if negb ok then ((w, payload), Some ("invalid task payload: " +:+ json_error payload))
  else if negb (bool_decide (i_IPAddress inst = "")) then ((w, payload), None)
  else
    let networkID := match i_Networks inst with [] => "default" | n :: _ => n.1 end in
    match AllocateIP (i_UUID inst) networkID w with
    | (Err e, w) => ((w, payload), Some ("failed to allocate IP: " +:+ e))
    | (Ok ip, w) => ((w, Marshal (set_IPAddress ip inst)), None)
    end.

Definition StepAllocateIP : Workflow.Step World :=
  Workflow.mkStep "AllocateIP" StepAllocateIP_Execute
    (λ w uuid payload, ((ReleaseIP uuid w, payload), None)).

Definition root_volume (inst : Instance) : Volume :=
  mkVolume (i_Name inst +:+ "-root") (i_RootDiskGB inst) "vcstack-volumes" ("vol-" +:+ i_UUID inst)
    (i_UserID inst) (i_ProjectID inst) "creating" true.

Definition StepCreateVolume_Execute (w : World) (uuid payload : string) : outcome_ :=
  let (inst, ok) := Unmarshal payload in
  if negb ok then ((w, payload), Some (json_error payload))
  else
    let vol := root_volume inst in
    match CreateVolume vol w with
    | (Some e, w) => ((w, payload), Some ("failed to create volume: " +:+ e))
    | (None, w) => ((w, Marshal (set_RootRBDImage (v_RBDPool vol +:+ "/" +:+ v_RBDImage vol) inst)), None)
    end.

Definition StepCreateVolume : Workflow.Step World :=
  Workflow.mkStep "CreateVolume" StepCreateVolume_Execute (λ w uuid payload, ((w, payload), None)).

Definition StepStartInstance_Execute (w : World) (uuid payload : string) : outcome_ :=
  let (inst, ok) := Unmarshal payload in
  if negb ok then ((w, payload), Some (json_error payload))
  else
    let hostAddr := resolveNodeAddress (i_HostID inst) w in
    if bool_decide (hostAddr = "")
    then ((w, payload), Some ("could not resolve address for host: " +:+ i_HostID inst))
    else let (e, w) := StartVM hostAddr inst w in ((w, payload), e).

(** The error of the decoding is ignored. *)
Definition StepStartInstance_Compensate (w : World) (uuid payload : string) : outcome_ :=
  let hostAddr := resolveNodeAddress (i_HostID (Unmarshal payload).1) w in
  if bool_decide (hostAddr = "") then ((w, payload), None)
  else let (e, w) := StopVM hostAddr uuid w in ((w, payload), e).

Definition StepStartInstance : Workflow.Step World :=
  Workflow.mkStep "StartInstance" StepStartInstance_Execute StepStartInstance_Compensate.

(** [Execute] of the steps that stop and delete an instance. *)
Definition stop_Execute (w : World) (uuid payload : string) : outcome_ :=
  let (inst, ok) := Unmarshal payload in
  if negb ok then ((w, payload), Some (json_error payload))
  else
    let hostAddr := resolveNodeAddress (i_HostID inst) w in
    if bool_decide (hostAddr = "") then ((w, payload), Some "host unreachable")
    else let (e, w) := StopVM hostAddr uuid w in ((w, payload), e).

Definition StepStopInstance : Workflow.Step World :=
  Workflow.mkStep "StopInstance" stop_Execute (λ w uuid payload, ((w, payload), None)).

Definition StepDeleteInstance : Workflow.Step World :=
  Workflow.mkStep "DeleteInstance" stop_Execute (λ w uuid payload, ((w, payload), None)).

Definition StepConfigureNodeNetwork : Workflow.Step World :=
  Workflow.mkStep "ConfigureNodeNetwork"
    (λ w uuid payload,
      let hostAddr := resolveNodeAddress uuid w in
      if bool_decide (hostAddr = "") then ((w, payload), Some ("could not resolve address for host: " +:+ uuid))
      else let (e, w) := ConfigureNetwork hostAddr "physnet1:br-ex" w in ((w, payload), e))
    (λ w uuid payload, ((w, payload), None)).

Definition CreateInstance : Workflow.Workflow World :=
  Workflow.mkWorkflow "CreateInstance" [StepAllocateIP; StepCreateVolume; StepStartInstance].
Definition StopInstance : Workflow.Workflow World :=
  Workflow.mkWorkflow "StopInstance" [StepStopInstance].
Definition DeleteInstance : Workflow.Workflow World :=
  Workflow.mkWorkflow "DeleteInstance" [StepStopInstance; StepDeleteInstance; StepAllocateIP].

(** The registry. The services that were injected are asserted to have the methods
    that the steps need, and the assertion panics if they do not. *)
Definition RegisterWorkflows (is_NetworkManager is_StorageManager : bool)
    : outcome (gmap string (Workflow.Workflow World)) :=
  if is_NetworkManager && is_StorageManager then
    Returns {[ "instance.create" := CreateInstance; "instance.stop" := StopInstance;
               "instance.delete" := DeleteInstance ]}
  else Panics.

(** ** Handlers of instances *)

Context {redis : Workflow.Locks.Redis}.

(** The live rows of instances, the rows of tasks, the locks and the rest. *)
Record State := mkState {
  instances : list Instance; tasks : list (Z * Workflow.Task); locks : option Workflow.Locks.store; world : World
}.

Definition set_instances (l : list Instance) (s : State) : State := mkState l (tasks s) (locks s) (world s).
Definition set_tasks (l : list (Z * Workflow.Task)) (s : State) : State := mkState (instances s) l (locks s) (world s).
Definition set_locks (l : option Workflow.Locks.store) (s : State) : State :=
  mkState (instances s) (tasks s) l (world s).
Definition set_world (w : World) (s : State) : State := mkState (instances s) (tasks s) (locks s) w.

(** What a handler leaves to a goroutine: the task with its id, if its row was
    stored, the instance, and whether the instance is unlocked and deleted. *)
Record job := mkJob {
  j_id : option Z; j_task : Workflow.Task; j_inst : Instance; j_unlock : bool; j_delete : bool
}.

Definition new_task (type : string) (inst : Instance) : Workflow.Task :=
  Workflow.mkTask type (i_UUID inst) Workflow.StatusPending 0 (Marshal inst) "" None.

(** [s.db.Create(task)], whose error is ignored; [tid] is the id it draws. *)
Definition store_task (tid : option Z) (t : Workflow.Task) (s : State) : State :=
  match tid with Some n => set_tasks (tasks s ++ [(n, t)]) s | None => s end.

Record CreateInstanceRequest := mkCreateRequest {
  cr_Name : string; cr_FlavorID : Z; cr_ImageID : Z; cr_UserData : string; cr_SSHKey : string;
  cr_EnableTPM : bool; cr_Networks : list (string * string); cr_RootDiskGB : Z
}.

(** [uuid] is drawn, and [id] is the id of the new row, if it can be stored. *)
Definition createInstance (req : result string CreateInstanceRequest) (uuid : string) (id tid : option Z)
    (s : State) : response * State * option job :=
  match req with
  | Err e => (error 400 e, s, None)
  | Ok req =>
      match id with
      | None => (error 500 "failed to create record", s, None)
      | Some id =>
          let inst := mkInstance id (cr_Name req) uuid "" (cr_RootDiskGB req) (cr_FlavorID req)
            (cr_ImageID req) "building" "shutdown" 1 1 "" "" "" "" "" "" "" false [] in
          let task := new_task "instance.create" inst in
          ((202, Http.JObj [("instance", in_body (instance_json inst)); ("task_id", Http.JNum (default 0 tid))]),
           store_task tid task (set_instances (instances s ++ [inst]) s),
           Some (mkJob tid task inst false false))
      end
  end.

Definition listInstances (ok : bool) (s : State) : response :=
  if ok then (200, Http.JObj [("instances", Http.JList (in_body ∘ instance_json <$> instances s))])
  else error 500 "database error".

(** [First(&inst, "id = ?", id)]. *)
Definition First_instance (id : string) (s : State) : option Instance :=
  n ← pg_int id; row_with i_ID n (instances s).

Definition getInstance (id : string) (s : State) : response :=
  match First_instance id s with
  | None => error 404 "instance not found"
  | Some inst => (200, Http.JObj [("instance", in_body (instance_json inst))])
  end.

Definition updateInstance : response := error 501 "not implemented in workflow mode".
Definition rebootInstance : response := error 501 "reboot via workflow pending implementation".

(** The columns of the body are written as they come; [updates] is what the ORM and
    the database make of them. *)
Definition updateInstanceStatusInternal (req : option (list (string * json)))
    (updates : list (string * json) → Instance → option Instance) (uuid : string) (s : State)
    : option response * State :=
  match req with
  | None => (Some (error 400 "invalid data"), s)
  | Some m =>
      match mapM (λ i, if decide (i_UUID i = uuid) then updates m i else Some i) (instances s) with
      | None => (Some (error 500 "database error"), s)
      | Some l => (None, set_instances l s)
      end
  end.

Definition lock_ttl : Z := 5 * minute.

(** The handlers that lock an instance and start a workflow of the given type. *)
Definition locked_task (up : bool) (now : Z) (type status : string) (delete : bool) (id : string)
    (tid : option Z) (s : State) : response * State * option job :=
  match First_instance id s with
  | None => (error 404 "instance not found", s, None)
  | Some inst =>
      let (locked, r) := Workflow.Locks.AcquireLock up now (i_UUID inst) lock_ttl (locks s) in
      let s := set_locks r s in
      if negb locked then (error 409 "another operation is in progress", s, None)
      else
        let task := new_task type inst in
        ((202, Http.JObj [("task_id", Http.JNum (default 0 tid)); ("status", Http.JStr status)]),
         store_task tid task s, Some (mkJob tid task inst true delete))
  end.

Definition startInstance (up : bool) (now : Z) := locked_task up now "instance.start" "starting" false.
Definition stopInstance (up : bool) (now : Z) := locked_task up now "instance.stop" "stopping" false.
Definition deleteInstance (up : bool) (now : Z) := locked_task up now "instance.delete" "deleting" true.

(** The goroutine: the workflow runs to its end, then the instance is deleted,
    whatever the workflow returned, and unlocked. *)
Definition save_task (tid : option Z) (t : Workflow.Task) (s : State) : State :=
  match tid with
  | Some n => set_tasks ((λ x, if x.1 =? n then (n, t) else x) <$> tasks s) s
  | None => s
  end.

Definition run_job (registry : gmap string (Workflow.Workflow World)) (now : Z) (up write : bool) (j : job)
    (s : State) : State :=
  let s :=
    match Workflow.RunByType registry (j_task j) with
    | Err _ => s
    | Ok (wf, _) =>
        let '(w, t, _) := Workflow.Run now wf (world s) (j_task j) in
        save_task (j_id j) t (set_world w s)
    end in
  let s := if j_delete j && write then set_instances (without_row i_ID (i_ID (j_inst j)) (instances s)) s else s in
  if j_unlock j then set_locks (Workflow.Locks.ReleaseLock up (i_UUID (j_inst j)) (locks s)) s else s.

(** ** Creation *)

Lemma payload_decodes i : ints_ok i → ints_ok (valid_Instance i).
Proof. done. Qed.

(** The network of the first step. *)
Definition network_of (i : Instance) : string :=
  match i_Networks i with [] => "default" | n :: _ => n.1 end.

Definition with_address (ip : string) (i : Instance) : Instance := set_IPAddress (valid ip) i.
Definition root_image (i : Instance) : string := "vcstack-volumes/vol-" +:+ i_UUID i.

Lemma valid_idem i : valid_Instance (valid_Instance i) = valid_Instance i.
Proof.
  unfold valid_Instance. cbv [i_Name i_UUID i_VMID i_Status i_PowerState i_HostID i_NodeAddress i_IPAddress
    i_RootRBDImage i_FloatingIP i_UserData i_SSHKey i_Networks]. rewrite !valid_valid.
  destruct i. f_equal. rewrite <- list_fmap_compose. apply list_fmap_ext. intros n [u ip] _. simpl.
  by rewrite !valid_valid.
Qed.

Lemma valid_with_address ip i :
  valid_Instance i = i → valid_Instance (set_IPAddress ip i) = with_address ip i.
Proof. intros E. rewrite <- E at 2. by destruct i. Qed.

Lemma valid_with_root i :
  valid_Instance i = i → valid_Instance (set_RootRBDImage (root_image i) i) = set_RootRBDImage (root_image i) i.
Proof.
  intros E. assert (valid (root_image i) = root_image i) as Hr.
  { unfold root_image. rewrite valid_ascii_app by done. f_equal. rewrite <- E at 2. done. }
  transitivity (set_RootRBDImage (valid (root_image i)) (valid_Instance i)); [by destruct i|].
  by rewrite Hr, E.
Qed.

Lemma with_address_valid ip i : valid_Instance i = i → valid_Instance (with_address ip i) = with_address ip i.
Proof. intros E. unfold with_address. rewrite valid_with_address by done. unfold with_address. by rewrite valid_valid. Qed.

Lemma allocate_step w uuid i r w1 :
  ints_ok i → i_IPAddress i = "" →
  AllocateIP (i_UUID (valid_Instance i)) (network_of (valid_Instance i)) w = (r, w1) →
  StepAllocateIP_Execute w uuid (Marshal i)
  = match r with
    | Ok ip => ((w1, Marshal (set_IPAddress ip (valid_Instance i))), None)
    | Err e => ((w1, Marshal i), Some ("failed to allocate IP: " +:+ e))
    end.
Proof.
  intros Hi Hip Ha. unfold StepAllocateIP_Execute. rewrite payload_read_back by done. cbn [negb].
  assert (i_IPAddress (valid_Instance i) = "") as Hv by (by apply valid_empty).
  rewrite bool_decide_eq_true_2 by done. cbn [negb]. cbv zeta. unfold network_of in Ha. rewrite Ha. by destruct r.
Qed.

Lemma volume_step w uuid i e w1 :
  ints_ok i → CreateVolume (root_volume (valid_Instance i)) w = (e, w1) →
  StepCreateVolume_Execute w uuid (Marshal i)
  = match e with
    | None => ((w1, Marshal (set_RootRBDImage (root_image (valid_Instance i)) (valid_Instance i))), None)
    | Some e => ((w1, Marshal i), Some ("failed to create volume: " +:+ e))
    end.
Proof.
  intros Hi Hc. unfold StepCreateVolume_Execute. rewrite payload_read_back by done. cbn [negb]. cbv zeta.
  rewrite Hc. by destruct e.
Qed.

Lemma start_step w uuid i e w1 :
  let addr := resolveNodeAddress (i_HostID i) w in
  ints_ok i → valid_Instance i = i → addr ≠ "" → StartVM addr i w = (e, w1) →
  StepStartInstance_Execute w uuid (Marshal i) = ((w1, Marshal i), e).
Proof.
  intros addr Hi Hv Ha Hs. unfold StepStartInstance_Execute. rewrite payload_read_back, Hv by done. cbn [negb].
  fold addr. rewrite bool_decide_eq_false_2 by done. by rewrite Hs.
Qed.

Lemma unstart_step w uuid i :
  let addr := resolveNodeAddress (i_HostID i) w in
  ints_ok i → valid_Instance i = i → addr ≠ "" →
  StepStartInstance_Compensate w uuid (Marshal i)
  = (((StopVM addr uuid w).2, Marshal i), (StopVM addr uuid w).1).
Proof.
  intros addr Hi Hv Ha. unfold StepStartInstance_Compensate. rewrite payload_read_back, Hv by done. cbn [fst].
  fold addr. rewrite bool_decide_eq_false_2 by done. by destruct (StopVM addr uuid w).
Qed.

(** The instance that the node gets. *)
Definition built (ip : string) (i : Instance) : Instance :=
  set_RootRBDImage (root_image i) (with_address ip i).

(** The hypotheses on the surroundings under which a creation reaches the node: an
    address is found, the volume is made, and the host has an address. *)
Record reaches_node (i : Instance) (w : World) (ip : string) (w1 : World) : Prop := {
  rn_ints : ints_ok i;
  rn_valid : valid_Instance i = i;
  rn_address : i_IPAddress i = "";
  rn_allocated : AllocateIP (i_UUID i) (network_of i) w = (Ok ip, w1);
  rn_inserted : insert_fails w1 = false;
  rn_driver : driver w1 (root_volume i) = None;
  rn_host : resolveNodeAddress (i_HostID i) w1 ≠ ""
}.

Lemma creation_steps now i w :
  Workflow.Run now CreateInstance w (new_task "instance.create" i)
  = Workflow.do_steps now [] 0 [StepAllocateIP; StepCreateVolume; StepStartInstance] w
      (Workflow.set_status (new_task "instance.create" i) Workflow.StatusRunning).
Proof. done. Qed.

Lemma deletion_steps now i w :
  Workflow.Run now DeleteInstance w (new_task "instance.delete" i)
  = Workflow.do_steps now [] 0 [StepStopInstance; StepDeleteInstance; StepAllocateIP] w
      (Workflow.set_status (new_task "instance.delete" i) Workflow.StatusRunning).
Proof. done. Qed.

Lemma creation_run now i w ip w1 e w3 :
  reaches_node i w ip w1 →
  let w2 := set_volumes (volumes w1 ++ [root_volume i]) w1 in
  let addr := resolveNodeAddress (i_HostID i) w1 in
  StartVM addr (built ip i) w2 = (e, w3) →
  let '(w', t, err) := Workflow.Run now CreateInstance w (new_task "instance.create" i) in
  match e with
  | None => w' = w3 ∧ Workflow.Status t = Workflow.StatusCompleted ∧ err = None
  | Some e => w' = ReleaseIP (i_UUID i) (StopVM addr (i_UUID i) w3).2 ∧
      Workflow.Status t = Workflow.StatusRolledBack ∧ err = Some ("workflow failed at step StartInstance: " +:+ e)
  end.
Proof.
  intros [Hi Hv Hip Ha Hins Hd Hh] w2 addr Hs.
  assert (CreateVolume (root_volume i) w1 = (None, w2)) as Hc by (unfold CreateVolume; by rewrite Hins, Hd).
  assert (valid_Instance (built ip i) = built ip i) as Hb by (apply (valid_with_root (with_address ip i)), with_address_valid, Hv).
  assert (resolveNodeAddress (i_HostID (built ip i)) w2 = addr) as Haddr by done.
  rewrite creation_steps. erewrite Workflow.do_steps_ok; [|apply (allocate_step w _ i (Ok ip) w1); by rewrite ?Hv].
  rewrite Hv.
  erewrite Workflow.do_steps_ok; [|apply (volume_step w1 _ (set_IPAddress ip i) None w2); [done|by rewrite valid_with_address]].
  rewrite valid_with_address by done.
  change (set_RootRBDImage (root_image (with_address ip i)) (with_address ip i)) with (built ip i).
  destruct e as [e|].
  - erewrite Workflow.do_steps_fail; [|by apply (start_step w2 _ (built ip i) (Some e) w3)].
    assert (resolveNodeAddress (i_HostID (built ip i)) w3 = addr) as Haddr3
      by (unfold StartVM, do_ in Hs; injection Hs as _ <-; done).
    cbn [StepStartInstance Workflow.Compensate]. rewrite unstart_step by (rewrite ?Haddr3; done).
    rewrite Haddr3. done.
  - erewrite Workflow.do_steps_ok; [|by apply (start_step w2 _ (built ip i) None w3)]. done.
Qed.

Lemma search_free k db s n curr b c ip :
  Ipam.search k db s n curr b c = Some ip → Ipam.taken db (Ipam.ID s) ip = false.
Proof.
  revert curr. induction k as [|k IH]; intros curr; simpl; [done|].
  destruct (_ || _) eqn:E; [apply IH|]. intros [= <-]. by apply orb_false_iff in E as [_ E].
Qed.

(** An allocation takes an address that was free, and changes nothing else. *)
Definition allocated (uuid ip : string) (w w' : World) : Prop :=
  ∃ sid, Ipam.allocations (ipam (network w)) !! (sid, ip) = None ∧
    Ipam.allocations (ipam (network w')) = <[(sid, ip) := uuid]> (Ipam.allocations (ipam (network w))).

Lemma AllocateIP_ok uuid net w ip w1 :
  AllocateIP uuid net w = (Ok ip, w1) →
  allocated uuid ip w w1 ∧ ports (network w1) = ports (network w) ∧ hosts w1 = hosts w ∧
  volumes w1 = volumes w ∧ sent w1 = sent w.
Proof.
  unfold AllocateIP. destruct (List.find _ _) as [[sid n]|]; [|done].
  unfold Ipam.Allocate. destruct (Ipam.subnets _ !! sid) as [s|]; [|done].
  destruct (ParseCIDR _) as [[? ipnet]|]; [|done]. destruct (_ <=? 0); [done|].
  destruct (Ipam.search _ _ _ _ _ _ _) as [a|] eqn:E; [|done].
  destruct (insert_fails w); [done|]. intros [= <- <-]. split; [|done].
  apply search_free in E. unfold Ipam.taken in E. zbool. exists (Ipam.ID s). split; [|done].
  by apply eq_None_not_Some.
Qed.

Definition start_request (addr : string) (i : Instance) : request :=
  mkRequest "POST" (addr +:+ "/api/v1/agent/vms") (Some (instance_json i)).

(** C13: A creation whose calls succeed is completed: the instance has a new address and
    a root volume, and its node was told to start it with both. *)
Theorem creation_starts now i w ip w1 code status :
  reaches_node i w ip w1 →
  let addr := resolveNodeAddress (i_HostID i) w1 in
  agent (set_volumes (volumes w1 ++ [root_volume i]) w1) (start_request addr (built ip i)) = Ok (code, status) →
  code < 400 →
  let '(w', t, err) := Workflow.Run now CreateInstance w (new_task "instance.create" i) in
  Workflow.Status t = Workflow.StatusCompleted ∧ err = None ∧ allocated (i_UUID i) ip w w' ∧
  volumes w' = volumes w ++ [root_volume i] ∧ sent w' = sent w ++ [start_request addr (built ip i)].
Proof.
  intros Hr addr Hag Hcode. pose proof (creation_run now i w ip w1 None) as H.
  destruct (AllocateIP_ok _ _ _ _ _ (rn_allocated _ _ _ _ Hr)) as (Ha & _ & _ & Hv & Hs).
  unfold StartVM, do_ in H. fold (start_request addr (built ip i)) in H. fold addr in H.
  change (mkRequest _ _ _) with (start_request addr (built ip i)) in H.
  rewrite Hag, (proj2 (Z.leb_gt _ _) Hcode) in H. specialize (H _ Hr eq_refl).
  destruct (Workflow.Run _ _ _ _) as [[w' t] err]. destruct H as (-> & ? & ?).
  split_and!; [done|done|exact Ha|by simpl; rewrite Hv|by simpl; rewrite Hs].
Qed.

(** But if the node refuses, the rollback leaves the volume, and the address too
    where no port has the instance as its device, which no creation makes. *)
Theorem failed_start_leaks now i w ip w1 e :
  reaches_node i w ip w1 →
  let addr := resolveNodeAddress (i_HostID i) w1 in
  agent (set_volumes (volumes w1 ++ [root_volume i]) w1) (start_request addr (built ip i)) = Err e →
  (∀ p, p ∈ ports (network w) → p_DeviceID p ≠ i_UUID i) →
  let '(w', t, err) := Workflow.Run now CreateInstance w (new_task "instance.create" i) in
  Workflow.Status t = Workflow.StatusRolledBack ∧ err = Some ("workflow failed at step StartInstance: " +:+ e) ∧
  allocated (i_UUID i) ip w w' ∧ volumes w' = volumes w ++ [root_volume i].
Proof.
  intros Hr addr Hag Hp. pose proof (creation_run now i w ip w1 (Some e)) as H.
  destruct (AllocateIP_ok _ _ _ _ _ (rn_allocated _ _ _ _ Hr)) as (Ha & Hports & _ & Hv & Hs).
  unfold StartVM, do_ in H. fold addr in H.
  change (mkRequest "POST" _ _) with (start_request addr (built ip i)) in H.
  rewrite Hag in H. specialize (H _ Hr eq_refl).
  destruct (Workflow.Run _ _ _ _) as [[w' t] err]. destruct H as (-> & ? & ?).
  unfold ReleaseIP. simpl. rewrite Hports.
  destruct (List.find _ _) as [p|] eqn:Ef.
  { apply find_elem in Ef as [Hin Hd]. zbool. by apply Hp in Hin. }
  split_and!; [done|done|exact Ha|by simpl; rewrite Hv].
Qed.

(** *** Instances that the handler creates *)

Lemma AllocateIP_sent uuid net w : sent (AllocateIP uuid net w).2 = sent w.
Proof.
  unfold AllocateIP. destruct (List.find _ _) as [[sid n]|]; [|done]. by destruct (Ipam.Allocate _ _ _ _ _).
Qed.

Lemma ReleaseIP_sent uuid w : sent (ReleaseIP uuid w) = sent w.
Proof. unfold ReleaseIP. by destruct (List.find _ _). Qed.

Lemma CreateVolume_sent v w : sent (CreateVolume v w).2 = sent w.
Proof. unfold CreateVolume. by destruct (insert_fails w). Qed.

Lemma no_host w : resolveNodeAddress "" w = "".
Proof. unfold resolveNodeAddress, GetHostAddress, findHostByID. by rewrite uuid_ok_empty, pg_int_empty. Qed.

(** The start of an instance without a host fails, and so does its undoing,
    silently. *)
Lemma start_unplaced w uuid i :
  ints_ok i → i_HostID i = "" →
  (∃ e, StepStartInstance_Execute w uuid (Marshal i) = ((w, Marshal i), Some e)) ∧
  StepStartInstance_Compensate w uuid (Marshal i) = ((w, Marshal i), None).
Proof.
  intros Hi Hh. unfold StepStartInstance_Execute, StepStartInstance_Compensate. rewrite payload_read_back by done.
  cbn [negb fst]. assert (i_HostID (valid_Instance i) = "") as Hv by (by apply valid_empty).
  rewrite Hv, no_host. split; [by eexists|done].
Qed.

Lemma unplaced_creation now i w :
  ints_ok i → i_HostID i = "" → i_IPAddress i = "" →
  let '(w', t, err) := Workflow.Run now CreateInstance w (new_task "instance.create" i) in
  sent w' = sent w ∧ Workflow.Status t = Workflow.StatusRolledBack ∧ err ≠ None.
Proof.
  intros Hi Hh Hip. rewrite creation_steps.
  destruct (AllocateIP (i_UUID (valid_Instance i)) (network_of (valid_Instance i)) w) as [[ip|e] w1] eqn:Ea;
    pose proof (AllocateIP_sent (i_UUID (valid_Instance i)) (network_of (valid_Instance i)) w) as Hs; rewrite Ea in Hs.
  2:{ erewrite Workflow.do_steps_fail; [|by apply (allocate_step w _ i (Err e) w1)]. simpl. by rewrite ReleaseIP_sent. }
  erewrite Workflow.do_steps_ok; [|by apply (allocate_step w _ i (Ok ip) w1)].
  set (i1 := set_IPAddress ip (valid_Instance i)).
  destruct (CreateVolume (root_volume (valid_Instance i1)) w1) as [[e|] w2] eqn:Ec;
    pose proof (CreateVolume_sent (root_volume (valid_Instance i1)) w1) as Hs1; rewrite Ec in Hs1.
  { erewrite Workflow.do_steps_fail; [|by apply (volume_step w1 _ i1 (Some e) w2)]. simpl in *. by rewrite ReleaseIP_sent, Hs1. }
  erewrite Workflow.do_steps_ok; [|by apply (volume_step w1 _ i1 None w2)].
  set (i2 := set_RootRBDImage _ _).
  assert (i_HostID i2 = "") as Hh2 by (unfold i2, i1; simpl; by rewrite Hh).
  destruct (start_unplaced w2 (i_UUID i) i2) as [[e He] Hc]; [done|done|].
  erewrite Workflow.do_steps_fail; [|exact He].
  change (Workflow.Compensate StepStartInstance w2 _ (Marshal i2)) with (StepStartInstance_Compensate w2 (i_UUID i) (Marshal i2)).
  rewrite Hc.
  simpl in *. by rewrite ReleaseIP_sent, Hs1.
Qed.

(** No instance that the handler creates is ever started: it has no host, so that
    the last step of its workflow fails. Nothing is sent to any node, the task is
    rolled back, and the row stays as it was made. *)
Theorem created_never_started registry req uuid id tid s now up write :
  RegisterWorkflows true true = Returns registry →
  Forall (λ n, 0 <= n < 2 ^ 64) [id; cr_FlavorID req; cr_ImageID req] → - 2 ^ 63 <= cr_RootDiskGB req < 2 ^ 63 →
  ∃ r s1 j inst, createInstance (Ok req) uuid (Some id) (Some tid) s = (r, s1, Some j) ∧
    let s2 := run_job registry now up write j s1 in
    instances s2 = instances s ++ [inst] ∧ i_Status inst = "building" ∧ sent (world s2) = sent (world s) ∧
    ∃ t, (tid, t) ∈ tasks s2 ∧ Workflow.Status t = Workflow.StatusRolledBack.
Proof.
  intros [= <-] Hn Hd. do 4 eexists. split; [done|]. simpl.
  match goal with |- context [new_task _ ?x] => pose proof (unplaced_creation now x (world s)) as H end.
  unfold run_job. simpl. unfold Workflow.RunByType. simpl. rewrite lookup_insert_eq. simpl.
  destruct (Workflow.Run _ _ _ _) as [[w' t] err]. destruct H as (Hs & Ht & _); [|done|done|].
  { apply list.Forall_cons in Hn as [? Hn]. apply list.Forall_cons in Hn as [? Hn].
    apply list.Forall_cons in Hn as [? _]. split; [|done]. repeat constructor; simpl; lia. }
  simpl. split_and!; [done|done|done|]. exists t. split; [|done].
  rewrite fmap_app. apply elem_of_app. right. simpl. rewrite Z.eqb_refl. by left.
Qed.

(** ** Deletion *)

Lemma stop_step w uuid i e w1 :
  let addr := resolveNodeAddress (i_HostID i) w in
  ints_ok i → valid_Instance i = i → addr ≠ "" → StopVM addr uuid w = (e, w1) →
  stop_Execute w uuid (Marshal i) = ((w1, Marshal i), e).
Proof.
  intros addr Hi Hv Ha Hs. unfold stop_Execute. rewrite payload_read_back, Hv by done. cbn [negb].
  fold addr. rewrite bool_decide_eq_false_2 by done. by rewrite Hs.
Qed.

Lemma stop_unreachable w uuid i :
  ints_ok i → resolveNodeAddress (valid (i_HostID i)) w = "" →
  stop_Execute w uuid (Marshal i) = ((w, Marshal i), Some "host unreachable").
Proof.
  intros Hi Ha. unfold stop_Execute. rewrite payload_read_back by done. cbn [negb].
  change (i_HostID (valid_Instance i)) with (valid (i_HostID i)). by rewrite Ha.
Qed.

Definition stop_request (addr uuid : string) : request :=
  mkRequest "DELETE" (addr +:+ "/api/v1/agent/vms/" +:+ uuid) None.

(** The last step of the deletion allocates an address where it should release one:
    a deletion that succeeds tells the node to stop the instance, twice, and leaves
    a new address with the instance that is gone. *)
Theorem deletion_allocates now i w ip w3 :
  let addr := resolveNodeAddress (i_HostID i) w in
  let stop := stop_request addr (i_UUID i) in
  ints_ok i → valid_Instance i = i → i_IPAddress i = "" → addr ≠ "" →
  (∀ w, ∃ code status, agent w stop = Ok (code, status) ∧ code < 400) →
  AllocateIP (i_UUID i) (network_of i) (set_sent ((sent w ++ [stop]) ++ [stop]) w) = (Ok ip, w3) →
  let '(w', t, err) := Workflow.Run now DeleteInstance w (new_task "instance.delete" i) in
  Workflow.Status t = Workflow.StatusCompleted ∧ err = None ∧ allocated (i_UUID i) ip w w' ∧
  sent w' = sent w ++ [stop; stop].
Proof.
  intros addr stop Hi Hv Hip Haddr Hag Ha.
  assert (∀ w, StopVM addr (i_UUID i) w = (None, set_sent (sent w ++ [stop]) w)) as Hstop.
  { intros w0. unfold StopVM, do_. fold stop. destruct (Hag w0) as (code & st & E & Hc).
    change (mkRequest _ _ _) with stop. by rewrite E, (proj2 (Z.leb_gt _ _) Hc). }
  rewrite deletion_steps.
  erewrite Workflow.do_steps_ok; [|by apply (stop_step w _ i None (set_sent (sent w ++ [stop]) w))].
  erewrite Workflow.do_steps_ok;
    [|apply (stop_step _ _ i None (set_sent ((sent w ++ [stop]) ++ [stop]) w)); try done;
      exact (Hstop (set_sent (sent w ++ [stop]) w))].
  erewrite Workflow.do_steps_ok; [|apply (allocate_step _ _ i (Ok ip) w3); by rewrite ?Hv].
  destruct (AllocateIP_ok _ _ _ _ _ Ha) as (Hal & _ & _ & _ & Hs).
  split_and!; [done|done|exact Hal|]. rewrite Hs. simpl. by rewrite <- app_assoc.
Qed.

Lemma run_job_deletes registry now up j s :
  j_delete j = true → row_with i_ID (i_ID (j_inst j)) (instances (run_job registry now up true j s)) = None.
Proof.
  intros Hd. unfold run_job. rewrite Hd. cbn [andb].
  match goal with |- context [set_instances (without_row _ _ (instances ?x)) _] => generalize x end.
  intros s'. destruct (j_unlock j); simpl; by rewrite row_with_without, decide_True.
Qed.

Lemma run_job_world registry now up write j s :
  world (run_job registry now up write j s)
  = match Workflow.RunByType registry (j_task j) with
    | Err _ => world s
    | Ok (wf, _) => (Workflow.Run now wf (world s) (j_task j)).1.1
    end.
Proof.
  unfold run_job. destruct (Workflow.RunByType _ _) as [[wf p]|e].
  - destruct (Workflow.Run _ _ _ _) as [[w t] err]. destruct (_ && _), (j_unlock j), (j_id j); done.
  - destruct (_ && _), (j_unlock j); done.
Qed.

Lemma run_delete registry i :
  RegisterWorkflows true true = Returns registry →
  Workflow.RunByType registry (new_task "instance.delete" i)
  = Ok (DeleteInstance, (Workflow.Start, new_task "instance.delete" i)).
Proof.
  intros [= <-]. unfold Workflow.RunByType. change (Workflow.Type_ _) with "instance.delete".
  by rewrite lookup_insert_ne, lookup_insert_ne, lookup_singleton_eq by done.
Qed.

(** A deletion whose node cannot be found ends at once. *)
Lemma unreachable_run now i w :
  ints_ok i → resolveNodeAddress (valid (i_HostID i)) w = "" →
  (Workflow.Run now DeleteInstance w (new_task "instance.delete" i)).1.1 = w.
Proof.
  intros Hi Hh. rewrite deletion_steps. by erewrite Workflow.do_steps_fail; [|by apply stop_unreachable].
Qed.

(** The row of an instance is deleted even if its node could not be told: here no
    request is sent at all, the request was accepted and the row is gone. *)
Theorem unreachable_deleted registry up now id tid s r s1 j now' up' :
  RegisterWorkflows true true = Returns registry →
  deleteInstance up now id tid s = (r, s1, Some j) →
  ints_ok (j_inst j) → resolveNodeAddress (valid (i_HostID (j_inst j))) (world s) = "" →
  let s2 := run_job registry now' up' true j s1 in
  r.1 = 202 ∧ j_inst j ∈ instances s ∧ row_with i_ID (i_ID (j_inst j)) (instances s2) = None ∧
  world s2 = world s.
Proof.
  intros Hreg H Hi Hh. unfold deleteInstance, locked_task in H.
  destruct (First_instance id s) as [inst|] eqn:Ef; [|done].
  destruct (Workflow.Locks.AcquireLock _ _ _ _ _) as [[] rd]; [|done]. cbn [negb] in H.
  injection H as <- <- <-. cbn [j_inst] in Hi, Hh. split_and!; [done| |by apply run_job_deletes|].
  - unfold First_instance in Ef. destruct (pg_int id); [|done]. by apply row_with_elem in Ef as [? _].
  - rewrite run_job_world. cbn [j_task]. rewrite (run_delete _ _ Hreg).
    assert (world (store_task tid (new_task "instance.delete" inst) (set_locks rd s)) = world s) as -> by (by destruct tid).
    by apply unreachable_run.
Qed.

(** ** The service as it is put together *)

(** The end of management.New: the workflows are registered if the registry of
    modules finds the compute service. *)
Definition New_registry (new_service : string → bool) (mc : gmap string bool)
    (is_NetworkManager is_StorageManager : bool) : option (outcome (gmap string (Workflow.Workflow World))) :=
  match Modules.InitializeAll (Modules.descriptors new_service) mc with
  | Err _ => None
  | Ok (_, st) =>
      Some match Modules.GetModule_as (Modules.instances st) "compute" with
           | Some _ => RegisterWorkflows is_NetworkManager is_StorageManager
           | None => Returns ∅
           end
  end.

(** The registry finds only adapters, so that no workflow is registered and no job
    of a handler does anything but delete rows and release locks. *)
Theorem no_workflow_runs new_service mc nm sm reg :
  New_registry new_service mc nm sm = Some reg →
  reg = Returns ∅ ∧
  ∀ now up write j s, let s' := run_job ∅ now up write j s in
    world s' = world s ∧ tasks s' = tasks s ∧
    instances s' = if j_delete j && write then without_row i_ID (i_ID (j_inst j)) (instances s) else instances s.
Proof.
  unfold New_registry. destruct (Modules.InitializeAll _ _) as [[I st]|] eqn:E; [|done].
  rewrite (Modules.GetModule_as_adapter _ _ _ "compute" (Modules.initialized_adapters _ _ _ _ E)).
  clear E. intros [= <-]. split; [done|]. intros now up write j s. unfold run_job, Workflow.RunByType.
  rewrite lookup_empty. destruct (j_delete j && write), (j_unlock j); done.
Qed.
End service.

(** ** Examples *)

Definition plain_keys : Keys.
Proof.
  refine {|
    uuid_ok s := (str_len s =? 36)%nat;
    pg_uuid s := match ParseInt s with Some _ => None | None => if (str_len s =? 36)%nat then Some s else None end;
    pg_int := ParseInt
  |}; [done|done|]. by intros s n ->.
Defined.

#[local] Existing Instance ascii_only.
#[local] Existing Instance plain_keys.
#[local] Existing Instance Workflow.redis_map.

Definition node : Host :=
  mkHost 1 "11111111-2222-3333-4444-555555555555" "n1" "10.0.0.1" 8081 false "up" "enabled" 0 0 false.

Definition site : World :=
  mkWorld [node] (mkNetwork (Ipam.one_subnet Ipam.lan []) [("s1", "default")] []) [] [].

Definition web (host : string) : Instance :=
  mkInstance 7 "web" "u-7" "" 20 1 2 "building" "shutdown" 1 1 host "" "" "" "" "" "" false [].

(** Every call succeeds but those that the node refuses. *)
Definition draw (_ : World) : Z := 0.
Definition inserts (_ : World) : bool := false.
Definition stores (_ : World) (_ : Volume) : option string := None.
Definition accepts (_ : World) (_ : request) : result string (Z * string) := Ok (202, "202 Accepted").
Definition refuses (_ : World) (_ : request) : result string (Z * string) := Err "connection refused".
Definition no_detail (_ : string) : string := "unexpected end of JSON input".

Abbreviation create_run agent w i :=
  (Workflow.Run 0 (CreateInstance draw inserts stores agent no_detail "db") w (new_task "instance.create" i)).

Lemma web_ok host : ints_ok (web host).
Proof. split; [repeat constructor; simpl; lia|simpl; lia]. Qed.

Lemma web_reaches_node :
  reaches_node draw inserts stores "db" (web (h_UUID node)) site "192.168.1.2"
    (AllocateIP draw inserts "db" "u-7" "default" site).2.
Proof.
  split; [apply web_ok|vm_compute; reflexivity..|vm_compute; discriminate].
Qed.

Lemma creation_starts_witness :
  (create_run accepts site (web (h_UUID node))).1.2.(Workflow.Status) = Workflow.StatusCompleted ∧
  length (sent (create_run accepts site (web (h_UUID node))).1.1) = 1%nat.
Proof.
  pose proof (creation_starts draw inserts stores accepts no_detail "db" 0 (web (h_UUID node)) site "192.168.1.2" _
    202 "202 Accepted" web_reaches_node eq_refl ltac:(lia)) as H.
  destruct (create_run accepts site (web (h_UUID node))) as [[w t] err]. destruct H as (H1 & _ & _ & _ & H2).
  cbn [fst snd]. split; [exact H1|]. rewrite H2. reflexivity.
Defined.

Lemma failed_start_leaks_witness :
  (create_run refuses site (web (h_UUID node))).1.2.(Workflow.Status) = Workflow.StatusRolledBack ∧
  volumes (create_run refuses site (web (h_UUID node))).1.1 = [root_volume (web (h_UUID node))].
Proof.
  pose proof (failed_start_leaks draw inserts stores refuses no_detail "db" 0 (web (h_UUID node)) site "192.168.1.2" _
    "connection refused" web_reaches_node eq_refl ltac:(intros p Hp; by apply not_elem_of_nil in Hp)) as H.
  destruct (create_run refuses site (web (h_UUID node))) as [[w t] err]. destruct H as (H1 & _ & _ & H2).
  split; [exact H1|exact H2].
Defined.

Definition registered agent : gmap string (Workflow.Workflow World) :=
  match RegisterWorkflows draw inserts stores agent no_detail "db" true true with Returns r => r | Panics => ∅ end.

Lemma created_never_started_witness :
  let req := mkCreateRequest "web" 1 2 "" "" false [] 20 in
  ∃ r s1 j inst, createInstance (Ok req) "u-7" (Some 7) (Some 3) (mkState [] [] None site) = (r, s1, Some j) ∧
    let s2 := run_job (registered accepts) 0 true true j s1 in
    instances s2 = [] ++ [inst] ∧ i_Status inst = "building" ∧ sent (world s2) = [] ∧
    ∃ t, (3, t) ∈ tasks s2 ∧ Workflow.Status t = Workflow.StatusRolledBack.
Proof.
  intros req. refine (created_never_started draw inserts stores accepts no_detail "db" (registered accepts) req "u-7" 7 3
    (mkState [] [] None site) 0 true true eq_refl _ _); [repeat constructor; simpl; lia|simpl; lia].
Defined.

Lemma deletion_allocates_witness :
  let i := web (h_UUID node) in
  ∃ w t err, Workflow.Run 0 (DeleteInstance draw inserts accepts no_detail "db") site (new_task "instance.delete" i)
    = (w, t, err) ∧ err = None ∧ allocated "u-7" "192.168.1.2" site w.
Proof.
  intros i. set (stop := stop_request (resolveNodeAddress (i_HostID i) site) (i_UUID i)).
  set (w3 := (AllocateIP draw inserts "db" "u-7" "default" (set_sent [stop; stop] site)).2).
  assert (AllocateIP draw inserts "db" (i_UUID i) (network_of i) (set_sent ((sent site ++ [stop]) ++ [stop]) site)
    = (Ok "192.168.1.2", w3)) as Ha by (vm_compute; reflexivity).
  assert (valid_Instance i = i) as Hv by (vm_compute; reflexivity).
  assert (∀ w, ∃ code status, accepts w stop = Ok (code, status) ∧ code < 400) as Hag.
  { intros w. exists 202, "202 Accepted". split; [reflexivity|lia]. }
  assert (resolveNodeAddress (i_HostID i) site ≠ "") as Haddr by (vm_compute; discriminate).
  pose proof (deletion_allocates draw inserts accepts no_detail "db" 0 i site "192.168.1.2" w3) as H.
  cbv zeta in H. fold stop in H. specialize (H (web_ok _) Hv eq_refl Haddr Hag Ha).
  destruct (Workflow.Run _ _ _ _) as [[w t] err]. exists w, t, err. split; [reflexivity|].
  destruct H as (_ & H1 & H2 & _). split; [exact H1|exact H2].
Defined.

Lemma unreachable_deleted_witness :
  let s := mkState [web "gone"] [] None site in
  ∃ r s1 j, deleteInstance true 0 "7" (Some 3) s = (r, s1, Some j) ∧
    row_with i_ID 7 (instances (run_job (registered accepts) 0 true true j s1)) = None.
Proof.
  intros s. do 3 eexists. split; [reflexivity|].
  refine (proj1 (proj2 (proj2 (unreachable_deleted draw inserts stores accepts no_detail "db" (registered accepts) true 0 "7" (Some 3) s
    _ _ _ 0 true eq_refl eq_refl _ _)))); [apply web_ok|reflexivity].
Defined.

Lemma no_workflow_runs_witness :
  ∃ reg, New_registry draw inserts stores accepts no_detail "db" (λ _, true) ∅ true true = Some reg ∧ reg = Returns ∅.
Proof.
  unfold New_registry. destruct (Modules.InitializeAll_spec (λ _, true) ∅ (λ _ _, eq_refl)) as (I & st & H & _).
  assert (∃ reg, New_registry draw inserts stores accepts no_detail "db" (λ _, true) ∅ true true = Some reg) as [reg Hreg]
    by (unfold New_registry; rewrite H; by eexists).
  exists reg. split; [exact Hreg|].
  exact (proj1 (no_workflow_runs draw inserts stores accepts no_detail "db" _ _ _ _ _ Hreg)).
Defined.
