(* ===== verification/Migration.v ===== *)
(** * Live migration

    internal/management/compute/migration.go: migrations of instances between
    hosts, their execution in a goroutine and their cancellation; and the handlers
    of flavors (handler_flavor.go). A request looks up what it needs and then stores
    the migration, and the execution is a machine whose steps are the writes of the
    code, so that other requests come between them. The theorems say that a
    migration that is left alone moves the instance and its share of the hosts, that
    an instance has one active migration if its requests do not overlap and none is
    cancelled, that requests which overlap store two, and that cancelling stops
    nothing. *)
From S2P Require Import Prelude GoStrings NetIP Http Tables Compute.
Local Open Scope Z_scope.

Record Flavor := mkFlavor {
  f_ID : Z; f_Name : string; f_VCPUs : Z; f_RAM : Z; f_Disk : Z; f_Ephemeral : Z; f_Swap : Z;
  f_IsPublic : bool; f_Disabled : bool
}.

Record Migration := mkMigration {
  m_ID : Z; m_UUID : string; m_InstanceID : Z; m_InstanceUUID : string; m_InstanceName : string;
  m_SourceHostID : string; m_SourceHostName : string; m_SourceNodeAddr : string;
  m_DestHostID : string; m_DestHostName : string; m_DestNodeAddr : string;
  m_MigrationType : string; m_Status : string; m_Progress : Z; m_ErrorMessage : string;
  m_StartedAt : option Z; m_CompletedAt : option Z
}.

Record DB := mkDB {
  instances : list Instance; hosts : list Host; flavors : list Flavor; migrations : list Migration
}.

Definition set_instances (l : list Instance) (db : DB) : DB := mkDB l (hosts db) (flavors db) (migrations db).
Definition set_hosts (l : list Host) (db : DB) : DB := mkDB (instances db) l (flavors db) (migrations db).
Definition set_flavors (l : list Flavor) (db : DB) : DB := mkDB (instances db) (hosts db) l (migrations db).
Definition set_migrations (l : list Migration) (db : DB) : DB := mkDB (instances db) (hosts db) (flavors db) l.

Definition allocate (cpu ram : Z) (h : Host) : Host :=
  mkHost (h_ID h) (h_UUID h) (h_Name h) (h_IPAddress h) (h_ManagementPort h) (h_TLSEnabled h) (h_Status h)
    (h_ResourceState h) cpu ram (h_Deleted h).

Section service.
Context {keys : Keys} {defaults : Defaults}.

(** The text of the errors of the database. *)
Variable db_error : string.

(** [First(&x, id)] with a text: a number is the primary key, another text the
    condition of the query, of which [condition] gives the rows. *)
Definition First_inline {A} (key : A → Z) (condition : string → option (A → bool)) (id : string) (l : list A)
    : option A :=
  match Atoi id with
  | Some n => row_with key n l
  | None => if decide (id = "") then head l else selects ← condition id; List.find selects l
  end.

(** ** Flavors *)

Definition flavor_json (f : Flavor) : json := JObj [
  ("id", JNum (f_ID f)); ("name", JStr (f_Name f)); ("vcpus", JNum (f_VCPUs f)); ("ram", JNum (f_RAM f));
  ("disk", JNum (f_Disk f)); ("ephemeral", JNum (f_Ephemeral f)); ("swap", JNum (f_Swap f));
  ("is_public", JBool (f_IsPublic f)); ("disabled", JBool (f_Disabled f))].

(** The body of a request, with the id that the row will have; a name is unique, and
    a flavor that is not public is stored as public. *)
Definition createFlavor (create : bool) (req : result string Flavor) (db : DB) : response * DB :=
  match req with
  | Err e => (error 400 e, db)
  | Ok f =>
      let f := mkFlavor (f_ID f) (f_Name f) (f_VCPUs f) (f_RAM f) (f_Disk f) (f_Ephemeral f) (f_Swap f)
        (stored_bool true (f_IsPublic f)) false in
      if negb create || has_row f_ID (f_ID f) (flavors db)
         || existsb (λ g, bool_decide (f_Name g = f_Name f)) (flavors db)
      then (error 500 "failed to create flavor", db)
      else ((200, JObj [("flavor", flavor_json f)]), set_flavors (flavors db ++ [f]) db)
  end.

Definition listFlavors (ok : bool) (db : DB) : response :=
  if ok then (200, JObj [("flavors", JList (flavor_json <$> filter (λ f, f_Disabled f = false) (flavors db)))])
  else error 500 "failed to list flavors".

Definition getFlavor condition (id : string) (db : DB) : response :=
  match First_inline f_ID condition id (flavors db) with
  | None => error 404 "flavor not found"
  | Some f => (200, JObj [("flavor", flavor_json f)])
  end.

(** [Delete(&Flavor{}, id)]: the rows that the condition selects; [ok] tells that
    the statement succeeds. *)
Definition deleteFlavor (ok : bool) (condition : string → option (Flavor → bool)) (id : string) (db : DB)
    : response * DB :=
  let failed := (error 500 "failed to delete flavor", db) in
  let done_ l := ((200, JObj [("ok", JBool true)]), set_flavors l db) in
  if negb ok then failed
  else
    match Atoi id with
    | Some n => done_ (without_row f_ID n (flavors db))
    | None =>
        match (if decide (id = "") then None else condition id) with
        | Some selects => done_ (filter (λ f, selects f = false) (flavors db))
        | None => failed
        end
    end.

(** ** Requests *)

Record MigrateRequest := mkMigrateRequest { mr_DestHostID : string; mr_Force : bool; mr_Type : string }.

Definition active_status (status : string) : bool := bool_decide (status ∈ ["queued"; "preparing"; "migrating"]).

Definition active_migration (instanceID : Z) (db : DB) : option Migration :=
  List.find (λ m, (m_InstanceID m =? instanceID) && active_status (m_Status m)) (migrations db).

(** [CONCAT(ip_address, ':', management_port)]. *)
Definition host_addr (h : Host) : string := h_IPAddress h +:+ ":" +:+ Itoa (h_ManagementPort h).

(** The queries on the table of hosts also see rows that were deleted. A parameter
    that is not of the type of its column is an error. *)
Definition host_by_uuid (uuid : string) (db : DB) : option Host :=
  u ← pg_uuid uuid; List.find (λ h, bool_decide (h_UUID h = u)) (hosts db).

Definition host_named (dest : string) (db : DB) : option Host :=
  u ← pg_uuid dest; n ← pg_int dest;
  List.find (λ h, bool_decide (h_UUID h = u) || (h_ID h =? n)) (hosts db).

Definition less_loaded (a b : Host) : bool :=
  (h_CPUAllocated a <? h_CPUAllocated b)
  || ((h_CPUAllocated a =? h_CPUAllocated b) && (h_RAMAllocatedMB a <=? h_RAMAllocatedMB b)).

(** The first row in the order of the allocations; rows that are equal in it are in
    the order of the table. *)
Fixpoint least_loaded (l : list Host) : option Host :=
  match l with
  | [] => None
  | h :: l => match least_loaded l with Some g => Some (if less_loaded h g then h else g) | None => Some h end
  end.

Definition best_host (hostID : string) (db : DB) : option Host :=
  u ← pg_uuid hostID;
  least_loaded (filter (λ h, h_UUID h ≠ u ∧ h_Status h = "up" ∧ h_ResourceState h = "enabled") (hosts db)).

(** Where the instance goes, or why not. *)
Definition destination (req : MigrateRequest) (inst : Instance) (db : DB) : result response Host :=
  if negb (bool_decide (mr_DestHostID req = "")) then
    match host_named (mr_DestHostID req) db with
    | None => Err (error 400 "destination host not found")
    | Some h =>
        if bool_decide (h_UUID h = "") then Err (error 400 "destination host not found")
        else if negb (bool_decide (h_Status h = "up"))
        then Err (error 400 ("destination host is not available (status: " +:+ h_Status h +:+ ")"))
        else if bool_decide (h_UUID h = i_HostID inst)
        then Err (error 400 "destination host is the same as source host")
        else Ok h
    end
  else
    match best_host (i_HostID inst) db with
    | None => Err (error 503 "no available destination host found")
    | Some h => if bool_decide (h_UUID h = "") then Err (error 503 "no available destination host found") else Ok h
    end.

Definition omit_time (k : string) (t : option Z) : list (string * json) :=
  match t with Some t => [(k, JTime t)] | None => [] end.

Definition migration_json (m : Migration) : json := JObj ([
  ("id", JNum (m_ID m)); ("uuid", JStr (m_UUID m)); ("instance_id", JNum (m_InstanceID m));
  ("instance_uuid", JStr (m_InstanceUUID m)); ("instance_name", JStr (m_InstanceName m));
  ("source_host_id", JStr (m_SourceHostID m)); ("source_host_name", JStr (m_SourceHostName m));
  ("source_node_addr", JStr (m_SourceNodeAddr m)); ("dest_host_id", JStr (m_DestHostID m));
  ("dest_host_name", JStr (m_DestHostName m)); ("dest_node_addr", JStr (m_DestNodeAddr m));
  ("migration_type", JStr (m_MigrationType m)); ("status", JStr (m_Status m)); ("progress", JNum (m_Progress m))]
  ++ (if decide (m_ErrorMessage m = "") then [] else [("error_message", JStr (m_ErrorMessage m))])
  ++ omit_time "started_at" (m_StartedAt m) ++ omit_time "completed_at" (m_CompletedAt m)).

(** [Updates] of the status and the power state of an instance. *)
Definition with_state (status power : string) : Instance → Instance :=
  λ i, set_PowerState power (set_Status status i).

Definition update_instance (id : Z) (f : Instance → Instance) (db : DB) : DB :=
  set_instances (on_row i_ID id f (instances db)) db.

(** Which reads of a request succeed: of the instance, of its active migration, of
    its host and of the destination. *)
Record reads := mkReads { rd_instance : bool; rd_active : bool; rd_source : bool; rd_dest : bool }.

Definition no_destination (req : MigrateRequest) : response :=
  if negb (bool_decide (mr_DestHostID req = "")) then error 400 "destination host not found"
  else error 503 "no available destination host found".

(** [migrateInstance] up to [Create]: the migration to store, which has no number
    yet, or the answer. A body that cannot be read is an empty one; a failed read of
    the active migration counts as none, and one of the source as a host without a
    name. [uuid] is drawn. *)
Definition prepareMigration (rd : reads) condition (id : string) (req : option MigrateRequest) (uuid : string) (db : DB)
    : result response Migration :=
  match (if rd_instance rd then First_inline i_ID condition id (instances db) else None) with
  | None => Err (error 404 "instance not found")
  | Some inst =>
      if negb (bool_decide (i_Status inst = "active"))
      then Err (error 409 ("instance must be in 'active' status to migrate (current: " +:+ i_Status inst +:+ ")"))
      else if bool_decide (i_HostID inst = "") then Err (error 409 "instance has no assigned host")
      else
        match (if rd_active rd then active_migration (i_ID inst) db else None) with
        | Some m =>
            Err (409, JObj [("error", JStr "instance already has an active migration");
                            ("migration_id", JStr (m_UUID m))])
        | None =>
            let req := default (mkMigrateRequest "" false "") req in
            let type := if bool_decide (mr_Type req = "cold") then "cold" else "live" in
            let source := if rd_source rd then host_by_uuid (i_HostID inst) db else None in
            match (if rd_dest rd then destination req inst db else Err (no_destination req)) with
            | Err r => Err r
            | Ok dest =>
                Ok (mkMigration 0 uuid (i_ID inst) (i_UUID inst) (i_Name inst) (i_HostID inst)
                  (from_option h_Name "" source) (from_option host_addr "" source) (h_UUID dest) (h_Name dest)
                  (host_addr dest) type "queued" 0 "" None None)
            end
        end
  end.

Definition with_id (mid : Z) (m : Migration) : Migration :=
  mkMigration mid (m_UUID m) (m_InstanceID m) (m_InstanceUUID m) (m_InstanceName m) (m_SourceHostID m)
    (m_SourceHostName m) (m_SourceNodeAddr m) (m_DestHostID m) (m_DestHostName m) (m_DestNodeAddr m)
    (m_MigrationType m) (m_Status m) (m_Progress m) (m_ErrorMessage m) (m_StartedAt m) (m_CompletedAt m).

(** [Create]: the row gets the number [mid]; it is stored if [create] says so and its
    keys are new. *)
Definition storeMigration (create : bool) (mid : Z) (m : Migration) (db : DB) : result response (Migration * DB) :=
  if negb create || has_row m_ID mid (migrations db)
     || existsb (λ x, bool_decide (m_UUID x = m_UUID m)) (migrations db)
  then Err (error 500 "failed to create migration")
  else let m := with_id mid m in Ok (m, set_migrations (migrations db ++ [m]) db).

(** The update of the instance, whose error is ignored. *)
Definition markMigrating (write : bool) (m : Migration) (db : DB) : DB :=
  if write then update_instance (m_InstanceID m) (with_state "migrating" "running") db else db.

(** The handler by itself. The third result is left to a goroutine. *)
Definition migrateInstance (rd : reads) condition (id : string) (req : option MigrateRequest) (uuid : string) (mid : Z)
    (create write : bool) (db : DB) : response * DB * option Migration :=
  match prepareMigration rd condition id req uuid db with
  | Err r => (r, db, None)
  | Ok m =>
      match storeMigration create mid m db with
      | Err r => (r, db, None)
      | Ok (m, db) =>
          ((202, JObj [("migration", migration_json m);
              ("message", JStr ("migration " +:+ m_UUID m +:+ " queued: " +:+ m_SourceHostName m +:+ " -> "
                                +:+ m_DestHostName m))]), markMigrating write m db, Some m)
      end
  end.

(** ** Execution *)

Definition with_progress (status : string) (progress : Z) (startedAt completedAt : option Z) (err : string)
    (m : Migration) : Migration :=
  mkMigration (m_ID m) (m_UUID m) (m_InstanceID m) (m_InstanceUUID m) (m_InstanceName m) (m_SourceHostID m)
    (m_SourceHostName m) (m_SourceNodeAddr m) (m_DestHostID m) (m_DestHostName m) (m_DestNodeAddr m)
    (m_MigrationType m) status progress (if decide (err = "") then m_ErrorMessage m else err)
    (match startedAt with Some t => Some t | None => m_StartedAt m end)
    (match completedAt with Some t => Some t | None => m_CompletedAt m end).

(** The error of the write is ignored; [ok] tells that it succeeds. *)
Definition updateMigrationStatus (ok : bool) (id : Z) (status : string) (progress : Z)
    (startedAt completedAt : option Z) (errorMsg : string) (db : DB) : DB :=
  if ok then set_migrations (on_row m_ID id (with_progress status progress startedAt completedAt errorMsg) (migrations db)) db
  else db.

(** Where a migration is that is stored: its request still has to mark the instance,
    then its goroutine runs. The flavor that was read and the error of a failure are
    kept. *)
Inductive pc :=
| Marking | Preparing | Checking | Checked | Commanding | Commanded | Waiting | Assigning
| LoadingInstance | LoadingFlavor (flavorID : Z) | Releasing (f : Flavor) | Receiving (f : Flavor) | Completing
| Failing (reason : string) | Restoring (reason : string) | Finished.

(** [preMigrationCheck]: an unreadable row is an error, a missing one has no
    status. *)
Definition preMigrationCheck (ok : bool) (m : Migration) (db : DB) : option string :=
  if negb ok || bool_decide (pg_uuid (m_DestHostID m) = None)
  then Some ("destination host lookup failed: " +:+ db_error)
  else
    let status := from_option h_Status "" (host_by_uuid (m_DestHostID m) db) in
    if negb (bool_decide (status = "up"))
    then Some ("destination host is no longer available (status: " +:+ status +:+ ")") else None.

Definition sendMigrationCommand (m : Migration) : option string :=
  if bool_decide (m_SourceNodeAddr m = "") then Some "source node address is empty" else None.

Definition waitForMigration (m : Migration) : option string := None.

(** The two updates of the hosts of [postMigration]. *)
Definition decreased (vcpus ram : Z) (source : string) (h : Host) : Host :=
  if bool_decide (Some (h_UUID h) = pg_uuid source)
  then allocate (Z.max (h_CPUAllocated h - vcpus) 0) (Z.max (h_RAMAllocatedMB h - ram) 0) h else h.

Definition increased (vcpus ram : Z) (dest : string) (h : Host) : Host :=
  if bool_decide (Some (h_UUID h) = pg_uuid dest)
  then allocate (h_CPUAllocated h + vcpus) (h_RAMAllocatedMB h + ram) h else h.

Definition assign (m : Migration) : Instance → Instance :=
  λ i, with_state "active" "running" (set_NodeAddress (m_DestNodeAddr m) (set_HostID (m_DestHostID m) i)).

(** The next read or write of [executeMigration], or of the request before; [ok] tells
    that it succeeds. *)
Definition next (ok : bool) (now : Z) (m : Migration) (p : pc) (db : DB) : pc * DB :=
  let status := updateMigrationStatus ok (m_ID m) in
  match p with
  | Marking => (Preparing, markMigrating ok m db)
  | Preparing => (Checking, status "preparing" 10 (Some now) None "" db)
  | Checking =>
      (match preMigrationCheck ok m db with
       | Some e => Failing ("pre-migration check failed: " +:+ e)
       | None => Checked
       end, db)
  | Checked => (Commanding, status "preparing" 25 None None "" db)
  | Commanding =>
      (match sendMigrationCommand m with
       | Some e => Failing ("migration command failed: " +:+ e)
       | None => Commanded
       end, db)
  | Commanded => (Waiting, status "migrating" 50 None None "" db)
  | Waiting =>
      match waitForMigration m with
      | Some e => (Failing ("migration failed: " +:+ e), db)
      | None => (Assigning, status "migrating" 90 None None "" db)
      end
  | Assigning =>
      if ok then (LoadingInstance, update_instance (m_InstanceID m) (assign m) db)
      else (Failing ("post-migration update failed: failed to update instance host: " +:+ db_error), db)
  | LoadingInstance =>
      (match (if ok then row_with i_ID (m_InstanceID m) (instances db) else None) with
       | Some inst => LoadingFlavor (i_FlavorID inst)
       | None => Completing
       end, db)
  | LoadingFlavor flavorID =>
      (match (if ok then row_with f_ID flavorID (flavors db) else None) with
       | Some f => Releasing f
       | None => Completing
       end, db)
  | Releasing f =>
      (Receiving f,
       if ok then set_hosts (decreased (f_VCPUs f) (f_RAM f) (m_SourceHostID m) <$> hosts db) db else db)
  | Receiving f =>
      (Completing,
       if ok then set_hosts (increased (f_VCPUs f) (f_RAM f) (m_DestHostID m) <$> hosts db) db else db)
  | Completing => (Finished, status "completed" 100 None (Some now) "" db)
  | Failing reason => (Restoring reason, status "failed" 0 None (Some now) reason db)
  | Restoring reason =>
      (Finished, if ok then update_instance (m_InstanceID m) (with_state "active" "running") db else db)
  | Finished => (Finished, db)
  end.

(** [executeMigration] without interruption. *)
Fixpoint execute (fuel : nat) (now : Z) (m : Migration) (p : pc) (db : DB) : pc * DB :=
  match fuel with
  | O => (p, db)
  | S fuel => let (p, db) := next true now m p db in execute fuel now m p db
  end.

Definition executeMigration (now : Z) (m : Migration) (db : DB) : DB := (execute 12 now m Preparing db).2.

(** ** Other handlers *)

Definition listMigrations (ok : bool) (status instanceID : string) (db : DB) : response :=
  let selected := filter (λ m, (status = "" ∨ m_Status m = status) ∧
    (instanceID = "" ∨ Some (m_InstanceID m) = pg_int instanceID)) (migrations db) in
  let l := take 50 (reverse selected) in
  if ok && (bool_decide (instanceID = "") || bool_decide (is_Some (pg_int instanceID)))
  then (200, JObj [("migrations", JList (migration_json <$> l)); ("total", JNum (Z.of_nat (length l)))])
  else error 500 "failed to list migrations".

(** By UUID, then as [First(&migration, id)]. *)
Definition find_migration condition (id : string) (db : DB) : option Migration :=
  match List.find (λ m, bool_decide (m_UUID m = id)) (migrations db) with
  | Some m => Some m
  | None => First_inline m_ID condition id (migrations db)
  end.

Definition getMigration condition (id : string) (db : DB) : response :=
  match find_migration condition id db with
  | None => error 404 "migration not found"
  | Some m => (200, JObj [("migration", migration_json m)])
  end.

Definition finished_status (status : string) : bool :=
  bool_decide (status ∈ ["completed"; "failed"; "cancelled"]).

Definition cancelMigration condition (ok write : bool) (now : Z) (id : string) (db : DB) : response * DB :=
  match find_migration condition id db with
  | None => (error 404 "migration not found", db)
  | Some m =>
      if finished_status (m_Status m) then (error 409 ("migration is already " +:+ m_Status m), db)
      else
        let db := updateMigrationStatus ok (m_ID m) "cancelled" 0 None (Some now) "cancelled by user" db in
        let db := if write then update_instance (m_InstanceID m) (with_state "active" "running") db else db in
        ((200, JObj [("ok", JBool true); ("message", JStr "migration cancelled")]), db)
  end.

(** ** A migration that is left alone *)

Lemma find_destination req inst db h :
  destination req inst db = Ok h →
  mr_DestHostID req = "" ∧ h ∈ hosts db ∧ h_Status h = "up" ∧ h_ResourceState h = "enabled" ∧
  pg_uuid (i_HostID inst) ≠ Some (h_UUID h).
Proof.
  unfold destination. destruct (bool_decide (mr_DestHostID req = "")) eqn:Ed; simpl; zbool.
  - unfold best_host. destruct (pg_uuid (i_HostID inst)) as [u|]; [|done]. simpl.
    destruct (least_loaded _) as [g|] eqn:El; [|done]. case_bool_decide; [done|]. intros [= <-].
    assert (∀ l g, least_loaded l = Some g → g ∈ l) as Hin.
    { clear. induction l as [|h l IH]; intros g; simpl; [done|]. destruct (least_loaded l) as [g'|].
      - intros [= <-]. destruct (less_loaded h g'); [by left|right; by apply IH].
      - intros [= <-]. by left. }
    apply Hin in El. rewrite list_elem_of_filter in El. naive_solver.
  - unfold host_named. destruct (pg_uuid _) as [u|] eqn:Eu; [|done]. simpl.
    destruct (pg_int _) as [n|] eqn:En; [|done]. apply pg_int_uuid in En. congruence.
Qed.

(** On PostgreSQL no host is found by the text of a request, which would have to be
    a UUID and a number: every request that names a destination is refused. *)
Theorem named_destination_refused rd condition id req uuid mid create write db :
  mr_DestHostID req ≠ "" → (migrateInstance rd condition id (Some req) uuid mid create write db).2 = None.
Proof.
  intros Hd. unfold migrateInstance, prepareMigration. destruct (if rd_instance rd then _ else _) as [inst|]; [|done].
  destruct (negb _); [done|]. destruct (bool_decide (i_HostID inst = "")); [done|].
  destruct (if rd_active rd then _ else _); [done|]. simpl. destruct (rd_dest rd); [|done].
  destruct (destination req inst db) as [h|r] eqn:E; [|done]. by apply find_destination in E as [? _].
Qed.

(** The row of the migration and the instance are there. *)
Definition present (m : Migration) (db : DB) : Prop :=
  is_Some (row_with m_ID (m_ID m) (migrations db)) ∧ is_Some (row_with i_ID (m_InstanceID m) (instances db)).

(** The instance is assigned to the destination. *)
Definition assigned (m : Migration) (db : DB) : Prop :=
  ∃ i, row_with i_ID (m_InstanceID m) (instances db) = Some i ∧ i_HostID i = m_DestHostID m ∧
    i_NodeAddress i = m_DestNodeAddr m ∧ i_Status i = "active".

(** What holds where a run is that does not fail. *)
Definition on_course (m : Migration) (p : pc) (db : DB) : Prop :=
  present m db ∧ m_SourceNodeAddr m ≠ "" ∧
  match p with
  | Marking | Preparing | Checking => preMigrationCheck true m db = None
  | LoadingInstance | LoadingFlavor _ | Releasing _ | Receiving _ | Completing => assigned m db
  | Finished => assigned m db ∧ m_Status <$> row_with m_ID (m_ID m) (migrations db) = Some "completed"
  | Failing _ | Restoring _ => False
  | _ => True
  end.

Definition rank (p : pc) : nat :=
  match p with
  | Marking => 13 | Preparing => 12 | Checking => 11 | Checked => 10 | Commanding => 9 | Commanded => 8 | Waiting => 7
  | Assigning => 6 | LoadingInstance => 5 | LoadingFlavor _ => 4 | Releasing _ => 3 | Receiving _ => 2 | Completing => 1
  | _ => 0
  end.

Lemma row_with_status id ok id' st n a b e db :
  row_with m_ID id (migrations (updateMigrationStatus ok id' st n a b e db))
  = if ok && (id =? id') then with_progress st n a b e <$> row_with m_ID id (migrations db)
    else row_with m_ID id (migrations db).
Proof.
  unfold updateMigrationStatus. destruct ok; [|done]. simpl. destruct (id =? id') eqn:E; zbool.
  - subst. by apply row_with_on_row.
  - by apply row_with_on_other.
Qed.

Lemma present_status m ok id st n a b e db : present m db → present m (updateMigrationStatus ok id st n a b e db).
Proof.
  intros [H1 H2]. split; [|by destruct ok]. rewrite row_with_status. destruct (_ && _); [|done].
  by rewrite fmap_is_Some.
Qed.

Lemma row_with_update id id' f db :
  (∀ i, i_ID (f i) = i_ID i) →
  row_with i_ID id (instances (update_instance id' f db))
  = if id =? id' then f <$> row_with i_ID id (instances db) else row_with i_ID id (instances db).
Proof.
  intros Hf. simpl. destruct (id =? id') eqn:E; zbool.
  - subst. apply row_with_on_row. intros x _ <-. apply Hf.
  - apply row_with_on_other; [|done]. intros x _ <-. apply Hf.
Qed.

Lemma present_update m id f db : (∀ i, i_ID (f i) = i_ID i) → present m db → present m (update_instance id f db).
Proof.
  intros Hf [H1 H2]. split; [done|]. rewrite row_with_update by done. case_match; [|done]. by rewrite fmap_is_Some.
Qed.

Lemma next_on_course now m p db :
  on_course m p db → rank p ≠ 0%nat →
  on_course m (next true now m p db).1 (next true now m p db).2 ∧ (rank (next true now m p db).1 < rank p)%nat.
Proof.
  intros (Hp & Ha & Hc) Hr. unfold on_course. destruct p; try done; cbn [next fst snd rank].
  - split_and!; [by apply present_update|done|exact Hc|lia].
  - split_and!; [by apply present_status|done|exact Hc|lia].
  - rewrite Hc. simpl. split_and!; try done; lia.
  - split_and!; [by apply present_status|done|done|lia].
  - unfold sendMigrationCommand. rewrite bool_decide_eq_false_2 by done. simpl. split_and!; done || lia.
  - split_and!; [by apply present_status|done|done|lia].
  - unfold waitForMigration. cbn [fst snd rank]. split_and!; [by apply present_status|done|done|lia].
  - split_and!; [by apply present_update|done| |lia]. unfold assigned. rewrite row_with_update, Z.eqb_refl by done.
    destruct Hp as [_ [i ->]]. simpl. by eexists.
  - destruct (row_with i_ID _ _); simpl; split_and!; done || lia.
  - destruct (row_with f_ID _ _); simpl; split_and!; done || lia.
  - split_and!; done || lia.
  - split_and!; done || lia.
  - split_and!; [by apply present_status|done|exact Hc| |lia].
    rewrite row_with_status, Z.eqb_refl. simpl. by destruct Hp as [[x ->] _].
Qed.

Lemma finished_stays k now m db : execute k now m Finished db = (Finished, db).
Proof. by induction k. Qed.

Lemma execute_on_course k now m p db :
  on_course m p db →
  on_course m (execute k now m p db).1 (execute k now m p db).2 ∧ (rank (execute k now m p db).1 <= rank p - k)%nat.
Proof.
  revert p db. induction k as [|k IH]; intros p db Hc; simpl; [split; [done|lia]|].
  destruct (decide (rank p = 0%nat)) as [Hz|Hz].
  - assert (p = Finished) as -> by (by destruct p; destruct Hc as (_ & _ & Hc)). simpl.
    rewrite finished_stays. split; [done|simpl; lia].
  - destruct (next_on_course now m p db Hc Hz) as [H1 H2]. destruct (next true now m p db) as [p' db']. simpl in *.
    destruct (IH p' db' H1) as [H3 H4]. split; [done|lia].
Qed.

Lemma finished_on_course m p db : on_course m p db → rank p = 0%nat → p = Finished.
Proof. by destruct p; intros (_ & _ & H) Hr. Qed.

Lemma cancel_on_course condition ok write now m p db id :
  on_course m p db → p ≠ Finished → on_course m p (cancelMigration condition ok write now id db).2.
Proof.
  intros (Hp & Ha & Hc) Hf. unfold cancelMigration. destruct (find_migration _ _ _) as [m'|]; [|done].
  destruct (finished_status _); [done|].
  set (db1 := updateMigrationStatus _ _ _ _ _ _ _ _).
  assert (present m db1 ∧ (assigned m db → assigned m db1)) as [Hp1 Ha1]
    by (split; [by apply present_status|by destruct ok]).
  assert (hosts db1 = hosts db) as Hh by (by destruct ok).
  assert (preMigrationCheck true m db1 = preMigrationCheck true m db) as Hpre
    by (unfold preMigrationCheck, host_by_uuid; by rewrite Hh).
  assert (on_course m p db1) as H1.
  { split_and!; [done|done|]. destruct p; try done; rewrite ?Hpre; auto. }
  destruct write; [|done]. simpl snd. destruct H1 as (_ & _ & H1). split_and!; [by apply present_update|done|].
  destruct p; try done.
  all: destruct H1 as (i & Hi & Hhost & Haddr & Hst); unfold assigned; rewrite row_with_update by done;
    case_match; rewrite Hi; simpl; by eexists.
Qed.

(** What is known of the flavor and of the hosts during a run: first they are as they
    were, [l], then the share of the flavor [f] is taken from the source, and then
    given to the destination. *)
Definition hosts_at (m : Migration) (f : Flavor) (l : list Host) (p : pc) (db : DB) : Prop :=
  let released := decreased (f_VCPUs f) (f_RAM f) (m_SourceHostID m) <$> l in
  let received := increased (f_VCPUs f) (f_RAM f) (m_DestHostID m) <$> released in
  let flavored i := row_with f_ID i (flavors db) = Some f in
  match p with
  | LoadingFlavor i => flavored i ∧ hosts db = l
  | Releasing g => g = f ∧ hosts db = l
  | Receiving g => g = f ∧ hosts db = released
  | Completing | Finished => hosts db = received
  | _ => (∃ i, row_with i_ID (m_InstanceID m) (instances db) = Some i ∧ flavored (i_FlavorID i)) ∧ hosts db = l
  end.

Lemma next_hosts now m f p db l :
  on_course m p db → rank p ≠ 0%nat → hosts_at m f l p db →
  hosts_at m f l (next true now m p db).1 (next true now m p db).2.
Proof.
  intros (_ & Ha & Hc) Hr Hl.
  assert (∀ g, (∀ i, i_ID (g i) = i_ID i) → (∀ i, i_FlavorID (g i) = i_FlavorID i) → ∀ i,
    row_with i_ID (m_InstanceID m) (instances db) = Some i ∧ row_with f_ID (i_FlavorID i) (flavors db) = Some f →
    ∃ i, row_with i_ID (m_InstanceID m) (instances (update_instance (m_InstanceID m) g db)) = Some i ∧
      row_with f_ID (i_FlavorID i) (flavors db) = Some f) as Hup.
  { intros g Hg1 Hg2 i [Hi Hf]. exists (g i). rewrite row_with_update, Z.eqb_refl, Hi by done. by rewrite Hg2. }
  destruct p; try done; cbn [next fst snd]; try (destruct Hl as [(i & Hi & Hf) Hl]).
  - split; [|done]. unfold markMigrating. by apply (Hup (with_state "migrating" "running") (λ _, eq_refl) (λ _, eq_refl) i).
  - rewrite Hc. split; [by exists i|done].
  - unfold sendMigrationCommand. rewrite bool_decide_eq_false_2 by done. split; [by exists i|done].
  - split; [|done]. by apply (Hup (assign m) (λ _, eq_refl) (λ _, eq_refl) i).
  - by rewrite Hi.
  - destruct Hl as [Hf Hl]. by rewrite Hf.
  - destruct Hl as [-> Hl]. simpl. by rewrite Hl.
  - destruct Hl as [-> Hl]. simpl. by rewrite Hl.
Qed.

Lemma execute_hosts k now m f p db l :
  on_course m p db → hosts_at m f l p db →
  hosts_at m f l (execute k now m p db).1 (execute k now m p db).2.
Proof.
  revert p db. induction k as [|k IH]; intros p db Hc Hl; simpl; [done|].
  destruct (decide (rank p = 0%nat)) as [Hz|Hz].
  - assert (p = Finished) as -> by (by destruct p; destruct Hc as (_ & _ & Hc)). simpl. by rewrite finished_stays.
  - destruct (next_on_course now m p db Hc Hz) as [H1 _]. pose proof (next_hosts now m f p db l Hc Hz Hl) as H2.
    destruct (next true now m p db) as [p' db']. by apply IH.
Qed.

Lemma executed m db now :
  on_course m Preparing db →
  let db' := executeMigration now m db in
  assigned m db' ∧ m_Status <$> row_with m_ID (m_ID m) (migrations db') = Some "completed" ∧
  ∀ f, hosts_at m f (hosts db) Preparing db → hosts_at m f (hosts db) Finished db'.
Proof.
  intros Hc. destruct (execute_on_course 12 now m Preparing db Hc) as [H1 H2].
  pose proof (λ f, execute_hosts 12 now m f Preparing db (hosts db) Hc) as Hh.
  unfold executeMigration. destruct (execute 12 now m Preparing db) as [p' db'].
  cbn [fst snd] in *. assert (p' = Finished) as -> by (apply (finished_on_course m p' db' H1); simpl in H2; lia).
  destruct H1 as (_ & _ & Ha & Hs). split_and!; [done|done|]. intros f Hf. by apply Hh.
Qed.

(** Cancelling stops nothing: whenever it happens before the last write, and
    although it is confirmed, the run goes on, the instance is moved, and the
    migration ends as completed. *)
Theorem cancel_ignored condition ok write m db id k now now' now'' :
  on_course m Preparing db →
  let (p, db1) := execute k now m Preparing db in
  let (r, db2) := cancelMigration condition ok write now' id db1 in
  let (p', db3) := execute 12 now'' m p db2 in
  p ≠ Finished → r.1 = 200 → p' = Finished ∧ assigned m db3 ∧
    m_Status <$> row_with m_ID (m_ID m) (migrations db3) = Some "completed".
Proof.
  intros Hc. destruct (execute_on_course k now m Preparing db Hc) as [H1 H2].
  destruct (execute k now m Preparing db) as [p db1]. cbn [fst snd] in *.
  pose proof (λ Hp, cancel_on_course condition ok write now' m p db1 id H1 Hp) as H3.
  destruct (cancelMigration _ _ _ _ _ _) as [r db2]. cbn [snd] in H3.
  pose proof (λ Hp, execute_on_course 12 now'' m p db2 (H3 Hp)) as H4.
  destruct (execute 12 now'' m p db2) as [p' db3]. cbn [fst snd rank] in *. intros Hp _.
  destruct (H4 Hp) as [H5 H6].
  assert (p' = Finished) as -> by (apply (finished_on_course m p' db3 H5); lia).
  by destruct H5 as (_ & _ & ? & ?).
Qed.

(** *** The hosts' allocations *)

Definition total (g : Host → Z) (l : list Host) : Z := foldr (λ h n, g h + n) 0 l.

Lemma total_update (g : Host → Z) (f : Host → Host) x l :
  NoDup (h_UUID <$> l) → x ∈ l → (∀ h, h ∈ l → h_UUID h ≠ h_UUID x → g (f h) = g h) →
  total g (f <$> l) = total g l + (g (f x) - g x).
Proof.
  induction l as [|h l IH]; intros Hnd Hx Hf; [by apply not_elem_of_nil in Hx|].
  rewrite fmap_cons in *. apply list.NoDup_cons in Hnd as [Hn Hnd]. simpl. apply elem_of_cons in Hx as [->|Hx].
  - assert (total g (f <$> l) = total g l) as ->; [|lia].
    assert (∀ y, y ∈ l → g (f y) = g y) as Hl.
    { intros y Hy. apply Hf; [by right|]. intros E. apply Hn. rewrite <- E. by apply list_elem_of_fmap_2. }
    clear -Hl. induction l as [|y l IH]; [done|]. rewrite fmap_cons. simpl. rewrite IH, Hl; [done|by left|].
    intros z Hz. apply Hl. by right.
  - rewrite IH; [|done|done|intros y Hy; apply Hf; by right]. rewrite (Hf h); [lia|by left|].
    intros E. apply Hn. rewrite E. by apply list_elem_of_fmap_2.
Qed.

(** Moving a share from one host to another keeps the total. *)
Lemma moved_total vcpus ram a b l :
  NoDup (h_UUID <$> l) → a ∈ l → b ∈ l → h_UUID a ≠ h_UUID b →
  pg_uuid (h_UUID b) = Some (h_UUID b) → vcpus <= h_CPUAllocated a → ram <= h_RAMAllocatedMB a →
  ∀ src, pg_uuid src = Some (h_UUID a) →
  let l' := increased vcpus ram (h_UUID b) <$> (decreased vcpus ram src <$> l) in
  total h_CPUAllocated l' = total h_CPUAllocated l ∧ total h_RAMAllocatedMB l' = total h_RAMAllocatedMB l.
Proof.
  intros Hnd Ha Hb Hne Eb Hc Hr src Ea l'. unfold l'.
  set (dec := decreased vcpus ram src). set (inc := increased vcpus ram (h_UUID b)).
  assert (∀ h, h_UUID (dec h) = h_UUID h) as Hd by (intros h; unfold dec, decreased; by case_bool_decide).
  assert (h_UUID <$> (dec <$> l) = h_UUID <$> l) as Hk.
  { rewrite <- list_fmap_compose. apply list_fmap_ext. intros i h _. apply Hd. }
  assert (dec a = allocate (h_CPUAllocated a - vcpus) (h_RAMAllocatedMB a - ram) a) as Da.
  { unfold dec, decreased. rewrite bool_decide_eq_true_2 by done. f_equal; lia. }
  assert (inc b = allocate (h_CPUAllocated b + vcpus) (h_RAMAllocatedMB b + ram) b) as Ib.
  { unfold inc, increased. by rewrite bool_decide_eq_true_2. }
  assert (∀ h, h_UUID h ≠ h_UUID a → dec h = h) as Dn.
  { intros h Hh. unfold dec, decreased. rewrite bool_decide_eq_false_2; [done|congruence]. }
  assert (∀ h, h_UUID h ≠ h_UUID b → inc h = h) as In.
  { intros h Hh. unfold inc, increased. rewrite bool_decide_eq_false_2; [done|congruence]. }
  assert (b ∈ dec <$> l) as Hb' by (rewrite <- (Dn b) by done; by apply list_elem_of_fmap_2).
  assert (∀ g, total g (inc <$> (dec <$> l)) = total g l + (g (dec a) - g a) + (g (inc b) - g b)) as Ht.
  { intros g. rewrite (total_update g inc b), (total_update g dec a); [done|done|done| |by rewrite Hk|done|].
    - intros h _ Hh. by rewrite Dn.
    - intros h _ Hh. by rewrite In. }
  rewrite !Ht, Da, Ib. simpl. lia.
Qed.

(** The two updates, host by host. *)
Lemma shifted vcpus ram src dest a b (l : list Host) :
  pg_uuid src = Some a → pg_uuid dest = Some b → a ≠ b →
  increased vcpus ram dest <$> (decreased vcpus ram src <$> l) =
  (λ h, if decide (h_UUID h = a)
        then allocate (Z.max (h_CPUAllocated h - vcpus) 0) (Z.max (h_RAMAllocatedMB h - ram) 0) h
        else if decide (h_UUID h = b) then allocate (h_CPUAllocated h + vcpus) (h_RAMAllocatedMB h + ram) h
        else h) <$> l.
Proof.
  intros Ea Eb Hne. rewrite <- list_fmap_compose. apply list_fmap_ext. intros i h _. unfold compose, increased, decreased.
  rewrite Ea, Eb. destruct (decide (h_UUID h = a)) as [Ha|Ha].
  - rewrite (bool_decide_eq_true_2 (Some (h_UUID h) = Some a)) by congruence. simpl.
    rewrite bool_decide_eq_false_2 by congruence. done.
  - rewrite (bool_decide_eq_false_2 (Some (h_UUID h) = Some a)) by congruence.
    destruct (decide (h_UUID h = b)) as [Hb|Hb].
    + by rewrite bool_decide_eq_true_2 by congruence.
    + by rewrite bool_decide_eq_false_2 by congruence.
Qed.

Lemma First_inline_elem {A} (key : A → Z) condition id (l : list A) x :
  First_inline key condition id l = Some x → x ∈ l.
Proof.
  unfold First_inline. destruct (Atoi id) as [n|].
  - by intros [? _]%row_with_elem.
  - case_decide; [destruct l; [done|intros [= <-]; by left]|].
    destruct (condition id) as [P|]; [|done]. simpl. by intros [? _]%find_elem.
Qed.

(** What a request that may be stored has checked. *)
Lemma prepared rd condition id req uuid db m :
  prepareMigration rd condition id req uuid db = Ok m →
  ∃ inst h, inst ∈ instances db ∧ i_Status inst = "active" ∧ (rd_active rd = true → active_migration (i_ID inst) db = None) ∧
    m_InstanceID m = i_ID inst ∧ m_SourceHostID m = i_HostID inst ∧
    (rd_source rd = true → m_SourceNodeAddr m = from_option host_addr "" (host_by_uuid (i_HostID inst) db)) ∧
    destination (default (mkMigrateRequest "" false "") req) inst db = Ok h ∧ m_DestHostID m = h_UUID h ∧
    m_Status m = "queued".
Proof.
  unfold prepareMigration. destruct (rd_instance rd); [|done]. destruct (First_inline _ _ _ _) as [inst|] eqn:Ef; [|done].
  apply First_inline_elem in Ef. destruct (bool_decide (i_Status inst = "active")) eqn:Es; [|done]. zbool. simpl.
  destruct (bool_decide (i_HostID inst = "")); [done|]. destruct (if rd_active rd then _ else _) eqn:Ea; [done|].
  destruct (rd_dest rd); [|done]. destruct (destination _ _ _) as [h|] eqn:Ed; [|done].
  intros [= <-]. exists inst, h. split_and!; try done; [intros E; by rewrite E in Ea|]. intros E. by rewrite E.
Qed.

Lemma stored create mid m db m' db' :
  storeMigration create mid m db = Ok (m', db') →
  m' = with_id mid m ∧ has_row m_ID mid (migrations db) = false ∧ db' = set_migrations (migrations db ++ [m']) db.
Proof. unfold storeMigration. destruct (_ || _) eqn:E; [done|]. zbool. by intros [= <- <-]. Qed.

(** What an accepted request has checked and stored. *)
Lemma migrateInstance_accepted rd condition id req uuid mid create write db r db1 m :
  migrateInstance rd condition id req uuid mid create write db = (r, db1, Some m) →
  ∃ inst h, inst ∈ instances db ∧ i_Status inst = "active" ∧
    m_InstanceID m = i_ID inst ∧ m_SourceHostID m = i_HostID inst ∧
    (rd_source rd = true → m_SourceNodeAddr m = from_option host_addr "" (host_by_uuid (i_HostID inst) db)) ∧
    destination (default (mkMigrateRequest "" false "") req) inst db = Ok h ∧ m_DestHostID m = h_UUID h ∧
    has_row m_ID (m_ID m) (migrations db) = false ∧ r.1 = 202 ∧
    db1 = markMigrating write m (set_migrations (migrations db ++ [m]) db).
Proof.
  unfold migrateInstance. destruct (prepareMigration _ _ _ _ _ _) as [m0|] eqn:Ep; [|done].
  apply prepared in Ep as (inst & h & Hin & Hst & _ & Hid & Hsh & Hsa & Hd & Hdest & _).
  destruct (storeMigration _ _ _ _) as [[m1 db0]|] eqn:Es; [|done]. apply stored in Es as (-> & Hnew & ->).
  intros [= <- <- <-]. by exists inst, h.
Qed.

(** The rows that the database can have: keys are unique, and the UUIDs of hosts are
    in their canonical form. *)
Record tables_ok (db : DB) : Prop := {
  ok_instances : keyed i_ID (instances db);
  ok_hosts : NoDup (h_UUID <$> hosts db);
  ok_uuids : ∀ h, h ∈ hosts db → pg_uuid (h_UUID h) = Some (h_UUID h)
}.

Lemma host_by_uuid_row db h : tables_ok db → h ∈ hosts db → host_by_uuid (h_UUID h) db = Some h.
Proof.
  intros [_ Hn Hu] Hh. unfold host_by_uuid. rewrite Hu by done. simpl.
  destruct (List.find _ _) as [g|] eqn:E.
  - apply find_elem in E as [Hg E]. zbool. f_equal. by apply (nodup_key h_UUID (hosts db)).
  - rewrite find_none_elem in E. specialize (E h Hh). by rewrite bool_decide_eq_true_2 in E.
Qed.

Lemma accepted_on_course rd condition id req uuid mid create write db r db1 m src :
  tables_ok db → migrateInstance rd condition id req uuid mid create write db = (r, db1, Some m) →
  rd_source rd = true → host_by_uuid (m_SourceHostID m) db = Some src →
  on_course m Preparing db1 ∧ hosts db1 = hosts db ∧ flavors db1 = flavors db ∧
  (∃ dest, dest ∈ hosts db ∧ h_UUID dest = m_DestHostID m ∧ h_UUID src ≠ h_UUID dest) ∧
  ∃ inst inst1, row_with i_ID (m_InstanceID m) (instances db) = Some inst ∧
    row_with i_ID (m_InstanceID m) (instances db1) = Some inst1 ∧ i_FlavorID inst1 = i_FlavorID inst.
Proof.
  intros Hok H Hrd Hsrc. apply migrateInstance_accepted in H
    as (inst & h & Hin & _ & Hid & Hsh & Hsa & Hd & Hdest & Hnew & _ & ->).
  apply find_destination in Hd as (_ & Hh & Hup & _ & Hne).
  assert (row_with i_ID (i_ID inst) (instances db) = Some inst) as Hrow by (by apply row_with_keyed; [apply Hok| |]).
  set (db0 := set_migrations (migrations db ++ [m]) db).
  assert (present m db0) as Hp.
  { split; [|rewrite Hid; simpl; by rewrite Hrow]. simpl. rewrite row_with_snoc by done. by rewrite Z.eqb_refl. }
  assert (preMigrationCheck true m db0 = None) as Hpre.
  { unfold preMigrationCheck. rewrite Hdest, (ok_uuids _ Hok h Hh). simpl.
    change (host_by_uuid (h_UUID h) db0) with (host_by_uuid (h_UUID h) db). rewrite host_by_uuid_row by done.
    simpl. by rewrite bool_decide_eq_true_2. }
  assert (m_SourceNodeAddr m ≠ "") as Haddr.
  { rewrite Hsa, <- Hsh, Hsrc by done. simpl. unfold host_addr. by destruct (h_IPAddress src). }
  assert (pg_uuid (i_HostID inst) = Some (h_UUID src)) as Hps.
  { rewrite <- Hsh. unfold host_by_uuid in Hsrc. destruct (pg_uuid (m_SourceHostID m)) as [u|]; [|done].
    simpl in Hsrc. apply find_elem in Hsrc as [_ E]. zbool. by subst. }
  split_and!.
  - destruct write; [|done]. split_and!; [by apply present_update|done|exact Hpre].
  - by destruct write.
  - by destruct write.
  - exists h. split_and!; [done|done|congruence].
  - exists inst. rewrite Hid, Hrow. unfold markMigrating. destruct write; [|by exists inst].
    eexists. rewrite Hid, row_with_update, Z.eqb_refl by done. simpl. by rewrite Hrow.
Qed.

(** C14: A migration that was accepted from a host of the table and is left alone, all
    its reads and writes succeeding, is completed: the instance is active on the
    destination. If its flavor is there, the flavor's processors and memory are taken
    from the source's allocation, at most down to nothing, and added to that of the
    destination, another host; no other host changes. If the source had as much
    allocated, the totals of the hosts are the same. *)
Theorem migration_moves rd condition id req uuid mid create write db r db1 m src now :
  tables_ok db → migrateInstance rd condition id req uuid mid create write db = (r, db1, Some m) →
  rd_source rd = true → host_by_uuid (m_SourceHostID m) db = Some src →
  let db2 := executeMigration now m db1 in
  assigned m db2 ∧ m_Status <$> row_with m_ID (m_ID m) (migrations db2) = Some "completed" ∧
  ∀ inst f, row_with i_ID (m_InstanceID m) (instances db) = Some inst →
    row_with f_ID (i_FlavorID inst) (flavors db) = Some f →
    (∃ dest, dest ∈ hosts db ∧ h_UUID dest = m_DestHostID m ∧ h_UUID dest ≠ h_UUID src ∧
      hosts db2 = (λ h,
        if decide (h_UUID h = h_UUID src)
        then allocate (Z.max (h_CPUAllocated h - f_VCPUs f) 0) (Z.max (h_RAMAllocatedMB h - f_RAM f) 0) h
        else if decide (h_UUID h = h_UUID dest)
        then allocate (h_CPUAllocated h + f_VCPUs f) (h_RAMAllocatedMB h + f_RAM f) h
        else h) <$> hosts db) ∧
    (f_VCPUs f <= h_CPUAllocated src → f_RAM f <= h_RAMAllocatedMB src →
     total h_CPUAllocated (hosts db2) = total h_CPUAllocated (hosts db) ∧
     total h_RAMAllocatedMB (hosts db2) = total h_RAMAllocatedMB (hosts db)).
Proof.
  intros Hok H Hrd Hsrc db2.
  destruct (accepted_on_course _ _ _ _ _ _ _ _ _ _ _ _ _ Hok H Hrd Hsrc) as (Hc & Hh & Hf & (dest & Hd & Hdu & Hne) & inst & i1 & Hi & Hi1 & Hfl).
  destruct (executed m db1 now Hc) as (H1 & H2 & H3). split_and!; [done|done|]. intros inst' f Hi' Hrf.
  assert (inst' = inst) as -> by congruence.
  assert (hosts_at m f (hosts db1) Finished db2) as E.
  { apply H3. split; [|done]. exists i1. split; [done|]. by rewrite Hfl, Hf. }
  simpl in E. rewrite Hh, <- Hdu in E.
  unfold host_by_uuid in Hsrc. destruct (pg_uuid (m_SourceHostID m)) as [u|] eqn:Eu; [|done]. simpl in Hsrc.
  apply find_elem in Hsrc as [Hs Es]. zbool. subst u. split.
  - exists dest. split_and!; [done|done|done|]. rewrite E. by apply shifted; [|apply Hok|].
  - intros Hcpu Hram. rewrite E. by apply (moved_total _ _ src dest); [apply Hok| | | |apply Hok| | |].
Qed.

(** ** Migrations side by side *)

(** The database, the requests between their look-up and [Create], and the migrations
    that are stored. *)
Record system := mkSystem { tables : DB; looked : list Migration; running : list (Migration * pc) }.

Inductive event :=
| ELookup (rd : reads) (condition : string → option (Instance → bool)) (id : string) (req : option MigrateRequest)
    (uuid : string)
| EStore (i : nat) (create : bool) (mid : Z)
| ENext (i : nat) (ok : bool) (now : Z)
| ECancel (condition : string → option (Migration → bool)) (ok write : bool) (now : Z) (id : string).

Definition perform (s : system) (e : event) : system :=
  match e with
  | ELookup rd condition id req uuid =>
      match prepareMigration rd condition id req uuid (tables s) with
      | Ok m => mkSystem (tables s) (looked s ++ [m]) (running s)
      | Err _ => s
      end
  | EStore i create mid =>
      match looked s !! i with
      | Some m =>
          match storeMigration create mid m (tables s) with
          | Ok (m, db) => mkSystem db (delete i (looked s)) (running s ++ [(m, Marking)])
          | Err _ => mkSystem (tables s) (delete i (looked s)) (running s)
          end
      | None => s
      end
  | ENext i ok now =>
      match running s !! i with
      | Some (m, p) =>
          let (p, db) := next ok now m p (tables s) in mkSystem db (looked s) (<[i := (m, p)]> (running s))
      | None => s
      end
  | ECancel condition ok write now id =>
      mkSystem (cancelMigration condition ok write now id (tables s)).2 (looked s) (running s)
  end.

(** A request by itself is [migrateInstance]. *)
Lemma request_alone s rd condition id req uuid mid create write now :
  foldl perform s [ELookup rd condition id req uuid; EStore (length (looked s)) create mid;
                   ENext (length (running s)) write now]
  = let '(_, db, o) := migrateInstance rd condition id req uuid mid create write (tables s) in
    mkSystem db (looked s) (running s ++ match o with Some m => [(m, Preparing)] | None => [] end).
Proof.
  destruct s as [db lk rn]. simpl. unfold migrateInstance.
  destruct (prepareMigration _ _ _ _ _ _) as [m|r]; simpl.
  - rewrite list_lookup_middle, delete_middle, app_nil_r by done.
    destruct (storeMigration _ _ _ _) as [[m' db']|r]; simpl.
    + rewrite list_lookup_middle by done. simpl. by rewrite insert_app_r_alt, Nat.sub_diag by lia.
    + rewrite lookup_ge_None_2 by done. by rewrite app_nil_r.
  - rewrite (lookup_ge_None_2 lk) by done. simpl. rewrite lookup_ge_None_2 by done. by rewrite app_nil_r.
Qed.

(** No request for an instance is looked up while another is between its look-up and
    [Create], the look-up of an active migration succeeds, and none is cancelled. *)
Definition orderly (s : system) (e : event) : Prop :=
  match e with
  | ELookup rd condition id req uuid =>
      rd_active rd = true ∧
      ∀ m, prepareMigration rd condition id req uuid (tables s) = Ok m → m_InstanceID m ∉ m_InstanceID <$> looked s
  | ECancel _ _ _ _ _ => False
  | _ => True
  end.

Fixpoint orderly_run (s : system) (es : list event) : Prop :=
  match es with [] => True | e :: es => orderly s e ∧ orderly_run (perform s e) es end.

(** The instances of the migrations that are active. *)
Definition active_instances (db : DB) : list Z :=
  m_InstanceID <$> filter (λ m, active_status (m_Status m) = true) (migrations db).

(** Whether the row of a run still has to be active. *)
Definition claims (p : pc) : bool := match p with Restoring _ | Finished => false | _ => true end.

Record consistent (s : system) : Prop := {
  c_keys : keyed m_ID (migrations (tables s));
  c_once : NoDup (active_instances (tables s));
  c_runs : NoDup ((λ x, m_ID x.1) <$> running s);
  c_rows : ∀ m p, (m, p) ∈ running s → m_ID m ∈ m_ID <$> migrations (tables s);
  c_active : ∀ m p x, (m, p) ∈ running s → claims p = true → x ∈ migrations (tables s) → m_ID x = m_ID m →
    active_status (m_Status x) = true;
  c_looked : NoDup (m_InstanceID <$> looked s);
  c_free : ∀ m, m ∈ looked s → m_InstanceID m ∉ active_instances (tables s) ∧ m_Status m = "queued"
}.

Lemma active_status_update ok id st n a b e db :
  (∀ x, x ∈ migrations db → m_ID x = id → active_status (m_Status x) = true) →
  active_instances (updateMigrationStatus ok id st n a b e db) `sublist_of` active_instances db.
Proof.
  unfold updateMigrationStatus. destruct ok; [|done]. unfold active_instances, on_row. simpl. intros H.
  induction (migrations db) as [|x l IH]; [done|]. rewrite fmap_cons, !filter_cons.
  assert (∀ y, y ∈ l → m_ID y = id → active_status (m_Status y) = true) as H' by (intros y Hy; apply H; by right).
  destruct (m_ID x =? id) eqn:E; zbool.
  - rewrite (decide_True (P := active_status (m_Status x) = true)) by (apply H; [by left|done]).
    case_decide; rewrite !fmap_cons; [by apply sublist_skip, IH|by apply sublist_cons, IH].
  - case_decide; rewrite ?fmap_cons; [by apply sublist_skip, IH|by apply IH].
Qed.

(** What a step does to the rows: nothing, or a new status of its own row, which is
    active while the run claims it. *)
Lemma next_migrations ok now m p db p' db' :
  next ok now m p db = (p', db') →
  (claims p' = true → claims p = true) ∧
  (migrations db' = migrations db ∨
   ∃ st n a b e, migrations db' = migrations (updateMigrationStatus ok (m_ID m) st n a b e db) ∧
     claims p = true ∧ (claims p' = true → active_status st = true)).
Proof.
  destruct p; simpl; intros E; try (injection E as <- <-).
  all: try (split; [done|]; right; do 5 eexists; split_and!; [reflexivity|done|done]).
  - split; [done|]. left. by destruct ok.
  - split; [|by left]. by destruct (preMigrationCheck _ _ _).
  - split; [|by left]. by destruct (sendMigrationCommand _).
  - destruct ok; injection E as <- <-; split; [done|by left|done|by left].
  - split; [|by left]. by case_match.
  - split; [|by left]. by case_match.
  - split; [done|]. left. by destruct ok.
  - split; [done|]. left. by destruct ok.
  - split; [done|]. left. by destruct ok.
  - split; [done|by left].
Qed.

Lemma updated_status ok id st n a b e db x' :
  x' ∈ migrations (updateMigrationStatus ok id st n a b e db) →
  ∃ x, x ∈ migrations db ∧ m_ID x' = m_ID x ∧
    m_Status x' = if ok && (m_ID x =? id) then st else m_Status x.
Proof.
  unfold updateMigrationStatus. destruct ok; simpl; [|by exists x'].
  unfold on_row. rewrite list_elem_of_fmap. intros (x & -> & Hx). exists x. by destruct (m_ID x =? id).
Qed.

Lemma updated_keys ok id st n a b e db :
  m_ID <$> migrations (updateMigrationStatus ok id st n a b e db) = m_ID <$> migrations db.
Proof. unfold updateMigrationStatus. destruct ok; [|done]. simpl. by apply on_row_keys. Qed.

Lemma run_ids s i (m : Migration) p p' :
  running s !! i = Some (m, p) →
  (λ x, m_ID x.1) <$> <[i := (m, p')]> (running s) = (λ x, m_ID x.1) <$> running s.
Proof. intros Hi. rewrite list_fmap_insert. apply list_insert_id. by rewrite list_lookup_fmap, Hi. Qed.

Lemma run_cases s i m p p' m2 p2 :
  running s !! i = Some (m, p) → (m2, p2) ∈ <[i := (m, p')]> (running s) →
  (m2 = m ∧ p2 = p') ∨ ((m2, p2) ∈ running s ∧ (NoDup ((λ x, m_ID x.1) <$> running s) → m_ID m2 ≠ m_ID m)).
Proof.
  intros Hi (k & Hk)%list_elem_of_lookup. apply list_lookup_insert_Some in Hk as [(-> & [= -> ->] & _)|[Hne Hk]]; [by left|].
  right. split; [by eapply list_elem_of_lookup_2|]. intros Hn E. apply Hne.
  apply (proj1 (NoDup_alt _) Hn i k (m_ID m)); rewrite list_lookup_fmap, ?Hi, ?Hk; simpl; congruence.
Qed.

Lemma next_consistent s i ok now : consistent s → consistent (perform s (ENext i ok now)).
Proof.
  intros Hs. simpl. destruct (running s !! i) as [[m p]|] eqn:Ei; [|done]. destruct Hs as [Hk Ho Hr Hrow Ha Hl Hfree].
  assert ((m, p) ∈ running s) as Hin by (by eapply list_elem_of_lookup_2).
  destruct (next ok now m p (tables s)) as [p' db'] eqn:En.
  destruct (next_migrations _ _ _ _ _ _ _ En) as [Hcl Hm].
  assert (∀ m2 p2, (m2, p2) ∈ <[i:=(m, p')]> (running s) → m_ID m2 ∈ m_ID <$> migrations (tables s)) as Hrow'.
  { intros m2 p2 H. apply (run_cases s i m p) in H as [[-> _]|[H _]]; [by eapply Hrow|by eapply Hrow|done]. }
  destruct Hm as [Hm|(st & n & a & b & e & Hm & Hcp & Hst)].
  - split; simpl; unfold active_instances; rewrite ?Hm; [done|done|by rewrite (run_ids s i m p)|done| |done|done].
    intros m2 p2 x H. apply (run_cases s i m p) in H as [[-> ->]|[H _]]; [|by apply Ha|done].
    intros Hc. by apply (Ha m p), Hcl.
  - assert (active_instances db' `sublist_of` active_instances (tables s)) as Hsub.
    { unfold active_instances at 1. rewrite Hm. apply active_status_update. intros x Hx Hid. by apply (Ha m p). }
    split; simpl; unfold keyed; rewrite ?Hm, ?updated_keys; [done| |by rewrite (run_ids s i m p)|done| |done|].
    + eapply sublist_NoDup; [exact Ho|exact Hsub].
    + intros m2 p2 x' H Hc2 Hx' Hid. apply updated_status in Hx' as (x & Hx & Hxid & ->).
      apply (run_cases s i m p) in H as [[-> ->]|[H Hne]]; [| |done].
      * destruct (_ && _); [by apply Hst|]. apply (Ha m p); [done|done|done|congruence].
      * rewrite (proj2 (Z.eqb_neq _ _)), andb_false_r; [apply (Ha m2 p2); [done|done|done|congruence]|].
        specialize (Hne Hr). congruence.
    + intros m2 Hm2. destruct (Hfree m2 Hm2) as [Hf Hq]. split; [|done]. intros Hin2. apply Hf.
      by eapply elem_of_sublist.
Qed.

(** A request that is looked up in order. *)
Lemma lookup_consistent s rd condition id req uuid :
  consistent s → orderly s (ELookup rd condition id req uuid) → consistent (perform s (ELookup rd condition id req uuid)).
Proof.
  intros Hs [Hrd Hnot]. simpl. destruct (prepareMigration _ _ _ _ _ _) as [m|] eqn:E; [|done]. specialize (Hnot m eq_refl).
  apply prepared in E as (inst & h & _ & _ & Hact & Hid & _ & _ & _ & _ & Hst). specialize (Hact Hrd).
  destruct Hs as [Hk Ho Hr Hrow Ha Hl Hfree]. split; simpl; try done.
  - rewrite fmap_app. apply list.NoDup_app. split_and!; [done| |apply NoDup_singleton].
    intros y Hy Hy'%list_elem_of_singleton. by subst.
  - intros m2 [Hm2| ->%list_elem_of_singleton]%elem_of_app; [by apply Hfree|]. split; [|done]. unfold active_instances.
    intros (x & Hx & Hin)%list_elem_of_fmap. rewrite list_elem_of_filter in Hin. destruct Hin as [Hax Hin].
    unfold active_migration in Hact. rewrite find_none_elem in Hact. specialize (Hact x Hin).
    rewrite Hax, andb_true_r in Hact. zbool. congruence.
Qed.

Lemma delete_consistent s i : consistent s → consistent (mkSystem (tables s) (delete i (looked s)) (running s)).
Proof.
  intros [Hk Ho Hr Hrow Ha Hl Hfree]. pose proof (sublist_delete (looked s) i) as Hsub. split; simpl; try done.
  - eapply sublist_NoDup; [exact Hl|]. by apply fmap_sublist.
  - intros m Hm. apply Hfree. by eapply elem_of_sublist.
Qed.

(** One that is stored. *)
Lemma store_consistent s i create mid : consistent s → consistent (perform s (EStore i create mid)).
Proof.
  intros Hs. simpl. destruct (looked s !! i) as [m|] eqn:Ei; [|done].
  destruct (storeMigration _ _ _ _) as [[m' db]|r] eqn:E; [|by apply delete_consistent].
  apply stored in E as (-> & Hnew & ->). pose proof (proj1 (has_row_false _ _ _) Hnew) as Hnot.
  pose proof (delete_consistent s i Hs) as [_ _ _ _ _ Hl' Hfree']. simpl in Hl', Hfree'.
  destruct Hs as [Hk Ho Hr Hrow Ha Hl Hfree].
  assert (m ∈ looked s) as Hm by (by eapply list_elem_of_lookup_2). destruct (Hfree m Hm) as [Hf Hst].
  assert (active_instances (set_migrations (migrations (tables s) ++ [with_id mid m]) (tables s))
    = active_instances (tables s) ++ [m_InstanceID m]) as Hact.
  { unfold active_instances. simpl. rewrite list.filter_app, fmap_app, filter_cons. simpl. by rewrite Hst. }
  split; simpl; rewrite ?Hact.
  - by apply keyed_snoc.
  - apply list.NoDup_app. split_and!; [done| |apply NoDup_singleton]. intros y Hy Hy'%list_elem_of_singleton. by subst.
  - rewrite fmap_app. apply list.NoDup_app. split_and!; [done| |apply NoDup_singleton].
    intros y ([m2 p2] & -> & Hx)%list_elem_of_fmap Hy%list_elem_of_singleton. simpl in Hy.
    apply Hnot. rewrite <- Hy. by apply (Hrow m2 p2).
  - intros m2 p2 [H|[= -> ->]%list_elem_of_singleton]%elem_of_app; rewrite fmap_app; apply elem_of_app;
      [left; by apply (Hrow m2 p2)|right; by apply list_elem_of_singleton].
  - intros m2 p2 x [H|[= -> ->]%list_elem_of_singleton]%elem_of_app Hc [Hx|Hx%list_elem_of_singleton]%elem_of_app Hxid.
    + by apply (Ha m2 p2).
    + subst x. destruct Hnot. simpl in Hxid. rewrite Hxid. by apply (Hrow m2 p2).
    + destruct Hnot. simpl in Hxid. rewrite <- Hxid. by apply list_elem_of_fmap_2.
    + subst x. simpl. by rewrite Hst.
  - done.
  - intros m2 Hm2. destruct (Hfree' m2 Hm2) as [Hf2 Hst2]. split; [|done].
    intros [?|Hy%list_elem_of_singleton]%elem_of_app; [done|].
    apply list_elem_of_lookup in Hm2 as [j Hj].
    assert (∃ k, k ≠ i ∧ looked s !! k = Some m2) as (k & Hk2 & Hkl).
    { destruct (decide (j < i)%nat) as [Hlt|Hge].
      - exists j. split; [lia|]. by rewrite list_lookup_delete_lt in Hj.
      - exists (S j). split; [lia|]. by rewrite list_lookup_delete_ge in Hj by lia. }
    apply Hk2. apply (proj1 (NoDup_alt _) Hl k i (m_InstanceID m)); rewrite list_lookup_fmap, ?Ei, ?Hkl; simpl; congruence.
Qed.

(** C15: No instance has two active migrations, however requests and the steps of
    migrations interleave and whichever writes fail, if no request for an instance
    is looked up while another is between its look-up and its [Create], the reads of
    the active migration succeed, and no migration is cancelled. *)
Theorem one_active_migration db es :
  migrations db = [] → orderly_run (mkSystem db [] []) es →
  NoDup (active_instances (tables (foldl perform (mkSystem db [] []) es))).
Proof.
  intros H0 Hes. assert (consistent (mkSystem db [] [])) as Hs.
  { split; simpl; unfold active_instances, keyed; rewrite ?H0; [apply NoDup_nil_2..| | |apply NoDup_nil_2|];
      intros m; intros; by exfalso; eapply not_elem_of_nil. }
  assert (consistent (foldl perform (mkSystem db [] []) es)) as [_ ? _ _ _ _ _]; [|done].
  revert Hs Hes. generalize (mkSystem db [] []). clear H0.
  induction es as [|e es IH]; intros s Hs Hes; [done|]. destruct Hes as [He Hes]. simpl. apply IH; [|done].
  destruct e; [by apply lookup_consistent|by apply store_consistent|by apply next_consistent|by destruct He].
Qed.
End service.

(** ** Examples *)

#[local] Existing Instance plain_keys.
#[local] Existing Instance gorm_defaults.

Definition host_a : Host :=
  mkHost 1 "11111111-2222-3333-4444-555555555555" "a" "10.0.0.1" 8081 false "up" "enabled" 4 8192 false.
Definition host_b : Host :=
  mkHost 2 "66666666-7777-8888-9999-aaaaaaaaaaaa" "b" "10.0.0.2" 8081 false "up" "enabled" 1 1024 false.

Definition example : DB :=
  mkDB [set_Status "active" (web (h_UUID host_a))] [host_a; host_b] [mkFlavor 1 "small" 2 4096 20 0 0 true false] [].

Definition no_condition {A} (_ : string) : option (A → bool) := None.

Lemma example_ok : tables_ok example.
Proof.
  split.
  - apply NoDup_singleton.
  - apply (bool_decide_unpack _). vm_compute. reflexivity.
  - intros h Hh. repeat (apply elem_of_cons in Hh as [->|Hh]; [vm_compute; reflexivity|]). by apply not_elem_of_nil in Hh.
Qed.

Definition all_read : reads := mkReads true true true true.

Lemma named_destination_refused_witness :
  (migrateInstance all_read no_condition "7" (Some (mkMigrateRequest (h_UUID host_b) false "")) "u" 1 true true example).2 = None.
Proof. refine (named_destination_refused _ _ _ _ _ _ _ _ _ _). vm_compute. discriminate. Defined.

Lemma migration_moves_witness :
  ∃ r db1 m, migrateInstance all_read no_condition "7" None "u" 1 true true example = (r, db1, Some m) ∧
    m_DestHostID m = h_UUID host_b ∧ assigned m (executeMigration "db" 0 m db1) ∧
    total h_CPUAllocated (hosts (executeMigration "db" 0 m db1)) = 5.
Proof.
  destruct (migrateInstance all_read no_condition "7" None "u" 1 true true example) as [[r db1] [m|]] eqn:E;
    [|vm_compute in E; discriminate].
  exists r, db1, m. split; [reflexivity|].
  assert (m_DestHostID m = h_UUID host_b ∧ host_by_uuid (m_SourceHostID m) example = Some host_a ∧ m_InstanceID m = 7)
    as (H1 & H2 & H3).
  { vm_compute in E. injection E as _ _ <-. split_and!; vm_compute; reflexivity. }
  destruct (migration_moves "db" _ _ _ _ _ _ _ _ _ _ _ _ _ 0 example_ok E eq_refl H2) as (Ha & _ & Ht).
  rewrite H3 in Ht. destruct (Ht _ _ eq_refl eq_refl) as [_ Hs].
  split_and!; [exact H1|exact Ha|]. refine (eq_trans (proj1 (Hs _ _)) _); [simpl; lia|simpl; lia|reflexivity].
Defined.

Lemma cancel_ignored_witness :
  ∃ r db1 m, migrateInstance all_read no_condition "7" None "u" 1 true true example = (r, db1, Some m) ∧
    let (p, db2) := execute "db" 3 0 m Preparing db1 in
    let (r, db3) := cancelMigration no_condition true true 0 "u" db2 in
    r.1 = 200 ∧ m_Status <$> row_with m_ID 1 (migrations (execute "db" 12 0 m p db3).2) = Some "completed".
Proof.
  destruct (migrateInstance all_read no_condition "7" None "u" 1 true true example) as [[r db1] [m|]] eqn:E;
    [|vm_compute in E; discriminate].
  exists r, db1, m. split; [reflexivity|].
  assert (host_by_uuid (m_SourceHostID m) example = Some host_a ∧ m_ID m = 1) as [H2 H3].
  { vm_compute in E. injection E as _ _ <-. split; vm_compute; reflexivity. }
  assert ((cancelMigration no_condition true true 0 "u" (execute "db" 3 0 m Preparing db1).2).1.1 = 200 ∧
    (execute "db" 3 0 m Preparing db1).1 = Commanding) as [Hr Hp].
  { clear H2 H3. vm_compute in E. injection E as _ <- <-. vm_compute. split; reflexivity. }
  destruct (accepted_on_course "db" _ _ _ _ _ _ _ _ _ _ _ _ _ example_ok E eq_refl H2) as [Hc _].
  pose proof (cancel_ignored "db" no_condition true true m db1 "u" 3 0 0 0 Hc) as H. rewrite H3 in H.
  destruct (execute "db" 3 0 m Preparing db1) as [p db2]. cbn [fst snd] in Hr, Hp. subst p.
  destruct (cancelMigration _ _ _ _ _ db2) as [r' db3]. split; [exact Hr|].
  destruct (execute "db" 12 0 m Commanding db3) as [p' db4]. refine (proj2 (proj2 (H _ Hr))). discriminate.
Defined.

(** Two requests and some steps. *)
Definition history : list event :=
  [ELookup all_read no_condition "7" None "u1"; EStore 0 true 1; ENext 0 false 0; ENext 0 true 0;
   ELookup all_read no_condition "7" None "u2"; ENext 0 false 0].

Lemma one_active_migration_witness :
  active_instances (tables (foldl (perform "db") (mkSystem example [] []) history)) = [7] ∧
  NoDup (active_instances (tables (foldl (perform "db") (mkSystem example [] []) history))).
Proof.
  split; [vm_compute; reflexivity|].
  refine (one_active_migration "db" example history eq_refl _). simpl. split_and!; try done; intros m E. apply not_elem_of_nil.
Defined.

(** Requests that overlap are both stored. *)
Theorem two_active_overlapping :
  let es := [ELookup all_read no_condition "7" None "u1"; ELookup all_read no_condition "7" None "u2";
             EStore 0 true 1; EStore 0 true 2] in
  active_instances (tables (foldl (perform "db") (mkSystem example [] []) es)) = [7; 7].
Proof. vm_compute. reflexivity. Qed.

(** After a cancellation there can be two: the run that was cancelled goes on beside
    the one of the next request. *)
Theorem two_active_after_cancel :
  let es := [ELookup all_read no_condition "7" None "u1"; EStore 0 true 1; ENext 0 true 0;
             ECancel no_condition true true 0 "u1";
             ELookup all_read no_condition "7" None "u2"; EStore 0 true 2; ENext 0 true 0] in
  active_instances (tables (foldl (perform "db") (mkSystem example [] []) es)) = [7; 7].
Proof. vm_compute. reflexivity. Qed.
