(* ===== verification/GoFloat.v ===== *)
(** * Floating-point numbers

    Go's float64: IEEE 754 numbers with 53 bits of precision, rounded to the
    nearest and to even, as the Standard Library specifies them. The lemmas say
    that arithmetic on integers below [2 ^ 53], and on fractions of such an integer
    by a power of two, is exact. *)
From Stdlib Require Import SpecFloat.
From S2P Require Import Prelude.
Local Open Scope Z_scope.

Notation float64 := spec_float.

Definition fadd : float64 → float64 → float64 := SFadd 53 1024.
Definition fsub : float64 → float64 → float64 := SFsub 53 1024.
Definition fmul : float64 → float64 → float64 := SFmul 53 1024.
Definition fdiv : float64 → float64 → float64 := SFdiv 53 1024.
Definition fsqrt : float64 → float64 := SFsqrt 53 1024.
Definition fltb : float64 → float64 → bool := SFltb.
Definition fleb : float64 → float64 → bool := SFleb.
Definition feqb : float64 → float64 → bool := SFeqb.

(** [float64(z)]. *)
Definition of_Z (z : Z) : float64 := binary_normalize 53 1024 z 0 false.

(** The float64 nearest to a quotient of integers, as a literal of the source is
    read. *)
Definition of_ratio (n : Z) (d : positive) : float64 :=
  match n with
  | Z0 => S754_zero false
  | _ =>
      let '(q, e, l) := SFdiv_core_binary 53 1024 (Z.abs n) 0 (Zpos d) 0 in
      binary_round_aux 53 1024 (n <? 0) q e l
  end.

(** [int(x)] drops the fraction; a number that is too large has no specified
    value, on amd64 it is the smallest integer. *)
Definition to_int (x : float64) : Z :=
  match x with
  | S754_zero _ => 0
  | S754_finite s m e =>
      let a := if 0 <=? e then Zpos m * 2 ^ e else Zpos m / 2 ^ (- e) in
      let z := if s then - a else a in
      if (- 2 ^ 63 <=? z) && (z <? 2 ^ 63) then z else - 2 ^ 63
  | _ => - 2 ^ 63
  end.

(** [math.Max]. *)
Definition fmax (x y : float64) : float64 :=
  match x, y with
  | S754_infinity false, _ | _, S754_infinity false => S754_infinity false
  | S754_nan, _ | _, S754_nan => S754_nan
  | S754_zero true, S754_zero _ => y
  | _, _ => if fltb y x then x else if feqb x y then x else y
  end.

(** [math.Round]: the nearest integer, a half away from zero. *)
Definition fround (x : float64) : float64 :=
  match x with
  | S754_finite s m e =>
      if 0 <=? e then x
      else
        match (Zpos m + 2 ^ (- e - 1)) / 2 ^ (- e) with
        | Z0 => S754_zero s
        | a => if s then SFopp (of_Z a) else of_Z a
        end
  | _ => x
  end.

(** ** Integers *)

Definition canonical (m : positive) (e : Z) : Prop :=
  fexp 53 1024 (Zpos (digits2_pos m) + e) = e ∧ e <= 971.

Lemma digits2_log2 p : Zpos (digits2_pos p) = Z.log2 (Zpos p) + 1.
Proof.
  induction p as [p IH|p IH|]; [| |done]; cbn [digits2_pos]; rewrite Pos2Z.inj_succ, IH.
  - rewrite (Pos2Z.inj_xI p), Z.log2_succ_double by lia. lia.
  - rewrite (Pos2Z.inj_xO p), Z.log2_double by lia. lia.
Qed.

Lemma digits2_mul_pow2 (p q : positive) j :
  0 <= j → Zpos q = Zpos p * 2 ^ j → Zpos (digits2_pos q) = Zpos (digits2_pos p) + j.
Proof. intros Hj E. rewrite !digits2_log2, E, Z.log2_mul_pow2 by lia. lia. Qed.

Lemma iter_pos_iter {A} (f : A → A) p x : SpecFloat.iter_pos f p x = Nat.iter (Pos.to_nat p) f x.
Proof.
  revert x. induction p as [p IH|p IH|]; intros x; cbn [SpecFloat.iter_pos]; rewrite ?IH; [| |done].
  - rewrite Pos2Nat.inj_xI. rewrite <- Nat.iter_add. rewrite <- Nat.iter_succ_r. f_equal. lia.
  - rewrite Pos2Nat.inj_xO. rewrite <- Nat.iter_add. f_equal. lia.
Qed.

Lemma shr_1_even m : 0 < m → shr_1 (Build_shr_record (2 * m) false false) = Build_shr_record m false false.
Proof. destruct m as [|m|m]; [lia|done|lia]. Qed.

Lemma shr_exact m e j :
  0 < m → 0 <= j →
  shr (Build_shr_record (m * 2 ^ j) false false) e j = (Build_shr_record m false false, e + j).
Proof.
  intros Hm Hj. destruct j as [|p|p]; [by rewrite Z.mul_1_r, Z.add_0_r| |lia]. unfold shr.
  rewrite iter_pos_iter. f_equal. rewrite <- (positive_nat_Z p). generalize (Pos.to_nat p) as n. clear p Hj.
  induction n as [|n IH]; [simpl; by rewrite Z.mul_1_r|].
  rewrite Nat.iter_succ_r, Nat2Z.inj_succ, Z.pow_succ_r by lia.
  replace (m * (2 * 2 ^ Z.of_nat n)) with (2 * (m * 2 ^ Z.of_nat n)) by lia.
  rewrite shr_1_even by (apply Z.mul_pos_pos; [done|apply Z.pow_pos_nonneg; lia]). exact IH.
Qed.

Lemma round_aux_exact s m e (M : positive) j :
  canonical m e → 0 <= j → Zpos M = Zpos m * 2 ^ j →
  binary_round_aux 53 1024 s (Zpos M) (e - j) loc_Exact = S754_finite s m e.
Proof.
  intros [Hc He] Hj HM. unfold binary_round_aux, shr_fexp. cbn [shr_record_of_loc Zdigits2].
  rewrite (digits2_mul_pow2 m M j Hj HM).
  replace (Zpos (digits2_pos m) + j + (e - j)) with (Zpos (digits2_pos m) + e) by lia. rewrite Hc.
  replace (e - (e - j)) with j by lia. rewrite HM, shr_exact by lia.
  replace (e - j + j) with e by lia. cbn [shr_m loc_of_shr_record round_nearest_even Zdigits2].
  rewrite Hc, Z.sub_diag. cbn [shr shr_m]. change (1024 - 53) with 971. by zdecide.
Qed.

Lemma pow2_iter m d : Zpos (Pos.iter xO m d) = Zpos m * 2 ^ Zpos d.
Proof.
  rewrite Pos2Nat.inj_iter, <- (positive_nat_Z d). generalize (Pos.to_nat d) as n.
  induction n as [|n IH]; [simpl; lia|]. cbn [nat_rect]. rewrite Pos2Z.inj_xO, IH, Nat2Z.inj_succ, Z.pow_succ_r by lia.
  lia.
Qed.

(** A number that fits the precision is kept, whatever its mantissa is. *)
Lemma round_exact s m e M E :
  canonical m e → (E <= e ∧ Zpos M = Zpos m * 2 ^ (e - E)) ∨ (e <= E ∧ Zpos m = Zpos M * 2 ^ (E - e)) →
  binary_round 53 1024 s M E = S754_finite s m e.
Proof.
  intros Hc HM. unfold binary_round.
  assert (Zpos (digits2_pos M) + E = Zpos (digits2_pos m) + e) as ->.
  { destruct HM as [[Hle HM]|[Hle HM]].
    - rewrite (digits2_mul_pow2 m M (e - E)) by (done || lia). lia.
    - rewrite (digits2_mul_pow2 M m (E - e)) by (done || lia). lia. }
  destruct Hc as [Hf He]. rewrite Hf. unfold shl_align. destruct (e - E) as [|d|d] eqn:Ed.
  - replace E with (e - 0) by lia. apply round_aux_exact; [done|lia|].
    destruct HM as [[_ HM]|[_ HM]]; [done|]. replace (E - e) with 0 in HM by lia. lia.
  - destruct HM as [[_ HM]|[? _]]; [|lia]. replace E with (e - Zpos d) by lia. by apply round_aux_exact.
  - destruct HM as [[? _]|[_ HM]]; [lia|]. replace (E - e) with (Zpos d) in HM by lia.
    replace e with (e - 0) at 1 by lia. apply round_aux_exact; [done|lia|]. rewrite pow2_iter. lia.
Qed.

(** The numbers that are an integer below [2 ^ 53], and those that are such an
    integer by [2 ^ k]. *)
Definition is_Z (z : Z) (x : float64) : Prop :=
  (z = 0 ∧ ∃ s, x = S754_zero s) ∨
  (z ≠ 0 ∧ ∃ m e, x = S754_finite (z <? 0) m e ∧ e = Z.log2 (Z.abs z) - 52 ∧ e <= 0 ∧ Zpos m = Z.abs z * 2 ^ (- e)).

Definition is_frac (k z : Z) (x : float64) : Prop :=
  (z = 0 ∧ ∃ s, x = S754_zero s) ∨
  (z ≠ 0 ∧ ∃ m e, x = S754_finite (z <? 0) m (e - k) ∧ e = Z.log2 (Z.abs z) - 52 ∧ e <= 0 ∧
     Zpos m = Z.abs z * 2 ^ (- e)).

Lemma is_Z_frac z x : is_Z z x ↔ is_frac 0 z x.
Proof. unfold is_Z, is_frac. by setoid_rewrite Z.sub_0_r. Qed.

(** An integer as a fraction. *)
Lemma is_Z_scaled k z x : 0 <= k → Z.abs z * 2 ^ k < 2 ^ 53 → is_Z z x → is_frac k (z * 2 ^ k) x.
Proof.
  intros Hk Hz [[-> ?]|(Hz0 & m & e & -> & He & Hl & Hm)]; [by left|]. assert (0 < 2 ^ k) by (apply Z.pow_pos_nonneg; lia).
  right. split; [nia|]. exists m, (e + k). rewrite Z.abs_mul, (Z.abs_eq (2 ^ k)) by lia.
  assert (Z.log2 (Z.abs z * 2 ^ k) = Z.log2 (Z.abs z) + k) as Hlog by (rewrite Z.log2_mul_pow2 by lia; lia).
  assert (Z.log2 (Z.abs z * 2 ^ k) < 53) by (apply Z.log2_lt_pow2; nia).
  split_and!; [|lia|lia|].
  - replace (e + k - k) with e by lia. f_equal. destruct (Z.ltb_spec z 0), (Z.ltb_spec (z * 2 ^ k) 0); (done || nia).
  - rewrite Hm, <-Z.mul_assoc, <-Z.pow_add_r by lia. do 2 f_equal. lia.
Qed.

Lemma is_frac_normalize k z M E s :
  0 <= k <= 1000 → Z.abs z < 2 ^ 53 → E <= - k → M = z * 2 ^ (- k - E) → is_frac k z (binary_normalize 53 1024 M E s).
Proof.
  intros Hk Hz HE HM. destruct (decide (z = 0)) as [->|Hz0]; [left; subst M; simpl; eauto|]. right. split; [done|].
  set (e := Z.log2 (Z.abs z) - 52).
  assert (0 <= Z.log2 (Z.abs z) < 53) as Hl.
  { split; [apply Z.log2_nonneg|]. apply Z.log2_lt_pow2; lia. }
  assert (0 < 2 ^ (- e)) as Hp by (apply Z.pow_pos_nonneg; lia).
  assert (0 < Z.abs z * 2 ^ (- e)) as Hpos by (apply Z.mul_pos_pos; lia).
  exists (Z.to_pos (Z.abs z * 2 ^ (- e))), e. split_and!; [|done|lia|by rewrite Z2Pos.id].
  assert (∃ P, M = (if z <? 0 then Zneg P else Zpos P) ∧ Zpos P = Z.abs z * 2 ^ (- k - E)) as (P & -> & HP).
  { exists (Z.to_pos (Z.abs z * 2 ^ (- k - E))).
    assert (0 < Z.abs z * 2 ^ (- k - E)) as HP by (apply Z.mul_pos_pos; [lia|apply Z.pow_pos_nonneg; lia]).
    rewrite HM. split; [|by apply Z2Pos.id].
    destruct (z <? 0) eqn:E0; zbool; [change (Zneg ?p) with (- Zpos p)|]; rewrite Z2Pos.id by done; lia. }
  assert (binary_round 53 1024 (z <? 0) P E = S754_finite (z <? 0) (Z.to_pos (Z.abs z * 2 ^ (- e))) (e - k)) as <-.
  { apply round_exact.
    - split; [|lia]. rewrite digits2_log2, Z2Pos.id, Z.log2_mul_pow2 by lia. unfold fexp, emin. lia.
    - rewrite Z2Pos.id by done. rewrite HP. destruct (Z.le_ge_cases E (e - k)) as [H|H]; [left|right]; (split; [done|]).
      + rewrite <- Z.mul_assoc, <- Z.pow_add_r by lia. do 2 f_equal. lia.
      + rewrite <- Z.mul_assoc, <- Z.pow_add_r by lia. do 2 f_equal. lia. }
  by destruct (z <? 0).
Qed.

Lemma is_Z_normalize z M E s :
  Z.abs z < 2 ^ 53 → E <= 0 → M = z * 2 ^ (- E) → is_Z z (binary_normalize 53 1024 M E s).
Proof. intros Hz HE HM. apply is_Z_frac, is_frac_normalize; [lia|done|lia|done]. Qed.

Lemma of_Z_is z : Z.abs z < 2 ^ 53 → is_Z z (of_Z z).
Proof. intros Hz. apply is_Z_normalize; [done|lia|]. rewrite Z.mul_1_r. done. Qed.

Lemma compare_abs a b m1 e1 m2 e2 :
  a ≠ 0 → b ≠ 0 → e1 = Z.log2 (Z.abs a) - 52 → e2 = Z.log2 (Z.abs b) - 52 → e1 <= 0 → e2 <= 0 →
  Zpos m1 = Z.abs a * 2 ^ (- e1) → Zpos m2 = Z.abs b * 2 ^ (- e2) →
  match e1 ?= e2 with Lt => Lt | Gt => Gt | Eq => Pos.compare_cont Eq m1 m2 end = (Z.abs a ?= Z.abs b).
Proof.
  intros Ha Hb He1 He2 Hl1 Hl2 H1 H2. destruct (Z.compare_spec e1 e2) as [E|E|E].
  - change (Pos.compare_cont Eq m1 m2) with (Zpos m1 ?= Zpos m2). rewrite H1, H2, E.
    symmetry. rewrite !(Z.mul_comm (Z.abs _)). apply Zmult_compare_compat_l.
    apply Z.lt_gt, Z.pow_pos_nonneg; lia.
  - symmetry. apply Z.compare_lt_iff. apply Z.log2_lt_cancel. lia.
  - symmetry. apply Z.compare_gt_iff. apply Z.log2_lt_cancel. lia.
Qed.

Lemma is_frac_compare k a b x y : is_frac k a x → is_frac k b y → SFcompare x y = Some (a ?= b).
Proof.
  intros [[-> [s ->]]|(Ha & m1 & e1 & -> & He1 & Hl1 & H1)] [[-> [t ->]]|(Hb & m2 & e2 & -> & He2 & Hl2 & H2)];
    [done| | |]; cbn [SFcompare]; f_equal.
  - destruct (b <? 0) eqn:E; zbool; symmetry; [apply Z.compare_gt_iff|apply Z.compare_lt_iff]; lia.
  - destruct (a <? 0) eqn:E; zbool; symmetry; [apply Z.compare_lt_iff|apply Z.compare_gt_iff]; lia.
  - pose proof (compare_abs a b m1 e1 m2 e2 Ha Hb He1 He2 Hl1 Hl2 H1 H2) as Hc.
    assert ((e1 - k ?= e2 - k) = (e1 ?= e2)) as ->.
    { destruct (Z.compare_spec e1 e2), (Z.compare_spec (e1 - k) (e2 - k)); (done || lia). }
    destruct (a <? 0) eqn:Ea, (b <? 0) eqn:Eb; zbool.
    + transitivity (CompOpp (Z.abs a ?= Z.abs b)); [rewrite <- Hc; by destruct (e1 ?= e2)|].
      rewrite !Z.abs_neq, Z.compare_opp by lia. symmetry. apply Z.compare_antisym.
    + symmetry. apply Z.compare_lt_iff. lia.
    + symmetry. apply Z.compare_gt_iff. lia.
    + rewrite Hc, !Z.abs_eq by lia. done.
Qed.

Lemma is_Z_compare a b x y : is_Z a x → is_Z b y → SFcompare x y = Some (a ?= b).
Proof. rewrite !is_Z_frac. apply is_frac_compare. Qed.

Lemma fleb_frac k a b x y : is_frac k a x → is_frac k b y → fleb x y = (a <=? b).
Proof. intros Ha Hb. unfold fleb, SFleb, Z.leb. rewrite (is_frac_compare k a b) by done. by destruct (a ?= b). Qed.

Lemma fltb_Z a b x y : is_Z a x → is_Z b y → fltb x y = (a <? b).
Proof. intros Ha Hb. unfold fltb, SFltb, Z.ltb. rewrite (is_Z_compare a b) by done. by destruct (a ?= b). Qed.

Lemma fleb_Z a b x y : is_Z a x → is_Z b y → fleb x y = (a <=? b).
Proof. intros Ha Hb. unfold fleb, SFleb, Z.leb. rewrite (is_Z_compare a b) by done. by destruct (a ?= b). Qed.

Lemma shl_align_min m e e' : e' <= e → Zpos (fst (shl_align m e e')) = Zpos m * 2 ^ (e - e').
Proof.
  intros He. unfold shl_align. destruct (e' - e) as [|p|p] eqn:E; cbn [fst].
  - replace (e - e') with 0 by lia. lia.
  - lia.
  - rewrite pow2_iter. do 2 f_equal. lia.
Qed.

(** The mantissa of a fraction, brought to an exponent below its own. *)
Lemma aligned k a m e e' :
  e <= 0 → Zpos m = Z.abs a * 2 ^ (- e) → e' <= e - k →
  cond_Zopp (a <? 0) (Zpos (fst (shl_align m (e - k) e'))) = a * 2 ^ (- k - e').
Proof.
  intros He Hm He'. rewrite shl_align_min, Hm by done. rewrite <- Z.mul_assoc, <- Z.pow_add_r by lia.
  replace (- e + (e - k - e')) with (- k - e') by lia.
  unfold cond_Zopp. destruct (a <? 0) eqn:E; zbool; [rewrite Z.abs_neq by lia|rewrite Z.abs_eq by lia]; lia.
Qed.

Lemma fsub_frac k a b x y :
  0 <= k <= 1000 → is_frac k a x → is_frac k b y → Z.abs (a - b) < 2 ^ 53 → is_frac k (a - b) (fsub x y).
Proof.
  intros Hk [[-> [s ->]]|(Ha & m1 & e1 & -> & He1 & Hl1 & H1)] [[-> [t ->]]|(Hb & m2 & e2 & -> & He2 & Hl2 & H2)] Hab.
  - left. split; [done|]. simpl. destruct s, t; eauto.
  - right. split; [lia|]. exists m2, e2. rewrite Z.abs_opp. split_and!; try done. simpl. f_equal.
    destruct (b <? 0) eqn:E; zbool; simpl; symmetry; [apply Z.ltb_ge|apply Z.ltb_lt]; lia.
  - right. rewrite Z.sub_0_r. split; [done|]. by exists m1, e1.
  - apply is_frac_normalize; [done|done|lia|]. rewrite !aligned by (done || lia). lia.
Qed.

Lemma fsub_Z a b x y : is_Z a x → is_Z b y → Z.abs (a - b) < 2 ^ 53 → is_Z (a - b) (fsub x y).
Proof. rewrite !is_Z_frac. apply fsub_frac. lia. Qed.

Lemma fadd_Z a b x y : is_Z a x → is_Z b y → Z.abs (a + b) < 2 ^ 53 → is_Z (a + b) (fadd x y).
Proof.
  rewrite !is_Z_frac.
  intros [[-> [s ->]]|(Ha & m1 & e1 & -> & He1 & Hl1 & H1)] [[-> [t ->]]|(Hb & m2 & e2 & -> & He2 & Hl2 & H2)] Hab.
  - left. split; [done|]. simpl. destruct s, t; eauto.
  - right. rewrite Z.add_0_l. split; [done|]. by exists m2, e2.
  - right. rewrite Z.add_0_r. split; [done|]. by exists m1, e1.
  - apply is_frac_normalize; [lia|done|lia|]. rewrite !aligned by (done || lia). lia.
Qed.

(** An integer times a fraction. *)
Lemma fmul_frac k a b x y :
  0 <= k <= 900 → is_Z a x → is_frac k b y → Z.abs (a * b) < 2 ^ 53 → is_frac k (a * b) (fmul x y).
Proof.
  intros Hk [[-> [s ->]]|(Ha & m1 & e1 & -> & He1 & Hl1 & H1)] [[-> [t ->]]|(Hb & m2 & e2 & -> & He2 & Hl2 & H2)] Hab;
    [left; split; [lia|]; simpl; eauto..|].
  destruct (is_Z_normalize (a * b) (a * b) 0 false Hab) as [[? _]|(Hn & m & e & Hx & He & Hl & Hm)]; [lia|lia|lia|].
  right. split; [done|]. exists m, e. split_and!; try done. cbn [fmul SFmul].
  assert (xorb (a <? 0) (b <? 0) = (a * b <? 0)) as ->.
  { destruct (Z.ltb_spec a 0), (Z.ltb_spec b 0), (Z.ltb_spec (a * b) 0); simpl; try done; nia. }
  assert (e1 + e2 <= e) as Hle.
  { rewrite Z.abs_mul in He. pose proof (Z.log2_mul_below (Z.abs a) (Z.abs b) ltac:(lia) ltac:(lia)). lia. }
  replace (e1 + (e2 - k)) with (e - k - (e - (e1 + e2))) by lia.
  apply round_aux_exact; [|lia|].
  - split; [|lia]. rewrite digits2_log2, Hm, Z.log2_mul_pow2 by lia.
    pose proof (Z.log2_nonneg (Z.abs (a * b))). unfold fexp, emin. lia.
  - rewrite Pos2Z.inj_mul, H1, H2, Hm, Z.abs_mul.
    replace (Z.abs a * 2 ^ (- e1) * (Z.abs b * 2 ^ (- e2))) with (Z.abs a * Z.abs b * (2 ^ (- e1) * 2 ^ (- e2))) by lia.
    rewrite <- (Z.mul_assoc (Z.abs a * Z.abs b)), <- !Z.pow_add_r by lia. do 2 f_equal. lia.
Qed.

Lemma fmul_Z a b x y : is_Z a x → is_Z b y → Z.abs (a * b) < 2 ^ 53 → is_Z (a * b) (fmul x y).
Proof. rewrite (is_Z_frac b), (is_Z_frac (a * b)). apply fmul_frac. lia. Qed.

(** ** Quotients *)

(** The rounding of [x / y], where [q] and [r] are its quotient and remainder: the
    last bit of [q] is dropped if [k] is 1. *)
Lemma round_bound q r y k (half : bool) :
  0 <= r < y → k = (if half then 1 else 0) → 0 <= q →
  let rec := if half then shr_1 (shr_record_of_loc q (new_location y r)) else shr_record_of_loc q (new_location y r) in
  let m := round_nearest_even (shr_m rec) (loc_of_shr_record rec) in
  2 * Z.abs (m * 2 ^ k * y - (q * y + r)) <= 2 ^ k * y ∧ q / 2 ^ k <= m <= q / 2 ^ k + 1.
Proof.
  intros Hr -> Hq.
  assert (new_location y r = if r =? 0 then loc_Exact else loc_Inexact (2 * r ?= y)) as ->.
  { unfold new_location, new_location_even, new_location_odd. destruct (Z.even y) eqn:E, (r =? 0); try done. f_equal.
    assert (y mod 2 = 1) as Hy by (rewrite Zmod_even, E; done).
    destruct (Z.compare_spec (2 * r + 1) y), (Z.compare_spec (2 * r) y); try done; Z.div_mod_to_equations; lia. }
  destruct half; cbv zeta; change (2 ^ 1) with 2; change (2 ^ 0) with 1.
  - assert (∀ b c, shr_1 (Build_shr_record q b c) = Build_shr_record (q / 2) (Z.odd q) (b || c)) as Hs.
    { intros b c. rewrite <- Z.div2_div. by destruct q as [|[q|q|]|q]. }
    assert (q = 2 * (q / 2) + Z.b2z (Z.odd q)) as Hq2 by (rewrite <- Z.div2_div; apply Z.div2_odd).
    assert (q * y = 2 * (q / 2) * y + Z.b2z (Z.odd q) * y) as Hqy by (rewrite Hq2 at 1; ring).
    rewrite Hqy. destruct (r =? 0) eqn:Er; zbool; cbn [shr_record_of_loc].
    + rewrite Hs. destruct (Z.odd q); cbn [orb shr_m loc_of_shr_record round_nearest_even Z.b2z]; [destruct (Z.even _)|]; nia.
    + destruct (2 * r ?= y); cbn [shr_record_of_loc]; rewrite Hs;
        destruct (Z.odd q); cbn [orb shr_m loc_of_shr_record round_nearest_even Z.b2z]; nia.
  - rewrite Z.div_1_r. destruct (r =? 0) eqn:Er; zbool; cbn [shr_record_of_loc shr_m loc_of_shr_record round_nearest_even];
      [nia|].
    destruct (Z.compare_spec (2 * r) y); cbn [shr_record_of_loc shr_m loc_of_shr_record round_nearest_even];
      [destruct (Z.even _)|..]; nia.
Qed.

Lemma Zdigits2_log2 q : 0 < q → Zdigits2 q = Z.log2 q + 1.
Proof. destruct q as [|q|q]; [lia| |lia]. intros _. apply digits2_log2. Qed.

Lemma log2_range q n : 0 <= n → 2 ^ n <= q < 2 ^ (n + 1) → Z.log2 q = n.
Proof. intros Hn Hq. by apply Z.log2_unique; [|rewrite <- Z.add_1_r]. Qed.

(** A mantissa of 53 bits, or of one more if it was rounded up to it, is kept. *)
Lemma shr_kept m e :
  2 ^ 52 <= m <= 2 ^ 53 → -1074 <= e <= 900 →
  ∃ m' e', shr_fexp 53 1024 m e loc_Exact = (Build_shr_record (Zpos m') false false, e') ∧
    2 ^ 52 <= Zpos m' < 2 ^ 53 ∧ e <= e' <= 901 ∧ Zpos m' * 2 ^ (e' - e) = m.
Proof.
  intros Hm He. unfold shr_fexp. cbn [shr_record_of_loc]. rewrite Zdigits2_log2 by lia.
  destruct (decide (m = 2 ^ 53)) as [->|Hne].
  - exists (2 ^ 52)%positive, (e + 1). rewrite Z.log2_pow2 by lia.
    replace (fexp 53 1024 (53 + 1 + e) - e) with 1 by (unfold fexp, emin; lia).
    split_and!; [reflexivity|lia..|]. replace (e + 1 - e) with 1 by lia. reflexivity.
  - rewrite (log2_range m 52) by lia. replace (fexp 53 1024 (52 + 1 + e) - e) with 0 by (unfold fexp, emin; lia).
    exists (Z.to_pos m), e. rewrite Z2Pos.id by lia. split_and!; [reflexivity|lia..|]. rewrite Z.sub_diag. lia.
Qed.

(** The rounding of a quotient of 53 or 54 bits. *)
Lemma round_quotient q e r y :
  2 ^ 52 <= q < 2 ^ 54 → -1000 <= e <= 899 → 0 <= r < y →
  ∃ m e', binary_round_aux 53 1024 false q e (new_location y r) = S754_finite false m e' ∧
    2 ^ 52 <= Zpos m < 2 ^ 53 ∧ e <= e' ∧
    2 ^ 53 * Z.abs (Zpos m * 2 ^ (e' - e) * y - (q * y + r)) <= q * y + r.
Proof.
  intros Hq He Hr. set (half := 2 ^ 53 <=? q). set (k := if half then 1 else 0).
  assert (0 <= k <= 1 ∧ 2 ^ (52 + k) <= q < 2 ^ (53 + k)) as [Hk Hqk].
  { unfold k, half. destruct (2 ^ 53 <=? q) eqn:E; zbool; simpl Z.add; lia. }
  assert (Z.log2 q = 52 + k) as Hl by (apply log2_range; [lia|]; replace (52 + k + 1) with (53 + k) by lia; lia).
  destruct (round_bound q r y k half) as [Hb Hm]; [done|done|lia|]. cbv zeta in Hb, Hm.
  unfold binary_round_aux. unfold shr_fexp at 1. rewrite Zdigits2_log2, Hl by lia.
  replace (fexp 53 1024 (52 + k + 1 + e) - e) with k by (unfold fexp, emin; lia).
  set (rec := if half then shr_1 _ else _) in Hb, Hm.
  assert (shr (shr_record_of_loc q (new_location y r)) e k = (rec, e + k)) as ->.
  { unfold rec, k. destruct half; [done|]. by rewrite Z.add_0_r. }
  set (m1 := round_nearest_even (shr_m rec) (loc_of_shr_record rec)) in *.
  destruct (shr_kept m1 (e + k)) as (m & e' & -> & Hm' & He' & Hv); [|lia|].
  { rewrite !Z.pow_add_r in Hqk by lia. assert (0 < 2 ^ k) by (apply Z.pow_pos_nonneg; lia).
    assert (2 ^ 52 <= q / 2 ^ k) by (apply Z.div_le_lower_bound; lia).
    assert (q / 2 ^ k < 2 ^ 53) by (apply Z.div_lt_upper_bound; lia). lia. }
  cbn [shr_m]. change (1024 - 53) with 971. zdecide. exists m, e'. split_and!; [done|lia..|].
  replace (2 ^ (e' - e)) with (2 ^ (e' - (e + k)) * 2 ^ k) by (rewrite <- Z.pow_add_r by lia; f_equal; lia).
  rewrite Z.mul_assoc, Hv. rewrite (Z.pow_add_r 2 52) in Hqk by lia.
  assert (2 ^ 52 * 2 ^ k * y <= q * y) by (apply Z.mul_le_mono_nonneg_r; lia).
  change (2 ^ 53) with (2 ^ 52 * 2). lia.
Qed.

(** A positive integer has a mantissa of 53 bits. *)
Lemma is_Z_pos a x :
  is_Z a x → 0 < a < 2 ^ 53 →
  ∃ m e, x = S754_finite false m e ∧ 2 ^ 52 <= Zpos m < 2 ^ 53 ∧ -52 <= e <= 0 ∧ Zpos m = a * 2 ^ (- e).
Proof.
  intros [[? _]|(_ & m & e & -> & He & Hl & Hm)] Ha; [lia|]. rewrite Z.abs_eq in He, Hm by lia.
  exists m, e. rewrite (proj2 (Z.ltb_ge a 0)) by lia. pose proof (Z.log2_nonneg a).
  destruct (Z.log2_spec a) as [H1 H2]; [lia|]. split_and!; [done| | |lia|lia|done]; rewrite Hm.
  - replace (2 ^ 52) with (2 ^ Z.log2 a * 2 ^ (- e)) by (rewrite <- Z.pow_add_r by lia; f_equal; lia).
    apply Z.mul_le_mono_nonneg_r; [apply Z.pow_nonneg; lia|lia].
  - replace (2 ^ 53) with (2 ^ Z.succ (Z.log2 a) * 2 ^ (- e)) by (rewrite <- Z.pow_add_r by lia; f_equal; lia).
    apply Z.mul_lt_mono_pos_r; [apply Z.pow_pos_nonneg; lia|lia].
Qed.

(** A quotient of integers is off by at most [2 ^ -53] of itself. *)
Lemma fdiv_Z a b x y :
  is_Z a x → is_Z b y → 0 < a < 2 ^ 53 → 0 < b < 2 ^ 53 →
  ∃ m e, fdiv x y = S754_finite false m e ∧ 2 ^ 52 <= Zpos m < 2 ^ 53 ∧ -110 <= e ∧
    2 ^ 53 * Z.abs (Zpos m * 2 ^ (e + 110) * b - a * 2 ^ 110) <= a * 2 ^ 110.
Proof.
  intros Hx Hy Ha Hb. destruct (is_Z_pos a x Hx Ha) as (m1 & e1 & -> & Hm1 & He1 & H1).
  destruct (is_Z_pos b y Hy Hb) as (m2 & e2 & -> & Hm2 & He2 & H2).
  cbn [fdiv SFdiv xorb]. unfold SFdiv_core_binary. cbn [Zdigits2].
  rewrite !digits2_log2, (log2_range (Zpos m1) 52), (log2_range (Zpos m2) 52) by lia.
  replace (Z.min _ _) with (e1 - e2 - 53) by (unfold fexp, emin; lia).
  replace (e1 - e2 - (e1 - e2 - 53)) with 53 by lia. rewrite Z.shiftl_mul_pow2 by lia.
  pose proof (Z_div_mod (Zpos m1 * 2 ^ 53) (Zpos m2) ltac:(lia)) as Hd.
  destruct (Z.div_eucl _ _) as [q r]. destruct Hd as [Hd Hr].
  destruct (round_quotient q (e1 - e2 - 53) r (Zpos m2)) as (m & e & -> & Hm & He & Hv); [nia|lia|done|].
  exists m, e. split_and!; [done|lia|lia|lia|].
  set (k := e - (e1 - e2 - 53)) in *. assert (0 <= k) as Hk by lia.
  replace (q * Zpos m2 + r) with (Zpos m1 * 2 ^ 53) in Hv by lia.
  rewrite H1, H2 in Hv.
  set (s := 57 + e1). assert (0 <= s) as Hs by lia.
  assert (a * 2 ^ 110 = a * 2 ^ (- e1) * 2 ^ 53 * 2 ^ s) as Ea.
  { rewrite <- !Z.mul_assoc, <- !Z.pow_add_r by lia. do 2 f_equal. lia. }
  assert (Zpos m * 2 ^ (e + 110) * b = Zpos m * 2 ^ k * (b * 2 ^ (- e2)) * 2 ^ s) as Eb.
  { replace (Zpos m * 2 ^ k * (b * 2 ^ (- e2)) * 2 ^ s) with (Zpos m * b * (2 ^ k * (2 ^ (- e2) * 2 ^ s))) by ring.
    rewrite <- !Z.pow_add_r by lia. replace (k + (- e2 + s)) with (e + 110) by lia. ring. }
  rewrite Ea, Eb, <- Z.mul_sub_distr_r, Z.abs_mul, (Z.abs_eq (2 ^ s)) by (apply Z.pow_nonneg; lia).
  rewrite Z.mul_assoc. apply Z.mul_le_mono_nonneg_r; [apply Z.pow_nonneg; lia|]. exact Hv.
Qed.

(** Quotients of integers below [2 ^ 26] are in the order of the fractions. *)
Lemma fdiv_lt a b c d :
  0 <= a < 2 ^ 26 → 0 < b < 2 ^ 26 → 0 <= c < 2 ^ 26 → 0 < d < 2 ^ 26 → a * d < c * b →
  fltb (fdiv (of_Z a) (of_Z b)) (fdiv (of_Z c) (of_Z d)) = true.
Proof.
  intros Ha Hb Hc Hd Hlt. assert (0 < c) by nia.
  destruct (fdiv_Z c d (of_Z c) (of_Z d)) as (m2 & e2 & -> & Hm2 & He2 & H2); [apply of_Z_is; lia..|lia|lia|].
  destruct (decide (a = 0)) as [->|Ha0].
  { destruct (is_Z_pos b (of_Z b)) as (m & e & -> & _); [apply of_Z_is; lia|lia|]. done. }
  destruct (fdiv_Z a b (of_Z a) (of_Z b)) as (m1 & e1 & -> & Hm1 & He1 & H1); [apply of_Z_is; lia..|lia|lia|].
  assert (Zpos m1 * 2 ^ (e1 + 110) < Zpos m2 * 2 ^ (e2 + 110)) as Hv.
  { set (vx := Zpos m1 * 2 ^ (e1 + 110)) in *. set (vy := Zpos m2 * 2 ^ (e2 + 110)) in *.
    apply Z.nle_gt. intros Hle. change (2 ^ 110) with (2 ^ 55 * 2 ^ 55) in *.
    assert (2 ^ 53 * (vx * b) <= (2 ^ 53 + 1) * (a * (2 ^ 55 * 2 ^ 55))) as Hx by lia.
    assert ((2 ^ 53 - 1) * (c * (2 ^ 55 * 2 ^ 55)) <= 2 ^ 53 * (vy * d)) as Hy by lia.
    assert (2 ^ 53 * (vy * d) * b <= 2 ^ 53 * (vx * b) * d) as Hxy by nia.
    assert ((2 ^ 53 - 1) * (c * b) <= (2 ^ 53 + 1) * (a * d)) by nia. nia. }
  unfold fltb, SFltb. cbn [SFcompare]. destruct (Z.compare_spec e1 e2) as [->|E|E].
  - change (Pos.compare_cont Eq m1 m2) with (Zpos m1 ?= Zpos m2).
    assert (Zpos m1 < Zpos m2) as ->%Z.compare_lt_iff; [|done].
    apply Z.mul_lt_mono_pos_r in Hv; [done|]. apply Z.pow_pos_nonneg; lia.
  - done.
  - exfalso. assert (2 ^ (e1 + 110) = 2 ^ (e1 - e2 - 1) * 2 * 2 ^ (e2 + 110)) as Hp.
    { change 2 with (2 ^ 1) at 3. rewrite <- !Z.pow_add_r by lia. f_equal. lia. }
    assert (0 < 2 ^ (e1 - e2 - 1)) by (apply Z.pow_pos_nonneg; lia).
    assert (0 < 2 ^ (e2 + 110)) by (apply Z.pow_pos_nonneg; lia). nia.
Qed.

(** ** Order *)

Definition is_nan (x : float64) : bool := match x with S754_nan => true | _ => false end.

(** Numbers are compared by their kind, then by exponent, then by mantissa. *)
Definition order_key (x : float64) : Z * Z * Z :=
  match x with
  | S754_infinity true => (-2, 0, 0)
  | S754_finite true m e => (-1, - e, - Zpos m)
  | S754_finite false m e => (1, e, Zpos m)
  | S754_infinity false => (2, 0, 0)
  | _ => (0, 0, 0)
  end.

Definition key_lt (x y : Z * Z * Z) : Prop :=
  x.1.1 < y.1.1 ∨ x.1.1 = y.1.1 ∧ (x.1.2 < y.1.2 ∨ x.1.2 = y.1.2 ∧ x.2 < y.2).

Lemma fltb_key x y :
  is_nan x = false → is_nan y = false → fltb x y = true ↔ key_lt (order_key x) (order_key y).
Proof.
  intros Hx Hy. unfold fltb, SFltb, key_lt.
  destruct x as [[]|[]| |[] mx ex], y as [[]|[]| |[] my ey]; try done; cbn [SFcompare order_key fst snd];
    try (intuition (lia || done)); change (Pos.compare_cont Eq mx my) with (Zpos mx ?= Zpos my);
    destruct (Z.compare_spec ex ey), (Z.compare_spec (Zpos mx) (Zpos my)); simpl; intuition (lia || done).
Qed.

Lemma shr_nonneg rec e n : 0 <= shr_m rec → 0 <= shr_m (shr rec e n).1.
Proof.
  intros H. destruct n as [|p|p]; cbn [shr fst]; [done| |done]. rewrite iter_pos_iter.
  generalize (Pos.to_nat p) as k. induction k as [|k IH]; [done|].
  change (0 <= shr_m (shr_1 (Nat.iter k shr_1 rec))). revert IH.
  destruct (Nat.iter k shr_1 rec) as [[|[m|m|]|m] r s]; cbn [shr_1 shr_m]; lia.
Qed.

Lemma round_aux_not_nan s m e l : 0 <= m → is_nan (binary_round_aux 53 1024 s m e l) = false.
Proof.
  intros Hm. unfold binary_round_aux, shr_fexp.
  pose proof (shr_nonneg (shr_record_of_loc m l) e (fexp 53 1024 (Zdigits2 m + e) - e)) as H1.
  destruct (shr (shr_record_of_loc m l) _ _) as [rec e']. simpl in H1.
  assert (0 <= round_nearest_even (shr_m rec) (loc_of_shr_record rec)) as Hr.
  { assert (0 <= shr_m rec) by (apply H1; by destruct l as [|[]]). unfold round_nearest_even. repeat case_match; lia. }
  set (m' := round_nearest_even _ _) in *.
  pose proof (shr_nonneg (shr_record_of_loc m' loc_Exact) e' (fexp 53 1024 (Zdigits2 m' + e') - e') Hr) as H2.
  destruct (shr (shr_record_of_loc m' loc_Exact) _ _) as [rec' e'']. simpl in H2.
  destruct (shr_m rec'); [done| |lia]. by destruct (_ <=? _).
Qed.

Lemma fdiv_not_nan a b x y : is_Z a x → is_Z b y → b ≠ 0 → is_nan (fdiv x y) = false.
Proof.
  intros [[_ [s ->]]|(_ & m1 & e1 & -> & _)] [[? _]|(_ & m2 & e2 & -> & _)] Hb; try done.
  cbn [fdiv SFdiv]. unfold SFdiv_core_binary.
  set (s := Z.sub _ (Z.min _ _)). set (n := match s with Z0 => _ | Zpos _ => _ | Zneg _ => _ end).
  assert (0 <= n) as Hn by (unfold n; destruct s; [lia|by apply Z.shiftl_nonneg|lia]).
  pose proof (Z_div_mod n (Zpos m2) ltac:(lia)) as Hd. destruct (Z.div_eucl n (Zpos m2)) as [q r].
  apply round_aux_not_nan. nia.
Qed.

Create HintDb float.
#[export] Hint Resolve of_Z_is fsub_Z fadd_Z fmul_Z : float.
