(* ===== verification/Hosts.v ===== *)
(** * Hosts

    internal/management/host/service.go with pkg/models/host.go: the registration
    and the heartbeats of compute nodes, the handlers of hosts, the monitor that
    marks silent hosts as down, and the evacuation of their instances; and what the
    agent of a node sends (pkg/agent). The theorems say when a host is up, down and
    available, and when its instances are evacuated. *)
From S2P Require Import Prelude GoStrings NetIP Http Tables.
From S2P Require Compute.
Import Compute (Keys, uuid_ok, pg_uuid, pg_int, Instance, i_ID, i_HostID, i_Status, set_Status, set_PowerState).
Local Open Scope Z_scope.

(** PostgreSQL's type inet: the form in which an address is stored. *)
Class Inet := { inet : string → option string }.

(** ** Rows *)

Record Capacity := mkCapacity { CPUCores : Z; CPUSockets : Z; CPUMhz : Z; RAMMB : Z; DiskGB : Z }.

Record Allocation := mkAllocation { CPUAllocated : Z; RAMAllocatedMB : Z; DiskAllocatedGB : Z }.

(** [models.Host], its fields for capacity and for allocation as a part each; rows
    that were deleted stay. *)
Record Host := mkHost {
  ID : Z; UUID : string; Name : string; HostType : string; Status : string; ResourceState : string;
  Hostname : string; IPAddress : string; ManagementPort : Z; HypervisorType : string; HypervisorVersion : string;
  capacity : Capacity; allocation : Allocation; Capabilities : json; Labels : json;
  ZoneID : option string; ClusterID : option string; LastHeartbeat : option Z; DisconnectedAt : option Z;
  AgentVersion : string; TLSEnabled : bool; Deleted : bool
}.

(** The enumerations of the database. *)
Definition host_types : list string := ["compute"; "storage"; "network"; "routing"].
Definition host_statuses : list string :=
  ["up"; "down"; "error"; "maintenance"; "disabled"; "connecting"; "disconnected"].
Definition host_resource_states : list string := ["enabled"; "disabled"; "maintenance"; "error"].

Definition IsAvailable (h : Host) : bool :=
  bool_decide (Status h = "up") && bool_decide (ResourceState h = "enabled").

Definition HasEnoughResources (cpus ramMB diskGB : Z) (h : Host) : bool :=
  (cpus <=? wrap64 (CPUCores (capacity h) - CPUAllocated (allocation h)))
  && (ramMB <=? wrap64 (RAMMB (capacity h) - RAMAllocatedMB (allocation h)))
  && (diskGB <=? wrap64 (DiskGB (capacity h) - DiskAllocatedGB (allocation h))).

Definition omit_string (k v : string) : list (string * json) := if decide (v = "") then [] else [(k, JStr v)].
Definition omit_option {A} (k : string) (f : A → json) (v : option A) : list (string * json) :=
  match v with Some v => [(k, f v)] | None => [] end.
Definition omit_map (k : string) (v : json) : list (string * json) :=
  match v with JNull | JObj [] => [] | _ => [(k, v)] end.

Definition host_json (h : Host) : json := JObj ([
  ("id", JNum (ID h)); ("uuid", JStr (UUID h)); ("name", JStr (Name h)); ("host_type", JStr (HostType h));
  ("status", JStr (Status h)); ("resource_state", JStr (ResourceState h)); ("hostname", JStr (Hostname h));
  ("ip_address", JStr (IPAddress h)); ("management_port", JNum (ManagementPort h));
  ("hypervisor_type", JStr (HypervisorType h))]
  ++ omit_string "hypervisor_version" (HypervisorVersion h) ++ [
  ("cpu_cores", JNum (CPUCores (capacity h))); ("cpu_sockets", JNum (CPUSockets (capacity h)));
  ("cpu_mhz", JNum (CPUMhz (capacity h))); ("ram_mb", JNum (RAMMB (capacity h)));
  ("disk_gb", JNum (DiskGB (capacity h))); ("cpu_allocated", JNum (CPUAllocated (allocation h)));
  ("ram_allocated_mb", JNum (RAMAllocatedMB (allocation h)));
  ("disk_allocated_gb", JNum (DiskAllocatedGB (allocation h)))]
  ++ omit_map "capabilities" (Capabilities h) ++ omit_map "labels" (Labels h)
  ++ omit_option "zone_id" JStr (ZoneID h) ++ omit_option "cluster_id" JStr (ClusterID h)
  ++ omit_option "last_heartbeat" JTime (LastHeartbeat h) ++ omit_option "disconnected_at" JTime (DisconnectedAt h)
  ++ omit_string "agent_version" (AgentVersion h) ++ [("tls_enabled", JBool (TLSEnabled h))]).

(** [hosts], the rows of instances that are not deleted, and the messages that
    evacuations record with the UUID of their host. *)
Record DB := mkDB { hosts : list Host; instances : list Instance; system_events : list (string * string) }.

Definition set_hosts (l : list Host) (db : DB) : DB := mkDB l (instances db) (system_events db).

(** An update of the row of a host. *)
Definition on_host (id : Z) (f : Host → Host) (db : DB) : DB := set_hosts (on_row ID id f (hosts db)) db.

Definition live (db : DB) : list Host := filter (λ h, Deleted h = false) (hosts db).

(** ** Changes of a row *)

Definition with_states (resourceState status : string) (h : Host) : Host :=
  mkHost (ID h) (UUID h) (Name h) (HostType h) status resourceState (Hostname h) (IPAddress h) (ManagementPort h)
    (HypervisorType h) (HypervisorVersion h) (capacity h) (allocation h) (Capabilities h) (Labels h) (ZoneID h)
    (ClusterID h) (LastHeartbeat h) (DisconnectedAt h) (AgentVersion h) (TLSEnabled h) (Deleted h).

Definition with_health (status : string) (heartbeat disconnected : option Z) (h : Host) : Host :=
  mkHost (ID h) (UUID h) (Name h) (HostType h) status (ResourceState h) (Hostname h) (IPAddress h) (ManagementPort h)
    (HypervisorType h) (HypervisorVersion h) (capacity h) (allocation h) (Capabilities h) (Labels h) (ZoneID h)
    (ClusterID h) heartbeat disconnected (AgentVersion h) (TLSEnabled h) (Deleted h).

Definition with_report (hypervisorVersion agentVersion : string) (a : Allocation) (h : Host) : Host :=
  mkHost (ID h) (UUID h) (Name h) (HostType h) (Status h) (ResourceState h) (Hostname h) (IPAddress h)
    (ManagementPort h) (HypervisorType h) (if decide (hypervisorVersion = "") then HypervisorVersion h else hypervisorVersion)
    (capacity h) a (Capabilities h) (Labels h) (ZoneID h) (ClusterID h) (LastHeartbeat h) (DisconnectedAt h)
    (if decide (agentVersion = "") then AgentVersion h else agentVersion) (TLSEnabled h) (Deleted h).

Definition with_settings (name : option string) (labels : option json) (resourceState : option string) (h : Host) : Host :=
  mkHost (ID h) (UUID h) (default (Name h) name) (HostType h) (Status h) (default (ResourceState h) resourceState)
    (Hostname h) (IPAddress h) (ManagementPort h) (HypervisorType h) (HypervisorVersion h) (capacity h) (allocation h)
    (Capabilities h) (default (Labels h) labels) (ZoneID h) (ClusterID h) (LastHeartbeat h) (DisconnectedAt h)
    (AgentVersion h) (TLSEnabled h) (Deleted h).

Definition removed (h : Host) : Host :=
  mkHost (ID h) (UUID h) (Name h) (HostType h) (Status h) (ResourceState h) (Hostname h) (IPAddress h) (ManagementPort h)
    (HypervisorType h) (HypervisorVersion h) (capacity h) (allocation h) (Capabilities h) (Labels h) (ZoneID h)
    (ClusterID h) (LastHeartbeat h) (DisconnectedAt h) (AgentVersion h) (TLSEnabled h) true.

(** ** Requests *)

Record RegisterRequest := mkRegister {
  r_Name : string; r_Hostname : string; r_IPAddress : string; r_ManagementPort : Z; r_HostType : string;
  r_HypervisorType : string; r_HypervisorVersion : string; r_capacity : Capacity; r_Capabilities : json;
  r_Labels : json; r_AgentVersion : string; r_ZoneID : option string; r_ClusterID : option string
}.

Record HeartbeatRequest := mkHeartbeat {
  hb_UUID : string; hb_allocation : Allocation; hb_HypervisorVersion : string; hb_AgentVersion : string
}.

Record UpdateRequest := mkUpdate { u_Name : option string; u_Labels : option json; u_ResourceState : option string }.

Section service.
Context {keys : Keys} {addresses : Inet} {defaults : Defaults}.

(** [net.LookupHost]; no address where it fails. *)
Variable LookupHost : string → list string.
(** [heartbeatTimeout], two minutes unless it is configured. *)
Variable heartbeatTimeout : Z.

(** ** Lookups *)

(** A query for one host: the first of the live rows that a condition selects, or
    an error of the database where there is none. *)
Definition lookup_host (id : string) (db : DB) : option (option Host) :=
  if uuid_ok id then u ← pg_uuid id; Some (List.find (λ h, bool_decide (UUID h = u)) (live db))
  else n ← pg_int id; Some (row_with ID n (live db)).

Definition findHostByID (id : string) (db : DB) : option Host := mjoin (lookup_host id db).

Definition ListHosts (ok : bool) (db : DB) : option (list Host) := if ok then Some (live db) else None.

(** [DeleteHost]: a text that is not a UUID makes the statement fail. *)
Definition DeleteHost (ok : bool) (id : string) (db : DB) : bool * DB :=
  match pg_uuid id with
  | Some u =>
      if ok
      then (true, set_hosts ((λ h, if negb (Deleted h) && (bool_decide (UUID h = u) || bool_decide (Name h = id))
                                   then removed h else h) <$> hosts db) db)
      else (false, db)
  | None => (false, db)
  end.

Definition getHostInstances (ok : bool) (id : string) (db : DB) : response + list Instance :=
  match findHostByID id db with
  | None => inl (error 404 "host not found")
  | Some host =>
      if ok then inr (filter (λ i, i_HostID i = UUID host ∧ i_Status i ≠ "deleted") (instances db))
      else inl (error 500 "database error")
  end.

(** ** Registration *)

Definition resolve (ip : string) : option string :=
  match ParseIP ip with
  | Some _ => Some ip
  | None => head (LookupHost ip)
  end.

(** The host with an address and a port. *)
Definition registered (ip : string) (port : Z) (db : DB) : option Host :=
  a ← inet ip; List.find (λ h, bool_decide (IPAddress h = a) && (ManagementPort h =? port)) (live db).

Definition reregister (req : RegisterRequest) (now : Z) (h : Host) : Host :=
  let c := r_capacity req in
  let sockets := if 0 <? CPUSockets c then CPUSockets c else CPUSockets (capacity h) in
  mkHost (ID h) (UUID h) (r_Name req) (HostType h) "up" (ResourceState h) (r_Hostname req) (IPAddress h)
    (ManagementPort h) (r_HypervisorType req) (r_HypervisorVersion req)
    (mkCapacity (CPUCores c) sockets (CPUMhz c) (RAMMB c) (DiskGB c)) (allocation h) (r_Capabilities req) (r_Labels req)
    (r_ZoneID req) (r_ClusterID req) (Some now) (DisconnectedAt h) (r_AgentVersion req) (TLSEnabled h) (Deleted h).

Definition new_host (req : RegisterRequest) (address uuid : string) (id now : Z) : Host :=
  let c := r_capacity req in
  mkHost id uuid (r_Name req) (if decide (r_HostType req = "") then "compute" else r_HostType req) "connecting" "enabled"
    (r_Hostname req) address (if 0 <? r_ManagementPort req then r_ManagementPort req else 8081)
    (stored_string "kvm" (r_HypervisorType req)) (r_HypervisorVersion req)
    (mkCapacity (CPUCores c) (if 0 <? CPUSockets c then CPUSockets c else 1) (CPUMhz c) (RAMMB c) (DiskGB c))
    (mkAllocation 0 0 0) (r_Capabilities req) (r_Labels req) (r_ZoneID req) (r_ClusterID req) (Some now) None
    (r_AgentVersion req) false false.

Definition register_answer (h : Host) : response :=
  (200, JObj [("uuid", JStr (UUID h)); ("host_id", JNum (ID h)); ("status", JStr "registered")]).

(** [uuid] and [id] are drawn; [find] and [write] tell that the query and the write
    succeed. A text that is not one of the types of a host, or that is no address,
    is refused by the database, and so is a UUID that is taken. *)
Definition registerHost (find write : bool) (now : Z) (uuid : string) (id : Z) (req : result string RegisterRequest)
    (db : DB) : response * DB :=
  match req with
  | Err e => (error 400 e, db)
  | Ok req =>
      match resolve (r_IPAddress req) with
      | None => (error 400 ("ip_address '" +:+ r_IPAddress req +:+ "' is not a valid IP and could not be resolved via DNS"), db)
      | Some ip =>
          match (if find then registered ip (r_ManagementPort req) db else None) with
          | Some h =>
              if write
              then (register_answer h, on_host (ID h) (reregister req now) db)
              else (error 500 "failed to update host", db)
          | None =>
              match inet ip with
              | Some a =>
                  let h := new_host req a uuid id now in
                  if write && bool_decide (HostType h ∈ host_types) && negb (has_row ID id (hosts db))
                     && forallb (λ x, negb (bool_decide (UUID x = uuid))) (hosts db)
                  then (register_answer h, set_hosts (hosts db ++ [h]) db)
                  else (error 500 "failed to register host", db)
              | None => (error 500 "failed to register host", db)
              end
          end
      end
  end.

(** ** Heartbeats *)

Definition offline (status : string) : bool := bool_decide (status ∈ ["down"; "disconnected"; "connecting"]).

Definition beat (req : HeartbeatRequest) (now : Z) (h : Host) : Host :=
  let h := with_report (hb_HypervisorVersion req) (hb_AgentVersion req) (hb_allocation req) h in
  if offline (Status h) then with_health "up" (Some now) None h
  else with_health (Status h) (Some now) (DisconnectedAt h) h.

Definition heartbeat (write : bool) (now : Z) (req : result string HeartbeatRequest) (db : DB) : response * DB :=
  match req with
  | Err e => (error 400 e, db)
  | Ok req =>
      match pg_uuid (hb_UUID req) ≫= λ u, List.find (λ h, bool_decide (UUID h = u)) (live db) with
      | None => (error 404 "host not found", db)
      | Some h =>
          if write then ((200, JObj [("ok", JBool true)]), on_host (ID h) (beat req now) db)
          else (error 500 "failed to update heartbeat", db)
      end
  end.

(** What the agent of a node sends as its registration and as every heartbeat. *)
Definition agent_registration (name ip : string) (port cores ram disk : Z) (labels : json)
    (zone cluster : option string) : RegisterRequest :=
  mkRegister name name ip port "compute" "kvm" "" (mkCapacity cores 1 0 ram disk) JNull labels "v1.0.0" zone cluster.

Definition agent_heartbeat (uuid : string) : HeartbeatRequest :=
  mkHeartbeat uuid (mkAllocation 0 0 0) "" "v1.0.0".

(** ** Handlers *)

Definition matches (v : string) (field : string) : bool := bool_decide (v = "") || bool_decide (field = v).

(** A text that an enumeration does not have makes the query fail. *)
Definition enumerated (values : list string) (v : string) : bool := bool_decide (v = "") || bool_decide (v ∈ values).

Definition listHosts (ok : bool) (status resourceState hostType zoneID : string) (db : DB) : response :=
  if ok && enumerated host_statuses status && enumerated host_resource_states resourceState
     && enumerated host_types hostType
  then (200, JObj [("hosts", JList (host_json <$> filter (λ h,
          matches status (Status h) = true ∧ matches resourceState (ResourceState h) = true ∧
          matches hostType (HostType h) = true ∧ (zoneID = "" ∨ ZoneID h = Some zoneID)) (live db)))])
  else error 500 "failed to list hosts".

Definition getHost (id : string) (db : DB) : response :=
  match lookup_host id db with
  | None => error 500 "failed to get host"
  | Some None => error 404 "host not found"
  | Some (Some h) => (200, JObj [("host", host_json h)])
  end.

(** An empty request writes nothing. *)
Definition updateHost (write : bool) (id : string) (req : result string UpdateRequest) (db : DB) : response * DB :=
  match req with
  | Err e => (error 400 e, db)
  | Ok req =>
      match findHostByID id db with
      | None => (error 404 "host not found", db)
      | Some h =>
          let set := with_settings (u_Name req) (u_Labels req) (u_ResourceState req) in
          match u_Name req, u_Labels req, u_ResourceState req with
          | None, None, None => ((200, JObj [("host", host_json h)]), db)
          | _, _, rs =>
              if write && from_option (λ v, bool_decide (v ∈ host_resource_states)) true rs
              then ((200, JObj [("host", host_json (set h))]), on_host (ID h) set db)
              else (error 500 "failed to update host", db)
          end
      end
  end.

Definition deleteHost (write : bool) (id : string) (db : DB) : response * DB :=
  match findHostByID id db with
  | None => (error 404 "host not found", db)
  | Some h =>
      if write then ((200, JObj [("ok", JBool true)]), on_host (ID h) removed db)
      else (error 500 "failed to delete host", db)
  end.

Definition updateHostState (resourceState status : string) (write : bool) (id : string) (db : DB) : response * DB :=
  match findHostByID id db with
  | None => (error 404 "host not found", db)
  | Some h =>
      if write
      then ((200, JObj [("ok", JBool true); ("status", JStr status); ("resource_state", JStr resourceState)]),
            on_host (ID h) (with_states resourceState status) db)
      else (error 500 "failed to update host state", db)
  end.

Definition enableHost : bool → string → DB → response * DB := updateHostState "enabled" "up".
Definition disableHost : bool → string → DB → response * DB := updateHostState "disabled" "disabled".
Definition maintenanceMode : bool → string → DB → response * DB := updateHostState "maintenance" "maintenance".

(** The order that is asked for is by what is allocated; where two hosts are alike
    either may come first. *)
Definition less_allocated (a b : Host) : Prop :=
  CPUAllocated (allocation a) < CPUAllocated (allocation b) ∨
  CPUAllocated (allocation a) = CPUAllocated (allocation b) ∧
  RAMAllocatedMB (allocation a) <= RAMAllocatedMB (allocation b).

#[global] Instance less_allocated_dec a b : Decision (less_allocated a b).
Proof. unfold less_allocated. apply _. Defined.

Definition GetAvailableHosts (db : DB) : list Host :=
  merge_sort less_allocated (filter (λ h, IsAvailable h = true) (live db)).

(** ** The monitor *)

Definition silent (now : Z) (h : Host) : bool :=
  bool_decide (Status h ∈ ["up"; "connecting"])
  && match LastHeartbeat h with None => true | Some t => t <? now - heartbeatTimeout end.

Definition mark_down (now : Z) (h : Host) : Host :=
  with_health "down" (LastHeartbeat h) (Some (default now (DisconnectedAt h))) h.

(** The hosts that were read, one after the other: [writes] tells for which the
    update succeeds and [later] the time of the check after it. A host without a
    heartbeat makes the log entry panic, which ends the process. The second result
    are the evacuations that are started. *)
Fixpoint mark_hosts (writes : Z → bool) (now later : Z) (l : list Host) (db : DB) (evacuated : list (string * string))
    : outcome (DB * list (string * string)) :=
  match l with
  | [] => Returns (db, evacuated)
  | h :: l =>
      if negb (writes (ID h)) then mark_hosts writes now later l db evacuated
      else
        let db := on_host (ID h) (mark_down now) db in
        match LastHeartbeat h with
        | None => Panics
        | Some _ =>
            let disconnectedAt := default now (DisconnectedAt h) in
            let evacuated := if 5 * minute <? time_sub later disconnectedAt
                             then evacuated ++ [(UUID h, Name h)] else evacuated in
            mark_hosts writes now later l db evacuated
        end
  end.

Definition checkHostHealth (find : bool) (writes : Z → bool) (now later : Z) (db : DB)
    : outcome (DB * list (string * string)) :=
  if find then mark_hosts writes now later (filter (λ h, silent now h = true) (live db)) db []
  else Returns (db, []).

Definition stale (now : Z) (h : Host) : bool :=
  bool_decide (Status h = "down")
  && match DisconnectedAt h with None => false | Some t => t <? now - 7 * 24 * hour end.

Definition cleanupStaleHosts (find : bool) (writes : Z → bool) (now : Z) (db : DB) : DB :=
  if find
  then set_hosts ((λ h, if negb (Deleted h) && stale now h && writes (ID h) then removed h else h) <$> hosts db) db
  else db.

(** ** Evacuation *)

Definition affected (hostUUID : string) (i : Instance) : bool :=
  bool_decide (i_HostID i = hostUUID) && bool_decide (i_Status i ∈ ["active"; "building"]).

(** [find] and [write] tell that the query and the update succeed. The second
    result are the instances that the callback is told of, where one is
    configured. *)
Definition evacuateHost (find write : bool) (hostUUID hostName : string) (db : DB) : DB * list Z :=
  let l := filter (λ i, affected hostUUID i = true) (instances db) in
  match l with
  | [] => (db, [])
  | _ =>
      if negb find || negb write then (db, [])
      else
        (mkDB (hosts db)
           ((λ i, if affected hostUUID i then set_PowerState "host_down" (set_Status "error" i) else i) <$> instances db)
           (system_events db ++ [(hostUUID, "Host " +:+ hostName +:+ " marked down. " +:+ Itoa (Z.of_nat (length l))
                                            +:+ " instance(s) marked for evacuation.")]),
         i_ID <$> l)
  end.

(** The third result is the evacuation that is started. *)
Definition evacuateHostHTTP (id : string) (db : DB) : response * option (string * string) :=
  match findHostByID id db with
  | None => (error 404 "host not found", None)
  | Some h =>
      let count := Z.of_nat (length (filter (λ i, affected (UUID h) i = true) (instances db))) in
      if count =? 0
      then ((200, JObj [("ok", JBool true); ("message", JStr "no instances to evacuate"); ("affected", JNum 0)]), None)
      else ((202, JObj [("ok", JBool true);
               ("message", JStr ("evacuating " +:+ Itoa count +:+ " instance(s) from host " +:+ Name h));
               ("affected", JNum count)]), Some (UUID h, Name h))
  end.

(** ** Histories *)

Inductive op :=
| ORegister (find write : bool) (now : Z) (uuid : string) (id : Z) (req : RegisterRequest)
| OBeat (write : bool) (now : Z) (req : HeartbeatRequest)
| OUpdate (write : bool) (id : string) (req : UpdateRequest)
| ODelete (write : bool) (id : string)
| OEnable (write : bool) (id : string)
| ODisable (write : bool) (id : string)
| OMaintain (write : bool) (id : string)
| OCheck (find : bool) (writes : Z → bool) (now later : Z)
| OCleanup (find : bool) (writes : Z → bool) (now : Z)
| OEvacuate (find write : bool) (uuid name : string).

(** The state after an operation, with the evacuations that the monitor starts. *)
Definition perform (db : DB) (o : op) : outcome (DB * list (string * string)) :=
  match o with
  | ORegister find write now uuid id req => Returns ((registerHost find write now uuid id (Ok req) db).2, [])
  | OBeat write now req => Returns ((heartbeat write now (Ok req) db).2, [])
  | OUpdate write id req => Returns ((updateHost write id (Ok req) db).2, [])
  | ODelete write id => Returns ((deleteHost write id db).2, [])
  | OEnable write id => Returns ((enableHost write id db).2, [])
  | ODisable write id => Returns ((disableHost write id db).2, [])
  | OMaintain write id => Returns ((maintenanceMode write id db).2, [])
  | OCheck find writes now later => checkHostHealth find writes now later db
  | OCleanup find writes now => Returns (cleanupStaleHosts find writes now db, [])
  | OEvacuate find write uuid name => Returns ((evacuateHost find write uuid name db).1, [])
  end.

Fixpoint run (db : DB) (os : list op) : outcome (DB * list (string * string)) :=
  match os with
  | [] => Returns (db, [])
  | o :: os =>
      match perform db o with
      | Panics => Panics
      | Returns (db, ev) =>
          match run db os with
          | Panics => Panics
          | Returns (db, ev') => Returns (db, ev ++ ev')
          end
      end
  end.

(** *** The rounds of the monitor *)

(** What a round makes of a row, and the evacuations it starts. *)
Definition checked (writes : Z → bool) (now : Z) (h : Host) : Host :=
  if negb (Deleted h) && silent now h && writes (ID h) then mark_down now h else h.

Definition overdue (writes : Z → bool) (now later : Z) (h : Host) : Prop :=
  writes (ID h) = true ∧ 5 * minute < time_sub later (default now (DisconnectedAt h)).

#[global] Instance overdue_dec writes now later h : Decision (overdue writes now later h).
Proof. unfold overdue. apply _. Defined.

Lemma mark_hosts_spec writes now later l db ev :
  Forall (λ h, LastHeartbeat h ≠ None) l →
  mark_hosts writes now later l db ev =
    Returns (foldl (λ db h, if writes (ID h) then on_host (ID h) (mark_down now) db else db) db l,
             ev ++ ((λ h, (UUID h, Name h)) <$> filter (overdue writes now later) l)).
Proof.
  revert db ev. induction l as [|h l IH]; intros db ev Hl; [by rewrite app_nil_r|].
  apply list.Forall_cons in Hl as [Hh Hl]. cbn [mark_hosts foldl]. rewrite filter_cons.
  destruct (writes (ID h)) eqn:Ew; cbn [negb];
    [|rewrite IH by done; by rewrite (decide_False (P := overdue _ _ _ _)) by (intros []; congruence)].
  destruct (LastHeartbeat h); [|done]. rewrite IH by done. do 2 f_equal.
  destruct (5 * minute <? _) eqn:E; zbool.
  - rewrite (decide_True (P := overdue _ _ _ _)) by done. by rewrite <- app_assoc.
  - rewrite (decide_False (P := overdue _ _ _ _)); [done|]. intros [_ ?]. lia.
Qed.
Lemma set_hosts_same db : set_hosts (hosts db) db = db.
Proof. by destruct db. Qed.

Lemma foldl_mark (writes : Z → bool) now l db :
  NoDup (ID <$> l) →
  foldl (λ db h, if writes (ID h) then on_host (ID h) (mark_down now) db else db) db l =
  set_hosts ((λ h, if writes (ID h) && bool_decide (ID h ∈ ID <$> l) then mark_down now h else h) <$> hosts db) db.
Proof.
  revert db. induction l as [|x l IH]; intros db Hn; cbn [foldl fmap list_fmap].
  - rewrite <- (set_hosts_same db) at 1. f_equal. symmetry. rewrite <- (list_fmap_id (hosts db)) at 2.
    apply list_fmap_ext. intros i h _. by rewrite (bool_decide_eq_false_2 (ID h ∈ [])), andb_false_r by apply not_elem_of_nil.
  - apply list.NoDup_cons in Hn as [Hx Hn]. rewrite IH by done.
    assert (∀ hs, (λ h, if writes (ID h) && bool_decide (ID h ∈ ID <$> l) then mark_down now h else h) <$>
              (if writes (ID x) then on_row ID (ID x) (mark_down now) hs else hs) =
            (λ h, if writes (ID h) && bool_decide (ID h ∈ ID x :: (ID <$> l)) then mark_down now h else h) <$> hs) as Hm.
    { intros hs. destruct (writes (ID x)) eqn:Ew; [unfold on_row; rewrite <- list_fmap_compose|];
        apply list_fmap_ext; intros i h _; simpl.
      - destruct (Z.eqb_spec (ID h) (ID x)) as [E|Hne].
        + change (ID (mark_down now h)) with (ID h).
          rewrite E, Ew, (bool_decide_eq_false_2 _ Hx), (bool_decide_eq_true_2 (ID x ∈ ID x :: _)) by left. done.
        + by rewrite (bool_decide_ext (ID h ∈ ID x :: _) (ID h ∈ ID <$> l)) by (rewrite elem_of_cons; naive_solver).
      - destruct (decide (ID h = ID x)) as [->|Hne]; [by rewrite Ew|].
        by rewrite (bool_decide_ext (ID h ∈ ID x :: _) (ID h ∈ ID <$> l)) by (rewrite elem_of_cons; naive_solver). }
    rewrite <- Hm. by destruct (writes (ID x)).
Qed.

(** A round marks exactly the silent hosts, and starts the evacuations that are
    overdue. *)
Lemma check_spec find writes now later db :
  keyed ID (hosts db) → Forall (λ h, LastHeartbeat h ≠ None) (live db) →
  checkHostHealth find writes now later db =
    Returns (if find
             then (set_hosts (checked writes now <$> hosts db) db,
                   (λ h, (UUID h, Name h)) <$> filter (λ h, overdue writes now later h ∧ silent now h = true) (live db))
             else (db, [])).
Proof.
  intros Hk Hh. unfold checkHostHealth. destruct find; [|done].
  rewrite mark_hosts_spec
    by (apply list.Forall_forall; intros h [_ Hin]%list_elem_of_filter; by apply (proj1 (list.Forall_forall _ _) Hh)).
  rewrite foldl_mark by (apply keyed_filter; by apply keyed_filter). do 3 f_equal.
  - apply list_fmap_ext. intros i h Hi. apply list_elem_of_lookup_2 in Hi. unfold checked.
    rewrite (andb_comm _ (writes (ID h))). replace (bool_decide _) with (negb (Deleted h) && silent now h); [done|].
    symmetry. apply eq_true_iff_eq.
    rewrite bool_decide_eq_true, andb_true_iff, negb_true_iff, list_elem_of_fmap. split.
    + intros (x & Hid & [Hs [Hd Hx]%list_elem_of_filter]%list_elem_of_filter).
      assert (h = x) as -> by (by apply (nodup_key ID (hosts db))). done.
    + intros [Hd Hs]. exists h. split; [done|]. apply list_elem_of_filter. split; [done|].
      by apply list_elem_of_filter.
  - simpl. f_equal. apply list_filter_filter.
Qed.
(** *** What an operation does to a row *)


(** The texts that name a host. *)
Definition names (id : string) (h : Host) : Prop := pg_uuid id = Some (UUID h) ∨ pg_int id = Some (ID h).

Inductive row_step : op → Host → Host → Prop :=
| row_same o h : row_step o h h
| row_register find write now uuid id req ip h :
    resolve (r_IPAddress req) = Some ip → inet ip = Some (IPAddress h) → ManagementPort h = r_ManagementPort req →
    row_step (ORegister find write now uuid id req) h (reregister req now h)
| row_beat write now req h :
    pg_uuid (hb_UUID req) = Some (UUID h) → row_step (OBeat write now req) h (beat req now h)
| row_update write id req h :
    names id h → row_step (OUpdate write id req) h (with_settings (u_Name req) (u_Labels req) (u_ResourceState req) h)
| row_delete write id h : names id h → row_step (ODelete write id) h (removed h)
| row_enable write id h : names id h → row_step (OEnable write id) h (with_states "enabled" "up" h)
| row_disable write id h : names id h → row_step (ODisable write id) h (with_states "disabled" "disabled" h)
| row_maintain write id h :
    names id h → row_step (OMaintain write id) h (with_states "maintenance" "maintenance" h)
| row_check find writes now later h : silent now h = true → row_step (OCheck find writes now later) h (mark_down now h)
| row_cleanup find writes now h : stale now h = true → row_step (OCleanup find writes now) h (removed h).

(** Rows have keys of their own, and every host has sent something. *)
Record tables_ok (l : list Host) : Prop := {
  ok_ids : keyed ID l; ok_uuids : NoDup (UUID <$> l); ok_heartbeats : Forall (λ h, LastHeartbeat h ≠ None) l
}.

(** A table whose rows are changed each by a step. *)
Definition stepped (o : op) (l l' : list Host) : Prop := ∃ f, l' = f <$> l ∧ ∀ h, h ∈ l → row_step o h (f h).

Lemma row_step_keys o h h' : row_step o h h' → ID h' = ID h ∧ UUID h' = UUID h ∧ IPAddress h' = IPAddress h ∧ ManagementPort h' = ManagementPort h.
Proof.
  intros H. destruct H; try done. unfold beat. case_match; done.
Qed.

Lemma row_step_heartbeat o h h' : row_step o h h' → LastHeartbeat h ≠ None → LastHeartbeat h' ≠ None.
Proof. intros H Hh. destruct H; try done. unfold beat. case_match; done. Qed.

Lemma stepped_ok o l l' : stepped o l l' → tables_ok l → tables_ok l'.
Proof.
  intros (f & -> & Hf) [Hi Hu Hh].
  assert (∀ {B} (g : Host → B), (∀ h, h ∈ l → g (f h) = g h) → g <$> (f <$> l) = g <$> l) as Hg.
  { intros B g Hg. rewrite <- list_fmap_compose. apply list_fmap_ext. intros i h Hl.
    apply Hg. by eapply list_elem_of_lookup_2. }
  split.
  - unfold keyed. rewrite Hg; [done|]. intros h Hl. by apply (row_step_keys o), Hf.
  - rewrite Hg; [done|]. intros h Hl. by apply (row_step_keys o), Hf.
  - apply list.Forall_fmap, list.Forall_forall. intros h Hl. eapply row_step_heartbeat; [by apply Hf|].
    by apply (proj1 (list.Forall_forall _ _) Hh).
Qed.

Lemma stepped_same o l : stepped o l l.
Proof. exists id. split; [by rewrite list_fmap_id|]. intros. apply row_same. Qed.

Lemma stepped_on_row o h0 f l :
  keyed ID l → h0 ∈ l → row_step o h0 (f h0) → stepped o l (on_row ID (ID h0) f l).
Proof.
  intros Hk H0 Hs. exists (λ h, if ID h =? ID h0 then f h else h). split; [done|]. intros h Hh.
  destruct (ID h =? ID h0) eqn:E; [|apply row_same]. zbool.
  assert (h = h0) as -> by (by apply (nodup_key ID l)). done.
Qed.

Lemma live_elem h db : h ∈ live db → h ∈ hosts db ∧ Deleted h = false.
Proof. intros [? ?]%list_elem_of_filter. done. Qed.

Lemma find_uuid_elem u h db :
  List.find (λ h, bool_decide (UUID h = u)) (live db) = Some h → h ∈ hosts db ∧ UUID h = u.
Proof. intros [H E]%find_elem. zbool. by apply live_elem in H as [? _]. Qed.

Lemma findHostByID_elem id h db : findHostByID id db = Some h → h ∈ live db ∧ names id h.
Proof.
  unfold findHostByID, lookup_host, names. destruct (uuid_ok id).
  - destruct (pg_uuid id) as [u|]; [|done]. simpl. intros [H E]%find_elem. zbool. by rewrite E; auto.
  - destruct (pg_int id) as [n|]; [|done]. simpl. intros [H E]%row_with_elem. by rewrite E; auto.
Qed.
Lemma on_host_ok id f db :
  (∀ x, ID (f x) = ID x ∧ UUID (f x) = UUID x ∧ (LastHeartbeat x ≠ None → LastHeartbeat (f x) ≠ None)) →
  tables_ok (hosts db) → tables_ok (hosts (on_host id f db)).
Proof.
  intros Hf [Hi Hu Hh]. unfold on_host. cbn [hosts set_hosts]. split.
  - apply keyed_on_row; [|done]. intros x _ <-. apply Hf.
  - unfold on_row. rewrite <- list_fmap_compose. rewrite (list_fmap_ext _ UUID (hosts db)); [done|]. intros i x _.
    simpl. destruct (ID x =? id); [apply Hf|done].
  - apply list.Forall_fmap. eapply list.Forall_impl; [done|]. intros x Hx. simpl.
    destruct (ID x =? id); [by apply Hf|done].
Qed.

Lemma on_host_row h f db :
  tables_ok (hosts db) → h ∈ hosts db → (∀ x, ID (f x) = ID x) →
  row_with ID (ID h) (hosts (on_host (ID h) f db)) = Some (f h).
Proof.
  intros Hok Hh Hf. unfold on_host. cbn [hosts set_hosts]. rewrite row_with_on_row by by intros x _ <-.
  by rewrite (row_with_keyed ID (ID h) (hosts db) h (ok_ids _ Hok)).
Qed.

(** An operation on the host that a text names. *)
Lemma stepped_named o id f h db :
  tables_ok (hosts db) → findHostByID id db = Some h → (names id h → row_step o h (f h)) →
  stepped o (hosts db) (hosts (on_host (ID h) f db)).
Proof.
  intros Hok [Hl Hn]%findHostByID_elem Hs. apply live_elem in Hl as [Hl _].
  apply stepped_on_row; [apply Hok|done|by apply Hs].
Qed.

Lemma stepped_state o rs st write id db :
  tables_ok (hosts db) → (∀ h, names id h → row_step o h (with_states rs st h)) →
  stepped o (hosts db) (hosts (updateHostState rs st write id db).2).
Proof.
  intros Hok Hs. unfold updateHostState. destruct (findHostByID id db) as [h|] eqn:E; [|apply stepped_same].
  destruct write; [|apply stepped_same]. by eapply stepped_named; [..|apply Hs].
Qed.

(** The rows that a registration adds. *)
Definition added (o : op) (l : list Host) : list Host :=
  match o with
  | ORegister find write now uuid id req =>
      match resolve (r_IPAddress req) ≫= inet with
      | Some a => [new_host req a uuid id now]
      | None => []
      end
  | _ => []
  end.

Lemma register_stepped find write now uuid id req db :
  tables_ok (hosts db) →
  let o := ORegister find write now uuid id req in
  let db' := (registerHost find write now uuid id (Ok req) db).2 in
  stepped o (hosts db) (hosts db') ∨
  (∃ h, hosts db' = hosts db ++ [h] ∧ added o (hosts db) = [h] ∧ tables_ok (hosts db')).
Proof.
  intros Hok o db'. subst o db'. unfold registerHost. cbn [added].
  destruct (resolve (r_IPAddress req)) as [ip|] eqn:Er; [|left; apply stepped_same].
  destruct (if find then registered ip (r_ManagementPort req) db else None) as [h|] eqn:Ef.
  - destruct write; [|left; apply stepped_same]. left. destruct find; [|done]. unfold registered in Ef.
    destruct (inet ip) as [a|] eqn:Ea; [|done]. simpl in Ef. apply find_elem in Ef as [Hl Hp]. zbool.
    apply live_elem in Hl as [Hl _]. apply stepped_on_row; [apply Hok|done|].
    apply (row_register _ _ _ _ _ _ ip); [done|congruence|done].
  - simpl. destruct (inet ip) as [a|] eqn:Ea; [|left; apply stepped_same].
    destruct (write && _ && _ && _) eqn:Ew; [|left; apply stepped_same]. right. zbool.
    eexists. split_and!; [done|done|]. destruct Hok as [Hi Hu Hh]. split.
    + by apply keyed_snoc.
    + cbn [hosts snd set_hosts]. rewrite fmap_app. apply list.NoDup_app. split_and!; [done| |apply NoDup_singleton].
      intros u (x & -> & Hx)%list_elem_of_fmap Hu'%list_elem_of_singleton.
      match goal with H : forallb _ _ = true |- _ => rewrite forallb_elem in H; specialize (H x Hx) end.
      zbool. done.
    + apply list.Forall_app. split; [done|]. by apply list.Forall_singleton.
Qed.

(** The rows go on, each changed by a step, and an evacuation is started for a host
    that was silent and is overdue. *)
Definition advanced (db : DB) (o : op) (db' : DB) (ev : list (string * string)) : Prop :=
  tables_ok (hosts db') ∧
  (∃ l, stepped o (hosts db) l ∧ (hosts db' = l ∨ ∃ h, hosts db' = l ++ [h] ∧ added o (hosts db) = [h])) ∧
  ∀ u, u ∈ ev.*1 → ∃ find writes now later h,
    o = OCheck find writes now later ∧ h ∈ live db ∧ UUID h = u ∧ silent now h = true ∧
    5 * minute < time_sub later (default now (DisconnectedAt h)).

Lemma advanced_quiet db o db' : tables_ok (hosts db) → stepped o (hosts db) (hosts db') → advanced db o db' [].
Proof.
  intros Hok Hs. split_and!; [by eapply stepped_ok|by eauto|]. intros u Hu. by apply not_elem_of_nil in Hu.
Qed.

Lemma heartbeat_stepped write now req db :
  tables_ok (hosts db) → stepped (OBeat write now req) (hosts db) (hosts (heartbeat write now (Ok req) db).2).
Proof.
  intros Hok. unfold heartbeat. destruct (pg_uuid (hb_UUID req)) as [u|] eqn:Eu; [|apply stepped_same].
  simpl. destruct (List.find _ _) as [h|] eqn:Ef; [|apply stepped_same].
  destruct write; [|apply stepped_same]. apply find_uuid_elem in Ef as [Hl <-].
  apply stepped_on_row; [apply Hok|done|by constructor].
Qed.

Lemma update_stepped write id req db :
  tables_ok (hosts db) → stepped (OUpdate write id req) (hosts db) (hosts (updateHost write id (Ok req) db).2).
Proof.
  intros Hok. unfold updateHost. destruct (findHostByID id db) as [h|] eqn:E; [|apply stepped_same].
  pose proof (stepped_named (OUpdate write id req) id _ h db Hok E (row_update write id req h)) as Hs.
  repeat case_match; simplify_eq; done || apply stepped_same.
Qed.

Lemma check_stepped writes now later l : stepped (OCheck true writes now later) l (checked writes now <$> l).
Proof.
  exists (checked writes now). split; [done|]. intros h Hh. unfold checked.
  destruct (negb _ && _ && _) eqn:E; [|apply row_same]. zbool. by constructor.
Qed.

Lemma check_advanced find writes now later db :
  tables_ok (hosts db) →
  ∃ db' ev, checkHostHealth find writes now later db = Returns (db', ev) ∧
    advanced db (OCheck find writes now later) db' ev.
Proof.
  intros Hok. rewrite check_spec; [|apply Hok|apply list.Forall_forall; intros h [Hl _]%live_elem;
    by apply (proj1 (list.Forall_forall _ _) (ok_heartbeats _ Hok))].
  destruct find; [|eexists _, _; split; [done|]; apply advanced_quiet; [done|apply stepped_same]].
  pose proof (check_stepped writes now later (hosts db)) as Hs.
  eexists _, _. split; [done|]. split_and!; [by eapply stepped_ok|by eauto|].
  intros u. rewrite <- list_fmap_compose. intros (h & -> & [[[_ Ho] Hsil] Hl]%list_elem_of_filter)%list_elem_of_fmap.
  by exists true, writes, now, later, h.
Qed.

(** No operation panics. *)
Lemma perform_advanced db o :
  tables_ok (hosts db) → ∃ db' ev, perform db o = Returns (db', ev) ∧ advanced db o db' ev.
Proof.
  intros Hok. assert (∀ db', perform db o = Returns (db', []) → stepped o (hosts db) (hosts db') →
    ∃ db' ev, perform db o = Returns (db', ev) ∧ advanced db o db' ev) as Hq.
  { intros db' Hp Hs. exists db', []. split; [done|]. by apply advanced_quiet. }
  destruct o as [find write now uuid id req|write now req|write id req|write id|write id|write id|write id
                |find writes now later|find writes now|find write uuid name]; (try by apply check_advanced).
  { destruct (register_stepped find write now uuid id req db Hok) as [Hs|(h & Hh & Ha & Hok')]; [by eapply Hq|].
    eexists _, []. split; [reflexivity|].
    split_and!; [done|exists (hosts db); split; [apply stepped_same|by eauto]|].
    intros u Hu. by apply not_elem_of_nil in Hu. }
  all: eapply Hq; [reflexivity|].
  - by apply heartbeat_stepped.
  - by apply update_stepped.
  - unfold deleteHost. destruct (findHostByID id db) as [h|] eqn:E; [|apply stepped_same].
    destruct write; [|apply stepped_same]. eapply stepped_named; [done..|]. apply row_delete.
  - apply stepped_state; [done|]. apply row_enable.
  - apply stepped_state; [done|]. apply row_disable.
  - apply stepped_state; [done|]. apply row_maintain.
  - unfold cleanupStaleHosts. destruct find; [|apply stepped_same].
    eexists. split; [done|]. intros h Hh. simpl. destruct (negb _ && _ && _) eqn:E; [|apply row_same]. zbool.
    by constructor.
  - unfold evacuateHost. repeat case_match; apply stepped_same.
Qed.
(** ** Theorems *)

(** Two rows of the same host. *)
Definition same_host (h h' : Host) : Prop :=
  ID h' = ID h ∧ UUID h' = UUID h ∧ IPAddress h' = IPAddress h ∧ ManagementPort h' = ManagementPort h.

Lemma perform_row db o db' ev h :
  tables_ok (hosts db) → h ∈ hosts db → perform db o = Returns (db', ev) →
  ∃ h', h' ∈ hosts db' ∧ row_step o h h' ∧ same_host h h' ∧ tables_ok (hosts db') ∧
    (UUID h ∈ ev.*1 → ∃ find writes now later, o = OCheck find writes now later ∧ silent now h = true ∧
       5 * minute < time_sub later (default now (DisconnectedAt h))).
Proof.
  intros Hok Hh Hp. destruct (perform_advanced db o Hok) as (db1 & ev1 & Hp1 & Hok' & (l & (f & -> & Hf) & Hl) & Hev).
  rewrite Hp in Hp1. injection Hp1 as <- <-. exists (f h). split_and!; [|by apply Hf|by eapply row_step_keys, Hf|done|].
  - assert (f h ∈ f <$> hosts db) as Hin by by apply list_elem_of_fmap_2.
    destruct Hl as [->|(x & -> & _)]; [done|]. apply elem_of_app. by left.
  - intros (find & writes & now & later & x & -> & Hx & Hu & Hs & Ho)%Hev. apply live_elem in Hx as [Hx _].
    assert (h = x) as -> by (apply (nodup_key UUID (hosts db)); [apply Hok|done..]). by exists find, writes, now, later.
Qed.

(** What holds of a row goes on to hold, as long as the operations allow it. *)
Lemma run_row (P : Host → Prop) (allowed : Host → op → Prop) db os h :
  (∀ o x x', row_step o x x' → same_host h x → allowed h o → P x → P x') →
  (∀ find writes now later x, allowed h (OCheck find writes now later) → P x → silent now x = true →
     time_sub later (default now (DisconnectedAt x)) <= 5 * minute) →
  tables_ok (hosts db) → h ∈ hosts db → P h → Forall (allowed h) os →
  ∃ db' ev h', run db os = Returns (db', ev) ∧ h' ∈ hosts db' ∧ same_host h h' ∧ P h' ∧ UUID h ∉ ev.*1 ∧ tables_ok (hosts db').
Proof.
  intros HP HE. assert (∀ os db x, tables_ok (hosts db) → x ∈ hosts db → same_host h x → P x → Forall (allowed h) os →
    ∃ db' ev h', run db os = Returns (db', ev) ∧ h' ∈ hosts db' ∧ same_host h h' ∧ P h' ∧ UUID h ∉ ev.*1 ∧ tables_ok (hosts db')) as H;
    [|intros; by eapply H].
  clear db os. induction os as [|o os IH]; intros db x Hok Hx Hsame Hp Hos; cbn [run].
  - exists db, [], x. split_and!; try done. apply not_elem_of_nil.
  - apply list.Forall_cons in Hos as [Ho Hos]. destruct (perform_advanced db o Hok) as (db1 & ev1 & Hp1 & _). rewrite Hp1.
    destruct (perform_row db o db1 ev1 x Hok Hx Hp1) as (x1 & Hx1 & Hs1 & Hk1 & Hok1 & Hev1).
    destruct (IH db1 x1) as (db2 & ev2 & x2 & -> & Hx2 & Hk2 & Hp2 & Hev2 & Hok2); [done..| |by eapply HP|done|].
    { destruct Hsame as (? & ? & ? & ?), Hk1 as (? & ? & ? & ?). split_and!; congruence. }
    exists db2, (ev1 ++ ev2), x2. split_and!; try done. rewrite fmap_app, elem_of_app. intros [H|H]; [|done].
    destruct Hsame as (_ & Hu & _). rewrite <- Hu in H. apply Hev1 in H as (find & writes & now & later & -> & Hs & Hlt).
    specialize (HE find writes now later x Ho Hp Hs). lia.
Qed.
(** Operations that do not bring a host back: no registration from its address, and
    no request that enables it; and rounds of the monitor that are no longer than
    five minutes. *)
Definition leaves_alone (h : Host) (o : op) : Prop :=
  match o with
  | ORegister _ _ _ _ _ req =>
      resolve (r_IPAddress req) ≫= inet = Some (IPAddress h) → r_ManagementPort req ≠ ManagementPort h
  | OEnable _ id => ¬ names id h
  | OCheck _ _ now later => time_sub later now <= 5 * minute
  | _ => True
  end.

Lemma names_same id h h' : same_host h h' → names id h' → names id h.
Proof. intros (Hi & Hu & _ & _). unfold names. by rewrite Hi, Hu. Qed.

(** The monitor never evacuates a host that it finds silent for the first time, for
    however long it stays silent: once the host is marked as down, no later round
    looks at it. The evacuation after five minutes, which the code means to start,
    does not happen. *)
Theorem never_evacuated db h os :
  tables_ok (hosts db) → h ∈ hosts db → DisconnectedAt h = None → Forall (leaves_alone h) os →
  ∃ db' ev, run db os = Returns (db', ev) ∧ UUID h ∉ ev.*1.
Proof.
  intros Hok Hh Hd Hos.
  destruct (run_row (λ x, Status x ∈ ["up"; "connecting"] → DisconnectedAt x = None) leaves_alone db os h)
    as (db' & ev & _ & Hr & _ & _ & _ & Hev & _); [| |done..|by exists db', ev].
  - intros o x x' Hs Hk Ha HP. destruct Hs as [| ? ? ? ? ? req ip x Hr Hi Hp|? ? req x ?| | |? ? x Hn| | | |]; try done.
    + destruct Hk as (_ & _ & Hip & Hport). destruct Ha; [by rewrite Hr; simpl; congruence|congruence].
    + unfold beat. destruct (offline _); [done|exact HP].
    + destruct Ha. by apply (names_same _ _ x).
    + intros Hin. by apply (bool_decide_eq_true_2 _) in Hin.
    + intros Hin. by apply (bool_decide_eq_true_2 _) in Hin.
    + intros Hin. by apply (bool_decide_eq_true_2 _) in Hin.
  - intros find writes now later x Ha HP Hs. unfold silent in Hs. zbool. rewrite HP by done. exact Ha.
Qed.

(** But a host that was down once and registers again keeps the time of its first
    failure: the next time it is silent it is evacuated in the round that marks it
    as down. *)
Theorem evacuated_at_once db h ip t0 t1 uuid id req writes now later :
  tables_ok (hosts db) → resolve (r_IPAddress req) = Some ip → registered ip (r_ManagementPort req) db = Some h →
  DisconnectedAt h = Some t0 → t1 < now - heartbeatTimeout → 5 * minute < time_sub later t0 → writes (ID h) = true →
  let db1 := (registerHost true true t1 uuid id (Ok req) db).2 in
  ∃ db2 ev, checkHostHealth true writes now later db1 = Returns (db2, ev) ∧ (UUID h, r_Name req) ∈ ev ∧
    Status <$> row_with ID (ID h) (hosts db2) = Some "down".
Proof.
  intros Hok Hr Hf Hd Hn Hl Hw db1. subst db1. unfold registerHost. rewrite Hr, Hf. cbn [snd].
  unfold registered in Hf. destruct (inet ip) as [a|] eqn:Ea; [|done]. simpl in Hf. apply find_elem in Hf as [Hlive Hip].
  zbool. apply live_elem in Hlive as [Hh Hdel]. set (db1 := on_host (ID h) (reregister req t1) db).
  assert (row_with ID (ID h) (hosts db1) = Some (reregister req t1 h)) as Hrow by by apply on_host_row.
  assert (tables_ok (hosts db1)) as Hok1 by by apply on_host_ok.
  rewrite check_spec; [|apply Hok1|apply list.Forall_forall; intros x [Hx _]%live_elem;
    by apply (proj1 (list.Forall_forall _ _) (ok_heartbeats _ Hok1))].
  apply row_with_elem in Hrow as [Hin _].
  assert (silent now (reregister req t1 h) = true) as Hs by (unfold silent; simpl; by zdecide).
  eexists _, _. split_and!; [done| |].
  - apply list_elem_of_fmap. exists (reregister req t1 h). split; [done|].
    apply list_elem_of_filter. split.
    + split; [|done]. split; [done|]. simpl. by rewrite Hd.
    + by apply list_elem_of_filter.
  - cbn [hosts set_hosts]. rewrite (row_with_keyed ID _ _ (mark_down now (reregister req t1 h))); [done| | |done].
    + eapply ok_ids, stepped_ok; [apply (check_stepped writes now later)|done].
    + apply list_elem_of_fmap. exists (reregister req t1 h). split; [|done]. unfold checked.
      rewrite Hs. simpl. by rewrite Hdel, Hw.
Qed.
(** No history of the service makes the monitor panic, which would end the process:
    every row has a heartbeat from its registration on. *)
Theorem monitor_never_panics db os : hosts db = [] → run db os ≠ Panics.
Proof.
  intros H0. assert (tables_ok (hosts db)) as Hok by (rewrite H0; split; constructor). clear H0. revert db Hok.
  induction os as [|o os IH]; intros db Hok; cbn [run]; [done|].
  destruct (perform_advanced db o Hok) as (db1 & ev1 & -> & Hok1 & _). specialize (IH db1 Hok1).
  by destruct (run db1 os) as [[? ?]|].
Qed.

(** Operations that do not give a host its resources back. *)
Definition keeps_closed (h : Host) (o : op) : Prop :=
  match o with
  | OEnable _ id => ¬ names id h
  | OUpdate _ id req => u_ResourceState req = None ∨ ¬ names id h
  | _ => True
  end.

Lemma run_closed db os h :
  tables_ok (hosts db) → h ∈ hosts db → ResourceState h ≠ "enabled" → Forall (keeps_closed h) os →
  ∃ db' ev h', run db os = Returns (db', ev) ∧ h' ∈ hosts db' ∧ same_host h h' ∧ ResourceState h' ≠ "enabled" ∧ tables_ok (hosts db').
Proof.
  revert db h. induction os as [|o os IH]; intros db h Hok Hh Hr Hos; cbn [run]; [by exists db, [], h|].
  apply list.Forall_cons in Hos as [Ho Hos]. destruct (perform_advanced db o Hok) as (db1 & ev1 & Hp1 & _). rewrite Hp1.
  destruct (perform_row db o db1 ev1 h Hok Hh Hp1) as (x & Hx & Hs & Hk & Hok1 & _).
  destruct (IH db1 x) as (db2 & ev2 & x2 & -> & Hx2 & Hk2 & Hp2 & Hok2); [done..| | |].
  - destruct Hs as [| |? ? req|? ? req ? Hn| |? ? ? Hn| | | |]; try done.
    + unfold beat. by destruct (offline _).
    + simpl in *. destruct Ho as [Ho|Ho]; [|done]. by rewrite Ho.
  - eapply list.Forall_impl; [exact Hos|]. intros o' Hc. unfold keeps_closed, names in *.
    destruct Hk as (-> & -> & _). done.
  - exists db2, (ev1 ++ ev2), x2. split_and!; try done.
    destruct Hk as (? & ? & ? & ?), Hk2 as (? & ? & ? & ?). split_and!; congruence.
Qed.

(** A host that is put into maintenance, or disabled, is not offered for scheduling
    by [GetAvailableHosts] until it is enabled or given another resource state,
    whatever it sends and however often it registers. *)
Theorem closed_host_unavailable rs status id write db r db1 os h :
  tables_ok (hosts db) → rs ≠ "enabled" → updateHostState rs status write id db = (r, db1) → r.1 = 200 →
  findHostByID id db = Some h → Forall (keeps_closed h) os →
  ∃ db2 ev, run db1 os = Returns (db2, ev) ∧ UUID h ∉ UUID <$> GetAvailableHosts db2.
Proof.
  intros Hok Hrs Hu Hr Hf Hos. pose proof Hf as [Hl _]%findHostByID_elem. apply live_elem in Hl as [Hl _].
  unfold updateHostState in Hu. rewrite Hf in Hu. destruct write; simplify_eq.
  set (db1 := on_host (ID h) (with_states rs status) db).
  assert (row_with ID (ID h) (hosts db1) = Some (with_states rs status h)) as [Hin _]%row_with_elem by by apply on_host_row.
  assert (tables_ok (hosts db1)) as Hok1 by by apply on_host_ok.
  destruct (run_closed db1 os (with_states rs status h)) as (db2 & ev & x & Hrun & Hx & Hk & Hc & Hok2); [done..|].
  exists db2, ev. split; [done|]. intros (y & Hu & Hy)%list_elem_of_fmap. unfold GetAvailableHosts in Hy.
  rewrite merge_sort_Permutation in Hy. apply list_elem_of_filter in Hy as [Ha Hy]. apply live_elem in Hy as [Hy _].
  destruct Hk as (_ & Hxu & _). assert (x = y) as <- by (apply (nodup_key UUID (hosts db2)); [apply Hok2|done..|];
    rewrite Hxu; exact Hu). unfold IsAvailable in Ha. by zbool.
Qed.
(** The time of the last heartbeat of a host over a history in which every round of
    the monitor comes at most a timeout after it, and nobody takes the host out of
    service. *)
Fixpoint timely (h : Host) (t : Z) (os : list op) : Prop :=
  match os with
  | [] => True
  | OBeat write now req :: os =>
      (pg_uuid (hb_UUID req) = Some (UUID h) → t <= now) ∧
      timely h (if write && bool_decide (pg_uuid (hb_UUID req) = Some (UUID h)) then now else t) os
  | ORegister _ _ now _ _ req :: os => t <= now ∧ timely h t os
  | OCheck _ _ now _ :: os => now <= t + heartbeatTimeout ∧ timely h t os
  | (ODelete _ id | ODisable _ id | OMaintain _ id) :: os => ¬ names id h ∧ timely h t os
  | _ :: os => timely h t os
  end.

(** In service, with a heartbeat not before [t]. *)
Definition beating (t : Z) (x : Host) : Prop :=
  Status x = "up" ∧ Deleted x = false ∧ ∃ t', LastHeartbeat x = Some t' ∧ t <= t'.

Lemma beating_step h t o os x x' :
  row_step o x x' → same_host h x → timely h t (o :: os) → beating t x → beating t x'.
Proof.
  intros Hs Hk Ht (Hu & Hd & t' & Hl & Hle).
  destruct Hs as [| | ? now req x E| |? ? ? Hn|? ? ? Hn|? ? ? Hn|? ? ? Hn|? ? ? ? ? Hs|? ? ? ? Hs]; cbn [timely] in Ht.
  - split_and!; eauto.
  - destruct Ht as [? _]. split_and!; [done|done|]. simpl. eauto.
  - destruct Ht as [Ht _]. destruct Hk as (_ & Hk & _). rewrite Hk in E. specialize (Ht E).
    unfold beat. cbn [Status with_report]. rewrite Hu. split_and!; simpl; eauto.
  - split_and!; simpl; eauto.
  - destruct Ht as [Ht _]. by destruct Ht; apply (names_same _ _ _ Hk).
  - split_and!; simpl; eauto.
  - destruct Ht as [Ht _]. by destruct Ht; apply (names_same _ _ _ Hk).
  - destruct Ht as [Ht _]. by destruct Ht; apply (names_same _ _ _ Hk).
  - destruct Ht as [Ht _]. unfold silent in Hs. rewrite Hl in Hs. zbool. lia.
  - unfold stale in Hs. zbool. congruence.
Qed.

Lemma heartbeat_beats write now req db x :
  tables_ok (hosts db) → x ∈ hosts db → Deleted x = false → pg_uuid (hb_UUID req) = Some (UUID x) →
  (heartbeat write now (Ok req) db).2 = if write then on_host (ID x) (beat req now) db else db.
Proof.
  intros Hok Hx Hd Hu. unfold heartbeat. rewrite Hu. simpl.
  destruct (List.find (λ h, bool_decide (UUID h = UUID x)) (live db)) as [y|] eqn:E.
  - apply find_uuid_elem in E as [Hy E].
    assert (y = x) as -> by (apply (nodup_key UUID (hosts db)); [apply Hok|done..]). by destruct write.
  - rewrite find_none_elem in E. specialize (E x ltac:(by apply list_elem_of_filter)). zbool. done.
Qed.

Lemma beaten db x x1 req now ev db1 :
  tables_ok (hosts db) → x ∈ hosts db → Deleted x = false → pg_uuid (hb_UUID req) = Some (UUID x) →
  perform db (OBeat true now req) = Returns (db1, ev) → x1 ∈ hosts db1 → ID x1 = ID x → x1 = beat req now x.
Proof.
  intros Hok Hx Hd Hu Hp Hx1 Hid. assert ((heartbeat true now (Ok req) db).2 = db1) as <- by by injection Hp.
  rewrite (heartbeat_beats _ _ _ _ x) in Hx1 by done.
  assert (∀ y, ID (beat req now y) = ID y) as Hb by (intros y; unfold beat; by destruct (offline _)).
  pose proof (on_host_row x (beat req now) db Hok Hx Hb) as [Hin _]%row_with_elem.
  apply (nodup_key ID (hosts (on_host (ID x) (beat req now) db))); [|done..|by rewrite Hb].
  apply ok_ids, on_host_ok; [|done]. intros y. unfold beat. by destruct (offline _).
Qed.

(** C37: A host that goes on sending heartbeats stays up, whatever else happens: no round
    of the monitor marks it as down before a whole timeout has passed without one. *)
Theorem beating_host_up db h t os :
  tables_ok (hosts db) → h ∈ live db → Status h = "up" → LastHeartbeat h = Some t → timely h t os →
  ∃ db' ev h', run db os = Returns (db', ev) ∧ h' ∈ live db' ∧ UUID h' = UUID h ∧ Status h' = "up".
Proof.
  intros Hok [Hh Hd]%live_elem Hu Hl Ht.
  assert (∀ os db x t, tables_ok (hosts db) → x ∈ hosts db → same_host h x → beating t x → timely h t os →
    ∃ db' ev h', run db os = Returns (db', ev) ∧ h' ∈ live db' ∧ UUID h' = UUID h ∧ Status h' = "up") as H;
    [|apply (H os db h t); try done; split_and!; eauto using Z.le_refl].
  clear. induction os as [|o os IH]; intros db x t Hok Hx Hk Hb Ht; cbn [run].
  - destruct Hb as (Hu & Hd & _). exists db, [], x. split_and!; [done|by apply list_elem_of_filter|apply Hk|done].
  - destruct (perform_advanced db o Hok) as (db1 & ev1 & Hp1 & _). rewrite Hp1.
    destruct (perform_row db o db1 ev1 x Hok Hx Hp1) as (x1 & Hx1 & Hs1 & Hk1 & Hok1 & _).
    assert (same_host h x1) as Hk'.
    { destruct Hk as (? & ? & ? & ?), Hk1 as (? & ? & ? & ?). split_and!; congruence. }
    assert (∃ t', beating t' x1 ∧ timely h t' os) as (t' & Hb1 & Ht1).
    { pose proof (beating_step h t o os x x1 Hs1 Hk Ht Hb) as Hb1.
      destruct o as [| write now req| | | | | | | |]; cbn [timely] in Ht; try (exists t; by destruct Ht + done).
      destruct Ht as [Hle Ht]. destruct (write && _) eqn:E; [|by exists t]. zbool. subst write. exists now. split; [|done].
      assert (x1 = beat req now x) as ->.
      { destruct Hb as (_ & Hd & _), Hk as (_ & Hku & _), Hk1 as (Hid & _). apply (beaten db x x1 req now ev1 db1); congruence || done. }
      destruct Hb as (Hu & Hd & _). unfold beat. cbn [Status with_report]. rewrite Hu.
      split_and!; [done|done|]. simpl. eauto using Z.le_refl. }
    destruct (IH db1 x1 t') as (db2 & ev2 & h2 & -> & ?); [done..|]. by exists db2, (ev1 ++ ev2), h2.
Qed.

(** A node that leaves the port to its default is never recognized: each of its
    registrations adds a host with the same address and port and another UUID. *)
Theorem default_port_duplicates db req ip a t1 t2 u1 u2 i1 i2 :
  tables_ok (hosts db) → r_ManagementPort req = 0 → Forall (λ h, ManagementPort h ≠ 0) (hosts db) →
  resolve (r_IPAddress req) = Some ip → inet ip = Some a → r_HostType req = "compute" →
  i1 ∉ ID <$> hosts db → i2 ∉ i1 :: (ID <$> hosts db) → u1 ∉ UUID <$> hosts db → u2 ∉ u1 :: (UUID <$> hosts db) →
  let db1 := (registerHost true true t1 u1 i1 (Ok req) db).2 in
  let db2 := (registerHost true true t2 u2 i2 (Ok req) db1).2 in
  live db2 = live db ++ [new_host req a u1 i1 t1; new_host req a u2 i2 t2].
Proof.
  intros Hok Hp Hports Hr Ha Ht Hi1 Hi2 Hu1 Hu2 db1 db2.
  assert (∀ t u i db, Forall (λ h, ManagementPort h ≠ 0) (hosts db) → i ∉ ID <$> hosts db → u ∉ UUID <$> hosts db →
    (registerHost true true t u i (Ok req) db).2 = set_hosts (hosts db ++ [new_host req a u i t]) db) as H.
  { intros t u i d Hd Hi Hu. unfold registerHost. rewrite Hr. cbv iota.
    assert (registered ip (r_ManagementPort req) d = None) as ->.
    { unfold registered. rewrite Ha, Hp. simpl. apply find_none_elem. intros x [Hx _]%live_elem.
      pose proof (proj1 (list.Forall_forall _ _) Hd x Hx) as Hx0. simpl in Hx0. zdecide. apply andb_false_r. }
    rewrite Ha. cbn [new_host HostType]. rewrite Ht. simpl decide.
    rewrite (proj2 (has_row_false ID i (hosts d)) Hi).
    replace (forallb _ (hosts d)) with true; [done|]. symmetry. apply forallb_elem. intros x Hx.
    apply negb_true_iff, bool_decide_eq_false. intros E. apply Hu. apply list_elem_of_fmap. by exists x. }
  unfold db2, db1. rewrite (H t1 u1 i1) by done. rewrite H; cbn [hosts set_hosts].
  - unfold live. cbn [hosts set_hosts]. rewrite !list.filter_app, <- app_assoc. done.
  - apply list.Forall_app. split; [done|]. apply list.Forall_singleton. simpl. rewrite Hp. done.
  - rewrite fmap_app, elem_of_app. cbn [fmap list_fmap]. rewrite list_elem_of_singleton. rewrite elem_of_cons in Hi2.
    simpl. tauto.
  - rewrite fmap_app, elem_of_app. cbn [fmap list_fmap]. rewrite list_elem_of_singleton. rewrite elem_of_cons in Hu2.
    simpl. tauto.
Qed.

(** The part of a host that the compute service sees, and that both find the same. *)
Definition view (h : Host) : Compute.Host :=
  Compute.mkHost (ID h) (UUID h) (Name h) (IPAddress h) (ManagementPort h) (TLSEnabled h) (Status h) (ResourceState h)
    (CPUAllocated (allocation h)) (RAMAllocatedMB (allocation h)) (Deleted h).

Lemma findHostByID_view id db w :
  Compute.hosts w = view <$> hosts db → Compute.findHostByID id w = view <$> findHostByID id db.
Proof.
  intros Hw. unfold Compute.findHostByID, findHostByID, lookup_host. rewrite Hw.
  assert (filter (λ h, Compute.h_Deleted h = false) (view <$> hosts db) = view <$> live db) as ->.
  { clear Hw. unfold live. induction (hosts db) as [|h l IH]; [done|]. rewrite fmap_cons.
    destruct (decide (Deleted h = false)); [rewrite !filter_cons_True|rewrite !filter_cons_False]; try done.
    by rewrite fmap_cons, IH. }
  assert (∀ (P : Compute.Host → bool) l, List.find P (view <$> l) = view <$> List.find (λ h, P (view h)) l) as Hf.
  { intros P l. induction l as [|h l IH]; [done|]. simpl. by destruct (P (view h)). }
  destruct (uuid_ok id).
  - destruct (pg_uuid id) as [u|]; [|done]. simpl. by rewrite Hf.
  - destruct (pg_int id) as [n|]; [|done]. simpl. unfold row_with. by rewrite Hf.
Qed.
End service.

(** ** Examples *)

Definition plain_inet : Inet.
Proof. exact {| inet s := match ParseIP s with Some _ => Some s | None => None end |}. Defined.

#[local] Existing Instance Compute.plain_keys.
#[local] Existing Instance plain_inet.
#[local] Existing Instance gorm_defaults.

Definition no_names (_ : string) : list string := [].
Definition always (_ : Z) : bool := true.

Definition node_uuid : string := "11111111-2222-3333-4444-555555555555".

(** A node that was last heard of at time 0. *)
Definition node (status : string) (disconnected : option Z) : Host :=
  mkHost 1 node_uuid "n1" "compute" status "enabled" "n1" "10.0.0.1" 8081 "kvm" "" (mkCapacity 8 1 0 16384 100)
    (mkAllocation 0 0 0) JNull JNull None None (Some 0) disconnected "v1.0.0" false false.

Definition site (h : Host) : DB := mkDB [h] [] [].

Definition registration (port : Z) : RegisterRequest :=
  agent_registration "n1" "10.0.0.1" port 8 16384 100 JNull None None.

Lemma site_ok status disconnected : tables_ok (hosts (site (node status disconnected))).
Proof. split; [apply NoDup_singleton..|by apply list.Forall_singleton]. Qed.

Lemma never_evacuated_witness :
  ∃ db ev, run no_names (2 * minute) (site (node "up" None))
             [OCheck true always (10 * minute) (10 * minute); OCheck true always (60 * minute) (60 * minute)]
           = Returns (db, ev) ∧ node_uuid ∉ ev.*1.
Proof.
  apply (never_evacuated no_names (2 * minute) (site (node "up" None)) (node "up" None));
    [apply site_ok|by left|done|]. repeat constructor; vm_compute; discriminate.
Defined.

Lemma evacuated_at_once_witness :
  ∃ db ev, checkHostHealth (2 * minute) true always (70 * minute) (70 * minute)
             (registerHost no_names true true (60 * minute) "u" 2 (Ok (registration 8081)) (site (node "down" (Some minute)))).2
           = Returns (db, ev) ∧ (node_uuid, "n1") ∈ ev ∧ Status <$> row_with ID 1 (hosts db) = Some "down".
Proof.
  refine (evacuated_at_once no_names (2 * minute) (site (node "down" (Some minute))) (node "down" (Some minute)) "10.0.0.1"
    minute (60 * minute) "u" 2 (registration 8081) always (70 * minute) (70 * minute) _ _ _ _ _ _ _);
    [apply site_ok|reflexivity|reflexivity|reflexivity|reflexivity|reflexivity|reflexivity].
Defined.

Lemma monitor_never_panics_witness :
  run no_names (2 * minute) (mkDB [] [] [])
    [ORegister true true 0 node_uuid 1 (registration 8081); OCheck true always (10 * minute) (10 * minute)] ≠ Panics.
Proof. by apply (monitor_never_panics no_names (2 * minute) (mkDB [] [] [])). Defined.

Lemma closed_host_unavailable_witness :
  ∃ db ev, run no_names (2 * minute) (maintenanceMode true "1" (site (node "up" None))).2
             [ORegister true true 0 "u" 2 (registration 8081); OBeat true 5 (agent_heartbeat node_uuid)]
           = Returns (db, ev) ∧ node_uuid ∉ UUID <$> GetAvailableHosts db.
Proof.
  apply (closed_host_unavailable no_names (2 * minute) "maintenance" "maintenance" "1" true (site (node "up" None))
    (maintenanceMode true "1" (site (node "up" None))).1 _ _ (node "up" None));
    [apply site_ok|done|reflexivity|reflexivity|reflexivity|by repeat constructor].
Defined.

Lemma beating_host_up_witness :
  ∃ db ev h, run no_names (2 * minute) (site (node "up" None))
               [OCheck true always minute minute; OBeat true minute (agent_heartbeat node_uuid);
                OCheck true always (3 * minute) (3 * minute)] = Returns (db, ev) ∧
             h ∈ live db ∧ UUID h = node_uuid ∧ Status h = "up".
Proof.
  apply (beating_host_up no_names (2 * minute) (site (node "up" None)) (node "up" None) 0);
    [apply site_ok|by left|done|done|]. vm_compute. by repeat split.
Defined.

Lemma default_port_duplicates_witness :
  live (registerHost no_names true true 2 "b" 2 (Ok (registration 0))
          (registerHost no_names true true 1 "a" 1 (Ok (registration 0)) (mkDB [] [] [])).2).2
  = [new_host (registration 0) "10.0.0.1" "a" 1 1; new_host (registration 0) "10.0.0.1" "b" 2 2].
Proof.
  refine (default_port_duplicates no_names (mkDB [] [] []) (registration 0) "10.0.0.1" "10.0.0.1" 1 2 "a" "b" 1 2
    _ _ _ _ _ _ _ _ _ _);
    [by split; constructor|reflexivity|by constructor|reflexivity|reflexivity|reflexivity|set_solver..].
Defined.
