(* ===== verification/Scheduler.v ===== *)
(** * The scheduler

    internal/management/scheduler: the choice of a host for an instance
    (service.go) and the analysis of the load of hosts (drs.go), on the hosts of
    Hosts.v and with the floating-point numbers of GoFloat.v. The theorems say, for
    ratios and hosts with which that arithmetic is exact, that the host that is chosen
    has room and is the least or the most loaded one, and that one is chosen whenever
    one has room; and what becomes of it in the service as it is put together. *)
From Stdlib Require Import Sorting.
From S2P Require Import Prelude GoStrings NetIP Http GoFloat Hosts.
From S2P Require Compute Modules.
Local Open Scope Z_scope.

(** ** sort.Slice *)

(** An order by which a list can be sorted. *)
Definition strict_weak {A} (less : A → A → bool) (l : list A) : Prop :=
  (∀ x y, x ∈ l → y ∈ l → less x y = true → less y x = false) ∧
  (∀ x y z, x ∈ l → y ∈ l → z ∈ l → less x z = true → less x y = true ∨ less y z = true).

(** [sort.Slice] arranges a slice so that no element is less than an earlier one;
    the order of those that are alike is open. *)
Class Sorting := {
  sort_slice : ∀ {A}, (A → A → bool) → list A → list A;
  sort_slice_perm : ∀ {A} less (l : list A), sort_slice less l ≡ₚ l;
  sort_slice_sorted : ∀ {A} less (l : list A),
    strict_weak less l → StronglySorted (λ x y, less y x = false) (sort_slice less l)
}.

(** ** Choice of a host *)

Record OvercommitConfig := mkOvercommit { CPURatio : float64; RAMRatio : float64; DiskRatio : float64 }.

Record ScheduleRequest := mkRequest { s_VCPUs : Z; s_RAMMB : Z; s_DiskGB : Z; s_Strategy : string }.

Record ScheduleResponse := mkResponse { NodeID : string; Reason : string; Strategy : string }.

(** Where the service reads hosts: from the host service, which may fail, from the
    database, or from nowhere if it was given neither. *)
Inductive source := FromProvider (hosts : option (list Host)) | FromDB (hosts : list Host) | Nowhere.

(** [NewService] raises the ratios to 1. *)
Definition normalized (ratio : float64) : float64 := if fltb ratio (of_Z 1) then of_Z 1 else ratio.

Definition NewService (c : OvercommitConfig) : OvercommitConfig :=
  mkOvercommit (normalized (CPURatio c)) (normalized (RAMRatio c)) (normalized (DiskRatio c)).

Definition eligible (c : OvercommitConfig) (req : ScheduleRequest) (h : Host) : bool :=
  let cpuFree := fsub (fmul (of_Z (CPUCores (capacity h))) (CPURatio c)) (of_Z (CPUAllocated (allocation h))) in
  let ramFree := fsub (fmul (of_Z (RAMMB (capacity h))) (RAMRatio c)) (of_Z (RAMAllocatedMB (allocation h))) in
  fleb (of_Z (s_VCPUs req)) cpuFree && fleb (of_Z (s_RAMMB req)) ramFree.

Definition load (h : Host) : float64 :=
  fdiv (of_Z (CPUAllocated (allocation h))) (of_Z (Z.max (CPUCores (capacity h)) 1)).

Definition less (strategy : string) (a b : Host) : bool :=
  if decide (strategy = "pack") then fltb (load b) (load a) else fltb (load a) (load b).

Definition hosts_of (s : source) : option (list Host) :=
  match s with
  | FromProvider hosts => hosts
  | FromDB hosts => Some (filter (λ h, IsAvailable h = true) hosts)
  | Nowhere => Some []
  end.

Section service.
Context {sorting : Sorting}.

Definition selectHost (c : OvercommitConfig) (s : source) (req : ScheduleRequest) : option Host * ScheduleResponse :=
  match hosts_of s with
  | None | Some [] => (None, mkResponse "" "no hosts available" "")
  | Some hosts =>
      let strategy := if decide (s_Strategy req = "") then "spread" else s_Strategy req in
      match filter (λ h, eligible c req h = true) hosts with
      | [] => (None, mkResponse "" "no hosts with sufficient capacity" "")
      | l =>
          match sort_slice (less strategy) l with
          | h :: _ => (Some h, mkResponse (UUID h) "" strategy)
          | [] => (None, mkResponse "" "" "")
          end
      end
  end.

Definition schedule (c : OvercommitConfig) (s : source) (req : result string ScheduleRequest) : response :=
  match req with
  | Err e => error 400 e
  | Ok req =>
      match selectHost c s req with
      | (None, r) => error 503 (Reason r)
      | (Some _, r) =>
          (200, JObj [("node", JStr (NodeID r)); ("reason", JStr (Reason r)); ("strategy", JStr (Strategy r))])
      end
  end.

(** [e] is the error of the host service. *)
Definition listNodes (s : source) (e : string) : response :=
  match s with
  | FromProvider None => error 500 e
  | FromProvider (Some hosts) | FromDB hosts => (200, JObj [("nodes", JList (host_json <$> hosts))])
  | Nowhere => (200, JObj [("nodes", JNull)])
  end.
End service.

(** ** DRS *)

Record DRSHostUtilization := mkUtilization {
  HostID : string; du_Hostname : string; CPUUsage : float64; RAMUsage : float64; DiskUsage : float64; VMCount : Z;
  Score : float64
}.

Record DRSSettings := mkSettings {
  Enabled : bool; Interval : Z; ImbalanceThreshold : float64; AutoMigrate : bool;
  CPUWeight : float64; RAMWeight : float64; DiskWeight : float64
}.

Record DRSAnalysisResult := mkAnalysis { Timestamp : Z; HostCount : Z; Balanced : bool; Imbalance : float64 }.

(** [NewDRSEngine]'s defaults; a setting of zero is a missing one. *)
Definition or_default (d x : float64) : float64 := if feqb x (of_Z 0) then d else x.

Definition NewDRSEngine (c : DRSSettings) : DRSSettings :=
  mkSettings (Enabled c) (if Interval c =? 0 then 5 * minute else Interval c)
    (or_default (of_ratio 15 100) (ImbalanceThreshold c)) (AutoMigrate c) (or_default (of_ratio 1 2) (CPUWeight c))
    (or_default (of_ratio 4 10) (RAMWeight c)) (or_default (of_ratio 1 10) (DiskWeight c)).

(** A row as the query reads it. *)
Record hostRow := mkRow { row_ID : string; row_Hostname : string; row_CPUCores : Z; row_RAMGB : Z }.

Definition capped (x : float64) : float64 := if fltb (of_Z 1) x then of_Z 1 else x.

Definition utilization (vmCount : Z) (r : hostRow) : DRSHostUtilization :=
  let cpuCores := Z.max (row_CPUCores r) 1 in
  let ramGB := Z.max (row_RAMGB r) 1 in
  mkUtilization (row_ID r) (row_Hostname r) (capped (fdiv (fmul (of_Z vmCount) (of_Z 2)) (of_Z cpuCores)))
    (capped (fdiv (fmul (of_Z vmCount) (of_Z 4)) (of_Z ramGB))) (of_ratio 3 10) vmCount (of_Z 0).

(** The rows with the status that the query asks for. [counts] are the active
    instances of a host. A status that is not one of the enumeration makes the
    query fail, which leaves no rows. *)
Definition collectUtilization (counts : string → Z) (db : DB) : list DRSHostUtilization :=
  if bool_decide ("active" ∈ host_statuses)
  then (λ h, utilization (counts (Itoa (ID h))) (mkRow (Itoa (ID h)) (Hostname h) (CPUCores (capacity h)) 0))
         <$> filter (λ h, Status h = "active") (hosts db)
  else [].

Definition score (c : DRSSettings) (u : DRSHostUtilization) : float64 :=
  fadd (fadd (fmul (CPUUsage u) (CPUWeight c)) (fmul (RAMUsage u) (RAMWeight c))) (fmul (DiskUsage u) (DiskWeight c)).

(** The analysis, where there are two hosts or more; the previous one stays
    otherwise. *)
Definition analysis (c : DRSSettings) (now : Z) (l : list DRSHostUtilization) : DRSAnalysisResult :=
  let n := of_Z (Z.of_nat (length l)) in
  let mean := fdiv (foldl (λ sum u, fadd sum (score c u)) (of_Z 0) l) n in
  let variance := foldl (λ v u, fadd v (fmul (fsub (score c u) mean) (fsub (score c u) mean))) (of_Z 0) l in
  let stddev := fsqrt (fdiv variance n) in
  mkAnalysis now (Z.of_nat (length l)) (fltb stddev (ImbalanceThreshold c)) stddev.

Definition evaluate (c : DRSSettings) (counts : string → Z) (now : Z) (db : DB) (last : option DRSAnalysisResult)
    : option DRSAnalysisResult :=
  let l := collectUtilization counts db in
  if (length l <? 2)%nat then last else Some (analysis c now l).

(** ** Theorems *)

(** The numbers of a host are within the range in which the arithmetic with ratios
    of at most [k / 2 ^ j] is exact. *)
Definition small (j k : Z) (h : Host) : Prop :=
  0 <= CPUCores (capacity h) < 2 ^ 26 ∧ 0 <= RAMMB (capacity h) ∧
  CPUCores (capacity h) * k < 2 ^ 52 ∧ RAMMB (capacity h) * k < 2 ^ 52 ∧
  0 <= CPUAllocated (allocation h) < 2 ^ 26 ∧ 0 <= RAMAllocatedMB (allocation h) ∧
  CPUAllocated (allocation h) * 2 ^ j < 2 ^ 52 ∧ RAMAllocatedMB (allocation h) * 2 ^ j < 2 ^ 52.

Lemma free_exact j cap k ratio alloc n :
  0 <= j <= 52 → 0 <= cap → 2 ^ j <= k → cap * k < 2 ^ 52 → 0 <= alloc → alloc * 2 ^ j < 2 ^ 52 →
  Z.abs n * 2 ^ j < 2 ^ 53 → is_frac j k ratio →
  fleb (of_Z n) (fsub (fmul (of_Z cap) ratio) (of_Z alloc)) = (n * 2 ^ j <=? cap * k - alloc * 2 ^ j).
Proof.
  intros Hj Hc Hk Hp Ha Haj Hn Hr. assert (0 < 2 ^ j) by (apply Z.pow_pos_nonneg; lia).
  assert (∀ z, Z.abs z * 2 ^ j < 2 ^ 53 → is_frac j (z * 2 ^ j) (of_Z z)) as Hz.
  { intros z Hz. apply is_Z_scaled; [lia|done|]. apply of_Z_is. nia. }
  apply (fleb_frac j); [by apply Hz|]. apply fsub_frac; [lia| |apply Hz; rewrite Z.abs_eq by done; lia|nia].
  apply fmul_frac; [lia| |done|nia]. apply of_Z_is. nia.
Qed.

Lemma eligible_exact j c req h kc kr :
  0 <= j <= 52 → small j (Z.max kc kr) h → 2 ^ j <= kc → 2 ^ j <= kr →
  is_frac j kc (CPURatio c) → is_frac j kr (RAMRatio c) →
  Z.abs (s_VCPUs req) * 2 ^ j < 2 ^ 53 → Z.abs (s_RAMMB req) * 2 ^ j < 2 ^ 53 →
  eligible c req h = true ↔
    (CPUAllocated (allocation h) + s_VCPUs req) * 2 ^ j <= CPUCores (capacity h) * kc ∧
    (RAMAllocatedMB (allocation h) + s_RAMMB req) * 2 ^ j <= RAMMB (capacity h) * kr.
Proof.
  intros Hj (Hc & Hm & Hck & Hmk & Hca & Hma & Hcj & Hmj) H1 H2 Hrc Hrr Hv Hr. unfold eligible.
  rewrite (free_exact j _ kc), (free_exact j _ kr) by (done || nia). rewrite andb_true_iff, !Z.leb_le. lia.
Qed.





Section selection.
Context {sorting : Sorting}.



Lemma select_single c req h : eligible c req h = true → (selectHost c (FromProvider (Some [h])) req).1 = Some h.
Proof.
  intros He. unfold selectHost. cbn [hosts_of]. rewrite filter_cons_True by done. rewrite filter_nil.
  set (strategy := if decide (s_Strategy req = "") then "spread" else s_Strategy req).
  pose proof (sort_slice_perm (less strategy) [h]) as Hp. apply Permutation_singleton_r in Hp. by rewrite Hp.
Qed.

Lemma filter_live (f : Host → Host) (l : list Host) :
  (∀ x, Deleted (f x) = Deleted x) →
  filter (λ x, Deleted x = false) (f <$> l) = f <$> filter (λ x, Deleted x = false) l.
Proof.
  intros Hf. induction l as [|x l IH]; [done|]. rewrite fmap_cons.
  destruct (decide (Deleted x = false)); [rewrite !filter_cons_True|rewrite !filter_cons_False]; rewrite ?Hf; try done.
  by rewrite fmap_cons, IH.
Qed.

(** The scheduler that asks the host service does not look at states: a host that was
    put into maintenance or disabled is chosen if it has room, although it is not
    available. *)
Theorem closed_host_chosen {keys : Compute.Keys} rs status id db r db1 h cfg req :
  tables_ok (hosts db) → rs ≠ "enabled" → updateHostState rs status true id db = (r, db1) → r.1 = 200 →
  live db = [h] → eligible (NewService cfg) req h = true →
  GetAvailableHosts db1 = [] ∧
  (selectHost (NewService cfg) (FromProvider (ListHosts true db1)) req).1 = Some (with_states rs status h).
Proof.
  intros Hok Hrs Hu Hr Hl He. unfold updateHostState in Hu. destruct (findHostByID id db) as [x|] eqn:E; [|simplify_eq].
  apply findHostByID_elem in E as [Hx _]. rewrite Hl in Hx. apply list_elem_of_singleton in Hx as ->.
  injection Hu as <- <-. assert (live (on_host (ID h) (with_states rs status) db) = [with_states rs status h]) as Hlive.
  { unfold live in *. unfold on_host, Tables.on_row. cbn [hosts set_hosts]. rewrite filter_live, Hl by (intros x; by destruct (ID x =? ID h)).
    simpl. by rewrite Z.eqb_refl. }
  unfold GetAvailableHosts, ListHosts. rewrite Hlive. split; [|by apply select_single].
  rewrite filter_cons_False; [done|]. unfold IsAvailable. simpl. intros [_ H%bool_decide_eq_true_1]%andb_true_iff. done.
Qed.

(** A heartbeat of the agent reports that nothing is allocated: after it the
    scheduler places as if the host was empty, whatever was placed there before. *)
Theorem heartbeat_forgets_allocation {keys : Compute.Keys} now db h req :
  tables_ok (hosts db) → h ∈ live db → Compute.pg_uuid (UUID h) = Some (UUID h) → small 0 1 h →
  Z.abs (s_VCPUs req) < 2 ^ 53 → Z.abs (s_RAMMB req) < 2 ^ 53 →
  let db1 := (heartbeat true now (Ok (agent_heartbeat (UUID h))) db).2 in
  ∃ h1, h1 ∈ live db1 ∧ UUID h1 = UUID h ∧
    ∀ cfg, CPURatio cfg = of_Z 0 → RAMRatio cfg = of_Z 0 →
    eligible (NewService cfg) req h1 = true ↔ s_VCPUs req <= CPUCores (capacity h) ∧ s_RAMMB req <= RAMMB (capacity h).
Proof.
  intros Hok [Hh Hd]%live_elem Hu Hs Hv Hm db1. unfold db1. rewrite (heartbeat_beats _ _ _ _ h) by done.
  set (b := beat (agent_heartbeat (UUID h)) now h).
  assert (∀ x, ID (beat (agent_heartbeat (UUID h)) now x) = ID x) as Hb by (intros x; unfold beat; by destruct (offline _)).
  pose proof (on_host_row h _ db Hok Hh Hb) as [Hin _]%Tables.row_with_elem. fold b in Hin. exists b.
  assert (Deleted b = false ∧ UUID b = UUID h ∧ capacity b = capacity h ∧ allocation b = mkAllocation 0 0 0) as (Hbd & Hbu & Hbc & Hba).
  { unfold b, beat. by destruct (offline _). }
  split_and!; [by apply list_elem_of_filter|done|]. intros cfg Hc Hr.
  assert (small 0 (Z.max 1 1) b) as Hsb.
  { destruct Hs as (? & ? & ? & ? & _). unfold small. rewrite Hbc, Hba. simpl. lia. }
  rewrite (eligible_exact 0 _ _ _ 1 1); try (done || lia); [rewrite Hbc, Hba; simpl; lia|..];
    cbn [NewService CPURatio RAMRatio]; rewrite ?Hc, ?Hr; by apply is_Z_frac, of_Z_is.
Qed.

(** What the factory of the scheduler gives to it. *)
Definition wired (st : Modules.Init) (hosts : option (list Host)) : source :=
  match Modules.injected st !! "scheduler" with
  | Some (_ :: _) => FromProvider hosts
  | _ => Nowhere
  end.

(** As the service is put together, the scheduler is given neither the host service,
    of which the registry holds an adapter, nor the database: it refuses every
    request. *)
Theorem scheduler_unwired new_service mc I st hosts cfg req :
  Modules.InitializeAll (Modules.descriptors new_service) mc = Ok (I, st) →
  schedule (NewService cfg) (wired st hosts) (Ok req) = error 503 "no hosts available".
Proof.
  intros H. assert (Modules.injected st !! "scheduler" = Some []) as Hi.
  { refine (Modules.core_given_nothing new_service mc I st (Modules.core new_service "scheduler" ["host"] ["host"]) H _).
    clear H. unfold Modules.RegisterCoreModules. apply elem_of_app. set_solver. }
  clear H. unfold wired. by rewrite Hi.
Qed.
End selection.

(** No host has the status that the analysis asks for, and the database refuses to
    compare with it: no host is ever analysed. *)
Theorem drs_never_analyses c counts now db last : evaluate c counts now db last = last.
Proof. done. Qed.

(** ** Examples *)

(** Insertion. *)
Fixpoint insert_sorted {A} (less : A → A → bool) (x : A) (l : list A) : list A :=
  match l with
  | [] => [x]
  | y :: l => if less y x then y :: insert_sorted less x l else x :: y :: l
  end.

Fixpoint insertion_sort {A} (less : A → A → bool) (l : list A) : list A :=
  match l with [] => [] | x :: l => insert_sorted less x (insertion_sort less l) end.

Lemma insert_sorted_perm {A} less (x : A) l : insert_sorted less x l ≡ₚ x :: l.
Proof. induction l as [|y l IH]; [done|]. simpl. case_match; [|done]. rewrite IH. apply Permutation_swap. Qed.

Lemma insertion_sort_perm {A} less (l : list A) : insertion_sort less l ≡ₚ l.
Proof. induction l as [|x l IH]; [done|]. simpl. by rewrite insert_sorted_perm, IH. Qed.

Lemma insertion_sort_sorted {A} less (l : list A) :
  strict_weak less l → StronglySorted (λ x y, less y x = false) (insertion_sort less l).
Proof.
  intros [Ha Ht].
  assert (∀ l', (∀ y, y ∈ l' → y ∈ l) → StronglySorted (λ x y, less y x = false) (insertion_sort less l')) as H;
    [|by apply H].
  induction l' as [|x l' IH]; intros Hl; [constructor|]. simpl.
  assert (x ∈ l) as Hx by (apply Hl; by left). assert (∀ y, y ∈ insertion_sort less l' → y ∈ l) as Hs.
  { intros y. rewrite insertion_sort_perm. intros Hy. apply Hl. by right. }
  specialize (IH ltac:(intros y Hy; apply Hl; by right)). induction IH as [|y l1 Hl1 IH Hf]; [by repeat constructor|].
  simpl. assert (y ∈ l) as Hy by (apply Hs; by left).
  destruct (less y x) eqn:E; constructor; [by apply IH; intros z Hz; apply Hs; right| |by constructor|].
  - apply list.Forall_forall. intros z. rewrite insert_sorted_perm, elem_of_cons. intros [->|Hz]; [by apply Ha|].
    by apply (proj1 (list.Forall_forall _ _) Hf).
  - constructor; [done|]. apply list.Forall_forall. intros z Hz. destruct (less z x) eqn:Ez; [|done].
    destruct (Ht z y x) as [H|H]; [by apply Hs; right|done|done|done| |congruence].
    pose proof (proj1 (list.Forall_forall _ _) Hf z Hz) as Hzy. simpl in Hzy. congruence.
Qed.

Definition insertion : Sorting.
Proof.
  refine {| sort_slice A less l := insertion_sort less l |}.
  - intros A. apply insertion_sort_perm.
  - intros A. apply insertion_sort_sorted.
Defined.

#[local] Existing Instance insertion.
#[local] Existing Instance Compute.plain_keys.

(** A node of eight processors. *)
Definition loaded (id : Z) (uuid : string) (allocated : Z) : Host :=
  mkHost id uuid "n" "compute" "up" "enabled" "n" "10.0.0.1" 8081 "kvm" "" (mkCapacity 8 1 0 16384 100)
    (mkAllocation allocated 0 0) JNull JNull None None (Some 0) None "v1.0.0" false false.

Definition no_ratios : OvercommitConfig := mkOvercommit (of_Z 0) (of_Z 0) (of_Z 0).
Definition small_request : ScheduleRequest := mkRequest 2 1024 10 "".


Lemma loaded_small j k id uuid n :
  0 <= n < 100 → 0 <= j <= 1 → 0 <= k <= 8 → small j k (loaded id uuid n).
Proof.
  intros Hn Hj Hk. assert (j = 0 ∨ j = 1) as [-> | ->] by lia; unfold small; simpl; lia.
Qed.


Lemma closed_host_chosen_witness :
  let db := mkDB [loaded 1 "a" 0] [] [] in
  GetAvailableHosts (maintenanceMode true "1" db).2 = [] ∧
  (selectHost (NewService no_ratios) (FromProvider (ListHosts true (maintenanceMode true "1" db).2)) small_request).1
    = Some (with_states "maintenance" "maintenance" (loaded 1 "a" 0)).
Proof.
  intros db.
  apply (closed_host_chosen "maintenance" "maintenance" "1" db (maintenanceMode true "1" db).1 (maintenanceMode true "1" db).2
    (loaded 1 "a" 0)); [|done|reflexivity|reflexivity|reflexivity|vm_compute; reflexivity].
  split; [apply NoDup_singleton..|by apply list.Forall_singleton].
Defined.

Lemma heartbeat_forgets_allocation_witness :
  let h := loaded 1 "11111111-2222-3333-4444-555555555555" 8 in
  ∃ h1, h1 ∈ live (heartbeat true 5 (Ok (agent_heartbeat (UUID h))) (mkDB [h] [] [])).2 ∧
    eligible (NewService no_ratios) small_request h1 = true.
Proof.
  intros h. destruct (heartbeat_forgets_allocation 5 (mkDB [h] [] []) h small_request) as (h1 & Hl & _ & He);
    [split; [apply NoDup_singleton..|by apply list.Forall_singleton]|by left|by vm_compute|by apply loaded_small|done|done|].
  exists h1. split; [exact Hl|]. apply He; [done|done|]. simpl. lia.
Defined.

Lemma scheduler_unwired_witness :
  ∃ I st, Modules.InitializeAll (Modules.descriptors (λ _, true)) ∅ = Ok (I, st) ∧
    schedule (NewService no_ratios) (wired st (Some [loaded 1 "a" 0])) (Ok small_request) = error 503 "no hosts available".
Proof.
  destruct (Modules.InitializeAll_spec (λ _, true) ∅ (λ _ _, eq_refl)) as (I & st & H & _).
  exists I, st. split; [exact H|]. exact (scheduler_unwired _ _ _ _ _ no_ratios small_request H).
Defined.
