(* ===== verification/AuditTrail.v ===== *)
(** * The audit trail and compliance reports

    A model of internal/management/audit: the chain of signed log entries and
    its verification, the audit policies, the compliance frameworks with their
    controls, assessments and reports, and the data the service starts with.
    The hash is SHA-256 and the signature HMAC-SHA-256, both computed. *)
From Stdlib Require Import Ascii Sorting.
From S2P Require Import Prelude GoStrings NetIP Http GoTime Sha256.

Local Open Scope Z_scope.

(** ** Rows *)

(** A creation time that is [None] is Go's zero time. *)
Record AuditLog := mkLog {
  l_ID : string; Timestamp : Z; EventType : string; Category : string; Severity : string;
  ActorID : string; ActorName : string; ActorType : string; ActorIP : string;
  ResourceType : string; ResourceID : string; ResourceName : string; Action : string; Result : string;
  Detail : string; TenantID : string; Sequence : Z; PreviousHash : string; Hash : string; Signature : string;
  RetentionDays : Z; Archived : bool; l_CreatedAt : option Z
}.

Record AuditPolicy := mkPolicy {
  p_ID : string; p_Name : string; p_Description : string; p_EventPattern : string; p_Category : string;
  p_Severity : string; p_Enabled : bool; p_RetentionDays : Z; p_AlertEnabled : bool; p_AlertWebhook : string;
  p_CreatedAt : Z; p_UpdatedAt : Z
}.

Record ComplianceFramework := mkFramework {
  f_ID : string; f_Name : string; f_Version : string; f_Description : string; f_Enabled : bool;
  f_CreatedAt : Z; f_UpdatedAt : Z
}.

Record ComplianceControl := mkControl {
  c_ID : string; c_FrameworkID : string; c_ControlID : string; c_Name : string; c_Description : string;
  c_Category : string; c_Status : string; c_Evidence : string; c_LastAssessed : option Z;
  c_Remediation : string; c_CreatedAt : Z; c_UpdatedAt : Z
}.

Record AuditReport := mkReport {
  r_ID : string; r_Name : string; r_Type : string; r_FrameworkID : string; r_PeriodStart : Z; r_PeriodEnd : Z;
  r_Status : string; r_Score : Z; r_TotalControls : Z; r_PassedControls : Z; r_FailedControls : Z;
  r_Summary : string; r_GeneratedBy : string; r_CreatedAt : Z
}.

(** ** Rows as JSON *)

Definition log_json (l : AuditLog) : json := JObj [
  ("id", JStr (l_ID l)); ("timestamp", JTime (Timestamp l)); ("event_type", JStr (EventType l));
  ("category", JStr (Category l)); ("severity", JStr (Severity l)); ("actor_id", JStr (ActorID l));
  ("actor_name", JStr (ActorName l)); ("actor_type", JStr (ActorType l)); ("actor_ip", JStr (ActorIP l));
  ("resource_type", JStr (ResourceType l)); ("resource_id", JStr (ResourceID l));
  ("resource_name", JStr (ResourceName l)); ("action", JStr (Action l)); ("result", JStr (Result l));
  ("detail", JStr (Detail l)); ("tenant_id", JStr (TenantID l)); ("sequence", JNum (Sequence l));
  ("previous_hash", JStr (PreviousHash l)); ("hash", JStr (Hash l)); ("signature", JStr (Signature l));
  ("retention_days", JNum (RetentionDays l)); ("archived", JBool (Archived l));
  ("created_at", JOpt JTime (l_CreatedAt l))].

Definition policy_json (p : AuditPolicy) : json := JObj [
  ("id", JStr (p_ID p)); ("name", JStr (p_Name p)); ("description", JStr (p_Description p));
  ("event_pattern", JStr (p_EventPattern p)); ("category", JStr (p_Category p));
  ("severity", JStr (p_Severity p)); ("enabled", JBool (p_Enabled p));
  ("retention_days", JNum (p_RetentionDays p)); ("alert_enabled", JBool (p_AlertEnabled p));
  ("alert_webhook", JStr (p_AlertWebhook p)); ("created_at", JTime (p_CreatedAt p));
  ("updated_at", JTime (p_UpdatedAt p))].

Definition framework_fields (f : ComplianceFramework) : list (string * json) := [
  ("id", JStr (f_ID f)); ("name", JStr (f_Name f)); ("version", JStr (f_Version f));
  ("description", JStr (f_Description f)); ("enabled", JBool (f_Enabled f));
  ("created_at", JTime (f_CreatedAt f)); ("updated_at", JTime (f_UpdatedAt f))].

Definition control_json (c : ComplianceControl) : json := JObj [
  ("id", JStr (c_ID c)); ("framework_id", JStr (c_FrameworkID c)); ("control_id", JStr (c_ControlID c));
  ("name", JStr (c_Name c)); ("description", JStr (c_Description c)); ("category", JStr (c_Category c));
  ("status", JStr (c_Status c)); ("evidence", JStr (c_Evidence c));
  ("last_assessed", JOpt JTime (c_LastAssessed c)); ("remediation", JStr (c_Remediation c));
  ("created_at", JTime (c_CreatedAt c)); ("updated_at", JTime (c_UpdatedAt c))].

Definition report_json (r : AuditReport) : json := JObj [
  ("id", JStr (r_ID r)); ("name", JStr (r_Name r)); ("type", JStr (r_Type r));
  ("framework_id", JStr (r_FrameworkID r)); ("period_start", JTime (r_PeriodStart r));
  ("period_end", JTime (r_PeriodEnd r)); ("status", JStr (r_Status r)); ("score", JNum (r_Score r));
  ("total_controls", JNum (r_TotalControls r)); ("passed_controls", JNum (r_PassedControls r));
  ("failed_controls", JNum (r_FailedControls r)); ("summary", JStr (r_Summary r));
  ("generated_by", JStr (r_GeneratedBy r)); ("created_at", JTime (r_CreatedAt r))].

(** ** The database *)

(** The tables, and the last value that the sequence of the log has given out. *)
Record DB := mkDB {
  logs : list AuditLog; policies : list AuditPolicy; frameworks : list ComplianceFramework;
  controls : list ComplianceControl; reports : list AuditReport; last_value : Z
}.

Definition set_logs (l : list AuditLog) (n : Z) (db : DB) : DB :=
  mkDB l (policies db) (frameworks db) (controls db) (reports db) n.
Definition set_policies (l : list AuditPolicy) (db : DB) : DB :=
  mkDB (logs db) l (frameworks db) (controls db) (reports db) (last_value db).
Definition set_frameworks (l : list ComplianceFramework) (db : DB) : DB :=
  mkDB (logs db) (policies db) l (controls db) (reports db) (last_value db).
Definition set_controls (l : list ComplianceControl) (db : DB) : DB :=
  mkDB (logs db) (policies db) (frameworks db) l (reports db) (last_value db).
Definition set_reports (l : list AuditReport) (db : DB) : DB :=
  mkDB (logs db) (policies db) (frameworks db) (controls db) l (last_value db).

(** What a call meets outside of the service: whether the database answers its
    queries and its writes, how many values of the sequence others have used up,
    the order of texts, the rows of tables of other services ([None] where there is
    no such table), and what the clock and the generator of identifiers return. *)
Record Io := mkIo {
  reads : bool; writes : bool; gap : N; collate : string → string → bool;
  count : string → option Z; clock : nat → Time; uuids : nat → string
}.

(** [Count(&n)]: the variable keeps its zero if the query fails. *)
Definition counted (io : Io) (n : option Z) : Z := if reads io then default 0 n else 0.

Definition found {A} (io : Io) (l : list A) : list A := if reads io then l else [].

(** The variable of a query that fails stays nil, which is null in JSON. *)
Definition listed {A} (io : Io) (f : A → json) (l : list A) : json :=
  if reads io then JList (f <$> l) else JNull.

Definition rows {A} (l : list A) : Z := Z.of_nat (length l).

(** ** The chain *)

Definition signingKey : list Z := bytes_of "vc-stack-audit-hmac-key-2026".

Definition sign (hash : string) : string := EncodeToString (hmac signingKey (bytes_of hash)).

Definition earlier (a b : AuditLog) : Prop := Sequence a <= Sequence b.

#[global] Instance earlier_dec a b : Decision (earlier a b) := decide (Sequence a <= Sequence b).

(** [ORDER BY sequence ASC]. *)
Definition by_sequence : list AuditLog → list AuditLog := merge_sort earlier.

(** What [RecordEvent] reads first: the last entry, or none on any error. *)
Definition previous (io : Io) (db : DB) : option AuditLog := list.last (found io (by_sequence (logs db))).

Definition hash_input (now : Time) (e : AuditLog) (previousHash : string) : string :=
  FormatRFC3339Nano now +:+ "|" +:+ EventType e +:+ "|" +:+ ActorID e +:+ "|" +:+ ActorName e +:+ "|"
  +:+ ResourceType e +:+ "|" +:+ ResourceID e +:+ "|" +:+ Action e +:+ "|" +:+ Result e +:+ "|"
  +:+ previousHash.

Section audit.
Context {defaults : Defaults}.

(** The entry as it is stored: sealed after [prev], with the defaults of its
    columns. *)
Definition sealed (id : string) (now : Time) (prev : option AuditLog) (seq : Z) (e : AuditLog) : AuditLog :=
  let previousHash := match prev with Some p => Hash p | None => "genesis" end in
  let hash := EncodeToString (sha256 (bytes_of (hash_input now e previousHash))) in
  mkLog id (t_nanos now) (EventType e) (Category e) (Severity e) (ActorID e) (ActorName e) (ActorType e)
    (ActorIP e) (ResourceType e) (ResourceID e) (ResourceName e) (Action e) (Result e) (Detail e) (TenantID e)
    seq previousHash hash (sign hash) (stored_int 2555 (RetentionDays e)) (Archived e)
    (Some (default (t_nanos now) (l_CreatedAt e))).

(** The insertion; an entry without a number of its own gets the next one of the
    sequence, and the numbers are unique. *)
Definition append (io : Io) (k : nat) (prev : option AuditLog) (e : AuditLog) (db : DB) : DB :=
  let next := last_value db + 1 + Z.of_N (gap io) in
  let seq := if Sequence e =? 0 then next else Sequence e in
  if negb (writes io) || existsb (λ l, Sequence l =? seq) (logs db) then db
  else set_logs (logs db ++ [sealed (uuids io k) (clock io k) prev seq e])
         (if Sequence e =? 0 then next else last_value db) db.

(** [k] numbers the identifier and the reading of the clock among those of the
    call. *)
Definition RecordEvent (io : Io) (k : nat) (e : AuditLog) (db : DB) : DB :=
  append io k (previous io db) e db.
End audit.

(** The loop of [VerifyChain]; [prev] is the hash of the entry before. *)
Fixpoint verify (prev : option string) (i : Z) (l : list AuditLog) : bool * Z * string :=
  match l with
  | [] => (true, i, "chain intact")
  | log :: l =>
      if negb (bool_decide (Signature log = sign (Hash log)))
      then (false, i, "signature mismatch at sequence " +:+ Itoa (Sequence log))
      else if match prev with Some h => negb (bool_decide (PreviousHash log = h)) | None => false end
      then (false, i, "chain broken at sequence " +:+ Itoa (Sequence log))
      else verify (Some (Hash log)) (i + 1) l
  end.

Definition verify_all (l : list AuditLog) : bool * Z * string :=
  match l with [] => (true, 0, "no logs to verify") | _ => verify None 0 l end.

Definition VerifyChain (io : Io) (limit : nat) (db : DB) : bool * Z * string :=
  verify_all (found io (take limit (by_sequence (logs db)))).

(** ** The entries the service writes *)

Definition entry (eventType category severity action result : string) : AuditLog :=
  mkLog "" 0 eventType category severity "" "" "" "" "" "" "" action result "" "" 0 "" "" "" 0 false None.

Definition about (resourceType resourceName : string) (e : AuditLog) : AuditLog :=
  mkLog (l_ID e) (Timestamp e) (EventType e) (Category e) (Severity e) (ActorID e) (ActorName e) (ActorType e)
    (ActorIP e) resourceType (ResourceID e) resourceName (Action e) (Result e) (Detail e) (TenantID e)
    (Sequence e) (PreviousHash e) (Hash e) (Signature e) (RetentionDays e) (Archived e) (l_CreatedAt e).

Definition saying (actorType actorName detail : string) (e : AuditLog) : AuditLog :=
  mkLog (l_ID e) (Timestamp e) (EventType e) (Category e) (Severity e) (ActorID e) actorName actorType
    (ActorIP e) (ResourceType e) (ResourceID e) (ResourceName e) (Action e) (Result e) detail (TenantID e)
    (Sequence e) (PreviousHash e) (Hash e) (Signature e) (RetentionDays e) (Archived e) (l_CreatedAt e).

(** The body of a request that is bound to a policy: what it gives. *)
Record PolicyBody := mkBody {
  b_Name : option string; b_Description : option string; b_EventPattern : option string;
  b_Category : option string; b_Severity : option string; b_Enabled : option bool;
  b_RetentionDays : option Z; b_AlertEnabled : option bool; b_AlertWebhook : option string;
  b_CreatedAt : option Z; b_UpdatedAt : option Z
}.

(** The policy [p] with the body bound to it, under the identifier [id]. *)
Definition bound (id : string) (b : PolicyBody) (updated : Z) (p : AuditPolicy) : AuditPolicy :=
  mkPolicy id (default (p_Name p) (b_Name b)) (default (p_Description p) (b_Description b))
    (default (p_EventPattern p) (b_EventPattern b)) (default (p_Category p) (b_Category b))
    (default (p_Severity p) (b_Severity b)) (default (p_Enabled p) (b_Enabled b))
    (default (p_RetentionDays p) (b_RetentionDays b)) (default (p_AlertEnabled p) (b_AlertEnabled b))
    (default (p_AlertWebhook p) (b_AlertWebhook b)) (default (p_CreatedAt p) (b_CreatedAt b)) updated.

(** ** The data the service starts with *)

Section service.
Context {defaults : Defaults}.

(** [Create] of a policy: names are unique, and so are identifiers. *)
Definition create_policy (io : Io) (p : AuditPolicy) (db : DB) : option (AuditPolicy * DB) :=
  if negb (writes io) || existsb (λ q, bool_decide (p_Name q = p_Name p) || bool_decide (p_ID q = p_ID p)) (policies db)
  then None
  else
    let p := mkPolicy (p_ID p) (p_Name p) (p_Description p) (p_EventPattern p) (p_Category p) (p_Severity p)
               (stored_bool true (p_Enabled p)) (stored_int 2555 (p_RetentionDays p)) (p_AlertEnabled p)
               (p_AlertWebhook p) (p_CreatedAt p) (p_UpdatedAt p) in
    Some (p, set_policies (policies db ++ [p]) db).

(** [FirstOrCreate] looks for the name and for the primary key of its argument,
    which is new: it finds nothing, and the insertion fails where the name is
    taken. *)
Definition first_or_create_policy (io : Io) (p : AuditPolicy) (db : DB) : DB :=
  if negb (reads io)
     || existsb (λ q, bool_decide (p_Name q = p_Name p) && bool_decide (p_ID q = p_ID p)) (policies db)
  then db
  else match create_policy io p db with Some (_, db) => db | None => db end.

Definition first_or_create_framework (io : Io) (f : ComplianceFramework) (db : DB) : DB :=
  if negb (reads io) || negb (writes io)
     || existsb (λ g, bool_decide (f_Name g = f_Name f) || bool_decide (f_ID g = f_ID f)) (frameworks db)
  then db
  else
    set_frameworks (frameworks db ++ [mkFramework (f_ID f) (f_Name f) (f_Version f) (f_Description f)
                                        (stored_bool true (f_Enabled f)) (f_CreatedAt f) (f_UpdatedAt f)]) db.

(** The framework of a control must exist: the migration declares the foreign
    key. *)
Definition first_or_create_control (io : Io) (c : ComplianceControl) (db : DB) : DB :=
  if negb (reads io) || negb (writes io)
     || existsb (λ d, bool_decide (c_ID d = c_ID c)) (controls db)
     || negb (existsb (λ f, bool_decide (f_ID f = c_FrameworkID c)) (frameworks db))
  then db
  else
    set_controls (controls db ++ [mkControl (c_ID c) (c_FrameworkID c) (c_ControlID c) (c_Name c)
                                    (c_Description c) (c_Category c) (stored_string "not_assessed" (c_Status c))
                                    (c_Evidence c) (c_LastAssessed c) (c_Remediation c) (c_CreatedAt c)
                                    (c_UpdatedAt c)]) db.

(** A policy of [seedDefaults]: name, pattern, category, severity, days of
    retention and whether it alerts. *)
Definition default_policies : list (string * string * string * string * Z * bool) := [
  ("auth-events", "auth.*", "authentication", "info", 2555, false);
  ("admin-changes", "admin.*", "admin", "warning", 2555, true);
  ("security-alerts", "security.*", "security", "critical", 2555, true);
  ("data-access", "resource.*", "data_access", "info", 365, false);
  ("config-changes", "config.*", "admin", "warning", 2555, false)].

Definition seed_policies (io : Io) (db : DB) : DB :=
  foldl (λ db '(i, (name, pattern, category, severity, days, alert)),
           let now := t_nanos (clock io i) in
           first_or_create_policy io
             (mkPolicy (uuids io i) name "" pattern category severity true days alert "" now now) db)
    db (imap pair default_policies).

(** The controls of a framework: number, name, description and category. *)
Definition seed_framework (io : Io) (k : nat) (name version description : string) (enabled : bool)
    (cs : list (string * string * string * string)) (db : DB) : DB :=
  let now := t_nanos (clock io k) in
  let db := first_or_create_framework io (mkFramework (uuids io k) name version description enabled now now) db in
  foldl (λ db '(i, (controlID, name, description, category)),
           let now := t_nanos (clock io (k + 1 + i)) in
           first_or_create_control io
             (mkControl (uuids io (k + 1 + i)) (uuids io k) controlID name description category
                "not_assessed" "" None "" now now) db)
    db (imap pair cs).

Definition seedSOC2 (io : Io) : DB → DB :=
  seed_framework io 5 "SOC 2 Type II" "2017" "Service Organization Control 2 — Trust Service Criteria" true [
    ("CC6.1", "Logical Access Security", "The entity implements logical access security software, infrastructure, and architectures over protected information assets.", "access_control");
    ("CC6.2", "User Authentication", "Prior to issuing system credentials and granting system access, the entity registers and authorizes new internal and external users.", "authentication");
    ("CC6.3", "Role-Based Access", "The entity authorizes, modifies, or removes access to data, software, functions, and other protected information assets based on roles.", "authorization");
    ("CC6.7", "Data Transmission Security", "The entity restricts the transmission, movement, and removal of information to authorized internal and external users.", "data_protection");
    ("CC7.1", "Monitoring Activities", "The entity monitors the system and take action to maintain compliance.", "monitoring");
    ("CC7.2", "Anomaly Detection", "The entity monitors system components for anomalies that are indicative of malicious acts.", "monitoring");
    ("CC8.1", "Change Management", "The entity authorizes, designs, develops, configures, documents, tests, approves, and implements changes.", "change_management")].

Definition seedISO27001 (io : Io) : DB → DB :=
  seed_framework io 13 "ISO 27001" "2022" "Information Security Management Systems — Requirements" true [
    ("A.5.1", "Information Security Policies", "", "governance");
    ("A.8.1", "User Endpoint Devices", "", "asset_management");
    ("A.8.2", "Privileged Access Rights", "", "access_control");
    ("A.8.3", "Information Access Restriction", "", "access_control");
    ("A.8.5", "Secure Authentication", "", "authentication");
    ("A.8.9", "Configuration Management", "", "operations");
    ("A.8.15", "Logging", "", "monitoring");
    ("A.8.16", "Monitoring Activities", "", "monitoring");
    ("A.8.24", "Use of Cryptography", "", "cryptography")].

Definition seedPCIDSS (io : Io) : DB → DB :=
  seed_framework io 23 "PCI DSS" "4.0" "Payment Card Industry Data Security Standard" true [
    ("1.1", "Network Security Controls", "", "network");
    ("2.1", "Secure Configurations", "", "configuration");
    ("3.1", "Account Data Protection", "", "data_protection");
    ("4.1", "Encryption in Transit", "", "cryptography");
    ("7.1", "Access Control", "", "access_control");
    ("8.1", "User Identification", "", "authentication");
    ("10.1", "Audit Trail", "", "monitoring");
    ("10.2", "Audit Log Contents", "", "monitoring")].

Definition seedGDPR (io : Io) : DB → DB :=
  seed_framework io 32 "GDPR" "2018" "General Data Protection Regulation (EU)" true [
    ("Art.5", "Data Processing Principles", "", "data_protection");
    ("Art.25", "Data Protection by Design", "", "privacy");
    ("Art.30", "Records of Processing", "", "documentation");
    ("Art.32", "Security of Processing", "", "security");
    ("Art.33", "Breach Notification", "", "incident_response");
    ("Art.35", "Data Protection Impact Assessment", "", "risk_assessment")].

Definition seedHIPAA (io : Io) : DB → DB :=
  seed_framework io 39 "HIPAA" "2013" "Health Insurance Portability and Accountability Act" false [
    ("164.312(a)", "Access Control", "", "access_control");
    ("164.312(b)", "Audit Controls", "", "monitoring");
    ("164.312(c)", "Integrity Controls", "", "data_integrity");
    ("164.312(d)", "Person Authentication", "", "authentication");
    ("164.312(e)", "Transmission Security", "", "cryptography")].

Definition recordSystemEvent (io : Io) (k : nat) (eventType category severity detail : string) : DB → DB :=
  RecordEvent io k (saying "system" "vc-management" detail (entry eventType category severity "system" "success")).

Definition seedDefaults (io : Io) (db : DB) : DB :=
  recordSystemEvent io 45 "system.startup" "system" "info" "Audit service initialized"
    (seedHIPAA io (seedGDPR io (seedPCIDSS io (seedISO27001 io (seedSOC2 io (seed_policies io db)))))).

(** ** Assessment *)

Definition assessControl (io : Io) (db : DB) (c : ComplianceControl) : string * string :=
  let category := c_Category c in
  if bool_decide (category ∈ ["access_control"; "authorization"]) then
    let roleCount := counted io (count io "iam_roles") in
    if 0 <? roleCount then ("compliant", "RBAC active: " +:+ Itoa roleCount +:+ " roles configured")
    else ("non_compliant", "No RBAC roles found")
  else if bool_decide (category = "authentication") then
    let userCount := counted io (count io "iam_users") in
    if 0 <? userCount then ("compliant", "Authentication active: " +:+ Itoa userCount +:+ " users registered")
    else ("partially_compliant", "Authentication configured but needs MFA")
  else if bool_decide (category = "monitoring") then
    let logCount := counted io (Some (rows (logs db))) in
    if 0 <? logCount then
      let '(intact, verified, _) := VerifyChain io 100 db in
      if intact : bool then
        ("compliant", "Audit logging active: " +:+ Itoa logCount +:+ " entries, " +:+ Itoa verified
                      +:+ " verified, chain intact")
      else ("non_compliant", "Audit chain integrity compromised")
    else ("non_compliant", "No audit logs recorded")
  else if bool_decide (category ∈ ["cryptography"; "data_protection"]) then
    let encProfiles := counted io (count io "enc_profiles") in
    let kmsKeys := counted io (count io "kms_keys") in
    if (0 <? encProfiles) || (0 <? kmsKeys) then
      ("compliant", "Encryption: " +:+ Itoa encProfiles +:+ " profiles, " +:+ Itoa kmsKeys +:+ " KMS keys")
    else ("partially_compliant", "Encryption profiles configured but key rotation needed")
  else if bool_decide (category = "network") then
    let sgCount := counted io (count io "net_security_groups") in
    if 0 <? sgCount then ("compliant", "Network security: " +:+ Itoa sgCount +:+ " security groups")
    else ("partially_compliant", "Basic network isolation in place")
  else if bool_decide (category = "change_management") then
    ("compliant", "Git-based change management with pre-commit hooks")
  else if bool_decide (category ∈ ["governance"; "documentation"]) then
    ("partially_compliant", "Policies documented but requires periodic review")
  else if bool_decide (category ∈ ["privacy"; "risk_assessment"]) then
    ("partially_compliant", "Data protection measures in place, DPIA recommended")
  else if bool_decide (category = "incident_response") then
    ("partially_compliant", "Monitoring alerts configured, formal IR plan recommended")
  else ("not_assessed", "Assessment pending").

Definition assessed (result : string * string) (now : Z) (c : ComplianceControl) : ComplianceControl :=
  mkControl (c_ID c) (c_FrameworkID c) (c_ControlID c) (c_Name c) (c_Description c) (c_Category c)
    result.1 result.2 (Some now) (c_Remediation c) (c_CreatedAt c) now.

(** [Save] of a control that was read. *)
Definition save_control (io : Io) (c : ComplianceControl) (db : DB) : DB :=
  if writes io then set_controls ((λ d, if decide (c_ID d = c_ID c) then c else d) <$> controls db) db else db.

(** The loop of [runAssessment]: the controls, and how many passed and failed. *)
Fixpoint assess_controls (io : Io) (now : Z) (cs : list ComplianceControl) (passed failed : Z) (db : DB)
    : Z * Z * DB :=
  match cs with
  | [] => (passed, failed, db)
  | c :: cs =>
      let result := assessControl io db c in
      let db := save_control io (assessed result now c) db in
      if decide (result.1 = "compliant") then assess_controls io now cs (passed + 1) failed db
      else assess_controls io now cs passed (failed + 1) db
  end.

(** Total, passed and failed controls of a framework. *)
Definition runAssessment (io : Io) (k : nat) (frameworkID : string) (db : DB) : (Z * Z * Z) * DB :=
  let cs := found io (filter (λ c, c_FrameworkID c = frameworkID) (controls db)) in
  let '(passed, failed, db) := assess_controls io (t_nanos (clock io k)) cs 0 0 db in
  ((rows cs, passed, failed), db).

Definition score (passed total : Z) : Z := if 0 <? total then Z.quot (passed * 100) total else 0.

Definition enabled_frameworks (io : Io) (db : DB) : list ComplianceFramework :=
  found io (filter (λ f, f_Enabled f = true) (frameworks db)).

(** The assessments of several frameworks, one after the other. *)
Fixpoint assess_all (io : Io) (k : nat) (fs : list ComplianceFramework) (db : DB)
    : list (ComplianceFramework * (Z * Z * Z)) * DB :=
  match fs with
  | [] => ([], db)
  | f :: fs =>
      let '(result, db) := runAssessment io k (f_ID f) db in
      let '(results, db) := assess_all io (S k) fs db in
      ((f, result) :: results, db)
  end.

(** ** Handlers *)

Definition integrity (r : bool * Z * string) : list (string * json) :=
  [("intact", JBool r.1.1); ("verified", JNum r.1.2); ("message", JStr r.2)].

Definition getStatus (io : Io) (db : DB) : response :=
  (200, JObj [("status", JStr "operational");
              ("total_logs", JNum (counted io (Some (rows (logs db)))));
              ("policies", JNum (counted io (Some (rows (policies db)))));
              ("frameworks", JNum (counted io (Some (rows (frameworks db)))));
              ("reports", JNum (counted io (Some (rows (reports db)))));
              ("chain_integrity", JObj (integrity (VerifyChain io 100 db)))]).

Definition newer (a b : AuditLog) : Prop := Timestamp b <= Timestamp a.

#[local] Instance newer_dec a b : Decision (newer a b) := decide (Timestamp b <= Timestamp a).

(** A filter that is left out where the parameter is empty. *)
Definition matching (v : string) (holds : bool) : bool := bool_decide (v = "") || holds.

(** Entries of one instant come in the order of the table. *)
Definition listLogs (io : Io) (category severity eventType : string) (db : DB) : response :=
  let l := filter (λ l, matching category (bool_decide (Category l = category))
                        && matching severity (bool_decide (Severity l = severity))
                        && matching eventType (Like (eventType +:+ "%") (EventType l)) = true) (logs db) in
  let l := take 100 (merge_sort newer l) in
  (200, JObj [("logs", listed io log_json l); ("count", JNum (rows (found io l)))]).

Definition verifyChain (io : Io) (db : DB) : response :=
  let '(intact, verified, msg) := VerifyChain io 1000 db in
  (200, JObj [("intact", JBool intact); ("verified_entries", JNum verified); ("message", JStr msg)]).

(** [GROUP BY], the groups in the order of their first rows. *)
Definition groups (key : AuditLog → string) (l : list AuditLog) : list (string * Z) :=
  (λ k, (k, rows (filter (λ x, key x = k) l))) <$> reverse (remove_dups (reverse (key <$> l))).

Definition group_json (name : string) (io : Io) (gs : list (string * Z)) : json :=
  listed io (λ g, JObj [(name, JStr g.1); ("Count", JNum g.2)]) gs.

Definition logStats (io : Io) (db : DB) : response :=
  let recent := filter (λ l, t_nanos (clock io 0) - 24 * hour < Timestamp l) (logs db) in
  (200, JObj [("total", JNum (counted io (Some (rows (logs db)))));
              ("last_24h", JNum (counted io (Some (rows recent))));
              ("by_category", group_json "Category" io (groups Category (logs db)));
              ("by_severity", group_json "Severity" io (groups Severity (logs db)))]).

Definition collated {A} (io : Io) (key : A → string) (a b : A) : Prop := collate io (key a) (key b) = true.

#[local] Instance collated_dec {A} io (key : A → string) a b : Decision (collated io key a b) :=
  decide (collate io (key a) (key b) = true).

Definition listPolicies (io : Io) (db : DB) : response :=
  (200, JObj [("policies", listed io policy_json (merge_sort (collated io p_Name) (policies db)))]).

Definition no_policy : AuditPolicy := mkPolicy "" "" "" "" "" "" false 0 false "" 0 0.

Definition createPolicy (io : Io) (req : result string PolicyBody) (db : DB) : response * DB :=
  match req with
  | Err e => (error 400 e, db)
  | Ok b =>
      let now := t_nanos (clock io 0) in
      let p := bound (uuids io 0) b (default now (b_UpdatedAt b)) no_policy in
      let p := mkPolicy (p_ID p) (p_Name p) (p_Description p) (p_EventPattern p) (p_Category p) (p_Severity p)
                 (p_Enabled p) (p_RetentionDays p) (p_AlertEnabled p) (p_AlertWebhook p)
                 (default now (b_CreatedAt b)) (p_UpdatedAt p) in
      match create_policy io p db with
      | None => (error 409 "policy name exists", db)
      | Some (p, db) =>
          let db := RecordEvent io 1 (about "audit_policy" (p_Name p)
                      (entry "config.policy_created" "admin" "warning" "create" "success")) db in
          ((201, JObj [("policy", policy_json p)]), db)
      end
  end.

(** The result of [Save] is not looked at: where the name is taken by another
    policy nothing is stored, and the answer is the same. *)
Definition updatePolicy (io : Io) (id : string) (req : result string PolicyBody) (db : DB) : response * DB :=
  match List.find (λ p, bool_decide (p_ID p = id)) (found io (policies db)) with
  | None => (error 404 "policy not found", db)
  | Some existing =>
      match req with
      | Err e => (error 400 e, db)
      | Ok b =>
          let p := bound id b (t_nanos (clock io 0)) existing in
          let taken := existsb (λ q, bool_decide (p_Name q = p_Name p) && negb (bool_decide (p_ID q = id))) (policies db) in
          ((200, JObj [("policy", policy_json p)]),
           if negb (writes io) || taken then db
           else set_policies ((λ q, if decide (p_ID q = id) then p else q) <$> policies db) db)
      end
  end.

Definition deletePolicy (io : Io) (id : string) (db : DB) : response * DB :=
  (message 200 "policy deleted",
   if writes io then set_policies (filter (λ p, p_ID p ≠ id) (policies db)) db else db).

Definition compliant_of (f : ComplianceFramework) (db : DB) : Z :=
  rows (filter (λ c, c_FrameworkID c = f_ID f ∧ c_Status c = "compliant") (controls db)).

Definition controls_of (f : ComplianceFramework) (db : DB) : Z :=
  rows (filter (λ c, c_FrameworkID c = f_ID f) (controls db)).

Definition listFrameworks (io : Io) (db : DB) : response :=
  let out := (λ f, JObj (framework_fields f ++
                     [("total_controls", JNum (controls_of f db));
                      ("compliant_controls", JNum (compliant_of f db));
                      ("score", JNum (score (compliant_of f db) (controls_of f db)))]))
             <$> found io (merge_sort (collated io f_Name) (frameworks db)) in
  (200, JObj [("frameworks", match out with [] => JNull | _ => JList out end)]).

Definition listControls (io : Io) (fwID : string) (db : DB) : response :=
  let l := filter (λ c, c_FrameworkID c = fwID) (controls db) in
  (200, JObj [("controls", listed io control_json (merge_sort (collated io c_ControlID) l))]).

Definition counts_json (r : Z * Z * Z) : list (string * json) :=
  let '(total, passed, failed) := r in
  [("total", JNum total); ("passed", JNum passed); ("failed", JNum failed); ("score", JNum (score passed total))].

Definition assess (io : Io) (db : DB) : response * DB :=
  let fs := enabled_frameworks io db in
  let '(results, db) := assess_all io 0 fs db in
  let db := RecordEvent io (length fs)
              (saying "" "" ("assessed " +:+ Itoa (rows fs) +:+ " frameworks")
                 (entry "compliance.assessment" "admin" "info" "assess" "success")) db in
  ((200, JObj [("assessments", JList ((λ r, JObj (("framework", JStr (f_Name r.1)) :: counts_json r.2)) <$> results))]),
   db).

Definition assessFramework (io : Io) (fwID : string) (db : DB) : response * DB :=
  let '(result, db) := runAssessment io 0 fwID db in ((200, JObj (counts_json result)), db).

Definition latest (a b : AuditReport) : Prop := r_CreatedAt b <= r_CreatedAt a.

#[local] Instance latest_dec a b : Decision (latest a b) := decide (r_CreatedAt b <= r_CreatedAt a).

Definition listReports (io : Io) (db : DB) : response :=
  (200, JObj [("reports", listed io report_json (merge_sort latest (reports db)))]).

Record ReportRequest := mkReportRequest { q_Name : string; q_Type : string; q_FrameworkID : string }.

(** The sums over the results of several frameworks. *)
Definition totals (l : list (Z * Z * Z)) : Z * Z * Z :=
  foldl (λ '(t, p, f) '(total, passed, failed), (t + total, p + passed, f + failed)) (0, 0, 0) l.

(** The summary is joined with [". "]. *)
Definition summary (intact : bool) (sc passed total : Z) : string :=
  "Compliance score: " +:+ Itoa sc +:+ "%. " +:+ Itoa passed +:+ "/" +:+ Itoa total +:+ " controls passing. "
  +:+ (if intact then "Audit chain integrity: VERIFIED" else "WARNING: Audit chain integrity issues detected").

(** The report is answered whether or not it could be stored. *)
Definition generateReport (io : Io) (req : result string ReportRequest) (db : DB) : response * DB :=
  match req with
  | Err e => (error 400 e, db)
  | Ok req =>
      let fs := enabled_frameworks io db in
      let '((total, passed, failed), k, db) :=
        if decide (q_FrameworkID req ≠ "") then
          let '(result, db) := runAssessment io 3 (q_FrameworkID req) db in (result, 4%nat, db)
        else
          let '(results, db) := assess_all io 3 fs db in (totals (snd <$> results), (3 + length fs)%nat, db) in
      let sc := score passed total in
      let report := mkReport (uuids io 0) (q_Name req) (if decide (q_Type req = "") then "compliance" else q_Type req)
                      (q_FrameworkID req) (t_nanos (AddDate 0 (-1) 0 (clock io 0))) (t_nanos (clock io 1)) "ready"
                      sc total passed failed (summary (VerifyChain io 1000 db).1.1 sc passed total) "admin"
                      (t_nanos (clock io 2)) in
      let db := if writes io then set_reports (reports db ++ [report]) db else db in
      let db := RecordEvent io k (about "audit_report" (r_Name report)
                  (entry "compliance.report_generated" "admin" "info" "create" "success")) db in
      ((201, JObj [("report", report_json report)]), db)
  end.

Definition getReport (io : Io) (id : string) (db : DB) : response :=
  match List.find (λ r, bool_decide (r_ID r = id)) (found io (reports db)) with
  | None => error 404 "report not found"
  | Some r => (200, JObj [("report", report_json r)])
  end.

(** ** Histories *)

(** A start of the service, or a request that changes the tables. *)
Inductive op :=
| Start
| Create (req : result string PolicyBody)
| Update (id : string) (req : result string PolicyBody)
| Delete (id : string)
| Assess
| AssessFramework (id : string)
| Generate (req : result string ReportRequest).

Definition perform (db : DB) (o : Io * op) : DB :=
  let io := o.1 in
  match o.2 with
  | Start => seedDefaults io db
  | Create req => (createPolicy io req db).2
  | Update id req => (updatePolicy io id req db).2
  | Delete id => (deletePolicy io id db).2
  | Assess => (assess io db).2
  | AssessFramework id => (assessFramework io id db).2
  | Generate req => (generateReport io req db).2
  end.

Definition no_rows : DB := mkDB [] [] [] [] [] 0.

Definition history (ops : list (Io * op)) : DB := foldl perform no_rows ops.
End service.

(** ** Order *)

Definition before (a b : AuditLog) : Prop := Sequence a < Sequence b.

(** The numbers of the entries grow, and the sequence is at least at the last. *)
Definition ordered (db : DB) : Prop :=
  StronglySorted before (logs db) ∧ Forall (λ l, Sequence l <= last_value db) (logs db).

#[local] Instance earlier_total : Total earlier.
Proof. intros a b. unfold earlier. lia. Qed.

#[local] Instance earlier_trans : Transitive earlier.
Proof. intros a b c. unfold earlier. lia. Qed.

Lemma before_irreflexive l x y : StronglySorted before l → x ∈ l → y ∈ l → earlier x y → earlier y x → x = y.
Proof.
  unfold earlier. induction 1 as [|z l Hs IH Hz]; [by intros ?%elem_of_nil|].
  rewrite list.Forall_forall in Hz. rewrite !elem_of_cons. intros [->|Hx] [->|Hy] H1 H2; auto.
  - specialize (Hz _ Hy). unfold before in Hz. lia.
  - specialize (Hz _ Hx). unfold before in Hz. lia.
Qed.

Lemma before_earlier l : StronglySorted before l → StronglySorted earlier l.
Proof.
  induction 1 as [|x l Hs IH Hx]; constructor; [done|].
  eapply list.Forall_impl; [exact Hx|]. unfold before, earlier. lia.
Qed.

Lemma by_sequence_sorted l : StronglySorted before l → by_sequence l = l.
Proof.
  intros Hl. unfold by_sequence. apply (StronglySorted_unique_strong earlier).
  - intros x y Hx Hy. rewrite merge_sort_Permutation in Hx. by apply (before_irreflexive l).
  - apply StronglySorted_merge_sort; apply _.
  - by apply before_earlier.
  - apply merge_sort_Permutation.
Qed.

(** ** What the operations do to the log *)

Section logs.
Context {defaults : Defaults}.

Definition same_logs (db db' : DB) : Prop := logs db' = logs db ∧ last_value db' = last_value db.

Lemma same_logs_trans db1 db2 db3 : same_logs db1 db2 → same_logs db2 db3 → same_logs db1 db3.
Proof. intros [H1 H2] [H3 H4]. split; congruence. Qed.

Lemma foldl_same_logs {A} (f : DB → A → DB) l db : (∀ db x, same_logs db (f db x)) → same_logs db (foldl f db l).
Proof.
  intros Hf. revert db. induction l as [|x l IH]; intros db; simpl; [done|].
  eapply same_logs_trans; [apply Hf|apply IH].
Qed.

Lemma seed_framework_logs io k n v d b cs db : same_logs db (seed_framework io k n v d b cs db).
Proof.
  unfold seed_framework. eapply same_logs_trans; [|apply foldl_same_logs].
  - unfold first_or_create_framework. by case_match.
  - intros db' [i [[[]]]]. unfold first_or_create_control. by case_match.
Qed.

Lemma create_policy_logs io p db p' db' : create_policy io p db = Some (p', db') → same_logs db db'.
Proof. unfold create_policy. case_match; [done|]. by intros [= <- <-]. Qed.

Lemma seed_policies_logs io db : same_logs db (seed_policies io db).
Proof.
  apply foldl_same_logs. intros db' [i [[[[[]]]]]]. unfold first_or_create_policy. case_match; [done|].
  destruct (create_policy _ _ _) as [[]|] eqn:E; [|done]. by eapply create_policy_logs.
Qed.

Lemma assess_controls_logs io now cs p f db : same_logs db (assess_controls io now cs p f db).2.
Proof.
  revert p f db. induction cs as [|c cs IH]; intros p f db; simpl; [done|].
  assert (∀ c, same_logs db (save_control io c db)) as Hs by (intros; unfold save_control; by case_match).
  case_match; (eapply same_logs_trans; [apply Hs|apply IH]).
Qed.

Lemma runAssessment_logs io k fw db : same_logs db (runAssessment io k fw db).2.
Proof.
  unfold runAssessment. pose proof (assess_controls_logs io (t_nanos (clock io k))
    (found io (filter (λ c, c_FrameworkID c = fw) (controls db))) 0 0 db) as H.
  by destruct (assess_controls _ _ _ _ _ _) as [[p f] db'].
Qed.

Lemma assess_all_logs io k fs db : same_logs db (assess_all io k fs db).2.
Proof.
  revert k db. induction fs as [|f fs IH]; intros k db; simpl; [done|].
  pose proof (runAssessment_logs io k (f_ID f) db) as H. destruct (runAssessment _ _ _ _) as [r db1].
  specialize (IH (S k) db1). destruct (assess_all _ _ _ _) as [rs db2]. by eapply same_logs_trans.
Qed.

(** An operation leaves the log or records one entry, whose number the sequence
    gives. *)
Lemma perform_logs db o :
  same_logs db (perform db o) ∨
  ∃ k e db1, Sequence e = 0 ∧ same_logs db db1 ∧ perform db o = RecordEvent o.1 k e db1.
Proof.
  destruct o as [io []]; unfold perform; cbn [fst snd].
  - right. eexists 45%nat, _, _. split; [|split; [|reflexivity]]; [done|].
    repeat (eapply same_logs_trans; [|apply seed_framework_logs]). apply seed_policies_logs.
  - unfold createPolicy. destruct req as [b|e]; [|by left]. 
    destruct (create_policy _ _ _) as [[p db1]|] eqn:E; [|by left].
    right. eexists 1%nat, _, _. split; [|split; [by eapply create_policy_logs|reflexivity]]; done.
  - left. unfold updatePolicy. repeat case_match; done.
  - left. unfold deletePolicy. by case_match.
  - right. unfold assess. pose proof (assess_all_logs io 0 (enabled_frameworks io db) db) as H.
    destruct (assess_all _ _ _ _) as [rs db1]. eexists _, _, db1. split; [|split; [|reflexivity]]; done.
  - left. unfold assessFramework. pose proof (runAssessment_logs io 0 id db) as H.
    by destruct (runAssessment _ _ _ _) as [rs db1].
  - unfold generateReport. destruct req as [q|e]; [|by left]. right.
    pose proof (runAssessment_logs io 3 (q_FrameworkID q) db) as H1.
    pose proof (assess_all_logs io 3 (enabled_frameworks io db) db) as H2.
    destruct (runAssessment _ _ _ _) as [[[t p] f] db1], (assess_all _ _ _ _) as [rs db2].
    destruct (totals (snd <$> rs)) as [[t' p'] f'] eqn:Et.
    destruct (decide (q_FrameworkID q ≠ "")); rewrite ?Et; eexists _, _, _; (split; [|split; [|reflexivity]]);
      done || (by destruct (writes io)).
Qed.

Definition next_entry (io : Io) (k : nat) (prev : option AuditLog) (e : AuditLog) (db : DB) : AuditLog :=
  sealed (uuids io k) (clock io k) prev (last_value db + 1 + Z.of_N (gap io)) e.

(** An insertion at the end of an ordered log. *)
Lemma append_logs io k prev e db :
  Sequence e = 0 → ordered db →
  logs (append io k prev e db) = (if writes io then logs db ++ [next_entry io k prev e db] else logs db) ∧
  ordered (append io k prev e db).
Proof.
  intros He [Hs Hv]. unfold append, ordered. rewrite He. simpl.
  assert (existsb (λ l, Sequence l =? last_value db + 1 + Z.of_N (gap io)) (logs db) = false) as ->.
  { apply not_true_is_false. rewrite existsb_exists. intros (l & Hl & H). zbool.
    rewrite list.Forall_forall in Hv. specialize (Hv l). rewrite list_elem_of_In in Hv. specialize (Hv Hl). lia. }
  destruct (writes io); simpl; [|done]. split; [done|]. split.
  - apply StronglySorted_app_2; [|done|repeat constructor]. intros x y Hx ->%list_elem_of_singleton.
    rewrite list.Forall_forall in Hv. specialize (Hv x Hx). unfold before. simpl. lia.
  - apply list.Forall_app. split; [|repeat constructor; simpl; lia].
    eapply list.Forall_impl; [exact Hv|]. simpl. lia.
Qed.

Lemma ordered_same db db' : same_logs db db' → ordered db → ordered db'.
Proof. unfold ordered. by intros [-> ->]. Qed.

Lemma perform_ordered db o : ordered db → ordered (perform db o) ∧ ∃ l, logs (perform db o) = logs db ++ l.
Proof.
  intros Hdb. destruct (perform_logs db o) as [H|(k & e & db1 & He & H & ->)].
  - split; [by eapply ordered_same|]. destruct H as [-> _]. exists []. by rewrite app_nil_r.
  - apply (ordered_same _ _ H) in Hdb. destruct (append_logs o.1 k (previous o.1 db1) e db1 He Hdb) as [Hl Ho].
    split; [done|]. unfold RecordEvent. rewrite Hl. destruct H as [-> _].
    case_match; [by eexists|exists []; by rewrite app_nil_r].
Qed.

Lemma foldl_ordered ops db : ordered db → ordered (foldl perform db ops) ∧ ∃ l, logs (foldl perform db ops) = logs db ++ l.
Proof.
  revert db. induction ops as [|o ops IH]; intros db Hdb; simpl.
  - split; [done|]. exists []. by rewrite app_nil_r.
  - destruct (perform_ordered db o Hdb) as [Ho [l Hl]]. destruct (IH _ Ho) as [Ho' [l' Hl']].
    split; [done|]. exists (l ++ l'). by rewrite Hl', Hl, (assoc (++)).
Qed.

Lemma no_rows_ordered : ordered no_rows.
Proof. split; constructor. Qed.

Lemma history_ordered ops : ordered (history ops).
Proof. apply foldl_ordered, no_rows_ordered. Qed.
End logs.

(** ** Verification *)

Definition signed (l : list AuditLog) : Prop := Forall (λ x, Signature x = sign (Hash x)) l.

(** Every entry carries the hash of the one before it. *)
Definition linked (l : list AuditLog) : Prop :=
  ∀ i x y, l !! i = Some x → l !! S i = Some y → PreviousHash y = Hash x.

Definition follows (prev : option string) (l : list AuditLog) : Prop :=
  ∀ h x, prev = Some h → head l = Some x → PreviousHash x = h.

Lemma linked_cons x l : linked (x :: l) ↔ follows (Some (Hash x)) l ∧ linked l.
Proof.
  split.
  - intros H. split.
    + intros h y [= <-] Hy. apply (H 0%nat x y); [done|]. simpl. by destruct l.
    + intros i y z. apply (H (S i)).
  - intros [Hf Hl] [|i] y z; simpl.
    + intros [= <-] Hz. apply (Hf _ z); [done|]. by destruct l.
    + apply Hl.
Qed.

Lemma verify_intact prev i l :
  signed l → linked l → follows prev l → verify prev i l = (true, i + rows l, "chain intact").
Proof.
  intros Hs. revert prev i. induction Hs as [|x l Hx Hs IH]; intros prev i Hl Hp; simpl; [by rewrite Z.add_0_r|].
  apply linked_cons in Hl as [Hf Hl]. rewrite bool_decide_eq_true_2 by done. simpl.
  rewrite IH by done. unfold rows. simpl. replace (i + 1 + Z.of_nat (length l)) with (i + Z.of_nat (S (length l))) by lia.
  destruct prev as [h|]; [|done]. by rewrite bool_decide_eq_true_2 by (by apply (Hp h)).
Qed.

Lemma verify_sound prev i l : (verify prev i l).1.1 = true → signed l ∧ linked l ∧ follows prev l.
Proof.
  revert prev i. induction l as [|x l IH]; intros prev i; simpl; [by repeat constructor|].
  case_bool_decide as Hx; simpl; [|done]. intros H.
  assert (follows prev (x :: l) ∧ (verify (Some (Hash x)) (i + 1) l).1.1 = true) as [Hp (Hs & Hl & Hf)%IH].
  { destruct prev as [h|]; [|done]. case_bool_decide; [|done]. split; [|done]. by intros ? ? [= <-] [= <-]. }
  split; [by constructor|]. by rewrite linked_cons.
Qed.

Lemma linked_take n l : linked l → linked (take n l).
Proof. intros H i x y [Hx _]%lookup_take_Some [Hy _]%lookup_take_Some. by apply (H i). Qed.

Lemma linked_drop n l : linked l → linked (drop n l).
Proof. intros H i x y. rewrite !lookup_drop, <- plus_n_Sm. apply H. Qed.

Lemma linked_snoc l x : linked l → (∀ p, list.last l = Some p → PreviousHash x = Hash p) → linked (l ++ [x]).
Proof.
  intros Hl Hx i y z Hy Hz. destruct (decide (S i < length l)%nat) as [Hi|Hi].
  - rewrite lookup_app_l in Hy, Hz by lia. by apply (Hl i).
  - apply lookup_lt_Some in Hz as Hb. rewrite length_app in Hb. simpl in Hb.
    rewrite lookup_app_r in Hz by lia. replace (S i - length l)%nat with 0%nat in Hz by lia. simplify_eq/=.
    apply Hx. rewrite last_lookup. replace (pred (length l)) with i by lia.
    by rewrite lookup_app_l in Hy by lia.
Qed.

Lemma VerifyChain_ordered io limit db :
  ordered db → reads io = true →
  VerifyChain io limit db = verify_all (take limit (logs db)).
Proof. intros [Hs _] Hr. unfold VerifyChain, found. by rewrite Hr, by_sequence_sorted. Qed.

Lemma verify_all_spec l : (verify_all l).1.1 = true ↔ signed l ∧ linked l.
Proof.
  destruct l as [|x l]; [by split; [repeat constructor|]|]. unfold verify_all. split.
  - intros H. by apply verify_sound in H as (? & ? & _).
  - intros [Hs Hl]. by rewrite verify_intact.
Qed.

(** The verification succeeds exactly if each of the first entries carries the
    signature of its hash and the hash of the entry before, or if the entries
    cannot be read. *)
Theorem verification_exact io limit db :
  (VerifyChain io limit db).1.1 = true ↔
  reads io = false ∨ (signed (take limit (by_sequence (logs db))) ∧ linked (take limit (by_sequence (logs db)))).
Proof.
  unfold VerifyChain, found. destruct (reads io).
  - rewrite verify_all_spec. naive_solver.
  - naive_solver.
Qed.

Lemma verified_iff io limit db :
  ordered db →
  (VerifyChain io limit db).1.1 = true ↔ reads io = false ∨ (signed (take limit (logs db)) ∧ linked (take limit (logs db))).
Proof.
  intros Ho. destruct (reads io) eqn:Hr.
  - rewrite VerifyChain_ordered, verify_all_spec by done. naive_solver.
  - unfold VerifyChain, found. rewrite Hr. naive_solver.
Qed.

Section theorems.
Context {defaults : Defaults}.

Lemma record_chain io k e db :
  reads io = true → Sequence e = 0 → ordered db → signed (logs db) → linked (logs db) →
  signed (logs (RecordEvent io k e db)) ∧ linked (logs (RecordEvent io k e db)).
Proof.
  intros Hr He Ho Hs Hl. unfold RecordEvent.
  destruct (append_logs io k (previous io db) e db He Ho) as [-> _]. destruct (writes io); [|done]. split.
  - apply list.Forall_app. split; [done|]. by repeat constructor.
  - apply linked_snoc; [done|]. intros p Hp. unfold previous, found. destruct Ho as [Ho _].
    by rewrite Hr, by_sequence_sorted, Hp.
Qed.

Lemma history_chain ops :
  Forall (λ o, reads o.1 = true) ops → signed (logs (history ops)) ∧ linked (logs (history ops)).
Proof.
  intros Hops. unfold history. cut (∀ db, ordered db → signed (logs db) → linked (logs db) →
    signed (logs (foldl perform db ops)) ∧ linked (logs (foldl perform db ops))).
  { intros H. apply H; [apply no_rows_ordered|constructor|by intros i]. }
  induction Hops as [|o ops Hr Hops IH]; intros db Ho Hs Hl; simpl; [done|].
  assert (signed (logs (perform db o)) ∧ linked (logs (perform db o))) as [Hs' Hl'].
  { destruct (perform_logs db o) as [[-> _]|(k & e & db1 & He & H & ->)]; [done|].
    apply (ordered_same _ _ H) in Ho. destruct H as [H _]. rewrite <- H in Hs, Hl. by apply record_chain. }
  apply IH; [|done..]. by apply perform_ordered.
Qed.

(** C33: The log of the service verifies after every sequence of its operations, one
    after the other, as long as the last entry can be read whenever one is
    written; failing writes leave it intact. *)
Theorem chain_intact ops io limit :
  Forall (λ o, reads o.1 = true) ops → reads io = true →
  let l := take limit (logs (history ops)) in
  VerifyChain io limit (history ops)
  = (true, rows l, match l with [] => "no logs to verify" | _ => "chain intact" end).
Proof.
  intros [Hs Hl]%history_chain Hr l. rewrite VerifyChain_ordered by (done || apply history_ordered).
  fold l. assert (signed l) as Hs' by by apply Forall_take.
  assert (linked l) as Hl' by by apply linked_take. destruct l; [done|]. unfold verify_all. by rewrite verify_intact.
Qed.

(** An entry with the contents of another one, in its place of the chain. *)
Definition rewritten (content : AuditLog → AuditLog) (l : AuditLog) : AuditLog :=
  let c := content l in
  mkLog (l_ID c) (Timestamp c) (EventType c) (Category c) (Severity c) (ActorID c) (ActorName c) (ActorType c)
    (ActorIP c) (ResourceType c) (ResourceID c) (ResourceName c) (Action c) (Result c) (Detail c) (TenantID c)
    (Sequence l) (PreviousHash l) (Hash l) (Signature l) (RetentionDays c) (Archived c) (l_CreatedAt c).

Definition rewrite_logs (content : AuditLog → AuditLog) (db : DB) : DB :=
  set_logs (rewritten content <$> logs db) (last_value db) db.

Lemma verify_rewritten content prev i l : verify prev i (rewritten content <$> l) = verify prev i l.
Proof.
  revert prev i. induction l as [|x l IH]; intros prev i; simpl; [done|]. by rewrite IH.
Qed.

Lemma rewrite_ordered content db : ordered db → ordered (rewrite_logs content db).
Proof.
  intros [Hs Hv]. split; simpl.
  - clear Hv. induction Hs as [|x l Hs IH Hx]; simpl; constructor; [done|].
    apply list.Forall_fmap. eapply list.Forall_impl; [exact Hx|]. done.
  - apply list.Forall_fmap. eapply list.Forall_impl; [exact Hv|]. done.
Qed.

(** The verification does not look at what an entry says: whatever is written over
    the contents of the log, who did what and with which result, it gives the same
    answer. *)
Theorem contents_unchecked content ops io limit :
  VerifyChain io limit (rewrite_logs content (history ops)) = VerifyChain io limit (history ops).
Proof.
  destruct (reads io) eqn:Hr.
  - rewrite !VerifyChain_ordered by (done || apply rewrite_ordered || apply history_ordered; apply history_ordered).
    simpl. rewrite <- fmap_take. destruct (take limit _) as [|x l]; [done|].
    apply (verify_rewritten content None 0 (x :: l)).
  - unfold VerifyChain, found. by rewrite Hr.
Qed.

Definition with_logs (l : list AuditLog) (db : DB) : DB := set_logs l (last_value db) db.

Lemma sublist_ordered l db : l `sublist_of` logs db → ordered db → ordered (with_logs l db).
Proof.
  intros Hl [Hs Hv]. split; simpl.
  - clear Hv. revert Hs. induction Hl as [|x l1 l2 Hl IH|x l1 l2 Hl IH]; [done| |].
    + intros [H1 H2]%StronglySorted_inv. constructor; [by apply IH|].
      rewrite list.Forall_forall in *. intros y Hy. apply H2. by eapply elem_of_sublist.
    + intros [H1 _]%StronglySorted_inv. by apply IH.
  - rewrite list.Forall_forall in *. intros y Hy. apply Hv. by eapply elem_of_sublist.
Qed.

(** Deleting one entry between two others is noticed, unless its hash collides
    with the one before. *)
Theorem gap_detected ops io limit k x y z :
  Forall (λ o, reads o.1 = true) ops → reads io = true →
  logs (history ops) !! k = Some x → logs (history ops) !! S k = Some y → logs (history ops) !! S (S k) = Some z →
  (S k < limit)%nat →
  (VerifyChain io limit (with_logs (delete (S k) (logs (history ops))) (history ops))).1.1 = false ∨ Hash x = Hash y.
Proof.
  intros [_ Hl]%history_chain Hr Hx Hy Hz Hk. destruct (decide (Hash x = Hash y)) as [|Hne]; [by right|].
  left. apply not_true_is_false. intros H.
  apply verified_iff in H as [H|[_ H]]; [congruence| |apply sublist_ordered, history_ordered; apply sublist_delete].
  simpl in H. apply Hne.
  rewrite <- (Hl (S k) y z Hy Hz). symmetry. apply (H k x z).
  - rewrite lookup_take_lt by lia. by rewrite list_lookup_delete_lt by lia.
  - rewrite lookup_take_lt by lia. by rewrite list_lookup_delete_ge by lia.
Qed.

(** Cutting the log at its ends is not noticed: what remains of a log after its
    oldest and its newest entries are deleted verifies. *)
Theorem ends_unprotected ops io limit m n :
  Forall (λ o, reads o.1 = true) ops →
  (VerifyChain io limit (with_logs (take n (drop m (logs (history ops)))) (history ops))).1.1 = true.
Proof.
  intros [Hs Hl]%history_chain. apply verified_iff.
  - apply sublist_ordered, history_ordered. etrans; [apply sublist_take|apply sublist_drop].
  - right. simpl. split; [by apply Forall_take, Forall_take, Forall_drop|].
    by apply linked_take, linked_take, linked_drop.
Qed.

(** Two events that are recorded at the same time both read the same last entry,
    since nothing excludes it: from then on the log does not verify, whatever is
    recorded later, although nobody touched it. The exception is an entry whose hash
    is the one it was computed from. *)
Theorem concurrent_records_fork ops io1 io2 k1 k2 e1 e2 later io limit :
  reads io1 = true → reads io2 = true → writes io1 = true → writes io2 = true →
  Sequence e1 = 0 → Sequence e2 = 0 → reads io = true →
  let db := history ops in
  let x := next_entry io1 k1 (previous io1 db) e1 db in
  (S (length (logs db)) < limit)%nat →
  (VerifyChain io limit (foldl perform (append io2 k2 (previous io2 db) e2 (append io1 k1 (previous io1 db) e1 db)) later)).1.1
  = false ∨ Hash x = PreviousHash x.
Proof.
  intros Hr1 Hr2 Hw1 Hw2 He1 He2 Hr db x Hlim. destruct (decide (Hash x = PreviousHash x)) as [|Hx]; [by right|].
  left. apply not_true_is_false. intros H.
  assert (previous io2 db = previous io1 db) as Ep by (unfold previous, found; by rewrite Hr1, Hr2).
  destruct (append_logs io1 k1 (previous io1 db) e1 db He1 (history_ordered ops)) as [Hl1 Ho1].
  destruct (append_logs io2 k2 (previous io2 db) e2 _ He2 Ho1) as [Hl2 Ho2].
  destruct (foldl_ordered later _ Ho2) as [Ho [l Hl]]. rewrite Hw1 in Hl1. rewrite Hw2, Hl1 in Hl2. rewrite Hl2 in Hl.
  apply verified_iff in H as [H|[_ H]]; [congruence| |done]. rewrite Hl in H. fold x in H.
  apply Hx. symmetry.
  rewrite <- (H (length (logs db)) x (next_entry io2 k2 (previous io2 db) e2 (append io1 k1 (previous io1 db) e1 db))).
  - simpl. by rewrite Ep.
  - rewrite lookup_take_lt by lia. rewrite <- !(assoc (++)). by rewrite lookup_app_r, Nat.sub_diag by lia.
  - rewrite lookup_take_lt by lia. rewrite <- !(assoc (++)).
    by rewrite lookup_app_r, Nat.sub_succ_l, Nat.sub_diag by lia.
Qed.

(** ** Assessments *)

(** What an assessment makes of a control. *)
Definition judged (io : Io) (now : Z) (db : DB) (c : ComplianceControl) : ComplianceControl :=
  assessed (assessControl io db c) now c.

Definition passes (io : Io) (db : DB) (c : ComplianceControl) : Prop := (assessControl io db c).1 = "compliant".

#[local] Instance passes_dec io db c : Decision (passes io db c) := decide ((assessControl io db c).1 = "compliant").

Lemma assessControl_logs io db db' c : logs db' = logs db → assessControl io db' c = assessControl io db c.
Proof. intros E. unfold assessControl, VerifyChain. by rewrite E. Qed.

Definition passed_of (io : Io) (db : DB) (cs : list ComplianceControl) : Z := rows (filter (passes io db) cs).

Lemma passed_of_logs io db db' cs : logs db' = logs db → passed_of io db' cs = passed_of io db cs.
Proof.
  intros E. unfold passed_of. rewrite (list_filter_iff (passes io db') (passes io db)); [done|].
  intros c. unfold passes. by rewrite (assessControl_logs _ db db').
Qed.

Lemma passed_of_cons io db c cs :
  passed_of io db (c :: cs) = (if decide (passes io db c) then 1 else 0) + passed_of io db cs.
Proof.
  unfold passed_of, rows. destruct (decide (passes io db c)).
  - rewrite filter_cons_True by done. simpl length. lia.
  - by rewrite filter_cons_False by done.
Qed.

(** The table after the controls [cs] were assessed. *)
Definition judged_rows (io : Io) (now : Z) (db : DB) (cs l : list ComplianceControl) : list ComplianceControl :=
  (λ d, if decide (c_ID d ∈ c_ID <$> cs) then judged io now db d else d) <$> l.

Lemma judged_rows_cons io now db db1 c cs :
  (∀ d, d ∈ controls db → c_ID d = c_ID c → d = c) → c_ID c ∉ c_ID <$> cs → logs db1 = logs db →
  judged_rows io now db1 cs ((λ d, if decide (c_ID d = c_ID c) then judged io now db c else d) <$> controls db)
  = judged_rows io now db (c :: cs) (controls db).
Proof.
  intros Hrow Hc El. unfold judged_rows. rewrite <- list_fmap_compose. apply list_fmap_ext.
  intros i d Hd%list_elem_of_lookup_2. cbn beta. unfold compose. destruct (decide (c_ID d = c_ID c)) as [Ed|Ed].
  - rewrite (Hrow d) by done. rewrite decide_False by done. by rewrite decide_True by left.
  - destruct (decide (c_ID d ∈ c_ID <$> cs)) as [Hi|Hi].
    + rewrite decide_True by by right. unfold judged. by rewrite (assessControl_logs _ db db1).
    + rewrite decide_False; [done|]. by intros [?|?]%elem_of_cons.
Qed.

Lemma assess_controls_spec io now cs p f db :
  writes io = true → NoDup (c_ID <$> cs) →
  (∀ c d, c ∈ cs → d ∈ controls db → c_ID d = c_ID c → d = c) →
  let r := assess_controls io now cs p f db in
  r.1 = (p + passed_of io db cs, f + (rows cs - passed_of io db cs)) ∧
  controls r.2 = judged_rows io now db cs (controls db).
Proof.
  intros Hw. revert p f db. induction cs as [|c cs IH]; intros p f db Hnd Hrow.
  - simpl. split; [f_equal; unfold passed_of, rows; simpl; lia|]. symmetry. apply list_fmap_id.
  - rewrite fmap_cons in Hnd. apply list.NoDup_cons in Hnd as [Hc Hnd]. cbn [assess_controls].
    set (db1 := save_control io (assessed (assessControl io db c) now c) db).
    assert (controls db1 = (λ d, if decide (c_ID d = c_ID c) then judged io now db c else d) <$> controls db
            ∧ logs db1 = logs db) as [E1 El] by (unfold db1, save_control; by rewrite Hw).
    assert (∀ c' d, c' ∈ cs → d ∈ controls db1 → c_ID d = c_ID c' → d = c') as Hrow1.
    { intros c' d Hc'. rewrite E1, list_elem_of_fmap. intros (d0 & -> & Hd0). case_decide as Ed.
      - intros E. destruct Hc. simpl in E. rewrite E. by apply list_elem_of_fmap_2.
      - intros E. apply Hrow; [by right|done..]. }
    assert (∀ d, d ∈ controls db → c_ID d = c_ID c → d = c) as Hrowc by (intros; apply Hrow; [by left|done..]).
    rewrite passed_of_cons. rewrite <- (judged_rows_cons io now db db1), <- E1 by done.
    rewrite <- (passed_of_logs io db db1) by done. unfold rows. cbn [length].
    destruct (decide (passes io db c)) as [Hp|Hp].
    + rewrite !decide_True by exact Hp. destruct (IH (p + 1) f db1 Hnd Hrow1) as [-> ->]. split; [apply (f_equal2 pair); unfold rows; lia|done].
    + rewrite !decide_False by exact Hp. destruct (IH p (f + 1) db1 Hnd Hrow1) as [-> ->]. split; [apply (f_equal2 pair); unfold rows; lia|done].
Qed.

Definition keyed_controls (db : DB) : Prop := NoDup (c_ID <$> controls db).

Lemma keyed_same db db' : controls db' = controls db → keyed_controls db → keyed_controls db'.
Proof. unfold keyed_controls. by intros ->. Qed.

Lemma foldl_keyed {A} (f : DB → A → DB) l db :
  (∀ db x, keyed_controls db → keyed_controls (f db x)) → keyed_controls db → keyed_controls (foldl f db l).
Proof. intros Hf. revert db. induction l; simpl; auto. Qed.

Lemma first_or_create_control_keyed io c db : keyed_controls db → keyed_controls (first_or_create_control io c db).
Proof.
  intros H. unfold first_or_create_control.
  destruct (existsb (λ d, bool_decide (c_ID d = c_ID c)) (controls db)) eqn:E; [by rewrite orb_true_r|].
  rewrite orb_false_r. destruct (_ || _); [done|]. unfold keyed_controls. simpl. rewrite fmap_app.
  apply list.NoDup_app. split; [done|]. split; [|apply NoDup_singleton].
  intros x Hx ->%list_elem_of_singleton. apply list_elem_of_fmap in Hx as (d & Hd & Hx).
  rewrite (proj2 (existsb_exists _ _)) in E; [done|]. exists d. rewrite <- list_elem_of_In.
  split; [done|]. by apply bool_decide_eq_true_2.
Qed.

Lemma seed_framework_keyed io k n v d b cs db : keyed_controls db → keyed_controls (seed_framework io k n v d b cs db).
Proof.
  intros Hdb. unfold seed_framework. apply foldl_keyed.
  - intros db' [i [[[]]]]. apply first_or_create_control_keyed.
  - unfold first_or_create_framework. by destruct (_ || _).
Qed.

Lemma assess_controls_ids io now cs p f db :
  c_ID <$> controls (assess_controls io now cs p f db).2 = c_ID <$> controls db.
Proof.
  revert p f db. induction cs as [|c cs IH]; intros p f db; [done|]. cbn [assess_controls].
  assert (∀ r, c_ID <$> controls (save_control io (assessed r now c) db) = c_ID <$> controls db) as H.
  { intros r. unfold save_control. destruct (writes io); [|done]. simpl. rewrite <- list_fmap_compose.
    apply list_fmap_ext. intros i d _. unfold compose. by case_decide. }
  case_decide; by rewrite IH, H.
Qed.

Lemma append_controls io k prev e db : controls (append io k prev e db) = controls db.
Proof. unfold append. by destruct (_ || _). Qed.

Lemma create_policy_controls io p db p' db' : create_policy io p db = Some (p', db') → controls db' = controls db.
Proof. unfold create_policy. case_match; [done|]. by intros [= <- <-]. Qed.

Lemma seed_policies_keyed io db : keyed_controls db → keyed_controls (seed_policies io db).
Proof.
  apply foldl_keyed. intros db' [i [[[[[]]]]]]. unfold first_or_create_policy. case_match; [done|].
  destruct (create_policy _ _ _) as [[]|] eqn:E; [|done]. by eapply keyed_same, create_policy_controls.
Qed.

Lemma runAssessment_keyed io k fw db : keyed_controls db → keyed_controls (runAssessment io k fw db).2.
Proof.
  unfold runAssessment, keyed_controls. intros H.
  pose proof (assess_controls_ids io (t_nanos (clock io k))
    (found io (filter (λ c, c_FrameworkID c = fw) (controls db))) 0 0 db) as E.
  destruct (assess_controls _ _ _ _ _ _) as [[p f] db']. simpl in *. by rewrite E.
Qed.

Lemma assess_all_keyed io k fs db : keyed_controls db → keyed_controls (assess_all io k fs db).2.
Proof.
  revert k db. induction fs as [|f fs IH]; intros k db Hdb; simpl; [done|].
  pose proof (runAssessment_keyed io k (f_ID f) db Hdb) as H. destruct (runAssessment _ _ _ _) as [r db1].
  specialize (IH (S k) db1 H). by destruct (assess_all _ _ _ _).
Qed.

Lemma record_keyed io k e db : keyed_controls db → keyed_controls (RecordEvent io k e db).
Proof. apply keyed_same, append_controls. Qed.

Lemma perform_keyed db o : keyed_controls db → keyed_controls (perform db o).
Proof.
  intros H. destruct o as [io []]; unfold perform; cbn [fst snd].
  - apply record_keyed. do 5 apply seed_framework_keyed. by apply seed_policies_keyed.
  - unfold createPolicy. destruct req as [b|e]; [|done].
    destruct (create_policy _ _ _) as [[p db1]|] eqn:E; [|done].
    apply record_keyed. eapply keyed_same; [by eapply create_policy_controls|done].
  - unfold updatePolicy. repeat case_match; done.
  - unfold deletePolicy. by case_match.
  - unfold assess. pose proof (assess_all_keyed io 0 (enabled_frameworks io db) db H) as H1.
    destruct (assess_all _ _ _ _) as [rs db1]. by apply record_keyed.
  - unfold assessFramework. pose proof (runAssessment_keyed io 0 id db H) as H1.
    by destruct (runAssessment _ _ _ _) as [rs db1].
  - unfold generateReport. destruct req as [q|e]; [|done].
    pose proof (runAssessment_keyed io 3 (q_FrameworkID q) db H) as H1.
    pose proof (assess_all_keyed io 3 (enabled_frameworks io db) db H) as H2.
    destruct (runAssessment _ _ _ _) as [[[t p] f] db1], (assess_all _ _ _ _) as [rs db2].
    destruct (totals (snd <$> rs)) as [[t' p'] f'] eqn:Et.
    destruct (decide (q_FrameworkID q ≠ "")); rewrite ?Et; apply record_keyed; by destruct (writes io).
Qed.

Lemma history_keyed ops : keyed_controls (history ops).
Proof. unfold history. apply foldl_keyed; [|constructor]. intros db o. apply perform_keyed. Qed.

Lemma judged_compliant io now db fw l :
  length (filter (λ c, c_FrameworkID c = fw ∧ c_Status c = "compliant")
            ((λ d, if decide (c_FrameworkID d = fw) then judged io now db d else d) <$> l))
  = length (filter (passes io db) (filter (λ c, c_FrameworkID c = fw) l)).
Proof.
  induction l as [|d l IH]; [done|]. rewrite fmap_cons. destruct (decide (c_FrameworkID d = fw)) as [Hf|Hf].
  - rewrite (filter_cons_True (λ c, c_FrameworkID c = fw) d) by done. destruct (decide (passes io db d)) as [Hp|Hp].
    + rewrite (filter_cons_True (passes io db)), filter_cons_True by done. simpl. by rewrite IH.
    + rewrite (filter_cons_False (passes io db)), filter_cons_False by (done || by intros []). done.
  - rewrite (filter_cons_False (λ c, c_FrameworkID c = fw) d) by done.
    rewrite filter_cons_False by (by intros []). done.
Qed.

Lemma runAssessment_spec io k fw db :
  reads io = true → writes io = true → keyed_controls db →
  let cs := filter (λ c, c_FrameworkID c = fw) (controls db) in
  let r := runAssessment io k fw db in
  r.1 = (rows cs, passed_of io db cs, rows cs - passed_of io db cs) ∧
  controls r.2
  = (λ d, if decide (c_FrameworkID d = fw) then judged io (t_nanos (clock io k)) db d else d) <$> controls db.
Proof.
  intros Hr Hw Hk cs. unfold runAssessment, found. rewrite Hr. fold cs. cbn zeta.
  assert (∀ c d, c ∈ cs → d ∈ controls db → c_ID d = c_ID c → d = c) as Hrow.
  { intros c d [_ Hc]%list_elem_of_filter Hd E. by apply (nodup_key c_ID (controls db)). }
  assert (NoDup (c_ID <$> cs)) as Hnd.
  { apply (sublist_NoDup _ (c_ID <$> controls db)); [exact Hk|]. apply fmap_sublist, sublist_filter. }
  destruct (assess_controls_spec io (t_nanos (clock io k)) cs 0 0 db Hw Hnd Hrow) as [H1 H2].
  destruct (assess_controls _ _ _ _ _ _) as [[p f] db']. simpl in H1, H2. simplify_eq. split.
  - simpl. done.
  - simpl. rewrite H2. apply list_fmap_ext. intros i d Hd%list_elem_of_lookup_2. cbn beta.
    destruct (decide (c_FrameworkID d = fw)) as [Hf|Hf].
    + rewrite decide_True; [done|]. apply list_elem_of_fmap_2. by apply list_elem_of_filter.
    + rewrite decide_False; [done|]. intros (c & E & Hc)%list_elem_of_fmap.
      apply Hf. rewrite (Hrow c d) by done. by apply list_elem_of_filter in Hc as [? _].
Qed.

Lemma passed_bounds io db cs : 0 <= passed_of io db cs <= rows cs.
Proof. unfold passed_of, rows. pose proof (length_filter (passes io db) cs). lia. Qed.

Lemma score_bounds passed total : 0 <= passed <= total → 0 <= score passed total <= 100.
Proof.
  intros H. unfold score. destruct (0 <? total) eqn:E; [|lia]. zbool.
  rewrite Z.quot_div_nonneg by lia. split; [apply Z.div_pos; lia|]. apply Z.div_le_upper_bound; lia.
Qed.

Lemma judged_framework io now db fw l :
  length (filter (λ c, c_FrameworkID c = fw)
            ((λ d, if decide (c_FrameworkID d = fw) then judged io now db d else d) <$> l))
  = length (filter (λ c, c_FrameworkID c = fw) l).
Proof.
  induction l as [|d l IH]; [done|]. rewrite fmap_cons. destruct (decide (c_FrameworkID d = fw)) as [Hf|Hf].
  - rewrite !filter_cons_True by done. simpl. by rewrite IH.
  - by rewrite !filter_cons_False by done.
Qed.

(** What an assessment answers is what it has stored, and what the list of the
    frameworks then shows: the totals count the controls of the framework and those
    with status compliant, every other control has failed, and the score is a
    percentage. *)
Theorem assessment_recorded ops io f :
  reads io = true → writes io = true →
  let r := assessFramework io (f_ID f) (history ops) in
  r.1 = (200, JObj (counts_json (controls_of f r.2, compliant_of f r.2, controls_of f r.2 - compliant_of f r.2))) ∧
  controls_of f r.2 = controls_of f (history ops) ∧
  0 <= score (compliant_of f r.2) (controls_of f r.2) <= 100.
Proof.
  intros Hr Hw. pose proof (runAssessment_spec io 0 (f_ID f) (history ops) Hr Hw (history_keyed ops)) as [H1 H2].
  unfold assessFramework. destruct (runAssessment _ _ _ _) as [r db']. simpl in H1, H2. subst r. cbn zeta.
  unfold controls_of, compliant_of, rows. simpl. rewrite H2, judged_framework, judged_compliant.
  split; [done|]. split; [done|]. apply score_bounds. apply passed_bounds.
Qed.

(** ** Starting again *)

Definition has_policy (name : string) (db : DB) : Prop := ∃ p, p ∈ policies db ∧ p_Name p = name.
Definition has_framework (name : string) (db : DB) : Prop := ∃ f, f ∈ frameworks db ∧ f_Name f = name.

Lemma existsb_taken {A} (P : A → bool) (l : list A) : (∃ x, x ∈ l ∧ P x = true) → existsb P l = true.
Proof. intros (x & Hx & HP). apply existsb_exists. exists x. by rewrite <- list_elem_of_In. Qed.

Lemma policy_known io p db : has_policy (p_Name p) db → first_or_create_policy io p db = db.
Proof.
  intros (q & Hq & E). unfold first_or_create_policy, create_policy. destruct (_ || _); [done|].
  rewrite existsb_taken; [by rewrite orb_true_r|]. exists q. split; [done|]. by rewrite bool_decide_eq_true_2.
Qed.

Lemma foldl_fixed {A B} (f : A → B → A) a l : (∀ x, x ∈ l → f a x = a) → foldl f a l = a.
Proof.
  induction l as [|x l IH]; simpl; intros H; [done|]. rewrite H by left. apply IH. intros y Hy. apply H. by right.
Qed.

Lemma framework_known io k name v d b cs db :
  has_framework name db → (∀ f, f ∈ frameworks db → f_ID f ≠ uuids io k) →
  seed_framework io k name v d b cs db = db.
Proof.
  intros (f & Hf & E) Hk. unfold seed_framework.
  assert (first_or_create_framework io (mkFramework (uuids io k) name v d b (t_nanos (clock io k)) (t_nanos (clock io k))) db = db) as ->.
  { unfold first_or_create_framework. rewrite existsb_taken; [by rewrite orb_true_r|]. exists f. split; [done|].
    simpl. by rewrite bool_decide_eq_true_2. }
  apply foldl_fixed. intros [i [[[]]]] _. unfold first_or_create_control. simpl.
  destruct (existsb (λ f, bool_decide (f_ID f = uuids io k)) (frameworks db)) eqn:Ef; [|by rewrite !orb_true_r].
  apply existsb_exists in Ef as (g & Hg & Hu). rewrite <- list_elem_of_In in Hg. apply bool_decide_eq_true in Hu.
  by destruct (Hk g Hg).
Qed.

Lemma foldl_frameworks {A} (f : DB → A → DB) l db :
  (∀ db x, frameworks (f db x) = frameworks db) → frameworks (foldl f db l) = frameworks db.
Proof. intros Hf. revert db. induction l as [|x l IH]; intros db; simpl; [done|]. by rewrite IH. Qed.

(** Starting the service again adds nothing to its policies, frameworks and
    controls, whatever was done to them since, and one entry to the log. *)
Theorem restart_keeps_rows io db :
  (∀ name, name ∈ (λ x, x.1.1.1.1.1) <$> default_policies → has_policy name db) →
  (∀ name, name ∈ ["SOC 2 Type II"; "ISO 27001"; "PCI DSS"; "GDPR"; "HIPAA"] → has_framework name db) →
  (∀ f k, f ∈ frameworks db → f_ID f ≠ uuids io k) →
  seedDefaults io db = recordSystemEvent io 45 "system.startup" "system" "info" "Audit service initialized" db.
Proof.
  intros Hp Hf Hid. unfold seedDefaults. f_equal.
  assert (seed_policies io db = db) as ->.
  { apply foldl_fixed. intros [i [[[[[name ?] ?] ?] ?] ?]] (j & x & E & Hx)%elem_of_lookup_imap. simplify_eq.
    apply policy_known, Hp. apply list_elem_of_lookup_2 in Hx. by apply (list_elem_of_fmap_2 (λ x, x.1.1.1.1.1)) in Hx. }
  unfold seedHIPAA, seedGDPR, seedPCIDSS, seedISO27001, seedSOC2.
  assert (∀ k name v d b cs, name ∈ ["SOC 2 Type II"; "ISO 27001"; "PCI DSS"; "GDPR"; "HIPAA"] →
            seed_framework io k name v d b cs db = db) as H by (intros; apply framework_known; auto).
  rewrite (H 5%nat), (H 13%nat), (H 23%nat), (H 32%nat), (H 39%nat) by set_solver. done.
Qed.

(** The framework that is seeded as disabled is enabled: a false value counts as a
    missing one, for which the column has the default true. *)
Theorem hipaa_enabled io db :
  reads io = true → writes io = true →
  (∀ f, f ∈ frameworks db → f_Name f ≠ "HIPAA" ∧ f_ID f ≠ uuids io 39) →
  ∃ f, f ∈ frameworks (seedHIPAA io db) ∧ f_Name f = "HIPAA" ∧ f_Enabled f = true.
Proof.
  intros Hr Hw Hf. unfold seedHIPAA, seed_framework.
  set (fw := mkFramework (uuids io 39) "HIPAA" "2013" "Health Insurance Portability and Accountability Act" false
               (t_nanos (clock io 39)) (t_nanos (clock io 39))).
  assert (∃ f, f ∈ frameworks (first_or_create_framework io fw db) ∧ f_Name f = "HIPAA" ∧ f_Enabled f = true) as H.
  { unfold first_or_create_framework. rewrite Hr, Hw. simpl.
    destruct (existsb _ _) eqn:E.
    - apply existsb_exists in E as (g & Hg & Hu). rewrite <- list_elem_of_In in Hg. apply Hf in Hg as [H1 H2].
      by rewrite !bool_decide_eq_false_2 in Hu.
    - eexists. split; [apply elem_of_app; right; by left|]. simpl. split; [done|]. apply stored_bool_spec. }
  destruct H as (f & Hin & H). exists f. split; [|done]. rewrite foldl_frameworks; [done|].
  intros db' [i [[[]]]]. unfold first_or_create_control. by destruct (_ || _).
Qed.
End theorems.

(** ** Examples *)

(** A database that answers, at one instant, with numbered identifiers. *)
Definition io_at (sec : Z) (prefix : string) : Io :=
  mkIo true true 0 string_leb (λ _, None) (λ _, mkTime sec 5000 0) (λ k, prefix +:+ Itoa (Z.of_nat k)).

Definition plain_io : Io := io_at 1767225600 "id-".
Definition other_io : Io := io_at 1767229200 "new-".

Definition named (name : string) : result string PolicyBody :=
  Ok (mkBody (Some name) None (Some "auth.*") None None (Some true) None None None None None).

Definition three_entries : list (Io * op) :=
  [(plain_io, Create (named "a")); (other_io, Create (named "b")); (io_at 1767232800 "third-", Create (named "c"))].

#[local] Notation example_log := (history (defaults := gorm_defaults) three_entries).

Definition entry_at (k : nat) : AuditLog := default (entry "" "" "" "" "") (logs example_log !! k).

Lemma three_entries_read : Forall (λ o, reads o.1 = true) three_entries.
Proof. repeat constructor. Qed.

Lemma example_length : length (logs example_log) = 3%nat.
Proof. reflexivity. Qed.

Lemma entry_at_lookup k : (k < 3)%nat → logs example_log !! k = Some (entry_at k).
Proof.
  intros Hk. unfold entry_at. destruct (logs example_log !! k) eqn:E; [done|].
  apply lookup_ge_None in E. rewrite example_length in E. lia.
Qed.

Lemma chain_intact_witness : ∃ m, VerifyChain plain_io 10 example_log = (true, 3, m).
Proof.
  eexists. refine (eq_trans (chain_intact (defaults := gorm_defaults) three_entries plain_io 10 three_entries_read eq_refl) _).
  reflexivity.
Defined.

Lemma gap_detected_witness :
  (VerifyChain plain_io 10 (with_logs (delete 1%nat (logs example_log)) example_log)).1.1 = false
  ∨ Hash (entry_at 0) = Hash (entry_at 1).
Proof.
  apply (gap_detected (defaults := gorm_defaults) three_entries plain_io 10 0 (entry_at 0) (entry_at 1) (entry_at 2));
    [exact three_entries_read|reflexivity|apply entry_at_lookup; lia..|lia].
Defined.

Lemma ends_unprotected_witness :
  (VerifyChain plain_io 10 (with_logs (take 1 (drop 1 (logs example_log))) example_log)).1.1 = true.
Proof. apply (ends_unprotected (defaults := gorm_defaults) three_entries plain_io 10 1 1 three_entries_read). Defined.

Lemma concurrent_records_fork_witness :
  let x := next_entry (defaults := gorm_defaults) plain_io 0 None (entry "a" "" "" "" "") no_rows in
  (VerifyChain plain_io 10
     (foldl (perform (defaults := gorm_defaults))
        (append (defaults := gorm_defaults) other_io 0 None (entry "b" "" "" "" "")
           (append (defaults := gorm_defaults) plain_io 0 None (entry "a" "" "" "" "") no_rows))
        [(plain_io, Create (named "d"))])).1.1 = false ∨ Hash x = "genesis".
Proof.
  apply (concurrent_records_fork (defaults := gorm_defaults) [] plain_io other_io 0 0);
    [reflexivity..|simpl; lia].
Defined.

Lemma assessment_recorded_witness :
  let f := mkFramework "id-5" "SOC 2 Type II" "2017" "" true 0 0 in
  let r := assessFramework plain_io (f_ID f) (history (defaults := gorm_defaults) [(plain_io, Start)]) in
  0 <= score (compliant_of f r.2) (controls_of f r.2) <= 100 ∧ controls_of f r.2 = 7.
Proof.
  intros f r. destruct (assessment_recorded (defaults := gorm_defaults) [(plain_io, Start)] plain_io f eq_refl eq_refl)
    as (_ & H1 & H2).
  split; [exact H2|]. refine (eq_trans H1 _). lazy. reflexivity.
Defined.

Definition started : DB := history (defaults := gorm_defaults) [(plain_io, Start)].

Lemma restart_keeps_rows_witness :
  seedDefaults (defaults := gorm_defaults) other_io started
  = recordSystemEvent (defaults := gorm_defaults) other_io 45 "system.startup" "system" "info"
      "Audit service initialized" started.
Proof.
  apply (restart_keeps_rows (defaults := gorm_defaults)).
  - intros name Hn. cbn in Hn. repeat (apply elem_of_cons in Hn as [->|Hn]);
      [..|by apply not_elem_of_nil in Hn]; unfold has_policy;
      (apply (list.Exists_exists (λ p, p_Name p = _)); apply (bool_decide_eq_true_1 _); lazy; reflexivity).
  - intros name Hn. repeat (apply elem_of_cons in Hn as [->|Hn]);
      [..|by apply not_elem_of_nil in Hn]; unfold has_framework;
      (apply (list.Exists_exists (λ p, f_Name p = _)); apply (bool_decide_eq_true_1 _); lazy; reflexivity).
  - intros f k Hf. assert (Forall (λ f, HasPrefix (f_ID f) "id-" = true) (frameworks started)) as H
      by (apply (bool_decide_eq_true_1 _); lazy; reflexivity).
    rewrite list.Forall_forall in H. apply H in Hf. intros E. rewrite E in Hf. simpl in Hf. discriminate.
Defined.

Lemma hipaa_enabled_witness :
  ∃ f, f ∈ frameworks (seedHIPAA (defaults := gorm_defaults) plain_io no_rows) ∧ f_Name f = "HIPAA" ∧ f_Enabled f = true.
Proof.
  apply (hipaa_enabled (defaults := gorm_defaults) plain_io no_rows); [reflexivity..|].
  intros f Hf. by apply not_elem_of_nil in Hf.
Defined.
