(* ===== verification/Abac.v ===== *)
(** * Attribute-based access control

    A model of internal/management/abac: the policies with conditions on tags,
    user attributes and the request, which are stored as JSON text, their
    evaluation in the order of their priorities, and the handlers. [governs] says
    without the functions of the code when a policy applies to a request, and
    [decision_by_priority] that the evaluation decides by it. *)
From Stdlib Require Import Ascii Sorting.
From S2P Require Import Prelude GoStrings Utf8 NetIP Http Tables.
From S2P Require Json.

Local Open Scope Z_scope.

(** ** Data *)

Record Condition := mkCondition { Key : string; Operator : string; Value : string }.

#[global] Instance Condition_eq_dec : EqDecision Condition.
Proof. solve_decision. Defined.

Record ABACPolicy := mkPolicy {
  ID : Z; Name : string; Description : string; Effect : string; Resource : string; Actions : string;
  Conditions : string; Priority : Z; Enabled : bool; CreatedAt : Z; UpdatedAt : Z
}.

Record EvalRequest := mkRequest {
  q_Action : string; q_Resource : string; ResourceTags : gmap string string;
  UserAttrs : gmap string string; RequestCtx : gmap string string
}.

Record EvalResult := mkResult { Allowed : bool; MatchedPolicy : string; Reason : string }.

Definition policy_json (p : ABACPolicy) : json := JObj [
  ("id", JNum (ID p)); ("name", JStr (Name p)); ("description", JStr (Description p)); ("effect", JStr (Effect p));
  ("resource", JStr (Resource p)); ("actions", JStr (Actions p)); ("conditions", JStr (Conditions p));
  ("priority", JNum (Priority p)); ("enabled", JBool (Enabled p)); ("created_at", JTime (CreatedAt p));
  ("updated_at", JTime (UpdatedAt p))].

Definition result_json (r : EvalResult) : json :=
  JObj ([("allowed", JBool (Allowed r))]
        ++ (if decide (MatchedPolicy r = "") then [] else [("matched_policy", JStr (MatchedPolicy r))])
        ++ [("reason", JStr (Reason r))]).

(** ** Conditions as text *)

Definition condition_json (c : Condition) : Json.json :=
  Json.JObj [("key", Json.JStr (Key c)); ("operator", Json.JStr (Operator c)); ("value", Json.JStr (Value c))].

(** [json.Marshal(conditions)]; [None] is a nil slice. *)
Definition marshal_conditions (cs : option (list Condition)) : string :=
  Json.Text.marshal (match cs with None => Json.JNull | Some cs => Json.JArr (condition_json <$> cs) end).

Section evaluation.
Context {unicode : UnicodeTables}.

Definition set_condition (k : string) (j : Json.json) (c : Condition) : Condition * bool :=
  if EqualFold k "key" then
    Json.Decode.field Json.Decode.string_ Key (λ v c, mkCondition v (Operator c) (Value c)) j c
  else if EqualFold k "operator" then
    Json.Decode.field Json.Decode.string_ Operator (λ v c, mkCondition (Key c) v (Value c)) j c
  else if EqualFold k "value" then
    Json.Decode.field Json.Decode.string_ Value (λ v c, mkCondition (Key c) (Operator c) v) j c
  else (c, true).

(** [json.Unmarshal] to a slice, or none on an error. *)
Definition unmarshal_slice {A} (dec : Json.json → A → A * bool) (zero : A) (s : string) : option (list A) :=
  j ← Json.Text.unmarshal s;
  let (l, ok) := Json.Decode.slice dec zero j [] in if ok : bool then Some l else None.

Definition unmarshal_conditions : string → option (list Condition) :=
  unmarshal_slice (Json.Decode.struct set_condition) (mkCondition "" "" "").

Definition unmarshal_strings : string → option (list string) := unmarshal_slice Json.Decode.string_ "".

(** ** Matching *)

Definition matchResource (pattern resource : string) : bool :=
  if decide (pattern = "*") then true
  else if HasSuffix pattern ":*" then HasPrefix resource (TrimSuffix pattern ":*" +:+ ":")
  else bool_decide (pattern = resource).

Definition matchAction (actions action : string) : bool :=
  existsb (λ a, let a := TrimSpace a in bool_decide (a = "*") || bool_decide (a = action)) (Split actions ",").

(** A missing key of a map has the empty value. *)
Definition value_of (m : gmap string string) (k : string) : string := default "" (m !! k).

Definition resolveKey (key : string) (req : EvalRequest) : string :=
  match SplitN key "." 3 with
  | "resource" :: "tags" :: [k] => value_of (ResourceTags req) k
  | "user" :: k :: _ => value_of (UserAttrs req) k
  | "request" :: k :: _ => value_of (RequestCtx req) k
  | _ => ""
  end.

Definition evalOp (op actual expected : string) : bool :=
  match op with
  | "equals" => bool_decide (actual = expected)
  | "not_equals" => negb (bool_decide (actual = expected))
  | "starts_with" => HasPrefix actual expected
  | "contains" => str_contains actual expected
  | "in" => match unmarshal_strings expected with None => false | Some vals => bool_decide (actual ∈ vals) end
  | "not_in" => match unmarshal_strings expected with None => true | Some vals => negb (bool_decide (actual ∈ vals)) end
  | _ => false
  end.

Definition evaluateConditions (conditions : list Condition) (req : EvalRequest) : bool :=
  forallb (λ c, evalOp (Operator c) (resolveKey (Key c) req) (Value c)) conditions.

(** The tests of the loop of [Evaluate]; a policy whose conditions cannot be read
    is passed over. *)
Definition applies (req : EvalRequest) (p : ABACPolicy) : bool :=
  matchResource (Resource p) (q_Resource req) && matchAction (Actions p) (q_Action req)
  && match unmarshal_conditions (Conditions p) with
     | None => false
     | Some conditions => evaluateConditions conditions req
     end.

(** [ORDER BY priority ASC]: rows of one priority come in any order. *)
Class OrderBy := {
  by_priority : list ABACPolicy → list ABACPolicy;
  by_priority_perm l : by_priority l ≡ₚ l;
  by_priority_sorted l : StronglySorted (λ p q, Priority p <= Priority q) (by_priority l)
}.

Context {runes : RuneTables} {order : OrderBy}.

Definition verdict (p : ABACPolicy) : EvalResult :=
  mkResult (bool_decide (Effect p = "allow")) (Name p)
    ("matched policy " +:+ Quote (Name p) +:+ " (effect=" +:+ Effect p +:+ ", priority=" +:+ Itoa (Priority p) +:+ ")").

Definition default_allow : EvalResult := mkResult true "" "no matching ABAC policy; default allow".

(** The error of the query, if it fails. *)
Definition Evaluate (fail : option string) (req : EvalRequest) (db : list ABACPolicy) : result string EvalResult :=
  match fail with
  | Some e => Err e
  | None =>
      Ok match List.find (applies req) (by_priority (filter (λ p, Enabled p = true) db)) with
         | Some p => verdict p
         | None => default_allow
         end
  end.

(** ** Policies *)

Context {defaults : Defaults}.

(** The row that is inserted; names and identifiers are unique. *)
Definition CreatePolicy (fail : option string) (id now : Z) (name description effect resource actions : string)
    (conditions : option (list Condition)) (priority : Z) (db : list ABACPolicy)
    : result string ABACPolicy * list ABACPolicy :=
  if decide (effect ≠ "allow" ∧ effect ≠ "deny") then (Err "effect must be 'allow' or 'deny'", db)
  else
    match fail with
    | Some e => (Err e, db)
    | None =>
        if existsb (λ p, bool_decide (Name p = name)) db || has_row ID id db
        then (Err "duplicate key value violates unique constraint", db)
        else
          let p := mkPolicy id name description (stored_string "allow" effect) resource actions
                     (marshal_conditions conditions) (stored_int 100 priority) true now now in
          (Ok p, db ++ [p])
    end.

Definition listed_before (p q : ABACPolicy) : Prop :=
  Priority p < Priority q ∨ (Priority p = Priority q ∧ CreatedAt q <= CreatedAt p).

#[local] Instance listed_before_dec p q : Decision (listed_before p q).
Proof. unfold listed_before. apply _. Defined.

(** Go does not specify whether the first operand of the return statement is read
    before or after the query fills it: [late] says which; the slice is nil before. *)
Definition ListPolicies (late : bool) (fail : option string) (db : list ABACPolicy) : result string (option (list ABACPolicy)) :=
  match fail with
  | Some e => Err e
  | None => Ok (if late then Some (merge_sort listed_before db) else None)
  end.

Definition GetPolicy (ok : bool) (id : Z) (db : list ABACPolicy) : option ABACPolicy :=
  if ok then row_with ID id db else None.

Definition DeletePolicy (fail : option string) (id : Z) (db : list ABACPolicy) : option string * list ABACPolicy :=
  match fail with Some e => (Some e, db) | None => (None, without_row ID id db) end.

Definition toggled (enabled : bool) (now : Z) (p : ABACPolicy) : ABACPolicy :=
  mkPolicy (ID p) (Name p) (Description p) (Effect p) (Resource p) (Actions p) (Conditions p) (Priority p)
    enabled (CreatedAt p) now.

Definition TogglePolicy (fail : option string) (id : Z) (enabled : bool) (now : Z) (db : list ABACPolicy)
    : option string * list ABACPolicy :=
  match fail with Some e => (Some e, db) | None => (None, on_row ID id (toggled enabled now) db) end.

(** ** Handlers *)

Definition handleList (late : bool) (fail : option string) (db : list ABACPolicy) : response :=
  match ListPolicies late fail db with
  | Err e => error 500 e
  | Ok ps => (200, JObj [("policies", JOpt (λ l, JList (policy_json <$> l)) ps)])
  end.

Record CreateRequest := mkCreate {
  r_Name : string; r_Description : string; r_Effect : string; r_Resource : string; r_Actions : string;
  r_Conditions : option (list Condition); r_Priority : Z
}.

Definition handleCreate (fail : option string) (id now : Z) (req : result string CreateRequest) (db : list ABACPolicy)
    : response * list ABACPolicy :=
  match req with
  | Err e => (error 400 e, db)
  | Ok r =>
      let '(p, db) := CreatePolicy fail id now (r_Name r) (r_Description r) (r_Effect r) (r_Resource r) (r_Actions r)
                        (r_Conditions r) (r_Priority r) db in
      (match p with Err e => error 400 e | Ok p => (201, JObj [("policy", policy_json p)]) end, db)
  end.

Definition handleGet (ok : bool) (param : string) (db : list ABACPolicy) : response :=
  match GetPolicy ok (uint_param param) db with
  | None => error 404 "not found"
  | Some p => (200, JObj [("policy", policy_json p)])
  end.

Definition handleDelete (fail : option string) (param : string) (db : list ABACPolicy) : response * list ABACPolicy :=
  let '(e, db) := DeletePolicy fail (uint_param param) db in
  (match e with Some e => error 500 e | None => (204, JNull) end, db).

Definition handleToggle (fail : option string) (param : string) (now : Z) (req : result string bool)
    (db : list ABACPolicy) : response * list ABACPolicy :=
  match req with
  | Err e => (error 400 e, db)
  | Ok enabled =>
      let '(e, db) := TogglePolicy fail (uint_param param) enabled now db in
      (match e with Some e => error 500 e | None => message 200 "ok" end, db)
  end.

Definition handleEvaluate (fail : option string) (req : result string EvalRequest) (db : list ABACPolicy) : response :=
  match req with
  | Err e => error 400 e
  | Ok req =>
      match Evaluate fail req db with
      | Err e => error 500 e
      | Ok r => (200, JObj [("result", result_json r)])
      end
  end.
End evaluation.

(** ** Conditions are read back *)

(** The condition with the bytes that are not part of UTF-8 replaced. *)
Definition valid_condition (c : Condition) : Condition :=
  mkCondition (valid (Key c)) (valid (Operator c)) (valid (Value c)).

Section theorems.
Context {unicode : UnicodeTables}.

Lemma condition_read_back c :
  Json.Decode.struct set_condition (Json.Text.valid_utf8 (condition_json c)) (mkCondition "" "" "")
  = (valid_condition c, true).
Proof. reflexivity. Qed.

Lemma slice_map {A B} (dec : Json.json → A → A * bool) zero (f : B → Json.json) (g : B → A) l old :
  (∀ x, dec (f x) zero = (g x, true)) → Json.Decode.slice dec zero (Json.JArr (f <$> l)) old = (g <$> l, true).
Proof.
  intros H. unfold Json.Decode.slice. rewrite <- list_fmap_compose. induction l as [|x l IH]; [done|].
  rewrite !fmap_cons. simpl. rewrite H. injection IH as -> ->. done.
Qed.

Lemma conditions_printable cs : Json.Text.printable Json.Text.maxNestingDepth (Json.JArr (condition_json <$> cs)) = true.
Proof.
  assert (∀ d, Json.Text.printable (S (S d)) (Json.JArr (condition_json <$> cs)) = true) as H.
  { intros d. simpl. induction cs as [|c cs IH]; [done|]. by rewrite fmap_cons. }
  unfold Json.Text.maxNestingDepth. replace (Z.to_nat 10000) with (S (S (Z.to_nat 9998))) by lia. apply H.
Qed.

Lemma conditions_stored cs :
  unmarshal_conditions (marshal_conditions cs) = Some (valid_condition <$> default [] cs).
Proof.
  unfold unmarshal_conditions, unmarshal_slice, marshal_conditions. destruct cs as [cs|]; [|reflexivity].
  rewrite Json.Text.unmarshal_marshal by apply conditions_printable. cbn [mbind option_bind Json.Text.valid_utf8].
  rewrite <- list_fmap_compose.
  rewrite (slice_map _ _ _ valid_condition); [done|]. intros c. apply condition_read_back.
Qed.

(** What is stored for a list of conditions is evaluated as that list, the bytes
    that are not part of UTF-8 being replaced; a missing list holds always. *)
Theorem conditions_read_back cs :
  unmarshal_conditions (marshal_conditions cs) = Some (valid_condition <$> default [] cs).
Proof. apply conditions_stored. Qed.

(** ** Decisions *)

Context {runes : RuneTables} {order : OrderBy}.

Lemma find_first {A} (P : A → bool) (R : A → A → Prop) l x :
  StronglySorted R l → (∀ y, R y y) → List.find P l = Some x → x ∈ l ∧ P x = true ∧ ∀ y, y ∈ l → P y = true → R x y.
Proof.
  intros Hl Hr. induction Hl as [|y l Hl IH Hy]; simpl; [done|]. destruct (P y) eqn:E.
  - intros [= ->]. split; [by left|]. split; [done|]. intros z [->|Hz]%elem_of_cons _; [done|].
    rewrite list.Forall_forall in Hy. auto.
  - intros (H1 & H2 & H3)%IH. split; [by right|]. split; [done|]. intros z [->|Hz]%elem_of_cons Hp; [congruence|auto].
Qed.

(** A policy that is enabled and meets a request. *)
Definition applicable (req : EvalRequest) (db : list ABACPolicy) (p : ABACPolicy) : Prop :=
  p ∈ db ∧ Enabled p = true ∧ applies req p = true.

(** *** What applies, as a specification *)

(** All resources, those of a kind, or one. *)
Definition covers (pattern resource : string) : Prop :=
  pattern = "*" ∨ (∃ kind name, pattern = kind +:+ ":*" ∧ resource = kind +:+ ":" +:+ name) ∨ pattern = resource.

Definition listed (actions action : string) : Prop :=
  ∃ a, a ∈ Split actions "," ∧ (TrimSpace a = "*" ∨ TrimSpace a = action).

(** A name whose first part is [k]. *)
Definition names (name k : string) : Prop :=
  str_mem "." k = false ∧ (name = k ∨ ∃ rest, name = k +:+ "." +:+ rest).

(** The attribute of a request that a key denotes; other keys denote the empty
    value, and so does an attribute the request does not have. *)
Inductive attribute (req : EvalRequest) : string → string → Prop :=
| of_resource k : attribute req ("resource.tags." +:+ k) (value_of (ResourceTags req) k)
| of_user name k : names name k → attribute req ("user." +:+ name) (value_of (UserAttrs req) k)
| of_request name k : names name k → attribute req ("request." +:+ name) (value_of (RequestCtx req) k)
| of_nothing key :
    (∀ name, key ≠ "resource.tags." +:+ name ∧ key ≠ "user." +:+ name ∧ key ≠ "request." +:+ name) →
    attribute req key "".

(** The six operators; a set of values that cannot be read has no members. *)
Inductive satisfies (actual expected : string) : string → Prop :=
| equals : actual = expected → satisfies actual expected "equals"
| not_equals : actual ≠ expected → satisfies actual expected "not_equals"
| starts_with rest : actual = expected +:+ rest → satisfies actual expected "starts_with"
| contains before after : actual = before +:+ expected +:+ after → satisfies actual expected "contains"
| in_set vals : unmarshal_strings expected = Some vals → actual ∈ vals → satisfies actual expected "in"
| not_in_set : (∀ vals, unmarshal_strings expected = Some vals → actual ∉ vals) → satisfies actual expected "not_in".

Definition governs (req : EvalRequest) (db : list ABACPolicy) (p : ABACPolicy) : Prop :=
  p ∈ db ∧ Enabled p = true ∧ covers (Resource p) (q_Resource req) ∧ listed (Actions p) (q_Action req) ∧
  ∃ cs, unmarshal_conditions (Conditions p) = Some cs ∧
    ∀ c, c ∈ cs → ∃ actual, attribute req (Key c) actual ∧ satisfies actual (Value c) (Operator c).

Lemma TrimSuffix_app s suf : TrimSuffix (s +:+ suf) suf = s.
Proof.
  unfold TrimSuffix. assert (HasSuffix (s +:+ suf) suf = true) as -> by (apply HasSuffix_spec; eauto).
  rewrite str_len_app. replace (str_len s + str_len suf - str_len suf)%nat with (str_len s) by lia. apply str_take_app.
Qed.

Lemma matchResource_covers pattern resource : matchResource pattern resource = true ↔ covers pattern resource.
Proof.
  unfold matchResource, covers. case_decide as H1; [naive_solver|].
  destruct (HasSuffix pattern ":*") eqn:H2.
  - apply HasSuffix_spec in H2 as [kind ->]. rewrite TrimSuffix_app, HasPrefix_spec. split.
    + intros [t ->]. right; left. exists kind, t. by rewrite str_app_assoc.
    + intros [?|[(kind' & name & E & ->)| <-]]; [done| |].
      * apply (f_equal (λ s, TrimSuffix s ":*")) in E. rewrite !TrimSuffix_app in E. subst kind'. exists name. by rewrite str_app_assoc.
      * exists "*". by rewrite str_app_assoc.
  - rewrite bool_decide_eq_true. split; [auto|]. intros [?|[(kind & name & -> & _)|?]]; [done| |done].
    assert (HasSuffix (kind +:+ ":*") ":*" = true) by (apply HasSuffix_spec; eauto). congruence.
Qed.

Lemma matchAction_listed actions action : matchAction actions action = true ↔ listed actions action.
Proof.
  unfold matchAction, listed. rewrite existsb_elem. f_equiv. intros a. zbool.
  rewrite orb_true_iff, !bool_decide_eq_true. done.
Qed.

Lemma SplitN_two r : ∃ k more, SplitN r "." 2 = k :: more ∧ names r k.
Proof.
  cbn [SplitN]. destruct (str_cut "." r) as [[k rest]|] eqn:E.
  - apply str_cut_Some in E as [-> Hk]. exists k, [rest]. split; [done|]. split; [done|]. right. by exists rest.
  - apply str_cut_None in E. exists r, []. split; [done|]. split; [done|]. by left.
Qed.

Lemma names_unique r k k' : names r k → names r k' → k = k'.
Proof.
  assert (∀ k, names r k → SplitN r "." 2 !! 0%nat = Some k) as H.
  { intros q [Hq [-> | [rest ->]]]; cbn [SplitN].
    - by apply str_cut_None in Hq as ->.
    - change (q +:+ "." +:+ rest) with (q +:+ String "." rest). by rewrite str_cut_app. }
  intros H1%H H2%H. congruence.
Qed.

Lemma resolve_resource r req :
  resolveKey ("resource." +:+ r) req
  = match SplitN r "." 2 with ["tags"; k] => value_of (ResourceTags req) k | _ => "" end.
Proof.
  unfold resolveKey. change ("resource." +:+ r) with ("resource" +:+ String "." r).
  by rewrite SplitN_step.
Qed.

Lemma resolve_user r k req : names r k → resolveKey ("user." +:+ r) req = value_of (UserAttrs req) k.
Proof.
  intros Hk. destruct (SplitN_two r) as (k' & more & E & Hk'). rewrite (names_unique r k k') by done.
  unfold resolveKey. change ("user." +:+ r) with ("user" +:+ String "." r).
  by rewrite SplitN_step, E by done.
Qed.

Lemma resolve_request r k req : names r k → resolveKey ("request." +:+ r) req = value_of (RequestCtx req) k.
Proof.
  intros Hk. destruct (SplitN_two r) as (k' & more & E & Hk'). rewrite (names_unique r k k') by done.
  unfold resolveKey. change ("request." +:+ r) with ("request" +:+ String "." r).
  by rewrite SplitN_step, E by done.
Qed.

Lemma resolve_tag k req : resolveKey ("resource.tags." +:+ k) req = value_of (ResourceTags req) k.
Proof.
  change ("resource.tags." +:+ k) with ("resource." +:+ "tags." +:+ k). rewrite resolve_resource.
  change ("tags." +:+ k) with ("tags" +:+ String "." k). by rewrite SplitN_step.
Qed.

Lemma resolve_nothing key req :
  (∀ name, key ≠ "resource.tags." +:+ name ∧ key ≠ "user." +:+ name ∧ key ≠ "request." +:+ name) →
  resolveKey key req = "".
Proof.
  intros H. destruct (str_cut "." key) as [[l r]|] eqn:E.
  - apply str_cut_Some in E as [-> Hl].
    assert (l ≠ "user" ∧ l ≠ "request") as [Hu Hq] by (split; intros ->; by destruct (H r) as (_ & ? & ?)).
    destruct (decide (l = "resource")) as [->|Hr].
    + change ("resource" +:+ String "." r) with ("resource." +:+ r) in *. rewrite resolve_resource.
      cbn [SplitN]. destruct (str_cut "." r) as [[t k]|] eqn:E; [|by repeat case_match].
      apply str_cut_Some in E as [-> _].
      destruct (decide (t = "tags")) as [->|Ht]; [by destruct (H k) as [? _]|].
      by repeat (case_match; simplify_eq).
    + unfold resolveKey. rewrite SplitN_step by done. clear H Hl. by repeat (case_match; simplify_eq).
  - unfold resolveKey. cbn [SplitN]. rewrite E. by repeat case_match.
Qed.

Lemma resolveKey_attribute key req actual : attribute req key actual ↔ resolveKey key req = actual.
Proof.
  split.
  - intros []; [apply resolve_tag|by apply resolve_user|by apply resolve_request|by apply resolve_nothing].
  - intros <-. destruct (HasPrefix key "resource.tags.") eqn:H1.
    { apply HasPrefix_spec in H1 as [k ->]. rewrite resolve_tag. constructor. }
    destruct (HasPrefix key "user.") eqn:H2.
    { apply HasPrefix_spec in H2 as [r ->]. destruct (SplitN_two r) as (k & _ & _ & Hk).
      rewrite (resolve_user r k) by done. by constructor. }
    destruct (HasPrefix key "request.") eqn:H3.
    { apply HasPrefix_spec in H3 as [r ->]. destruct (SplitN_two r) as (k & _ & _ & Hk).
      rewrite (resolve_request r k) by done. by constructor. }
    assert (∀ name, key ≠ "resource.tags." +:+ name ∧ key ≠ "user." +:+ name ∧ key ≠ "request." +:+ name) as H.
    { intros name. split_and!; intros ->.
      - assert (HasPrefix ("resource.tags." +:+ name) "resource.tags." = true) by (apply HasPrefix_spec; eauto). congruence.
      - assert (HasPrefix ("user." +:+ name) "user." = true) by (apply HasPrefix_spec; eauto). congruence.
      - assert (HasPrefix ("request." +:+ name) "request." = true) by (apply HasPrefix_spec; eauto). congruence. }
    rewrite resolve_nothing by done. by constructor.
Qed.

Lemma evalOp_satisfies op actual expected : evalOp op actual expected = true ↔ satisfies actual expected op.
Proof.
  split.
  - destruct (decide (op ∈ ["equals"; "not_equals"; "starts_with"; "contains"; "in"; "not_in"])) as [Hop|Hop].
    + repeat (apply elem_of_cons in Hop as [->|Hop]); [..|by apply elem_of_nil in Hop]; cbn [evalOp]; intros H.
      * apply bool_decide_eq_true in H. by constructor.
      * apply negb_true_iff, bool_decide_eq_false in H. by constructor.
      * apply HasPrefix_spec in H as [rest H]. by econstructor.
      * apply str_contains_spec in H as (a & b & H). by econstructor.
      * destruct (unmarshal_strings expected) as [vals|] eqn:E; [|done].
        apply bool_decide_eq_true in H. by econstructor.
      * constructor. intros vals E. rewrite E in H. by apply negb_true_iff, bool_decide_eq_false in H.
    + rewrite !elem_of_cons in Hop. unfold evalOp. intros H. by repeat (case_match; simplify_eq); destruct Hop; auto 10.
  - intros [H|H|rest H|before after H|vals H1 H2|H]; cbn [evalOp].
    + by apply bool_decide_eq_true.
    + by apply negb_true_iff, bool_decide_eq_false.
    + apply HasPrefix_spec. eauto.
    + apply str_contains_spec. eauto.
    + rewrite H1. by apply bool_decide_eq_true.
    + destruct (unmarshal_strings expected) as [vals|]; [|done]. apply negb_true_iff, bool_decide_eq_false. auto.
Qed.

Lemma applicable_governs req db p : applicable req db p ↔ governs req db p.
Proof.
  unfold applicable, governs, applies. rewrite !andb_true_iff, matchResource_covers, matchAction_listed.
  destruct (unmarshal_conditions (Conditions p)) as [cs|]; [|naive_solver].
  assert (evaluateConditions cs req = true ↔
          ∀ c, c ∈ cs → ∃ actual, attribute req (Key c) actual ∧ satisfies actual (Value c) (Operator c)) as ->.
  { unfold evaluateConditions. rewrite forallb_elem. split; intros H c Hc; specialize (H c Hc).
    - exists (resolveKey (Key c) req). by rewrite resolveKey_attribute, <-evalOp_satisfies.
    - destruct H as (actual & <-%resolveKey_attribute & H). by apply evalOp_satisfies. }
  naive_solver.
Qed.

Lemma decision req db :
  ∃ r, Evaluate None req db = Ok r ∧
    ((r = default_allow ∧ ∀ p, ¬ applicable req db p) ∨
     ∃ p, r = verdict p ∧ applicable req db p ∧ ∀ q, applicable req db q → Priority p <= Priority q).
Proof.
  eexists. split; [reflexivity|].
  assert (∀ p, p ∈ by_priority (filter (λ p, Enabled p = true) db) ↔ p ∈ db ∧ Enabled p = true) as Hin.
  { intros p. rewrite by_priority_perm, list_elem_of_filter. tauto. }
  destruct (List.find _ _) as [p|] eqn:E; [right|left].
  - apply (find_first _ (λ p q, Priority p <= Priority q)) in E as (H1 & H2 & H3);
      [|apply by_priority_sorted|intros; lia].
    apply Hin in H1 as [H1 H4]. exists p. split; [done|]. split; [done|]. intros q (Hq1 & Hq2 & Hq3).
    apply H3; [by apply Hin|done].
  - split; [done|]. intros p (H1 & H2 & H3). eapply find_none_elem in E; [|by apply Hin]. congruence.
Qed.

(** C34: Among the enabled policies that govern a request (the pattern covers its
    resource, its action is listed, and each condition holds of the attribute its key
    denotes) one that no other precedes in priority decides: the request is allowed
    exactly when its effect is to allow. Without such a policy it is allowed. This
    holds for every order in which the database returns policies of one priority. *)
Theorem decision_by_priority req db :
  ∃ r, Evaluate None req db = Ok r ∧
    ((∃ p, governs req db p ∧ (∀ q, governs req db q → Priority p <= Priority q) ∧
        (Allowed r = true ↔ Effect p = "allow") ∧ MatchedPolicy r = Name p) ∨
     ((∀ p, ¬ governs req db p) ∧ Allowed r = true ∧ MatchedPolicy r = "")).
Proof.
  setoid_rewrite <-applicable_governs.
  destruct (decision req db) as (r & Hr & [[-> H]|(p & -> & Hp & Hmin)]); eexists; (split; [exact Hr|]).
  - by right.
  - left. exists p. split_and!; [done..|apply bool_decide_eq_true|done].
Qed.

Context {defaults : Defaults}.

(** A denial takes effect as soon as it is created: a request that its resource,
    its actions and its conditions meet is denied, as long as no other policy
    applies with a priority that is at least as high. *)
Theorem denial_effective id now r req db answer db' :
  handleCreate None id now (Ok r) db = ((201, answer), db') → r_Effect r = "deny" →
  matchResource (r_Resource r) (q_Resource req) = true → matchAction (r_Actions r) (q_Action req) = true →
  evaluateConditions (valid_condition <$> default [] (r_Conditions r)) req = true →
  (∀ q, applicable req db q → stored_int 100 (r_Priority r) < Priority q) →
  ∃ v, Evaluate None req db' = Ok v ∧ Allowed v = false ∧ MatchedPolicy v = r_Name r.
Proof.
  intros Hc He Hres Hact Hcond Hpri. unfold handleCreate, CreatePolicy in Hc. rewrite He in Hc.
  rewrite decide_False in Hc by (intros [_ ?]; done). destruct (_ || _); [done|]. injection Hc as _ <-.
  set (p0 := mkPolicy id _ _ _ _ _ _ _ _ _ _).
  assert (applicable req (db ++ [p0]) p0) as H0.
  { split; [apply elem_of_app; right; by left|]. split; [done|]. unfold applies, p0. cbn [Resource Actions Conditions].
    by rewrite Hres, Hact, conditions_stored. }
  destruct (decision req (db ++ [p0])) as (v & Hv & [[_ H]|(p & -> & Hp & Hmin)]); [by destruct (H p0)|].
  eexists. split; [exact Hv|]. assert (p = p0) as ->.
  { destruct Hp as (Hin & Hp). apply elem_of_app in Hin as [Hin|Hin%list_elem_of_singleton]; [|done].
    specialize (Hmin p0 H0). specialize (Hpri p ltac:(by split)). simpl in Hmin. lia. }
  split; [|done]. simpl. rewrite stored_string_spec. done.
Qed.
End theorems.

(** ** Orders *)

#[local] Instance priority_dec p q : Decision (Priority p <= Priority q) := decide (Priority p <= Priority q).

#[local] Instance priority_total : Total (λ p q, Priority p <= Priority q).
Proof. intros p q. lia. Qed.

#[local] Instance priority_trans : Transitive (λ p q, Priority p <= Priority q).
Proof. intros p q r. simpl. lia. Qed.

(** Rows of one priority in the order of the table, and in the opposite one. *)
Definition table_order : OrderBy.
Proof.
  refine {| by_priority l := merge_sort (λ p q, Priority p <= Priority q) l |}.
  - intros l. apply merge_sort_Permutation.
  - intros l. apply StronglySorted_merge_sort; apply _.
Defined.

Definition reverse_order : OrderBy.
Proof.
  refine {| by_priority l := merge_sort (λ p q, Priority p <= Priority q) (reverse l) |}.
  - intros l. rewrite merge_sort_Permutation. apply reverse_Permutation.
  - intros l. apply StronglySorted_merge_sort; apply _.
Defined.

Definition policy (id : Z) (name effect : string) : ABACPolicy :=
  mkPolicy id name "" effect "volume:*" "delete,create" "[]" 100 true 0 0.

Definition deletion : EvalRequest := mkRequest "delete" "volume:7" (<["env":="prod"]> ∅) ∅ ∅.

(** Where an allowing and a denying policy have the same priority, the decision is
    the database's: a denial does not prevail. *)
Theorem ties_undecided {unicode : UnicodeTables} {runes : RuneTables} :
  ∃ db req v1 v2,
    Evaluate (order := table_order) None req db = Ok v1 ∧ Evaluate (order := reverse_order) None req db = Ok v2 ∧
    Allowed v1 = true ∧ Allowed v2 = false.
Proof.
  exists [policy 1 "open" "allow"; policy 2 "closed" "deny"], deletion. do 2 eexists. repeat split.
Qed.

Definition env_is_prod : CreateRequest :=
  mkCreate "keep-prod" "" "deny" "volume:*" "delete" (Some [mkCondition "resource.tags.env" "equals" "prod"]) 10.

Lemma denial_effective_witness :
  ∃ v, Evaluate (unicode := ascii_only) (runes := ascii_runes) (order := table_order) None deletion
         (handleCreate (defaults := gorm_defaults) None 2 0 (Ok env_is_prod) [policy 1 "open" "allow"]).2 = Ok v
       ∧ Allowed v = false ∧ MatchedPolicy v = "keep-prod".
Proof.
  eapply (denial_effective (unicode := ascii_only) (runes := ascii_runes) (order := table_order)
            (defaults := gorm_defaults) 2 0 env_is_prod deletion [policy 1 "open" "allow"]);
    [reflexivity|reflexivity|vm_compute; reflexivity..|].
  intros q (->%list_elem_of_singleton & _). vm_compute. reflexivity.
Defined.
