(* ===== verification/RateLimit.v ===== *)
(** * Rate limiting

    A model of internal/management/ratelimit: the policies and their cache, the
    middleware that admits requests through token buckets, the adaptive scale, and
    the administration. The token bucket of golang.org/x/time/rate is an interface
    with its contract; rates are float64. [Middleware] and [getOrCreateLimiter] are
    a request that runs by itself; Module [Race] takes the steps between their locks
    apart and runs any number of requests and the cleanup in every order. *)
From Stdlib Require Import Ascii SpecFloat Sorting.
From S2P Require Import Prelude GoStrings Utf8 NetIP Http Tables GoFloat.

Local Open Scope Z_scope.

(** ** Token buckets *)

(** A rate is at most [n] tokens in [d] seconds. *)
Definition rate_le (r : float64) (n : Z) (d : positive) : Prop :=
  match r with
  | S754_zero _ => 0 <= n
  | S754_finite false m e =>
      if 0 <=? e then Zpos m * 2 ^ e * Zpos d <= n else Zpos m * Zpos d <= n * 2 ^ (- e)
  | S754_finite true _ _ => 0 <= n
  | _ => False
  end.

Lemma rate_le_nonneg r n d : rate_le r n d → 0 <= n.
Proof.
  destruct r as [s|s| |[] m e]; simpl; try done; intros H. destruct (0 <=? e) eqn:E; zbool.
  - assert (0 <= Zpos m * 2 ^ e * Zpos d) by (pose proof (Z.pow_nonneg 2 e); nia). lia.
  - assert (0 < 2 ^ (- e)) by (apply Z.pow_pos_nonneg; lia). nia.
Qed.

(** How many of the calls at the given times a bucket lets pass. *)
Fixpoint allowed {L} (allow : Z → L → bool * L) (l : L) (ts : list Z) : Z :=
  match ts with
  | [] => 0
  | t :: ts => let (ok, l) := allow t l in (if ok : bool then 1 else 0) + allowed allow l ts
  end.

(** The bucket is full at first, and over a period it admits at most its size and
    what flows in; times are in nanoseconds. *)
Class Limiters := {
  limiter : Type;
  NewLimiter : float64 → Z → limiter;
  Allow : Z → limiter → bool * limiter;
  Burst : limiter → Z;
  Tokens : Z → limiter → float64;
  Burst_New r b : Burst (NewLimiter r b) = b;
  Burst_Allow now l : Burst (Allow now l).2 = Burst l;
  Allow_initial r b ts :
    Sorted Z.le ts → Z.of_nat (length ts) <= b → allowed Allow (NewLimiter r b) ts = Z.of_nat (length ts);
  Allow_bounded r b n d ts t0 elapsed :
    0 <= b → 0 <= elapsed → rate_le r n d → Sorted Z.le ts → Forall (λ t, t0 <= t <= t0 + elapsed) ts →
    allowed Allow (NewLimiter r b) ts * Zpos d * second <= b * Zpos d * second + n * elapsed
}.

(** ** Data *)

Record RateLimitPolicy := mkPolicy {
  ID : Z; Name : string; Description : string; Scope : string; ScopeID : string; RequestsPerMin : Z; BurstSize : Z;
  Enabled : bool; Priority : Z; CreatedAt : Z; UpdatedAt : Z; Deleted : bool
}.

Record RateLimitEvent := mkEvent {
  e_ID : Z; e_PolicyID : Z; e_PolicyName : string; e_Scope : string; e_ScopeID : string; e_ClientIP : string;
  e_Path : string; e_Method : string; e_UserID : string; e_TenantID : string; e_CreatedAt : Z
}.

Record AdaptiveConfig := mkAdaptive {
  a_Enabled : bool; CPUThreshold : float64; LatencyThreshold : Z; ScaleDownFactor : float64;
  ScaleUpFactor : float64; CooldownSeconds : Z
}.

Definition omitempty (k v : string) : list (string * json) := if decide (v = "") then [] else [(k, JStr v)].

Definition policy_json (p : RateLimitPolicy) : json := JObj (
  [("id", JNum (ID p)); ("name", JStr (Name p))] ++ omitempty "description" (Description p) ++
  [("scope", JStr (Scope p)); ("scope_id", JStr (ScopeID p)); ("requests_per_min", JNum (RequestsPerMin p));
   ("burst_size", JNum (BurstSize p)); ("enabled", JBool (Enabled p)); ("priority", JNum (Priority p));
   ("created_at", JTime (CreatedAt p)); ("updated_at", JTime (UpdatedAt p))]).

Definition event_json (e : RateLimitEvent) : json := JObj (
  [("id", JNum (e_ID e)); ("policy_id", JNum (e_PolicyID e)); ("policy_name", JStr (e_PolicyName e));
   ("scope", JStr (e_Scope e)); ("scope_id", JStr (e_ScopeID e)); ("client_ip", JStr (e_ClientIP e));
   ("path", JStr (e_Path e)); ("method", JStr (e_Method e))]
  ++ omitempty "user_id" (e_UserID e) ++ omitempty "tenant_id" (e_TenantID e)
  ++ [("created_at", JTime (e_CreatedAt e))]).

Definition adaptive_json (a : AdaptiveConfig) : json := JObj
  [("enabled", JBool (a_Enabled a)); ("cpu_threshold", JFloat (CPUThreshold a));
   ("latency_threshold", JNum (LatencyThreshold a)); ("scale_down_factor", JFloat (ScaleDownFactor a));
   ("scale_up_factor", JFloat (ScaleUpFactor a)); ("cooldown_seconds", JNum (CooldownSeconds a))].

(** ** Matching *)

Definition matchGlob (pattern path : string) : bool :=
  if decide (pattern = "*") then true
  else if HasSuffix pattern "/*" then
    let prefix := TrimSuffix pattern "/*" in HasPrefix path (prefix +:+ "/") || bool_decide (path = prefix)
  else bool_decide (pattern = path).

Definition matchPath (pattern path method : string) : bool :=
  if HasPrefix pattern "WRITE:" then
    bool_decide (method ∈ ["POST"; "PUT"; "PATCH"; "DELETE"]) && matchGlob (TrimPrefix pattern "WRITE:") path
  else if HasPrefix pattern "READ:" then
    bool_decide (method ∈ ["GET"; "HEAD"]) && matchGlob (TrimPrefix pattern "READ:") path
  else matchGlob pattern path.

(** What the middleware takes from a request; the identity is printed with %v, and
    empty where the context has none. *)
Record Request := mkRequest { ClientIP : string; Path : string; Method : string; UserID : string; TenantID : string }.

(** The cases of the switch in [findMatchingPolicy]. *)
Definition covers (r : Request) (p : RateLimitPolicy) : bool :=
  match Scope p with
  | "user" => negb (bool_decide (UserID r = "")) && (bool_decide (ScopeID p = UserID r) || bool_decide (ScopeID p = "*"))
  | "tenant" => negb (bool_decide (TenantID r = "")) && (bool_decide (ScopeID p = TenantID r) || bool_decide (ScopeID p = "*"))
  | "path" => matchPath (ScopeID p) (Path r) (Method r)
  | "global" => true
  | _ => false
  end.

Definition findMatchingPolicy (policies : list RateLimitPolicy) (r : Request) : option RateLimitPolicy :=
  List.find (covers r) policies.

(** Whom a bucket belongs to, without the number of the policy. *)
Definition subject (p : RateLimitPolicy) (r : Request) : string :=
  match Scope p with
  | "user" => if decide (UserID r ≠ "") then "user:" +:+ UserID r else "ip:" +:+ ClientIP r
  | "tenant" => if decide (TenantID r ≠ "") then "tenant:" +:+ TenantID r else "ip:" +:+ ClientIP r
  | "path" => if decide (UserID r ≠ "") then "path-user:" +:+ UserID r else "path-ip:" +:+ ClientIP r
  | _ => "global:" +:+ ClientIP r
  end.

Definition buildLimiterKey (p : RateLimitPolicy) (r : Request) : string := subject p r +:+ ":" +:+ Itoa (ID p).

(** ** The service *)

Section service.
Context {buckets : Limiters} {defaults : Defaults} {runes : RuneTables}.

(** [ORDER BY priority DESC] of the database, which leaves rows of one priority in
    any order. *)
Class Descending := {
  by_priority : list RateLimitPolicy → list RateLimitPolicy;
  by_priority_perm l : by_priority l ≡ₚ l;
  by_priority_sorted l : StronglySorted (λ p q, Priority q <= Priority p) (by_priority l)
}.

Context {descending : Descending}.

Record limiterEntry := mkEntry { limiter_ : limiter; lastSeen : Z; policyID : Z }.

(** The fields of the service and its two tables; the time of the last adaptation
    is [None] before the first one. *)
Record State := mkState {
  limiters : gmap string limiterEntry; policies : list RateLimitPolicy; adaptive : AdaptiveConfig;
  adaptiveScale : float64; adaptiveUpdate : option Z; totalRequests : Z; blockedRequests : Z;
  table : list RateLimitPolicy; events : list RateLimitEvent
}.

Definition set_limiters (m : gmap string limiterEntry) (s : State) : State :=
  mkState m (policies s) (adaptive s) (adaptiveScale s) (adaptiveUpdate s) (totalRequests s) (blockedRequests s)
    (table s) (events s).
Definition set_policies (l : list RateLimitPolicy) (s : State) : State :=
  mkState (limiters s) l (adaptive s) (adaptiveScale s) (adaptiveUpdate s) (totalRequests s) (blockedRequests s)
    (table s) (events s).
Definition set_scale (a : AdaptiveConfig) (scale : float64) (update : option Z) (s : State) : State :=
  mkState (limiters s) (policies s) a scale update (totalRequests s) (blockedRequests s) (table s) (events s).
(** One more request, or one more that was blocked. *)
Definition count_request (blocked : Z) (s : State) : State :=
  mkState (limiters s) (policies s) (adaptive s) (adaptiveScale s) (adaptiveUpdate s) (wrap64 (totalRequests s + (1 - blocked)))
    (wrap64 (blockedRequests s + blocked)) (table s) (events s).
Definition set_table (l : list RateLimitPolicy) (s : State) : State :=
  mkState (limiters s) (policies s) (adaptive s) (adaptiveScale s) (adaptiveUpdate s) (totalRequests s) (blockedRequests s)
    l (events s).
Definition add_event (e : RateLimitEvent) (s : State) : State :=
  mkState (limiters s) (policies s) (adaptive s) (adaptiveScale s) (adaptiveUpdate s) (totalRequests s) (blockedRequests s)
    (table s) (events s ++ [e]).

Definition live (l : list RateLimitPolicy) : list RateLimitPolicy := filter (λ p, Deleted p = false) l.

(** The cache is replaced also where the query fails, and is then empty. *)
Definition refreshPolicies (ok : bool) (s : State) : State :=
  set_policies (if ok then by_priority (filter (λ p, Enabled p = true) (live (table s))) else []) s.

(** An insertion: the names are unique among all rows, deleted ones included. *)
Definition create (ok : bool) (p : RateLimitPolicy) (s : State) : option (RateLimitPolicy * State) :=
  if negb ok || existsb (λ q, bool_decide (Name q = Name p) || (ID q =? ID p)) (table s) then None
  else
    let p := mkPolicy (ID p) (Name p) (Description p) (Scope p) (ScopeID p) (RequestsPerMin p) (BurstSize p)
               (stored_bool true (Enabled p)) (Priority p) (CreatedAt p) (UpdatedAt p) false in
    Some (p, set_table (table s ++ [p]) s).

Definition default_policies (id : nat → Z) (now : Z) : list RateLimitPolicy :=
  [mkPolicy (id 0%nat) "global-default" "Global default rate limit" "global" "*" 600 100 true 0 now now false;
   mkPolicy (id 1%nat) "auth-endpoints" "Auth endpoints (brute-force protection)" "path" "/api/v1/auth/*" 30 10 true 100
     now now false;
   mkPolicy (id 2%nat) "write-heavy" "Write endpoints (POST/PUT/DELETE)" "path" "WRITE:*" 120 30 true 50 now now false].

Definition seedDefaults (ok : bool) (id : nat → Z) (now : Z) (s : State) : State :=
  foldl (λ s p, match create ok p s with Some (_, s) => s | None => s end) s (default_policies id now).

Definition default_adaptive : AdaptiveConfig :=
  mkAdaptive false (of_Z 80) 1000 (of_ratio 5 10) (of_ratio 12 10) 30.

(** A start on the given tables, without the loops in the background. *)
Definition NewService (reads writes : bool) (id : nat → Z) (now : Z) (rows : list RateLimitPolicy)
    (evs : list RateLimitEvent) : State :=
  let s := mkState ∅ [] default_adaptive (of_Z 1) None 0 0 rows evs in
  let n := if reads then length (live rows) else 0%nat in
  refreshPolicies reads (if decide (n = 0%nat) then seedDefaults writes id now s else s).

(** A round of [cleanupLoop]. *)
Definition cleanup (now : Z) (s : State) : State :=
  set_limiters (filter (λ kv, time_sub now (lastSeen kv.2) <= 5 * minute) (limiters s)) s.

(** ** The middleware *)

(** The rate and the size of a new bucket. *)
Definition bucket_rate (scale : float64) (p : RateLimitPolicy) : float64 :=
  fdiv (fmul (of_Z (RequestsPerMin p)) scale) (of_Z 60).

Definition bucket_size (scale : float64) (p : RateLimitPolicy) : Z :=
  let burst := to_int (fmul (of_Z (BurstSize p)) scale) in if burst <? 1 then 1 else burst.

Definition new_bucket (scale : float64) (p : RateLimitPolicy) : limiter :=
  NewLimiter (bucket_rate scale p) (bucket_size scale p).

(** The entry that the caller goes on with is the one in the map. *)
Definition add_limiter (now : Z) (key : string) (p : RateLimitPolicy) (s : State) : limiter * State :=
  let l := new_bucket (adaptiveScale s) p in
  (l, set_limiters (<[key := mkEntry l now (ID p)]> (limiters s)) s).

(** A call that no other one interrupts; [Race.advance] has its steps. *)
Definition getOrCreateLimiter (now : Z) (key : string) (p : RateLimitPolicy) (s : State) : limiter * State :=
  match limiters s !! key with
  | Some e => (limiter_ e, set_limiters (<[key := mkEntry (limiter_ e) now (policyID e)]> (limiters s)) s)
  | None => add_limiter now key p s
  end.

(** The headers of [setRateLimitHeaders]. *)
Definition rateLimitHeaders (now : Z) (scale : float64) (p : RateLimitPolicy) (l : limiter) : list (string * string) :=
  let remaining := to_int (fmax (of_Z 0) (fsub (of_Z (Burst l)) (Tokens now l))) in
  [("X-RateLimit-Limit", Itoa (to_int (fmul (of_Z (RequestsPerMin p)) scale)));
   ("X-RateLimit-Remaining", Itoa (to_int (fmax (of_Z 0) (fsub (of_Z (Burst l)) (of_Z remaining)))));
   ("X-RateLimit-Reset", Itoa ((now + minute) / second));
   ("X-RateLimit-Policy", Name p)].

Definition calculateRetryAfter (p : RateLimitPolicy) : Z :=
  if RequestsPerMin p <=? 0 then 60 else to_int (fdiv (of_Z 60) (of_Z (RequestsPerMin p))) + 1.

(** [logEvent], which runs on its own; [ok] says whether the row is stored. *)
Definition logEvent (ok : bool) (id now : Z) (p : RateLimitPolicy) (r : Request) (s : State) : State :=
  if ok then
    add_event (mkEvent id (ID p) (Name p) (Scope p) (ScopeID p) (ClientIP r) (Path r) (Method r) (UserID r)
                 (TenantID r) now) s
  else s.

(** The headers that are set, and the answer if the request is refused. *)
Definition Middleware (ok : bool) (id now : Z) (r : Request) (s : State) : list (string * string) * option response * State :=
  let s := count_request 0 s in
  match findMatchingPolicy (policies s) r with
  | None => ([], None, s)
  | Some p =>
      let key := buildLimiterKey p r in
      let '(l, s) := getOrCreateLimiter now key p s in
      let '(pass, l) := Allow now l in
      let s := set_limiters (alter (λ e, mkEntry l (lastSeen e) (policyID e)) key (limiters s)) s in
      let headers := rateLimitHeaders now (adaptiveScale s) p l in
      if pass : bool then (headers, None, s)
      else
        let s := logEvent ok id now p r (count_request 1 s) in
        let retryAfter := calculateRetryAfter p in
        (headers ++ [("Retry-After", Itoa retryAfter)],
         Some (429, JObj [("error", JStr "rate limit exceeded"); ("policy", JStr (Name p));
                          ("retry_after", JNum retryAfter)]), s)
  end.

(** ** Administration *)

Definition invalidated (scope key : string) : bool :=
  bool_decide (scope = "") || HasPrefix key (scope +:+ ":") || HasPrefix key "path-" || HasPrefix key "global:".

Definition invalidateLimiters (scope : string) (s : State) : State :=
  set_limiters (filter (λ kv, invalidated scope kv.1 = false) (limiters s)) s.

Definition safePercent (a b : Z) : float64 :=
  if b =? 0 then of_Z 0
  else fdiv (fround (fmul (fdiv (of_Z a) (of_Z b)) (of_Z 10000))) (of_Z 100).

Definition getStatus (ok : bool) (s : State) : response :=
  (200, JObj [("status", JStr "active"); ("total_requests", JNum (totalRequests s));
              ("blocked_requests", JNum (blockedRequests s));
              ("block_rate", JFloat (safePercent (blockedRequests s) (totalRequests s)));
              ("active_limiters", JNum (Z.of_nat (size (limiters s))));
              ("active_policies", JNum (Z.of_nat (length (policies s))));
              ("total_violations", JNum (if ok then Z.of_nat (length (events s)) else 0));
              ("adaptive", JObj [("enabled", JBool (a_Enabled (adaptive s)));
                                 ("current_scale", JFloat (adaptiveScale s))])]).

Definition matching (v field : string) : Prop := v = "" ∨ field = v.

Definition listPolicies (fail : option string) (scope : string) (s : State) : response :=
  match fail with
  | Some e => error 500 e
  | None =>
      let l := by_priority (filter (λ p, matching scope (Scope p)) (live (table s))) in
      (200, JObj [("policies", JList (policy_json <$> l)); ("total", JNum (Z.of_nat (length l)))])
  end.

Record CreateRequest := mkCreate {
  r_Name : string; r_Description : string; r_Scope : string; r_ScopeID : string; r_RequestsPerMin : Z;
  r_BurstSize : Z; r_Priority : Z
}.

Definition burst_of (r : CreateRequest) : Z :=
  if r_BurstSize r =? 0 then Z.max 1 (Z.quot (r_RequestsPerMin r) 6) else r_BurstSize r.

Definition find_policy (ok : bool) (id : Z) (s : State) : option RateLimitPolicy :=
  if ok then row_with ID id (live (table s)) else None.

Definition createPolicy (reads writes : bool) (e : string) (id now : Z) (req : result string CreateRequest) (s : State)
    : response * State :=
  match req with
  | Err e => (error 400 e, s)
  | Ok r =>
      if negb (bool_decide (r_Scope r ∈ ["global"; "tenant"; "user"; "path"])) then
        (error 400 "scope must be: global, tenant, user, or path", s)
      else if r_RequestsPerMin r <? 1 then (error 400 "requests_per_min must be >= 1", s)
      else if reads && existsb (λ p, bool_decide (Name p = r_Name r)) (live (table s)) then
        (error 409 ("policy " +:+ Quote (r_Name r) +:+ " already exists"), s)
      else
        match create writes (mkPolicy id (r_Name r) (r_Description r) (r_Scope r) (r_ScopeID r) (r_RequestsPerMin r)
                               (burst_of r) true (r_Priority r) now now false) s with
        | None => (error 500 e, s)
        | Some (p, s) =>
            ((201, JObj [("policy", policy_json p)]), refreshPolicies reads (invalidateLimiters (Scope p) s))
        end
  end.

Definition getPolicy (ok : bool) (param : string) (s : State) : response :=
  let id := int_param param in
  match find_policy ok id s with
  | None => error 404 "policy not found"
  | Some p =>
      (200, JObj [("policy", policy_json p);
                  ("violations", JNum (Z.of_nat (length (filter (λ e, e_PolicyID e = id) (events s)))))])
  end.

Record UpdateRequest := mkUpdate {
  u_Description : option string; u_RequestsPerMin : option Z; u_BurstSize : option Z; u_Priority : option Z;
  u_Enabled : option bool
}.

Definition updated (u : UpdateRequest) (now : Z) (p : RateLimitPolicy) : RateLimitPolicy :=
  mkPolicy (ID p) (Name p) (default (Description p) (u_Description u)) (Scope p) (ScopeID p)
    (default (RequestsPerMin p) (u_RequestsPerMin u)) (default (BurstSize p) (u_BurstSize u))
    (default (Enabled p) (u_Enabled u)) (default (Priority p) (u_Priority u)) (CreatedAt p) now (Deleted p).

(** The write is not looked at; the answer is the row as it is read again, or as it
    was to be written. *)
Definition updatePolicy (reads writes : bool) (param : string) (now : Z) (req : result string UpdateRequest) (s : State)
    : response * State :=
  let id := int_param param in
  match find_policy reads id s with
  | None => (error 404 "policy not found", s)
  | Some p =>
      match req with
      | Err e => (error 400 e, s)
      | Ok u =>
          if match u_RequestsPerMin u with Some n => n <? 1 | None => false end then
            (error 400 "requests_per_min must be >= 1", s)
          else
            let s := if writes then set_table (on_row ID id (updated u now) (table s)) s else s in
            let s := refreshPolicies reads (invalidateLimiters (Scope p) s) in
            ((200, JObj [("policy", policy_json (default (updated u now p) (find_policy reads id s)))]), s)
      end
  end.

Definition removed (p : RateLimitPolicy) : RateLimitPolicy :=
  mkPolicy (ID p) (Name p) (Description p) (Scope p) (ScopeID p) (RequestsPerMin p) (BurstSize p) (Enabled p)
    (Priority p) (CreatedAt p) (UpdatedAt p) true.

Definition deletePolicy (reads writes : bool) (param : string) (s : State) : response * State :=
  let id := int_param param in
  match find_policy reads id s with
  | None => (error 404 "policy not found", s)
  | Some p =>
      let s := if writes then set_table (on_row ID id removed (table s)) s else s in
      (message 200 "policy deleted", refreshPolicies reads (invalidateLimiters (Scope p) s))
  end.

Definition newest (a b : RateLimitEvent) : Prop := e_CreatedAt b <= e_CreatedAt a.

#[local] Instance newest_dec a b : Decision (newest a b) := decide (e_CreatedAt b <= e_CreatedAt a).

(** Events of one instant come in the order of the table. *)
Definition listEvents (fail : option string) (scope tenantID userID ip : string) (s : State) : response :=
  match fail with
  | Some e => error 500 e
  | None =>
      let l := filter (λ e, matching scope (e_Scope e) ∧ matching tenantID (e_TenantID e)
                            ∧ matching userID (e_UserID e) ∧ matching ip (e_ClientIP e)) (events s) in
      let l := take 100 (merge_sort newest l) in
      (200, JObj [("events", JList (event_json <$> l)); ("total", JNum (Z.of_nat (length l)))])
  end.

(** [GROUP BY key]: the keys with the number of their rows. *)
Definition groups {K} `{EqDecision K} (key : RateLimitEvent → K) (l : list RateLimitEvent) : list (K * Z) :=
  (λ k, (k, Z.of_nat (length (filter (λ e, key e = k) l)))) <$> remove_dups (key <$> l).

Definition more {K} (a b : K * Z) : Prop := b.2 <= a.2.

#[local] Instance more_dec {K} (a b : K * Z) : Decision (more a b) := decide (b.2 <= a.2).

(** The ten largest groups; a query that fails leaves a nil slice. *)
Definition top (ok : bool) (name : string) (key : RateLimitEvent → string) (l : list RateLimitEvent) : json :=
  if ok then
    JList ((λ g, JObj [(name, JStr g.1); ("count", JNum g.2)]) <$> take 10 (merge_sort more (groups key l)))
  else JNull.

Definition hour_before (a b : Z * Z) : Prop := a.1 <= b.1.

#[local] Instance hour_before_dec a b : Decision (hour_before a b) := decide (a.1 <= b.1).

(** [zone] is the offset of the database's time zone, in seconds. *)
Definition getEventStats (ok : bool) (now zone : Z) (s : State) : response :=
  let recent := filter (λ e, now - 24 * hour < e_CreatedAt e) (events s) in
  let hour_of e := (e_CreatedAt e / second + zone) / 3600 mod 24 in
  (200, JObj [("period", JStr "24h"); ("total", JNum (if ok then Z.of_nat (length recent) else 0));
              ("by_tenant", top ok "tenant_id" e_TenantID (filter (λ e, e_TenantID e ≠ "") recent));
              ("by_ip", top ok "client_ip" e_ClientIP recent);
              ("by_policy", top ok "policy_name" e_PolicyName recent);
              ("by_hour", if ok then JList ((λ g, JObj [("hour", JNum g.1); ("count", JNum g.2)])
                                              <$> merge_sort hour_before (groups hour_of recent)) else JNull)]).

(** ** Adaptation *)

Definition getAdaptive (s : State) : response :=
  (200, JObj [("config", adaptive_json (adaptive s)); ("current_scale", JFloat (adaptiveScale s));
              ("last_update", JOpt JTime (adaptiveUpdate s))]).

Definition updateAdaptive (req : result string AdaptiveConfig) (s : State) : response * State :=
  match req with
  | Err e => (error 400 e, s)
  | Ok req =>
      if fleb (ScaleDownFactor req) (of_Z 0) || fleb (of_Z 1) (ScaleDownFactor req) then
        (error 400 "scale_down_factor must be in (0, 1)", s)
      else if fleb (ScaleUpFactor req) (of_Z 1) || fltb (of_Z 5) (ScaleUpFactor req) then
        (error 400 "scale_up_factor must be in (1, 5]", s)
      else
        let s := if a_Enabled req then invalidateLimiters "" (set_scale req (of_Z 1) (adaptiveUpdate s) s)
                 else set_scale req (adaptiveScale s) (adaptiveUpdate s) s in
        ((200, JObj [("config", adaptive_json (adaptive s)); ("current_scale", JFloat (adaptiveScale s))]), s)
  end.

(** The scale that the load asks for. *)
Definition next_scale (a : AdaptiveConfig) (scale cpuPercent : float64) (avgLatencyMs : Z) : float64 :=
  if fltb (CPUThreshold a) cpuPercent || (LatencyThreshold a <? avgLatencyMs) then
    let scale := fmul scale (ScaleDownFactor a) in
    if fltb scale (of_ratio 1 10) then of_ratio 1 10 else scale
  else if fltb cpuPercent (fmul (CPUThreshold a) (of_ratio 7 10)) && (avgLatencyMs <? Z.quot (LatencyThreshold a) 2) then
    let scale := fmul scale (ScaleUpFactor a) in
    if fltb (of_Z 1) scale then of_Z 1 else scale
  else scale.

Definition since (now : Z) (t : option Z) : Z := match t with Some t => time_sub now t | None => 2 ^ 63 - 1 end.

Definition UpdateAdaptiveMetrics (cpuPercent : float64) (avgLatencyMs now : Z) (s : State) : State :=
  let a := adaptive s in
  if negb (a_Enabled a) then s
  else if since now (adaptiveUpdate s) <? wrap64 (CooldownSeconds a * second) then s
  else
    let newScale := next_scale a (adaptiveScale s) cpuPercent avgLatencyMs in
    if feqb newScale (adaptiveScale s) then s
    else invalidateLimiters "" (set_scale a newScale (Some now) s).
End service.

(** ** Keys *)

Fixpoint no_colon (s : string) : bool :=
  match s with EmptyString => true | String c s => negb (bool_decide (c = ":"%char)) && no_colon s end.

Lemma colon_inside a x : no_colon (a +:+ String ":" x) = false.
Proof. induction a as [|c a IH]; [done|]. rewrite str_app_cons. cbn [no_colon]. by rewrite IH, andb_false_r. Qed.

Lemma last_colon a b x y :
  no_colon x = true → no_colon y = true → a +:+ String ":" x = b +:+ String ":" y → a = b ∧ x = y.
Proof.
  intros Hx Hy. revert b. induction a as [|c a IH]; intros [|d b] E;
    rewrite ?str_app_cons, ?str_app_nil_l in E; injection E.
  - by intros ->.
  - intros -> _. by rewrite colon_inside in Hx.
  - intros <- _. by rewrite colon_inside in Hy.
  - intros E' ->. by destruct (IH _ E') as [-> ->].
Qed.

Lemma digit_char_no_colon d : 0 <= d < 10 → digit_char d ≠ ":"%char.
Proof.
  intros Hd E. pose proof (digit_digit_char d Hd) as H. rewrite E in H. discriminate.
Qed.

Lemma digits_no_colon fuel n acc : 0 <= n → no_colon acc = true → no_colon (digits 10 fuel n acc) = true.
Proof.
  revert n acc. induction fuel as [|fuel IH]; intros n acc Hn Ha; [done|]. cbn [digits].
  assert (no_colon (String (digit_char (n mod 10)) acc) = true) as Hd.
  { cbn [no_colon]. rewrite bool_decide_eq_false_2; [done|]. apply digit_char_no_colon, Z.mod_pos_bound. lia. }
  case_match; [done|]. apply IH; [apply Z.div_pos; lia|done].
Qed.

Lemma Itoa_no_colon n : no_colon (Itoa n) = true.
Proof. unfold Itoa. case_match; [cbn [no_colon]|]; apply digits_no_colon; done || lia. Qed.

Definition id_ok (p : RateLimitPolicy) : Prop := 0 <= ID p < 2 ^ 63.

Lemma key_policy p q r r' : id_ok p → id_ok q → buildLimiterKey p r = buildLimiterKey q r' → ID p = ID q.
Proof.
  unfold id_ok. intros Hp Hq E. apply last_colon in E as [_ E]; [|apply Itoa_no_colon..].
  apply (f_equal ParseInt) in E. rewrite !ParseInt_Itoa in E by lia. congruence.
Qed.

(** ** Admission *)

Section admission.
Context {buckets : Limiters} {descending : Descending}.

(** A request that arrives, or a round of the cleanup; with the number of the event
    and whether it is stored. *)
Inductive op :=
| Arrive (ok : bool) (id now : Z) (r : Request)
| Clean (now : Z).

Definition time_of (o : op) : Z := match o with Arrive _ _ now _ | Clean now => now end.

Definition serve (o : op) (s : State) : State :=
  match o with
  | Arrive ok id now r => (Middleware ok id now r s).2
  | Clean now => cleanup now s
  end.

Definition key_of (s : State) (r : Request) : option string :=
  (λ p, buildLimiterKey p r) <$> findMatchingPolicy (policies s) r.

(** How many requests with the given key are let through. *)
Fixpoint admitted (key : string) (os : list op) (s : State) : Z :=
  match os with
  | [] => 0
  | o :: os =>
      match o with
      | Arrive ok id now r =>
          if decide (key_of s r = Some key ∧ (Middleware ok id now r s).1.2 = None) then 1 else 0
      | Clean _ => 0
      end + admitted key os (serve o s)
  end.

(** The times of the requests with the given key. *)
Definition arrivals (key : string) (s : State) (os : list op) : list Z :=
  omap (λ o, match o with
             | Arrive _ _ now r => if decide (key_of s r = Some key) then Some now else None
             | Clean _ => None
             end) os.

Lemma middleware_same ok id now r s :
  policies (Middleware ok id now r s).2 = policies s ∧ adaptiveScale (Middleware ok id now r s).2 = adaptiveScale s.
Proof.
  unfold Middleware. destruct (findMatchingPolicy _ r) as [p|]; [|done].
  destruct (getOrCreateLimiter now (buildLimiterKey p r) p (count_request 0 s)) as [l s1] eqn:E.
  assert (policies s1 = policies s ∧ adaptiveScale s1 = adaptiveScale s) as H.
  { unfold getOrCreateLimiter, add_limiter in E. destruct (_ !! _); by injection E as _ <-. }
  destruct (Allow now l) as [[] l']; [done|]. unfold logEvent. by destruct ok.
Qed.

Lemma serve_same o s : policies (serve o s) = policies s ∧ adaptiveScale (serve o s) = adaptiveScale s.
Proof. destruct o; [apply middleware_same|done]. Qed.

Lemma key_of_same s s' r : policies s' = policies s → key_of s' r = key_of s r.
Proof. unfold key_of. by intros ->. Qed.

(** A request under another key leaves a bucket alone. *)
Lemma middleware_other ok id now r s key :
  key_of s r ≠ Some key → limiters (Middleware ok id now r s).2 !! key = limiters s !! key.
Proof.
  unfold key_of, Middleware. intros Hk. change (policies (count_request 0 s)) with (policies s).
  destruct (findMatchingPolicy (policies s) r) as [p|]; [|done]. simpl in Hk.
  assert (buildLimiterKey p r ≠ key) as Hne by congruence.
  destruct (getOrCreateLimiter now (buildLimiterKey p r) p (count_request 0 s)) as [l s1] eqn:E.
  assert (limiters s1 !! key = limiters s !! key) as H.
  { unfold getOrCreateLimiter, add_limiter in E. destruct (_ !! _); injection E as _ <-; simpl; by rewrite lookup_insert_ne. }
  destruct (Allow now l) as [[] l']; simpl.
  - by rewrite lookup_alter_ne.
  - unfold logEvent. destruct ok; simpl; by rewrite lookup_alter_ne.
Qed.

Definition bucket (s : State) (key : string) (p : RateLimitPolicy) : limiter :=
  match limiters s !! key with Some e => limiter_ e | None => new_bucket (adaptiveScale s) p end.

(** A request under a key takes a token from its bucket. *)
Lemma middleware_own ok id now r s p :
  findMatchingPolicy (policies s) r = Some p →
  let key := buildLimiterKey p r in
  ((Middleware ok id now r s).1.2 = None ↔ (Allow now (bucket s key p)).1 = true) ∧
  ∃ pid, limiters (Middleware ok id now r s).2 !! key = Some (mkEntry (Allow now (bucket s key p)).2 now pid).
Proof.
  intros Hp key. unfold Middleware. change (policies (count_request 0 s)) with (policies s). rewrite Hp. fold key.
  destruct (getOrCreateLimiter now key p (count_request 0 s)) as [l s1] eqn:E.
  assert (l = bucket s key p ∧ ∃ pid, limiters s1 !! key = Some (mkEntry l now pid)) as [-> [pid Hl]].
  { unfold getOrCreateLimiter, add_limiter, bucket in *. change (limiters (count_request 0 s)) with (limiters s) in E.
    destruct (limiters s !! key) as [e|]; injection E as <- <-; simpl; (split; [done|]);
      eexists; by rewrite lookup_insert_eq. }
  destruct (Allow now (bucket s key p)) as [[] l'].
  - split; [done|]. exists pid. simpl. by rewrite lookup_alter_eq, Hl.
  - split; [done|]. exists pid. unfold logEvent. destruct ok; simpl; by rewrite lookup_alter_eq, Hl.
Qed.

Lemma arrivals_same key s s' os : policies s' = policies s → arrivals key s' os = arrivals key s os.
Proof.
  intros E. unfold arrivals. induction os as [|[ok id now r|now] os IH]; cbn [omap list_omap]; [done| |done].
  by rewrite (key_of_same s s'), IH.
Qed.

Lemma arrivals_cons key s o os :
  arrivals key s (o :: os) =
  match o with
  | Arrive _ _ now r => if decide (key_of s r = Some key) then now :: arrivals key s os else arrivals key s os
  | Clean _ => arrivals key s os
  end.
Proof. unfold arrivals. destruct o; cbn [omap list_omap]; [|done]. by case_decide. Qed.

(** The policies that are in force have distinct numbers. *)
Definition numbered (s : State) : Prop := NoDup (ID <$> policies s) ∧ Forall id_ok (policies s).

Lemma key_of_policy s r p r0 :
  numbered s → p ∈ policies s → key_of s r = Some (buildLimiterKey p r0) →
  findMatchingPolicy (policies s) r = Some p ∧ buildLimiterKey p r = buildLimiterKey p r0.
Proof.
  intros [Hnd Hok] Hp. unfold key_of. destruct (findMatchingPolicy _ r) as [q|] eqn:E; [|done]. simpl. intros [= Ek].
  apply find_elem in E as [Hq _]. rewrite list.Forall_forall in Hok.
  assert (q = p) as -> by (apply (nodup_key ID (policies s)); auto; by eapply key_policy; auto). done.
Qed.

Definition within (t0 elapsed t : Z) : Prop := t0 <= t <= t0 + elapsed.

Lemma time_sub_within t0 now t : within t0 (5 * minute) now → within t0 (5 * minute) t → time_sub now t <= 5 * minute.
Proof. unfold within, time_sub, min_duration, max_duration, minute, second. intros. lia. Qed.

Lemma cleanup_kept now s key t0 :
  within t0 (5 * minute) now → (∀ e, limiters s !! key = Some e → within t0 (5 * minute) (lastSeen e)) →
  limiters (cleanup now s) !! key = limiters s !! key.
Proof.
  intros Hn Hs. simpl. destruct (limiters s !! key) as [e|] eqn:E.
  - apply map_lookup_filter_Some. split; [done|]. by apply (time_sub_within t0); [|apply Hs].
  - apply map_lookup_filter_None. by left.
Qed.

Lemma admitted_allowed p r0 os s t0 :
  let key := buildLimiterKey p r0 in
  numbered s → p ∈ policies s → Forall (λ o, within t0 (5 * minute) (time_of o)) os →
  (∀ e, limiters s !! key = Some e → within t0 (5 * minute) (lastSeen e)) →
  admitted key os s = allowed Allow (bucket s key p) (arrivals key s os).
Proof.
  intros key Hnum Hp Hos. revert s Hnum Hp. induction Hos as [|o os Ho Hos IH]; intros s Hnum Hp Hs; [done|].
  destruct (serve_same o s) as [Ep Es]. cbn [admitted].
  assert (numbered (serve o s) ∧ p ∈ policies (serve o s)) as [Hnum' Hp'] by (unfold numbered; by rewrite Ep).
  assert (∀ t, allowed Allow t (arrivals key (serve o s) os) = allowed Allow t (arrivals key s os)) as Ea
    by (intros; by rewrite (arrivals_same key s)).
  rewrite arrivals_cons. destruct o as [ok id now r|now]; cbn [serve time_of] in *.
  - destruct (decide (key_of s r = Some key)) as [Hk|Hk].
    + destruct (key_of_policy s r p r0 Hnum Hp Hk) as [Hf Er].
      destruct (middleware_own ok id now r s p Hf) as [Hpass [pid Hl]]. rewrite Er in Hpass, Hl. fold key in Hpass, Hl.
      rewrite IH; [|done..|intros e He; rewrite Hl in He; by injection He as <-].
      rewrite Ea. unfold bucket at 1. rewrite Hl. cbn [allowed limiter_].
      destruct (Allow now (bucket s key p)) as [[] l]; simpl in Hpass |- *.
      * rewrite decide_True by (split; [done|]; by apply Hpass). done.
      * rewrite decide_False; [done|]. intros [_ H]. by apply Hpass in H.
    + pose proof (middleware_other ok id now r s key Hk) as Hl.
      rewrite decide_False by tauto. rewrite IH; [|done..|intros e He; rewrite Hl in He; auto].
      rewrite Ea. unfold bucket. by rewrite Hl, Es.
  - pose proof (cleanup_kept now s key t0 Ho Hs) as Hl.
    rewrite IH; [|done..|intros e He; rewrite Hl in He; auto]. rewrite Ea. unfold bucket. by rewrite Hl.
Qed.

Lemma arrivals_sorted key s os : Sorted Z.le (time_of <$> os) → Sorted Z.le (arrivals key s os).
Proof.
  intros H%Sorted_StronglySorted; [|intros ? ? ?; lia]. apply StronglySorted_Sorted.
  unfold arrivals. induction os as [|o os IH]; [constructor|]. rewrite fmap_cons in H. apply StronglySorted_inv in H as [H1 H2].
  specialize (IH H1). cbn [omap list_omap]. destruct o as [ok id now r|now]; [|done]. case_decide; [|done].
  constructor; [done|]. apply list.Forall_forall. intros t Ht. apply list_elem_of_omap in Ht as (o & Ho & Et).
  rewrite list.Forall_forall in H2. destruct o as [ok' id' now' r'|]; [|done]. case_decide; [|done]. injection Et as ->.
  apply H2. by apply (list_elem_of_fmap_2 time_of) in Ho.
Qed.

Lemma arrivals_within key s os t0 elapsed :
  Forall (λ o, within t0 elapsed (time_of o)) os → Forall (λ t, t0 <= t <= t0 + elapsed) (arrivals key s os).
Proof.
  rewrite !list.Forall_forall. intros H t Ht. apply list_elem_of_omap in Ht as (o & Ho & Et). apply H in Ho.
  destruct o; [|done]. case_decide; [|done]. by injection Et as <-.
Qed.

Lemma bucket_bounded p r0 os s t0 elapsed n d :
  let key := buildLimiterKey p r0 in
  numbered s → p ∈ policies s → limiters s !! key = None →
  Sorted Z.le (time_of <$> os) → Forall (λ o, within t0 elapsed (time_of o)) os → 0 <= elapsed <= 5 * minute →
  rate_le (bucket_rate (adaptiveScale s) p) n d →
  admitted key os s * Zpos d * second <= bucket_size (adaptiveScale s) p * Zpos d * second + n * elapsed.
Proof.
  intros key Hnum Hp Hk Hsort Hos He Hrate. pose proof (admitted_allowed p r0 os s t0) as H. fold key in H.
  cbn zeta in H. rewrite H; [|done..| |].
  - unfold bucket. rewrite Hk. eapply Allow_bounded; [|lia|exact Hrate|by apply arrivals_sorted|by apply arrivals_within].
    unfold bucket_size. case_goal; zbool; lia.
  - eapply list.Forall_impl; [exact Hos|]. unfold within. lia.
  - intros e. by rewrite Hk.
Qed.

(** Admissions are bounded: of all requests that fall to one subject of a policy
    within at most five minutes, among any requests of others and rounds of the
    cleanup, as many pass as the bucket holds and as flow in meanwhile. *)
Theorem admissions_bounded p r0 os s t0 elapsed n d :
  let key := buildLimiterKey p r0 in
  numbered s → p ∈ policies s → limiters s !! key = None →
  Sorted Z.le (time_of <$> os) → Forall (λ o, within t0 elapsed (time_of o)) os → 0 <= elapsed <= 5 * minute →
  rate_le (bucket_rate (adaptiveScale s) p) n d →
  admitted key os s * Zpos d * second <= bucket_size (adaptiveScale s) p * Zpos d * second + n * elapsed.
Proof. apply bucket_bounded. Qed.

(** ** The policy of a request *)

(** The policies that cover a request and are in force. *)
Definition candidate (s : State) (r : Request) (p : RateLimitPolicy) : Prop :=
  p ∈ table s ∧ Deleted p = false ∧ Enabled p = true ∧ covers r p = true.

Lemma refreshed_elem s p :
  p ∈ policies (refreshPolicies true s) ↔ p ∈ table s ∧ Deleted p = false ∧ Enabled p = true.
Proof. simpl. rewrite by_priority_perm. unfold live. rewrite !list_elem_of_filter. tauto. Qed.

Lemma matched s r :
  match findMatchingPolicy (policies (refreshPolicies true s)) r with
  | Some p => candidate s r p ∧ ∀ q, candidate s r q → Priority q <= Priority p
  | None => ∀ q, ¬ candidate s r q
  end.
Proof.
  unfold findMatchingPolicy, candidate. destruct (List.find _ _) as [p|] eqn:E.
  - pose proof (by_priority_sorted (filter (λ p, Enabled p = true) (live (table s)))) as Hs.
    pose proof (λ q, refreshed_elem s q) as Hin. simpl in E, Hin. revert E Hs Hin.
    generalize (by_priority (filter (λ p, Enabled p = true) (live (table s)))). intros l E Hs Hin.
    apply find_elem in E as Hp. destruct Hp as [Hp Hc]. split; [apply Hin in Hp; naive_solver|].
    intros q (H1 & H2 & H3 & H4). assert (q ∈ l) as Hq by by apply Hin. clear Hin Hp H1 H2 H3.
    induction Hs as [|x l Hs IH Hx]; [by apply not_elem_of_nil in Hq|]. simpl in E.
    rewrite list.Forall_forall in Hx. destruct (covers r x) eqn:Ex.
    + injection E as ->. apply elem_of_cons in Hq as [->|Hq]; [lia|]. by apply Hx.
    + apply elem_of_cons in Hq as [->|Hq]; [congruence|]. by apply IH.
  - intros q (H1 & H2 & H3 & H4). eapply find_none_elem in E; [|apply refreshed_elem; naive_solver]. congruence.
Qed.

(** After a refresh a request falls to a policy in force that covers it and that no
    other such policy exceeds in priority; it is not limited where no policy covers
    it. *)
Theorem highest_priority_applies s r :
  match findMatchingPolicy (policies (refreshPolicies true s)) r with
  | Some p => candidate s r p ∧ ∀ q, candidate s r q → Priority q <= Priority p
  | None => ∀ q, ¬ candidate s r q
  end.
Proof. apply matched. Qed.

(** ** The policies the service starts with *)

Context {defaults : Defaults} {runes : RuneTables}.

Definition started (id : nat → Z) (now : Z) : State := NewService true true id now [] [].

Definition auth_policy (id : nat → Z) (now : Z) : RateLimitPolicy :=
  mkPolicy (id 1%nat) "auth-endpoints" "Auth endpoints (brute-force protection)" "path" "/api/v1/auth/*" 30 10 true 100
    now now false.

(** The numbers the database gives the policies. *)
Definition fresh_ids (id : nat → Z) : Prop :=
  NoDup (id <$> [0; 1; 2]%nat) ∧ ∀ k, 0 <= id k < 2 ^ 63.

Lemma create_fresh p s :
  (∀ q, q ∈ table s → Name q ≠ Name p ∧ ID q ≠ ID p) → Enabled p = true → Deleted p = false →
  create true p s = Some (p, set_table (table s ++ [p]) s).
Proof.
  intros Hq He Hd. unfold create. simpl. destruct (existsb _ _) eqn:E.
  - apply existsb_exists in E as (q & Hin & H). apply list_elem_of_In in Hin. apply Hq in Hin as [H1 H2].
    rewrite bool_decide_eq_false_2 in H by done. simpl in H. by apply Z.eqb_eq in H.
  - rewrite He, stored_bool_spec. destruct p. simpl in *. by subst.
Qed.

Lemma set_table_twice l l' s : set_table l (set_table l' s) = set_table l s.
Proof. done. Qed.

Lemma create_all ps s :
  NoDup (Name <$> ps) → NoDup (ID <$> ps) → (∀ p q, p ∈ ps → q ∈ table s → Name q ≠ Name p ∧ ID q ≠ ID p) →
  Forall (λ p, Enabled p = true ∧ Deleted p = false) ps →
  foldl (λ s p, match create true p s with Some (_, s) => s | None => s end) s ps = set_table (table s ++ ps) s.
Proof.
  intros Hn Hi Hq Hf. revert s Hn Hi Hq. induction Hf as [|p ps [He Hd] Hf IH]; intros s Hn Hi Hq; simpl.
  - rewrite app_nil_r. by destruct s.
  - rewrite fmap_cons in Hn. rewrite fmap_cons in Hi. apply list.NoDup_cons in Hn as [Hn Hns]. apply list.NoDup_cons in Hi as [Hi His].
    rewrite create_fresh; [|intros q; apply Hq; by left|done..]. rewrite IH; [|done..|].
    + rewrite set_table_twice. simpl. by rewrite <- (assoc (++)).
    + simpl. intros x q Hx [Hin|Hin%list_elem_of_singleton]%elem_of_app; [|subst q]; [apply Hq; [by right|done]|].
      split; intros E; [apply Hn|apply Hi]; rewrite E; by apply list_elem_of_fmap_2.
Qed.

Lemma started_seeded id now :
  fresh_ids id →
  started id now = refreshPolicies true (set_table (default_policies id now) (mkState ∅ [] default_adaptive (of_Z 1) None 0 0 [] [])).
Proof.
  intros [Hnd _]. unfold started, NewService. rewrite decide_True by done. unfold seedDefaults.
  rewrite create_all; [done| |done|by intros p q _ ?%elem_of_nil|by repeat constructor].
  apply (bool_decide_eq_true_1 _). reflexivity.
Qed.

Lemma started_numbered id now : fresh_ids id → numbered (started id now).
Proof.
  intros Hid. rewrite started_seeded by done. destruct Hid as [Hnd Hr]. split; simpl.
  - rewrite by_priority_perm. done.
  - rewrite by_priority_perm. unfold live, default_policies. simpl. repeat constructor; apply Hr.
Qed.

(** The requests of an address without a user to the authentication share one
    bucket. *)
Lemma auth_key id now r :
  fresh_ids id → UserID r = "" → HasPrefix (Path r) "/api/v1/auth/" = true →
  findMatchingPolicy (policies (started id now)) r = Some (auth_policy id now).
Proof.
  intros Hid Hu Hp. rewrite started_seeded by done.
  pose proof (matched (set_table (default_policies id now) (mkState ∅ [] default_adaptive (of_Z 1) None 0 0 [] [])) r) as H.
  assert (candidate (set_table (default_policies id now) (mkState ∅ [] default_adaptive (of_Z 1) None 0 0 [] [])) r
            (auth_policy id now)) as Hc.
  { split; [simpl; right; left|]. split; [done|]. split; [done|]. 
    change (HasPrefix (Path r) "/api/v1/auth/" || bool_decide (Path r = "/api/v1/auth") = true). by rewrite Hp. }
  destruct (findMatchingPolicy _ r) as [p|]; [|by destruct (H _ Hc)]. destruct H as [(Hin & _) Hmax].
  specialize (Hmax _ Hc). simpl in Hin, Hmax. f_equal.
  apply elem_of_cons in Hin as [->|Hin]; [simpl in Hmax; lia|]. apply elem_of_cons in Hin as [->|Hin]; [done|].
  apply list_elem_of_singleton in Hin as ->. simpl in Hmax. lia.
Qed.

(** Its name, for the requests of an address. *)
Definition guess_key (id : nat → Z) (ip : string) : string := "path-ip:" +:+ ip +:+ ":" +:+ Itoa (id 1%nat).

Lemma auth_key_of id now ip r :
  fresh_ids id → ClientIP r = ip → UserID r = "" → HasPrefix (Path r) "/api/v1/auth/" = true →
  key_of (started id now) r = Some (guess_key id ip).
Proof.
  intros Hid Hc Hu Hp. unfold key_of. rewrite auth_key by done. simpl. unfold buildLimiterKey, subject. simpl.
  rewrite Hu, Hc. reflexivity.
Qed.

(** ** Changes of policies *)

Inductive change :=
| Creation (e : string) (id now : Z) (req : result string CreateRequest)
| Update (param : string) (now : Z) (req : result string UpdateRequest)
| Deletion (param : string).

Definition administer (reads writes : bool) (c : change) (s : State) : response * State :=
  match c with
  | Creation e id now req => createPolicy reads writes e id now req s
  | Update param now req => updatePolicy reads writes param now req s
  | Deletion param => deletePolicy reads writes param s
  end.

(** A change that is accepted drops buckets and loads the cache. *)
Lemma administer_accepted reads writes c s :
  (administer reads writes c s).1.1 < 400 →
  ∃ scope s1, (administer reads writes c s).2 = refreshPolicies reads (invalidateLimiters scope s1).
Proof.
  destruct c as [e id now [r|e']|param now req|param]; simpl; [| |unfold updatePolicy|unfold deletePolicy].
  - unfold createPolicy. repeat (case_match; simpl; try lia); simplify_eq; intros _; by do 2 eexists.
  - lia.
  - repeat (case_match; simpl; try lia); simplify_eq; intros _; by do 2 eexists.
  - repeat (case_match; simpl; try lia); simplify_eq; intros _; by do 2 eexists.
Qed.

Lemma invalidated_shared p r scope :
  Scope p ∈ ["path"; "global"] → invalidated scope (buildLimiterKey p r) = true.
Proof.
  intros [Es|Es%list_elem_of_singleton]%elem_of_cons; unfold invalidated, buildLimiterKey, subject; rewrite Es.
  - case_decide; by rewrite orb_true_r.
  - by rewrite !orb_true_r.
Qed.

Lemma new_bucket_passes scale p now : (Allow now (new_bucket scale p)).1 = true.
Proof.
  pose proof (Allow_initial (bucket_rate scale p) (bucket_size scale p) [now]) as H.
  assert (1 <= bucket_size scale p) as Hb by (unfold bucket_size; case_goal; zbool; lia).
  specialize (H ltac:(repeat constructor) ltac:(simpl; lia)). simpl in H. unfold new_bucket.
  by destruct (Allow now _) as [[] l].
Qed.

(** Every change of a policy refills the buckets of all others that are shared by
    path or globally: after one that is accepted, the next request under such a
    policy passes, however many came before. *)
Theorem change_refills reads writes c s r q ok id now :
  (administer reads writes c s).1.1 < 400 →
  let s' := (administer reads writes c s).2 in
  findMatchingPolicy (policies s') r = Some q → Scope q ∈ ["path"; "global"] →
  (Middleware ok id now r s').1.2 = None.
Proof.
  intros (scope & s1 & E)%administer_accepted s' Hq Hs.
  apply (middleware_own ok id now r s' q Hq). unfold bucket.
  assert (limiters s' !! buildLimiterKey q r = None) as ->.
  { unfold s'. rewrite E. simpl. apply map_lookup_filter_None. right. intros e _. simpl.
    by rewrite (invalidated_shared q r scope Hs). }
  apply new_bucket_passes.
Qed.

(** The name of a policy that was deleted cannot be used again: its row is still
    there, and the insertion fails. *)
Theorem deleted_name_kept param s p e id now r :
  NoDup (Name <$> table s) → find_policy true (int_param param) s = Some p → r_Name r = Name p →
  r_Scope r ∈ ["global"; "tenant"; "user"; "path"] → 1 <= r_RequestsPerMin r →
  let s' := (deletePolicy true true param s).2 in
  createPolicy true true e id now (Ok r) s' = (error 500 e, s').
Proof.
  intros Hn Hp Hr Hs Hm. unfold deletePolicy. rewrite Hp. cbn zeta. cbn [snd].
  set (s' := refreshPolicies true _). unfold createPolicy. rewrite bool_decide_eq_true_2 by done. cbn [negb].
  rewrite (proj2 (Z.ltb_ge _ _) Hm).
  unfold find_policy in Hp. apply row_with_elem in Hp as [Hin Eid]. unfold live in Hin. apply list_elem_of_filter in Hin as [Hd Hin].
  assert (table s' = on_row ID (int_param param) removed (table s)) as Et by done.
  assert (∀ x, x ∈ table s' → Name x = Name p → x = removed p) as Hrow.
  { rewrite Et. intros x (y & -> & Hy)%list_elem_of_fmap E. assert (Name y = Name p) as Ey by (revert E; by case_match).
    assert (y = p) as -> by (by apply (nodup_key Name (table s))). by rewrite (proj2 (Z.eqb_eq _ _) Eid). }
  assert (removed p ∈ table s') as Hp'.
  { rewrite Et. apply list_elem_of_fmap. exists p. by rewrite (proj2 (Z.eqb_eq _ _) Eid). }
  rewrite andb_true_l. destruct (existsb _ (live (table s'))) eqn:Ex.
  - apply existsb_exists in Ex as (x & Hx & Hb). apply list_elem_of_In, list_elem_of_filter in Hx as [Hd' Hx].
    apply bool_decide_eq_true in Hb. rewrite (Hrow x) in Hd' by (done || congruence). done.
  - unfold create. cbn [negb orb].
    rewrite (proj2 (existsb_exists _ _)); [done|]. exists (removed p). split; [by apply list_elem_of_In|].
    simpl. by rewrite bool_decide_eq_true_2.
Qed.
End admission.

(** ** Concurrent requests

    [getOrCreateLimiter] looks for a bucket under one lock and adds a new one under
    another, and the token is taken later still: between these steps, other requests
    and the cleanup run. The entries are shared by reference, so that they live in a
    heap. *)
Module Race.
Section race.
Context {buckets : Limiters}.

Record Shared := mkShared { heap : gmap nat limiterEntry; entries : gmap string nat; next : nat }.

(** A request before it looks for its bucket, with an entry it found, before it adds
    one, with a bucket, at its end, and one that no policy covers. *)
Inductive thread :=
| Looking (key : string) (p : RateLimitPolicy)
| Touching (key : string) (a : nat)
| Creating (key : string) (p : RateLimitPolicy)
| Holding (key : string) (a : nat)
| Finished (key : string) (passed : bool)
| Unlimited.

Definition advance (scale : float64) (now : Z) (sh : Shared) (t : thread) : Shared * thread :=
  match t with
  | Looking key p => (sh, match entries sh !! key with Some a => Touching key a | None => Creating key p end)
  | Touching key a =>
      (mkShared (alter (λ e, mkEntry (limiter_ e) now (policyID e)) a (heap sh)) (entries sh) (next sh), Holding key a)
  | Creating key p =>
      (mkShared (<[next sh := mkEntry (new_bucket scale p) now (ID p)]> (heap sh)) (<[key := next sh]> (entries sh))
         (S (next sh)),
       Holding key (next sh))
  | Holding key a =>
      match heap sh !! a with
      | Some e =>
          let (ok, l) := Allow now (limiter_ e) in
          (mkShared (<[a := mkEntry l (lastSeen e) (policyID e)]> (heap sh)) (entries sh) (next sh), Finished key ok)
      | None => (sh, t)
      end
  | Finished _ _ | Unlimited => (sh, t)
  end.

(** The thread with the given number takes a step. *)
Definition step (scale : float64) (now : Z) (c : Shared * list thread) (i : nat) : Shared * list thread :=
  match c.2 !! i with
  | Some t => let (sh, t) := advance scale now c.1 t in (sh, <[i := t]> c.2)
  | None => c
  end.

Definition run (scale : float64) (now : Z) (schedule : list nat) (c : Shared * list thread) : Shared * list thread :=
  foldl (step scale now) c schedule.

Lemma step_at scale now sh sh' xs t t' ys k :
  length xs = k → advance scale now sh t = (sh', t') → step scale now (sh, xs ++ t :: ys) k = (sh', xs ++ t' :: ys).
Proof.
  intros <- E. unfold step. cbn [fst snd]. rewrite list_lookup_middle by done. by rewrite E, insert_app_r_alt, Nat.sub_diag by lia.
Qed.

Lemma all_look scale now key p sh k m :
  entries sh !! key = None →
  run scale now (seq k m) (sh, replicate k (Creating key p) ++ replicate m (Looking key p))
  = (sh, replicate (k + m) (Creating key p)).
Proof.
  intros Hk. revert k. induction m as [|m IH]; intros k; simpl.
  - by rewrite app_nil_r, Nat.add_0_r.
  - erewrite step_at; [|apply length_replicate|simpl; by rewrite Hk].
    rewrite cons_middle, (assoc (++)), <- replicate_S_end, IH. by rewrite Nat.add_succ_r.
Qed.

(** The buckets from [a] on are new. *)
Definition new_from (scale : float64) (p : RateLimitPolicy) (a n : nat) (sh : Shared) : Prop :=
  ∀ i, (a <= i < a + n)%nat → limiter_ <$> heap sh !! i = Some (new_bucket scale p).

Lemma all_create scale now key p a k m sh :
  next sh = (a + k)%nat → new_from scale p a k sh →
  ∃ sh', run scale now (seq k m) (sh, (Holding key <$> seq a k) ++ replicate m (Creating key p))
         = (sh', Holding key <$> seq a (k + m)) ∧ new_from scale p a (k + m) sh'.
Proof.
  revert k sh. induction m as [|m IH]; intros k sh Hn Hnew; simpl.
  - exists sh. by rewrite app_nil_r, Nat.add_0_r.
  - erewrite step_at; [|by rewrite length_fmap, length_seq|reflexivity]. rewrite Hn.
    rewrite cons_middle, app_assoc. change [Holding key (a + k)] with (Holding key <$> [(a + k)%nat]).
    rewrite <- fmap_app, <- seq_S.
    destruct (IH (S k) (mkShared (<[(a + k)%nat := mkEntry (new_bucket scale p) now (ID p)]> (heap sh))
                          (<[key := (a + k)%nat]> (entries sh)) (S (a + k)))) as (sh' & -> & H).
    + simpl. lia.
    + intros i Hi. simpl. destruct (decide (i = (a + k)%nat)) as [->|Hne]; [by rewrite lookup_insert_eq|].
      rewrite lookup_insert_ne by done. apply Hnew. lia.
    + exists sh'. by rewrite Nat.add_succ_r.
Qed.

Lemma all_pass scale now key p a k m sh :
  new_from scale p (a + k) m sh →
  (run scale now (seq k m) (sh, replicate k (Finished key true) ++ (Holding key <$> seq (a + k) m))).2
  = replicate (k + m) (Finished key true).
Proof.
  revert k sh. induction m as [|m IH]; intros k sh Hnew; simpl.
  - by rewrite app_nil_r, Nat.add_0_r.
  - pose proof (new_bucket_passes scale p now) as Hp. destruct (Allow now (new_bucket scale p)) as [ok l] eqn:E.
    simpl in Hp. subst ok. pose proof (Hnew (a + k)%nat ltac:(lia)) as He.
    destruct (heap sh !! (a + k)%nat) as [e|] eqn:Ea; [|done]. simpl in He. injection He as He.
    erewrite step_at; [|apply length_replicate|simpl; by rewrite Ea, He, E].
    rewrite cons_middle, (assoc (++)), <- replicate_S_end, <- Nat.add_succ_r, IH; [by rewrite Nat.add_succ_r|].
    intros i Hi. simpl. rewrite lookup_insert_ne by lia. apply Hnew. lia.
Qed.

(** Any number of requests of one subject that come at once all pass, whatever the
    size of the bucket: there is a schedule in which each of them finds none, adds
    one of its own and takes a token from it. *)
Theorem simultaneous_all_pass scale now key p sh n :
  entries sh !! key = None →
  ∃ schedule, (run scale now schedule (sh, replicate n (Looking key p))).2 = replicate n (Finished key true).
Proof.
  intros Hk. exists (seq 0 n ++ seq 0 n ++ seq 0 n). unfold run. rewrite !foldl_app.
  pose proof (all_look scale now key p sh 0 n Hk) as H. simpl in H. unfold run in H. rewrite H. simpl. clear H.
  destruct (all_create scale now key p (next sh) 0 n sh) as (sh' & H & Hnew); [lia|intros i; lia|].
  simpl in H. unfold run in H. rewrite H. clear H.
  pose proof (all_pass scale now key p (next sh) 0 n sh') as H. rewrite Nat.add_0_r in H. apply H. done.
Qed.
(** *** All interleavings *)

(** A request arrives: it is counted, a policy is looked up, and its key built. *)
Definition arrive (ps : list RateLimitPolicy) (r : Request) : thread :=
  match findMatchingPolicy ps r with
  | None => Unlimited
  | Some p => Looking (buildLimiterKey p r) p
  end.

(** A round of [cleanupLoop], under its lock. *)
Definition recent (now : Z) (sh : Shared) (a : nat) : Prop :=
  match heap sh !! a with Some e => time_sub now (lastSeen e) <= 5 * minute | None => False end.

#[global] Instance recent_dec now sh a : Decision (recent now sh a).
Proof. unfold recent. destruct (heap sh !! a); apply _. Defined.

Definition sweep (now : Z) (sh : Shared) : Shared :=
  mkShared (heap sh) (filter (λ kv, recent now sh kv.2) (entries sh)) (next sh).

Inductive event := Arrives (r : Request) | Steps (i : nat) | Sweeps.

(** What happens at a time, with the policies and the scale that are in force. *)
Definition happen (ps : list RateLimitPolicy) (scale : float64) (c : Shared * list thread) (ev : Z * event)
    : Shared * list thread :=
  match ev.2 with
  | Arrives r => (c.1, c.2 ++ [arrive ps r])
  | Steps i => step scale ev.1 c i
  | Sweeps => (sweep ev.1 c.1, c.2)
  end.

Definition history (ps : list RateLimitPolicy) (scale : float64) (evs : list (Z * event)) (c : Shared * list thread)
    : Shared * list thread := foldl (happen ps scale) c evs.

(** A service that has no buckets and no requests yet. *)
Definition idle : Shared * list thread := (mkShared ∅ ∅ 0, []).

Fixpoint count (f : thread → bool) (l : list thread) : Z :=
  match l with [] => 0 | t :: l => (if f t then 1 else 0) + count f l end.

(** The requests under a key that passed, and those between their look-up and the
    bucket they add. *)
Definition passed (key : string) : list thread → Z :=
  count (λ t, match t with Finished k true => bool_decide (k = key) | _ => false end).

Definition creating (key : string) : list thread → Z :=
  count (λ t, match t with Creating k _ => bool_decide (k = key) | _ => false end).

Lemma count_app f l l' : count f (l ++ l') = count f l + count f l'.
Proof. induction l as [|t l IH]; simpl; [done|]. rewrite IH. lia. Qed.

Lemma count_nonneg f l : 0 <= count f l.
Proof. induction l as [|t l IH]; simpl; [done|]. destruct (f t); lia. Qed.

Lemma count_insert f l i t t' :
  l !! i = Some t → count f (<[i := t']> l) = count f l - (if f t then 1 else 0) + (if f t' then 1 else 0).
Proof.
  revert i. induction l as [|x l IH]; intros [|i] Hi; simpl in *; [done|done|injection Hi as ->; lia|].
  rewrite IH by done. lia.
Qed.

(** The bucket after calls at the given times. *)
Definition after (l : limiter) (ts : list Z) : limiter := foldl (λ l t, (Allow t l).2) l ts.

Lemma allowed_snoc l ts t :
  allowed Allow l (ts ++ [t]) = allowed Allow l ts + (if (Allow t (after l ts)).1 then 1 else 0).
Proof.
  revert l. induction ts as [|x ts IH]; intros l; simpl.
  - destruct (Allow t l) as [[] l']; simpl; lia.
  - destruct (Allow x l) as [ok l'] eqn:E. rewrite IH. unfold after. simpl. lia.
Qed.

Fixpoint total (f : nat → Z) (l : list nat) : Z := match l with [] => 0 | a :: l => f a + total f l end.

Lemma total_alter f g a l :
  NoDup l → a ∈ l → (∀ b, b ≠ a → g b = f b) → total g l = total f l - f a + g a.
Proof.
  intros Hn Ha Hg. induction Hn as [|x l Hx Hn IH]; [by apply not_elem_of_nil in Ha|]. simpl.
  apply elem_of_cons in Ha as [->|Ha].
  - enough (total g l = total f l) by lia. clear -Hx Hg. induction l as [|y l IH]; [done|]. simpl.
    apply not_elem_of_cons in Hx as [? ?]. rewrite IH, Hg; [done|congruence|done].
  - rewrite IH, Hg by (done || by intros ->). lia.
Qed.

Lemma total_bound f l b : (∀ a, a ∈ l → f a <= b) → total f l <= Z.of_nat (length l) * b.
Proof.
  induction l as [|a l IH]; intros H; simpl; [lia|]. specialize (IH ltac:(intros; apply H; by right)).
  specialize (H a ltac:(by left)). lia.
Qed.

Section bound.
Variables (ps : list RateLimitPolicy) (scale : float64) (p : RateLimitPolicy) (key : string) (t0 elapsed w : Z).
Hypothesis key_policy_ : ∀ r q, findMatchingPolicy ps r = Some q → buildLimiterKey q r = key → q = p.
Hypothesis elapsed_ok : 0 <= elapsed <= 5 * minute.

Definition owned (own : list nat) (sh : Shared) (k : string) (a : nat) : Prop :=
  (a < next sh)%nat ∧ (a ∈ own ↔ k = key).

Definition thread_ok (own : list nat) (sh : Shared) (t : thread) : Prop :=
  match t with
  | Looking k q | Creating k q => k = key → q = p
  | Touching k a | Holding k a => owned own sh k a
  | Finished _ _ | Unlimited => True
  end.

(** The buckets that were added under the key, [own], with the times of the calls
    that each has had: at most [w] are ever added, as none is added once there is
    one, except by those that had looked before. *)
Record inv (now : Z) (own : list nat) (ts : nat → list Z) (c : Shared * list thread) : Prop := mkInv {
  i_nodup : NoDup own;
  i_bucket a : a ∈ own → (a < next c.1)%nat ∧
    ∃ e, heap c.1 !! a = Some e ∧ limiter_ e = after (new_bucket scale p) (ts a) ∧ within t0 elapsed (lastSeen e);
  i_times a : a ∈ own → Sorted Z.le (ts a) ∧ Forall (λ t, t0 <= t <= t0 + elapsed ∧ t <= now) (ts a);
  i_rest a : a ∉ own → ts a = [];
  i_entry k a : entries c.1 !! k = Some a → owned own c.1 k a;
  i_none : entries c.1 !! key = None → own = [];
  i_threads : Forall (thread_ok own c.1) c.2;
  i_passed : passed key c.2 = total (λ a, allowed Allow (new_bucket scale p) (ts a)) own;
  i_width : own ≠ [] → Z.of_nat (length own) + creating key c.2 <= w
}.

Lemma sorted_snoc ts t : Sorted Z.le ts → Forall (λ x, x <= t) ts → Sorted Z.le (ts ++ [t]).
Proof.
  intros Hs Hf. induction Hs as [|x ts Hs IH Hx]; simpl; [by repeat constructor|].
  apply list.Forall_cons in Hf as [Hxt Hf]. constructor; [by apply IH|].
  destruct Hx as [|y ts Hxy]; simpl; by constructor.
Qed.

Lemma inv_idle now : inv now [] (λ _, []) idle.
Proof. split; simpl; try done; first [by constructor | by intros a ?%elem_of_nil]. Qed.

Lemma inv_later now now' own ts c : now <= now' → inv now own ts c → inv now' own ts c.
Proof.
  intros Hn []. split; try done. intros a Ha. destruct (i_times0 a Ha) as [Hs Hf]. split; [done|].
  eapply list.Forall_impl; [exact Hf|]. simpl. lia.
Qed.

Lemma inv_arrive now own ts c r : inv now own ts c → inv now own ts (c.1, c.2 ++ [arrive ps r]).
Proof.
  intros []. assert (∀ f, f (arrive ps r) = false → count f (c.2 ++ [arrive ps r]) = count f c.2) as Hc.
  { intros f Hf. rewrite count_app. simpl. rewrite Hf. lia. }
  split; try done; simpl.
  - apply Forall_app. split; [done|]. constructor; [|constructor]. unfold arrive.
    destruct (findMatchingPolicy ps r) as [q|] eqn:E; [|done]. simpl. by apply key_policy_.
  - unfold passed in *. rewrite Hc; [done|]. unfold arrive. by destruct (findMatchingPolicy ps r).
  - unfold creating in *. rewrite Hc; [done|]. unfold arrive. by destruct (findMatchingPolicy ps r).
Qed.

Lemma inv_sweep now own ts c : within t0 elapsed now → inv now own ts c → inv now own ts (sweep now c.1, c.2).
Proof.
  intros Hn []. split; try done; simpl.
  - intros k a [He _]%map_lookup_filter_Some. by apply i_entry0.
  - intros Hk. destruct (entries c.1 !! key) as [a|] eqn:Ea; [|by apply i_none0].
    apply map_lookup_filter_None in Hk as [Hk|Hk]; [congruence|]. destruct (Hk a Ea). unfold recent.
    destruct (i_entry0 key a Ea) as [_ Ho]. destruct (i_bucket0 a (proj2 Ho eq_refl)) as (_ & e & He & _ & Hs). simpl. rewrite He.
    apply (time_sub_within t0); unfold within in *; lia.
Qed.

(** What the steps of a thread leave as it is. *)
Lemma thread_ok_next own sh sh' t : (next sh <= next sh')%nat → thread_ok own sh t → thread_ok own sh' t.
Proof. intros Hn. destruct t; simpl; unfold owned; try done; intros [? ?]; (split; [lia|done]). Qed.

Lemma inv_look now own ts sh l i k q :
  l !! i = Some (Looking k q) → inv now own ts (sh, l) → inv now own ts (step scale now (sh, l) i).
Proof.
  intros Hi []. unfold step. simpl. rewrite Hi. cbn [advance]. simpl in *.
  pose proof (proj1 (list.Forall_forall _ _) i_threads0 _ (list_elem_of_lookup_2 _ _ _ Hi)) as Hq. simpl in Hq.
  destruct (entries sh !! k) as [a|] eqn:Ek.
  - split; try done; simpl; unfold passed, creating in *.
    + apply Forall_insert; [done|]. by apply i_entry0.
    + erewrite count_insert by done. simpl. lia.
    + erewrite count_insert by done. simpl. intros H. specialize (i_width0 H). lia.
  - split; try done; simpl; unfold passed, creating in *.
    + by apply Forall_insert.
    + erewrite count_insert by done. simpl. lia.
    + erewrite count_insert by done. simpl. case_bool_decide as H; [|intros Ho; specialize (i_width0 Ho); lia].
      subst k. by rewrite (i_none0 Ek).
Qed.

Lemma inv_touch now own ts sh l i k a :
  within t0 elapsed now → l !! i = Some (Touching k a) →
  inv now own ts (sh, l) → inv now own ts (step scale now (sh, l) i).
Proof.
  intros Hn Hi []. unfold step. simpl. rewrite Hi. cbn [advance]. simpl in *.
  pose proof (proj1 (list.Forall_forall _ _) i_threads0 _ (list_elem_of_lookup_2 _ _ _ Hi)) as Ha. simpl in Ha.
  split; try done; simpl; unfold passed, creating in *.
  - intros b Hb. destruct (i_bucket0 b Hb) as (Hlt & e & He & Hl & Hs). split; [done|].
    destruct (decide (b = a)) as [->|Hne].
    + rewrite lookup_alter_eq, He. simpl. eexists. split; [done|]. by split.
    + rewrite lookup_alter_ne by done. eauto.
  - by apply Forall_insert.
  - erewrite count_insert by done. simpl. lia.
  - erewrite count_insert by done. simpl. intros H. specialize (i_width0 H). lia.
Qed.

Lemma inv_create now own ts sh l i k q :
  within t0 elapsed now → l !! i = Some (Creating k q) → creating key l <= w →
  inv now own ts (sh, l) → ∃ own', inv now own' ts (step scale now (sh, l) i).
Proof.
  intros Hn Hi Hw []. unfold step. simpl. rewrite Hi. cbn [advance]. simpl in *.
  pose proof (proj1 (list.Forall_forall _ _) i_threads0 _ (list_elem_of_lookup_2 _ _ _ Hi)) as Hq. simpl in Hq.
  assert (next sh ∉ own) as Hnew by (intros H; destruct (i_bucket0 _ H); lia).
  set (own' := if decide (k = key) then next sh :: own else own).
  assert (∀ a, a ∈ own' ↔ a ∈ own ∨ (a = next sh ∧ k = key)) as Hown.
  { intros a. unfold own'. case_decide; [rewrite elem_of_cons|]; naive_solver. }
  set (sh' := mkShared _ _ _).
  assert (∀ k' a, owned own sh k' a → owned own' sh' k' a) as Hkeep.
  { intros k' a [H1 H2]. split; [simpl; lia|]. rewrite Hown. split; [|naive_solver]. intros [H|[-> _]]; [by apply H2|lia]. }
  assert (owned own' sh' k (next sh)) as Hself by (split; [simpl; lia|]; rewrite Hown; naive_solver).
  exists own'. split; simpl; unfold passed, creating in *.
  - unfold own'. case_decide; [by constructor|done].
  - intros a Ha. destruct (decide (a = next sh)) as [->|Hne].
    + split; [lia|]. rewrite lookup_insert_eq. eexists. split; [done|]. simpl. split; [|done].
      apply Hown in Ha as [Ha|[_ ->]]; [done|]. by rewrite Hq, i_rest0.
    + apply Hown in Ha as [Ha|[? _]]; [|done]. destruct (i_bucket0 a Ha) as [Hlt He]. split; [lia|].
      by rewrite lookup_insert_ne.
  - intros a Ha. destruct (decide (a ∈ own)) as [Hin|Hin]; [by apply i_times0|]. rewrite i_rest0 by done. by repeat constructor.
  - intros a Ha. apply i_rest0. rewrite Hown in Ha. naive_solver.
  - intros k' a. destruct (decide (k' = k)) as [->|Hne]; [rewrite lookup_insert_eq; by intros [= <-]|].
    rewrite lookup_insert_ne by done. intros H%i_entry0. by apply Hkeep.
  - destruct (decide (k = key)) as [->|Hne]; [by rewrite lookup_insert_eq|]. rewrite lookup_insert_ne by done.
    unfold own'. rewrite ?decide_False by done. apply i_none0.
  - apply Forall_insert; [|done]. eapply list.Forall_impl; [exact i_threads0|]. intros [] Ht; try done; by apply Hkeep.
  - erewrite count_insert by done. unfold own'. case_decide; simpl; rewrite ?i_rest0 by done; simpl; lia.
  - erewrite count_insert by done. unfold own'. simpl. case_decide as Hk; intros Ho.
    + rewrite bool_decide_eq_true_2 by done. simpl length. destruct own as [|b own0]; [simpl; lia|].
      specialize (i_width0 ltac:(done)). simpl in *. lia.
    + rewrite bool_decide_eq_false_2 by done. specialize (i_width0 Ho). simpl. lia.
Qed.

(** A call to a bucket of the key, and to another one. *)
Lemma inv_hold_own now own ts sh l i a e :
  within t0 elapsed now → l !! i = Some (Holding key a) → a ∈ own → heap sh !! a = Some e →
  inv now own ts (sh, l) →
  inv now own (λ b, if decide (b = a) then ts a ++ [now] else ts b) (step scale now (sh, l) i).
Proof.
  intros Hn Hi Ha He []. unfold step. simpl. rewrite Hi. cbn [advance]. rewrite He. simpl in *.
  destruct (i_bucket0 a Ha) as (_ & e' & He' & Hl & Hs). assert (e' = e) as -> by congruence.
  pose proof (allowed_snoc (new_bucket scale p) (ts a) now) as Hsn. rewrite <- Hl in Hsn.
  assert (after (new_bucket scale p) (ts a ++ [now]) = (Allow now (limiter_ e)).2) as Haf.
  { unfold after. rewrite foldl_snoc. fold (after (new_bucket scale p) (ts a)). by rewrite <- Hl. }
  destruct (Allow now (limiter_ e)) as [ok l']. simpl in *. split; simpl; try done; unfold passed, creating in *.
  - intros b Hb. destruct (i_bucket0 b Hb) as (Hlt & eb & Heb & Hlb & Hsb). split; [done|]. case_decide as H; [subst b|].
    + rewrite lookup_insert_eq. eexists. split; [done|]. by split.
    + rewrite lookup_insert_ne by done. eauto.
  - intros b Hb. destruct (i_times0 b Hb) as [Ht Hf]. case_decide as H; [subst b|done]. split.
    + apply sorted_snoc; [done|]. eapply list.Forall_impl; [exact Hf|]. simpl. lia.
    + apply Forall_app. split; [done|]. constructor; [|constructor]. unfold within in Hn. lia.
  - intros b Hb. case_decide; [by subst b|auto].
  - apply Forall_insert; [|done]. eapply list.Forall_impl; [exact i_threads0|]. by intros [].
  - erewrite count_insert by done. rewrite (total_alter (λ a, allowed Allow (new_bucket scale p) (ts a)) _ a own);
      [|done|done|intros b Hb; by rewrite decide_False].
    rewrite decide_True, Hsn by done. destruct ok; rewrite ?bool_decide_eq_true_2 by done; lia.
  - erewrite count_insert by done. intros H. specialize (i_width0 H). lia.
Qed.

Lemma inv_hold_other now own ts sh l i k a e :
  l !! i = Some (Holding k a) → k ≠ key → a ∉ own → heap sh !! a = Some e →
  inv now own ts (sh, l) → inv now own ts (step scale now (sh, l) i).
Proof.
  intros Hi Hk Ha He []. unfold step. simpl. rewrite Hi. cbn [advance]. rewrite He. simpl in *.
  destruct (Allow now (limiter_ e)) as [ok l']. simpl in *. split; simpl; try done; unfold passed, creating in *.
  - intros b Hb. rewrite lookup_insert_ne by (by intros ->). by apply i_bucket0.
  - apply Forall_insert; [|done]. eapply list.Forall_impl; [exact i_threads0|]. by intros [].
  - erewrite count_insert by done. destruct ok; rewrite ?bool_decide_eq_false_2 by done; lia.
  - erewrite count_insert by done. intros H. specialize (i_width0 H). lia.
Qed.

Lemma inv_step now own ts c i :
  within t0 elapsed now → creating key c.2 <= w → inv now own ts c →
  ∃ own' ts', inv now own' ts' (step scale now c i).
Proof.
  destruct c as [sh l]. intros Hn Hw Hinv. destruct (l !! i) as [t|] eqn:Hi; [|exists own, ts; unfold step; simpl; by rewrite Hi].
  assert (advance scale now sh t = (sh, t) → step scale now (sh, l) i = (sh, l)) as Hsame.
  { intros E. unfold step. simpl. rewrite Hi, E. by rewrite list_insert_id. }
  pose proof (proj1 (list.Forall_forall _ _) (i_threads _ _ _ _ Hinv) _ (list_elem_of_lookup_2 _ _ _ Hi)) as Ht.
  destruct t as [k q|k a|k q|k a|k ok|].
  - exists own, ts. by eapply inv_look.
  - exists own, ts. by eapply inv_touch.
  - destruct (inv_create now own ts sh l i k q Hn Hi Hw Hinv) as [own' H]. eauto.
  - destruct (heap sh !! a) as [e|] eqn:He; [|rewrite Hsame; [eauto|simpl; by rewrite He]]. destruct Ht as [_ Ht].
    destruct (decide (k = key)) as [->|Hk].
    + eexists own, _. eapply inv_hold_own; [done|done|by apply Ht|done|done].
    + exists own, ts. eapply inv_hold_other; [done|done|tauto|done|done].
  - rewrite Hsame by done. eauto.
  - rewrite Hsame by done. eauto.
Qed.

Lemma inv_happen now own ts c ev :
  now <= ev.1 → within t0 elapsed ev.1 → creating key c.2 <= w → inv now own ts c →
  ∃ own' ts', inv ev.1 own' ts' (happen ps scale c ev).
Proof.
  intros Hle Hn Hw Hinv%(inv_later _ ev.1); [|done]. destruct ev as [t [r|i|]]; simpl in *.
  - exists own, ts. by apply inv_arrive.
  - by eapply inv_step.
  - exists own, ts. by apply inv_sweep.
Qed.

Lemma inv_history evs now own ts c :
  Sorted Z.le (now :: evs.*1) → Forall (λ ev, within t0 elapsed ev.1) evs →
  (∀ before rest, evs = before ++ rest → creating key (history ps scale before c).2 <= w) → inv now own ts c →
  ∃ now' own' ts', inv now' own' ts' (history ps scale evs c).
Proof.
  revert now own ts c. induction evs as [|ev evs IH]; intros now own ts c Hs Hf Hw Hinv; [simpl; eauto|].
  apply list.Forall_cons in Hf as [Hev Hf]. apply Sorted_inv in Hs as [Hs Hle].
  destruct (inv_happen now own ts c ev) as (own' & ts' & Hinv'); [|done|apply (Hw [] (ev :: evs) eq_refl)|done|].
  { by inversion Hle. }
  apply (IH ev.1 own' ts' (happen ps scale c ev)); [done|done| |done].
  intros before rest ->. apply (Hw (ev :: before) rest). done.
Qed.

Lemma inv_bounded now own ts c n d :
  inv now own ts c → 0 <= w → rate_le (bucket_rate scale p) n d →
  passed key c.2 * Zpos d * second <= w * (bucket_size scale p * Zpos d * second + n * elapsed).
Proof.
  intros [] Hw Hr. rewrite i_passed0. set (f := λ a, allowed Allow (new_bucket scale p) (ts a)).
  set (B := bucket_size scale p * Zpos d * second + n * elapsed). set (u := Zpos d * second).
  assert (0 < u) as Hu by (unfold u, second; lia).
  assert (1 <= bucket_size scale p) as Hb by (unfold bucket_size; case_goal; zbool; lia).
  assert (0 <= B) as HB by (pose proof (rate_le_nonneg _ _ _ Hr); unfold B, second; nia).
  assert (∀ a, a ∈ own → f a <= B / u) as Hf.
  { intros a Ha. destruct (i_times0 a Ha) as [Hs Ht]. apply Z.div_le_lower_bound; [done|].
    pose proof (Allow_bounded (bucket_rate scale p) (bucket_size scale p) n d (ts a) t0 elapsed ltac:(lia) ltac:(lia) Hr Hs)
      as H. unfold u. rewrite (Z.mul_comm _ (f a)), Z.mul_assoc. apply H.
    eapply list.Forall_impl; [exact Ht|]. simpl. lia. }
  pose proof (total_bound f own (B / u) Hf) as Ht. pose proof (Z.mul_div_le B u Hu) as Hd.
  assert (0 <= B / u) as Hq by (apply Z.div_pos; lia).
  rewrite <- Z.mul_assoc. fold u. destruct own as [|a own']; [simpl; nia|].
  specialize (i_width0 ltac:(done)). pose proof (count_nonneg (λ t, match t with Creating k _ => bool_decide (k = key) | _ => false end) c.2) as Hc.
  fold (creating key c.2) in Hc. set (len := Z.of_nat (length (a :: own'))) in *. nia.
Qed.

End bound.

(** Requests that arrive under a key within at most five minutes at a service without
    buckets, while the policies and the scale stay, in every interleaving of their
    steps with those of other requests and of the cleanup: if no more than [w] of them
    are between their look-up and the bucket they add at any time, they pass as often
    as [w] buckets let them. *)
Lemma interleaved_bounded ps scale p r0 evs t0 elapsed w n d :
  let key := buildLimiterKey p r0 in
  NoDup (ID <$> ps) → Forall id_ok ps → p ∈ ps →
  Sorted Z.le evs.*1 → Forall (λ ev, within t0 elapsed ev.1) evs → 0 <= elapsed <= 5 * minute →
  (∀ before rest, evs = before ++ rest → creating key (history ps scale before idle).2 <= w) →
  rate_le (bucket_rate scale p) n d →
  passed key (history ps scale evs idle).2 * Zpos d * second
  <= w * (bucket_size scale p * Zpos d * second + n * elapsed).
Proof.
  intros key Hnd Hok Hp Hs Hf He Hw Hr.
  assert (∀ r q, findMatchingPolicy ps r = Some q → buildLimiterKey q r = key → q = p) as Hkey.
  { intros r q [Hq _]%find_elem Ek. rewrite list.Forall_forall in Hok.
    apply (nodup_key ID ps); [done..|]. eapply key_policy; [by apply Hok..|exact Ek]. }
  assert (0 <= w) as Hw0 by (specialize (Hw [] evs eq_refl); done).
  destruct (inv_history ps scale p key t0 elapsed w Hkey He evs t0 [] (λ _, []) idle) as (now' & own & ts & H);
    [|done|done|apply inv_idle|].
  - constructor; [done|]. destruct Hf as [|ev evs [Hev _] _]; by constructor.
  - by eapply inv_bounded.
Qed.
End race.

(** C38: Guessing is slowed down from the start, as long as the policies and the scale
    stay: of the requests that an address sends to the authentication without a user
    within five minutes, at most [w * (10 + elapsed / 2 seconds)] pass, in every
    interleaving of the steps of all requests and of the cleanup in which no more than
    [w] of these requests are at once between the look-up that finds no bucket and the
    bucket they add; [w] is 1 where they come one after the other. *)
Theorem guessing_limited {buckets : Limiters} {descending : Descending} {defaults : Defaults}
    id now ip evs t0 elapsed w :
  let s := started id now in
  let key := guess_key id ip in
  fresh_ids id → Sorted Z.le evs.*1 → Forall (λ ev, within t0 elapsed ev.1) evs → 0 <= elapsed <= 5 * minute →
  (∀ before rest, evs = before ++ rest →
     creating key (history (policies s) (adaptiveScale s) before idle).2 <= w) →
  (∀ r, ClientIP r = ip → UserID r = "" → HasPrefix (Path r) "/api/v1/auth/" = true →
     arrive (policies s) r = Looking key (auth_policy id now)) ∧
  passed key (history (policies s) (adaptiveScale s) evs idle).2 * 2 * second <= w * (20 * second + elapsed).
Proof.
  intros s key Hid Hs Hf He Hw. split.
  - intros r Hc Hu Hp. unfold arrive, s. rewrite auth_key by done.
    pose proof (auth_key_of id now ip r Hid Hc Hu Hp) as H. unfold key_of in H. rewrite auth_key in H by done.
    simpl in H. injection H as H. by rewrite H.
  - set (r0 := mkRequest ip "/api/v1/auth/login" "POST" "" "").
    assert (key = buildLimiterKey (auth_policy id now) r0) as Ek by reflexivity.
    assert (adaptiveScale s = of_Z 1) as Es by (unfold s; by rewrite started_seeded).
    destruct (started_numbered id now Hid) as [Hnd Hok]. fold s in Hnd, Hok. rewrite Ek in Hw |- *.
    pose proof (interleaved_bounded (policies s) (adaptiveScale s) (auth_policy id now) r0 evs t0 elapsed w 1 2 Hnd Hok) as H.
    cbn zeta in H. rewrite Es in *. change (bucket_size (of_Z 1) (auth_policy id now)) with 10 in H.
    replace (20 * second + elapsed) with (10 * 2 * second + 1 * elapsed) by lia.
    apply H; [|done..|vm_compute; discriminate]. eapply find_elem. by apply (auth_key id now r0).
Qed.
End Race.

(** ** A token bucket *)

Module Exact.

(** A rate as a quotient, and a bucket whose tokens are counted in units of
    [1 / (den * second)]. *)
Definition ratio (r : float64) : Z * positive :=
  match r with
  | S754_finite false m e => if 0 <=? e then (Zpos m * 2 ^ e, 1%positive) else (Zpos m, Z.to_pos (2 ^ (- e)))
  | _ => (0, 1%positive)
  end.

Record Bucket := mkBucket { num : Z; den : positive; burst : Z; tokens : Z; last_call : option Z }.

Definition unit_ (l : Bucket) : Z := Zpos (den l) * second.

Definition available (now : Z) (l : Bucket) : Z :=
  Z.min (burst l * unit_ l) (tokens l + num l * Z.max 0 (now - default now (last_call l))).

Definition New (r : float64) (b : Z) : Bucket :=
  let (n, d) := ratio r in mkBucket n d b (b * (Zpos d * second)) None.

Definition take_token (now : Z) (l : Bucket) : bool * Bucket :=
  let a := available now l in
  let with_tokens t := mkBucket (num l) (den l) (burst l) t (Some now) in
  if unit_ l <=? a then (true, with_tokens (a - unit_ l)) else (false, with_tokens a).

Lemma ratio_nonneg r : 0 <= (ratio r).1.
Proof. destruct r as [| | |[] m e]; simpl; try lia. case_goal; simpl; lia. Qed.

Lemma unit_pos l : 0 < unit_ l.
Proof. unfold unit_, second. lia. Qed.

Lemma all_allowed l ts :
  0 <= num l → Z.of_nat (length ts) <= burst l → Z.of_nat (length ts) * unit_ l <= tokens l →
  allowed take_token l ts = Z.of_nat (length ts).
Proof.
  intros Hn. revert l Hn. induction ts as [|t ts IH]; intros l Hn Hb Ht; [done|]. cbn [allowed length] in *.
  pose proof (unit_pos l) as Hu. unfold take_token.
  assert (Z.of_nat (S (length ts)) * unit_ l <= available t l) as Ha.
  { unfold available. pose proof (Z.mul_nonneg_nonneg (num l) (Z.max 0 (t - default t (last_call l))) Hn ltac:(lia)).
    apply Z.min_glb; [apply Z.mul_le_mono_nonneg_r; lia|lia]. }
  rewrite (proj2 (Z.leb_le _ _)) by nia. rewrite IH; simpl; [lia|done|lia|].
  change (unit_ (mkBucket _ _ _ _ _)) with (unit_ l). nia.
Qed.

Lemma allowed_bound l ts t tend :
  0 <= num l → (last_call l = Some t ∨ last_call l = None) → t <= tend → Sorted Z.le ts →
  Forall (λ x, t <= x <= tend) ts →
  allowed take_token l ts * unit_ l <= Z.max 0 (tokens l) + num l * (tend - t).
Proof.
  intros Hn Hl Ht Hs Hr. revert l t Hn Hl Ht Hr. induction ts as [|x ts IH]; intros l t Hn Hl Ht Hr; cbn [allowed]; [nia|].
  apply list.Forall_cons in Hr as [Hx Hr]. apply Sorted_StronglySorted in Hs as Hss; [|intros ? ? ?; lia].
  apply StronglySorted_inv in Hss as [_ Hle]. apply Sorted_inv in Hs as [Hs _].
  assert (Forall (λ y, x <= y <= tend) ts) as Hr'.
  { rewrite list.Forall_forall in *. intros y Hy. specialize (Hr y Hy). specialize (Hle y Hy). lia. }
  pose proof (unit_pos l) as Hu.
  assert (available x l <= tokens l + num l * (x - t)) as Ha.
  { unfold available. destruct Hl as [-> | ->]; simpl; nia. }
  pose proof (Z.mul_nonneg_nonneg (num l) (x - t) Hn ltac:(lia)) as H0.
  replace (num l * (tend - t)) with (num l * (tend - x) + num l * (x - t)) by ring.
  unfold take_token at 1. destruct (unit_ l <=? available x l) eqn:E; zbool; rewrite Z.mul_add_distr_r.
  - specialize (IH Hs (mkBucket (num l) (den l) (burst l) (available x l - unit_ l) (Some x)) x Hn (or_introl eq_refl) ltac:(lia) Hr').
    simpl in IH. change (unit_ (mkBucket _ _ _ _ _)) with (unit_ l) in IH. lia.
  - specialize (IH Hs (mkBucket (num l) (den l) (burst l) (available x l) (Some x)) x Hn (or_introl eq_refl) ltac:(lia) Hr').
    simpl in IH. change (unit_ (mkBucket _ _ _ _ _)) with (unit_ l) in IH. lia.
Qed.

Lemma ratio_le r n d : rate_le r n d → (ratio r).1 * Zpos d <= n * Zpos (ratio r).2 ∧ 0 <= n.
Proof.
  destruct r as [| | |[] m e]; simpl; try lia. destruct (0 <=? e) eqn:E; simpl; zbool.
  - intros H. split; [lia|]. pose proof (Z.pow_nonneg 2 e). nia.
  - intros H. rewrite Z2Pos.id by (apply Z.pow_pos_nonneg; lia). split; [done|].
    pose proof (Z.pow_pos_nonneg 2 (- e)). nia.
Qed.

Definition exact_buckets : Limiters.
Proof.
  refine {| limiter := Bucket; NewLimiter := New; Allow := take_token; Burst := burst;
            Tokens now l := fdiv (of_Z (available now l)) (of_Z (unit_ l)) |}.
  - intros r b. unfold New. by destruct (ratio r).
  - intros now l. unfold take_token. by case_match.
  - intros r b ts _ Hb. pose proof (ratio_nonneg r) as H. unfold New. destruct (ratio r) as [n d]. simpl in H.
    apply all_allowed; simpl; [done..|]. unfold unit_. simpl. unfold second. nia.
  - intros r b n d ts t0 elapsed Hb He Hr Hs Ht. apply ratio_le in Hr as [Hr Hn].
    pose proof (allowed_bound (New r b) ts t0 (t0 + elapsed)) as H. pose proof (ratio_nonneg r) as H0. revert H Hr H0.
    unfold New, unit_. destruct (ratio r) as [m q]. cbn [num den burst tokens last_call fst snd]. intros H Hr H0.
    specialize (H H0 (or_intror eq_refl) ltac:(lia) Hs Ht). revert H. generalize (allowed take_token (mkBucket m q b (b * (Zpos q * second)) None) ts).
    intros k H. unfold second in *. apply (Z.mul_le_mono_pos_r _ _ (Zpos q)); [lia|]. 
    assert (k * (Zpos q * 1000000000) <= b * (Zpos q * 1000000000) + m * elapsed) as H' by nia.
    nia.
Defined.
End Exact.

(** ** Examples *)

#[local] Instance priority_dec p q : Decision (Priority q <= Priority p) := decide (Priority q <= Priority p).

#[local] Instance priority_total : Total (λ p q, Priority q <= Priority p).
Proof. intros p q. lia. Qed.

#[local] Instance priority_trans : Transitive (λ p q, Priority q <= Priority p).
Proof. intros p q r. simpl. lia. Qed.

Definition table_order : Descending.
Proof.
  refine {| by_priority l := merge_sort (λ p q, Priority q <= Priority p) l |}.
  - intros l. apply merge_sort_Permutation.
  - intros l. apply StronglySorted_merge_sort; apply _.
Defined.

Definition first_ids (k : nat) : Z := Z.of_nat (S k) mod 2 ^ 63.

Lemma first_ids_fresh : fresh_ids first_ids.
Proof.
  split; [apply (bool_decide_eq_true_1 _); vm_compute; reflexivity|].
  intros k. apply Z.mod_pos_bound. lia.
Qed.

Definition login : Request := mkRequest "10.0.0.1" "/api/v1/auth/login" "POST" "" "".

#[local] Existing Instance Exact.exact_buckets.
#[local] Existing Instance table_order.
#[local] Existing Instance gorm_defaults.
#[local] Existing Instance ascii_runes.

Definition attempts : list op := [Arrive true 1 0 login; Clean second; Arrive true 2 second login].

Lemma attempts_sorted : Sorted Z.le (time_of <$> attempts).
Proof. repeat constructor; vm_compute; discriminate. Qed.

Lemma attempts_within : Forall (λ o, within 0 second (time_of o)) attempts.
Proof. repeat constructor; vm_compute; discriminate. Qed.

(** Two requests of an address that come one after the other, with a round of the
    cleanup between them. *)
Definition guesses : list (Z * Race.event) :=
  [(0, Race.Arrives login); (0, Race.Steps 0); (0, Race.Steps 0); (1, Race.Steps 0); (second, Race.Sweeps);
   (second, Race.Arrives login); (second, Race.Steps 1); (second, Race.Steps 1); (second, Race.Steps 1)].

Lemma guesses_narrow : Forall (λ n, Race.creating "path-ip:10.0.0.1:2"
  (Race.history (policies (started first_ids 0)) (adaptiveScale (started first_ids 0)) (take n guesses) Race.idle).2 <= 1)
  (seq 0 10).
Proof. apply (bool_decide_eq_true_1 _). vm_compute. reflexivity. Qed.

Lemma guessing_limited_witness :
  Race.passed "path-ip:10.0.0.1:2"
    (Race.history (policies (started first_ids 0)) (adaptiveScale (started first_ids 0)) guesses Race.idle).2 * 2 * second
  <= 1 * (20 * second + second).
Proof.
  eapply (Race.guessing_limited first_ids 0 "10.0.0.1" guesses 0 second 1 first_ids_fresh).
  - repeat constructor; vm_compute; discriminate.
  - repeat constructor; vm_compute; discriminate.
  - vm_compute; split; discriminate.
  - intros before rest E. assert (before = take (length before) guesses) as -> by (rewrite E; by rewrite take_app_length).
    apply (proj1 (list.Forall_forall _ _) guesses_narrow). apply elem_of_seq.
    apply (f_equal length) in E. rewrite length_app in E. simpl in E. lia.
Defined.

Lemma admissions_bounded_witness :
  admitted (buildLimiterKey (auth_policy first_ids 0) login) attempts (started first_ids 0) * 2 * second
  <= bucket_size (adaptiveScale (started first_ids 0)) (auth_policy first_ids 0) * 2 * second + 1 * second.
Proof.
  apply (admissions_bounded (auth_policy first_ids 0) login attempts (started first_ids 0) 0 second 1 2);
    [exact (started_numbered first_ids 0 first_ids_fresh)| |reflexivity|exact attempts_sorted|exact attempts_within
    |vm_compute; split; discriminate|vm_compute; discriminate].
  eapply find_elem. by apply (auth_key first_ids 0 login first_ids_fresh).
Defined.

Lemma change_refills_witness :
  (Middleware true 9 0 login
     (administer true true (Update "1" 5 (Ok (mkUpdate (Some "x") None None None None))) (started first_ids 0)).2).1.2 = None.
Proof.
  apply (change_refills true true (Update "1" 5 (Ok (mkUpdate (Some "x") None None None None))) (started first_ids 0)
           login (auth_policy first_ids 0));
    [vm_compute; reflexivity|vm_compute; reflexivity|by left].
Defined.

Lemma deleted_name_kept_witness :
  let s := (deletePolicy true true "1" (started first_ids 0)).2 in
  createPolicy true true "duplicate key" 4 0 (Ok (mkCreate "global-default" "" "global" "*" 60 0 0)) s
  = (error 500 "duplicate key", s).
Proof.
  eapply (deleted_name_kept "1" (started first_ids 0));
    [apply (bool_decide_eq_true_1 _); vm_compute; reflexivity|vm_compute; reflexivity|reflexivity|by left|simpl; lia].
Defined.

Lemma simultaneous_all_pass_witness :
  ∃ schedule, (Race.run (of_Z 1) 0 schedule
                 (Race.mkShared ∅ ∅ 0, replicate 1000 (Race.Looking "path-ip:10.0.0.1:2" (auth_policy first_ids 0)))).2
              = replicate 1000 (Race.Finished "path-ip:10.0.0.1:2" true).
Proof. apply (Race.simultaneous_all_pass (of_Z 1) 0 "path-ip:10.0.0.1:2" (auth_policy first_ids 0) (Race.mkShared ∅ ∅ 0) 1000). reflexivity. Defined.
