(* ===== verification/GoDecimal.v ===== *)
(** * Decimal literals of float64 numbers

    [strconv.ParseFloat] of the numbers JSON has, and the shortest decimal form that
    is read back as the same number, as encoding/json prints a float64. *)
From Stdlib Require Import SpecFloat Ascii.
From S2P Require Import Prelude GoStrings NetIP GoFloat.
Local Open Scope Z_scope.

(** ** Decimal literals *)

(** The digits of an integer and a power of ten: [m * 10 ^ p]. Exponents beyond
    the range of the type need no power. *)
Definition of_decimal (m p : Z) : float64 :=
  let len := Z.log2 m / 3 + 1 in
  if m =? 0 then S754_zero false
  else if 400 <? p then S754_infinity false
  else if p + len <? -400 then S754_zero false
  else if 0 <=? p then of_ratio (m * 10 ^ p) 1
  else of_ratio m (Z.to_pos (10 ^ (- p))).

(** A literal of JSON in its parts: the digits before the exponent with the number
    of those after the point, and the exponent. *)
Fixpoint read_digits (s : string) (m : Z) (frac : option Z) : Z * Z * string :=
  match s with
  | String c s' =>
      match digit c with
      | Some d => read_digits s' (10 * m + d) (Z.succ <$> frac)
      | None => if decide (c = "."%char) then read_digits s' m (Some 0) else (m, default 0 frac, s)
      end
  | EmptyString => (m, default 0 frac, s)
  end.

(** The exponent of a literal, which is cut off where it is out of all range. *)
Definition read_exponent (s : string) : Z :=
  match s with
  | String _ (String c r) =>
      let '(neg, r) := if decide (c = "-"%char) then (true, r) else if decide (c = "+"%char) then (false, r)
                       else (false, String c r) in
      let e := Z.min 100000 (read_digits r 0 None).1.1 in
      if neg : bool then - e else e
  | _ => 0
  end.

(** [strconv.ParseFloat] of a literal of JSON; none where it is out of range. *)
Definition ParseFloat (s : string) : option float64 :=
  let '(neg, s) := match s with String "-" r => (true, r) | _ => (false, s) end in
  let '(m, frac, rest) := read_digits s 0 None in
  match of_decimal m (read_exponent rest - frac) with
  | S754_infinity _ => None
  | x => Some (if neg : bool then SFopp x else x)
  end.

(** ** Printing *)

(** [10 ^ k <= n / d < 10 ^ (k + 1)] *)
Definition pow10_le (k n d : Z) : bool := if 0 <=? k then 10 ^ k * d <=? n else d <=? n * 10 ^ (- k).

Definition log10 (n d : Z) : Z :=
  let k := (Z.log2 n - Z.log2 d) * 30103 / 100000 in
  if pow10_le (k + 1) n d then k + 1 else if pow10_le k n d then k else k - 1.

(** [n / d / 10 ^ p], rounded down. *)
Definition scaled (n d p : Z) : Z := if 0 <=? p then n / (d * 10 ^ p) else n * 10 ^ (- p) / d.

(** Whether [m1] is nearer than [m2 = m1 + 1] to the number, both scaled. *)
Definition nearer (n d p m1 : Z) : bool :=
  if 0 <=? p then 2 * n <=? (2 * m1 + 1) * (d * 10 ^ p) else 2 * n * 10 ^ (- p) <=? (2 * m1 + 1) * d.

(** The shortest digits that are read back as [x], a positive number of value
    [n / d]; with [k] digits or more. *)
Fixpoint shortest (fuel : nat) (x : float64) (n d l k : Z) : Z * Z :=
  let p := l - k + 1 in
  let m := scaled n d p in
  let down := feqb (of_decimal m p) x in
  let up := feqb (of_decimal (m + 1) p) x in
  match fuel with
  | O => (m, p)
  | S fuel =>
      if down && up then if nearer n d p m then (m, p) else (m + 1, p)
      else if down then (m, p) else if up then (m + 1, p)
      else shortest fuel x n d l (k + 1)
  end.

(** The digits of a number without the zeros at their end. *)
Fixpoint strip_zeros (fuel : nat) (m p : Z) : Z * Z :=
  match fuel with
  | O => (m, p)
  | S fuel => if m mod 10 =? 0 then strip_zeros fuel (m / 10) (p + 1) else (m, p)
  end.

Fixpoint zeros (n : nat) : string := match n with O => "" | S n => String "0" (zeros n) end.

(** The format 'f': no exponent. *)
Definition fixed_point (m p : Z) : string :=
  let ds := digits 10 20 m "" in
  let len := Z.of_nat (str_len ds) in
  if 0 <=? p then ds +:+ zeros (Z.to_nat p)
  else if 0 <? len + p then str_take (Z.to_nat (len + p)) ds +:+ "." +:+ str_drop (Z.to_nat (len + p)) ds
  else "0." +:+ zeros (Z.to_nat (- (len + p))) +:+ ds.

(** The format 'e' with the exponent as JSON has it. *)
Definition exponential (m p : Z) : string :=
  let ds := digits 10 20 m "" in
  let e := p + Z.of_nat (str_len ds) - 1 in
  str_take 1 ds +:+ (if (str_len ds =? 1)%nat then "" else "." +:+ str_drop 1 ds) +:+ "e"
  +:+ (if e <? 0 then "-" else "+") +:+ digits 10 20 (Z.abs e) "".

(** A float64 as encoding/json prints it. *)
Definition FormatFloat (x : float64) : string :=
  match x with
  | S754_finite s m e =>
      let '(n, d) := if 0 <=? e then (Zpos m * 2 ^ e, 1) else (Zpos m, 2 ^ (- e)) in
      let '(ds, p) := shortest 17 (S754_finite false m e) n d (log10 n d) 1 in
      let '(ds, p) := strip_zeros 20 ds p in
      let a := S754_finite false m e in
      (if s then "-" else "")
      +:+ (if fltb a (of_decimal 1 (-6)) || negb (fltb a (of_decimal 1 21)) then exponential ds p else fixed_point ds p)
  | S754_zero s => if s then "-0" else "0"
  | _ => ""
  end.

Example floats_read_and_printed :
  (λ s, FormatFloat <$> ParseFloat s)
  <$> ["0.1"; "100"; "1e21"; "1.50"; "123456789.123"; "5e-324"; "1e-7"; "-0"; "0.000001"; "1e20"; "9007199254740993";
       "1.7976931348623157e308"; "3.14159"; "2.2250738585072014e-308"; "1e400"; "4.35"; "123456e-2"]
  = [Some "0.1"; Some "100"; Some "1e+21"; Some "1.5"; Some "123456789.123"; Some "5e-324"; Some "1e-7"; Some "-0";
     Some "0.000001"; Some "100000000000000000000"; Some "9007199254740992"; Some "1.7976931348623157e+308";
     Some "3.14159"; Some "2.2250738585072014e-308"; None; Some "4.35"; Some "1234.56"].
Proof. vm_compute. reflexivity. Qed.
