(* ===== verification/ApiErrors.v ===== *)
(** * Errors of the API

    A model of pkg/errors: the structured errors that handlers answer with, the
    constructors with their codes, and the responses. *)
From S2P Require Import Prelude GoStrings Utf8 NetIP Http.

Local Open Scope Z_scope.

Record APIError := mkError {
  HTTPStatus : Z; Code : string; Message : string; Detail : string; Field : string; RequestID : string;
  ErrorCompat : string
}.

(** The text of an error. *)
Definition Error (e : APIError) : string :=
  if decide (Detail e ≠ "") then "[" +:+ Code e +:+ "] " +:+ Message e +:+ ": " +:+ Detail e
  else "[" +:+ Code e +:+ "] " +:+ Message e.

(** What a request brings for tracing: the value of request_id in its context, if
    it is a text, and its header X-Request-ID. *)
Record Trace := mkTrace { ctx_request_id : option string; header_request_id : string }.

Definition omitempty (k v : string) : list (string * json) := if decide (v = "") then [] else [(k, JStr v)].

Definition error_json (e : APIError) : json :=
  JObj ([("code", JStr (Code e)); ("message", JStr (Message e))] ++ omitempty "detail" (Detail e)
        ++ omitempty "field" (Field e) ++ omitempty "request_id" (RequestID e) ++ [("error", JStr (ErrorCompat e))]).

Definition set_request_id (id : string) (e : APIError) : APIError :=
  mkError (HTTPStatus e) (Code e) (Message e) (Detail e) (Field e) id (ErrorCompat e).

Definition Respond (t : Trace) (e : APIError) : response :=
  let e := match ctx_request_id t with Some id => set_request_id id e | None => e end in
  let e := if decide (RequestID e = "") then set_request_id (header_request_id t) e else e in
  (HTTPStatus e, error_json e).

(** The members of the object are given as a map; an object of the answer lists
    them in the order of their names. *)
Definition RespondWithData (t : Trace) (e : APIError) (data : gmap string json) : Z * gmap string json :=
  let e := match ctx_request_id t with Some id => set_request_id id e | None => e end in
  let resp : gmap string json := list_to_map
    ([("code", JStr (Code e)); ("message", JStr (Message e)); ("error", JStr (ErrorCompat e));
      ("request_id", JStr (RequestID e))] ++ omitempty "detail" (Detail e)) in
  (HTTPStatus e, data ∪ resp).

(** ** Constructors *)

Definition New (httpStatus : Z) (code message : string) : APIError := mkError httpStatus code message "" "" "" message.

Definition WithDetail (detail : string) (e : APIError) : APIError :=
  mkError (HTTPStatus e) (Code e) (Message e) detail (Field e) (RequestID e) (ErrorCompat e).

Definition WithField (field : string) (e : APIError) : APIError :=
  mkError (HTTPStatus e) (Code e) (Message e) (Detail e) field (RequestID e) (ErrorCompat e).

Definition ErrAuthRequired (msg : string) : APIError :=
  New 401 "AuthenticationRequired" (if decide (msg = "") then "authentication is required" else msg).

Definition ErrInvalidCredentials : APIError := New 401 "InvalidCredentials" "invalid username or password".

Definition ErrTokenExpired : APIError := New 401 "TokenExpired" "token has expired".

Definition ErrTokenInvalid : APIError := New 401 "TokenInvalid" "invalid or malformed token".

Definition ErrAccessDenied (reason : string) : APIError :=
  let e := New 403 "AccessDenied" "access denied" in
  if decide (reason = "") then e else WithDetail reason e.

Definition ErrRateLimited : APIError := New 429 "RateLimitExceeded" "rate limit exceeded, try again later".

Definition ErrValidation (msg : string) : APIError := New 400 "ValidationFailed" msg.

Definition ErrInvalidParam (field detail : string) : APIError :=
  WithDetail detail (WithField field (New 400 "InvalidParameter" ("invalid parameter: " +:+ field))).

Definition ErrMissingParam (field : string) : APIError :=
  WithField field (New 400 "MissingRequired" ("missing required parameter: " +:+ field)).

(** The code of a missing resource by its type. *)
Definition not_found_code (resourceType : string) : string :=
  default "ResourceNotFound" ((list_to_map [
    ("instance", "InstanceNotFound"); ("flavor", "FlavorNotFound"); ("image", "ImageNotFound");
    ("host", "HostNotFound"); ("network", "NetworkNotFound"); ("subnet", "SubnetNotFound"); ("port", "PortNotFound");
    ("volume", "VolumeNotFound"); ("snapshot", "SnapshotNotFound"); ("security group", "SecurityGroupNotFound");
    ("floating ip", "FloatingIPNotFound")] : gmap string string) !! resourceType).

Definition ErrNotFound (resourceType identifier : string) : APIError :=
  let e := New 404 (not_found_code resourceType) (resourceType +:+ " not found") in
  if decide (identifier = "") then e else WithDetail ("id: " +:+ identifier) e.

Definition ErrResourceInUse (resourceType : string) (dependentCount : Z) : APIError :=
  let e := New 409 "ResourceInUse" (resourceType +:+ " is in use and cannot be deleted") in
  if 0 <? dependentCount then WithDetail ("referenced by " +:+ Itoa dependentCount +:+ " active resources") e else e.

Definition ErrResourceProtected (resourceType : string) : APIError :=
  New 403 "ResourceProtected" (resourceType +:+ " is protected and cannot be modified or deleted").

Definition ErrQuotaExceeded (resource : string) (limit requested : Z) : APIError :=
  WithDetail ("limit: " +:+ Itoa limit +:+ ", requested: " +:+ Itoa requested)
    (New 403 "QuotaExceeded" ("quota exceeded for " +:+ resource)).

Definition ErrInternal (detail : string) : APIError :=
  let e := New 500 "InternalError" "an internal error occurred" in
  if decide (detail = "") then e else WithDetail detail e.

Definition ErrDatabase (operation : string) : APIError :=
  New 500 "DatabaseError" ("database error during " +:+ operation).

Definition ErrOperationFailed (operation detail : string) : APIError :=
  WithDetail detail (New 500 "OperationFailed" ("operation failed: " +:+ operation)).

Definition ErrServiceUnavailable (service : string) : APIError :=
  New 503 "ServiceUnavailable" ("service " +:+ service +:+ " is currently unavailable").

Definition ErrNoHostAvailable : APIError := New 503 "NoHostAvailable" "no compute host available for scheduling".

Section quoting.
Context {runes : RuneTables}.

Definition ErrAlreadyExists (resourceType name : string) : APIError :=
  New 409 "ResourceAlreadyExists" (resourceType +:+ " with name " +:+ Quote name +:+ " already exists").

Definition ErrStateConflict (resourceType currentState requiredState : string) : APIError :=
  New 409 "StateConflict"
    (resourceType +:+ " is in state " +:+ Quote currentState +:+ ", requires " +:+ Quote requiredState).

End quoting.

(** ** Lemmas *)

(** The status of an answer is that of the error. *)
Lemma Respond_status t e : (Respond t e).1 = HTTPStatus e.
Proof. unfold Respond. destruct (ctx_request_id t); by case_decide. Qed.

Lemma ErrNotFound_status t i : HTTPStatus (ErrNotFound t i) = 404.
Proof. unfold ErrNotFound. by case_decide. Qed.
