(* ===== verification/StackTemplates.v ===== *)
(** * Templates of stacks

    A model of the templates of internal/management/orchestration: their decoding
    from JSON text, the check of the dependency graph and the order of creation. The
    order in which Go ranges over a map is a parameter. *)
From Stdlib Require Import Ascii Sorting.
From S2P Require Import Prelude GoStrings Utf8 NetIP GoFloat GoDecimal.
From S2P Require Json.

Local Open Scope Z_scope.

(** The order in which the loops over a map visit it: any, and another one for each
    loop. *)
Class MapOrder := {
  range : nat → ∀ {A}, gmap string A → list (string * A);
  range_perm n {A} (m : gmap string A) : range n m ≡ₚ map_to_list m
}.

(** ** Templates *)

Module Template.

Record TemplateResource := mkResource {
  Type_ : string; Properties : option (gmap string Json.json); DependsOn : list string;
  Metadata : option (gmap string Json.json)
}.

Record TemplateParam := mkParam {
  p_Type : string; Default : Json.json; p_Description : string; Constraints : list string
}.

Record TemplateOutput := mkOutput { o_Description : string; Value : Json.json }.

Record ParsedTemplate := mkTemplate {
  Description : string; Parameters : option (gmap string TemplateParam);
  Resources : option (gmap string TemplateResource); Outputs : option (gmap string TemplateOutput)
}.

(** The members of a map as Marshal writes them: in the order of their names. *)
Definition members {A} (m : gmap string A) : list (string * A) :=
  merge_sort (λ x y, string_leb x.1 y.1) (map_to_list m).

(** A value decoded into an empty interface and written again: numbers become
    float64, the members of an object are those of a map. None if a number is out of
    range. *)
Fixpoint interface (j : Json.json) : option Json.json :=
  match j with
  | Json.JNum n => x ← ParseFloat n; Some (Json.JNum (FormatFloat x))
  | Json.JArr l =>
      Json.JArr <$> (fix each l := match l with [] => Some [] | j :: l => v ← interface j; cons v <$> each l end) l
  | Json.JObj m =>
      (λ m : gmap string Json.json, Json.JObj (members m))
      <$> (fix each m acc := match m with
                             | [] => Some acc
                             | (k, j) :: m => v ← interface j; each m (<[k := v]> acc)
                             end) m ∅
  | j => Some j
  end.

Definition any_ (j old : Json.json) : Json.json * bool :=
  match interface j with Some v => (v, true) | None => (old, false) end.

(** A map, whose elements are decoded into zero values; null makes it nil. *)
Definition map_ {A} (dec : Json.json → A → A * bool) (zero : A) (j : Json.json) (old : option (gmap string A))
    : option (gmap string A) * bool :=
  match j with
  | Json.JNull => (None, true)
  | Json.JObj m =>
      let r := fold_left (λ r kv, let (a, ok) := dec kv.2 zero in (<[kv.1 := a]> r.1, r.2 && ok)) m
                 (default ∅ old, true) in
      (Some r.1, r.2)
  | _ => (old, false)
  end.

Section decoding.
Context {unicode : UnicodeTables}.

Definition strings_ : Json.json → list string → list string * bool := Json.Decode.slice Json.Decode.string_ "".

Definition set_resource (k : string) (j : Json.json) (r : TemplateResource) : TemplateResource * bool :=
  if EqualFold k "type" then
    Json.Decode.field Json.Decode.string_ Type_ (λ v r, mkResource v (Properties r) (DependsOn r) (Metadata r)) j r
  else if EqualFold k "properties" then
    Json.Decode.field (map_ any_ Json.JNull) Properties (λ v r, mkResource (Type_ r) v (DependsOn r) (Metadata r)) j r
  else if EqualFold k "depends_on" then
    Json.Decode.field strings_ DependsOn (λ v r, mkResource (Type_ r) (Properties r) v (Metadata r)) j r
  else if EqualFold k "metadata" then
    Json.Decode.field (map_ any_ Json.JNull) Metadata (λ v r, mkResource (Type_ r) (Properties r) (DependsOn r) v) j r
  else (r, true).

Definition set_param (k : string) (j : Json.json) (p : TemplateParam) : TemplateParam * bool :=
  if EqualFold k "type" then
    Json.Decode.field Json.Decode.string_ p_Type (λ v p, mkParam v (Default p) (p_Description p) (Constraints p)) j p
  else if EqualFold k "default" then
    Json.Decode.field any_ Default (λ v p, mkParam (p_Type p) v (p_Description p) (Constraints p)) j p
  else if EqualFold k "description" then
    Json.Decode.field Json.Decode.string_ p_Description (λ v p, mkParam (p_Type p) (Default p) v (Constraints p)) j p
  else if EqualFold k "constraints" then
    Json.Decode.field strings_ Constraints (λ v p, mkParam (p_Type p) (Default p) (p_Description p) v) j p
  else (p, true).

Definition set_output (k : string) (j : Json.json) (o : TemplateOutput) : TemplateOutput * bool :=
  if EqualFold k "description" then
    Json.Decode.field Json.Decode.string_ o_Description (λ v o, mkOutput v (Value o)) j o
  else if EqualFold k "value" then Json.Decode.field any_ Value (λ v o, mkOutput (o_Description o) v) j o
  else (o, true).

Definition zero_resource : TemplateResource := mkResource "" None [] None.

Definition set_template (k : string) (j : Json.json) (t : ParsedTemplate) : ParsedTemplate * bool :=
  if EqualFold k "description" then
    Json.Decode.field Json.Decode.string_ Description (λ v t, mkTemplate v (Parameters t) (Resources t) (Outputs t)) j t
  else if EqualFold k "parameters" then
    Json.Decode.field (map_ (Json.Decode.struct set_param) (mkParam "" Json.JNull "" [])) Parameters
      (λ v t, mkTemplate (Description t) v (Resources t) (Outputs t)) j t
  else if EqualFold k "resources" then
    Json.Decode.field (map_ (Json.Decode.struct set_resource) zero_resource) Resources
      (λ v t, mkTemplate (Description t) (Parameters t) v (Outputs t)) j t
  else if EqualFold k "outputs" then
    Json.Decode.field (map_ (Json.Decode.struct set_output) (mkOutput "" Json.JNull)) Outputs
      (λ v t, mkTemplate (Description t) (Parameters t) (Resources t) v) j t
  else (t, true).

(** [json.Unmarshal] to a template, none on an error. *)
Definition unmarshal (raw : string) : option ParsedTemplate :=
  j ← Json.Text.unmarshal raw;
  let (t, ok) := Json.Decode.struct set_template j (mkTemplate "" None None None) in
  if ok : bool then Some t else None.

(** The resources of a template, a nil map being an empty one. *)
Definition resources (t : ParsedTemplate) : gmap string TemplateResource := default ∅ (Resources t).

(** The text of a decoder's error is a parameter. *)
Definition parseTemplate (decode_error : string → string) (raw : string) : result string ParsedTemplate :=
  if decide (TrimSpace raw = "") then Err "template is empty"
  else match unmarshal raw with
       | None => Err ("invalid template JSON: " +:+ decode_error raw)
       | Some t =>
           if (size (resources t) =? 0)%nat then Err "template must contain at least one resource" else Ok t
       end.

End decoding.

(** [json.Marshal] of a map of values, of the outputs and of the parameters. *)
Definition marshal_map {A} (f : A → Json.json) (m : option (gmap string A)) : string :=
  Json.Text.marshal (match m with
                     | None => Json.JNull
                     | Some m => Json.JObj ((λ kv, (kv.1, f kv.2)) <$> members m)
                     end).

Definition output_json (o : TemplateOutput) : Json.json :=
  Json.JObj ((if decide (o_Description o = "") then [] else [("description", Json.JStr (o_Description o))])
             ++ [("value", Value o)]).

Definition resource_types : list string := [
  "VC::Compute::Instance"; "VC::Storage::Volume"; "VC::Network::Network"; "VC::Network::Subnet";
  "VC::Network::SecurityGroup"; "VC::Network::FloatingIP"; "VC::DNS::Zone"; "VC::DNS::RecordSet";
  "VC::ObjectStorage::Bucket"; "VC::Network::Router"; "VC::Compute::KeyPair"].

Definition isValidResourceType (t : string) : bool := bool_decide (t ∈ resource_types).
End Template.
Import Template.

(** ** The dependency graph *)

Module Graph.
Notation Resources_ := (gmap string TemplateResource).

(** [resources[node].DependsOn]: an absent resource has no dependencies. *)
Definition deps (R : Resources_) (node : string) : list string := default [] (DependsOn <$> R !! node).

(** Every name that occurs: the resources and what they depend on. *)
Definition nodes (R : Resources_) : gset string :=
  dom R ∪ list_to_set (concat (DependsOn ∘ snd <$> map_to_list R)).

(** Each level of a search visits a new node, so that this fuel is enough
    ([dfs_spec], [visit_spec]). *)
Definition fuel (R : Resources_) : nat := S (size (nodes R)).

(** The colours of the search: 0 unvisited, 1 visiting, 2 visited. *)
Definition colour (v : gmap string nat) (node : string) : nat := default 0%nat (v !! node).

(** A list of dependencies: the first error ends the search. The result is none
    without fuel, else the node of a cycle or the colours. *)
Fixpoint dfs_each (go : string → gmap string nat → option (string + gmap string nat)) (l : list string)
    (v : gmap string nat) : option (string + gmap string nat) :=
  match l with
  | [] => Some (inr v)
  | d :: l => r ← go d v; match r with inl e => Some (inl e) | inr v => dfs_each go l v end
  end.

Fixpoint dfs (n : nat) (R : Resources_) (node : string) (v : gmap string nat) : option (string + gmap string nat) :=
  match n with
  | O => None
  | S n =>
      if (colour v node =? 1)%nat then Some (inl node)
      else if (colour v node =? 2)%nat then Some (inr v)
      else r ← dfs_each (dfs n R) (deps R node) (<[node := 1%nat]> v);
           Some (match r with inl e => inl e | inr v => inr (<[node := 2%nat]> v) end)
  end.

(** The loop over all nodes. *)
Fixpoint search (n : nat) (R : Resources_) (l : list string) (v : gmap string nat) : option (string + gmap string nat) :=
  match l with
  | [] => Some (inr v)
  | node :: l =>
      if (colour v node =? 0)%nat then
        r ← dfs n R node v; match r with inl e => Some (inl e) | inr v => search n R l v end
      else search n R l v
  end.

(** The first dependency that is no resource, with the resource that has it. *)
Definition undefined (R : Resources_) (l : list (string * TemplateResource)) : option (string * string) :=
  List.find (λ p, bool_decide (R !! p.2 = None)) (concat ((λ kr, pair kr.1 <$> DependsOn kr.2) <$> l)).

Section validation.
Context {order : MapOrder} {runes : RuneTables}.

(** The error, if there is one; the last case does not occur. *)
Definition validateDependencies (R : Resources_) : option string :=
  match undefined R (range 1 R) with
  | Some (logicalID, dep) =>
      Some ("resource " +:+ Quote logicalID +:+ " depends on undefined resource " +:+ Quote dep)
  | None =>
      match search (fuel R) R (fst <$> range 2 R) ∅ with
      | Some (inl node) => Some ("circular dependency detected involving " +:+ Quote node)
      | Some (inr _) => None
      | None => Some "out of fuel"
      end
  end.
End validation.

(** ** The order of creation *)

Fixpoint visit_each (go : string → gset string * list string → option (gset string * list string)) (l : list string)
    (s : gset string * list string) : option (gset string * list string) :=
  match l with
  | [] => Some s
  | d :: l => s ← go d s; visit_each go l s
  end.

Fixpoint visit (n : nat) (R : Resources_) (node : string) (s : gset string * list string)
    : option (gset string * list string) :=
  match n with
  | O => None
  | S n =>
      if decide (node ∈ s.1) then Some s
      else s ← visit_each (visit n R) (deps R node) ({[node]} ∪ s.1, s.2); Some (s.1, s.2 ++ [node])
  end.

(** The inner loop of the sort: the smallest of [x] and the rest, and the rest with
    what was exchanged. *)
Fixpoint exchange (x : string) (l : list string) : string * list string :=
  match l with
  | [] => (x, [])
  | y :: l =>
      if string_leb x y then let (m, l) := exchange x l in (m, y :: l)
      else let (m, l) := exchange y l in (m, x :: l)
  end.

Fixpoint exchange_sort (n : nat) (l : list string) : list string :=
  match n, l with
  | S n, x :: l => let (m, l) := exchange x l in m :: exchange_sort n l
  | _, _ => []
  end.

Section sorting.
Context {order : MapOrder}.

Definition sorted_keys (R : Resources_) : list string :=
  let keys := fst <$> range 3 R in exchange_sort (length keys) keys.

Definition topologicalSort (R : Resources_) : list string :=
  match visit_each (visit (fuel R) R) (sorted_keys R) (∅, []) with Some s => s.2 | None => [] end.
End sorting.
End Graph.
Import Graph.

(** ** Lemmas on the graph *)

Section graph_lemmas.
Context (R : gmap string TemplateResource).

Definition depends (x d : string) : Prop := d ∈ deps R x.
Definition acyclic : Prop := ∀ x, ¬ tc depends x x.
Definition defined : Prop := ∀ x d, depends x d → is_Some (R !! d).

Lemma depends_nodes x d : depends x d → d ∈ nodes R.
Proof.
  unfold depends, deps, nodes. destruct (R !! x) as [r|] eqn:E; simpl; [|by intros ?%elem_of_nil].
  intros Hd. apply elem_of_union_r, elem_of_list_to_set, list_elem_of_In, in_concat.
  exists (DependsOn r). split; [|by apply list_elem_of_In].
  apply list_elem_of_In, list_elem_of_fmap. exists (x, r). split; [done|]. by apply elem_of_map_to_list.
Qed.

Lemma defined_nodes x : defined → x ∈ nodes R → x ∈ dom R.
Proof.
  intros Hd [Hx|Hx]%elem_of_union; [done|]. apply elem_of_list_to_set in Hx.
  apply list_elem_of_In, in_concat in Hx as (l & Hl & Hx). apply list_elem_of_In, list_elem_of_fmap in Hl as ([y r] & -> & Hy).
  apply elem_of_map_to_list in Hy. apply elem_of_dom, (Hd y). unfold depends, deps. rewrite Hy. simpl. by apply list_elem_of_In.
Qed.

Lemma acc_acyclic x : Acc (flip depends) x → ¬ tc depends x x.
Proof.
  induction 1 as [x _ IH]. intros Hx. inversion Hx as [? ? Hd|? y ? Hd Ht]; subst.
  - by apply (IH x Hd).
  - apply (IH y Hd). by eapply tc_r.
Qed.

Lemma size_less (s t : gset string) x : x ∈ s → x ∉ t → (size (s ∖ ({[x]} ∪ t)) < size (s ∖ t))%nat.
Proof. intros. apply subset_size. set_solver. Qed.

Lemma size_mono (s t u : gset string) : t ⊆ u → (size (s ∖ u) ≤ size (s ∖ t))%nat.
Proof. intros. apply subseteq_size. set_solver. Qed.

(** *** The check *)

(** Only visiting and visited nodes are stored. *)
Definition coloured (v : gmap string nat) : Prop := ∀ x c, v !! x = Some c → c = 1%nat ∨ c = 2%nat.

Lemma coloured_insert v x c : coloured v → c = 1%nat ∨ c = 2%nat → coloured (<[x := c]> v).
Proof. intros Hv Hc y c'. rewrite lookup_insert_Some. intros [[_ <-]|[_ Hy]]; [done|by eapply Hv]. Qed.

Lemma coloured_cases v x : coloured v → v !! x = None ∨ colour v x = 1%nat ∨ colour v x = 2%nat.
Proof. unfold colour. intros Hv. destruct (v !! x) as [c|] eqn:E; [|by left]. right. simpl. by apply (Hv x). Qed.


(** Nothing that was visited depends on itself. *)
Definition black_acc (v : gmap string nat) : Prop := ∀ x, colour v x = 2%nat → Acc (flip depends) x.

Definition extends (v v' : gmap string nat) : Prop :=
  dom v ⊆ dom v' ∧ (∀ x, colour v x = 2%nat → colour v' x = 2%nat) ∧ (∀ x, colour v' x = 1%nat ↔ colour v x = 1%nat).

Lemma extends_refl v : extends v v.
Proof. done. Qed.

Lemma extends_trans v1 v2 v3 : extends v1 v2 → extends v2 v3 → extends v1 v3.
Proof.
  intros (Hd1 & H1 & G1) (Hd2 & H2 & G2). split; [by etrans|]. split; [by eauto|]. intros x. by rewrite G2, G1.
Qed.

Lemma colour_insert v x c y : colour (<[x := c]> v) y = if decide (y = x) then c else colour v y.
Proof. unfold colour. case_decide; subst; [by rewrite lookup_insert_eq|by rewrite lookup_insert_ne]. Qed.

(** What a search may return: a node on a cycle, or colours that extend the old ones
    and in which the given nodes are visited. *)
Definition searched (l : list string) (v : gmap string nat) (o : option (string + gmap string nat)) : Prop :=
  match o with
  | None => False
  | Some (inl e) => tc depends e e
  | Some (inr v') => coloured v' ∧ black_acc v' ∧ extends v v' ∧ ∀ d, d ∈ l → colour v' d = 2%nat
  end.

(** The colours before a search of [node], which is among the names. *)
Definition ready (n : nat) (node : string) (v : gmap string nat) : Prop :=
  coloured v ∧ black_acc v ∧ node ∈ nodes R ∧ (size (nodes R ∖ dom v) < n)%nat
  ∧ ∀ g, colour v g = 1%nat → tc depends g node.

Lemma dfs_each_spec n l v :
  (∀ d v, d ∈ l → ready n d v → searched [d] v (dfs n R d v)) →
  coloured v → black_acc v → (∀ d, d ∈ l → ready n d v) → searched l v (dfs_each (dfs n R) l v).
Proof.
  revert v. induction l as [|d l IH]; intros v Hgo Hc Hb Hr; simpl.
  { refine (conj Hc (conj Hb (conj (extends_refl v) _))). intros d []%elem_of_nil. }
  pose proof (Hgo d v ltac:(by left) (Hr d ltac:(by left))) as Hd.
  destruct (dfs n R d v) as [[e|v1]|]; simpl in Hd |- *; [done| |done].
  destruct Hd as (Hc1 & Hb1 & He1 & H1).
  assert (searched l v1 (dfs_each (dfs n R) l v1)) as Hs.
  { apply IH; [intros; apply Hgo; [by right|done]|done|done|]. intros d' Hd'.
    destruct (Hr d' ltac:(by right)) as (_ & _ & Hn & Hsz & Hg). refine (conj Hc1 (conj Hb1 (conj Hn (conj _ _)))).
    - pose proof (size_mono (nodes R) _ _ (proj1 He1)). lia.
    - intros g Hg1. apply Hg, He1, Hg1. }
  destruct (dfs_each (dfs n R) l v1) as [[e|v2]|]; simpl in Hs |- *; [done| |done].
  destruct Hs as (Hc2 & Hb2 & He2 & H2). split; [done|]. split; [done|]. split; [by eapply extends_trans|].
  intros d' [->|Hd']%elem_of_cons; [|by apply H2]. apply He2, H1. by left.
Qed.

Lemma dfs_spec n node v : ready n node v → searched [node] v (dfs n R node v).
Proof.
  revert node v. induction n as [|n IH]; intros node v (Hc & Hb & Hn & Hs & Hg); [lia|]. cbn [dfs].
  destruct (Nat.eqb_spec (colour v node) 1) as [E1|E1]; [by apply Hg|].
  destruct (Nat.eqb_spec (colour v node) 2) as [E2|E2].
  { refine (conj Hc (conj Hb (conj (extends_refl v) _))). by intros d ->%list_elem_of_singleton. }
  assert (v !! node = None) as Hnew.
  { by destruct (coloured_cases v node Hc) as [?|[?|?]]. }
  pose proof (size_less (nodes R) (dom v) node Hn ltac:(by apply not_elem_of_dom)) as Hless.
  set (v1 := <[node := 1%nat]> v).
  assert (searched (deps R node) v1 (dfs_each (dfs n R) (deps R node) v1)) as Hd.
  { assert (coloured v1) as Hc1 by (apply coloured_insert; auto).
    assert (black_acc v1) as Hb1.
    { intros x. unfold v1. rewrite colour_insert. case_decide; [done|apply Hb]. }
    apply dfs_each_spec; [intros; by apply IH|done|done|]. intros d Hd.
    refine (conj Hc1 (conj Hb1 (conj (depends_nodes _ _ Hd) (conj _ _)))).
    - unfold v1. rewrite dom_insert_L. lia.
    - intros g. unfold v1. rewrite colour_insert. case_decide as Eg; [subst; intros _; by apply tc_once|].
      intros Hg1. eapply tc_r; [by apply Hg|done]. }
  destruct (dfs_each (dfs n R) (deps R node) v1) as [[e|v2]|]; simpl in Hd |- *; [done| |done].
  destruct Hd as (Hc2 & Hb2 & (Hdom & He2 & Hg2) & H2).
  assert (∀ x, colour v1 x = if decide (x = node) then 1%nat else colour v x) as Hv1 by (intros; apply colour_insert).
  split; [|split; [|split]].
  - apply coloured_insert; auto.
  - intros x. rewrite colour_insert. case_decide as Ex; [subst; intros _|apply Hb2].
    constructor. intros d Hd. by apply Hb2, H2.
  - split; [|split].
    + rewrite dom_insert_L. unfold v1 in Hdom. rewrite dom_insert_L in Hdom. set_solver.
    + intros x Hx. rewrite colour_insert. case_decide; [done|]. apply He2. rewrite Hv1. by rewrite decide_False.
    + intros x. rewrite colour_insert. case_decide as Ex; [subst; by split|].
      rewrite Hg2, Hv1, decide_False by done. done.
  - intros d ->%list_elem_of_singleton. by rewrite colour_insert, decide_True.
Qed.

Lemma search_spec n l v :
  (size (nodes R) < n)%nat → coloured v → black_acc v → (∀ g, colour v g ≠ 1%nat) → (∀ d, d ∈ l → d ∈ nodes R) →
  searched l v (search n R l v).
Proof.
  intros Hn. revert v. induction l as [|d l IH]; intros v Hc Hb Hg Hl; cbn [search].
  { refine (conj Hc (conj Hb (conj (extends_refl v) _))). intros d []%elem_of_nil. }
  destruct (Nat.eqb_spec (colour v d) 0) as [E|E].
  - assert (ready n d v) as Hr.
    { refine (conj Hc (conj Hb (conj (Hl d ltac:(by left)) (conj _ _)))); [|intros g ?; by destruct (Hg g)].
      pose proof (subseteq_size (nodes R ∖ dom v) (nodes R) ltac:(set_solver)). lia. }
    pose proof (dfs_spec n d v Hr) as Hd. destruct (dfs n R d v) as [[e|v1]|]; simpl in Hd |- *; [done| |done].
    destruct Hd as (Hc1 & Hb1 & He1 & H1).
    assert (searched l v1 (search n R l v1)) as Hs.
    { apply IH; [done|done| |intros; apply Hl; by right]. intros g Hg1. by apply (Hg g), He1. }
    destruct (search n R l v1) as [[e|v2]|]; simpl in Hs |- *; [done| |done].
    destruct Hs as (Hc2 & Hb2 & He2 & H2). refine (conj Hc2 (conj Hb2 (conj (extends_trans _ _ _ He1 He2) _))).
    intros d' [->|Hd']%elem_of_cons; [|by apply H2]. apply He2, H1. by left.
  - pose proof (IH v Hc Hb Hg ltac:(intros; apply Hl; by right)) as Hs.
    destruct (search n R l v) as [[e|v2]|]; simpl in Hs |- *; [done| |done].
    destruct Hs as (Hc2 & Hb2 & He2 & H2). refine (conj Hc2 (conj Hb2 (conj He2 _))).
    intros d' [->|Hd']%elem_of_cons; [|by apply H2]. apply He2.
    destruct (coloured_cases v d Hc) as [Ed|[Ed|Ed]]; [|by destruct (Hg d)|done].
    destruct E. unfold colour. by rewrite Ed.
Qed.

Lemma undefined_None l : l ≡ₚ map_to_list R → undefined R l = None ↔ defined.
Proof.
  intros Hl. unfold undefined. rewrite find_none_elem. unfold defined, depends, deps. split.
  - intros H x d Hd. destruct (R !! x) as [r|] eqn:E; simpl in Hd; [|by apply elem_of_nil in Hd].
    apply not_eq_None_Some. intros Hn. specialize (H (x, d)). simpl in H. rewrite bool_decide_eq_true_2 in H by done.
    discriminate H. apply list_elem_of_In, in_concat. exists (pair x <$> DependsOn r).
    split; apply list_elem_of_In; [|by apply list_elem_of_fmap_2].
    apply list_elem_of_fmap. exists (x, r). split; [done|]. rewrite Hl. by apply elem_of_map_to_list.
  - intros H [x d] Hp. apply bool_decide_eq_false_2. simpl. apply not_eq_None_Some, (H x).
    apply list_elem_of_In, in_concat in Hp as (ps & Hps & Hp). apply list_elem_of_In, list_elem_of_fmap in Hps as ([y r] & -> & Hy).
    apply list_elem_of_In, list_elem_of_fmap in Hp as (d' & [= -> ->] & Hd). rewrite Hl in Hy.
    apply elem_of_map_to_list in Hy. rewrite Hy. done.
Qed.

(** *** The order *)

(** Every dependency comes before what depends on it. *)
Definition ordered (l : list string) : Prop := ∀ l1 x l2, l = l1 ++ x :: l2 → ∀ d, depends x d → d ∈ l1.

Lemma dependencies_snoc l x : ordered l → (∀ d, depends x d → d ∈ l) → ordered (l ++ [x]).
Proof.
  intros Hl Hx l1 y l2 E d Hd. destruct l2 as [|z l2 _] using rev_ind.
  - apply app_inj_tail in E as [-> ->]. by apply Hx.
  - rewrite app_comm_cons, app_assoc in E. apply app_inj_tail in E as [-> ->]. by eapply Hl.
Qed.

(** Visited and not yet in the order. *)
Definition open_ (s : gset string * list string) (x : string) : Prop := x ∈ s.1 ∧ x ∉ s.2.

(** The state of the search is consistent: each name is in the order at most once,
    and only if it is visited. *)
Definition listed (s : gset string * list string) : Prop :=
  NoDup s.2 ∧ (∀ x, x ∈ s.2 → x ∈ s.1) ∧ s.1 ⊆ nodes R.

(** What a visit of some nodes does: they are visited, nothing else remains open,
    and without cycles the order stays right. *)
Definition visited (l : list string) (s : gset string * list string) (o : option (gset string * list string)) : Prop :=
  ∃ s', o = Some s' ∧ listed s' ∧ s.1 ⊆ s'.1 ∧ (∀ x, open_ s' x ↔ open_ s x) ∧ (∀ d, d ∈ l → d ∈ s'.1)
    ∧ (acyclic → (∀ g d, d ∈ l → open_ s g → tc depends g d) → ordered s.2 → ordered s'.2).

Lemma visit_each_spec n l s :
  (∀ d s, d ∈ l → listed s → (size (nodes R ∖ s.1) < n)%nat → visited [d] s (visit n R d s)) →
  listed s → (size (nodes R ∖ s.1) < n)%nat → visited l s (visit_each (visit n R) l s).
Proof.
  revert s. induction l as [|d l IH]; intros s Hgo Hs Hn; cbn [visit_each].
  { exists s. split_and!; try done. intros d []%elem_of_nil. }
  destruct (Hgo d s ltac:(by left) Hs Hn) as (s1 & -> & Hs1 & Hv1 & Ho1 & H1 & Hord1). cbn [mbind option_bind].
  pose proof (size_mono (nodes R) _ _ Hv1).
  destruct (IH s1) as (s2 & -> & Hs2 & Hv2 & Ho2 & H2 & Hord2); [intros; apply Hgo; [by right|done|done]|done|lia|].
  exists s2. split_and!; try done.
  - by etrans.
  - intros x. by rewrite Ho2, Ho1.
  - intros d' [->|Hd']%elem_of_cons; [|by apply H2]. apply Hv2, H1. by left.
  - intros Ha Hg Hord. apply Hord2; [done|intros g d' Hd' Hg1; apply Hg; [by right|by apply Ho1]|].
    apply Hord1; [done|intros g d' ->%list_elem_of_singleton Hg1; apply Hg; [by left|done]|done].
Qed.

Lemma visit_spec n node s :
  node ∈ nodes R → listed s → (size (nodes R ∖ s.1) < n)%nat → visited [node] s (visit n R node s).
Proof.
  revert node s. induction n as [|n IH]; intros node s Hnode Hs Hn; [lia|]. cbn [visit].
  case_decide as E; [exists s; split_and!; try done; by intros d ->%list_elem_of_singleton|].
  pose proof (size_less (nodes R) s.1 node Hnode E) as Hless. destruct Hs as (Hnd & Hin & Hsub).
  destruct (visit_each_spec n (deps R node) ({[node]} ∪ s.1, s.2)) as (s1 & -> & (Hnd1 & Hin1 & Hsub1) & Hv1 & Ho1 & H1 & Hord1).
  { intros d t Hd. apply IH. by eapply depends_nodes. }
  { split_and!; simpl; [done|intros; apply elem_of_union_r; auto|set_solver]. }
  { simpl. lia. }
  simpl in Hv1. assert (open_ s1 node) as [_ Hnew].
  { apply Ho1. split; simpl; [set_solver|]. intros H%Hin. done. }
  cbn [mbind option_bind]. exists (s1.1, s1.2 ++ [node]). split; [done|]. split; [|split; [|split; [|split]]]; simpl.
  - split; [|split]; simpl; [|intros x [Hx|Hx%list_elem_of_singleton]%elem_of_app; [auto|set_solver]|done].
    apply list.NoDup_app. split_and!; [done|intros x Hx ->%list_elem_of_singleton; done|apply NoDup_singleton].
  - set_solver.
  - intros x. specialize (Ho1 x). unfold open_ in *. simpl in *.
    rewrite elem_of_app, list_elem_of_singleton. split.
    + intros [Hx Hnx]. destruct Ho1 as [Ho1 _]. destruct Ho1; [|set_solver]. split; [done|]. naive_solver.
    + intros [Hx Hnx]. destruct Ho1 as [_ Ho1]. destruct Ho1 as [? ?]; [set_solver|]. split; [done|].
      intros [?| ->]; done.
  - intros d ->%list_elem_of_singleton. set_solver.
  - intros Ha Hg Hord. simpl in Hord1. assert (ordered s1.2) as Ho.
    { apply Hord1; [done| |done]. intros g d Hd [Hg1 Hg2]; simpl in *. apply elem_of_union in Hg1 as [Hg1%elem_of_singleton|Hg1]; [subst g|].
      - by apply tc_once.
      - eapply tc_r; [|exact Hd]. apply Hg; [by left|by split]. }
    apply dependencies_snoc; [done|]. intros d Hd. destruct (decide (d ∈ s1.2)) as [|Hnd']; [done|].
    assert (open_ s1 d) as Hopen by (split; [by apply H1|done]). apply Ho1 in Hopen as [Hd1 Hd2]; simpl in *.
    exfalso. apply elem_of_union in Hd1 as [Hd1%elem_of_singleton|Hd1]; [subst d; by apply (Ha node), tc_once|].
    apply (Ha d). eapply tc_r; [|exact Hd]. apply Hg; [by left|by split].
Qed.
End graph_lemmas.

(** ** The sort *)

Lemma exchange_perm x l : (exchange x l).1 :: (exchange x l).2 ≡ₚ x :: l.
Proof.
  revert x. induction l as [|y l IH]; intros x; [done|]. cbn [exchange]. destruct (string_leb x y).
  - specialize (IH x). destruct (exchange x l) as [m l']; simpl in *. rewrite Permutation_swap, IH. apply Permutation_swap.
  - specialize (IH y). destruct (exchange y l) as [m l']; simpl in *. by rewrite Permutation_swap, IH.
Qed.

Lemma exchange_least x l : Forall (λ y, string_leb (exchange x l).1 y = true) (x :: l).
Proof.
  revert x. assert (∀ x, string_leb x x = true) as Hrefl by (intros x; destruct (string_leb x x) eqn:E; [done|by apply string_leb_total in E as E'; rewrite E in E']).
  induction l as [|y l IH]; intros x; cbn [exchange]; [by repeat constructor|].
  destruct (string_leb x y) eqn:E; [specialize (IH x)|specialize (IH y)].
  - destruct (exchange x l) as [m l']; simpl in *. inversion_clear IH. repeat constructor; [done| |done].
    by eapply string_leb_trans.
  - destruct (exchange y l) as [m l']; simpl in *. inversion_clear IH. repeat constructor; [|done|done].
    by eapply string_leb_trans, string_leb_total.
Qed.

Lemma exchange_sort_perm n l : (length l ≤ n)%nat → exchange_sort n l ≡ₚ l.
Proof.
  revert l. induction n as [|n IH]; intros [|x l] Hn; simpl in *; [done|lia|done|].
  pose proof (exchange_perm x l) as Hp. destruct (exchange x l) as [m l']; simpl in *.
  rewrite IH; [done|]. apply Permutation_length in Hp. simpl in Hp. lia.
Qed.

Lemma exchange_sort_sorted n l :
  (length l ≤ n)%nat → StronglySorted (λ x y, string_leb x y = true) (exchange_sort n l).
Proof.
  revert l. induction n as [|n IH]; intros [|x l] Hn; simpl in *; try constructor.
  pose proof (exchange_perm x l) as Hp. pose proof (exchange_least x l) as Hm.
  destruct (exchange x l) as [m l']; simpl in *.
  assert (length l' ≤ n)%nat by (apply Permutation_length in Hp; simpl in Hp; lia).
  constructor; [by apply IH|]. rewrite exchange_sort_perm by done.
  rewrite <- Hp in Hm. by apply list.Forall_cons in Hm as [_ Hm].
Qed.

Section order.
Context {order : MapOrder}.

Lemma range_keys n {A} (m : gmap string A) : fst <$> range n m ≡ₚ (map_to_list m).*1.
Proof. by rewrite (range_perm n m). Qed.

Lemma sorted_keys_perm R : sorted_keys R ≡ₚ (map_to_list R).*1.
Proof. unfold sorted_keys. by rewrite exchange_sort_perm, range_keys. Qed.

Lemma elem_of_keys {A} (m : gmap string A) l x : l ≡ₚ (map_to_list m).*1 → x ∈ l ↔ x ∈ dom m.
Proof.
  intros ->. rewrite elem_of_dom, list_elem_of_fmap. split.
  - intros ([y a] & -> & Hy). apply elem_of_map_to_list in Hy. by eexists.
  - intros [a Ha]. exists (x, a). split; [done|]. by apply elem_of_map_to_list.
Qed.

Lemma keys_nodes R l x : l ≡ₚ (map_to_list R).*1 → x ∈ l → x ∈ nodes R.
Proof. intros Hl Hx. apply elem_of_union_l. by apply (elem_of_keys R l). Qed.

(** The sort always ends; it lists each name once and no resource is missing. *)
Lemma topologicalSort_total R :
  NoDup (topologicalSort R) ∧ (∀ x, x ∈ topologicalSort R → x ∈ nodes R) ∧ (∀ x, x ∈ dom R → x ∈ topologicalSort R)
  ∧ (acyclic R → ordered R (topologicalSort R)).
Proof.
  unfold topologicalSort.
  destruct (visit_each_spec R (fuel R) (sorted_keys R) (∅, [])) as (s & -> & (Hnd & Hin & Hsub) & _ & Ho & H & Hord).
  - intros d s Hd. apply visit_spec. by eapply keys_nodes; [apply sorted_keys_perm|].
  - split_and!; simpl; [apply NoDup_nil_2|intros x []%elem_of_nil|set_solver].
  - unfold fuel. simpl. rewrite difference_empty_L. lia.
  - assert (∀ x, ¬ open_ s x) as Hno by (intros x [Hx _]%Ho; simpl in Hx; set_solver).
    split_and!; [done|intros x Hx; by apply Hsub, Hin| |].
    + intros x Hx. destruct (decide (x ∈ s.2)) as [|Hn]; [done|]. exfalso. apply (Hno x). split; [|done].
      apply H. by apply (elem_of_keys R _ x (sorted_keys_perm R)).
    + intros Ha. apply Hord; [done| |]; [intros g d _ [Hg _]; simpl in Hg; set_solver|].
      intros l1 x l2 E. by destruct l1.
Qed.

Context {runes : RuneTables}.

Lemma validateDependencies_None R : validateDependencies R = None ↔ defined R ∧ acyclic R.
Proof.
  unfold validateDependencies. pose proof (undefined_None R _ (range_perm 1 R)) as Hu.
  destruct (undefined R (range 1 R)) as [[x d]|]; [split; [done|intros [Hd _]; by apply Hu in Hd]|].
  assert (searched R (fst <$> range 2 R) ∅ (search (fuel R) R (fst <$> range 2 R) ∅)) as Hs.
  { apply search_spec; [unfold fuel; lia|by intros x c|intros x ?; done|by intros g|].
    intros d Hd. by eapply keys_nodes; [apply range_keys|]. }
  destruct (search _ _ _ _) as [[e|v]|]; simpl in Hs; [| |done].
  - split; [done|]. intros [_ Ha]. by destruct (Ha e).
  - destruct Hs as (_ & Hb & _ & H). split; [intros _|done]. split; [by apply Hu|]. intros x Hx.
    assert (x ∈ dom R) as Hd.
    { apply elem_of_dom. inversion Hx as [? ? Hd|? y ? Hd _]; subst; unfold depends, deps in Hd;
        destruct (R !! x); try done; by apply elem_of_nil in Hd. }
    apply (acc_acyclic R x); [|done]. apply Hb, H. by apply (elem_of_keys R _ x (range_keys 2 R)).
Qed.
End order.

(** ** Theorems *)

(** C18: A template is accepted exactly if every dependency is one of its resources
    and no resource depends on itself, directly or through others; the order in which
    Go ranges over the map does not matter and the search always ends. *)
Theorem validation_exact `{MapOrder} `{RuneTables} (R : gmap string TemplateResource) :
  validateDependencies R = None
  ↔ (∀ x d, d ∈ deps R x → d ∈ dom R) ∧ (∀ x, ¬ tc (λ x d, d ∈ deps R x) x x).
Proof.
  rewrite validateDependencies_None. unfold defined, acyclic, depends. by setoid_rewrite elem_of_dom.
Qed.

(** C19: In an accepted template the order of creation has every resource once, after
    all that it depends on. *)
Theorem creation_order `{MapOrder} `{RuneTables} (R : gmap string TemplateResource)
    (Hv : validateDependencies R = None) :
  NoDup (topologicalSort R) ∧ (∀ x, x ∈ topologicalSort R ↔ x ∈ dom R)
  ∧ ∀ l1 x l2, topologicalSort R = l1 ++ x :: l2 → ∀ d, d ∈ deps R x → d ∈ l1.
Proof.
  apply validateDependencies_None in Hv as [Hd Ha]. destruct (topologicalSort_total R) as (Hnd & Hn & Hin & Hord).
  split; [done|]. split; [|by apply Hord]. intros x. split; [|apply Hin]. intros Hx. by apply (defined_nodes R x Hd), Hn.
Qed.

(** The order of creation does not depend on the order in which Go ranges over
    the map: two runs on one template give the same order. *)
Theorem creation_order_deterministic (o1 o2 : MapOrder) (R : gmap string TemplateResource) :
  topologicalSort (order := o1) R = topologicalSort (order := o2) R.
Proof.
  unfold topologicalSort. replace (sorted_keys (order := o2) R) with (sorted_keys (order := o1) R); [done|].
  assert (∀ o : MapOrder, StronglySorted (λ x y, string_leb x y = true) (sorted_keys (order := o) R)) as Hs
    by (intros o; by apply exchange_sort_sorted).
  apply (StronglySorted_unique_strong (λ x y, string_leb x y = true)); [|done|done|].
  - intros x y _ _. apply string_leb_antisym.
  - by rewrite !sorted_keys_perm.
Qed.

(** ** Witnesses *)

(** A loop over a map in the order of the model. *)
Definition plain_order : MapOrder.
Proof. refine {| range _ A m := map_to_list m |}. done. Defined.

(** A network and a machine on it. *)
Definition example_resources : gmap string TemplateResource :=
  {[ "net" := mkResource "VC::Network::Network" None [] None;
     "vm" := mkResource "VC::Compute::Instance" None ["net"] None ]}.

Lemma creation_order_witness :
  topologicalSort (order := plain_order) example_resources = ["net"; "vm"] ∧ "net" ∈ ["net"].
Proof.
  assert (topologicalSort (order := plain_order) example_resources = ["net"; "vm"]) as E by (vm_compute; reflexivity).
  split; [exact E|].
  refine (proj2 (proj2 (@creation_order plain_order ascii_runes example_resources ltac:(vm_compute; reflexivity)))
            ["net"] "vm" [] E "net" _).
  vm_compute. left.
Defined.
