(* ===== verification/Stacks.v ===== *)
(** * Orchestration of stacks

    A model of internal/management/orchestration: the handlers of stacks, resources,
    events and templates over their four tables. The order in which Go ranges over a
    map and in which the database returns rows are parameters. *)
From Stdlib Require Import Ascii Sorting.
From S2P Require Import Prelude GoStrings Utf8 NetIP Http ApiErrors StackTemplates.
From S2P Require Json.
Import Template Graph.

Local Open Scope Z_scope.

(** The rows a query returns: in any order, or sorted by a column whose equal values
    come in any order; texts are compared by the collation of the database. *)
Class Queries := {
  unordered : ∀ {A}, list A → list A;
  unordered_perm {A} (l : list A) : unordered l ≡ₚ l;
  order_by : ∀ {A}, (A → A → bool) → list A → list A;
  order_by_perm {A} (le : A → A → bool) l : order_by le l ≡ₚ l;
  collate : string → string → bool
}.

(** ** Rows *)

Record Stack := mkStack {
  ID : string; Name : string; s_Description : string; ProjectID : string; Status : string; StatusReason : string;
  Template_ : string; TemplateDesc : string; s_Parameters : string; s_Outputs : string; Tags : string; Timeout : Z;
  DisableRollback : bool; ParentID : string; ResourceCount : Z; CreatedAt : Z; UpdatedAt : Z
}.

Record StackResource := mkStackResource {
  r_ID : string; r_StackID : string; r_LogicalID : string; r_PhysicalID : string; r_Type : string; r_Status : string;
  r_StatusReason : string; r_Properties : string; r_DependsOn : string; r_RequiredBy : string; r_Metadata : string;
  r_CreatedAt : Z; r_UpdatedAt : Z
}.

Record StackEvent := mkEvent {
  e_ID : Z; e_StackID : string; e_ResourceID : string; e_LogicalID : string; e_ResourceType : string;
  EventType : string; e_Status : string; e_StatusReason : string; e_PhysicalID : string; Timestamp : Z
}.

Record StackTemplate := mkStackTemplate {
  t_ID : string; t_Name : string; t_Description : string; t_ProjectID : string; t_Version : string;
  t_Template : string; IsPublic : bool; Category : string; t_CreatedAt : Z; t_UpdatedAt : Z
}.

Record DB := mkDB {
  stacks : list Stack; stack_resources : list StackResource; events : list StackEvent; templates : list StackTemplate
}.

Definition set_stacks (l : list Stack) (db : DB) : DB := mkDB l (stack_resources db) (events db) (templates db).
Definition set_resources (l : list StackResource) (db : DB) : DB := mkDB (stacks db) l (events db) (templates db).
Definition set_events (l : list StackEvent) (db : DB) : DB := mkDB (stacks db) (stack_resources db) l (templates db).
Definition set_templates (l : list StackTemplate) (db : DB) : DB := mkDB (stacks db) (stack_resources db) (events db) l.

Definition stack_json (s : Stack) : json := JObj (
  [("id", JStr (ID s)); ("name", JStr (Name s)); ("description", JStr (s_Description s));
   ("project_id", JStr (ProjectID s)); ("status", JStr (Status s)); ("status_reason", JStr (StatusReason s))]
  ++ omitempty "template_description" (TemplateDesc s) ++ omitempty "parameters" (s_Parameters s)
  ++ omitempty "outputs" (s_Outputs s) ++ omitempty "tags" (Tags s)
  ++ [("timeout_mins", JNum (Timeout s)); ("disable_rollback", JBool (DisableRollback s))]
  ++ omitempty "parent_id" (ParentID s)
  ++ [("resource_count", JNum (ResourceCount s)); ("created_at", JTime (CreatedAt s)); ("updated_at", JTime (UpdatedAt s))]).

Definition resource_json (r : StackResource) : json := JObj (
  [("id", JStr (r_ID r)); ("stack_id", JStr (r_StackID r)); ("logical_id", JStr (r_LogicalID r))]
  ++ omitempty "physical_id" (r_PhysicalID r)
  ++ [("type", JStr (r_Type r)); ("status", JStr (r_Status r)); ("status_reason", JStr (r_StatusReason r))]
  ++ omitempty "properties" (r_Properties r) ++ omitempty "depends_on" (r_DependsOn r)
  ++ omitempty "required_by" (r_RequiredBy r) ++ omitempty "metadata" (r_Metadata r)
  ++ [("created_at", JTime (r_CreatedAt r)); ("updated_at", JTime (r_UpdatedAt r))]).

Definition event_json (e : StackEvent) : json := JObj (
  [("id", JNum (e_ID e)); ("stack_id", JStr (e_StackID e))] ++ omitempty "resource_id" (e_ResourceID e)
  ++ omitempty "logical_id" (e_LogicalID e) ++ omitempty "resource_type" (e_ResourceType e)
  ++ [("event_type", JStr (EventType e)); ("status", JStr (e_Status e)); ("status_reason", JStr (e_StatusReason e))]
  ++ omitempty "physical_id" (e_PhysicalID e) ++ [("timestamp", JTime (Timestamp e))]).

Definition template_json (t : StackTemplate) : json := JObj (
  [("id", JStr (t_ID t)); ("name", JStr (t_Name t)); ("description", JStr (t_Description t));
   ("project_id", JStr (t_ProjectID t)); ("version", JStr (t_Version t)); ("template", JStr (t_Template t));
   ("is_public", JBool (IsPublic t))] ++ omitempty "category" (Category t)
  ++ [("created_at", JTime (t_CreatedAt t)); ("updated_at", JTime (t_UpdatedAt t))]).

(** ** Handlers *)

(** What a call finds outside: the trace of the request, which reads and writes of
    the call succeed, the clock, the new identifiers, and the texts of the decoder's
    errors. *)
Record Io := mkIo {
  trace : Trace; reads : nat → bool; writes : nat → bool; now : Z; uuid : nat → string; event_id : nat → Z;
  decode_error : string → string
}.

Record CreateStackRequest := mkCreate {
  q_Name : string; q_Description : string; q_Template : string; q_Parameters : option (gmap string string);
  q_Tags : string; q_TimeoutMins : Z; q_DisableRollback : bool
}.

Record UpdateStackRequest := mkUpdate {
  u_Description : string; u_Template : string; u_Parameters : option (gmap string string); u_Tags : string;
  u_TimeoutMins : Z
}.

Record CreateTemplateRequest := mkCreateTemplate {
  c_Name : string; c_Description : string; c_Template : string; c_Version : string; c_IsPublic : bool;
  c_Category : string
}.

Definition MaxTemplateSize : Z := 512 * 1024.

Definition marshal_parameters (m : option (gmap string string)) : string := marshal_map Json.JStr m.

(** The stack with an identifier whose status is none of those given. *)
Definition First_stack (id : string) (excluded : list string) (db : DB) : option Stack :=
  List.find (λ s, bool_decide (ID s = id) && negb (bool_decide (Status s ∈ excluded))) (stacks db).

(** [s.db.Model(stack).Updates] of the status, if the write succeeds. *)
Definition set_status (status reason : string) (now : Z) (s : Stack) : Stack :=
  mkStack (ID s) (Name s) (s_Description s) (ProjectID s) status reason (Template_ s) (TemplateDesc s) (s_Parameters s)
    (s_Outputs s) (Tags s) (Timeout s) (DisableRollback s) (ParentID s) (ResourceCount s) (CreatedAt s) now.

Definition on_stack (ok : bool) (id : string) (f : Stack → Stack) (db : DB) : DB :=
  if ok then set_stacks ((λ s, if decide (ID s = id) then f s else s) <$> stacks db) db else db.

(** The [n]-th event of a call, stored if the write [w] succeeds. *)
Definition recordEvent (io : Io) (w n : nat) (stackID resourceID logicalID resourceType eventType status reason physicalID : string)
    (db : DB) : DB :=
  if writes io w then
    set_events (events db ++ [mkEvent (event_id io n) stackID resourceID logicalID resourceType eventType status reason
                                physicalID (now io)]) db
  else db.

Section handlers.
Context {unicode : UnicodeTables} {runes : RuneTables} {order : MapOrder} {queries : Queries}.

Definition rows {A} (f : A → json) (k : string) (l : list A) : response :=
  (200, JObj [(k, JList (f <$> l)); ("metadata", JObj [("total_count", JNum (Z.of_nat (length l)))])]).

(** A query whose error is ignored: the slice stays nil. *)
Definition rows_or_nil {A} (ok : bool) (f : A → json) (k : string) (l : list A) : response :=
  if ok then rows f k l else (200, JObj [(k, JNull); ("metadata", JObj [("total_count", JNum 0)])]).

(** A condition of a query that is only set if its text is not empty. *)
Definition cond (v : string) (P : bool) : bool := bool_decide (v = "") || P.

Definition contains (v : string) : string := "%" +:+ v +:+ "%".

Definition listStacks (io : Io) (project_id status name tag : string) (db : DB) : response :=
  if reads io 0 then
    rows stack_json "stacks" (order_by (λ x y, CreatedAt y <=? CreatedAt x)
      (filter (λ s, Status s ≠ "DELETE_COMPLETE" ∧ cond project_id (bool_decide (ProjectID s = project_id)) = true
                 ∧ cond status (bool_decide (Status s = status)) = true
                 ∧ cond name (Like (contains name) (Name s)) = true ∧ cond tag (Like (contains tag) (Tags s)) = true)
        (stacks db)))
  else Respond (trace io) (ErrDatabase "list stacks").

(** The resources that depend on one, once for each time they name it. *)
Definition requiredBy (n : nat) (R : gmap string TemplateResource) (logicalID : string) : list string :=
  concat ((λ kr, (λ _, kr.1) <$> filter (λ dep, dep = logicalID) (DependsOn kr.2)) <$> range n R).

(** The [i]-th resource in the order of creation. *)
Definition new_resource (io : Io) (stackID : string) (R : gmap string TemplateResource) (i : nat) (logicalID : string)
    : StackResource :=
  let res := default zero_resource (R !! logicalID) in
  mkStackResource (uuid io (1 + 2 * i)) stackID logicalID
    ("sim-" +:+ ToLower logicalID +:+ "-" +:+ str_take 8 (uuid io (2 + 2 * i))) (Type_ res) "CREATE_COMPLETE" ""
    (marshal_map id (Properties res)) (str_concat "," (DependsOn res)) (str_concat "," (requiredBy (4 + i) R logicalID))
    (marshal_map id (Metadata res)) (now io) (now io).

(** A row is inserted if the write succeeds and its key is new. *)
Definition insert_resource (ok : bool) (r : StackResource) (db : DB) : DB :=
  if ok && negb (existsb (λ r', bool_decide (r_ID r' = r_ID r)) (stack_resources db))
  then set_resources (stack_resources db ++ [r]) db else db.

Fixpoint create_resources (io : Io) (stackID : string) (R : gmap string TemplateResource) (i : nat) (l : list string)
    (db : DB) : DB :=
  match l with
  | [] => db
  | logicalID :: l =>
      let r := new_resource io stackID R i logicalID in
      let db := insert_resource (writes io (1 + 2 * i)) r db in
      let db := recordEvent io (2 + 2 * i) i stackID (r_ID r) logicalID (r_Type r) "CREATE" "CREATE_COMPLETE"
                  "Resource created successfully" (r_PhysicalID r) db in
      create_resources io stackID R (S i) l db
  end.

Definition new_stack (io : Io) (req : CreateStackRequest) (projectID : string) (parsed : ParsedTemplate) : Stack :=
  mkStack (uuid io 0) (q_Name req) (q_Description req) projectID "CREATE_IN_PROGRESS" "Stack creation initiated"
    (q_Template req) (Description parsed) (marshal_parameters (q_Parameters req))
    (marshal_map output_json (Outputs parsed)) (q_Tags req) (if q_TimeoutMins req <=? 0 then 60 else q_TimeoutMins req)
    (q_DisableRollback req) "" (Z.of_nat (size (resources parsed))) (now io) (now io).

Definition taken (name projectID : string) (db : DB) : bool :=
  existsb (λ s, bool_decide (Name s = name ∧ ProjectID s = projectID ∧ Status s ≠ "DELETE_COMPLETE")) (stacks db).

Definition invalid_template (io : Io) (e : string) : response := Respond (trace io) (ErrInvalidParam "template" e).

(** The body is the text of the binding's error or the request. *)
Definition createStack (io : Io) (tenant_id : string) (body : string + CreateStackRequest) (db : DB) : response * DB :=
  match body with
  | inl e => (Respond (trace io) (ErrValidation e), db)
  | inr req =>
      if MaxTemplateSize <? Z.of_nat (str_len (q_Template req)) then
        (invalid_template io ("template exceeds maximum size of " +:+ Itoa (MaxTemplateSize / 1024) +:+ " KB"), db)
      else match parseTemplate (decode_error io) (q_Template req) with
      | Err e => (invalid_template io e, db)
      | Ok parsed =>
          let R := resources parsed in
          if (size R =? 0)%nat then (invalid_template io "template must define at least one resource", db)
          else match List.find (λ kr, negb (isValidResourceType (Type_ kr.2))) (range 0 R) with
          | Some (logicalID, res) =>
              (invalid_template io ("unsupported resource type " +:+ Quote (Type_ res) +:+ " for resource " +:+ Quote logicalID), db)
          | None =>
              match validateDependencies R with
              | Some e => (invalid_template io e, db)
              | None =>
                  let stack := new_stack io req tenant_id parsed in
                  if reads io 0 && taken (q_Name req) tenant_id db then
                    (Respond (trace io) (ErrAlreadyExists "stack" (q_Name req)), db)
                  else if writes io 0 && negb (existsb (λ s, bool_decide (ID s = ID stack)) (stacks db)) then
                    let l := topologicalSort R in
                    let n := length l in
                    let db := create_resources io (ID stack) R 0 l (set_stacks (stacks db ++ [stack]) db) in
                    let complete := set_status "CREATE_COMPLETE" "Stack CREATE completed successfully" (now io) in
                    let db := on_stack (writes io (1 + 2 * n)) (ID stack) complete db in
                    let db := recordEvent io (2 + 2 * n) n (ID stack) "" (Name stack) "VC::Orchestration::Stack" "CREATE"
                                "CREATE_COMPLETE" "Stack CREATE completed successfully" (ID stack) db in
                    ((201, JObj [("stack", stack_json (complete stack))]), db)
                  else (Respond (trace io) (ErrDatabase "create stack"), db)
              end
          end
      end
  end.

Definition getStack (io : Io) (stackID : string) (db : DB) : response :=
  match (if reads io 0 then First_stack stackID ["DELETE_COMPLETE"] db else None) with
  | None => Respond (trace io) (ErrNotFound "stack" stackID)
  | Some s =>
      let n := if reads io 1 then Z.of_nat (length (filter (λ r, r_StackID r = stackID) (stack_resources db))) else 0 in
      (200, JObj [("stack", stack_json s); ("resource_count", JNum n)])
  end.

(** The columns of the table, as GORM names them after the fields. *)
Definition stack_columns : list string := [
  "id"; "name"; "description"; "project_id"; "status"; "status_reason"; "template"; "template_desc"; "parameters";
  "outputs"; "tags"; "timeout_mins"; "disable_rollback"; "parent_id"; "resource_count"; "created_at"; "updated_at"].

(** The fields of a row that an update can change. *)
Definition with_fields (description template parameters tags : string) (timeout count : Z) (s : Stack) : Stack :=
  mkStack (ID s) (Name s) description (ProjectID s) (Status s) (StatusReason s) template (TemplateDesc s) parameters
    (s_Outputs s) tags timeout (DisableRollback s) (ParentID s) count (CreatedAt s) (UpdatedAt s).

(** The entries of the map of updates beside the status: the column and what it does
    to the row. *)
Definition update_entries (req : UpdateStackRequest) (parsed : option ParsedTemplate) : list (string * (Stack → Stack)) :=
  (if decide (u_Description req = "") then []
   else [("description", λ s, with_fields (u_Description req) (Template_ s) (s_Parameters s) (Tags s) (Timeout s) (ResourceCount s) s)])
  ++ (if decide (u_Tags req = "") then []
      else [("tags", λ s, with_fields (s_Description s) (Template_ s) (s_Parameters s) (u_Tags req) (Timeout s) (ResourceCount s) s)])
  ++ (if 0 <? u_TimeoutMins req
      then [("timeout_mins", λ s, with_fields (s_Description s) (Template_ s) (s_Parameters s) (Tags s) (u_TimeoutMins req) (ResourceCount s) s)]
      else [])
  ++ match parsed with
     | None => []
     | Some t =>
         [("template", λ s, with_fields (s_Description s) (u_Template req) (s_Parameters s) (Tags s) (Timeout s) (ResourceCount s) s);
          ("template_description", id);
          ("resource_count", λ s, with_fields (s_Description s) (Template_ s) (s_Parameters s) (Tags s) (Timeout s)
                                    (Z.of_nat (size (resources t))) s)]
     end
  ++ (if (size (default ∅ (u_Parameters req)) =? 0)%nat then []
      else [("parameters", λ s, with_fields (s_Description s) (Template_ s) (marshal_parameters (u_Parameters req)) (Tags s)
                                  (Timeout s) (ResourceCount s) s)]).

(** [s.db.Model(&stack).Updates]: a column that the table does not have is an error
    of the database. *)
Definition Updates_stack (ok : bool) (id : string) (entries : list (string * (Stack → Stack))) (db : DB) : option DB :=
  if ok && forallb (λ e, bool_decide (e.1 ∈ stack_columns)) entries
  then Some (on_stack true id (λ s, foldl (λ s e, e.2 s) s entries) db) else None.

Definition updateStack (io : Io) (stackID : string) (body : string + UpdateStackRequest) (db : DB) : response * DB :=
  match (if reads io 0 then First_stack stackID ["DELETE_COMPLETE"; "DELETE_IN_PROGRESS"] db else None) with
  | None => (Respond (trace io) (ErrNotFound "stack" stackID), db)
  | Some stack =>
      match body with
      | inl e => (Respond (trace io) (ErrValidation e), db)
      | inr req =>
          match (if decide (u_Template req = "") then Ok None
                 else match parseTemplate (decode_error io) (u_Template req) with Ok t => Ok (Some t) | Err e => Err e end) with
          | Err e => (invalid_template io e, db)
          | Ok parsed =>
              let entries := update_entries req parsed
                ++ [("status", set_status "UPDATE_COMPLETE" "Stack UPDATE completed successfully" (now io));
                    ("status_reason", id)] in
              match Updates_stack (writes io 0) stackID entries db with
              | None => (Respond (trace io) (ErrDatabase "update stack"), db)
              | Some db =>
                  let db := recordEvent io 1 0 stackID "" (Name stack) "VC::Orchestration::Stack" "UPDATE" "UPDATE_COMPLETE"
                              "Stack UPDATE completed successfully" stackID db in
                  ((200, JObj [("stack", stack_json (foldl (λ s e, e.2 s) stack entries))]), db)
              end
          end
      end
  end.

Definition deleted_resource (now : Z) (r : StackResource) : StackResource :=
  mkStackResource (r_ID r) (r_StackID r) (r_LogicalID r) (r_PhysicalID r) (r_Type r) "DELETE_COMPLETE" "Resource deleted"
    (r_Properties r) (r_DependsOn r) (r_RequiredBy r) (r_Metadata r) (r_CreatedAt r) now.

(** The loop over the resources, the last one first; [i] counts its rounds. *)
Fixpoint delete_resources (io : Io) (stackID : string) (i : nat) (l : list StackResource) (db : DB) : DB :=
  match l with
  | [] => db
  | r :: l =>
      let db := if writes io (1 + 2 * i)
                then set_resources ((λ x, if decide (r_ID x = r_ID r) then deleted_resource (now io) x else x)
                                    <$> stack_resources db) db
                else db in
      let db := recordEvent io (2 + 2 * i) i stackID (r_ID r) (r_LogicalID r) (r_Type r) "DELETE" "DELETE_COMPLETE"
                  "Resource DELETE completed" (r_PhysicalID r) db in
      delete_resources io stackID (S i) l db
  end.

Definition deleteStack (io : Io) (stackID : string) (db : DB) : response * DB :=
  match (if reads io 0 then First_stack stackID ["DELETE_COMPLETE"] db else None) with
  | None => (Respond (trace io) (ErrNotFound "stack" stackID), db)
  | Some stack =>
      let db := on_stack (writes io 0) stackID (set_status "DELETE_IN_PROGRESS" "Stack deletion initiated" (now io)) db in
      let l := if reads io 1 then unordered (filter (λ r, r_StackID r = stackID) (stack_resources db)) else [] in
      let n := length l in
      let db := delete_resources io stackID 0 (rev l) db in
      let db := if writes io (1 + 2 * n)
                then set_resources (filter (λ r, r_StackID r ≠ stackID) (stack_resources db)) db else db in
      let db := on_stack (writes io (2 + 2 * n)) stackID
                  (set_status "DELETE_COMPLETE" "Stack DELETE completed successfully" (now io)) db in
      let db := recordEvent io (3 + 2 * n) n stackID "" (Name stack) "VC::Orchestration::Stack" "DELETE" "DELETE_COMPLETE"
                  "Stack DELETE completed successfully" stackID db in
      ((200, JObj [("message", JStr "stack deleted"); ("id", JStr stackID)]), db)
  end.

Definition stackExists (ok : bool) (stackID : string) (db : DB) : bool :=
  ok && match First_stack stackID ["DELETE_COMPLETE"] db with Some _ => true | None => false end.

Definition listResources (io : Io) (stackID resType : string) (db : DB) : response :=
  if stackExists (reads io 0) stackID db then
    rows_or_nil (reads io 1) resource_json "resources" (order_by (λ x y, r_CreatedAt x <=? r_CreatedAt y)
      (filter (λ r, r_StackID r = stackID ∧ cond resType (bool_decide (r_Type r = resType)) = true) (stack_resources db)))
  else Respond (trace io) (ErrNotFound "stack" stackID).

Definition getResource (io : Io) (resourceID : string) (db : DB) : response :=
  match (if reads io 0 then List.find (λ r, bool_decide (r_ID r = resourceID)) (stack_resources db) else None) with
  | None => Respond (trace io) (ErrNotFound "resource" resourceID)
  | Some r => (200, JObj [("resource", resource_json r)])
  end.

Definition listEvents (io : Io) (stackID resType : string) (db : DB) : response :=
  if stackExists (reads io 0) stackID db then
    rows_or_nil (reads io 1) event_json "events" (take 200 (order_by (λ x y, Timestamp y <=? Timestamp x)
      (filter (λ e, e_StackID e = stackID ∧ cond resType (bool_decide (e_ResourceType e = resType)) = true) (events db))))
  else Respond (trace io) (ErrNotFound "stack" stackID).

Definition preview_resource (R : gmap string TemplateResource) (logicalID : string) : json :=
  let res := default zero_resource (R !! logicalID) in
  JObj ([("logical_id", JStr logicalID); ("type", JStr (Type_ res)); ("action", JStr "CREATE")]
        ++ omitempty "depends_on" (str_concat ", " (DependsOn res))).

Definition preview_warning (R : gmap string TemplateResource) (logicalID : string) : option string :=
  let t := Type_ (default zero_resource (R !! logicalID)) in
  if isValidResourceType t then None else Some ("unsupported type " +:+ Quote t +:+ " for " +:+ Quote logicalID).

Definition previewStack (io : Io) (body : string + CreateStackRequest) : response :=
  match body with
  | inl e => Respond (trace io) (ErrValidation e)
  | inr req =>
      match parseTemplate (decode_error io) (q_Template req) with
      | Err e => invalid_template io e
      | Ok parsed =>
          let R := resources parsed in
          let l := topologicalSort R in
          let warnings := omap (preview_warning R) l in
          (200, JObj [("preview", JObj (("resources", JList (preview_resource R <$> l))
             :: if decide (warnings = []) then [] else [("warnings", JList (JStr <$> warnings))]))])
      end
  end.

Definition getStackTemplate (io : Io) (stackID : string) (db : DB) : response :=
  match (if reads io 0 then First_stack stackID [] db else None) with
  | None => Respond (trace io) (ErrNotFound "stack" stackID)
  | Some s => (200, JObj [("template", JStr (Template_ s))])
  end.

Definition listTemplates (io : Io) (category public_ name : string) (db : DB) : response :=
  rows_or_nil (reads io 0) template_json "templates" (order_by (λ x y, collate (t_Name x) (t_Name y))
    (filter (λ t, cond category (bool_decide (Category t = category)) = true ∧ (public_ = "true" → IsPublic t = true)
               ∧ cond name (Like (contains name) (t_Name t)) = true) (templates db))).

Definition createTemplate (io : Io) (tenant_id : string) (body : string + CreateTemplateRequest) (db : DB) : response * DB :=
  match body with
  | inl e => (Respond (trace io) (ErrValidation e), db)
  | inr req =>
      match parseTemplate (decode_error io) (c_Template req) with
      | Err e => (invalid_template io e, db)
      | Ok _ =>
          let tpl := mkStackTemplate (uuid io 0) (c_Name req) (c_Description req) tenant_id
            (if decide (c_Version req = "") then "1.0" else c_Version req) (c_Template req) (c_IsPublic req)
            (c_Category req) (now io) (now io) in
          if writes io 0 && negb (existsb (λ t, bool_decide (t_ID t = t_ID tpl)) (templates db)) then
            ((201, JObj [("template", template_json tpl)]), set_templates (templates db ++ [tpl]) db)
          else (Respond (trace io) (ErrDatabase "create template"), db)
      end
  end.

Definition getTemplate (io : Io) (templateID : string) (db : DB) : response :=
  match (if reads io 0 then List.find (λ t, bool_decide (t_ID t = templateID)) (templates db) else None) with
  | None => Respond (trace io) (ErrNotFound "template" templateID)
  | Some t => (200, JObj [("template", template_json t)])
  end.

(** A template that is not there is deleted all the same. *)
Definition deleteTemplate (io : Io) (templateID : string) (db : DB) : response * DB :=
  if writes io 0 then
    (message 200 "template deleted", set_templates (filter (λ t, t_ID t ≠ templateID) (templates db)) db)
  else (Respond (trace io) (ErrNotFound "template" templateID), db).

End handlers.


(** ** Lemmas *)

Section lemmas.
Context {unicode : UnicodeTables} {runes : RuneTables} {order : MapOrder} {queries : Queries}.

(** All writes of a call succeed. *)
Definition writable (io : Io) : Prop := ∀ n, writes io n = true.

Lemma recordEvent_stacks io w n a b c d e f g h db : stacks (recordEvent io w n a b c d e f g h db) = stacks db.
Proof. unfold recordEvent. by destruct (writes io w). Qed.

Lemma recordEvent_resources io w n a b c d e f g h db :
  stack_resources (recordEvent io w n a b c d e f g h db) = stack_resources db.
Proof. unfold recordEvent. by destruct (writes io w). Qed.

Lemma on_stack_resources ok i f db : stack_resources (on_stack ok i f db) = stack_resources db.
Proof. by destruct ok. Qed.

Lemma insert_resource_stacks ok r db : stacks (insert_resource ok r db) = stacks db.
Proof. unfold insert_resource. by destruct (_ && _). Qed.

Lemma create_resources_stacks io s R i l db : stacks (create_resources io s R i l db) = stacks db.
Proof.
  revert i db. induction l as [|x l IH]; intros i db; [done|]. cbn [create_resources].
  by rewrite IH, recordEvent_stacks, insert_resource_stacks.
Qed.

(** The identifiers of a call are new and distinct. *)
Definition fresh (io : Io) (db : DB) : Prop :=
  (∀ i j, uuid io i = uuid io j → i = j)
  ∧ (∀ i, Forall (λ s, ID s ≠ uuid io i) (stacks db)) ∧ (∀ i, Forall (λ r, r_ID r ≠ uuid io i) (stack_resources db)).

Lemma create_resources_rows io s R i l db :
  writable io → (∀ i j, uuid io i = uuid io j → i = j) →
  (∀ j, (i ≤ j)%nat → Forall (λ r, r_ID r ≠ uuid io (1 + 2 * j)) (stack_resources db)) →
  stack_resources (create_resources io s R i l db)
  = stack_resources db ++ imap (λ k, new_resource io s R (i + k)) l.
Proof.
  intros Hw Hu. revert i db. induction l as [|x l IH]; intros i db Hf; [by rewrite app_nil_r|].
  cbn [create_resources imap]. set (r := new_resource io s R i x).
  assert (stack_resources (insert_resource (writes io (1 + 2 * i)) r db) = stack_resources db ++ [r]) as Hi.
  { unfold insert_resource. rewrite Hw. simpl. destruct (existsb _ _) eqn:E; [|done].
    apply existsb_exists in E as (r' & Hr' & E%bool_decide_eq_true_1). exfalso.
    specialize (Hf i ltac:(lia)). rewrite list.Forall_forall in Hf. apply (Hf r'); [by apply list_elem_of_In|done]. }
  rewrite IH.
  - rewrite recordEvent_resources, Hi, <- app_assoc. f_equal. simpl. rewrite Nat.add_0_r. f_equal.
    apply imap_ext. intros k y _. simpl. do 2 f_equal. lia.
  - intros j Hj. rewrite recordEvent_resources, Hi. apply list.Forall_app. split; [apply Hf; lia|].
    constructor; [|constructor]. simpl. intros E%Hu. lia.
Qed.

(** What a template must be for a stack to be created from it. *)
Definition acceptable (io : Io) (raw : string) (parsed : ParsedTemplate) : Prop :=
  Z.of_nat (str_len raw) <= MaxTemplateSize ∧ parseTemplate (decode_error io) raw = Ok parsed
  ∧ (∀ x r, resources parsed !! x = Some r → isValidResourceType (Type_ r) = true)
  ∧ validateDependencies (resources parsed) = None.

Lemma types_valid R n :
  List.find (λ kr, negb (isValidResourceType (Type_ kr.2))) (range n R) = None
  ↔ ∀ x r, R !! x = Some r → isValidResourceType (Type_ r) = true.
Proof.
  rewrite find_none_elem. setoid_rewrite (range_perm n R). split.
  - intros H x r Hx. specialize (H (x, r)). rewrite elem_of_map_to_list in H. by apply negb_false_iff, H.
  - intros H [x r] Hx%elem_of_map_to_list. apply negb_false_iff. by eapply H.
Qed.

Lemma parsed_nonempty de raw t : parseTemplate de raw = Ok t → (size (resources t) =? 0)%nat = false.
Proof.
  unfold parseTemplate. case_decide; [done|]. destruct (unmarshal raw) as [t'|]; [|done].
  destruct (size (resources t') =? 0)%nat eqn:E; [done|]. by intros [= <-].
Qed.
End lemmas.

Section creation.
Context {unicode : UnicodeTables} {runes : RuneTables} {order : MapOrder} {queries : Queries}.

(** The stack as it is stored in the end. *)
Definition created (io : Io) (req : CreateStackRequest) (tenant_id : string) (parsed : ParsedTemplate) : Stack :=
  set_status "CREATE_COMPLETE" "Stack CREATE completed successfully" (now io) (new_stack io req tenant_id parsed).

Lemma createStack_accepted io tenant_id req parsed db :
  writable io → fresh io db → acceptable io (q_Template req) parsed → taken (q_Name req) tenant_id db = false →
  ∃ db', createStack io tenant_id (inr req) db
         = ((201, JObj [("stack", stack_json (created io req tenant_id parsed))]), db')
    ∧ stacks db' = stacks db ++ [created io req tenant_id parsed]
    ∧ stack_resources db'
      = stack_resources db ++ imap (new_resource io (uuid io 0) (resources parsed)) (topologicalSort (resources parsed)).
Proof.
  intros Hw (Hu & Hs & Hr) (Hlen & Hp & Ht & Hv) Hn. unfold createStack.
  rewrite (proj2 (Z.ltb_ge _ _) Hlen), Hp, (parsed_nonempty _ _ _ Hp), (proj2 (types_valid _ 0) Ht), Hv, Hn, andb_false_r, Hw.
  destruct (existsb _ (stacks db)) eqn:E.
  { apply existsb_exists in E as (s & Hs' & E%bool_decide_eq_true_1). specialize (Hs 0%nat).
    rewrite list.Forall_forall in Hs. destruct (Hs s); [by apply list_elem_of_In|done]. }
  cbn [andb negb]. eexists. split; [reflexivity|]. rewrite recordEvent_stacks, recordEvent_resources, on_stack_resources.
  unfold on_stack. rewrite Hw. cbn [stacks set_stacks]. rewrite create_resources_stacks. cbn [stacks set_stacks].
  rewrite create_resources_rows by (try done; intros j _; apply Hr). split; [|done].
  rewrite fmap_app, fmap_cons. cbn [ID new_stack]. rewrite decide_True by done. f_equal.
  rewrite <- (list_fmap_id (stacks db)) at 2. apply list_fmap_ext. intros k s Hk.
  specialize (Hs 0%nat). rewrite list.Forall_forall in Hs. rewrite decide_False; [done|].
  apply Hs. by eapply list_elem_of_lookup_2.
Qed.

Lemma invalid_template_status io e : (invalid_template io e).1 = 400.
Proof. unfold invalid_template. by rewrite Respond_status. Qed.

Lemma createStack_refused io tenant_id req db :
  reads io 0 = true → (createStack io tenant_id (inr req) db).1.1 = 201 →
  ∃ parsed, acceptable io (q_Template req) parsed ∧ taken (q_Name req) tenant_id db = false.
Proof.
  intros Hread. unfold createStack. destruct (Z.ltb_spec MaxTemplateSize (Z.of_nat (str_len (q_Template req)))) as [|Hlen].
  { cbn [fst]. by rewrite invalid_template_status. }
  destruct (parseTemplate _ _) as [parsed|e] eqn:Hp; [|cbn [fst]; by rewrite invalid_template_status].
  rewrite (parsed_nonempty _ _ _ Hp).
  destruct (List.find _ _) as [[x r]|] eqn:Ht; [cbn [fst]; by rewrite invalid_template_status|].
  destruct (validateDependencies _) eqn:Hv; [cbn [fst]; by rewrite invalid_template_status|].
  rewrite Hread. cbn [andb]. destruct (taken _ _ _) eqn:Hn; [cbn [fst]; by rewrite Respond_status|].
  intros _. exists parsed. split; [|done]. split_and!; try done. exact (proj1 (types_valid (resources parsed) 0) Ht).
Qed.

Lemma createStack_unchanged io tenant_id body db :
  (createStack io tenant_id body db).1.1 ≠ 201 → (createStack io tenant_id body db).2 = db.
Proof.
  unfold createStack. destruct body as [e|req]; [done|].
  repeat (case_match; try done).
Qed.

End creation.

Section deletion.
Context {unicode : UnicodeTables} {runes : RuneTables} {order : MapOrder} {queries : Queries}.

(** Rows that have the key of a row of the list belong to the stack. *)
Definition owned (s : string) (l rows : list StackResource) : Prop :=
  ∀ r x, r ∈ l → x ∈ rows → r_ID x = r_ID r → r_StackID x = s.

Definition mark_deleted (now : Z) (i : string) (rows : list StackResource) : list StackResource :=
  (λ x, if decide (r_ID x = i) then deleted_resource now x else x) <$> rows.

Lemma mark_deleted_owned s l now i rows : owned s l rows → owned s l (mark_deleted now i rows).
Proof.
  intros H r x Hr (y & -> & Hy)%list_elem_of_fmap E. case_decide; [|by eapply H].
  simpl in *. by eapply H.
Qed.

Lemma mark_deleted_others s now r rows :
  (∀ x, x ∈ rows → r_ID x = r_ID r → r_StackID x = s) →
  filter (λ x, r_StackID x ≠ s) (mark_deleted now (r_ID r) rows) = filter (λ x, r_StackID x ≠ s) rows.
Proof.
  unfold mark_deleted. induction rows as [|x rows IH]; intros H; [done|].
  rewrite fmap_cons, !filter_cons, IH by (intros; apply H; [by right|done]).
  destruct (decide (r_ID x = r_ID r)) as [E|E]; [|done].
  rewrite decide_False, decide_False; [done|intros Hn; apply Hn, H; [by left|done]|].
  intros Hn. apply Hn. cbn [r_StackID deleted_resource]. apply H; [by left|done].
Qed.

Lemma delete_resources_others io s i l db :
  owned s l (stack_resources db) →
  stacks (delete_resources io s i l db) = stacks db
  ∧ filter (λ r, r_StackID r ≠ s) (stack_resources (delete_resources io s i l db))
    = filter (λ r, r_StackID r ≠ s) (stack_resources db).
Proof.
  revert i db. induction l as [|r l IH]; intros i db Ho; [done|]. cbn [delete_resources].
  set (db1 := recordEvent _ _ _ _ _ _ _ _ _ _ _ _).
  assert (stacks db1 = stacks db) as Es by (unfold db1; rewrite recordEvent_stacks; by destruct (writes io _)).
  assert (stack_resources db1 = stack_resources db
          ∨ stack_resources db1 = mark_deleted (now io) (r_ID r) (stack_resources db)) as Er.
  { unfold db1. rewrite recordEvent_resources. destruct (writes io _); [by right|by left]. }
  assert (owned s l (stack_resources db)) as Ho' by (intros y x Hy; apply Ho; by right).
  destruct (IH (S i) db1) as [IHs IHr].
  { destruct Er as [-> | ->]; [done|by apply mark_deleted_owned]. }
  rewrite IHs, IHr. split; [done|]. destruct Er as [-> | ->]; [done|].
  apply mark_deleted_others. intros x. apply (Ho r). by left.
Qed.

Lemma on_stack_others ok i f db :
  (∀ s, ID (f s) = ID s) → filter (λ s, ID s ≠ i) (stacks (on_stack ok i f db)) = filter (λ s, ID s ≠ i) (stacks db).
Proof.
  intros Hf. unfold on_stack. destruct ok; [|done]. cbn [stacks set_stacks].
  induction (stacks db) as [|s l IH]; [done|]. rewrite fmap_cons, !filter_cons, IH.
  destruct (decide (ID s = i)) as [E|E]; [|done].
  rewrite decide_False, decide_False; [done|by intros Hn|]. intros Hn. apply Hn. by rewrite Hf.
Qed.

Lemma First_stack_None i st f db :
  (∀ s, ID (f s) = ID s ∧ Status (f s) ∈ st) → First_stack i st (on_stack true i f db) = None.
Proof.
  intros Hf. apply find_none_elem. intros s (y & -> & _)%list_elem_of_fmap. destruct (Hf y) as [Hi Hst].
  case_decide as E.
  - rewrite (bool_decide_eq_true_2 (Status (f y) ∈ st)) by done. apply andb_false_r.
  - by rewrite bool_decide_eq_false_2.
Qed.
End deletion.

(** ** Theorems *)

Section theorems.
Context {unicode : UnicodeTables} {runes : RuneTables} {order : MapOrder} {queries : Queries}.

(** C30: A stack is created exactly if its template is small enough and can be read,
    its resource types are supported, its dependencies are among its resources and
    without cycles, and the project has no stack of that name. The stack is stored
    as complete and its resources in an order in which each one follows all that it
    depends on; otherwise nothing is stored. *)
Theorem stack_created (io : Io) (tenant_id : string) (req : CreateStackRequest) (db : DB)
    (Hw : writable io) (Hr : reads io 0 = true) (Hf : fresh io db) :
  let '(resp, db') := createStack io tenant_id (inr req) db in
  (resp.1 = 201 ↔ ∃ parsed, acceptable io (q_Template req) parsed ∧ taken (q_Name req) tenant_id db = false)
  ∧ (resp.1 ≠ 201 → db' = db)
  ∧ ∀ parsed, acceptable io (q_Template req) parsed → taken (q_Name req) tenant_id db = false →
      stacks db' = stacks db ++ [created io req tenant_id parsed]
      ∧ ∃ new, stack_resources db' = stack_resources db ++ new
          ∧ Forall (λ r, r_StackID r = uuid io 0) new
          ∧ (∀ x, x ∈ r_LogicalID <$> new ↔ x ∈ dom (resources parsed))
          ∧ NoDup (r_LogicalID <$> new)
          ∧ ∀ l1 r l2, new = l1 ++ r :: l2 →
              ∀ d, d ∈ deps (resources parsed) (r_LogicalID r) → d ∈ r_LogicalID <$> l1.
Proof.
  destruct (createStack io tenant_id (inr req) db) as [resp db'] eqn:E.
  pose proof (createStack_refused io tenant_id req db Hr) as Href.
  pose proof (createStack_unchanged io tenant_id (inr req) db) as Hun. rewrite E in Href, Hun. cbn [fst snd] in Href, Hun.
  split; [|split; [exact Hun|]].
  - split; [exact Href|]. intros (parsed & Ha & Hn).
    destruct (createStack_accepted io tenant_id req parsed db Hw Hf Ha Hn) as (db2 & E2 & _).
    rewrite E in E2. by injection E2 as -> _.
  - intros parsed Ha Hn. destruct (createStack_accepted io tenant_id req parsed db Hw Hf Ha Hn) as (db2 & E2 & Hs & Hres).
    rewrite E in E2. injection E2 as _ ->. split; [done|]. eexists. split; [exact Hres|].
    destruct Ha as (_ & _ & _ & Hv). apply validateDependencies_None in Hv as [Hd Ha].
    destruct (topologicalSort_total (resources parsed)) as (Hnd & Hnodes & Hin & Hord).
    assert (∀ l, r_LogicalID <$> imap (new_resource io (uuid io 0) (resources parsed)) l = l) as Hids.
    { intros l. rewrite fmap_imap, (imap_ext _ (const id)) by done. by rewrite imap_const, list_fmap_id. }
    rewrite Hids. split_and!; [|intros x; split; [intros Hx; by apply (defined_nodes _ x Hd), Hnodes|apply Hin]|done|].
    + apply list.Forall_forall. intros r (k & x & -> & _)%elem_of_lookup_imap_1. done.
    + intros l1 r l2 El. apply (Hord Ha _ _ (r_LogicalID <$> l2)). by rewrite <- (Hids (topologicalSort _)), El, fmap_app.
Qed.

(** A deleted stack is not found any more and has no resources left, and the
    other stacks and their resources are untouched. *)
Theorem stack_deleted (io : Io) (stackID : string) (db : DB)
    (Hw : writable io) (Hr : ∀ n, reads io n = true) (Hk : NoDup (r_ID <$> stack_resources db))
    (Hs : stackExists true stackID db = true) :
  let '(resp, db') := deleteStack io stackID db in
  resp.1 = 200
  ∧ (getStack io stackID db').1 = 404
  ∧ Forall (λ r, r_StackID r ≠ stackID) (stack_resources db')
  ∧ filter (λ s, ID s ≠ stackID) (stacks db') = filter (λ s, ID s ≠ stackID) (stacks db)
  ∧ stack_resources db' = filter (λ r, r_StackID r ≠ stackID) (stack_resources db).
Proof.
  unfold stackExists in Hs. unfold deleteStack. rewrite Hr. destruct (First_stack stackID _ db) as [stack|]; [|done].
  set (db1 := on_stack _ _ _ db). assert (stack_resources db1 = stack_resources db) as E1 by apply on_stack_resources.
  rewrite E1, Hr. set (l := unordered _).
  assert (owned stackID (rev l) (stack_resources db1)) as Ho.
  { intros r x Hx Hx' E. rewrite E1 in Hx'. rewrite rev_alt, rev_append_rev, app_nil_r in Hx. rewrite <- Permutation_rev in Hx.
    unfold l in Hx. rewrite unordered_perm, list_elem_of_filter in Hx. destruct Hx as [Hst Hx].
    by rewrite (nodup_key r_ID (stack_resources db) x r). }
  destruct (delete_resources_others io stackID 0 (rev l) db1 Ho) as [Es Er].
  set (db2 := delete_resources io stackID 0 (rev l) db1) in *. rewrite !Hw.
  set (db3 := set_resources _ db2). set (db4 := on_stack _ _ _ db3). set (db5 := recordEvent _ _ _ _ _ _ _ _ _ _ _ db4).
  assert (stack_resources db5 = filter (λ r, r_StackID r ≠ stackID) (stack_resources db)) as E5.
  { unfold db5, db4. rewrite recordEvent_resources, on_stack_resources. unfold db3. cbn [stack_resources set_resources].
    by rewrite Er, E1. }
  split_and!; [done| | | |done].
  - unfold getStack. rewrite Hr. unfold First_stack, db5. rewrite recordEvent_stacks.
    pose proof (First_stack_None stackID ["DELETE_COMPLETE"]
      (set_status "DELETE_COMPLETE" "Stack DELETE completed successfully" (now io)) db3) as Hn.
    unfold First_stack in Hn. unfold db4. rewrite Hn; [by rewrite Respond_status, ErrNotFound_status|].
    intros s. split; [done|by left].
  - rewrite E5. apply list.Forall_forall. intros r [H _]%list_elem_of_filter. done.
  - unfold db5, db4. rewrite recordEvent_stacks, on_stack_others by done. unfold db3. cbn [stacks set_resources].
    rewrite Es. by apply on_stack_others.
Qed.

(** An update that brings a new template fails: the handler sets the column
    template_description, and the table has template_desc. Nothing is changed. *)
Theorem template_update_refused (io : Io) (stackID : string) (req : UpdateStackRequest) (db : DB)
    (Ht : u_Template req ≠ "") :
  (updateStack io stackID (inr req) db).1.1 ≠ 200 ∧ (updateStack io stackID (inr req) db).2 = db.
Proof.
  unfold updateStack. destruct (if reads io 0 then _ else _) as [stack|]; [|cbn [fst snd]; by rewrite Respond_status, ErrNotFound_status].
  rewrite decide_False by done.
  destruct (parseTemplate _ _) as [t|e]; [|cbn [fst snd]; by rewrite invalid_template_status].
  unfold Updates_stack. rewrite forallb_app. replace (forallb _ (update_entries req (Some t))) with false.
  - rewrite andb_false_r. cbn [fst snd]. by rewrite Respond_status.
  - unfold update_entries. rewrite !forallb_app. cbn [forallb fst].
    rewrite (bool_decide_eq_false_2 ("template_description" ∈ stack_columns)) by (vm_compute; set_solver).
    rewrite !andb_false_r. cbn [andb]. rewrite ?andb_false_r. done.
Qed.
End theorems.

(** ** Witnesses *)

(** Rows come in the order of the table, or sorted by insertion. *)
Definition insert_row {A} (le : A → A → bool) (x : A) : list A → list A :=
  fix go l := match l with [] => [x] | y :: l => if le x y then x :: y :: l else y :: go l end.

Lemma insert_rows_perm {A} (le : A → A → bool) l : foldr (insert_row le) [] l ≡ₚ l.
Proof.
  induction l as [|x l IH]; [done|]. simpl. transitivity (x :: foldr (insert_row le) [] l); [|by rewrite IH].
  generalize (foldr (insert_row le) [] l) as l'. induction l' as [|y l' IH']; simpl; [done|].
  destruct (le x y); [done|]. rewrite IH'. apply Permutation_swap.
Qed.

Definition table_queries : Queries.
Proof.
  refine {| unordered A l := l; order_by A le l := foldr (insert_row le) [] l; collate := string_leb |};
    [done|intros; apply insert_rows_perm].
Defined.

(** The database may as well return the rows in the opposite order. *)
Definition reverse_queries : Queries.
Proof.
  refine {| unordered A l := rev l; order_by A le l := foldr (insert_row le) [] l; collate := string_leb |};
    [intros; symmetry; apply Permutation_rev|intros; apply insert_rows_perm].
Defined.

Fixpoint ones (n : nat) : string := match n with O => "" | S n => String "1" (ones n) end.

Lemma ones_inj i j : ones i = ones j → i = j.
Proof. revert j. induction i as [|i IH]; intros [|j]; simpl; try done. intros [= E]. f_equal. by apply IH. Qed.

Definition example_io : Io :=
  mkIo (mkTrace None "") (λ _, true) (λ _, true) 1700000000000000000 ones Z.of_nat (λ _, "syntax error").

(** A template with a network and a machine that depends on [dep]. *)
Definition example_template (dep : string) : string :=
  Json.Text.marshal (Json.JObj [("resources", Json.JObj [
    ("vm", Json.JObj [("type", Json.JStr "VC::Compute::Instance"); ("depends_on", Json.JArr [Json.JStr dep]);
                      ("properties", Json.JObj [("cpus", Json.JNum "2.0")])]);
    ("net", Json.JObj [("type", Json.JStr "VC::Network::Network")])])]).

Definition example_request (dep : string) : CreateStackRequest :=
  mkCreate "web" "" (example_template dep) None "" 0 false.

Definition empty_db : DB := mkDB [] [] [] [].

Section examples.
#[local] Existing Instance ascii_only.
#[local] Existing Instance ascii_runes.
#[local] Existing Instance plain_order.
#[local] Existing Instance table_queries.

Definition example_parsed : ParsedTemplate :=
  match parseTemplate (λ _, "") (example_template "net") with Ok t => t | Err _ => mkTemplate "" None None None end.

Lemma example_acceptable : acceptable example_io (q_Template (example_request "net")) example_parsed.
Proof.
  split; [vm_compute; discriminate|]. split; [vm_compute; reflexivity|]. split; [|vm_compute; reflexivity].
  assert (map_Forall (λ _ r, isValidResourceType (Type_ r) = true) (resources example_parsed)) as H.
  { apply (bool_decide_unpack _). vm_compute. exact I. }
  exact H.
Qed.

Definition example_db : DB := (createStack example_io "p" (inr (example_request "net")) empty_db).2.

(** The machine is stored after its network. *)
Lemma stack_created_witness :
  (createStack example_io "p" (inr (example_request "net")) empty_db).1.1 = 201
  ∧ (λ r, (r_LogicalID r, r_Properties r)) <$> stack_resources example_db
    = [("net", "null"); ("vm", Json.Text.marshal (Json.JObj [("cpus", Json.JNum "2")]))].
Proof.
  split; [|vm_compute; reflexivity].
  assert (fresh example_io empty_db) as Hf by (split; [apply ones_inj|split; intros; constructor]).
  pose proof (stack_created example_io "p" (example_request "net") empty_db (λ _, eq_refl) eq_refl Hf) as H.
  destruct (createStack example_io "p" (inr (example_request "net")) empty_db) as [resp db'].
  apply H. exists example_parsed. split; [exact example_acceptable|vm_compute; reflexivity].
Defined.

Lemma stack_deleted_witness : (getStack example_io "" (deleteStack example_io "" example_db).2).1 = 404.
Proof.
  pose proof (stack_deleted example_io "" example_db (λ _, eq_refl) (λ _, eq_refl)
                ltac:(apply (bool_decide_unpack _); vm_compute; exact I) ltac:(vm_compute; reflexivity)) as H.
  destruct (deleteStack example_io "" example_db) as [resp db']. apply H.
Defined.

Lemma template_update_refused_witness :
  (updateStack example_io "" (inr (mkUpdate "" (example_template "net") None "" 0)) example_db).1.1 = 500
  ∧ (updateStack example_io "" (inr (mkUpdate "" (example_template "net") None "" 0)) example_db).2 = example_db.
Proof.
  split; [vm_compute; reflexivity|].
  exact (proj2 (template_update_refused example_io "" (mkUpdate "" (example_template "net") None "" 0) example_db
                  ltac:(vm_compute; discriminate))).
Defined.

(** A preview does not check the dependencies: it announces a resource that the
    template only mentions, and that the creation refuses. *)
Theorem phantom_previewed :
  previewStack example_io (inr (example_request "disk"))
  = (200, JObj [("preview", JObj [
      ("resources", JList [
         JObj [("logical_id", JStr "net"); ("type", JStr "VC::Network::Network"); ("action", JStr "CREATE")];
         JObj [("logical_id", JStr "disk"); ("type", JStr ""); ("action", JStr "CREATE")];
         JObj [("logical_id", JStr "vm"); ("type", JStr "VC::Compute::Instance"); ("action", JStr "CREATE");
               ("depends_on", JStr "disk")]]);
      ("warnings", JList [JStr ("unsupported type " +:+ Quote "" +:+ " for " +:+ Quote "disk")])])])
  ∧ (createStack example_io "p" (inr (example_request "disk")) empty_db).1.1 = 400.
Proof. split; vm_compute; reflexivity. Qed.

(** The resources of a stack are deleted in the opposite of the order in which the
    database returns them, which nothing fixes: the network may be deleted before
    the machine that depends on it. *)
Theorem deletion_order_open :
  (λ e, e_LogicalID e) <$> filter (λ e, EventType e = "DELETE") (events (deleteStack (queries := table_queries) example_io "" example_db).2)
    = ["vm"; "net"; "web"]
  ∧ (λ e, e_LogicalID e) <$> filter (λ e, EventType e = "DELETE") (events (deleteStack (queries := reverse_queries) example_io "" example_db).2)
    = ["net"; "vm"; "web"].
Proof. split; vm_compute; reflexivity. Qed.
End examples.
