(* ===== verification/Validation.v ===== *)
(** * Validation of texts

    A model of pkg/security/validation.go: the validators of names, addresses,
    passwords, user names and mail addresses, with their patterns as regular
    expressions, and the removal of dangerous characters. A validator returns the
    text of its error, or none. *)
From Stdlib Require Import Ascii.
From S2P Require Import Prelude GoStrings Utf8 Regex NetIP.

Local Open Scope Z_scope.

(** Ranges of runes in the patterns. *)
Definition upper : Z * Z := (65, 90).
Definition lower : Z * Z := (97, 122).
Definition digit_range : Z * Z := (48, 57).

(** The runes of a text of ASCII. *)
Definition one_of (s : string) : list (Z * Z) := (λ b, (b, b)) <$> bytes_of s.

Definition word_char : Z → bool := in_ranges ([lower; upper; digit_range] ++ one_of "_-").
Definition is_digit : Z → bool := in_ranges [digit_range].

(** [^[a-zA-Z0-9_-]+$] *)
Definition namePattern : regex := Plus (Class word_char).

Definition validate_name (what name : string) : option string :=
  if decide (name = "") then Some (what +:+ " name cannot be empty")
  else if negb (match_all namePattern name)
  then Some ("invalid " +:+ what +:+ " name: must contain only alphanumeric characters, hyphens, and underscores")
  else if (255 <? str_len name)%nat then Some (what +:+ " name too long: maximum 255 characters")
  else None.

Definition ValidateNetworkName (name : string) : option string := validate_name "network" name.
Definition ValidateNamespaceName (name : string) : option string := validate_name "namespace" name.

(** [\d{1,3}] and [(\d{1,3}\.){3}\d{1,3}] *)
Definition octet : regex := Cat (Class is_digit) (UpTo 2 (Class is_digit)).
Definition dot : regex := Class (in_ranges (one_of ".")).
Definition ipPattern : regex := Times 3 (Cat octet dot) octet.

(** [fmt.Sscanf] with the verb %d for a text that begins with a digit. *)
Fixpoint scan_digits (s : string) (n : Z) : Z :=
  match s with
  | String c s => match digit c with Some d => scan_digits s (10 * n + d) | None => n end
  | EmptyString => n
  end.

Definition Sscanf_d (s : string) : option Z :=
  match s with
  | String c _ => match digit c with Some _ => Some (scan_digits s 0) | None => None end
  | EmptyString => None
  end.

(** The loop over the parts of an address. *)
Fixpoint validate_octets (ip : string) (parts : list string) : option string :=
  match parts with
  | [] => None
  | part :: parts =>
      match Sscanf_d part with
      | None => Some ("invalid IP address: " +:+ ip)
      | Some octet =>
          if (octet <? 0) || (255 <? octet) then Some "invalid IP address: octet out of range"
          else validate_octets ip parts
      end
  end.

Definition ValidateIPAddress (ip : string) : option string :=
  if decide (ip = "") then Some "IP address cannot be empty"
  else if negb (match_all ipPattern ip) then Some "invalid IP address format"
  else validate_octets ip (Split ip ".").

(** [^(\d{1,3}\.){3}\d{1,3}/\d{1,2}$] *)
Definition cidrPattern : regex :=
  Times 3 (Cat octet dot) (Cat octet (Cat (Class (in_ranges (one_of "/"))) (Cat (Class is_digit) (UpTo 1 (Class is_digit))))).

Definition ValidateCIDR (cidr : string) : option string :=
  if decide (cidr = "") then Some "CIDR cannot be empty"
  else if negb (match_all cidrPattern cidr) then Some "invalid CIDR format"
  else match Split cidr "/" with
       | [ip; len] =>
           match ValidateIPAddress ip with
           | Some e => Some ("invalid CIDR: " +:+ e)
           | None =>
               match Sscanf_d len with
               | None => Some ("invalid CIDR prefix: " +:+ len)
               | Some prefix =>
                   if (prefix <? 0) || (32 <? prefix) then Some "invalid CIDR prefix: must be between 0 and 32" else None
               end
           end
       | _ => Some "invalid CIDR format"
       end.

(** The characters of the shell that are removed; double quote and backslash are
    given by their codes. *)
Definition metacharacters : list Z := bytes_of ";|&$<>`'" ++ [92; 34].

Definition dangerous (r : Z) : bool := (r <? 32) || (r =? 127) || bool_decide (r ∈ metacharacters).

Definition SanitizeString (s : string) : string := TrimSpace (Map (λ r, if dangerous r then -1 else r) s).

(** The special characters of a password. *)
Definition special : Z → bool := in_ranges (one_of "!@#$%^&*()_+-=[]{};':|,.<>?" ++ [(34, 34); (92, 92)]).

Definition ValidatePassword (password : string) : option string :=
  if (str_len password <? 8)%nat then Some "password must be at least 8 characters long"
  else if (128 <? str_len password)%nat then Some "password must not exceed 128 characters"
  else if negb (match_some (Class (in_ranges [upper])) password && match_some (Class (in_ranges [lower])) password
                && match_some (Class is_digit) password && match_some (Class special) password)
  then Some "password must contain at least one uppercase letter, one lowercase letter, one digit, and one special character"
  else None.

Definition user_char : Z → bool := in_ranges ([lower; upper; digit_range] ++ one_of "._-").

Definition ValidateUsername (username : string) : option string :=
  if decide (username = "") then Some "username cannot be empty"
  else if (str_len username <? 3)%nat then Some "username must be at least 3 characters long"
  else if (64 <? str_len username)%nat then Some "username must not exceed 64 characters"
  else if negb (match_all (Plus (Class user_char)) username)
  then Some "invalid username: must contain only alphanumeric characters, periods, hyphens, and underscores"
  else if negb (match_start (Class (in_ranges [lower; upper; digit_range])) username)
  then Some "invalid username: must start with a letter or number"
  else None.

(** [^[a-zA-Z0-9._%+-]+@[a-zA-Z0-9.-]+\.[a-zA-Z]{2,}$] *)
Definition local_char : Z → bool := in_ranges ([lower; upper; digit_range] ++ one_of "._%+-").
Definition domain_char : Z → bool := in_ranges ([lower; upper; digit_range] ++ one_of ".-").
Definition letter : Z → bool := in_ranges [lower; upper].

Definition emailPattern : regex :=
  Cat (Plus (Class local_char)) (Cat (Class (in_ranges (one_of "@")))
    (Cat (Plus (Class domain_char)) (Cat dot (Cat (Class letter) (Plus (Class letter)))))).

Definition ValidateEmail (email : string) : option string :=
  if decide (email = "") then Some "email cannot be empty"
  else if negb (match_all emailPattern email) then Some "invalid email format"
  else if (254 <? str_len email)%nat then Some "email too long: maximum 254 characters"
  else None.

(** ** Lemmas *)

(** The runes that an expression can match all satisfy a predicate. *)
Fixpoint only (P : Z → bool) (r : regex) : Prop :=
  match r with
  | Never | Empty => True
  | Class f => ∀ c, f c = true → P c = true
  | Cat r s | Alt r s => only P r ∧ only P s
  | Star r => only P r
  end.

Lemma lang_only P r w : only P r → lang r w → Forall (λ c, P c = true) w.
Proof.
  intros H Hw. revert H. induction Hw as [|f c Hc|r s u v Hu IHu Hv IHv|r s u Hu IH|r s u Hu IH|r|r u v Hu IHu Hv IHv];
    simpl; intros H; try by constructor.
  - constructor; [by apply H|constructor].
  - apply list.Forall_app. naive_solver.
  - apply IH, H.
  - apply IH, H.
  - apply list.Forall_app. naive_solver.
Qed.

(** A rune that a text may have without being changed: a printable character of
    ASCII that is neither a space nor one of the shell's. *)
Definition harmless (r : Z) : bool := (32 <? r) && (r <? 127) && negb (dangerous r).

Lemma in_ranges_harmless rs c :
  forallb (λ '(lo, hi), forallb harmless (seqZ lo (hi - lo + 1))) rs = true → in_ranges rs c = true → harmless c = true.
Proof.
  unfold in_ranges. intros H Hc. apply existsb_exists in Hc as ([lo hi] & Hin & Hc). zbool.
  rewrite forallb_forall in H. specialize (H _ Hin). simpl in H. rewrite forallb_forall in H. apply H.
  apply list_elem_of_In, elem_of_seqZ. lia.
Qed.

Lemma runes_ascii_inv s : Forall (λ r, 0 <= r < 128) (runes s) → str_forall is_ascii s = true.
Proof.
  rewrite <- (join_chunks s) at 2. unfold runes. rewrite Forall_fmap. intros H. pose proof (chunks_decoded s) as Hd.
  induction (chunks s) as [|c cs IH]; [done|]. apply list.Forall_cons in H as [Hc H], Hd as [Hd Hds].
  simpl. rewrite str_forall_app, IH, andb_true_r by done. destruct Hd as [[Hv ->]|(b & -> & _)]; simpl in Hc; [|unfold RuneError in Hc; lia].
  unfold encode_rune. rewrite Hv. zdecide. simpl. unfold is_ascii. rewrite byte_of_chr by lia. zdecide. done.
Qed.

Lemma sanitize_harmless s : Forall (λ r, harmless r = true) (runes s) → SanitizeString s = s.
Proof.
  intros H. assert (str_forall is_ascii s = true) as Ha.
  { apply runes_ascii_inv. apply (list.Forall_impl _ _ _ H). unfold harmless. intros r Hr. zbool. lia. }
  unfold SanitizeString, Map. replace ((λ r, if dangerous r then -1 else r) <$> runes s) with (runes s).
  - rewrite (filter_all (λ r, 0 <= r)).
    + rewrite (runes_ascii s Ha), (encode_bytes s Ha). apply TrimSpace_id. apply (list.Forall_impl _ _ _ H).
      intros r Hr. unfold harmless in Hr. zbool. unfold IsSpace. zdecide. rewrite orb_false_r.
      apply bool_decide_eq_false_2. rewrite !elem_of_cons. intros Hin. repeat (destruct Hin as [Hin|Hin]; [lia|]).
      by apply elem_of_nil in Hin.
    + apply (list.Forall_impl _ _ _ H). unfold harmless. intros r Hr. zbool. lia.
  - rewrite <- (list_fmap_id (runes s)) at 1. apply list_fmap_ext. intros i r Hi.
    rewrite Forall_lookup in H. specialize (H i r Hi). unfold harmless in H. apply andb_true_iff in H as [_ H].
    apply negb_true_iff in H. by rewrite H.
Qed.

Lemma match_harmless r s : only harmless r → match_all r s = true → Forall (λ c, harmless c = true) (runes s).
Proof. unfold match_all. intros Hr Hm. apply (lang_only harmless r); [done|]. by apply matches_lang. Qed.

Ltac classes := repeat (split || intros ? ?); try exact I; (eapply in_ranges_harmless; [|eassumption]; vm_compute; reflexivity).

(** *** Addresses *)

(** A number of one to three digits in decimal notation, at most 255. *)
Definition is_octet (p : string) : Prop :=
  (1 <= str_len p <= 3)%nat ∧ Forall (λ b, is_digit b = true) (bytes_of p) ∧ scan_digits p 0 <= 255.

Lemma bytes_of_split s u v : bytes_of s = u ++ v → ∃ a b, s = a +:+ b ∧ bytes_of a = u ∧ bytes_of b = v.
Proof.
  revert s. induction u as [|x u IH]; intros s E; [by exists "", s|]. destruct s as [|c s]; [done|].
  simpl in E. injection E as <- E. destruct (IH s E) as (a & b & -> & <- & <-). by exists (String c a), b.
Qed.

Lemma lang_octet w : lang octet w ↔ (1 <= length w <= 3)%nat ∧ Forall (λ b, is_digit b = true) w.
Proof.
  unfold octet. rewrite lang_class_cat. setoid_rewrite lang_upto_class. split.
  - intros (c & v & -> & Hc & Hl & Hv). simpl. split; [lia|by constructor].
  - intros [Hl Hw]. destruct w as [|c v]; simpl in Hl; [lia|]. apply list.Forall_cons in Hw as [Hc Hv].
    exists c, v. split_and!; [done|done|lia|done].
Qed.

Lemma lang_dot w : lang dot w ↔ w = [46].
Proof.
  unfold dot. rewrite lang_class_inv. split; [|intros ->; by exists 46]. intros (c & -> & Hc).
  unfold in_ranges in Hc. simpl in Hc. zbool. f_equal. change (byte_of ".") with 46 in *. lia.
Qed.

Lemma lang_dotted o r w :
  lang (Times 3 (Cat o dot) r) w
  ↔ ∃ a b c d, w = a ++ [46] ++ b ++ [46] ++ c ++ [46] ++ d ∧ Forall (lang o) [a; b; c] ∧ lang r d.
Proof.
  cbn [Times]. repeat setoid_rewrite lang_cat_inv. setoid_rewrite lang_dot. split.
  - intros (u1 & v1 & -> & (a & p1 & -> & Ha & ->) & (u2 & v2 & -> & (b & p2 & -> & Hb & ->) & (u3 & d & -> & (c & p3 & -> & Hc & ->) & Hd))).
    exists a, b, c, d. rewrite <- !app_assoc. split; [done|]. split; [by repeat constructor|done].
  - intros (a & b & c & d & -> & H & Hd). do 3 (apply list.Forall_cons in H as [? H]).
    exists (a ++ [46]), (b ++ [46] ++ c ++ [46] ++ d). rewrite <- app_assoc. split; [done|]. split; [by eauto|].
    exists (b ++ [46]), (c ++ [46] ++ d). rewrite <- app_assoc. split; [done|]. split; [by eauto|].
    exists (c ++ [46]), d. rewrite <- app_assoc. split; [done|]. split; [by eauto|done].
Qed.

Lemma is_digit_byte b : is_digit b = true ↔ 48 <= b <= 57.
Proof. unfold is_digit, in_ranges. simpl. rewrite orb_false_r, andb_true_iff, !Z.leb_le. done. Qed.

Lemma digits_no_dot p : Forall (λ b, is_digit b = true) (bytes_of p) → str_mem "." p = false.
Proof.
  induction p as [|c p IH]; [done|]. simpl. intros [Hc Hp]%list.Forall_cons. rewrite IH by done.
  rewrite orb_false_r. apply bool_decide_eq_false_2. intros ->.
  apply is_digit_byte in Hc. change (byte_of ".") with 46 in Hc. lia.
Qed.

Lemma Sscanf_octet p :
  (1 <= str_len p)%nat → Forall (λ b, is_digit b = true) (bytes_of p) → Sscanf_d p = Some (scan_digits p 0).
Proof.
  destruct p as [|c p]; simpl; [lia|]. intros _ [Hc _]%list.Forall_cons. apply is_digit_byte in Hc.
  unfold digit. replace (byte_in "0" "9" c) with true; [done|]. symmetry. unfold byte_in.
  change (byte_of "0") with 48. change (byte_of "9") with 57. by zdecide.
Qed.

Lemma scan_nonneg s n : 0 <= n → 0 <= scan_digits s n.
Proof.
  revert n. induction s as [|c s IH]; intros n Hn; simpl; [done|]. destruct (digit c) as [d|] eqn:E; [|done].
  apply IH. unfold digit, byte_in in E. change (byte_of "0") with 48 in E. case_match; simplify_eq. zbool. lia.
Qed.

Lemma validate_octets_None ip l :
  Forall (λ p, (1 <= str_len p)%nat ∧ Forall (λ b, is_digit b = true) (bytes_of p)) l →
  validate_octets ip l = None ↔ Forall (λ p, scan_digits p 0 <= 255) l.
Proof.
  induction 1 as [|p l [Hl Hp] _ IH]; simpl; [split; [constructor|done]|].
  rewrite Sscanf_octet by done. pose proof (scan_nonneg p 0 ltac:(lia)). rewrite list.Forall_cons, <- IH.
  rewrite (proj2 (Z.ltb_ge (scan_digits p 0) 0)) by done. simpl.
  destruct (Z.ltb_spec 255 (scan_digits p 0)); [split; [done|]; intros [? _]; lia|].
  split; [by split|by intros [_ ?]].
Qed.

(** A dotted text of digits, split at its dots. *)
Lemma Split_dotted a b c d :
  str_mem "." a = false → str_mem "." b = false → str_mem "." c = false → str_mem "." d = false →
  Split (a +:+ "." +:+ b +:+ "." +:+ c +:+ "." +:+ d) "." = [a; b; c; d].
Proof.
  intros Ha Hb Hc Hd. unfold Split.
  assert (∃ n, S (str_len (a +:+ "." +:+ b +:+ "." +:+ c +:+ "." +:+ d)) = S (S (S (S n)))) as [n ->].
  { exists (str_len a + str_len b + str_len c + str_len d)%nat. rewrite !str_len_app. simpl. lia. }
  rewrite !str_app_cons, !str_app_nil_l.
  rewrite (SplitN_step a), (SplitN_step b) by done.
  destruct n as [|n]; [by rewrite (SplitN_step c)|]. rewrite (SplitN_step c) by done. do 3 f_equal.
  change (SplitN d "." (S (S n))) with (match str_cut "." d with Some (l, r) => l :: SplitN r "." (S n) | None => [d] end).
  by rewrite (proj2 (str_cut_None "." d) Hd).
Qed.

Lemma Split_octets a b c d :
  Forall (λ p, Forall (λ b, is_digit b = true) (bytes_of p)) [a; b; c; d] →
  Split (a +:+ "." +:+ b +:+ "." +:+ c +:+ "." +:+ d) "." = [a; b; c; d].
Proof. intros H. do 4 (apply list.Forall_cons in H as [? H]). by apply Split_dotted; apply digits_no_dot. Qed.

Lemma ip_only : only harmless ipPattern.
Proof. classes. Qed.

Lemma ip_runes s : match_all ipPattern s = true → runes s = bytes_of s.
Proof.
  intros H. apply runes_ascii, runes_ascii_inv. apply (list.Forall_impl _ _ _ (match_harmless _ _ ip_only H)).
  unfold harmless. intros r Hr. zbool. lia.
Qed.

Lemma octet_bytes p : (1 <= str_len p <= 3)%nat ∧ Forall (λ b, is_digit b = true) (bytes_of p) ↔ lang octet (bytes_of p).
Proof. by rewrite lang_octet, length_bytes_of. Qed.

Lemma ip_match s :
  match_all ipPattern s = true
  ↔ ∃ a b c d, s = a +:+ "." +:+ b +:+ "." +:+ c +:+ "." +:+ d ∧ Forall (λ p, lang octet (bytes_of p)) [a; b; c; d].
Proof.
  split.
  - intros H. pose proof (ip_runes s H) as E. unfold match_all in H. rewrite matches_lang, E in H.
    apply lang_dotted in H as (a & b & c & d & Hs & Habc & Hd).
    apply bytes_of_split in Hs as (a' & s1 & -> & Ea & Hs). apply bytes_of_split in Hs as (p1 & s2 & -> & E1 & Hs).
    apply bytes_of_split in Hs as (b' & s3 & -> & Eb & Hs). apply bytes_of_split in Hs as (p2 & s4 & -> & E2 & Hs).
    apply bytes_of_split in Hs as (c' & s5 & -> & Ec & Hs). apply bytes_of_split in Hs as (p3 & d' & -> & E3 & Ed).
    assert (∀ p, bytes_of p = [46] → p = ".") as Hdot.
    { intros [|x [|y p]] Hp; try discriminate Hp. injection Hp as Hp. f_equal. apply byte_of_inj. exact Hp. }
    rewrite (Hdot _ E1), (Hdot _ E2), (Hdot _ E3). exists a', b', c', d'. split; [done|].
    rewrite <- Ea, <- Eb, <- Ec, <- Ed in *. do 3 (apply list.Forall_cons in Habc as [? Habc]). by repeat constructor.
  - intros (a & b & c & d & -> & H). do 4 (apply list.Forall_cons in H as [? H]).
    assert (∀ p, lang octet (bytes_of p) → str_forall is_ascii p = true) as Hasc.
    { intros p [_ Hp]%octet_bytes. apply (str_forall_bytes (λ b, b <? 128)). apply (list.Forall_impl _ _ _ Hp).
      intros x Hx%is_digit_byte. by zdecide. }
    unfold match_all. rewrite matches_lang, runes_ascii.
    + apply lang_dotted. exists (bytes_of a), (bytes_of b), (bytes_of c), (bytes_of d).
      rewrite !bytes_of_app. split; [done|]. split; [by repeat constructor|done].
    + by rewrite !str_forall_app, (Hasc a), (Hasc b), (Hasc c), (Hasc d) by done.
Qed.

(** ** Theorems *)

(** An address is accepted exactly if it consists of four numbers of one to three
    decimal digits, at most 255 each, with dots between them. *)
Theorem address_accepted (s : string) :
  ValidateIPAddress s = None
  ↔ ∃ a b c d, s = a +:+ "." +:+ b +:+ "." +:+ c +:+ "." +:+ d ∧ Forall is_octet [a; b; c; d].
Proof.
  unfold ValidateIPAddress. case_decide as E0.
  { split; [done|]. intros (a & b & c & d & E & _). subst. by destruct a. }
  destruct (match_all ipPattern s) eqn:Hm; simpl.
  - apply ip_match in Hm as (a & b & c & d & -> & H).
    assert (Forall (λ p, (1 <= str_len p <= 3)%nat ∧ Forall (λ b, is_digit b = true) (bytes_of p)) [a; b; c; d]) as Ho
      by (apply (list.Forall_impl _ _ _ H); intros p; apply octet_bytes).
    rewrite (Split_octets a b c d) by (apply (list.Forall_impl _ _ _ Ho); naive_solver).
    rewrite validate_octets_None by (apply (list.Forall_impl _ _ _ Ho); intros p [? ?]; split; [lia|done]).
    split.
    + intros Hv. exists a, b, c, d. split; [done|]. unfold is_octet. rewrite list.Forall_forall in *. naive_solver.
    + intros (a' & b' & c' & d' & E & H').
      assert ([a; b; c; d] = [a'; b'; c'; d']) as ->.
      { rewrite <- (Split_octets a b c d), <- (Split_octets a' b' c' d'); [by rewrite E| |].
        - apply (list.Forall_impl _ _ _ H'). unfold is_octet. naive_solver.
        - apply (list.Forall_impl _ _ _ Ho). naive_solver. }
      apply (list.Forall_impl _ _ _ H'). unfold is_octet. naive_solver.
  - split; [done|]. intros (a & b & c & d & E & H). rewrite <- not_true_iff_false in Hm. destruct Hm.
    apply ip_match. exists a, b, c, d. split; [done|]. apply (list.Forall_impl _ _ _ H).
    intros p (Hl & Hd & _). by apply octet_bytes.
Qed.

(** Whatever a validator of names, addresses or user names accepts contains
    nothing that the removal of dangerous characters would change: no control
    character, no space and no character of the shell. *)
Theorem accepted_texts_clean (s : string) :
  ValidateNetworkName s = None ∨ ValidateNamespaceName s = None ∨ ValidateIPAddress s = None ∨ ValidateCIDR s = None
  ∨ ValidateUsername s = None ∨ ValidateEmail s = None → SanitizeString s = s.
Proof.
  assert (∀ r, only harmless r → match_all r s = true → SanitizeString s = s) as Hr
    by (intros r Hr Hm; by eapply sanitize_harmless, match_harmless).
  unfold ValidateNetworkName, ValidateNamespaceName, validate_name, ValidateIPAddress, ValidateCIDR, ValidateUsername,
    ValidateEmail.
  intros [H|[H|[H|[H|[H|H]]]]]; revert H; case_decide; try done.
  - destruct (match_all namePattern s) eqn:E; [|done]. intros _. apply (Hr namePattern); [classes|done].
  - destruct (match_all namePattern s) eqn:E; [|done]. intros _. apply (Hr namePattern); [classes|done].
  - destruct (match_all ipPattern s) eqn:E; [|done]. intros _. by apply (Hr ipPattern ip_only).
  - destruct (match_all cidrPattern s) eqn:E; [|done]. intros _. apply (Hr cidrPattern); [classes|done].
  - case_match; [done|]. case_match; [done|]. destruct (match_all (Plus (Class user_char)) s) eqn:E; [|done].
    intros _. apply (Hr (Plus (Class user_char))); [classes|done].
  - destruct (match_all emailPattern s) eqn:E; [|done]. intros _. apply (Hr emailPattern); [classes|done].
Qed.

Lemma accepted_texts_clean_witness : ValidateCIDR "10.0.0.0/8" = None ∧ SanitizeString "10.0.0.0/8" = "10.0.0.0/8".
Proof.
  assert (ValidateCIDR "10.0.0.0/8" = None) as E by (vm_compute; reflexivity). split; [exact E|].
  apply accepted_texts_clean. right. right. right. left. exact E.
Defined.

(** A password is accepted exactly if it has 8 to 128 bytes and a capital letter, a
    small letter, a digit and a special character. *)
Theorem password_accepted (p : string) :
  ValidatePassword p = None
  ↔ (8 <= str_len p <= 128)%nat
    ∧ Forall (λ f : Z → bool, Exists (λ r, f r = true) (runes p)) [in_ranges [upper]; in_ranges [lower]; is_digit; special].
Proof.
  unfold ValidatePassword. destruct (Nat.ltb_spec (str_len p) 8); [split; [done|lia]|].
  destruct (Nat.ltb_spec 128 (str_len p)); [split; [done|lia]|].
  rewrite !list.Forall_cons, list.Forall_nil, <- !match_some_class.
  destruct (match_some (Class (in_ranges [upper])) p), (match_some (Class (in_ranges [lower])) p),
    (match_some (Class is_digit) p), (match_some (Class special) p); simpl; intuition (done || lia).
Qed.

(** Addresses with leading zeros are accepted here, while Go's parser of addresses
    refuses them. *)
Example leading_zeros : ValidateIPAddress "010.001.000.255" = None ∧ ParseIP "010.001.000.255" = None.
Proof. split; vm_compute; reflexivity. Qed.
