(* ===== verification/Pagination.v ===== *)
(** * Pagination

    A model of pkg/pagination: the parameters of a request, the query that is made
    of them, and the result of a page; with a table that the queries are run on and
    a client that follows the markers. *)
From Stdlib Require Import Ascii Sorting.
From S2P Require Import Prelude GoStrings NetIP Http.

Local Open Scope Z_scope.

Definition DefaultLimit : Z := 20.
Definition MaxLimit : Z := 1000.

Record Params := mkParams { Marker : string; Limit : Z; SortKey : string; SortDir : string }.

Record PageResult (A : Type) := mkPage {
  Items : list A; NextMarker : string; TotalCount : Z; p_Limit : Z; HasMore : bool
}.
Arguments mkPage {A} _ _ _ _ _.
Arguments Items {A} _.
Arguments NextMarker {A} _.
Arguments HasMore {A} _.

(** [c.Query] and [c.DefaultQuery]. *)
Definition DefaultQuery (query : gmap string string) (k d : string) : string := default d (query !! k).

Definition ParseParams (query : gmap string string) : Params :=
  let limit := default DefaultLimit (Atoi (DefaultQuery query "limit" "20")) in
  let limit := if limit <=? 0 then DefaultLimit else limit in
  let limit := if MaxLimit <? limit then MaxLimit else limit in
  let dir := DefaultQuery query "sort_dir" "desc" in
  mkParams (DefaultQuery query "marker" "") limit (DefaultQuery query "sort_key" "created_at")
    (if decide (dir ≠ "asc" ∧ dir ≠ "desc") then "desc" else dir).

(** A query: the text of ORDER BY, the condition with its argument, and the
    limit. *)
Record Query := mkQuery { Order : option string; Where : option (string * string); q_Limit : Z }.

Definition ApplyToQuery (p : Params) (markerColumn : string) : Query :=
  mkQuery (if decide (SortKey p = "") then None else Some (SortKey p +:+ " " +:+ SortDir p))
    (if decide (Marker p ≠ "" ∧ markerColumn ≠ "")
     then Some (markerColumn +:+ (if decide (SortDir p = "asc") then " > ?" else " < ?"), Marker p) else None)
    (Limit p + 1).

(** [getID] is asked for an index; outside the items it panics, which the index of
    the last item of a page never is. *)
Definition BuildResult {A} (items : list A) (totalCount : Z) (p : Params) (getID : Z → string) (length : Z) : PageResult A :=
  let hasMore := Limit p <? length in
  mkPage items (if hasMore then getID (Limit p - 1) else "") totalCount (Limit p) hasMore.

(** ** A table *)

(** Rows with a number as their key and the time of their creation. *)
Record Row := mkRow { id_ : Z; created_at : Z }.

Definition by_id (up : bool) (x y : Row) : bool := if up then id_ x <=? id_ y else id_ y <=? id_ x.
Definition by_date (up : bool) (x y : Row) : bool := if up then created_at x <=? created_at y else created_at y <=? created_at x.

(** The orders and conditions that name columns of the table; anything else is not
    SQL for it. *)
Definition order_of (text : string) : option (Row → Row → bool) :=
  if decide (text = "id asc") then Some (by_id true)
  else if decide (text = "id desc") then Some (by_id false)
  else if decide (text = "created_at asc") then Some (by_date true)
  else if decide (text = "created_at desc") then Some (by_date false)
  else None.

Definition condition (w : option (string * string)) : option (Row → bool) :=
  match w with
  | None => Some (λ _, true)
  | Some (c, arg) =>
      n ← ParseInt arg;
      if decide (c = "id > ?") then Some (λ r, n <? id_ r)
      else if decide (c = "id < ?") then Some (λ r, id_ r <? n) else None
  end.

Definition before (le : Row → Row → bool) (x y : Row) : Prop := le x y = true.

#[global] Instance before_dec le x y : Decision (before le x y).
Proof. unfold before. apply _. Defined.

(** The rows of a query; none if the database refuses it. *)
Definition run (q : Query) (table : list Row) : option (list Row) :=
  le ← match Order q with None => Some (λ _ _ : Row, true) | Some o => order_of o end;
  P ← condition (Where q);
  Some (take (Z.to_nat (q_Limit q)) (merge_sort (before le) (filter (λ r, P r = true) table))).

(** A list handler that pages by the key, as the package documents it. *)
Definition page (p : Params) (table : list Row) : option (PageResult Row) :=
  items ← run (ApplyToQuery p "id") table;
  Some (BuildResult items (Z.of_nat (length table)) p
          (λ i, default "" ((λ r, Itoa (id_ r)) <$> items !! Z.to_nat i)) (Z.of_nat (length items))).

Definition with_marker (m : string) (p : Params) : Params := mkParams m (Limit p) (SortKey p) (SortDir p).

(** A client that reads page after page: the items of all of them. *)
Fixpoint read_pages (n : nat) (p : Params) (table : list Row) : option (list (list Row)) :=
  match n with
  | O => None
  | S n =>
      r ← page p table;
      if HasMore r then cons (Items r) <$> read_pages n (with_marker (NextMarker r) p) table else Some [Items r]
  end.

(** ** Lemmas *)

Definition good_ids (l : list Row) : Prop :=
  NoDup (id_ <$> l) ∧ Forall (λ r, - 2 ^ 63 <= id_ r < 2 ^ 63) l.

#[local] Instance by_id_total up : Total (before (by_id up)).
Proof. intros x y. unfold before, by_id. destruct up; rewrite !Z.leb_le; lia. Qed.

#[local] Instance by_id_trans up : Transitive (before (by_id up)).
Proof. intros x y z. unfold before, by_id. destruct up; rewrite !Z.leb_le; lia. Qed.

(** The table in the order of its keys. *)
Definition sorted (up : bool) (table : list Row) : list Row := merge_sort (before (by_id up)) table.

(** Whether a row comes after a key. *)
Definition after (up : bool) (k : Z) (r : Row) : bool := if up then k <? id_ r else id_ r <? k.

Lemma sorted_perm up l : sorted up l ≡ₚ l.
Proof. apply merge_sort_Permutation. Qed.

Lemma sorted_strong up l : StronglySorted (before (by_id up)) (sorted up l).
Proof. apply StronglySorted_merge_sort; apply _. Qed.

Lemma sorted_unique up l1 l2 :
  NoDup (id_ <$> l1) → l1 ≡ₚ l2 → StronglySorted (before (by_id up)) l1 →
  StronglySorted (before (by_id up)) l2 → l1 = l2.
Proof.
  intros Hk Hp H1 H2. apply (StronglySorted_unique_strong (before (by_id up))); [|done..].
  intros x y Hx Hy Hxy Hyx. apply (nodup_key id_ l1); [done|done|by rewrite Hp|].
  unfold before, by_id in *. destruct up; zbool; lia.
Qed.

Lemma StronglySorted_filter {A} (R : A → A → Prop) (P : A → Prop) `{∀ x, Decision (P x)} l :
  StronglySorted R l → StronglySorted R (filter P l).
Proof.
  induction 1 as [|x l Hl IH Hx]; [constructor|]. rewrite filter_cons. case_decide; [|done]. constructor; [done|].
  rewrite list.Forall_forall in *. intros y Hy. apply Hx. by apply list_elem_of_filter in Hy as [_ ?].
Qed.

Lemma sorted_filter up (P : Row → bool) l :
  NoDup (id_ <$> l) → sorted up (filter (λ r, P r = true) l) = filter (λ r, P r = true) (sorted up l).
Proof.
  intros Hk. apply (sorted_unique up); [| |apply sorted_strong|apply StronglySorted_filter, sorted_strong].
  - rewrite sorted_perm. eapply sublist_NoDup; [exact Hk|]. apply fmap_sublist, sublist_filter.
  - by rewrite !sorted_perm.
Qed.

(** In a sorted list the rows after one of its keys are those that follow it. *)
Lemma after_key up l1 x l2 :
  NoDup (id_ <$> l1 ++ x :: l2) → StronglySorted (before (by_id up)) (l1 ++ x :: l2) →
  filter (λ r, after up (id_ x) r = true) (l1 ++ x :: l2) = l2.
Proof.
  intros Hk Hs. rewrite fmap_app, fmap_cons in Hk. apply list.NoDup_app in Hk as (_ & _ & Hk).
  apply list.NoDup_cons in Hk as [Hn _]. rewrite list.filter_app, filter_cons.
  assert (filter (λ r, after up (id_ x) r = true) l1 = []) as ->.
  { apply elem_of_nil_inv. intros y [Ha Hy]%list_elem_of_filter. assert (before (by_id up) y x) as Hyx
      by (by eapply StronglySorted_app_1_elem_of; [exact Hs|done|left]).
    unfold before, by_id, after in *. destruct up; zbool; lia. }
  rewrite decide_False by (unfold after; destruct up; rewrite Z.ltb_irrefl; done). simpl.
  apply filter_all, list.Forall_forall. intros y Hy. apply StronglySorted_app_1_r, StronglySorted_inv in Hs as [_ Hs].
  rewrite list.Forall_forall in Hs. specialize (Hs y Hy). assert (id_ y ≠ id_ x) by (intros E; apply Hn; rewrite <- E; by apply list_elem_of_fmap_2).
  unfold before, by_id, after in *. destruct up; zbool; apply Z.ltb_lt; lia.
Qed.

(** The parameters of a list in the order of the keys. *)
Definition id_params (up : bool) (limit : Z) (marker : string) : Params :=
  mkParams marker limit "id" (if up then "asc" else "desc").

Lemma run_after up limit table l1 x l2 :
  good_ids table → 0 <= limit → sorted up table = l1 ++ x :: l2 →
  run (ApplyToQuery (id_params up limit (Itoa (id_ x))) "id") table = Some (take (Z.to_nat (limit + 1)) l2).
Proof.
  intros [Hk Hr] Hl Hs. unfold ApplyToQuery. cbn [SortKey SortDir Marker Limit id_params].
  assert (x ∈ table) as Hx by (rewrite <- (sorted_perm up), Hs; apply elem_of_app; right; by left).
  rewrite list.Forall_forall in Hr. pose proof (Hr x Hx) as Hrx.
  assert (Itoa (id_ x) ≠ "") as Hne by (intros E; pose proof (ParseInt_Itoa _ Hrx) as E'; by rewrite E in E').
  rewrite (decide_True (P := Itoa (id_ x) ≠ "" ∧ "id" ≠ "")) by (split; [exact Hne|discriminate]).
  unfold run. cbn [Order Where q_Limit].
  assert (filter (λ r, after up (id_ x) r = true) (sorted up table) = l2) as Ha.
  { rewrite Hs. apply after_key; rewrite <- Hs; [|apply sorted_strong]. by rewrite sorted_perm. }
  rewrite <- sorted_filter in Ha by done.
  destruct up; simpl; rewrite (ParseInt_Itoa _ Hrx); simpl; unfold sorted, after in Ha; by rewrite Ha.
Qed.

Lemma run_first up limit table :
  run (ApplyToQuery (id_params up limit "") "id") table = Some (take (Z.to_nat (limit + 1)) (sorted up table)).
Proof.
  unfold ApplyToQuery, run, sorted. cbn [SortKey SortDir Marker Limit id_params Order Where q_Limit].
  destruct up; simpl; rewrite filter_all; try done; by apply Forall_true.
Qed.

(** Reading on from any point of the sorted table gives the rest of it: the pages
    without their extra items. *)
Lemma read_rest up limit table l rest marker n :
  good_ids table → 0 < limit → sorted up table = l ++ rest →
  run (ApplyToQuery (id_params up limit marker) "id") table = Some (take (Z.to_nat (limit + 1)) rest) →
  (length rest < n)%nat →
  ∃ pages, read_pages n (id_params up limit marker) table = Some pages
    ∧ concat (take (Z.to_nat limit) <$> pages) = rest.
Proof.
  intros Hg Hl. revert l rest marker. induction n as [|n IH]; intros l rest marker Hs Hrun Hn; [lia|].
  cbn [read_pages]. unfold page. rewrite Hrun. cbn [mbind option_bind BuildResult HasMore Items NextMarker Limit id_params].
  rewrite length_take. destruct (Z.ltb_spec limit (Z.of_nat (Z.to_nat (limit + 1) `min` length rest))) as [Hmore|Hlast].
  - set (k := Z.to_nat limit). assert (k < length rest)%nat as Hk by lia.
    destruct (lookup_lt_is_Some_2 rest (k - 1) ltac:(lia)) as [x Hx].
    assert (take (Z.to_nat (limit + 1)) rest !! Z.to_nat (limit - 1) = Some x) as ->.
    { rewrite lookup_take_lt by lia. by replace (Z.to_nat (limit - 1)) with (k - 1)%nat by lia. }
    cbn [fmap option_fmap option_map default with_marker SortKey SortDir id_params Limit].
    destruct (IH (l ++ take k rest) (drop k rest) (Itoa (id_ x))) as (pages & Hp & Hc).
    + by rewrite <- app_assoc, take_drop.
    + apply (run_after up limit table (l ++ take (k - 1) rest) x); [done|lia|]. rewrite Hs, <- app_assoc. f_equal.
      rewrite <- (take_drop_middle rest (k - 1) x Hx) at 1. do 2 f_equal. f_equal. lia.
    + rewrite length_drop. lia.
    + match goal with |- context [read_pages n ?q table] => change q with (id_params up limit (Itoa (id_ x))) end.
      rewrite Hp. exists (take (Z.to_nat (limit + 1)) rest :: pages). split; [reflexivity|].
      rewrite fmap_cons. cbn [concat]. fold k in Hc. rewrite Hc, take_take.
      replace (k `min` Z.to_nat (limit + 1))%nat with k by lia. by rewrite take_drop.
  - eexists. split; [reflexivity|]. simpl. rewrite app_nil_r, take_take. apply take_ge. lia.
Qed.

(** ** Theorems *)

(** A client that lists a table in the order of its keys and follows the markers
    comes to an end, and the pages without their extra items are the table, each row
    once and in order. *)
Theorem pages_complete (up : bool) (limit : Z) (table : list Row)
    (Hk : NoDup (id_ <$> table)) (Hr : Forall (λ r, - 2 ^ 63 <= id_ r < 2 ^ 63) table) (Hl : 0 < limit) :
  ∃ pages, read_pages (S (length table)) (id_params up limit "") table = Some pages
    ∧ concat (take (Z.to_nat limit) <$> pages) ≡ₚ table
    ∧ StronglySorted (λ x y, by_id up x y = true) (concat (take (Z.to_nat limit) <$> pages)).
Proof.
  destruct (read_rest up limit table [] (sorted up table) "" (S (length table))) as (pages & Hp & Hc);
    [by split|done|done|apply run_first|rewrite sorted_perm; lia|].
  exists pages. rewrite Hc. split; [done|]. split; [apply sorted_perm|apply sorted_strong].
Qed.

Definition three_rows : list Row := [mkRow 1 10; mkRow 2 30; mkRow 3 20].

Lemma pages_complete_witness :
  ∃ pages, read_pages 4 (id_params true 2 "") three_rows = Some pages ∧ concat (take 2 <$> pages) ≡ₚ three_rows.
Proof.
  destruct (pages_complete true 2 three_rows) as (pages & Hp & Hc & _).
  - apply (bool_decide_unpack _). vm_compute. exact I.
  - apply (bool_decide_unpack _). vm_compute. exact I.
  - lia.
  - exists pages. split; [exact Hp|exact Hc].
Defined.

(** The result of a page holds the extra item that was only read to see whether
    there is more: it is shown twice. *)
Theorem extra_item_shown :
  read_pages 3 (id_params true 2 "") three_rows = Some [[mkRow 1 10; mkRow 2 30; mkRow 3 20]; [mkRow 3 20]].
Proof. vm_compute. reflexivity. Qed.

(** With the parameters a request has by default, rows are sorted by the time of
    their creation while the marker is compared with their key: the row with key 3 is
    on no page. *)
Theorem default_order_skips :
  read_pages 5 (ParseParams {[ "limit" := "1" ]}) [mkRow 1 10; mkRow 2 40; mkRow 3 20; mkRow 4 30]
  = Some [[mkRow 2 40; mkRow 4 30]; [mkRow 1 10]].
Proof. vm_compute. reflexivity. Qed.

(** Whatever a request gives as its sort key is part of the query's text. *)
Theorem sort_key_injected (query : gmap string string) (text : string) (Ht : text ≠ "") :
  Order (ApplyToQuery (ParseParams (<["sort_key" := text]> query)) "id")
  = Some (text +:+ " " +:+ SortDir (ParseParams query)).
Proof.
  unfold ApplyToQuery, ParseParams. cbn [SortKey SortDir Order]. unfold DefaultQuery.
  rewrite lookup_insert_eq. cbn [default]. rewrite decide_False by done. by rewrite lookup_insert_ne.
Qed.

Lemma sort_key_injected_witness :
  Order (ApplyToQuery (ParseParams (<["sort_key" := "(select 1);"]> ∅)) "id") = Some "(select 1); desc".
Proof. exact (sort_key_injected ∅ "(select 1);" ltac:(discriminate)). Defined.
