(* ===== verification/HttpMiddleware.v ===== *)
(** * General middleware

    A model of internal/management/middleware: middleware.go and tracing.go, and of
    pkg/apiversion: request identification, the limit of requests per address,
    security headers, logging, tenant isolation, administrators only, the tokens
    against forged requests, and version headers. A middleware goes on with the
    context of the request and the headers of the answer, or answers itself. *)
From Stdlib Require Import Ascii Sorting.
From S2P Require Import Prelude GoStrings Utf8 NetIP Http GoFloat Rbac ApiErrors.
From S2P Require RateLimit Sha256.

Local Open Scope Z_scope.

(** What a request brings beside its headers and cookies. *)
Record Conn := mkConn { request : Request; ClientIP : string; UserAgent : string; TLS : bool; RawQuery : string }.

(** The keys of the context and the headers of the answer. *)
Record Exchange := mkExchange { ctx : Keys; headers : gmap string string }.

Inductive step := Go (x : Exchange) | Stop (r : response) (x : Exchange).

Definition set_key (k : string) (v : any) (x : Exchange) : Exchange := mkExchange (<[k := v]> (ctx x)) (headers x).
Definition set_header (k v : string) (x : Exchange) : Exchange := mkExchange (ctx x) (<[k := v]> (headers x)).

Definition key_string (k : string) (c : Keys) : option string := match c !! k with Some (AStr s) => Some s | _ => None end.

(** The trace that error answers read. *)
Definition trace_of (conn : Conn) (x : Exchange) : Trace :=
  mkTrace (key_string "request_id" (ctx x)) (GetHeader (request conn) "X-Request-ID").

Definition refuse (conn : Conn) (e : APIError) (x : Exchange) : step := Stop (Respond (trace_of conn x) e) x.

(** ** Request context *)

(** The value stored under request_context. *)
Definition InjectRequestContext (conn : Conn) (c : Keys) : gmap string any :=
  let add (from to : string) (m : gmap string any) := match c !! from with Some v => <[to := v]> m | None => m end in
  add "tenant_id" "project_id" (add "username" "username" (add "user_id" "user_id"
    (list_to_map [("source_ip", AStr (ClientIP conn)); ("user_agent", AStr (UserAgent conn)); ("is_secure", ABool (TLS conn))]))).

Definition BuildRequestContextFromGin (conn : Conn) (c : Keys) : gmap string string :=
  let add (from to : string) (m : gmap string string) := match key_string from c with Some s => <[to := s]> m | None => m end in
  add "tenant_id" "vc:ProjectId" (add "username" "vc:Username" (add "user_id" "vc:UserId"
    (list_to_map [("vc:SourceIp", ClientIP conn); ("vc:UserAgent", UserAgent conn);
                  ("vc:SecureTransport", if TLS conn then "true" else "false")]))).

(** ** Requests per address *)

Section limit.
Context {buckets : RateLimit.Limiters}.

Record client := mkClient { limiter_ : RateLimit.limiter; lastSeen : Z }.

(** The variables of the closure: the rate, the burst and the clients. *)
Definition cleanup (now : Z) (clients : gmap string client) : gmap string client :=
  filter (λ kv, ¬ time_sub now (lastSeen kv.2) > 3 * minute) clients.

Definition client_bucket (rps : float64) (burst : Z) (clients : gmap string client) (ip : string) : RateLimit.limiter :=
  match clients !! ip with Some c => limiter_ c | None => RateLimit.NewLimiter rps burst end.

Definition RateLimitMiddleware (rps : float64) (burst now : Z) (conn : Conn) (clients : gmap string client) (x : Exchange)
    : step * gmap string client :=
  let ip := ClientIP conn in
  let (ok, l) := RateLimit.Allow now (client_bucket rps burst clients ip) in
  (if ok : bool then Go x else refuse conn ErrRateLimited x, <[ip := mkClient l now]> clients).
End limit.

(** ** Identification of requests *)

(** Twelve random bytes, or the time if there are none. *)
Definition generateRequestID (random : option (list Z)) (now : string) : string :=
  match random with Some b => Sha256.EncodeToString b | None => now end.

(** The identification a request brings or a new one. *)
Definition request_id (conn : Conn) (new : string) : string :=
  let id := GetHeader (request conn) "X-Request-ID" in if decide (id = "") then new else id.

Definition RequestIDMiddleware (random : option (list Z)) (now : string) (conn : Conn) (x : Exchange) : step :=
  let id := request_id conn (generateRequestID random now) in
  Go (set_header "X-Request-ID" id (set_key "request_id" (AStr id) x)).

Inductive level := Info | Warn | Error_.

(** What is logged: the level, the text and the fields. *)
Definition log_entry : Type := level * string * list (string * json).

Definition RequestTracing (uuid : string) (conn : Conn) (x : Exchange) : step :=
  let id := request_id conn uuid in
  Go (set_header "X-Request-ID" id (set_key "request_id" (AStr id) x)).

(** The log after the request, with its status and duration. *)
Definition RequestTracing_log (uuid : string) (conn : Conn) (status duration : Z) : option log_entry :=
  let fields := [("request_id", JStr (request_id conn uuid)); ("method", JStr (Method (request conn)));
                 ("path", JStr (Path (request conn))); ("status", JNum status); ("duration", JNum duration);
                 ("client_ip", JStr (ClientIP conn))] in
  if 500 <=? status then Some (Error_, "request completed with server error", fields)
  else if 400 <=? status then Some (Warn, "request completed with client error", fields)
  else if 5 * second <? duration then Some (Warn, "slow request detected", fields)
  else None.

Definition GetRequestID (c : Keys) : string := default "" (key_string "request_id" c).

Definition LoggingMiddleware (conn : Conn) (c : Keys) (status latency : Z) : log_entry :=
  let fields := [("method", JStr (Method (request conn))); ("path", JStr (Path (request conn)));
                 ("query", JStr (RawQuery conn)); ("status", JNum status); ("ip", JStr (ClientIP conn));
                 ("latency", JNum latency); ("user_agent", JStr (UserAgent conn))]
                ++ match key_string "request_id" c with Some id => [("request_id", JStr id)] | None => [] end in
  if 500 <=? status then (Error_, "request error", fields)
  else if 400 <=? status then (Warn, "request warning", fields)
  else (Info, "request", fields).

(** ** Headers *)

Definition SecurityHeadersMiddleware (release : bool) (x : Exchange) : step :=
  let x := set_header "X-Frame-Options" "DENY" x in
  let x := set_header "X-Content-Type-Options" "nosniff" x in
  let x := set_header "X-XSS-Protection" "1; mode=block" x in
  let x := if release then set_header "Strict-Transport-Security" "max-age=31536000; includeSubDomains; preload" x else x in
  let x := set_header "Content-Security-Policy" "default-src 'self'; script-src 'self'; style-src 'self' 'unsafe-inline'; img-src 'self' data: https:; font-src 'self' data:; connect-src 'self'" x in
  let x := set_header "Referrer-Policy" "strict-origin-when-cross-origin" x in
  Go (set_header "Permissions-Policy" "geolocation=(), microphone=(), camera=(), payment=(), usb=()" x).

(** ** Tenants and administrators *)

Definition TenantIsolationMiddleware (conn : Conn) (x : Exchange) : step :=
  match ctx x !! "tenant_id" with
  | None => refuse conn (ErrAccessDenied "tenant isolation required") x
  | Some t => Go (set_key "filter_tenant_id" t x)
  end.

Definition AdminOnlyMiddleware (conn : Conn) (x : Exchange) : step :=
  match ctx x !! "is_admin" with
  | Some (ABool true) => Go x
  | _ => refuse conn (ErrAccessDenied "admin access required") x
  end.

(** ** Forged requests *)

Definition safe_method (m : string) : bool := bool_decide (m ∈ ["GET"; "HEAD"; "OPTIONS"]).

Definition CSRFMiddleware (conn : Conn) (x : Exchange) : step :=
  if safe_method (Method (request conn)) then Go x
  else match Cookie (request conn) "csrf_token" with
       | None | Some EmptyString => refuse conn (ErrValidation "missing CSRF token cookie") x
       | Some cookieToken =>
           let headerToken := GetHeader (request conn) "X-CSRF-Token" in
           if decide (headerToken = "") then refuse conn (ErrValidation "missing X-CSRF-Token header") x
           else if decide (bytes_of cookieToken = bytes_of headerToken) then Go x
           else refuse conn (ErrAccessDenied "CSRF token mismatch") x
       end.

Definition generateCSRFToken (random : option (list Z)) (now : string) : string :=
  match random with Some b => Sha256.EncodeToString b | None => Sha256.EncodeToString (bytes_of now) end.

(** The cookie that is set and the answer. *)
Definition CSRFTokenHandler (random : option (list Z)) (now : string) : string * response :=
  let token := generateCSRFToken random now in (token, said 200 "csrf_token" token).

(** ** API versions *)

Record VersionInfo := mkVersion { Version : string; v_Status : string; SunsetDate : string }.

Definition SupportedVersions : list VersionInfo := [mkVersion "v1" "current" ""].
Definition CurrentVersion : string := "v1".

Fixpoint trim_slashes (s : string) : string :=
  match s with String "/" s => trim_slashes s | _ => s end.

(** The first part after "api" that begins with a v. *)
Fixpoint version_part (parts : list string) : string :=
  match parts with
  | p :: ((v :: _) as rest) => if bool_decide (p = "api") && HasPrefix v "v" then v else version_part rest
  | _ => ""
  end.

Definition extractVersion (path : string) : string := version_part (Split (trim_slashes path) "/").

(** The middleware for a list of versions. *)
Definition version_headers (versions : list VersionInfo) (conn : Conn) (x : Exchange) : step :=
  let version := extractVersion (Path (request conn)) in
  let version := if decide (version = "") then CurrentVersion else version in
  let x := set_header "X-API-Version" version x in
  let deprecated := filter (λ v, v_Status v = "deprecated" ∧ Version v = version) versions in
  Go match list.last deprecated with
     | None => x
     | Some info =>
         let x := set_header "X-API-Deprecated" "true" x in
         if decide (SunsetDate info = "") then x else set_header "Sunset" (SunsetDate info) x
     end.

Definition Middleware : Conn → Exchange → step := version_headers SupportedVersions.

Definition VersionsHandler : response :=
  (200, JObj [("versions", JList ((λ v, JObj [("Version", JStr (Version v)); ("Status", JStr (v_Status v));
                                              ("SunsetDate", JStr (SunsetDate v))]) <$> SupportedVersions));
              ("current", JStr CurrentVersion)]).

(** ** Requests per address: lemmas *)

Section limit_lemmas.
Context {buckets : RateLimit.Limiters}.
Variables (rps : float64) (burst : Z).

(** A request at a time, or a round of the cleanup. *)
Inductive op := Arrive (now : Z) (conn : Conn) | Clean (now : Z).

Definition time_of (o : op) : Z := match o with Arrive now _ | Clean now => now end.

Definition serve (x : Exchange) (o : op) (m : gmap string client) : gmap string client :=
  match o with
  | Arrive now conn => (RateLimitMiddleware rps burst now conn m x).2
  | Clean now => cleanup now m
  end.

(** How many requests of an address go on. *)
Fixpoint admitted (x : Exchange) (ip : string) (os : list op) (m : gmap string client) : Z :=
  match os with
  | [] => 0
  | o :: os =>
      match o with
      | Arrive now conn =>
          if decide (ClientIP conn = ip) then
            match (RateLimitMiddleware rps burst now conn m x).1 with Go _ => 1 | Stop _ _ => 0 end
          else 0
      | Clean _ => 0
      end + admitted x ip os (serve x o m)
  end.

Definition arrivals (ip : string) (os : list op) : list Z :=
  omap (λ o, match o with Arrive now conn => if decide (ClientIP conn = ip) then Some now else None | Clean _ => None end) os.

Definition within (t0 elapsed t : Z) : Prop := t0 <= t <= t0 + elapsed.

Lemma cleanup_recent now m ip t0 :
  within t0 (3 * minute) now → (∀ c, m !! ip = Some c → within t0 (3 * minute) (lastSeen c)) →
  cleanup now m !! ip = m !! ip.
Proof.
  intros Hn Hm. unfold cleanup. destruct (m !! ip) as [c|] eqn:E.
  - apply map_lookup_filter_Some. split; [done|]. simpl. specialize (Hm c eq_refl).
    unfold within, time_sub, min_duration, max_duration, minute, second in *. lia.
  - apply map_lookup_filter_None. by left.
Qed.

Lemma client_admitted x ip os m t0 :
  Forall (λ o, within t0 (3 * minute) (time_of o)) os →
  (∀ c, m !! ip = Some c → within t0 (3 * minute) (lastSeen c)) →
  admitted x ip os m = RateLimit.allowed RateLimit.Allow (client_bucket rps burst m ip) (arrivals ip os).
Proof.
  intros Hos. revert m. induction Hos as [|o os Ho Hos IH]; intros m Hm; [done|]. cbn [admitted].
  destruct o as [now conn|now]; cbn [time_of] in Ho.
  - unfold arrivals. cbn [omap list_omap serve]. fold (arrivals ip os). unfold RateLimitMiddleware.
    destruct (RateLimit.Allow now (client_bucket rps burst m (ClientIP conn))) as [ok l] eqn:Ea. cbn [fst snd].
    case_decide as E; subst; cbn [RateLimit.allowed].
    + rewrite Ea. rewrite IH; [|intros c; rewrite lookup_insert_eq; by intros [= <-]].
      unfold client_bucket at 1. rewrite lookup_insert_eq. by destruct ok.
    + rewrite IH; [|intros c; rewrite lookup_insert_ne by done; apply Hm].
      unfold client_bucket. by rewrite lookup_insert_ne.
  - unfold arrivals. cbn [omap list_omap serve]. fold (arrivals ip os).
    pose proof (cleanup_recent now m ip t0 Ho Hm) as E. rewrite IH; [|intros c; rewrite E; apply Hm].
    unfold client_bucket. by rewrite E.
Qed.

Lemma arrivals_times ip os : arrivals ip os `sublist_of` (time_of <$> os).
Proof.
  induction os as [|[now conn|now] os IH]; cbn [arrivals omap list_omap]; [done| |by apply sublist_cons].
  rewrite fmap_cons. case_decide; [by apply sublist_skip|by apply sublist_cons].
Qed.

Lemma forall_sublist {A} (P : A → Prop) l k : l `sublist_of` k → Forall P k → Forall P l.
Proof. intros Hs H. rewrite list.Forall_forall in *. intros x Hx. apply H. by eapply elem_of_sublist. Qed.

Lemma sorted_sublist (l k : list Z) : l `sublist_of` k → Sorted Z.le k → Sorted Z.le l.
Proof.
  intros Hs H%Sorted_StronglySorted; [|intros ? ? ?; lia]. apply StronglySorted_Sorted.
  induction Hs as [|x l k Hs IH|x l k Hs IH]; [constructor| |].
  - apply StronglySorted_inv in H as [H1 H2]. constructor; [by apply IH|]. by eapply forall_sublist.
  - apply StronglySorted_inv in H as [H1 _]. by apply IH.
Qed.
End limit_lemmas.

(** ** Theorems *)

(** Of the requests of one address within three minutes, among those of others
    and rounds of the cleanup, as many go on as the burst and the rate allow. *)
Theorem address_limited `{RateLimit.Limiters} (rps : float64) (burst : Z) (x : Exchange) (ip : string) (os : list op)
    (m : gmap string client) (t0 elapsed n : Z) (d : positive)
    (Hb : 0 <= burst) (Hm : m !! ip = None) (Hs : Sorted Z.le (time_of <$> os))
    (Hw : Forall (λ o, within t0 elapsed (time_of o)) os) (He : 0 <= elapsed <= 3 * minute)
    (Hr : RateLimit.rate_le rps n d) :
  admitted rps burst x ip os m * Zpos d * second <= burst * Zpos d * second + n * elapsed.
Proof.
  rewrite (client_admitted rps burst x ip os m t0).
  - unfold client_bucket. rewrite Hm. eapply RateLimit.Allow_bounded; [done|lia|exact Hr| |].
    + eapply sorted_sublist; [apply arrivals_times|done].
    + eapply forall_sublist; [apply arrivals_times|]. by apply Forall_fmap.
  - apply (list.Forall_impl _ _ _ Hw). unfold within. lia.
  - intros c. by rewrite Hm.
Qed.

(** C39: A request that changes something goes on exactly if its header repeats the
    token of its cookie, and a request that only reads always does. *)
Theorem forged_requests_refused (conn : Conn) (x : Exchange) :
  (∃ y, CSRFMiddleware conn x = Go y)
  ↔ Method (request conn) ∈ ["GET"; "HEAD"; "OPTIONS"]
    ∨ ∃ token, token ≠ "" ∧ Cookie (request conn) "csrf_token" = Some token
        ∧ GetHeader (request conn) "X-CSRF-Token" = token.
Proof.
  assert (∀ s t, bytes_of s = bytes_of t → s = t) as Hinj.
  { induction s as [|a s IH]; intros [|b t]; simpl; try done. intros [= E1 E2]. f_equal; [by apply byte_of_inj|by apply IH]. }
  unfold CSRFMiddleware, safe_method, refuse.
  destruct (bool_decide_reflect (Method (request conn) ∈ ["GET"; "HEAD"; "OPTIONS"])) as [Hm|Hm]; [naive_solver|].
  destruct (Cookie (request conn) "csrf_token") as [[|a token]|] eqn:Ec; [naive_solver| |naive_solver].
  case_decide as Eh; [rewrite Eh; naive_solver|]. case_decide as E.
  - apply Hinj in E. split; [intros _; right|by eauto]. exists (String a token). by rewrite <- E.
  - split; [by intros [y ?]|]. intros [?|(t & _ & [= <-] & Et)]; [done|]. by rewrite Et in E.
Qed.

(** The token that is issued passes when it is sent back as cookie and header. *)
Theorem issued_token_passes (random : list Z) (now : string) (conn : Conn) (x : Exchange)
    (Hn : random ≠ [])
    (Hc : Cookie (request conn) "csrf_token" = Some (CSRFTokenHandler (Some random) now).1)
    (Hh : GetHeader (request conn) "X-CSRF-Token" = (CSRFTokenHandler (Some random) now).1) :
  CSRFMiddleware conn x = Go x.
Proof.
  unfold CSRFMiddleware. destruct (safe_method _); [done|]. rewrite Hc, Hh. destruct random as [|b random]; [done|].
  simpl. by rewrite !decide_True by done.
Qed.

(** Behind the authentication only tokens of administrators pass. *)
Theorem admins_only jwtParse (jwtSecret token : string) (conn : Conn) (c : Keys) (claims : Keys)
    (Hh : GetHeader (request conn) "Authorization" = "Bearer " +:+ token) (Ht : jwtParse jwtSecret token = Some claims) :
  match AuthMiddleware jwtParse None jwtSecret (request conn) c with
  | Next c' =>
      (∃ y, AdminOnlyMiddleware conn (mkExchange c' ∅) = Go y) ↔ claims !! "is_admin" = Some (ABool true)
  | Abort _ _ => False
  end.
Proof.
  assert (auth_header (request conn) = "Bearer " +:+ token) as Ea by (unfold auth_header; rewrite Hh; by rewrite decide_False).
  unfold AuthMiddleware. rewrite Ea.
  change (SplitN ("Bearer " +:+ token) " " 2) with ["Bearer"; token]. simpl. rewrite Ht.
  unfold AdminOnlyMiddleware. cbn [ctx].
  assert (set_claims claims c !! "is_admin" = Some (claim claims "is_admin")) as ->.
  { unfold set_claims. cbn [fold_left]. rewrite !lookup_insert_ne by discriminate. by rewrite lookup_insert_eq. }
  unfold claim, refuse. destruct (claims !! "is_admin") as [[|[]| | | | |]|]; naive_solver.
Qed.

(** Whatever error a handler behind the tracing answers with, the answer names the
    request as the request named itself, or by a new identification, and so does its
    header. *)
Theorem errors_traced (uuid : string) (conn : Conn) (x : Exchange) (e : APIError) (Hu : uuid ≠ "") :
  let id := if decide (GetHeader (request conn) "X-Request-ID" = "") then uuid else GetHeader (request conn) "X-Request-ID" in
  match RequestTracing uuid conn x with
  | Go y => Respond (trace_of conn y) e = (HTTPStatus e, error_json (set_request_id id e))
            ∧ headers y !! "X-Request-ID" = Some id ∧ GetRequestID (ctx y) = id
  | Stop _ _ => False
  end.
Proof.
  intros id. unfold RequestTracing, request_id. fold id.
  assert (id ≠ "") as Hid by (unfold id; by case_decide).
  unfold trace_of, GetRequestID, key_string, Respond. cbn [ctx set_header set_key headers].
  rewrite !lookup_insert_eq. cbn [ctx_request_id default]. rewrite decide_False by done. done.
Qed.

(** ** Witnesses *)

Definition example_request (method : string) (hs : gmap string string) (cookie : option string) : Request :=
  mkRequest (λ k, default "" (hs !! k)) (λ _, cookie) (λ _, "") method "/api/v1/instances".

Definition example_conn (method : string) (hs : gmap string string) (cookie : option string) : Conn :=
  mkConn (example_request method hs cookie) "10.0.0.1" "curl" false "".

Definition no_exchange : Exchange := mkExchange ∅ ∅.

Lemma address_limited_witness :
  admitted (buckets := RateLimit.Exact.exact_buckets) (of_Z 1) 2 no_exchange "10.0.0.1"
    (replicate 5 (Arrive 0 (example_conn "GET" ∅ None))) ∅ * 1 * second <= 2 * 1 * second + 1 * 0.
Proof.
  apply (@address_limited RateLimit.Exact.exact_buckets (of_Z 1) 2 no_exchange "10.0.0.1"
           (replicate 5 (Arrive 0 (example_conn "GET" ∅ None))) ∅ 0 0 1 1);
    [lia|reflexivity|repeat constructor; simpl; lia|repeat constructor; vm_compute; discriminate
    |vm_compute; split; discriminate|vm_compute; discriminate].
Defined.

Lemma issued_token_passes_witness :
  CSRFMiddleware (example_conn "POST" {[ "X-CSRF-Token" := "00ff" ]} (Some "00ff")) no_exchange = Go no_exchange.
Proof.
  apply (issued_token_passes [0; 255] "" (example_conn "POST" {[ "X-CSRF-Token" := "00ff" ]} (Some "00ff")) no_exchange);
    [discriminate|reflexivity|reflexivity].
Defined.

Lemma admins_only_witness :
  match AuthMiddleware (λ _ _, Some {[ "is_admin" := ABool true ]}) None "secret"
          (example_request "GET" {[ "Authorization" := "Bearer t" ]} None) ∅ with
  | Next c' =>
      (∃ y, AdminOnlyMiddleware (example_conn "GET" {[ "Authorization" := "Bearer t" ]} None) (mkExchange c' ∅) = Go y)
      ↔ ({[ "is_admin" := ABool true ]} : Keys) !! "is_admin" = Some (ABool true)
  | Abort _ _ => False
  end.
Proof.
  exact (admins_only (λ _ _, Some {[ "is_admin" := ABool true ]}) "secret" "t"
           (example_conn "GET" {[ "Authorization" := "Bearer t" ]} None) ∅ {[ "is_admin" := ABool true ]} eq_refl eq_refl).
Defined.

Lemma errors_traced_witness :
  Respond (trace_of (example_conn "GET" ∅ None)
             (set_header "X-Request-ID" "u1" (set_key "request_id" (AStr "u1") no_exchange))) ErrRateLimited
  = (429, error_json (set_request_id "u1" ErrRateLimited)).
Proof. exact (proj1 (errors_traced "u1" (example_conn "GET" ∅ None) no_exchange ErrRateLimited ltac:(discriminate))). Defined.

(** The user of a token is a number, which the context of the policies leaves out. *)
Theorem user_left_out (conn : Conn) (c : Keys) (n : Z) (Hc : c !! "user_id" = Some (AFloat n)) :
  BuildRequestContextFromGin conn c !! "vc:UserId" = None.
Proof.
  unfold BuildRequestContextFromGin, key_string. rewrite Hc.
  destruct (c !! "tenant_id") as [[]|], (c !! "username") as [[]|]; rewrite ?lookup_insert_ne by discriminate;
    vm_compute; reflexivity.
Qed.

Lemma user_left_out_witness :
  BuildRequestContextFromGin (example_conn "GET" ∅ None) {[ "user_id" := AFloat 1 ]} !! "vc:UserId" = None.
Proof. apply (user_left_out (example_conn "GET" ∅ None) {[ "user_id" := AFloat 1 ]} 1). reflexivity. Defined.
